(* ===== verification/_CoqProject ===== *)
-Q . S2P
Prelude.v
Slice.v
Status.v
EnumSet.v
Interval.v
OptionsType.v
Pinnable.v
WriteBuffer.v
Scan.v
Virtual.v
Database.v
FileSystem.v
Env.v
EnvFiles.v
Mirror.v
Wrappers.v
Txn.v
Hooks.v
Registry.v
Options.v
Compressors.v
Memtable.v
Statistics.v
Backup.v
Listener.v
GoLib.v
Transaction.v
Poh.v
Schedule.v
Consensus.v
Block.v
Store.v
BlockStore.v
Locks.v
Providers.v
Tuning.v
Ledger.v
Mempool.v
Node.v
Validator.v
Supply.v
Progress.v
Sync.v
Gossip.v
Bootstrap.v
Limits.v
Events.v
Client.v
Service.v
Gateway.v
Boot.v
Transfer.v
Migration.v
