(* ===== verification/Prelude.v ===== *)
(** * Verification of the MMN node and of the storage headers it ships

    MMN (src/) is a blockchain node in Go with a proof-of-history clock, a leader
    schedule and voting; src/libs/rocksdb/ has the C++ headers of the storage
    engine it links.  This library models both as executable definitions and
    proves what makes each component correct, up to facts about whole runs of a
    node.

    ** The node, and which file models which part

    A client builds and signs a transaction (client/) and sends it to the gRPC
    server (network/, service/), which passes it to the mempool (mempool/).  The
    validator (validator/) follows the leader schedule (poh/lead_schedule.go);
    while it leads it pulls batches from the mempool, mixes them into the hash
    clock (poh/) and assembles a block of the entries of its slot (block/), which
    the network layer (p2p/) stores, broadcasts and votes for.  A node that
    receives a block checks it, stores it as pending and votes; when the collector
    (consensus/) has enough votes the ledger (ledger/) applies the block to the
    accounts, and the block store (store/) writes the block, the accounts and the
    metas in one batch.  Nodes that are behind ask others for blocks.

    - GoLib.v: what is used of the Go standard library (hex, big-endian integers,
      formatted printing, splitting).
    - Transaction.v: transaction/transaction.go, zkverify/, common/base58.go.
      [Transaction] with [Serialize], [Hash], [DedupHash] and [Verify], and the
      verifier of the zero-knowledge proofs with its cache.
    - Poh.v: poh/poh.go, poh_recorder.go, poh_service.go, verify.go, utils.go,
      slot_hash_queue.go.  [Poh] and [PohRecorder] are the structs; an operation
      is a function of the old state that returns the new one.
    - Schedule.v: poh/lead_schedule.go.  Consensus.v: consensus/.
      Block.v: block/block.go.
    - Store.v, BlockStore.v: store/.  [Storage] is the database with a script of
      which of its next operations fail and the counters the block store keeps in
      memory; operations are in a state-and-error monad [ST].  Providers.v: db/
      and store/factory.go, the database providers that the stores run over.
      Tuning.v: the options the RocksDB provider opens its database with, as the
      structs of Options.v.
    - Ledger.v: ledger/ledger.go, with the genesis accounts and the versions of
      user contents.
    - Mempool.v: mempool/, and the deduplication service; [mp_step] is the step
      relation of the calls that interleave at the lock.  Progress.v: no
      transaction waits for ever.
    - Node.v: the handlers of p2p/ for blocks, empty blocks, votes, transactions
      and synchronised blocks; [Node] has the state they share, [handle] is one
      message.
    - Validator.v: validator/validator.go on top of Node.v.  [vaction] has the
      beats of the timers, the ends of the wait for the previous leader and the
      messages of the network, [vstep] runs one, [vrun] a sequence of them.
      Supply.v: facts about all these runs.
    - Sync.v: serving blocks, request tracking, checkpoints and the start of a
      node (p2p/block.go, tracker.go, utils.go, discovery.go).  Gossip.v: the handlers
      of topics and streams around Node.v and Sync.v, and what a node publishes; [Peer]
      is a node of the network, [peer_receive] what it does with bytes that arrive.
      Bootstrap.v: bootstrap/, discovery/ and p2p/network.go, joining the network.
    - Locks.v: the locks of single slots of store/blockstore.go; [step] interleaves the
      atomic operations of goroutines and of the cleanup.
    - Limits.v: security/abuse and security/ratelimit.  Events.v: events/ and
      transaction/tracker.go.
    - Client.v: client/ and the conversions of utils/convert.go.  Service.v:
      service/ and the methods of network/server_grpc.go.  Gateway.v: what is
      between a client and the services, the interceptors of gRPC and the JSON-RPC
      server (jsonrpc/), and the health check.
    - Boot.v: config/config.go and cmd/init.go, keys and the genesis block.
      Transfer.v: the calls of client/client.go and cmd/transfer.go, run against the
      services.  Migration.v: mezon-migration/, over an interface [Chain] of the node.

    The headers of the storage engine (libs/rocksdb/):
    - Slice.v: slice.h, comparator.h.  Status.v: status.h, io_status.h.
    - EnumSet.v: the enum sets of data_structure.h.  Interval.v: its intervals and
      interval sets.
    - OptionsType.v: utilities/options_type.h.
    - Pinnable.v: cleanable.h, wide_columns.h, attribute_groups.h, the pinnable
      slices of slice.h and the managed pointers of data_structure.h.
    - WriteBuffer.v: write_buffer_manager.h.  Scan.v: multi_scan.h and the scan
      ranges of options.h.
    - Virtual.v: virtual functions.  A call is a value of a type of calls, a class
      a table of overriding functions, and [dispatch] runs a call on an object.
      Database.v: db.h and utilities/stackable_db.h.  FileSystem.v: file_system.h.
      Env.v, EnvFiles.v: env.h, environments and their files.  Mirror.v:
      utilities/env_mirror.h, an environment over two others.  Wrappers.v:
      advanced_cache.h, secondary_cache.h, system_clock.h and customizable.h.
      Txn.v: utilities/transaction.h.  Hooks.v: compaction_filter.h, the handlers of write_batch.h, rate_limiter.h
      and comparator.h.
    - Registry.v: utilities/object_registry.h and customizable_util.h.
    - Options.v: the enums and option structs of options.h, advanced_options.h,
      table.h, compression_type.h, universal_compaction.h and others, with their
      defaults, and the constants of c.h.  A long struct is a record of records, one
      for each run of members.
    - Compressors.v: advanced_compression.h.  Memtable.v: memtablerep.h and the
      collectors of table properties.  Statistics.v: statistics.h.  Backup.v:
      utilities/backup_engine.h.  Listener.v: listener.h.

    ** Conventions

    Go strings and byte slices are [string], the bytes of the headers are
    [bytes]; integers are [Z] with the wrap-around of their width written out
    ([u64_add] and the like below, 256 bits for amounts); maps are [gmap].  A
    nil pointer is [None].  A Go panic and a failed C++ assertion are [None] as
    the result of an operation; a returned error is [Err] of [result].  Where
    goroutines share state, what a lock protects is one step, and an operation
    that gives the lock up in the middle is split there; the theorems then
    quantify over all the sequences of steps.  Timers are actions that can come at
    any time.

    Code outside the repository is a type class of operations, and what the code
    relies on is a second class of laws: signatures, hashing, base58 and JSON
    ([TxEnv], [TxEnvOk], [WireEnv], [WireEnvOk], [VoteEnv], [ContentCodec],
    [StoreCodec], [StoreCodecOk]), the groth16 verifier and its cache ([ZkEnv],
    [ZkEnvOk]), the cache of the deduplication service ([DedupCache],
    [DedupCacheOk]), the unstable [sort.Slice] ([SliceSort]), the token bucket
    ([LimiterImpl], [LimiterRefills]), the Unicode and regular-expression checks
    ([TextEnv]), the client libraries of the databases ([LevelDB], [RocksDB],
    [Redis] and their laws), HTTP, JSON-RPC and YAML ([NetEnv], [YamlEnv]), the
    client's files and connection ([ClientEnv]), the layout of keys ([KeySeedOk]), the
    messages of the network ([GossipCodec], [GossipCodecOk]), libp2p ([Libp2p],
    [Libp2pOk]), and
    the functions the headers declare and librocksdb.a defines ([StatusImpl],
    [EnumSetDetail], [Tokenizer], [HexImpl], [CleanableImpl], [ColumnsImpl],
    [RegistryImpl], [DbImpl], [OpenImpl], [FsImpl], [EnvImpl], [LoggerImpl],
    [MirrorImpl], [CacheImpl], [ClockImpl], [DecompressorImpl], [ManagerImpl],
    [MemTableImpl], and [Library], what the library puts into option structs);
    [OptionsLaws] has the setters of the Go binding.  Every class that a theorem
    needs has a concrete instance, and the witnesses run the theorems on it.

    Where one component promises something to another, the promise is a class: the
    stores are proved over [ST], the providers implement [DatabaseProvider] with
    [ProviderLaws] and [AtomicBatch], and [Program] says that an operation over [ST]
    only makes calls of that interface.  The migration is proved over [Chain] with the
    laws [Settling] of a network that applies a covered payment within two seconds; the
    client over a server is an instance of [Chain], and the laws are shown of a small
    ledger, not of the whole network.

    ** What the theorems show

    - Whole runs: from genesis on, whatever messages arrive and whatever database
      operations fail, the stored balances add up to what genesis created, and
      every key of the database holds a value of the type its reader expects.  The
      proofs go through [DataRel] of Node.v: a relation between databases that the
      two writing operations respect is respected by every step of the node.
    - Blocks and the ledger: a committed block is applied once; finalization
      writes everything or nothing; a transfer moves its amount or fails without
      effect; the versions of a content chain; a pending block can be read back;
      what a restart reloads; no two kinds of data share a database key.  Every
      session of store operations over a LevelDB or RocksDB provider is a run of
      the model with some of its operations failing.
    - Leading: the blocks a validator assembles verify, chain, and contain what it
      pulled; a transaction in the pool is pulled within a number of batches.
    - The mempool: its four indices agree under every interleaving, the balances
      cover what is pending, a pulled batch is what the order says, reloaded
      transactions are refused, the limit is exceeded by calls in flight only.
    - The network: a stored block was checked; synchronised blocks are processed
      in the order of their slots; a request is answered with the stored blocks,
      and what is served is what was stored; a node that is behind catches up with one
      exchange.  Whatever bytes arrive, a node moves by the messages of Node.v or by
      reads, and the inputs that stop it are characterised; so are the introductions of
      the bootstrap that do.  A node joins at the first bootstrap peer it reaches.
    - Locks: goroutines of one slot exclude each other, and only the finalizing write
      changes a stored block.
    - Votes and the schedule: the collector's invariant, when a vote commits, how
      committing sets overlap, the leader of a slot.
    - Cryptographic inputs: what determines the signed bytes of a transaction and
      the hashed bytes of a block; what a verified transaction implies; the entries
      the clock emits verify.
    - Clients: what a client signs the node accepts, and client and server agree
      on verification; an accepted transaction can be queried from then on; ranges
      of blocks; proposed nonces.  JSON-RPC and gRPC treat a transaction alike, and
      a request over HTTP changes the node only by adding one.  The command transfer
      puts its transaction into a pool that can take it, once, and leaves the node as
      it was when it fails.  The migration pays every user exactly what is missing, and
      its files are read back.
    - Starting: which of the keys that init writes can be loaded, what it stores,
      and what a second run does.
    - Limits and events: cleaning limiters does not change answers; measured rates
      are bounded by the requests in the window; subscribers get the events while
      their channel has room; the tracker ends empty.
    - The headers: enum sets refine finite sets; inserting into interval sets adds
      the interval's keys and keeps the intervals apart; printed options parse to
      themselves; cleanups run once; the registry finds the latest factory; a scan
      collects the entries of its ranges; stacked databases and the wrappers of
      files, environments, caches and clocks are transparent but for the functions
      they hide; a mirror of two environments that stay in step never fails and keeps
      them in step; the two interfaces of a writable file agree; reads of a
      transaction into pinnable slices; preallocation covers what is
      written; the attributes of a directory's children; comparison of slices is a
      total order; copies and moves of statuses; filters, handlers and limiters
      that override only the older functions are called through the newer ones.
    - Options: the defaults of the structs are those the comments name and fit their
      types, the constants of the C interface are those of the enums but for the
      performance levels, compression types are read back from their number, and the
      options of the RocksDB provider are the defaults but for at most seven members and meet
      what the headers require.  Compressed blocks are carried over through wrappers;
      the inherited functions of memtables, statistics and backup engines call what a
      class supplies.
    - Closed theorems that run the model show behaviour a reader would not expect,
      such as votes whose order decides balances.

    ** Bounds and fuel

    Loops that are not structural take fuel.  In EnumSet.v it is the number of
    pieces or values, which the loops provably do not exceed; in OptionsType.v the
    length of the input plus two, as every round consumes a byte of it; in Node.v
    [gather_fuel], the distance to the latest slot known; in Gossip.v the bytes of a
    stream plus one, as every batch consumes some; in Virtual.v
    [max_depth], the number of bodies that can call each other; in GoLib.v the length of
    the string.  [None] or a distinguished outcome stands for lack of fuel, and the
    theorems show it does not occur.  The loop of a range of blocks in Service.v is
    shown to end after at most 501 rounds of any larger fuel, or never to end.
    The verification of an entry with a wrapped number of hashes is counted, not
    run.

    ** Not modelled

    - The transport: libp2p, its peer routing and relays, and the delivery of messages;
      while a request is served the store does not change.
    - Logging and metrics; the texts of errors; the commands other than init
      and transfer.
    - What a database does after an operation reported an error: it is assumed to
      have changed nothing, except in a pipeline of Redis.
    - The inclusion events that AddBlockPending publishes; the expiry of caches.  What the code does in a
      goroutine for the tracker is done at once, except in the theorems about the
      tracker itself.
    - FromProtoBlock, ToProtoBlock and ToProtoEntries of utils/convert.go, which
      nothing calls.
    - Headers, and functions of the modelled headers, that only declare (the functions
      of c.h, db.h's implementations, metadata.h, experimental.h, perf_context.h and
      others): their code is in the compiled library.  Of [double] arithmetic, rounding
      is left out. *)

From stdpp Require Import base list gmap strings sorting.
From Stdlib Require Import ZArith Lia.
From Stdlib.Strings Require Import Byte.

Open Scope Z_scope.

(** ** Notations *)

Declare Scope mmn_scope.
Delimit Scope mmn_scope with mmn.

(** ** Results of fallible code *)

(** A Go call that returns [(T, error)] and a C++ call that can fail: a value
    or an error. *)
Inductive result (E A : Type) : Type :=
| Ok (a : A)
| Err (e : E).
Arguments Ok {E A} a.
Arguments Err {E A} e.

Definition result_bind {E A B} (r : result E A) (k : A → result E B) : result E B :=
  match r with Ok a => k a | Err e => Err e end.

Definition is_ok {E A} (r : result E A) : bool :=
  match r with Ok _ => true | Err _ => false end.

Notation "'let?' x := r 'in' k" :=
  (result_bind r (λ x, k)) (at level 10, x pattern, r at level 100, k at level 200) : mmn_scope.

(** [guard b e k]: the early return [if !b { return e }] followed by [k]. *)
Definition guard {E A} (b : bool) (e : E) (k : result E A) : result E A :=
  if b then k else Err e.

(** ** Machine integers *)

(** Unsigned integers of width [w] are integers in [0, 2^w) and the arithmetic
    of the source wraps around. *)
Definition wrap (w z : Z) : Z := z mod 2 ^ w.
Definition in_width (w z : Z) : Prop := 0 ≤ z < 2 ^ w.

Definition u64_add (a b : Z) : Z := wrap 64 (a + b).
Definition u64_sub (a b : Z) : Z := wrap 64 (a - b).
Definition u64_mul (a b : Z) : Z := wrap 64 (a * b).
Definition u256_add (a b : Z) : Z := wrap 256 (a + b).
Definition u256_sub (a b : Z) : Z := wrap 256 (a - b).

(** [SIZE_MAX], and the number of values of [size_t]. *)
Definition size_max : Z := 2 ^ 64 - 1.

(** ** Bytes *)

Abbreviation bytes := (list byte).

Definition lit (s : string) : bytes := String.list_byte_of_string s.

Definition byte_val (b : byte) : Z := Z.of_N (Byte.to_N b).

#[export] Instance byte_eq_decision : EqDecision byte := Byte.byte_eq_dec.

(** ** Automation *)

Create HintDb mmn.
Create Rewrite HintDb mmn_rw.

(** Splits the conjunctions of the context and the goal. *)
Ltac split_all :=
  repeat match goal with
  | H : _ ∧ _ |- _ => destruct H
  | H : ∃ _, _ |- _ => destruct H
  | |- _ ∧ _ => split
  end.

(** Case analysis on the scrutinee of a [match] or [if] of the goal or of a
    hypothesis. *)
Ltac case_all :=
  repeat match goal with
  | H : context [match ?x with _ => _ end] |- _ => destruct x eqn:?; simplify_eq/=
  | |- context [match ?x with _ => _ end] => destruct x eqn:?; simplify_eq/=
  end.

(** Boolean comparisons on integers to propositions, then linear arithmetic. *)
Ltac zify_bool :=
  repeat match goal with
  | H : (_ <? _) = true |- _ => apply Z.ltb_lt in H
  | H : (_ <? _) = false |- _ => apply Z.ltb_ge in H
  | H : (_ <=? _) = true |- _ => apply Z.leb_le in H
  | H : (_ <=? _) = false |- _ => apply Z.leb_gt in H
  | H : (_ =? _) = true |- _ => apply Z.eqb_eq in H
  | H : (_ =? _) = false |- _ => apply Z.eqb_neq in H
  end.
Ltac blia := zify_bool; lia.

(** ** Lemmas on machine integers *)

Lemma wrap_small w z : in_width w z → wrap w z = z.
Proof. intros [??]. by apply Z.mod_small. Qed.

Lemma wrap_range w z : 0 ≤ w → in_width w (wrap w z).
Proof. intros ?. apply Z.mod_pos_bound. by apply Z.pow_pos_nonneg. Qed.

Lemma wrap_wrap w z : wrap w (wrap w z) = wrap w z.
Proof. apply Zmod_mod. Qed.

Lemma wrap_add_l w a b : wrap w (wrap w a + b) = wrap w (a + b).
Proof. apply Zplus_mod_idemp_l. Qed.

Lemma wrap_add_r w a b : wrap w (a + wrap w b) = wrap w (a + b).
Proof. apply Zplus_mod_idemp_r. Qed.

Lemma wrap_sub_l w a b : wrap w (wrap w a - b) = wrap w (a - b).
Proof. apply Zminus_mod_idemp_l. Qed.

#[export] Hint Resolve wrap_small wrap_range : mmn.
#[export] Hint Rewrite wrap_wrap wrap_add_l wrap_add_r wrap_sub_l : mmn_rw.

Lemma byte_val_inj a b : byte_val a = byte_val b → a = b.
Proof.
  unfold byte_val. intros H%N2Z.inj.
  assert (E : Byte.of_N (Byte.to_N a) = Byte.of_N (Byte.to_N b)) by by rewrite H.
  rewrite !Byte.of_to_N in E. by injection E.
Qed.

Lemma byte_val_range b : 0 ≤ byte_val b < 256.
Proof. unfold byte_val. pose proof (Byte.to_N_bounded b). lia. Qed.

(** ** Lemmas on results *)

Lemma result_bind_ok {E A B} (r : result E A) (k : A → result E B) b :
  result_bind r k = Ok b ↔ ∃ a, r = Ok a ∧ k a = Ok b.
Proof. destruct r; naive_solver. Qed.

Lemma guard_ok {E A} c (e : E) (k : result E A) a :
  guard c e k = Ok a ↔ c = true ∧ k = Ok a.
Proof. destruct c; naive_solver. Qed.

(** ** Lemmas on lists *)

Lemma filter_none {A} (P : A → Prop) `{!∀ x, Decision (P x)} (l : list A) :
  (∀ x, x ∈ l → ¬ P x) → filter P l = [].
Proof.
  induction l as [|x l IH]; intros Hl; [done|].
  rewrite filter_cons_False by (apply Hl; left). apply IH. intros y Hy. apply Hl. by right.
Qed.

Lemma filter_ext_in {A} (P Q : A → Prop) `{!∀ x, Decision (P x), !∀ x, Decision (Q x)} (l : list A) :
  (∀ x, x ∈ l → P x ↔ Q x) → filter P l = filter Q l.
Proof.
  induction l as [|x l IH]; intros Hl; [done|]. rewrite !filter_cons, IH.
  - pose proof (Hl x ltac:(left)). repeat case_decide; naive_solver.
  - intros y Hy. apply Hl. by right.
Qed.

Lemma StronglySorted_filter {A} (R : relation A) (P : A → Prop) `{!∀ x, Decision (P x)} (l : list A) :
  StronglySorted R l → StronglySorted R (filter P l).
Proof.
  induction 1 as [|x l Hl IH Hx]; [constructor|]. rewrite filter_cons. case_decide; [|done].
  constructor; [done|]. rewrite Forall_forall in Hx |- *.
  intros y [_ Hy]%list_elem_of_filter. by apply Hx.
Qed.

Lemma StronglySorted_seqZ a n : StronglySorted Z.lt (seqZ a n).
Proof.
  destruct (Z.le_gt_cases n 0) as [Hn|Hn]; [rewrite seqZ_nil by done; constructor|].
  rewrite <- (Z2Nat.id n) by lia. clear Hn. generalize (Z.to_nat n). intros k. revert a.
  induction k as [|k IH]; intros a; [constructor|].
  rewrite seqZ_cons by lia. replace (Z.pred (Z.of_nat (S k))) with (Z.of_nat k) by lia.
  constructor; [apply IH|]. apply Forall_forall. intros y Hy%elem_of_seqZ. lia.
Qed.

Lemma filter_all {A} (P : A → Prop) `{!∀ x, Decision (P x)} (l : list A) :
  (∀ x, x ∈ l → P x) → filter P l = l.
Proof.
  induction l as [|x l IH]; intros Hl; [done|].
  rewrite filter_cons_True by (apply Hl; left). f_equal. apply IH. intros y Hy. apply Hl. by right.
Qed.
