(* ===== verification/Slice.v ===== *)
(** * Slices of bytes (libs/rocksdb/slice.h) and comparators (comparator.h)

    [Slice] is a pointer into external storage with a size.  A pointer is
    modelled by the bytes that can be read from it ([None] is [nullptr]), so
    that advancing the pointer drops bytes.  An operation whose [assert] can
    fail returns an [option]; [None] is the failed assertion.

    [Comparator] is the interface the other components take: a three-way
    comparison that is a total order.  [Slice::compare] discharges it. *)

From stdpp Require Import base list gmap strings.
From Stdlib Require Import ZArith Lia.
From Stdlib.Strings Require Import Byte.
From S2P Require Import Prelude.

Open Scope Z_scope.

(** ** The class Slice *)

Record Slice := mkSlice { data_ : option bytes; size_ : Z }.

(** The bytes behind a pointer; nothing can be read from [nullptr]. *)
Definition deref (p : option bytes) : bytes := default [] p.

(** [strlen]: the bytes before the terminating zero. *)
Fixpoint strlen (s : bytes) : Z :=
  match s with
  | [] => 0
  | b :: s' => if bool_decide (b = x00) then 0 else 1 + strlen s'
  end.

(** [memcmp(p, q, n)]; the C standard fixes the sign of the result only, the
    model returns that sign. *)
Fixpoint memcmp (p q : bytes) (n : nat) : Z :=
  match n, p, q with
  | S n', a :: p', b :: q' =>
      if byte_val a <? byte_val b then -1
      else if byte_val b <? byte_val a then 1
      else memcmp p' q' n'
  | _, _, _ => 0
  end.

Definition Slice_empty : Slice := mkSlice (Some [x00]) 0.
Definition Slice_data (d : option bytes) (n : Z) : Slice := mkSlice d n.
Definition Slice_string (s : bytes) : Slice := mkSlice (Some s) (Z.of_nat (length s)).
Definition Slice_cstr (s : option bytes) : Slice :=
  mkSlice s (match s with None => 0 | Some d => strlen d end).

Definition size (s : Slice) : Z := size_ s.
Definition empty (s : Slice) : bool := size_ s =? 0.

Definition index (s : Slice) (n : Z) : option byte :=
  if n <? size s then deref (data_ s) !! Z.to_nat n else None.

Definition clear (s : Slice) : Slice := mkSlice (Some [x00]) 0.

Definition remove_prefix (s : Slice) (n : Z) : option Slice :=
  if n <=? size s
  then Some (mkSlice (drop (Z.to_nat n) <$> data_ s) (size_ s - n))
  else None.

Definition remove_suffix (s : Slice) (n : Z) : option Slice :=
  if n <=? size s then Some (mkSlice (data_ s) (size_ s - n)) else None.

(** The string the slice refers to: [ToStringView], [ToString(false)]. *)
Definition ToStringView (s : Slice) : bytes := take (Z.to_nat (size_ s)) (deref (data_ s)).

Definition starts_with (s x : Slice) : bool :=
  (size_ x <=? size_ s) &&
  (memcmp (deref (data_ s)) (deref (data_ x)) (Z.to_nat (size_ x)) =? 0).

Definition ends_with (s x : Slice) : bool :=
  (size_ x <=? size_ s) &&
  (memcmp (drop (Z.to_nat (size_ s - size_ x)) (deref (data_ s)))
     (deref (data_ x)) (Z.to_nat (size_ x)) =? 0).

Definition Slice_eqb (x y : Slice) : bool :=
  (size x =? size y) &&
  (memcmp (deref (data_ x)) (deref (data_ y)) (Z.to_nat (size x)) =? 0).

Definition Slice_neqb (x y : Slice) : bool := negb (Slice_eqb x y).

Definition compare (s b : Slice) : option Z :=
  match data_ s, data_ b with
  | Some d, Some e =>
      let min_len := if size_ s <? size_ b then size_ s else size_ b in
      let r := memcmp d e (Z.to_nat min_len) in
      Some (if r =? 0 then
              if size_ s <? size_ b then -1
              else if size_ b <? size_ s then 1 else r
            else r)
  | _, _ => None
  end.

(** The loop of [difference_offset] at offset [off] with [n] iterations left. *)
Fixpoint difference_loop (d e : bytes) (off : Z) (n : nat) : Z :=
  match n with
  | O => off
  | S n' =>
      if bool_decide (d !! Z.to_nat off = e !! Z.to_nat off)
      then difference_loop d e (off + 1) n' else off
  end.

Definition difference_offset (s b : Slice) : Z :=
  let len := if size_ s <? size_ b then size_ s else size_ b in
  difference_loop (deref (data_ s)) (deref (data_ b)) 0 (Z.to_nat len).

(** ** The class OptSlice *)

(** "No value" is the slice with the null pointer and the size [SIZE_MAX]. *)
Record OptSlice := mkOptSlice { slice_ : Slice }.

Definition OptSlice_none : OptSlice := mkOptSlice (mkSlice None size_max).
Definition OptSlice_some (s : Slice) : OptSlice := mkOptSlice s.
Definition has_value (o : OptSlice) : bool := negb (size (slice_ o) =? size_max).
Definition OptSlice_value (o : OptSlice) : option Slice :=
  if has_value o then Some (slice_ o) else None.
Definition AsPtr (o : OptSlice) : option Slice :=
  if has_value o then Some (slice_ o) else None.
Definition CopyFromPtr (p : option Slice) : OptSlice :=
  match p with Some s => OptSlice_some s | None => OptSlice_none end.

(** ** The interface Comparator *)

(** What [CompareInterface::Compare] promises: a three-way comparison by sign
    that is a total order. *)
Class Comparator {K : Type} (Compare : K → K → Z) : Prop := {
  Compare_antisym a b : Z.sgn (Compare b a) = - Z.sgn (Compare a b);
  Compare_trans a b c : Compare a b ≤ 0 → Compare b c ≤ 0 → Compare a c ≤ 0;
  Compare_eq_l a b c : Compare a b = 0 → Z.sgn (Compare a c) = Z.sgn (Compare b c);
}.

(** The default [Comparator::Equal]. *)
Definition Equal {K} (Compare : K → K → Z) (a b : K) : bool := Compare a b =? 0.

(** ** The reference: lexicographic order on unsigned bytes *)

Fixpoint lex_cmp (a b : bytes) : Z :=
  match a, b with
  | [], [] => 0
  | [], _ :: _ => -1
  | _ :: _, [] => 1
  | x :: a', y :: b' =>
      if byte_val x <? byte_val y then -1
      else if byte_val y <? byte_val x then 1
      else lex_cmp a' b'
  end.

(** A slice over readable storage. *)
Definition Slice_wf (s : Slice) : Prop :=
  ∃ d, data_ s = Some d ∧ 0 ≤ size_ s ≤ Z.of_nat (length d).

(** ** Lemmas *)

Lemma lex_cmp_cases a b : lex_cmp a b = -1 ∨ lex_cmp a b = 0 ∨ lex_cmp a b = 1.
Proof.
  revert b. induction a as [|x a IH]; intros [|y b]; simpl; auto.
  destruct (_ <? _); auto. destruct (_ <? _); auto.
Qed.

Lemma lex_cmp_refl a : lex_cmp a a = 0.
Proof. induction a as [|x a IH]; simpl; [done|]. by rewrite Z.ltb_irrefl. Qed.

Lemma lex_cmp_eq a b : lex_cmp a b = 0 ↔ a = b.
Proof.
  split; [|intros ->; apply lex_cmp_refl].
  revert b. induction a as [|x a IH]; intros [|y b]; simpl; try done.
  destruct (byte_val x <? byte_val y) eqn:E1, (byte_val y <? byte_val x) eqn:E2; try done.
  intros ->%IH. f_equal. apply byte_val_inj. blia.
Qed.

Lemma lex_cmp_antisym a b : lex_cmp b a = - lex_cmp a b.
Proof.
  revert b. induction a as [|x a IH]; intros [|y b]; simpl; try done.
  destruct (byte_val x <? byte_val y) eqn:E1, (byte_val y <? byte_val x) eqn:E2;
    try done; try blia; auto.
Qed.

Lemma lex_cmp_trans a b c : lex_cmp a b ≤ 0 → lex_cmp b c ≤ 0 → lex_cmp a c ≤ 0.
Proof.
  revert b c. induction a as [|x a IH]; intros [|y b] [|z c]; simpl; try lia.
  destruct (byte_val x <? byte_val y) eqn:E1, (byte_val y <? byte_val x) eqn:E2,
    (byte_val y <? byte_val z) eqn:E3, (byte_val z <? byte_val y) eqn:E4,
    (byte_val x <? byte_val z) eqn:E5, (byte_val z <? byte_val x) eqn:E6;
    try blia. by apply IH.
Qed.

#[export] Instance lex_cmp_comparator : Comparator lex_cmp.
Proof.
  split.
  - intros a b. rewrite lex_cmp_antisym. by rewrite Z.sgn_opp.
  - apply lex_cmp_trans.
  - by intros a b c ->%lex_cmp_eq.
Qed.

(** [memcmp] on a common length, seen on the prefixes it reads. *)
Lemma memcmp_take p q n :
  (n ≤ length p)%nat → (n ≤ length q)%nat → memcmp p q n = lex_cmp (take n p) (take n q).
Proof.
  revert p q. induction n as [|n IH]; intros [|a p] [|b q]; simpl; try done; try lia.
  intros. rewrite IH by lia. done.
Qed.

Lemma memcmp_eq p q n :
  (n ≤ length p)%nat → (n ≤ length q)%nat → memcmp p q n = 0 ↔ take n p = take n q.
Proof. intros. rewrite memcmp_take by done. apply lex_cmp_eq. Qed.

(** Lexicographic order by the common prefix first and the lengths next. *)
Lemma lex_cmp_min a b :
  let n := Nat.min (length a) (length b) in
  lex_cmp a b =
    if lex_cmp (take n a) (take n b) =? 0
    then if Z.of_nat (length a) <? Z.of_nat (length b) then -1
         else if Z.of_nat (length b) <? Z.of_nat (length a) then 1 else 0
    else lex_cmp (take n a) (take n b).
Proof.
  revert b. induction a as [|x a IH]; intros [|y b]; simpl; try done.
  destruct (byte_val x <? byte_val y) eqn:E1; [done|].
  destruct (byte_val y <? byte_val x) eqn:E2; [done|].
  rewrite IH. destruct (_ =? 0); [|done].
  destruct (Z.of_nat (length a) <? Z.of_nat (length b)) eqn:?,
    (Z.of_nat (S (length a)) <? Z.of_nat (S (length b))) eqn:?; try blia.
  destruct (Z.of_nat (length b) <? Z.of_nat (length a)) eqn:?,
    (Z.of_nat (S (length b)) <? Z.of_nat (S (length a))) eqn:?; blia.
Qed.

Lemma length_ToStringView s : Slice_wf s → Z.of_nat (length (ToStringView s)) = size_ s.
Proof.
  intros (d & Hd & Hs). unfold ToStringView, deref. rewrite Hd. simpl.
  rewrite length_take. lia.
Qed.

Lemma deref_wf s : Slice_wf s → size_ s ≤ Z.of_nat (length (deref (data_ s))) ∧ 0 ≤ size_ s.
Proof. intros (d & Hd & Hs). unfold deref. rewrite Hd. simpl. lia. Qed.

Lemma take_ToStringView s n :
  Slice_wf s → (n ≤ Z.to_nat (size_ s))%nat → take n (deref (data_ s)) = take n (ToStringView s).
Proof. intros. unfold ToStringView. by rewrite take_take, Nat.min_l by lia. Qed.

#[export] Hint Resolve deref_wf length_ToStringView : mmn.

Lemma compare_lex s b :
  Slice_wf s → Slice_wf b → compare s b = Some (lex_cmp (ToStringView s) (ToStringView b)).
Proof.
  intros Hs Hb. rewrite lex_cmp_min, !length_ToStringView by done.
  destruct (deref_wf _ Hs) as [Ls Ps], (deref_wf _ Hb) as [Lb Pb].
  pose proof (length_ToStringView _ Hs) as Es. pose proof (length_ToStringView _ Hb) as Eb.
  set (n := Nat.min _ _).
  assert (Hn : n = Z.to_nat (if size_ s <? size_ b then size_ s else size_ b)).
  { subst n. destruct (size_ s <? size_ b) eqn:?; blia. }
  rewrite <- !take_ToStringView, <- memcmp_take by (done || lia).
  destruct Hs as (d & Hd & ?), Hb as (e & He & ?).
  unfold compare, deref. rewrite Hd, He, Hn. simpl. f_equal.
  destruct (memcmp _ _ _ =? 0) eqn:E; [|done].
  apply Z.eqb_eq in E. rewrite E. done.
Qed.

Lemma difference_loop_spec d e off n :
  0 ≤ off →
  let k := difference_loop d e off n in
  off ≤ k ≤ off + Z.of_nat n ∧
  (∀ i, off ≤ i < k → d !! Z.to_nat i = e !! Z.to_nat i) ∧
  (k < off + Z.of_nat n → d !! Z.to_nat k ≠ e !! Z.to_nat k).
Proof.
  revert off. induction n as [|n IH]; intros off Hoff; simpl.
  { split; [lia|]. split; intros; lia. }
  case_bool_decide as E; [|split; [lia|]; split; [intros; lia|done]].
  destruct (IH (off + 1) ltac:(lia)) as (H1 & H2 & H3). split; [lia|]. split.
  - intros i Hi. destruct (decide (i = off)) as [->|]; [done|]. apply H2. lia.
  - intros. apply H3. lia.
Qed.

Lemma lookup_deref_wf s i :
  Slice_wf s → 0 ≤ i < size_ s → deref (data_ s) !! Z.to_nat i = ToStringView s !! Z.to_nat i.
Proof. intros Hs Hi. unfold ToStringView. symmetry. apply lookup_take_lt. lia. Qed.

(** [operator==] compares the bytes. *)
Lemma Slice_eqb_spec a b :
  Slice_wf a → Slice_wf b → Slice_eqb a b = true ↔ ToStringView a = ToStringView b.
Proof.
  intros Ha Hb. unfold Slice_eqb, size. rewrite andb_true_iff, !Z.eqb_eq.
  destruct (deref_wf _ Ha) as [La Pa], (deref_wf _ Hb) as [Lb Pb]. split.
  - intros [H1 H2]. apply memcmp_eq in H2; [|lia..]. unfold ToStringView. by rewrite <- H1.
  - intros E. assert (size_ a = size_ b) as Hsz
      by (by rewrite <- (length_ToStringView a), <- (length_ToStringView b), E).
    split; [done|]. apply memcmp_eq; [lia..|].
    rewrite !take_ToStringView by (done || lia). by rewrite E.
Qed.

(** ** Properties *)

(** [Slice::compare] is a total order on slices over readable storage: it
    never fails there, swapping the arguments negates the result, it is zero
    exactly when the slices are equal as [operator==] decides (that is, when
    they refer to the same bytes), and it is transitive. *)
Theorem compare_total_order (a b c : Slice) :
  Slice_wf a → Slice_wf b → Slice_wf c →
  ∃ ab bc ac,
    compare a b = Some ab ∧ compare b c = Some bc ∧ compare a c = Some ac ∧
    compare b a = Some (- ab) ∧
    (ab = 0 ↔ Slice_eqb a b = true) ∧
    (ab = 0 ↔ ToStringView a = ToStringView b) ∧
    (ab ≤ 0 → bc ≤ 0 → ac ≤ 0).
Proof.
  intros Ha Hb Hc. eexists _, _, _.
  rewrite !compare_lex by done. repeat split; try done.
  - by rewrite lex_cmp_antisym.
  - intros E%lex_cmp_eq. by apply Slice_eqb_spec.
  - intros E%Slice_eqb_spec; [|done..]. by apply lex_cmp_eq.
  - apply lex_cmp_eq.
  - apply lex_cmp_eq.
  - apply lex_cmp_trans.
Qed.

Lemma compare_total_order_witness :
  ∃ ab bc ac,
    compare (Slice_string (lit "ab")) (Slice_string (lit "b")) = Some ab ∧
    compare (Slice_string (lit "b")) (Slice_string (lit "ba")) = Some bc ∧
    compare (Slice_string (lit "ab")) (Slice_string (lit "ba")) = Some ac ∧
    (ab ≤ 0 → bc ≤ 0 → ac ≤ 0).
Proof.
  destruct (compare_total_order (Slice_string (lit "ab")) (Slice_string (lit "b"))
    (Slice_string (lit "ba"))) as (ab & bc & ac & H1 & H2 & H3 & _ & _ & _ & H4).
  - eexists. split; [reflexivity|]. vm_compute. split; discriminate.
  - eexists. split; [reflexivity|]. vm_compute. split; discriminate.
  - eexists. split; [reflexivity|]. vm_compute. split; discriminate.
  - exists ab, bc, ac. auto.
Defined.

Lemma starts_with_view (s x : Slice) : Slice_wf s → Slice_wf x →
  starts_with s x = true ↔
  size_ x ≤ size_ s ∧ take (Z.to_nat (size_ x)) (ToStringView s) = ToStringView x.
Proof.
  intros Hs Hx. destruct (deref_wf _ Hs) as [Ls Ps], (deref_wf _ Hx) as [Lx Px].
  unfold starts_with. rewrite andb_true_iff, Z.leb_le, Z.eqb_eq.
  split; intros [H1 H2]; split; try done.
  - apply memcmp_eq in H2; [|lia..]. rewrite <- take_ToStringView by (done || lia). done.
  - apply memcmp_eq; [lia..|]. rewrite take_ToStringView by (done || lia). done.
Qed.

Lemma ends_with_view (s x : Slice) : Slice_wf s → Slice_wf x →
  ends_with s x = true ↔
  size_ x ≤ size_ s ∧ drop (Z.to_nat (size_ s - size_ x)) (ToStringView s) = ToStringView x.
Proof.
  intros Hs Hx. destruct (deref_wf _ Hs) as [Ls Ps], (deref_wf _ Hx) as [Lx Px].
  assert (size_ x ≤ size_ s →
    take (Z.to_nat (size_ x)) (drop (Z.to_nat (size_ s - size_ x)) (deref (data_ s))) =
    drop (Z.to_nat (size_ s - size_ x)) (ToStringView s)) as Hdt.
  { intros. unfold ToStringView. rewrite take_drop_commute. do 2 f_equal. lia. }
  unfold ends_with. rewrite andb_true_iff, Z.leb_le, Z.eqb_eq.
  split; intros [H1 H2]; split; try done.
  - apply memcmp_eq in H2; [|rewrite ?length_drop; lia..]. by rewrite <- Hdt.
  - apply memcmp_eq; [rewrite ?length_drop; lia..|]. by rewrite Hdt.
Qed.

(** [starts_with] and [ends_with] decide whether the bytes of one slice
    are a prefix, or a suffix, of the bytes of the other, and
    [remove_prefix]/[remove_suffix] then leave exactly the rest. *)
Theorem starts_ends_with_spec (s x : Slice) :
  Slice_wf s → Slice_wf x →
  (starts_with s x = true ↔ ToStringView x `prefix_of` ToStringView s) ∧
  (ends_with s x = true ↔ ToStringView x `suffix_of` ToStringView s) ∧
  (starts_with s x = true → ∃ r, remove_prefix s (size x) = Some r ∧
     ToStringView s = ToStringView x ++ ToStringView r) ∧
  (ends_with s x = true → ∃ r, remove_suffix s (size x) = Some r ∧
     ToStringView s = ToStringView r ++ ToStringView x).
Proof.
  intros Hs Hx.
  destruct (deref_wf _ Hs) as [Ls Ps], (deref_wf _ Hx) as [Lx Px].
  pose proof (length_ToStringView _ Hs) as Es. pose proof (length_ToStringView _ Hx) as Ex.
  pose proof (starts_with_view s x Hs Hx) as Hst. pose proof (ends_with_view s x Hs Hx) as Hen.
  split_and!.
  - rewrite Hst. split.
    + intros [_ <-]. apply prefix_take.
    + intros [k Hk]. rewrite Hk in Es |- *. rewrite length_app in Es. split; [lia|].
      rewrite take_app_le by lia. apply take_ge. lia.
  - rewrite Hen. split.
    + intros [_ <-]. apply suffix_drop.
    + intros [k Hk]. rewrite Hk in Es |- *. rewrite length_app in Es. split; [lia|].
      apply drop_app_length'. lia.
  - rewrite Hst. intros [Hle E]. unfold remove_prefix, size.
    rewrite (proj2 (Z.leb_le _ _)) by done. eexists. split; [done|].
    rewrite <- E at 1. unfold ToStringView at 3. destruct Hs as (d & Hd & Hs).
    unfold ToStringView, deref. simpl. rewrite Hd. simpl.
    replace (take (Z.to_nat (size_ s - size_ x)) (drop (Z.to_nat (size_ x)) d))
      with (drop (Z.to_nat (size_ x)) (take (Z.to_nat (size_ s)) d)).
    { by rewrite take_drop. }
    rewrite take_drop_commute. do 2 f_equal. lia.
  - rewrite Hen. intros [Hle E]. unfold remove_suffix, size.
    rewrite (proj2 (Z.leb_le _ _)) by done. eexists. split; [done|].
    rewrite <- E at 1. unfold ToStringView at 2. simpl.
    rewrite take_ToStringView by (done || lia). by rewrite take_drop.
Qed.

Lemma starts_ends_with_spec_witness :
  ToStringView (Slice_string (lit "ab")) `prefix_of` ToStringView (Slice_string (lit "abc")).
Proof.
  apply (starts_ends_with_spec (Slice_string (lit "abc")) (Slice_string (lit "ab"))).
  - eexists. split; [reflexivity|]. vm_compute. split; discriminate.
  - eexists. split; [reflexivity|]. vm_compute. split; discriminate.
  - vm_compute. reflexivity.
Defined.

(** [difference_offset] is the length of the longest common prefix: the
    bytes before it agree, and at it the slices differ or one of them ends. *)
Theorem difference_offset_spec (s b : Slice) :
  Slice_wf s → Slice_wf b →
  let k := Z.to_nat (difference_offset s b) in
  take k (ToStringView s) = take k (ToStringView b) ∧
  (k ≤ length (ToStringView s))%nat ∧ (k ≤ length (ToStringView b))%nat ∧
  (k = length (ToStringView s) ∨ k = length (ToStringView b) ∨
   ToStringView s !! k ≠ ToStringView b !! k).
Proof.
  intros Hs Hb. set (len := if size_ s <? size_ b then size_ s else size_ b).
  destruct (deref_wf _ Hs) as [Ls Ps], (deref_wf _ Hb) as [Lb Pb].
  pose proof (length_ToStringView _ Hs) as Es. pose proof (length_ToStringView _ Hb) as Eb.
  assert (0 ≤ len ≤ size_ s ∧ len ≤ size_ b ∧ (len = size_ s ∨ len = size_ b)) as Hlen.
  { subst len. destruct (_ <? _) eqn:?; blia. }
  destruct (difference_loop_spec (deref (data_ s)) (deref (data_ b)) 0 (Z.to_nat len)
    ltac:(lia)) as (H1 & H2 & H3).
  fold (difference_offset s b) in *.
  assert (Hk : difference_offset s b =
    difference_loop (deref (data_ s)) (deref (data_ b)) 0 (Z.to_nat len)) by done.
  rewrite <- Hk in *. intros k. subst k. split_and!.
  - apply list_eq. intros i. destruct (decide (i < Z.to_nat (difference_offset s b))%nat).
    + rewrite !lookup_take_lt by done.
      rewrite <- (Nat2Z.id i), <- !lookup_deref_wf by (done || lia). apply H2. lia.
    + by rewrite !lookup_take_ge by lia.
  - lia.
  - lia.
  - destruct (decide (difference_offset s b < len)) as [Hlt|]; [right; right|lia].
    rewrite <- !lookup_deref_wf by (done || lia). apply H3. lia.
Qed.

Lemma difference_offset_spec_witness :
  take 2 (ToStringView (Slice_string (lit "abc"))) =
  take 2 (ToStringView (Slice_string (lit "abd"))).
Proof.
  apply (difference_offset_spec (Slice_string (lit "abc")) (Slice_string (lit "abd"))).
  - eexists. split; [reflexivity|]. vm_compute. split; discriminate.
  - eexists. split; [reflexivity|]. vm_compute. split; discriminate.
Defined.
