(* ===== verification/Status.v ===== *)
(** * Statuses (libs/rocksdb/status.h and io_status.h)

    [Status] is the result type of every storage operation and [IOStatus] its
    subclass for file-system code.  The constructors, the assignment operators
    (with what a move leaves in the source object), [UpdateIfOk], the factories
    and the predicates are translated from the headers, for a build without
    ROCKSDB_ASSERT_STATUS_CHECKED.

    [CopyState] and the constructor of [Status] from two messages are declared
    in the header and defined elsewhere: they are the fields of the class
    [StatusImpl], with what the header relies on in [StatusImplOk]. *)

From stdpp Require Import base list gmap strings.
From Stdlib Require Import ZArith Lia.
From Stdlib.Strings Require Import Byte.
From S2P Require Import Prelude Slice.

Open Scope Z_scope.

(** ** Codes *)

Inductive Code :=
| kOk | kNotFound | kCorruption | kNotSupported | kInvalidArgument | kIOError
| kMergeInProgress | kIncomplete | kShutdownInProgress | kTimedOut | kAborted
| kBusy | kExpired | kTryAgain | kCompactionTooLarge | kColumnFamilyDropped
| kMaxCode.

Inductive SubCode :=
| kNone | kMutexTimeout | kLockTimeout | kLockLimit | kNoSpace | kDeadlock
| kStaleFile | kMemoryLimit | kSpaceLimit | kPathNotFound
| KMergeOperandsInsufficientCapacity | kManualCompactionPaused | kOverwritten
| kTxnNotPrepared | kIOFenced | kMergeOperatorFailed
| kMergeOperandThresholdExceeded | kMaxSubCode.

Inductive Severity :=
| kNoError | kSoftError | kHardError | kFatalError | kUnrecoverableError
| kMaxSeverity.

Inductive IOErrorScope :=
| kIOErrorScopeFileSystem | kIOErrorScopeFile | kIOErrorScopeRange
| kIOErrorScopeMax.

#[export] Instance Code_eq_dec : EqDecision Code.
Proof. solve_decision. Defined.
#[export] Instance SubCode_eq_dec : EqDecision SubCode.
Proof. solve_decision. Defined.
#[export] Instance Severity_eq_dec : EqDecision Severity.
Proof. solve_decision. Defined.
#[export] Instance IOErrorScope_eq_dec : EqDecision IOErrorScope.
Proof. solve_decision. Defined.

(** ** The class Status *)

(** [state_] is the message, [None] for the null pointer. *)
Record Status := mkStatus {
  code_ : Code;
  subcode_ : SubCode;
  sev_ : Severity;
  retryable_ : bool;
  data_loss_ : bool;
  scope_ : Z;
  state_ : option bytes;
}.

(** What status.h declares and does not define. *)
Class StatusImpl := {
  CopyState : bytes → bytes;
  Status_msgs : Code → SubCode → Slice → Slice → Severity → Status;
}.

(** The behaviour the header relies on: the copy of a C string is that string,
    and the constructor from messages keeps the codes and the severity. *)
Class StatusImplOk (I : StatusImpl) : Prop := {
  CopyState_id s : CopyState s = s;
  Status_msgs_codes c sc m m2 sev :
    code_ (Status_msgs c sc m m2 sev) = c ∧ subcode_ (Status_msgs c sc m m2 sev) = sc ∧
    sev_ (Status_msgs c sc m m2 sev) = sev;
}.

Definition Status_new : Status := mkStatus kOk kNone kNoError false false 0 None.

Definition Status_codes (c : Code) (sc : SubCode) : Status :=
  mkStatus c sc kNoError false false 0 None.

Definition Status_flags (c : Code) (sc : SubCode) (retryable data_loss : bool) (scope : Z) : Status :=
  mkStatus c sc kNoError retryable data_loss scope None.

Section Ops.
Context `{I : StatusImpl}.

Definition Status_code_msgs (c : Code) (msg msg2 : Slice) : Status :=
  Status_msgs c kNone msg msg2 kNoError.

Definition Status_sev_msg (c : Code) (sc : SubCode) (sev : Severity) (msg : Slice) : Status :=
  Status_msgs c sc msg (Slice_cstr (Some [x00])) sev.

Definition copy_state (s : Status) : option bytes :=
  match state_ s with None => None | Some m => Some (CopyState m) end.

Definition Status_copy (s : Status) : Status :=
  mkStatus (code_ s) (subcode_ s) (sev_ s) (retryable_ s) (data_loss_ s) (scope_ s)
    (copy_state s).

Definition Status_copy_sev (s : Status) (sev : Severity) : Status :=
  mkStatus (code_ s) (subcode_ s) sev (retryable_ s) (data_loss_ s) (scope_ s)
    (copy_state s).

(** [*this = s]; [same] is [this == &s]. *)
Definition copy_assign (same : bool) (this s : Status) : Status :=
  if same then this
  else mkStatus (code_ s) (subcode_ s) (sev_ s) (retryable_ s) (data_loss_ s) (scope_ s)
         (copy_state s).

(** [*this = std::move(s)]: the new [*this] and what is left in [s]. *)
Definition move_assign (same : bool) (this s : Status) : Status * Status :=
  if same then (this, this)
  else (mkStatus (code_ s) (subcode_ s) (sev_ s) (retryable_ s) (data_loss_ s) (scope_ s)
          (state_ s),
        mkStatus kOk kNone kNoError false false 0 None).

Definition Status_move (s : Status) : Status * Status := move_assign false Status_new s.

Definition Status_eqb (s rhs : Status) : bool := bool_decide (code_ s = code_ rhs).
Definition Status_neqb (s rhs : Status) : bool := negb (Status_eqb s rhs).

Definition code (s : Status) : Code := code_ s.
Definition subcode (s : Status) : SubCode := subcode_ s.
Definition severity (s : Status) : Severity := sev_ s.
Definition getState (s : Status) : option bytes := state_ s.

Definition UpdateIfOk (this s : Status) : Status :=
  if bool_decide (code this = kOk) then fst (move_assign false this s) else this.

Definition UpdateIfOk_const (this s : Status) : Status := UpdateIfOk this (Status_copy s).

(** ** Factories *)

Definition OK : Status := Status_new.
Definition OkOverwritten : Status := Status_codes kOk kOverwritten.
Definition OkMergeOperandThresholdExceeded : Status :=
  Status_codes kOk kMergeOperandThresholdExceeded.
Definition NotFound (msg msg2 : Slice) : Status := Status_code_msgs kNotFound msg msg2.
Definition NotFound_sub (msg : SubCode) : Status := Status_codes kNotFound msg.
Definition NotFound_sub_msg (sc : SubCode) (msg msg2 : Slice) : Status :=
  Status_msgs kNotFound sc msg msg2 kNoError.
Definition Corruption (msg msg2 : Slice) : Status := Status_code_msgs kCorruption msg msg2.
Definition Corruption_sub (msg : SubCode) : Status := Status_codes kCorruption msg.
Definition NotSupported (msg msg2 : Slice) : Status := Status_code_msgs kNotSupported msg msg2.
Definition NotSupported_sub (msg : SubCode) : Status := Status_codes kNotSupported msg.
Definition InvalidArgument (msg msg2 : Slice) : Status :=
  Status_code_msgs kInvalidArgument msg msg2.
Definition InvalidArgument_sub (msg : SubCode) : Status := Status_codes kInvalidArgument msg.
Definition IOError (msg msg2 : Slice) : Status := Status_code_msgs kIOError msg msg2.
Definition IOError_sub (msg : SubCode) : Status := Status_codes kIOError msg.
Definition MergeInProgress (msg msg2 : Slice) : Status :=
  Status_code_msgs kMergeInProgress msg msg2.
Definition MergeInProgress_sub (msg : SubCode) : Status := Status_codes kMergeInProgress msg.
Definition Incomplete (msg msg2 : Slice) : Status := Status_code_msgs kIncomplete msg msg2.
Definition Incomplete_sub (msg : SubCode) : Status := Status_codes kIncomplete msg.
Definition ShutdownInProgress_sub (msg : SubCode) : Status :=
  Status_codes kShutdownInProgress msg.
Definition ShutdownInProgress (msg msg2 : Slice) : Status :=
  Status_code_msgs kShutdownInProgress msg msg2.
Definition Aborted_sub (msg : SubCode) : Status := Status_codes kAborted msg.
Definition Aborted (msg msg2 : Slice) : Status := Status_code_msgs kAborted msg msg2.
Definition Busy_sub (msg : SubCode) : Status := Status_codes kBusy msg.
Definition Busy (msg msg2 : Slice) : Status := Status_code_msgs kBusy msg msg2.
Definition TimedOut_sub (msg : SubCode) : Status := Status_codes kTimedOut msg.
Definition TimedOut (msg msg2 : Slice) : Status := Status_code_msgs kTimedOut msg msg2.
Definition Expired_sub (msg : SubCode) : Status := Status_codes kExpired msg.
Definition Expired (msg msg2 : Slice) : Status := Status_code_msgs kExpired msg msg2.
Definition TryAgain_sub (msg : SubCode) : Status := Status_codes kTryAgain msg.
Definition TryAgain (msg msg2 : Slice) : Status := Status_code_msgs kTryAgain msg msg2.
Definition CompactionTooLarge_sub (msg : SubCode) : Status :=
  Status_codes kCompactionTooLarge msg.
Definition CompactionTooLarge (msg msg2 : Slice) : Status :=
  Status_code_msgs kCompactionTooLarge msg msg2.
Definition ColumnFamilyDropped_sub (msg : SubCode) : Status :=
  Status_codes kColumnFamilyDropped msg.
Definition ColumnFamilyDropped (msg msg2 : Slice) : Status :=
  Status_code_msgs kColumnFamilyDropped msg msg2.
Definition NoSpace_plain : Status := Status_codes kIOError kNoSpace.
Definition NoSpace (msg msg2 : Slice) : Status :=
  Status_msgs kIOError kNoSpace msg msg2 kNoError.
Definition MemoryLimit_plain : Status := Status_codes kAborted kMemoryLimit.
Definition MemoryLimit (msg msg2 : Slice) : Status :=
  Status_msgs kAborted kMemoryLimit msg msg2 kNoError.
Definition SpaceLimit_plain : Status := Status_codes kIOError kSpaceLimit.
Definition SpaceLimit (msg msg2 : Slice) : Status :=
  Status_msgs kIOError kSpaceLimit msg msg2 kNoError.
Definition PathNotFound_plain : Status := Status_codes kIOError kPathNotFound.
Definition PathNotFound (msg msg2 : Slice) : Status :=
  Status_msgs kIOError kPathNotFound msg msg2 kNoError.
Definition TxnNotPrepared_plain : Status := Status_codes kInvalidArgument kTxnNotPrepared.
Definition TxnNotPrepared (msg msg2 : Slice) : Status :=
  Status_msgs kInvalidArgument kTxnNotPrepared msg msg2 kNoError.
Definition LockLimit : Status := Status_codes kAborted kLockLimit.

(** ** Predicates *)

Definition has_code (s : Status) (c : Code) : bool := bool_decide (code s = c).
Definition has_subcode (s : Status) (c : SubCode) : bool := bool_decide (subcode s = c).

Definition ok (s : Status) : bool := has_code s kOk.
Definition IsOkOverwritten (s : Status) : bool := has_code s kOk && has_subcode s kOverwritten.
Definition IsOkMergeOperandThresholdExceeded (s : Status) : bool :=
  has_code s kOk && has_subcode s kMergeOperandThresholdExceeded.
Definition IsNotFound (s : Status) : bool := has_code s kNotFound.
Definition IsCorruption (s : Status) : bool := has_code s kCorruption.
Definition IsNotSupported (s : Status) : bool := has_code s kNotSupported.
Definition IsInvalidArgument (s : Status) : bool := has_code s kInvalidArgument.
Definition IsIOError (s : Status) : bool := has_code s kIOError.
Definition IsMergeInProgress (s : Status) : bool := has_code s kMergeInProgress.
Definition IsIncomplete (s : Status) : bool := has_code s kIncomplete.
Definition IsShutdownInProgress (s : Status) : bool := has_code s kShutdownInProgress.
Definition IsTimedOut (s : Status) : bool := has_code s kTimedOut.
Definition IsAborted (s : Status) : bool := has_code s kAborted.
Definition IsLockLimit (s : Status) : bool := has_code s kAborted && has_subcode s kLockLimit.
Definition IsBusy (s : Status) : bool := has_code s kBusy.
Definition IsDeadlock (s : Status) : bool := has_code s kBusy && has_subcode s kDeadlock.
Definition IsExpired (s : Status) : bool := has_code s kExpired.
Definition IsTryAgain (s : Status) : bool := has_code s kTryAgain.
Definition IsCompactionTooLarge (s : Status) : bool := has_code s kCompactionTooLarge.
Definition IsColumnFamilyDropped (s : Status) : bool := has_code s kColumnFamilyDropped.
Definition IsNoSpace (s : Status) : bool := has_code s kIOError && has_subcode s kNoSpace.
Definition IsMemoryLimit (s : Status) : bool :=
  has_code s kAborted && has_subcode s kMemoryLimit.
Definition IsPathNotFound (s : Status) : bool :=
  (has_code s kIOError || has_code s kNotFound) && has_subcode s kPathNotFound.
Definition IsManualCompactionPaused (s : Status) : bool :=
  has_code s kIncomplete && has_subcode s kManualCompactionPaused.
Definition IsTxnNotPrepared (s : Status) : bool :=
  has_code s kInvalidArgument && has_subcode s kTxnNotPrepared.
Definition IsIOFenced (s : Status) : bool := has_code s kIOError && has_subcode s kIOFenced.

End Ops.

(** ** The class IOStatus *)

Module IO.
Section Ops.
Context `{I : StatusImpl}.

(** The underlying values of the enumeration, an [unsigned char]. *)
Definition scope_to_uchar (s : IOErrorScope) : Z :=
  match s with
  | kIOErrorScopeFileSystem => 0 | kIOErrorScopeFile => 1 | kIOErrorScopeRange => 2
  | kIOErrorScopeMax => 3
  end.
Definition scope_of_uchar (z : Z) : option IOErrorScope :=
  if z =? 0 then Some kIOErrorScopeFileSystem else if z =? 1 then Some kIOErrorScopeFile
  else if z =? 2 then Some kIOErrorScopeRange else if z =? 3 then Some kIOErrorScopeMax
  else None.

Definition IOStatus_codes (c : Code) (sc : SubCode) : Status :=
  Status_flags c sc false false (scope_to_uchar kIOErrorScopeFileSystem).

Definition IOStatus_new : Status := IOStatus_codes kOk kNone.

Definition SetRetryable (s : Status) (retryable : bool) : Status :=
  mkStatus (code_ s) (subcode_ s) (sev_ s) retryable (data_loss_ s) (scope_ s) (state_ s).
Definition SetDataLoss (s : Status) (data_loss : bool) : Status :=
  mkStatus (code_ s) (subcode_ s) (sev_ s) (retryable_ s) data_loss (scope_ s) (state_ s).
Definition SetScope (s : Status) (scope : IOErrorScope) : Status :=
  mkStatus (code_ s) (subcode_ s) (sev_ s) (retryable_ s) (data_loss_ s)
    (scope_to_uchar scope) (state_ s).
Definition GetRetryable (s : Status) : bool := retryable_ s.
Definition GetDataLoss (s : Status) : bool := data_loss_ s.
Definition GetScope (s : Status) : option IOErrorScope := scope_of_uchar (scope_ s).

(** [memcpy(buf + off, src, len src)] into an allocation: [None] is an access
    outside of it. *)
Definition memcpy_at (buf : bytes) (off : Z) (src : bytes) : option bytes :=
  if (0 <=? off) && (off + Z.of_nat (length src) <=? Z.of_nat (length buf))
  then Some (take (Z.to_nat off) buf ++ src ++
             drop (Z.to_nat off + length src) buf)
  else None.

(** The constructor from two messages; [init] is what [new char[size + 1]]
    contains before it is written.  [None]: a failed assertion or a write out
    of bounds. *)
Definition IOStatus_msgs (init : nat → bytes) (c : Code) (sc : SubCode) (msg msg2 : Slice)
    : option Status :=
  let this := Status_flags c sc false false (scope_to_uchar kIOErrorScopeFileSystem) in
  if bool_decide (code_ this = kOk) then None else
  if bool_decide (subcode_ this = kMaxSubCode) then None else
  let len1 := size msg in
  let len2 := size msg2 in
  let sz := u64_add len1 (if len2 =? 0 then 0 else u64_add 2 len2) in
  let buf := init (Z.to_nat (u64_add sz 1)) in
  buf ← memcpy_at buf 0 (take (Z.to_nat len1) (deref (data_ msg)));
  buf ← (if len2 =? 0 then Some buf
         else buf ← memcpy_at buf len1 (lit ":");
              buf ← memcpy_at buf (len1 + 1) (lit " ");
              memcpy_at buf (len1 + 2) (take (Z.to_nat len2) (deref (data_ msg2))));
  buf ← memcpy_at buf sz [x00];
  Some (mkStatus (code_ this) (subcode_ this) (sev_ this) (retryable_ this)
          (data_loss_ this) (scope_ this) (Some buf)).

Definition IOStatus_copy (s : Status) : Status :=
  mkStatus (code_ s) (subcode_ s) (sev_ (Status_codes (code_ s) (subcode_ s)))
    (retryable_ s) (data_loss_ s) (scope_ s) (copy_state s).

(** The severity of [*this] is kept, also in the move assignment. *)
Definition io_copy_assign (same : bool) (this s : Status) : Status :=
  if same then this
  else mkStatus (code_ s) (subcode_ s) (sev_ this) (retryable_ s) (data_loss_ s) (scope_ s)
         (copy_state s).

Definition io_move_assign (same : bool) (this s : Status) : Status * Status :=
  if same then (this, this)
  else (mkStatus (code_ s) (subcode_ s) (sev_ this) (retryable_ s) (data_loss_ s) (scope_ s)
          (state_ s),
        mkStatus kOk kNone (sev_ s) (retryable_ s) (data_loss_ s)
          (scope_to_uchar kIOErrorScopeFileSystem) None).

Definition IOStatus_move (s : Status) : Status * Status := io_move_assign false IOStatus_new s.

Definition IOStatus_eqb (s rhs : Status) : bool := bool_decide (code_ s = code_ rhs).
Definition IOStatus_neqb (s rhs : Status) : bool := negb (IOStatus_eqb s rhs).

Definition status_to_io_status (status : Status) : Status :=
  fst (move_assign false IOStatus_new status).

Definition io_OK : Status := IOStatus_new.
Definition io_NotSupported_sub (msg : SubCode) : Status := IOStatus_codes kNotSupported msg.
Definition io_NotFound_sub (msg : SubCode) : Status := IOStatus_codes kNotFound msg.
Definition io_Corruption_sub (msg : SubCode) : Status := IOStatus_codes kCorruption msg.
Definition io_InvalidArgument_sub (msg : SubCode) : Status :=
  IOStatus_codes kInvalidArgument msg.
Definition io_IOError_sub (msg : SubCode) : Status := IOStatus_codes kIOError msg.
Definition io_Busy_sub (msg : SubCode) : Status := IOStatus_codes kBusy msg.
Definition io_TimedOut_sub (msg : SubCode) : Status := IOStatus_codes kTimedOut msg.
Definition io_NoSpace : Status := IOStatus_codes kIOError kNoSpace.
Definition io_PathNotFound : Status := IOStatus_codes kIOError kPathNotFound.
Definition io_IOFenced : Status := IOStatus_codes kIOError kIOFenced.
Definition io_Aborted_sub (msg : SubCode) : Status := IOStatus_codes kAborted msg.
Definition io_NotSupported_msg (init : nat → bytes) (msg msg2 : Slice) : option Status :=
  IOStatus_msgs init kNotSupported kNone msg msg2.
Definition io_NotFound_msg (init : nat → bytes) (msg msg2 : Slice) : option Status :=
  IOStatus_msgs init kNotFound kNone msg msg2.
Definition io_Corruption_msg (init : nat → bytes) (msg msg2 : Slice) : option Status :=
  IOStatus_msgs init kCorruption kNone msg msg2.
Definition io_InvalidArgument_msg (init : nat → bytes) (msg msg2 : Slice) : option Status :=
  IOStatus_msgs init kInvalidArgument kNone msg msg2.
Definition io_IOError_msg (init : nat → bytes) (msg msg2 : Slice) : option Status :=
  IOStatus_msgs init kIOError kNone msg msg2.
Definition io_Busy_msg (init : nat → bytes) (msg msg2 : Slice) : option Status :=
  IOStatus_msgs init kBusy kNone msg msg2.
Definition io_TimedOut_msg (init : nat → bytes) (msg msg2 : Slice) : option Status :=
  IOStatus_msgs init kTimedOut kNone msg msg2.
Definition io_NoSpace_msg (init : nat → bytes) (msg msg2 : Slice) : option Status :=
  IOStatus_msgs init kIOError kNoSpace msg msg2.
Definition io_PathNotFound_msg (init : nat → bytes) (msg msg2 : Slice) : option Status :=
  IOStatus_msgs init kIOError kPathNotFound msg msg2.
Definition io_IOFenced_msg (init : nat → bytes) (msg msg2 : Slice) : option Status :=
  IOStatus_msgs init kIOError kIOFenced msg msg2.
Definition io_Aborted_msg (init : nat → bytes) (msg msg2 : Slice) : option Status :=
  IOStatus_msgs init kAborted kNone msg msg2.

End Ops.
End IO.

(** ** Lemmas *)

(** The sixteen predicates that test the code alone. *)
Definition code_predicates : list (Status → bool) :=
  [ok; IsNotFound; IsCorruption; IsNotSupported; IsInvalidArgument; IsIOError;
   IsMergeInProgress; IsIncomplete; IsShutdownInProgress; IsTimedOut; IsAborted; IsBusy;
   IsExpired; IsTryAgain; IsCompactionTooLarge; IsColumnFamilyDropped].

(** Each predicate on a code and a subcode with the predicate it refines. *)
Definition refined_predicates : list ((Status → bool) * (Status → bool)) :=
  [(IsOkOverwritten, ok); (IsOkMergeOperandThresholdExceeded, ok); (IsLockLimit, IsAborted);
   (IsDeadlock, IsBusy); (IsNoSpace, IsIOError); (IsMemoryLimit, IsAborted);
   (IsManualCompactionPaused, IsIncomplete); (IsTxnNotPrepared, IsInvalidArgument);
   (IsIOFenced, IsIOError)].

(** An implementation of what the header leaves out, for the witnesses. *)
Definition concrete_impl : StatusImpl := {|
  CopyState := id;
  Status_msgs c sc m m2 sev :=
    mkStatus c sc sev false false 0 (Some (ToStringView m ++ lit ": " ++ ToStringView m2));
|}.

#[export] Instance concrete_impl_ok : StatusImplOk concrete_impl.
Proof. by split. Qed.

Lemma Status_copy_id `{I : StatusImpl, !StatusImplOk I} s : Status_copy s = s.
Proof. destruct s as [??????[m|]]; cbv -[CopyState]; [by rewrite CopyState_id|done]. Qed.

Lemma copy_state_id `{I : StatusImpl, !StatusImplOk I} s : copy_state s = state_ s.
Proof. unfold copy_state. destruct (state_ s); [by rewrite CopyState_id|done]. Qed.

Lemma UpdateIfOk_cases this s : UpdateIfOk this s = if ok this then s else this.
Proof. unfold UpdateIfOk, ok, has_code. case_bool_decide; by destruct s. Qed.

Lemma fold_UpdateIfOk_err `{I : StatusImpl, !StatusImplOk I} l a :
  ok a = false → fold_left UpdateIfOk_const l a = a.
Proof.
  intros E. induction l as [|b l IH]; [done|]. simpl.
  unfold UpdateIfOk_const at 2. by rewrite UpdateIfOk_cases, E.
Qed.

(** A write that extends the part of the buffer already filled. *)
Lemma memcpy_at_extend (buf pre src : bytes) (off : Z) :
  take (Z.to_nat off) buf = pre → off = Z.of_nat (length pre) →
  off + Z.of_nat (length src) ≤ Z.of_nat (length buf) →
  ∃ buf', IO.memcpy_at buf off src = Some buf' ∧ length buf' = length buf ∧
          take (length pre + length src) buf' = pre ++ src.
Proof.
  intros Hpre Hoff Hfit. unfold IO.memcpy_at.
  rewrite (proj2 (Z.leb_le _ _)), (proj2 (Z.leb_le _ _)) by lia. simpl.
  eexists. split; [done|]. rewrite Hpre. split.
  - rewrite !length_app, length_drop. lia.
  - rewrite app_assoc. apply take_app_length'. by rewrite length_app.
Qed.

(** ** Properties *)

(** The contract of [UpdateIfOk]: chaining it over any number of statuses
    yields a non-ok status exactly when one of the inputs is non-ok, and then
    it is the left-most such input with all its details; when every input is
    ok the last one is kept. *)
Theorem UpdateIfOk_leftmost `{I : StatusImpl, !StatusImplOk I} (a : Status) (l : list Status) :
  let r := fold_left UpdateIfOk_const l a in
  (ok r = false ↔ Exists (λ s, ok s = false) (a :: l)) ∧
  r = match list_find (λ s, ok s = false) (a :: l) with
      | Some (_, e) => e
      | None => default a (last l)
      end.
Proof.
  intros r. subst r. revert a. induction l as [|b l IH]; intros a.
  { simpl. split; [rewrite Exists_cons, Exists_nil; tauto|]. by case_decide. }
  cbn [fold_left]. unfold UpdateIfOk_const at 2 4.
  rewrite UpdateIfOk_cases, Status_copy_id. destruct (ok a) eqn:E.
  - destruct (IH b) as [IH1 IH2]. split.
    + rewrite IH1, !Exists_cons. split; [tauto|]. intros [?|?]; [congruence|done].
    + rewrite IH2. simpl. rewrite (decide_False (P := ok a = false)) by congruence.
      case_decide; [done|].
      destruct (list_find _ l) as [[]|]; [done|].
      rewrite last_cons. by destruct (last l).
  - rewrite fold_UpdateIfOk_err by done. split.
    + rewrite E. split; [by left|done].
    + simpl. by rewrite decide_True.
Qed.

Lemma UpdateIfOk_leftmost_witness :
  ok (fold_left (UpdateIfOk_const (I := concrete_impl))
        [NoSpace_plain; LockLimit] OK) = false.
Proof.
  apply (UpdateIfOk_leftmost (I := concrete_impl) OK [NoSpace_plain; LockLimit]).
  right. left. reflexivity.
Defined.

(** Copies and moves: copying a [Status] reproduces it, moving it hands
    over every field and leaves the source as the success status; copying or
    moving an [IOStatus] reproduces every field but the severity, which becomes
    [kNoError], and a moved-from [IOStatus] keeps its retryable and data-loss
    flags; [status_to_io_status] reproduces every field, severity included. *)
Theorem copy_move_semantics `{I : StatusImpl, !StatusImplOk I} (s : Status) :
  let no_sev t := mkStatus (code_ t) (subcode_ t) kNoError (retryable_ t) (data_loss_ t)
                    (scope_ t) (state_ t) in
  Status_copy s = s ∧ Status_move s = (s, OK) ∧
  IO.IOStatus_copy s = no_sev s ∧
  IO.IOStatus_move s = (no_sev s, mkStatus kOk kNone (sev_ s) (retryable_ s) (data_loss_ s) 0 None) ∧
  IO.status_to_io_status s = s.
Proof.
  split_and!.
  - apply Status_copy_id.
  - by destruct s.
  - unfold IO.IOStatus_copy. by rewrite copy_state_id.
  - done.
  - by destruct s.
Qed.

Lemma copy_move_semantics_witness :
  Status_move LockLimit = (LockLimit, OK).
Proof. apply (copy_move_semantics (I := concrete_impl) LockLimit). Defined.

(** The predicates on the code alone partition the statuses: exactly one
    of the sixteen holds of every status whose code is not the end marker
    [kMaxCode] (and none of a status with that marker), and every predicate
    that also tests the subcode implies the predicate it refines;
    [IsPathNotFound] implies [IsIOError] or [IsNotFound]. *)
Theorem predicates_classify (s : Status) :
  length (filter (λ p : Status → bool, p s = true) code_predicates) =
    (if bool_decide (code_ s = kMaxCode) then 0%nat else 1%nat) ∧
  Forall (λ pq : (Status → bool) * (Status → bool), fst pq s = true → snd pq s = true)
    refined_predicates ∧
  (IsPathNotFound s = true → IsIOError s || IsNotFound s = true).
Proof.
  split_and!.
  - destruct s as [[] sc sev r d sc' st]; reflexivity.
  - repeat constructor; simpl; intros [? _]%andb_prop; done.
  - by intros [? _]%andb_prop.
Qed.

(** Every factory builds an error that its own predicate recognises: the
    result is not ok and has the code and the subcode the factory is named
    after; the three success factories are ok. *)
Theorem factories_codes `{I : StatusImpl, !StatusImplOk I} (m m2 : Slice) (sc : SubCode) :
  let built (s : Status) c b := code s = c ∧ subcode s = b ∧ ok s = bool_decide (c = kOk) in
  Forall (λ '(s, c, b), built s c b)
    [(OK, kOk, kNone); (OkOverwritten, kOk, kOverwritten);
     (OkMergeOperandThresholdExceeded, kOk, kMergeOperandThresholdExceeded);
     (NotFound m m2, kNotFound, kNone); (NotFound_sub sc, kNotFound, sc);
     (NotFound_sub_msg sc m m2, kNotFound, sc);
     (Corruption m m2, kCorruption, kNone); (Corruption_sub sc, kCorruption, sc);
     (NotSupported m m2, kNotSupported, kNone); (NotSupported_sub sc, kNotSupported, sc);
     (InvalidArgument m m2, kInvalidArgument, kNone);
     (InvalidArgument_sub sc, kInvalidArgument, sc);
     (IOError m m2, kIOError, kNone); (IOError_sub sc, kIOError, sc);
     (MergeInProgress m m2, kMergeInProgress, kNone);
     (MergeInProgress_sub sc, kMergeInProgress, sc);
     (Incomplete m m2, kIncomplete, kNone); (Incomplete_sub sc, kIncomplete, sc);
     (ShutdownInProgress m m2, kShutdownInProgress, kNone);
     (ShutdownInProgress_sub sc, kShutdownInProgress, sc);
     (Aborted m m2, kAborted, kNone); (Aborted_sub sc, kAborted, sc);
     (Busy m m2, kBusy, kNone); (Busy_sub sc, kBusy, sc);
     (TimedOut m m2, kTimedOut, kNone); (TimedOut_sub sc, kTimedOut, sc);
     (Expired m m2, kExpired, kNone); (Expired_sub sc, kExpired, sc);
     (TryAgain m m2, kTryAgain, kNone); (TryAgain_sub sc, kTryAgain, sc);
     (CompactionTooLarge m m2, kCompactionTooLarge, kNone);
     (CompactionTooLarge_sub sc, kCompactionTooLarge, sc);
     (ColumnFamilyDropped m m2, kColumnFamilyDropped, kNone);
     (ColumnFamilyDropped_sub sc, kColumnFamilyDropped, sc);
     (NoSpace_plain, kIOError, kNoSpace); (NoSpace m m2, kIOError, kNoSpace);
     (MemoryLimit_plain, kAborted, kMemoryLimit); (MemoryLimit m m2, kAborted, kMemoryLimit);
     (SpaceLimit_plain, kIOError, kSpaceLimit); (SpaceLimit m m2, kIOError, kSpaceLimit);
     (PathNotFound_plain, kIOError, kPathNotFound); (PathNotFound m m2, kIOError, kPathNotFound);
     (TxnNotPrepared_plain, kInvalidArgument, kTxnNotPrepared);
     (TxnNotPrepared m m2, kInvalidArgument, kTxnNotPrepared); (LockLimit, kAborted, kLockLimit)].
Proof.
  intros built.
  assert (Hm : ∀ c b sev, built (Status_msgs c b m m2 sev) c b).
  { intros c b sev. destruct (Status_msgs_codes c b m m2 sev) as (E1 & E2 & _).
    unfold built, ok, has_code, code, subcode. by rewrite E1. }
  repeat constructor; try done; apply Hm.
Qed.

Lemma factories_codes_witness :
  code (NotFound_sub kPathNotFound) = kNotFound.
Proof.
  pose proof (factories_codes (I := concrete_impl) Slice_empty Slice_empty kPathNotFound) as H.
  apply Forall_inv_tail, Forall_inv_tail, Forall_inv_tail, Forall_inv_tail, Forall_inv in H.
  apply H.
Defined.

(** The message of an [IOStatus] built from two slices: for an error code
    and sizes whose total fits in [size_t], the constructor writes inside its
    allocation whatever that contained, and the stored C string is the first
    message, followed when the second one is not empty by a colon, a space and
    the second message, and the terminating zero. *)
Theorem IOStatus_message (init : nat → bytes) c sc (msg msg2 : Slice) :
  (∀ n, length (init n) = n) → c ≠ kOk → sc ≠ kMaxSubCode →
  Slice_wf msg → Slice_wf msg2 → size msg + 2 + size msg2 + 1 < 2 ^ 64 →
  IO.IOStatus_msgs init c sc msg msg2 =
    Some (mkStatus c sc kNoError false false 0
      (Some (ToStringView msg ++
             (if empty msg2 then [] else lit ": " ++ ToStringView msg2) ++ [x00]))).
Proof.
  intros Hinit Hc Hsc Hm Hm2 Hfit. unfold IO.IOStatus_msgs. simpl.
  rewrite (bool_decide_eq_false_2 _ Hc), (bool_decide_eq_false_2 _ Hsc). unfold empty.
  pose proof (length_ToStringView _ Hm) as E1. pose proof (length_ToStringView _ Hm2) as E2.
  unfold size in *. unfold u64_add. fold (ToStringView msg) (ToStringView msg2).
  rewrite (wrap_small _ (2 + size_ msg2)) by (unfold in_width; lia).
  rewrite !wrap_small by (unfold in_width; destruct (size_ msg2 =? 0); lia).
  set (b0 := init _). pose proof (Hinit (Z.to_nat (size_ msg + (if size_ msg2 =? 0 then 0 else 2 + size_ msg2) + 1))) as Hb0.
  fold b0 in Hb0.
  destruct (memcpy_at_extend b0 [] (ToStringView msg) 0) as (b1 & -> & L1 & T1);
    [done|done|destruct (size_ msg2 =? 0); lia|]. cbn [mbind option_bind]. simpl in T1.
  destruct (size_ msg2 =? 0) eqn:E0; cbn [mbind option_bind].
  - destruct (memcpy_at_extend b1 (ToStringView msg) [x00] (size_ msg + 0))
      as (b4 & -> & L4 & T4); [rewrite <- T1; f_equal; simpl; lia|lia|simpl; lia|].
    cbn [mbind option_bind]. rewrite take_ge in T4 by (simpl; lia). by rewrite T4.
  - destruct (memcpy_at_extend b1 (ToStringView msg) (lit ":") (size_ msg))
      as (b2 & -> & L2 & T2); [rewrite <- T1; f_equal; simpl; lia|lia|simpl; lia|]. cbn [mbind option_bind].
    destruct (memcpy_at_extend b2 (ToStringView msg ++ lit ":") (lit " ") (size_ msg + 1))
      as (b3 & -> & L3 & T3); [rewrite <- T2; f_equal; simpl; lia|rewrite length_app; simpl; lia|simpl; lia|]. cbn [mbind option_bind].
    destruct (memcpy_at_extend b3 ((ToStringView msg ++ lit ":") ++ lit " ") (ToStringView msg2) (size_ msg + 2))
      as (b4 & -> & L4 & T4); [rewrite <- T3; f_equal; rewrite length_app; simpl; lia|rewrite !length_app; simpl; lia|lia|]. cbn [mbind option_bind].
    destruct (memcpy_at_extend b4 (((ToStringView msg ++ lit ":") ++ lit " ") ++ ToStringView msg2) [x00]
      (size_ msg + (2 + size_ msg2))) as (b5 & -> & L5 & T5);
      [rewrite <- T4; f_equal; rewrite !length_app; simpl; lia|rewrite !length_app; simpl; lia|simpl; lia|].
    cbn [mbind option_bind]. rewrite take_ge in T5 by (rewrite !length_app; simpl; lia). rewrite T5, <- !app_assoc. done.
Qed.

Lemma IOStatus_message_witness :
  IO.IOStatus_msgs (λ n, repeat x41 n) kIOError kNone (Slice_string (lit "f"))
    (Slice_string (lit "no")) =
  Some (mkStatus kIOError kNone kNoError false false 0 (Some (lit "f: no" ++ [x00]))).
Proof.
  apply (IOStatus_message (λ n, repeat x41 n) kIOError kNone (Slice_string (lit "f"))
    (Slice_string (lit "no"))).
  - intros n. apply repeat_length.
  - discriminate.
  - discriminate.
  - eexists. split; [reflexivity|]. vm_compute. split; discriminate.
  - eexists. split; [reflexivity|]. vm_compute. split; discriminate.
  - vm_compute. reflexivity.
Defined.
