(* ===== verification/EnumSet.v ===== *)
(** * Sets of enumerators (libs/rocksdb/data_structure.h, SmallEnumSet)

    A [SmallEnumSet<ENUM_TYPE, MAX_ENUMERATOR>] is an array of 64-bit pieces
    with one bit per enumerator from 0 to [kMaxValue].  The operations are
    translated at their widths: pieces are integers below 2^64, shifts and
    masks are the bit operations of the source.  The refinement theorems read a
    state as the set of values whose bit is set.

    The two bit-counting functions of the namespace [detail] are declared in
    the header and defined elsewhere: class [EnumSetDetail]. *)

From stdpp Require Import base list gmap strings sorting.
From Stdlib Require Import ZArith Lia.
From S2P Require Import Prelude.

Open Scope Z_scope.

(** What the header declares and does not define. *)
Class EnumSetDetail := {
  CountTrailingZeroBitsForSmallEnumSet : Z → Z;
  BitsSetToOneForSmallEnumSet : Z → Z;
}.

(** The number of bits of [x] below [n] that are set. *)
Fixpoint popcount (x : Z) (n : nat) : Z :=
  match n with
  | O => 0
  | S n' => popcount x n' + Z.b2z (Z.testbit x (Z.of_nat n'))
  end.

(** What their names say of 64-bit words: the index of the lowest set bit of a
    word that is not zero, and the number of set bits. *)
Class EnumSetDetailOk (D : EnumSetDetail) : Prop := {
  ctz_spec x : 0 < x < 2 ^ 64 →
    let k := CountTrailingZeroBitsForSmallEnumSet x in
    0 ≤ k < 64 ∧ Z.testbit x k = true ∧ (∀ i, 0 ≤ i < k → Z.testbit x i = false);
  popcount_spec x : 0 ≤ x < 2 ^ 64 → BitsSetToOneForSmallEnumSet x = popcount x 64;
}.

Definition kPieceBits : Z := 64.
Definition kPieceMask : Z := 63.
Definition kPieceShift : Z := 6.
Definition kPieceCount (kMaxValue : Z) : Z := kMaxValue / kPieceBits + 1.

(** The static assertions on the template parameter. *)
Definition valid_max (kMaxValue : Z) : Prop := 0 ≤ kMaxValue < 1024.

(** [std::array<PieceT, kPieceCount>]. *)
Abbreviation StateT := (list Z).

Section SmallEnumSet.
Context `{D : EnumSetDetail} (kMaxValue : Z).

Definition GetPiece (st : StateT) (pos : Z) : Z :=
  if kPieceCount kMaxValue =? 1 then default 0 (st !! 0%nat)
  else default 0 (st !! Z.to_nat (Z.shiftr pos kPieceShift)).

(** The write [RefPiece(pos) = v]. *)
Definition SetPiece (st : StateT) (pos v : Z) : StateT :=
  if kPieceCount kMaxValue =? 1 then <[0%nat := v]> st
  else <[Z.to_nat (Z.shiftr pos kPieceShift) := v]> st.

Definition bit_of (value : Z) : Z := wrap 64 (Z.shiftl 1 (Z.land value kPieceMask)).

Definition SmallEnumSet_empty : StateT := replicate (Z.to_nat (kPieceCount kMaxValue)) 0.

(** The loop of [All] over the pieces [i .. kPieceCount - 2]. *)
Fixpoint All_loop (tmp : StateT) (i : Z) (n : nat) : StateT :=
  match n with
  | O => tmp
  | S n' => All_loop (<[Z.to_nat i := wrap 64 (Z.lnot 0)]> tmp) (i + 1) n'
  end.

(** [tmp] is the uninitialised local array. *)
Definition All (tmp : StateT) : StateT :=
  let tmp := All_loop tmp 0 (Z.to_nat (kPieceCount kMaxValue - 1)) in
  let last := Z.to_nat (kPieceCount kMaxValue - 1) in
  if negb (Z.land (kMaxValue + 1) kPieceMask =? 0)
  then <[last := wrap 64 (wrap 64 (Z.shiftl 1 (Z.land (kMaxValue + 1) kPieceMask)) - 1)]> tmp
  else <[last := wrap 64 (Z.lnot 0)]> tmp.

Definition set_eqb (this that : StateT) : bool := bool_decide (this = that).
Definition set_neqb (this that : StateT) : bool := negb (set_eqb this that).

(** The [assert] on the argument of the operations on one enumerator. *)
Definition in_range (value : Z) : bool := (0 <=? value) && (value <=? kMaxValue).

Definition Contains (st : StateT) (value : Z) : option bool :=
  if in_range value then Some (negb (Z.land (GetPiece st value) (bit_of value) =? 0)) else None.

Fixpoint empty_loop (st : StateT) (i : Z) (n : nat) : bool :=
  match n with
  | O => true
  | S n' => if negb (default 0 (st !! Z.to_nat i) =? 0) then false else empty_loop st (i + 1) n'
  end.
Definition is_empty (st : StateT) : bool := empty_loop st 0 (Z.to_nat (kPieceCount kMaxValue)).

Fixpoint count_loop (st : StateT) (rv i : Z) (n : nat) : Z :=
  match n with
  | O => rv
  | S n' =>
      count_loop st (u64_add rv (BitsSetToOneForSmallEnumSet (default 0 (st !! Z.to_nat i)))) (i + 1) n'
  end.
Definition count (st : StateT) : Z := count_loop st 0 0 (Z.to_nat (kPieceCount kMaxValue)).

(** The new state and "true iff the set was modified". *)
Definition Add (st : StateT) (value : Z) : option (StateT * bool) :=
  if in_range value then
    let old_piece := GetPiece st value in
    let new_piece := Z.lor old_piece (bit_of value) in
    Some (SetPiece st value new_piece, negb (old_piece =? new_piece))
  else None.

Definition Remove (st : StateT) (value : Z) : option (StateT * bool) :=
  if in_range value then
    let old_piece := GetPiece st value in
    let new_piece := Z.land old_piece (wrap 64 (Z.lnot (bit_of value))) in
    Some (SetPiece st value new_piece, negb (old_piece =? new_piece))
  else None.

Definition With (st : StateT) (e : Z) : option StateT := fst <$> Add st e.
Definition Without (st : StateT) (e : Z) : option StateT := fst <$> Remove st e.

(** The variadic overloads. *)
Fixpoint With_all (st : StateT) (es : list Z) : option StateT :=
  match es with [] => Some st | e :: es' => st' ← With st e; With_all st' es' end.
Fixpoint Without_all (st : StateT) (es : list Z) : option StateT :=
  match es with [] => Some st | e :: es' => st' ← Without st e; Without_all st' es' end.

(** The constructor from enumerators: [SmallEnumSet(rest...).With(e)]. *)
Fixpoint SmallEnumSet_of (es : list Z) : option StateT :=
  match es with [] => Some SmallEnumSet_empty | e :: es' => st ← SmallEnumSet_of es'; With st e end.

(** The loop of [SkipUnset]; [None] is lack of fuel. *)
Fixpoint SkipUnset_loop (fuel : nat) (st : StateT) (pos : Z) : option Z :=
  match fuel with
  | O => None
  | S fuel' =>
      if pos <=? kMaxValue then
        let remainder := Z.shiftr (GetPiece st pos) (Z.land pos kPieceMask) in
        if negb (remainder =? 0)
        then Some (pos + CountTrailingZeroBitsForSmallEnumSet remainder)
        else SkipUnset_loop fuel' st (Z.land (pos + kPieceBits) (Z.lnot kPieceMask))
      else Some (kMaxValue + 1)
  end.

(** One iteration per piece and the final test. *)
Definition SkipUnset (st : StateT) (pos : Z) : option Z :=
  SkipUnset_loop (Z.to_nat (kPieceCount kMaxValue) + 1) st pos.

(** Iterators are their position. *)
Definition set_begin (st : StateT) : option Z := SkipUnset st 0.
Definition set_end : Z := kMaxValue + 1.
Definition iter_next (st : StateT) (pos : Z) : option Z :=
  if pos <? kMaxValue then SkipUnset st (pos + 1) else Some (kMaxValue + 1).
Definition iter_deref (pos : Z) : option Z := if pos <=? kMaxValue then Some pos else None.

(** [for (e : set)]: the values a range-for visits. *)
Fixpoint iterate_from (fuel : nat) (st : StateT) (pos : Z) : option (list Z) :=
  match fuel with
  | O => None
  | S fuel' =>
      if pos =? set_end then Some []
      else v ← iter_deref pos; p ← iter_next st pos; vs ← iterate_from fuel' st p; Some (v :: vs)
  end.
Definition iterate (st : StateT) : option (list Z) :=
  p ← set_begin st; iterate_from (Z.to_nat (kMaxValue + 2)) st p.

End SmallEnumSet.

(** ** The set a state stands for *)

Definition bit (st : StateT) (v : Z) : bool :=
  Z.testbit (default 0 (st !! Z.to_nat (v / 64))) (v mod 64).

(** The invariant of a state: the array has [kPieceCount] words of 64 bits and
    no bit above [kMaxValue] is set. *)
Record wf (kMaxValue : Z) (st : StateT) : Prop := {
  wf_length : length st = Z.to_nat (kPieceCount kMaxValue);
  wf_pieces : Forall (in_width 64) st;
  wf_high : ∀ v, kMaxValue < v < 64 * kPieceCount kMaxValue → bit st v = false;
}.

(** The values contained, in increasing order. *)
Definition members (kMaxValue : Z) (st : StateT) : list Z :=
  filter (λ v, bit st v = true) (seqZ 0 (kMaxValue + 1)).

(** ** Lemmas on bits *)

Lemma land_mask v : 0 ≤ v → Z.land v kPieceMask = v mod 64.
Proof. intros. change kPieceMask with (Z.ones 6). by rewrite Z.land_ones. Qed.

Lemma shift_piece v : Z.shiftr v kPieceShift = v / 64.
Proof. unfold kPieceShift. by rewrite Z.shiftr_div_pow2. Qed.

Lemma pow2_lt_64 k : 0 ≤ k < 64 → in_width 64 (2 ^ k).
Proof. intros. split; [lia|]. apply Z.pow_lt_mono_r; lia. Qed.

Lemma bit_of_eq v : 0 ≤ v → bit_of v = 2 ^ (v mod 64).
Proof.
  intros. unfold bit_of. rewrite land_mask, Z.shiftl_1_l by done.
  apply wrap_small, pow2_lt_64. apply Z.mod_pos_bound. lia.
Qed.

Lemma testbit_high x k : in_width 64 x → 64 ≤ k → Z.testbit x k = false.
Proof.
  intros [? Hx] ?. destruct (decide (x = 0)) as [->|]; [apply Z.bits_0|].
  apply Z.bits_above_log2; [lia|]. apply Z.log2_lt_pow2; [lia|].
  eapply Z.lt_le_trans; [done|]. apply Z.pow_le_mono_r; lia.
Qed.

Lemma in_width_bits x : 0 ≤ x → (∀ k, 64 ≤ k → Z.testbit x k = false) → in_width 64 x.
Proof.
  intros Hx Hb. split; [done|]. destruct (decide (x = 0)) as [->|]; [done|].
  apply Z.log2_lt_pow2; [lia|]. destruct (Z.lt_ge_cases (Z.log2 x) 64) as [|Hge]; [done|].
  apply Hb in Hge. rewrite Z.bit_log2 in Hge by lia. done.
Qed.

Lemma lor_width x y : in_width 64 x → in_width 64 y → in_width 64 (Z.lor x y).
Proof.
  intros Hx Hy. apply in_width_bits; [apply Z.lor_nonneg; split; [apply Hx|apply Hy]|].
  intros k Hk. rewrite Z.lor_spec, !testbit_high by done. done.
Qed.

Lemma land_width x y : in_width 64 x → in_width 64 (Z.land x y).
Proof.
  intros Hx. apply in_width_bits; [apply Z.land_nonneg; left; apply Hx|].
  intros k Hk. rewrite Z.land_spec, testbit_high by done. done.
Qed.

Lemma land_pow2 x k : 0 ≤ k → negb (Z.land x (2 ^ k) =? 0) = Z.testbit x k.
Proof.
  intros Hk. destruct (Z.testbit x k) eqn:E.
  - apply negb_true_iff, Z.eqb_neq. intros Hz.
    assert (Z.testbit (Z.land x (2 ^ k)) k = false) as Hb by (rewrite Hz; apply Z.bits_0).
    rewrite Z.land_spec, E, Z.pow2_bits_true in Hb by done. done.
  - apply negb_false_iff, Z.eqb_eq. apply Z.bits_inj'. intros i Hi.
    rewrite Z.land_spec, Z.bits_0, Z.pow2_bits_eqb by done.
    destruct (k =? i) eqn:Ek; [apply Z.eqb_eq in Ek; subst; by rewrite E|apply andb_false_r].
Qed.

Lemma clear_bit_spec x k i :
  in_width 64 x → 0 ≤ k < 64 → 0 ≤ i →
  Z.testbit (Z.land x (wrap 64 (Z.lnot (2 ^ k)))) i = Z.testbit x i && negb (k =? i).
Proof.
  intros Hx Hk Hi. rewrite Z.land_spec. unfold wrap.
  destruct (Z.lt_ge_cases i 64).
  - rewrite Z.mod_pow2_bits_low by done. rewrite Z.lnot_spec by done.
    by rewrite Z.pow2_bits_eqb by lia.
  - by rewrite testbit_high.
Qed.

Lemma set_bit_spec x k i :
  0 ≤ k → 0 ≤ i → Z.testbit (Z.lor x (2 ^ k)) i = Z.testbit x i || (k =? i).
Proof. intros. by rewrite Z.lor_spec, Z.pow2_bits_eqb by lia. Qed.

(** ** Lemmas on states *)

Section Refinement.
Context (kMaxValue : Z) (Hmax : valid_max kMaxValue).

Lemma piece_count_pos : 1 ≤ kPieceCount kMaxValue.
Proof. unfold kPieceCount, kPieceBits. destruct Hmax. assert (0 ≤ kMaxValue / 64) by (apply Z.div_pos; lia). lia. Qed.

Lemma piece_index_lt v :
  0 ≤ v < 64 * kPieceCount kMaxValue → (Z.to_nat (v / 64) < Z.to_nat (kPieceCount kMaxValue))%nat.
Proof.
  intros Hv. assert (v / 64 < kPieceCount kMaxValue) by (apply Z.div_lt_upper_bound; lia).
  assert (0 ≤ v / 64) by (apply Z.div_pos; lia). lia.
Qed.

Lemma max_lt_bits : kMaxValue < 64 * kPieceCount kMaxValue.
Proof. unfold kPieceCount, kPieceBits. pose proof (Z.mul_succ_div_gt kMaxValue 64). lia. Qed.

Lemma in_range_iff v : in_range kMaxValue v = true ↔ 0 ≤ v ≤ kMaxValue.
Proof. unfold in_range. rewrite andb_true_iff, !Z.leb_le. lia. Qed.

Lemma piece_index_one v :
  kPieceCount kMaxValue = 1 → 0 ≤ v ≤ kMaxValue → Z.to_nat (v / 64) = 0%nat.
Proof. intros H1 Hv. pose proof max_lt_bits. pose proof (piece_index_lt v ltac:(lia)). lia. Qed.

Lemma GetPiece_eq st v :
  0 ≤ v ≤ kMaxValue → GetPiece kMaxValue st v = default 0 (st !! Z.to_nat (v / 64)).
Proof.
  intros Hv. unfold GetPiece. rewrite shift_piece.
  destruct (kPieceCount kMaxValue =? 1) eqn:E; [|done].
  apply Z.eqb_eq in E. by rewrite piece_index_one.
Qed.

Lemma SetPiece_eq st v x :
  0 ≤ v ≤ kMaxValue → SetPiece kMaxValue st v x = <[Z.to_nat (v / 64) := x]> st.
Proof.
  intros Hv. unfold SetPiece. rewrite shift_piece.
  destruct (kPieceCount kMaxValue =? 1) eqn:E; [|done].
  apply Z.eqb_eq in E. by rewrite piece_index_one.
Qed.

Lemma Contains_eq st v : 0 ≤ v ≤ kMaxValue → Contains kMaxValue st v = Some (bit st v).
Proof.
  intros Hv. unfold Contains. rewrite (proj2 (in_range_iff v)) by done.
  rewrite GetPiece_eq, bit_of_eq, land_pow2 by (try apply Z.mod_pos_bound; lia). done.
Qed.

Lemma piece_width (st : StateT) (j : nat) : wf kMaxValue st → in_width 64 (default 0 (st !! j)).
Proof.
  intros [_ Hp _]. destruct (st !! j) as [x|] eqn:E; simpl; [|by split].
  by eapply Forall_lookup_1 in E.
Qed.

(** The bits after a write to the piece of [v]: [f] acts on the bit of [v]. *)
Lemma bit_update st v x (f : bool → bool) :
  wf kMaxValue st → 0 ≤ v ≤ kMaxValue →
  (∀ i, 0 ≤ i → Z.testbit x i =
     let b := Z.testbit (default 0 (st !! Z.to_nat (v / 64))) i in
     if v mod 64 =? i then f b else b) →
  ∀ w, 0 ≤ w → bit (<[Z.to_nat (v / 64) := x]> st) w = if v =? w then f (bit st w) else bit st w.
Proof.
  intros Hwf Hv Hx w Hw. unfold bit. pose proof max_lt_bits.
  assert (Z.to_nat (v / 64) < length st)%nat as Hlt.
  { rewrite (wf_length _ _ Hwf). apply piece_index_lt. lia. }
  destruct (decide (v / 64 = w / 64)) as [E|E].
  - rewrite <- E, list_lookup_insert_eq by done. simpl. rewrite Hx by (apply Z.mod_pos_bound; lia).
    cbn zeta. pose proof (Z.div_mod v 64 ltac:(lia)). pose proof (Z.div_mod w 64 ltac:(lia)).
    destruct (v mod 64 =? w mod 64) eqn:E1, (v =? w) eqn:E2; try done; blia.
  - rewrite list_lookup_insert_ne.
    + destruct (v =? w) eqn:E2; [|done]. apply Z.eqb_eq in E2. by subst.
    + intros Hn. apply E. assert (0 ≤ v / 64) by (apply Z.div_pos; lia).
      assert (0 ≤ w / 64) by (apply Z.div_pos; lia). lia.
Qed.

Lemma wf_update st v x :
  wf kMaxValue st → 0 ≤ v ≤ kMaxValue → in_width 64 x →
  (∀ w, 0 ≤ w → v ≠ w → bit (<[Z.to_nat (v / 64) := x]> st) w = bit st w) →
  wf kMaxValue (<[Z.to_nat (v / 64) := x]> st).
Proof.
  intros [Hl Hp Hh] Hv Hx Hb. split.
  - by rewrite length_insert.
  - by apply Forall_insert.
  - intros w Hw. rewrite Hb by lia. by apply Hh.
Qed.

Lemma Add_eq st v :
  wf kMaxValue st → 0 ≤ v ≤ kMaxValue →
  ∃ st', Add kMaxValue st v = Some (st', negb (bit st v)) ∧ wf kMaxValue st' ∧
    ∀ w, 0 ≤ w → bit st' w = (v =? w) || bit st w.
Proof.
  intros Hwf Hv. unfold Add. rewrite (proj2 (in_range_iff v)) by done.
  rewrite GetPiece_eq, SetPiece_eq, bit_of_eq by lia.
  set (p := default 0 _). pose proof (Z.mod_pos_bound v 64 ltac:(lia)) as Hm.
  assert (Hbits : ∀ w, 0 ≤ w → bit (<[Z.to_nat (v / 64) := Z.lor p (2 ^ (v mod 64))]> st) w =
    if v =? w then true else bit st w).
  { apply (bit_update st v _ (λ _, true)); [done..|]. intros i Hi. rewrite set_bit_spec by lia.
    fold p. cbn zeta. destruct (_ =? i); [apply orb_true_r|apply orb_false_r]. }
  eexists. split; [|split].
  - do 2 f_equal. unfold bit. fold p. destruct (Z.testbit p (v mod 64)) eqn:E.
    + rewrite (proj2 (Z.eqb_eq _ _)); [done|]. apply Z.bits_inj'. intros i Hi.
      rewrite set_bit_spec by lia. destruct (_ =? i) eqn:Ei; [|by rewrite orb_false_r].
      apply Z.eqb_eq in Ei. subst. by rewrite E.
    + rewrite (proj2 (Z.eqb_neq _ _)); [done|]. intros Hp.
      assert (Z.testbit (Z.lor p (2 ^ (v mod 64))) (v mod 64) = false) as Hf by by rewrite <- Hp.
      rewrite set_bit_spec, E, Z.eqb_refl in Hf by lia. done.
  - apply wf_update; [done..|apply lor_width; [by apply piece_width|by apply pow2_lt_64]|].
    intros w Hw Hne. rewrite Hbits by done. by rewrite (proj2 (Z.eqb_neq _ _)).
  - intros w Hw. rewrite Hbits by done. by destruct (v =? w).
Qed.

Lemma Remove_eq st v :
  wf kMaxValue st → 0 ≤ v ≤ kMaxValue →
  ∃ st', Remove kMaxValue st v = Some (st', bit st v) ∧ wf kMaxValue st' ∧
    ∀ w, 0 ≤ w → bit st' w = negb (v =? w) && bit st w.
Proof.
  intros Hwf Hv. unfold Remove. rewrite (proj2 (in_range_iff v)) by done.
  rewrite GetPiece_eq, SetPiece_eq, bit_of_eq by lia.
  set (p := default 0 _). pose proof (Z.mod_pos_bound v 64 ltac:(lia)) as Hm.
  assert (in_width 64 p) as Hp by (by apply piece_width).
  assert (Hbits : ∀ w, 0 ≤ w →
    bit (<[Z.to_nat (v / 64) := Z.land p (wrap 64 (Z.lnot (2 ^ (v mod 64))))]> st) w =
    if v =? w then false else bit st w).
  { apply (bit_update st v _ (λ _, false)); [done..|]. intros i Hi. rewrite clear_bit_spec by done.
    fold p. cbn zeta. destruct (_ =? i); [apply andb_false_r|apply andb_true_r]. }
  eexists. split; [|split].
  - do 2 f_equal. unfold bit. fold p. destruct (Z.testbit p (v mod 64)) eqn:E.
    + rewrite (proj2 (Z.eqb_neq _ _)); [done|]. intros Heq.
      assert (Z.testbit p (v mod 64) = false) as Hf; [|congruence].
      rewrite Heq, clear_bit_spec, Z.eqb_refl by (done || lia). apply andb_false_r.
    + rewrite (proj2 (Z.eqb_eq _ _)); [done|]. apply Z.bits_inj'. intros i Hi.
      rewrite clear_bit_spec by done. destruct (_ =? i) eqn:Ei; [|by rewrite andb_true_r].
      apply Z.eqb_eq in Ei. subst. by rewrite E.
  - apply wf_update; [done..|by apply land_width|].
    intros w Hw Hne. rewrite Hbits by done. by rewrite (proj2 (Z.eqb_neq _ _)).
  - intros w Hw. rewrite Hbits by done. by destruct (v =? w).
Qed.

End Refinement.

(** Bits by piece and offset. *)
Lemma bit_piece st q r :
  0 ≤ q → 0 ≤ r < 64 → bit st (64 * q + r) = Z.testbit (default 0 (st !! Z.to_nat q)) r.
Proof.
  intros. unfold bit. rewrite (Z.mul_comm 64), Z.div_add_l, Z.div_small by lia.
  rewrite Z.add_0_r. do 2 f_equal. rewrite Z.add_comm, Z_mod_plus_full. by apply Z.mod_small.
Qed.

Lemma next_piece pos : 0 ≤ pos → Z.land (pos + kPieceBits) (Z.lnot kPieceMask) = 64 * (pos / 64 + 1).
Proof.
  intros. rewrite <- Z.ldiff_land. change kPieceMask with (Z.ones 6). unfold kPieceBits.
  rewrite Z.ldiff_ones_r, Z.shiftr_div_pow2, Z.shiftl_mul_pow2 by lia.
  change (2 ^ 6) with 64. replace (pos + 64) with (pos + 1 * 64) by lia.
  rewrite Z.div_add by lia. lia.
Qed.

Section Iteration.
Context `{D : EnumSetDetail, !EnumSetDetailOk D} (kMaxValue : Z) (Hmax : valid_max kMaxValue).

Lemma remainder_nonzero st pos :
  wf kMaxValue st → 0 ≤ pos ≤ kMaxValue →
  let rem := Z.shiftr (GetPiece kMaxValue st pos) (Z.land pos kPieceMask) in
  rem ≠ 0 →
  let q := pos + CountTrailingZeroBitsForSmallEnumSet rem in
  pos ≤ q ≤ kMaxValue ∧ bit st q = true ∧ ∀ v, pos ≤ v < q → bit st v = false.
Proof.
  intros Hwf Hpos rem Hrem. pose proof (piece_width kMaxValue st (Z.to_nat (pos / 64)) Hwf) as Hw.
  pose proof (Z.mod_pos_bound pos 64 ltac:(lia)) as Hm.
  pose proof (Z.div_mod pos 64 ltac:(lia)) as Hdm.
  assert (0 ≤ pos / 64) by (apply Z.div_pos; lia).
  set (p := default 0 (st !! Z.to_nat (pos / 64))) in *.
  assert (Erem : rem = Z.shiftr p (pos mod 64)).
  { subst rem. by rewrite GetPiece_eq, land_mask by lia. }
  assert (0 < rem < 2 ^ 64) as Hr.
  { rewrite Erem in *. rewrite Z.shiftr_div_pow2 in * by lia. destruct Hw as [Hp0 Hp].
    assert (0 < 2 ^ (pos mod 64)) by (apply Z.pow_pos_nonneg; lia).
    assert (0 ≤ p / 2 ^ (pos mod 64)) by (apply Z.div_pos; lia).
    assert (p / 2 ^ (pos mod 64) ≤ p) by (apply Z.div_le_upper_bound; nia). lia. }
  destruct (ctz_spec rem Hr) as (Hk & Hkb & Hlow).
  set (k := CountTrailingZeroBitsForSmallEnumSet rem) in *. intros q. subst q.
  rewrite Erem, Z.shiftr_spec in Hkb by lia.
  assert (k + pos mod 64 < 64) as Hlt.
  { destruct (Z.lt_ge_cases (k + pos mod 64) 64); [done|]. by rewrite testbit_high in Hkb. }
  assert (Hbit : ∀ j, 0 ≤ j → j + pos mod 64 < 64 → bit st (pos + j) = Z.testbit p (j + pos mod 64)).
  { intros j Hj ?. replace (pos + j) with (64 * (pos / 64) + (j + pos mod 64)) by lia.
    by rewrite bit_piece by lia. }
  assert (bit st (pos + k) = true) as Hq by (rewrite Hbit by lia; done).
  split_and!; [lia| |done|].
  - destruct (Z.le_gt_cases (pos + k) kMaxValue); [done|].
    pose proof (max_lt_bits kMaxValue). rewrite (wf_high _ _ Hwf) in Hq; [done|].
    unfold kPieceCount, kPieceBits in *. split; [done|].
    pose proof (Z.div_le_mono pos kMaxValue 64). lia.
  - intros v Hv. replace v with (pos + (v - pos)) by lia. rewrite Hbit by lia.
    specialize (Hlow (v - pos) ltac:(lia)). by rewrite Erem, Z.shiftr_spec in Hlow by lia.
Qed.

Lemma remainder_zero st pos :
  wf kMaxValue st → 0 ≤ pos ≤ kMaxValue →
  Z.shiftr (GetPiece kMaxValue st pos) (Z.land pos kPieceMask) = 0 →
  ∀ v, pos ≤ v < 64 * (pos / 64 + 1) → bit st v = false.
Proof.
  intros Hwf Hpos Hrem v Hv. pose proof (Z.mod_pos_bound pos 64 ltac:(lia)) as Hm.
  pose proof (Z.div_mod pos 64 ltac:(lia)) as Hdm.
  assert (0 ≤ pos / 64) by (apply Z.div_pos; lia).
  rewrite GetPiece_eq, land_mask in Hrem by lia.
  replace v with (64 * (pos / 64) + (v - pos + pos mod 64)) by lia.
  rewrite bit_piece, <- (Z.shiftr_spec _ (pos mod 64)), Hrem by lia. apply Z.bits_0.
Qed.

Lemma SkipUnset_loop_spec fuel st pos :
  wf kMaxValue st → 0 ≤ pos → pos / 64 ≤ kPieceCount kMaxValue →
  kPieceCount kMaxValue + 1 ≤ pos / 64 + Z.of_nat fuel →
  ∃ q, SkipUnset_loop kMaxValue fuel st pos = Some q ∧ q ≤ kMaxValue + 1 ∧
    (pos ≤ kMaxValue → pos ≤ q) ∧ (kMaxValue < pos → q = kMaxValue + 1) ∧
    (q ≤ kMaxValue → bit st q = true) ∧ (∀ v, pos ≤ v < q → bit st v = false).
Proof.
  intros Hwf. revert pos. induction fuel as [|fuel IH]; intros pos Hpos Hle Hfuel; [lia|].
  cbn [SkipUnset_loop]. destruct (pos <=? kMaxValue) eqn:E.
  2: { exists (kMaxValue + 1). split_and!; try done; try blia. }
  apply Z.leb_le in E. cbn zeta. destruct (_ =? 0) eqn:Er; simpl.
  - apply Z.eqb_eq in Er. rewrite next_piece by done.
    pose proof (remainder_zero st pos Hwf ltac:(lia) Er) as Hz.
    assert (64 * (pos / 64 + 1) / 64 = pos / 64 + 1) as Ediv.
    { rewrite Z.mul_comm. by apply Z.div_mul. }
    assert (pos / 64 < kPieceCount kMaxValue) as Hlt.
    { apply Z.div_lt_upper_bound; [lia|]. pose proof (max_lt_bits kMaxValue). lia. }
    assert (0 ≤ pos / 64) by (apply Z.div_pos; lia).
    destruct (IH (64 * (pos / 64 + 1))) as (q & Eq & Hq & Hge & Hend & Hb & Hfalse); [lia..|].
    exists q. pose proof (Z.mul_succ_div_gt pos 64). split_and!; try done; try lia.
    intros v Hv. destruct (Z.lt_ge_cases v (64 * (pos / 64 + 1))); [apply Hz|apply Hfalse]; lia.
  - apply Z.eqb_neq in Er. destruct (remainder_nonzero st pos Hwf ltac:(lia) Er) as (Hq & Hb & Hf).
    eexists. split; [done|]. split_and!; try done; lia.
Qed.

Lemma SkipUnset_spec st pos :
  wf kMaxValue st → 0 ≤ pos ≤ kMaxValue + 1 →
  ∃ q, SkipUnset kMaxValue st pos = Some q ∧ pos ≤ q ≤ kMaxValue + 1 ∧
    (q ≤ kMaxValue → bit st q = true) ∧ (∀ v, pos ≤ v < q → bit st v = false).
Proof.
  intros Hwf Hpos. pose proof (max_lt_bits kMaxValue). pose proof (piece_count_pos kMaxValue Hmax).
  assert (0 ≤ pos / 64) by (apply Z.div_pos; lia).
  destruct (SkipUnset_loop_spec (Z.to_nat (kPieceCount kMaxValue) + 1) st pos)
    as (q & Eq & Hq & Hge & Hend & Hb & Hf); [done|lia| |lia|].
  { apply Z.div_le_upper_bound; lia. }
  exists q. split_and!; try done. destruct (Z.le_gt_cases pos kMaxValue); lia.
Qed.

Lemma members_split st pos q :
  pos ≤ q ≤ kMaxValue + 1 → (∀ v, pos ≤ v < q → bit st v = false) →
  filter (λ v, bit st v = true) (seqZ pos (kMaxValue + 1 - pos)) =
  filter (λ v, bit st v = true) (seqZ q (kMaxValue + 1 - q)).
Proof.
  intros Hq Hf. replace (kMaxValue + 1 - pos) with ((q - pos) + (kMaxValue + 1 - q)) by lia.
  rewrite seqZ_app, filter_app by lia. replace (pos + (q - pos)) with q by lia.
  rewrite filter_none; [done|]. intros v Hv%elem_of_seqZ. rewrite Hf by lia. done.
Qed.

Lemma iterate_from_spec fuel st pos :
  wf kMaxValue st → 0 ≤ pos ≤ kMaxValue + 1 → (pos ≤ kMaxValue → bit st pos = true) →
  kMaxValue + 2 - pos ≤ Z.of_nat fuel →
  iterate_from kMaxValue fuel st pos =
    Some (filter (λ v, bit st v = true) (seqZ pos (kMaxValue + 1 - pos))).
Proof.
  intros Hwf. revert pos. induction fuel as [|fuel IH]; intros pos Hpos Hb Hfuel; [lia|].
  cbn [iterate_from]. unfold set_end. destruct (pos =? kMaxValue + 1) eqn:E.
  { apply Z.eqb_eq in E. subst. by rewrite Z.sub_diag. }
  apply Z.eqb_neq in E. unfold iter_deref. rewrite (proj2 (Z.leb_le _ _)) by lia.
  cbn [mbind option_bind]. rewrite seqZ_cons, filter_cons_True by (try apply Hb; lia).
  unfold iter_next. destruct (pos <? kMaxValue) eqn:E1.
  - apply Z.ltb_lt in E1.
    destruct (SkipUnset_spec st (pos + 1) Hwf ltac:(lia)) as (q & -> & Hq & Hbq & Hf).
    cbn [mbind option_bind]. rewrite IH by (done || lia). cbn [mbind option_bind]. do 2 f_equal.
    replace (Z.succ pos) with (pos + 1) by lia.
    replace (Z.pred (kMaxValue + 1 - pos)) with (kMaxValue + 1 - (pos + 1)) by lia.
    by rewrite (members_split st (pos + 1) q).
  - assert (pos = kMaxValue) as -> by blia. cbn [mbind option_bind].
    rewrite IH by lia. by rewrite Z.sub_diag, Z.add_simpl_l.
Qed.

(** The number of set bits in a range of positions. *)
Lemma popcount_range st q n :
  0 ≤ q → (n ≤ 64)%nat →
  popcount (default 0 (st !! Z.to_nat q)) n =
  Z.of_nat (length (filter (λ v, bit st v = true) (seqZ (64 * q) (Z.of_nat n)))).
Proof.
  intros Hq Hn. induction n as [|n IH]; [done|]. cbn [popcount].
  rewrite IH, seqZ_S, filter_app, length_app by lia. rewrite Nat2Z.inj_add. f_equal.
  rewrite filter_singleton by exact []. rewrite bit_piece by lia.
  by destruct (Z.testbit _ _).
Qed.

Lemma popcount_bound x n : 0 ≤ popcount x n ≤ Z.of_nat n.
Proof. induction n as [|n IH]; simpl; [lia|]. destruct (Z.testbit x (Z.of_nat n)); simpl; lia. Qed.

Lemma count_loop_spec st rv i n :
  wf kMaxValue st → 0 ≤ i → 0 ≤ rv → rv + 64 * Z.of_nat n < 2 ^ 64 →
  count_loop st rv i n =
    rv + Z.of_nat (length (filter (λ v, bit st v = true) (seqZ (64 * i) (64 * Z.of_nat n)))).
Proof.
  intros Hwf. revert rv i. induction n as [|n IH]; intros rv i Hi Hrv Hb; [simpl; lia|].
  cbn [count_loop]. rewrite popcount_spec by (by apply (piece_width kMaxValue)).
  pose proof (popcount_bound (default 0 (st !! Z.to_nat i)) 64) as Hk.
  rewrite popcount_range in Hk |- * by lia. change (Z.of_nat 64) with 64 in *.
  set (k := length _) in *.
  unfold u64_add. rewrite wrap_small by (unfold in_width; lia). rewrite IH by lia.
  replace (64 * Z.of_nat (S n)) with (64 + 64 * Z.of_nat n) by lia.
  rewrite seqZ_app, filter_app, length_app by lia.
  replace (64 * i + 64) with (64 * (i + 1)) by lia. fold k. lia.
Qed.

Lemma count_spec st :
  wf kMaxValue st → count kMaxValue st = Z.of_nat (length (members kMaxValue st)).
Proof.
  intros Hwf. pose proof (piece_count_pos kMaxValue Hmax). pose proof (max_lt_bits kMaxValue).
  assert (kPieceCount kMaxValue ≤ 16) as Hc.
  { unfold kPieceCount, kPieceBits. destruct Hmax.
    assert (kMaxValue / 64 < 16) by (apply Z.div_lt_upper_bound; lia). lia. }
  unfold count. rewrite count_loop_spec by (done || lia). rewrite Z.add_0_l. do 2 f_equal.
  unfold members. rewrite Z.mul_0_r, Z2Nat.id by lia. destruct Hmax.
  replace (64 * kPieceCount kMaxValue)
    with ((kMaxValue + 1) + (64 * kPieceCount kMaxValue - (kMaxValue + 1))) by lia.
  rewrite seqZ_app, filter_app by lia. rewrite (filter_none _ (seqZ (0 + _) _)).
  { by rewrite app_nil_r. }
  intros v Hv%elem_of_seqZ. rewrite (wf_high _ _ Hwf) by lia. done.
Qed.

End Iteration.

(** ** Lemmas on whole states *)

Lemma All_loop_lookup (tmp : StateT) i n (j : nat) :
  0 ≤ i → (j < length tmp)%nat →
  length (All_loop tmp i n) = length tmp ∧
  All_loop tmp i n !! j =
    if bool_decide (Z.to_nat i ≤ j < Z.to_nat i + n)%nat
    then Some (wrap 64 (Z.lnot 0)) else tmp !! j.
Proof.
  revert tmp i. induction n as [|n IH]; intros tmp i Hi Hj; cbn [All_loop].
  { split; [done|]. by rewrite bool_decide_eq_false_2 by lia. }
  destruct (IH (<[Z.to_nat i:=wrap 64 (Z.lnot 0)]> tmp) (i + 1)) as [IH1 IH2];
    [lia|by rewrite length_insert|].
  rewrite length_insert in IH1. split; [done|]. rewrite IH2.
  destruct (decide (j = Z.to_nat i)) as [->|].
  - rewrite bool_decide_eq_false_2, bool_decide_eq_true_2 by lia. by apply list_lookup_insert_eq.
  - rewrite list_lookup_insert_ne by done.
    destruct (decide (Z.to_nat (i + 1) ≤ j < Z.to_nat (i + 1) + n)%nat).
    + by rewrite !bool_decide_eq_true_2 by lia.
    + by rewrite !bool_decide_eq_false_2 by lia.
Qed.

Lemma ones_bit k i : 0 ≤ k ≤ 64 → 0 ≤ i → Z.testbit (2 ^ k - 1) i = (i <? k).
Proof.
  intros. replace (2 ^ k - 1) with (Z.ones k) by (rewrite Z.ones_equiv; lia).
  destruct (i <? k) eqn:E.
  - apply Z.ones_spec_low. blia.
  - apply Z.ones_spec_high. blia.
Qed.

Section Whole.
Context (kMaxValue : Z) (Hmax : valid_max kMaxValue).

(** The pieces of [All]: full words and the low bits of the last one. *)
Lemma All_piece (tmp : StateT) j :
  length tmp = Z.to_nat (kPieceCount kMaxValue) → 0 ≤ j < kPieceCount kMaxValue →
  All kMaxValue tmp !! Z.to_nat j = Some (2 ^ Z.min 64 (kMaxValue + 1 - 64 * j) - 1).
Proof.
  intros Hl Hj. unfold All. set (st := All_loop tmp 0 _).
  assert (Hlen : length st = length tmp).
  { apply (All_loop_lookup _ _ _ 0%nat); [done|]. rewrite Hl. pose proof (piece_count_pos _ Hmax). lia. }
  assert (wrap 64 (Z.lnot 0) = 2 ^ 64 - 1) as Hones by done.
  destruct Hmax as [Hm0 Hm1]. unfold kPieceCount, kPieceBits in *.
  pose proof (Z.div_mod kMaxValue 64 ltac:(lia)) as Hdm.
  pose proof (Z.mod_pos_bound kMaxValue 64 ltac:(lia)).
  assert (Hlast : (if negb (Z.land (kMaxValue + 1) kPieceMask =? 0)
     then wrap 64 (wrap 64 (Z.shiftl 1 (Z.land (kMaxValue + 1) kPieceMask)) - 1)
     else wrap 64 (Z.lnot 0)) = 2 ^ (kMaxValue mod 64 + 1) - 1).
  { rewrite land_mask by lia. destruct (decide (kMaxValue mod 64 = 63)) as [E|E].
    - replace ((kMaxValue + 1) mod 64) with 0; [by rewrite E|].
      rewrite <- Z.add_mod_idemp_l, E by lia. done.
    - assert ((kMaxValue + 1) mod 64 = kMaxValue mod 64 + 1) as ->.
      { rewrite <- Z.add_mod_idemp_l by lia. apply Z.mod_small. lia. }
      rewrite (proj2 (Z.eqb_neq _ _)) by lia. simpl negb. cbv iota.
      rewrite Z.shiftl_1_l. assert (0 < 2 ^ (kMaxValue mod 64 + 1)) by (apply Z.pow_pos_nonneg; lia).
      assert (in_width 64 (2 ^ (kMaxValue mod 64 + 1))) as [? ?] by (apply pow2_lt_64; lia).
      rewrite (wrap_small 64 (2 ^ _)) by (split; lia). rewrite wrap_small by (split; lia). done. }
  set (x := if negb _ then _ else _) in Hlast.
  replace (if negb _ then _ else _) with (<[Z.to_nat (kMaxValue / 64 + 1 - 1) := x]> st)
    by (subst x; by destruct (negb _)).
  clearbody x. subst x. destruct (decide (j = kMaxValue / 64)) as [->|Hne].
  - rewrite Z.add_simpl_r, list_lookup_insert_eq by lia. do 3 f_equal. lia.
  - rewrite list_lookup_insert_ne by lia. subst st.
    destruct (All_loop_lookup tmp 0 (Z.to_nat (kMaxValue / 64 + 1 - 1)) (Z.to_nat j)) as [_ ->]; [lia..|].
    rewrite bool_decide_eq_true_2, Hones by lia. do 3 f_equal. lia.
Qed.

Lemma All_spec (tmp : StateT) :
  length tmp = Z.to_nat (kPieceCount kMaxValue) →
  wf kMaxValue (All kMaxValue tmp) ∧
  ∀ v, 0 ≤ v < 64 * kPieceCount kMaxValue → bit (All kMaxValue tmp) v = (v <=? kMaxValue).
Proof.
  intros Hl. pose proof (piece_count_pos _ Hmax). pose proof (max_lt_bits kMaxValue).
  assert (Hlen : length (All kMaxValue tmp) = length tmp).
  { unfold All. destruct (negb _); rewrite length_insert;
      apply (All_loop_lookup _ _ _ 0%nat); (done || lia). }
  assert (Hlow : ∀ j, 0 ≤ j < kPieceCount kMaxValue → 0 ≤ Z.min 64 (kMaxValue + 1 - 64 * j) ≤ 64).
  { intros j Hj. unfold kPieceCount, kPieceBits in *. destruct Hmax.
    pose proof (Z.mul_div_le kMaxValue 64). lia. }
  assert (Hbits : ∀ v, 0 ≤ v < 64 * kPieceCount kMaxValue →
    bit (All kMaxValue tmp) v = (v <=? kMaxValue)).
  { intros v Hv. unfold bit.
    assert (0 ≤ v / 64 < kPieceCount kMaxValue) as Hq.
    { split; [apply Z.div_pos; lia|apply Z.div_lt_upper_bound; lia]. }
    rewrite All_piece by done. simpl. pose proof (Z.mod_pos_bound v 64 ltac:(lia)).
    rewrite ones_bit by (try apply Hlow; lia). pose proof (Z.div_mod v 64 ltac:(lia)).
    destruct (v <=? kMaxValue) eqn:E; [apply Z.ltb_lt|apply Z.ltb_ge]; blia. }
  split; [split|done].
  - by rewrite Hlen.
  - apply Forall_lookup. intros j x Hj. pose proof (lookup_lt_Some _ _ _ Hj) as Hjl.
    rewrite <- (Nat2Z.id j), All_piece in Hj by lia. injection Hj as <-.
    specialize (Hlow (Z.of_nat j) ltac:(lia)). split.
    + assert (0 < 2 ^ Z.min 64 (kMaxValue + 1 - 64 * Z.of_nat j)) by (apply Z.pow_pos_nonneg; lia). lia.
    + assert (2 ^ Z.min 64 (kMaxValue + 1 - 64 * Z.of_nat j) ≤ 2 ^ 64) by (apply Z.pow_le_mono_r; lia). lia.
  - intros v Hv. destruct Hmax. rewrite Hbits by lia. blia.
Qed.

Lemma empty_wf : wf kMaxValue (SmallEnumSet_empty kMaxValue).
Proof.
  assert (Hb : ∀ v, bit (SmallEnumSet_empty kMaxValue) v = false).
  { intros v. unfold bit, SmallEnumSet_empty.
    destruct (replicate _ _ !! _) eqn:E; simpl; [|apply Z.bits_0].
    apply lookup_replicate in E as [-> _]. apply Z.bits_0. }
  split; [apply length_replicate| |by intros].
  apply Forall_lookup. intros j x [-> _]%lookup_replicate. by split.
Qed.

Lemma empty_bit v : bit (SmallEnumSet_empty kMaxValue) v = false.
Proof.
  unfold bit, SmallEnumSet_empty. destruct (replicate _ _ !! _) eqn:E; simpl; [|apply Z.bits_0].
  apply lookup_replicate in E as [-> _]. apply Z.bits_0.
Qed.

Lemma SmallEnumSet_of_spec es :
  Forall (λ e, 0 ≤ e ≤ kMaxValue) es →
  ∃ st, SmallEnumSet_of kMaxValue es = Some st ∧ wf kMaxValue st ∧
    ∀ v, v ∈ members kMaxValue st ↔ v ∈ es.
Proof.
  assert (Hmem : ∀ st v, v ∈ members kMaxValue st ↔ 0 ≤ v ≤ kMaxValue ∧ bit st v = true).
  { intros st v. unfold members. rewrite list_elem_of_filter, elem_of_seqZ. split; intros [??]; split; (done || lia). }
  induction 1 as [|e es He Hes (st & E & Hwf & Hst)].
  { eexists. split; [done|]. split; [apply empty_wf|]. intros v. rewrite Hmem, empty_bit.
    rewrite elem_of_nil. naive_solver. }
  destruct (Add_eq kMaxValue st e Hwf He) as (st' & HA & WA & BA). exists st'.
  cbn [SmallEnumSet_of]. rewrite E. cbn [mbind option_bind]. unfold With. rewrite HA. split; [done|]. split; [done|].
  intros v. rewrite Hmem, elem_of_cons, <- Hst, Hmem. split.
  - intros [Hv Hb]. rewrite BA in Hb by lia. apply orb_true_iff in Hb as [Ev|]; [left; blia|tauto].
  - intros [->|[Hv Hb]]; (split; [done|]); rewrite BA by lia; [by rewrite Z.eqb_refl|].
    rewrite Hb. apply orb_true_r.
Qed.

Lemma empty_loop_spec (st : StateT) i n :
  0 ≤ i → empty_loop st i n = true ↔
  ∀ j, i ≤ j < i + Z.of_nat n → default 0 (st !! Z.to_nat j) = 0.
Proof.
  revert i. induction n as [|n IH]; intros i Hi; cbn [empty_loop].
  { split; [intros; lia|done]. }
  destruct (default 0 (st !! Z.to_nat i) =? 0) eqn:E; simpl.
  - rewrite IH by lia. split; intros Hall j Hj; [|apply Hall; lia].
    destruct (decide (j = i)) as [->|]; [by apply Z.eqb_eq|]. apply Hall. lia.
  - split; [done|]. intros Hall. apply Z.eqb_neq in E. exfalso. apply E, Hall. lia.
Qed.

Lemma is_empty_spec (st : StateT) :
  wf kMaxValue st → is_empty kMaxValue st = true ↔ members kMaxValue st = [].
Proof.
  intros Hwf. pose proof (piece_count_pos _ Hmax). pose proof (max_lt_bits kMaxValue).
  unfold is_empty. rewrite empty_loop_spec, Z2Nat.id by lia. split.
  - intros Hz. apply filter_none. intros v Hv%elem_of_seqZ. unfold bit. rewrite Hz.
    { by rewrite Z.bits_0. }
    split; [apply Z.div_pos; lia|apply Z.div_lt_upper_bound; lia].
  - intros Hm j Hj. apply Z.bits_inj'. intros i Hi. rewrite Z.bits_0.
    pose proof (piece_width kMaxValue st (Z.to_nat j) Hwf).
    destruct (Z.lt_ge_cases i 64); [|by apply testbit_high].
    rewrite <- bit_piece by lia. destruct (Z.le_gt_cases (64 * j + i) kMaxValue).
    + destruct (bit st (64 * j + i)) eqn:E; [|done].
      exfalso. eapply filter_nil_not_elem_of; [exact Hm|exact E|]. apply elem_of_seqZ. lia.
    + apply (wf_high _ _ Hwf). lia.
Qed.

(** Two states with the same members are the same array. *)
Lemma wf_ext (a b : StateT) :
  wf kMaxValue a → wf kMaxValue b →
  (∀ v, 0 ≤ v ≤ kMaxValue → bit a v = bit b v) → a = b.
Proof.
  intros Ha Hb Hab. pose proof (max_lt_bits kMaxValue).
  apply list_eq_same_length with (n := length a); [rewrite (wf_length _ _ Ha); apply (wf_length _ _ Hb)|done|].
  intros j x y Hj Hx Hy. apply Z.bits_inj'. intros i Hi.
  assert (in_width 64 x) by (eapply Forall_lookup_1; [apply (wf_pieces _ _ Ha)|done]).
  assert (in_width 64 y) by (eapply Forall_lookup_1; [apply (wf_pieces _ _ Hb)|done]).
  destruct (Z.lt_ge_cases i 64); [|by rewrite !testbit_high].
  assert (Hx' : bit a (64 * Z.of_nat j + i) = Z.testbit x i) by (rewrite bit_piece, Nat2Z.id, Hx by lia; done).
  assert (Hy' : bit b (64 * Z.of_nat j + i) = Z.testbit y i) by (rewrite bit_piece, Nat2Z.id, Hy by lia; done).
  rewrite <- Hx', <- Hy'. rewrite (wf_length _ _ Ha) in Hj.
  destruct (Z.le_gt_cases (64 * Z.of_nat j + i) kMaxValue); [apply Hab; lia|].
  rewrite (wf_high _ _ Ha), (wf_high _ _ Hb) by lia. done.
Qed.

End Whole.

(** ** Properties *)

(** An implementation of the bit-counting functions, for the witnesses. *)
Definition ctz (x : Z) : Z :=
  default 0 (list_find (λ i, Z.testbit x i = true) (seqZ 0 64) ≫= λ p, Some (snd p)).

Definition concrete_detail : EnumSetDetail := {|
  CountTrailingZeroBitsForSmallEnumSet := ctz;
  BitsSetToOneForSmallEnumSet x := popcount x 64;
|}.

#[export] Instance concrete_detail_ok : EnumSetDetailOk concrete_detail.
Proof.
  split; [|done]. intros x Hx k. subst k. simpl. unfold ctz.
  destruct (list_find _ _) as [[i v]|] eqn:E; simpl.
  - apply list_find_Some in E as (Hl & Hb & Hlow). apply lookup_seqZ in Hl as [-> Hi].
    split; [lia|]. split; [done|]. intros j Hj.
    destruct (Z.testbit x j) eqn:Ej; [|done].
    exfalso. apply (Hlow (Z.to_nat j) j); [apply lookup_seqZ; lia|lia|done].
  - apply list_find_None in E. exfalso.
    assert (x = 0) as ->; [|lia]. apply Z.bits_inj'. intros i Hi. rewrite Z.bits_0.
    destruct (Z.lt_ge_cases i 64); [|apply testbit_high; [split; lia|lia]].
    rewrite Forall_forall in E. specialize (E i). rewrite elem_of_seqZ in E.
    destruct (Z.testbit x i); [|done]. exfalso. apply E; [lia|done].
Qed.

(** [Add], [Remove] and [Contains] implement a finite set: they never fail
    on a valid enumerator, they keep the invariant of the representation,
    membership afterwards is membership before plus, or minus, that enumerator,
    and the returned flag is true exactly when the set changed. *)
Theorem add_remove_refine (kMaxValue : Z) (st : StateT) (e : Z) :
  valid_max kMaxValue → wf kMaxValue st → 0 ≤ e ≤ kMaxValue →
  ∃ added removed c,
    Contains kMaxValue st e = Some c ∧
    Add kMaxValue st e = Some (added, negb c) ∧ wf kMaxValue added ∧
    Remove kMaxValue st e = Some (removed, c) ∧ wf kMaxValue removed ∧
    (∀ x, 0 ≤ x ≤ kMaxValue →
       Contains kMaxValue added x = Some (bool_decide (x = e) || bit st x) ∧
       Contains kMaxValue removed x = Some (negb (bool_decide (x = e)) && bit st x) ∧
       Contains kMaxValue st x = Some (bit st x)) ∧
    (c = true → added = st) ∧ (c = false → removed = st).
Proof.
  intros Hmax Hwf He.
  destruct (Add_eq kMaxValue st e Hwf He) as (added & HA & WA & BA).
  destruct (Remove_eq kMaxValue st e Hwf He) as (removed & HR & WR & BR).
  exists added, removed, (bit st e).
  assert (Heqb : ∀ x, (e =? x) = bool_decide (x = e)).
  { intros x. destruct (e =? x) eqn:E; symmetry; [apply bool_decide_eq_true_2|apply bool_decide_eq_false_2]; blia. }
  split_and!; try done.
  - by apply Contains_eq.
  - intros x Hx. rewrite !Contains_eq by done. rewrite BA, BR, !Heqb by lia. done.
  - intros Hc. apply (wf_ext kMaxValue); [done..|]. intros v Hv. rewrite BA by lia.
    destruct (e =? v) eqn:E; [|done]. apply Z.eqb_eq in E. by subst.
  - intros Hc. apply (wf_ext kMaxValue); [done..|]. intros v Hv. rewrite BR by lia.
    destruct (e =? v) eqn:E; [|done]. apply Z.eqb_eq in E. by subst.
Qed.

Lemma add_remove_refine_witness :
  ∃ added, Add 70 (SmallEnumSet_empty 70) 65 = Some (added, true) ∧ wf 70 added.
Proof.
  destruct (add_remove_refine 70 (SmallEnumSet_empty 70) 65) as (a & r & c & H1 & H2 & H3 & _).
  - split; lia.
  - apply empty_wf; lia.
  - lia.
  - exists a. split; [|exact H3]. rewrite H2. vm_compute in H1. injection H1 as <-. reflexivity.
Defined.

(** Iterating over a set terminates and visits exactly its members, each
    once and in increasing order; [count] is their number, and [empty] says
    whether there are none. *)
Theorem iteration_enumerates `{D : EnumSetDetail, !EnumSetDetailOk D} (kMaxValue : Z) (st : StateT) :
  valid_max kMaxValue → wf kMaxValue st →
  iterate kMaxValue st = Some (members kMaxValue st) ∧
  count kMaxValue st = Z.of_nat (length (members kMaxValue st)) ∧
  (∀ v, v ∈ members kMaxValue st ↔ 0 ≤ v ≤ kMaxValue ∧ Contains kMaxValue st v = Some true) ∧
  StronglySorted Z.lt (members kMaxValue st) ∧
  (is_empty kMaxValue st = true ↔ members kMaxValue st = []).
Proof.
  intros Hmax Hwf. split_and!.
  - unfold iterate, set_begin. destruct Hmax as [H0 H1].
    destruct (SkipUnset_spec kMaxValue ltac:(done) st 0 Hwf ltac:(lia)) as (q & -> & Hq & Hb & Hf).
    cbn [mbind option_bind]. rewrite iterate_from_spec by (done || lia). f_equal.
    unfold members. rewrite <- (members_split kMaxValue st 0 q) by done. by rewrite Z.sub_0_r.
  - by apply count_spec.
  - intros v. unfold members. rewrite list_elem_of_filter, elem_of_seqZ. split.
    + intros [Hb Hv]. split; [lia|]. rewrite Contains_eq by (done || lia). by rewrite Hb.
    + intros [Hv Hc]. rewrite Contains_eq in Hc by done. injection Hc as ->. split; [done|lia].
  - apply StronglySorted_filter, StronglySorted_seqZ.
  - by apply is_empty_spec.
Qed.

Lemma iteration_enumerates_witness :
  iterate (D := concrete_detail) 70 (All 70 [7; 7]) = Some (members 70 (All 70 [7; 7])).
Proof.
  apply (iteration_enumerates (D := concrete_detail) 70).
  - split; lia.
  - apply All_spec; [split; lia|reflexivity].
Defined.

(** [All] contains every enumerator, whatever the uninitialised array it
    starts from held, the sets built from a list of enumerators with the
    variadic constructor contain exactly them, and [operator==] decides
    equality of the sets. *)
Theorem all_of_eq_spec (kMaxValue : Z) (tmp a b : StateT) (es : list Z) :
  valid_max kMaxValue → length tmp = Z.to_nat (kPieceCount kMaxValue) →
  wf kMaxValue a → wf kMaxValue b → Forall (λ e, 0 ≤ e ≤ kMaxValue) es →
  wf kMaxValue (All kMaxValue tmp) ∧
  members kMaxValue (All kMaxValue tmp) = seqZ 0 (kMaxValue + 1) ∧
  (∃ st, SmallEnumSet_of kMaxValue es = Some st ∧ wf kMaxValue st ∧
     ∀ v, v ∈ members kMaxValue st ↔ v ∈ es) ∧
  (set_eqb a b = true ↔ members kMaxValue a = members kMaxValue b).
Proof.
  intros Hmax Ht Ha Hb Hes. destruct (All_spec kMaxValue Hmax tmp Ht) as [WA BA].
  pose proof (max_lt_bits kMaxValue). split_and!.
  - done.
  - unfold members. apply filter_all. intros v Hv%elem_of_seqZ. rewrite BA by lia. apply Z.leb_le. lia.
  - by apply SmallEnumSet_of_spec.
  - unfold set_eqb. rewrite bool_decide_eq_true. split; [by intros ->|]. intros E.
    apply (wf_ext kMaxValue); [done..|]. intros v Hv. apply Bool.eq_iff_eq_true.
    assert (Hm : ∀ st, bit st v = true ↔ v ∈ members kMaxValue st).
    { intros st. unfold members. rewrite list_elem_of_filter, elem_of_seqZ. split; [|tauto]. split; [done|lia]. }
    by rewrite !Hm, E.
Qed.

Lemma all_of_eq_spec_witness :
  ∃ st, SmallEnumSet_of 70 [3; 65] = Some st ∧ wf 70 st ∧ ∀ v, v ∈ members 70 st ↔ v ∈ [3; 65].
Proof.
  apply (all_of_eq_spec 70 [1; 2] (SmallEnumSet_empty 70) (SmallEnumSet_empty 70) [3; 65]).
  - split; lia.
  - reflexivity.
  - apply empty_wf; lia.
  - apply empty_wf; lia.
  - repeat constructor; lia.
Defined.
