(* ===== verification/Interval.v ===== *)
(** * Intervals and sets of intervals (libs/rocksdb/data_structure.h)

    [Interval] is a range that starts at a key and ends before another one, or
    has no end.  [IntervalSet] keeps an ordered set of intervals and merges an
    inserted interval with the ones it meets.  Both the specialisation for
    slices (module [SliceSet], a vector ordered by a [Comparator], with the
    mode that refuses intersecting intervals) and the generic template (module
    [Generic], a [std::set] ordered by [std::less]) are translated, iterators
    as positions and loops over the rest of the container.

    The theorems read a container as the set of keys it covers. *)

From stdpp Require Import base list gmap strings sorting.
From Stdlib Require Import ZArith Lia.
From Stdlib.Strings Require Import Byte.
From S2P Require Import Prelude Slice.

Open Scope Z_scope.

(** [end_] is [None] for the variant [End::INF]. *)
Record Interval (K : Type) := mkInterval { start_ : K; end_ : option K }.
Arguments mkInterval {K} start_ end_.
Arguments start_ {K} i.
Arguments end_ {K} i.

Definition has_end {K} (i : Interval K) : bool :=
  match end_ i with Some _ => true | None => false end.

(** ** IntervalSet<Slice, Comparator> *)

Module SliceSet.
Section Ops.
Context {K : Type} (Compare : K → K → Z).

Definition lt (a b : K) : bool := Compare a b <? 0.

Definition interval_eqb (a b : Interval K) : bool :=
  if negb (Compare (start_ a) (start_ b) =? 0) then false
  else if negb (has_end a) && negb (has_end b) then true
  else if negb (Bool.eqb (has_end a) (has_end b)) then false
  else match end_ a, end_ b with
       | Some x, Some y => Compare x y =? 0
       | _, _ => false
       end.

Definition interval_lt (a b : Interval K) : bool := lt (start_ a) (start_ b).

(** The vector, and the mode [fail_on_intersect]. *)
Record IntervalSet := mkIntervalSet { intervals_ : list (Interval K); prop_ : bool }.

Definition IntervalSet_new (fail_on_intersect : bool) : IntervalSet :=
  mkIntervalSet [] fail_on_intersect.
Definition is_empty (s : IntervalSet) : bool :=
  match intervals_ s with [] => true | _ => false end.
Definition clear (s : IntervalSet) : IntervalSet := mkIntervalSet [] (prop_ s).
Definition set_size (s : IntervalSet) : Z := Z.of_nat (length (intervals_ s)).

(** The first position whose start is not before the start of the interval. *)
Fixpoint findPosition (l : list (Interval K)) (start : K) : nat :=
  match l with
  | [] => 0
  | x :: l' => if negb (lt (start_ x) start) then 0 else S (findPosition l' start)
  end.

(** [vector::insert(pos, x)]. *)
Definition insert_at (l : list (Interval K)) (pos : nat) (x : Interval K) : list (Interval K) :=
  take pos l ++ x :: drop pos l.

(** [vector::erase(first, last)]. *)
Definition erase (l : list (Interval K)) (first last : nat) : list (Interval K) :=
  take first l ++ drop last l.

(** The loop for an interval without end over the intervals from [it] on: the
    new start, or the early return of the mode [prop_]. *)
Fixpoint inf_loop (prop : bool) (rest : list (Interval K)) (new_start : K) : option K :=
  match rest with
  | [] => Some new_start
  | x :: rest' =>
      if lt (start_ x) new_start
      then if prop then None else inf_loop prop rest' (start_ x)
      else inf_loop prop rest' new_start
  end.

(** The state of the loop for an interval with an end. *)
Record LoopState := mkLoop {
  l_it : nat; l_start : K; l_end : K; l_inf : bool; l_erase_end : nat; l_rest : list (Interval K);
}.

(** [n] is the size of the vector, that is [intervals_.end()]. *)
Fixpoint finite_loop (n : nat) (rest : list (Interval K)) (it : nat) (new_start new_end : K)
    (erase_end : nat) : LoopState :=
  match rest with
  | [] => mkLoop it new_start new_end false erase_end []
  | x :: rest' =>
      if negb (lt new_end (start_ x)) then
        match end_ x with
        | Some e =>
            if lt e new_start then finite_loop n rest' (S it) new_start new_end (S it)
            else
              let new_start := if lt (start_ x) new_start then start_ x else new_start in
              let new_end := if lt new_end e then e else new_end in
              finite_loop n rest' (S it) new_start new_end (S it)
        | None =>
            let new_start := if lt (start_ x) new_start then start_ x else new_start in
            mkLoop it new_start new_end true n rest
        end
      else mkLoop it new_start new_end false erase_end rest
  end.

(** The new container and the result of [insert]. *)
Definition insertImpl (s : IntervalSet) (i : Interval K) : IntervalSet * bool :=
  let l := intervals_ s in
  let n := length l in
  if match end_ i with Some e => negb (lt (start_ i) e) | None => false end then (s, false) else
  let it := findPosition l (start_ i) in
  let overlap_prev :=
    match it with
    | O => false
    | S p => match l !! p with
             | Some prev => match end_ prev with Some e => negb (lt e (start_ i)) | None => true end
             | None => false
             end
    end in
  if overlap_prev && prop_ s then (s, false) else
  let it := if overlap_prev then Nat.pred it else it in
  match end_ i with
  | None =>
      match inf_loop (prop_ s) (drop it l) (start_ i) with
      | None => (s, false)
      | Some new_start =>
          if negb (it =? n)%nat && prop_ s then (s, false) else
          let l := if (it =? n)%nat then l else erase l it n in
          let new_interval := mkInterval new_start None in
          (mkIntervalSet (insert_at l (findPosition l new_start) new_interval) (prop_ s), true)
      end
  | Some e =>
      let st := finite_loop n (drop it l) it (start_ i) e it in
      let later_inf := existsb (λ x, negb (has_end x)) (l_rest st) in
      let inf_end := l_inf st || later_inf in
      let erase_end := if later_inf then n else l_erase_end st in
      let l := if (it =? erase_end)%nat then l else erase l it erase_end in
      let new_interval :=
        mkInterval (l_start st) (if inf_end then None else Some (l_end st)) in
      (mkIntervalSet (insert_at l (findPosition l (l_start st)) new_interval) (prop_ s), true)
  end.

Definition insert (s : IntervalSet) (start e : K) : IntervalSet * bool :=
  insertImpl s (mkInterval start (Some e)).
Definition insert_from (s : IntervalSet) (start : K) : IntervalSet * bool :=
  insertImpl s (mkInterval start None).

End Ops.
End SliceSet.

(** ** Interval<T, std::less<T>> and IntervalSet<T> *)

Module Generic.
Section Ops.
Context {K : Type} `{!EqDecision K} (less : K → K → bool).

(** [CompareVariant]: the order on end points the template passes on; the set
    only applies it to finite ones. *)
Definition CompareVariant (a b : option K) : bool :=
  match a, b with
  | Some x, Some y => less x y
  | None, None => false
  | Some _, None => false
  | None, Some _ => true
  end.

Definition comp (a b : K) : bool := CompareVariant (Some a) (Some b).

Definition interval_eqb (a b : Interval K) : bool :=
  if negb (bool_decide (start_ a = start_ b)) then false
  else if negb (has_end a) && negb (has_end b) then true
  else if negb (Bool.eqb (has_end a) (has_end b)) then false
  else match end_ a, end_ b with
       | Some x, Some y => bool_decide (x = y)
       | _, _ => false
       end.

Definition interval_pair_eqb (a : Interval K) (p : K * K) : bool :=
  bool_decide (start_ a = fst p) &&
  match end_ a with Some e => bool_decide (e = snd p) | None => false end.

Definition interval_lt (a b : Interval K) : bool := less (start_ a) (start_ b).

(** [std::set::insert]: no effect when an interval with an equivalent start is
    present. *)
Fixpoint set_insert (l : list (Interval K)) (x : Interval K) : list (Interval K) :=
  match l with
  | [] => [x]
  | y :: l' =>
      if interval_lt y x then y :: set_insert l' x
      else if interval_lt x y then x :: y :: l' else y :: l'
  end.

(** The positions where the loop of the insertion stops. *)
Fixpoint skip_before (l : list (Interval K)) (start : K) : nat :=
  match l with
  | [] => 0
  | x :: l' => if comp (start_ x) start then S (skip_before l' start) else 0
  end.

(** [intervals_.erase] of the collected iterators, by position from [pos]. *)
Fixpoint erase_positions (l : list (Interval K)) (pos : nat) (to_erase : list nat)
    : list (Interval K) :=
  match l with
  | [] => []
  | x :: l' =>
      if bool_decide (pos ∈ to_erase) then erase_positions l' (S pos) to_erase
      else x :: erase_positions l' (S pos) to_erase
  end.

(** The loop for an interval without end: the new start and what is erased. *)
Fixpoint inf_loop (rest : list (Interval K)) (it : nat) (new_start : K) (to_erase : list nat)
    : K * list nat :=
  match rest with
  | [] => (new_start, to_erase)
  | x :: rest' =>
      inf_loop rest' (S it) (if comp (start_ x) new_start then start_ x else new_start)
        (to_erase ++ [it])
  end.

Record LoopState := mkLoop {
  g_it : nat; g_start : K; g_end : K; g_inf : bool; g_erase : list nat;
  g_rest : list (Interval K);
}.

Fixpoint finite_loop (rest : list (Interval K)) (it : nat) (new_start new_end : K)
    (to_erase : list nat) : LoopState :=
  match rest with
  | [] => mkLoop it new_start new_end false to_erase []
  | x :: rest' =>
      if negb (comp new_end (start_ x)) then
        match end_ x with
        | Some e =>
            if comp e new_start then finite_loop rest' (S it) new_start new_end to_erase
            else
              let new_start := if comp (start_ x) new_start then start_ x else new_start in
              let new_end := if comp new_end e then e else new_end in
              finite_loop rest' (S it) new_start new_end (to_erase ++ [it])
        | None =>
            let new_start := if comp (start_ x) new_start then start_ x else new_start in
            mkLoop it new_start new_end true to_erase rest
        end
      else mkLoop it new_start new_end false to_erase rest
  end.

(** The loop over the intervals that are left, for the ones without end. *)
Fixpoint check_loop (rest : list (Interval K)) (it : nat) (inf : bool) (to_erase : list nat)
    : bool * list nat :=
  match rest with
  | [] => (inf, to_erase)
  | x :: rest' =>
      if negb (has_end x) then check_loop rest' (S it) true (to_erase ++ [it])
      else check_loop rest' (S it) inf to_erase
  end.

Definition insertImpl (l : list (Interval K)) (i : Interval K) : list (Interval K) :=
  if match end_ i with
     | Some e => negb (comp (start_ i) e) && negb (comp e (start_ i)) | None => false end
  then l else
  if existsb (λ x, negb (has_end x) && negb (comp (start_ i) (start_ x))) l then l else
  let it := skip_before l (start_ i) in
  let it :=
    match it with
    | O => O
    | S p => match l !! p with
             | Some prev => match end_ prev with
                            | Some e => if comp e (start_ i) then S p else p
                            | None => p
                            end
             | None => p
             end
    end in
  match end_ i with
  | None =>
      let '(new_start, to_erase) := inf_loop (drop it l) it (start_ i) [] in
      set_insert (erase_positions l 0 to_erase) (mkInterval new_start None)
  | Some e =>
      let st := finite_loop (drop it l) it (start_ i) e [] in
      let '(inf_end, to_erase) := check_loop (g_rest st) (g_it st) (g_inf st) (g_erase st) in
      let l := erase_positions l 0 to_erase in
      if inf_end then set_insert l (mkInterval (g_start st) None)
      else set_insert l (mkInterval (g_start st) (Some (g_end st)))
  end.

Definition insert (l : list (Interval K)) (start e : K) : list (Interval K) :=
  insertImpl l (mkInterval start (Some e)).
Definition insert_from (l : list (Interval K)) (start : K) : list (Interval K) :=
  insertImpl l (mkInterval start None).

End Ops.
End Generic.

(** ** What a list of intervals covers *)

(** A strict order whose incomparability is transitive: [std::less], and the
    order of a [Comparator]. *)
Class StrictWeak {K} (lt : K → K → bool) : Prop := {
  sw_irrefl a : lt a a = false;
  sw_trans a b c : lt a b = true → lt b c = true → lt a c = true;
  sw_neg_trans a b c : lt a b = false → lt b c = false → lt a c = false;
}.

Section Cover.
Context {K : Type} (lt : K → K → bool).

(** [x] is in [[start, end)]. *)
Definition covers (i : Interval K) (x : K) : Prop :=
  lt x (start_ i) = false ∧ match end_ i with Some e => lt x e = true | None => True end.

Definition covered (l : list (Interval K)) (x : K) : Prop := Exists (λ i, covers i x) l.

(** The interval is not empty. *)
Definition proper (i : Interval K) : Prop :=
  match end_ i with Some e => lt (start_ i) e = true | None => True end.

(** [a] ends before [b] starts. *)
Definition before (a b : Interval K) : Prop :=
  match end_ a with Some e => lt e (start_ b) = true | None => False end.

(** The invariant: no empty interval, in order, with a gap between neighbours. *)
Definition separated (l : list (Interval K)) : Prop :=
  Forall proper l ∧ StronglySorted before l.

(** The reference for an insertion: the intervals that end before the new one,
    the new one merged with the following ones it meets, and the others. *)
Fixpoint merge_into (s e : K) (l : list (Interval K)) : list (Interval K) :=
  match l with
  | [] => [mkInterval s (Some e)]
  | x :: l' =>
      if lt e (start_ x) then mkInterval s (Some e) :: l
      else let s := if lt (start_ x) s then start_ x else s in
           match end_ x with
           | Some ex => merge_into s (if lt e ex then ex else e) l'
           | None => [mkInterval s None]
           end
  end.

Fixpoint insert_ref (s e : K) (l : list (Interval K)) : list (Interval K) :=
  match l with
  | [] => [mkInterval s (Some e)]
  | x :: l' =>
      match end_ x with
      | Some ex => if lt ex s then x :: insert_ref s e l' else merge_into s e l
      | None => merge_into s e l
      end
  end.

(** Some interval without end starts beyond [e]. *)
Definition inf_beyond (e : K) (l : list (Interval K)) : bool :=
  existsb (λ x, negb (has_end x) && lt e (start_ x)) l.

End Cover.

(** ** Strict weak orders *)

Lemma sw_asym {K} (lt : K → K → bool) `{!StrictWeak lt} a b : lt a b = true → lt b a = false.
Proof.
  intros H. destruct (lt b a) eqn:E; [|done].
  rewrite <- (sw_irrefl a). symmetry. by eapply sw_trans.
Qed.

(** Decides (in)equalities that follow from the context in a strict weak
    order: saturates with negative transitivity and looks for a contradiction. *)
Ltac order_by lt :=
  repeat match goal with
  | |- _ ∧ _ => split
  | |- lt ?a ?b = _ => destruct (lt a b) eqn:?; try done; exfalso
  end;
  repeat match goal with
  | H : lt ?a ?b = true |- _ =>
      lazymatch goal with _ : lt b a = false |- _ => fail | _ => pose proof (sw_asym lt _ _ H) end
  | H1 : lt ?a ?b = false, H2 : lt ?b ?c = false |- _ =>
      lazymatch goal with
      | _ : lt a c = false |- _ => fail
      | _ => pose proof (sw_neg_trans _ _ _ H1 H2)
      end
  end;
  first
    [ match goal with
      | H1 : lt ?a ?b = true, H2 : lt ?a ?b = false |- _ => rewrite H1 in H2; discriminate
      | H : lt ?a ?a = true |- _ => rewrite sw_irrefl in H; discriminate
      | H1 : ?b = true, H2 : ?b = false |- _ => rewrite H1 in H2; discriminate
      end
    | done ].

(** ** Lemmas on the reference *)

Section Reference.
Context {K : Type} (lt : K → K → bool) `{!StrictWeak lt}.

Ltac ord := order_by lt.

(** The first position that does not end before [s]. *)
Fixpoint count_before (l : list (Interval K)) (s : K) : nat :=
  match l with
  | [] => 0
  | x :: l' =>
      match end_ x with
      | Some ex => if lt ex s then S (count_before l' s) else 0
      | None => 0
      end
  end.

(** No interval of the list ends before [s]. *)
Definition meets_from (s : K) (l : list (Interval K)) : Prop :=
  Forall (λ x, match end_ x with Some ex => lt ex s = false | None => True end) l.

Lemma separated_cons x l :
  separated lt (x :: l) ↔ proper lt x ∧ Forall (before lt x) l ∧ separated lt l.
Proof.
  unfold separated. rewrite Forall_cons. split.
  - intros [[Hx Hl] Hs]. apply StronglySorted_inv in Hs as [??]. auto.
  - intros (Hx & Hb & Hl & Hs). split; [done|]. by constructor.
Qed.

Lemma before_start_lt x y : proper lt x → before lt x y → lt (start_ x) (start_ y) = true.
Proof. unfold proper, before. destruct (end_ x); [|done]. intros. by eapply sw_trans. Qed.

Lemma meets_from_mono s s' l : lt s s' = false → meets_from s l → meets_from s' l.
Proof.
  unfold meets_from. intros Hs Hm. eapply Forall_impl; [exact Hm|]. intros x. cbn beta.
  destruct (end_ x); [|done]. intros. ord.
Qed.

(** What follows a merged interval starts after the merged end. *)
Lemma merge_into_before y s e l :
  match end_ y with Some ey => lt ey s = true | None => False end →
  lt s e = true → Forall (before lt y) l → Forall (before lt y) (merge_into lt s e l).
Proof.
  revert s e. induction l as [|x l IH]; intros s e Hy Hse Hl; simpl.
  { constructor; [done|constructor]. }
  apply Forall_cons in Hl as [Hx Hl]. destruct (lt e (start_ x)) eqn:E.
  { constructor; [done|]. by constructor. }
  unfold before in Hx. destruct (end_ y) as [ey|] eqn:Ey; [|done].
  assert (lt ey (if lt (start_ x) s then start_ x else s) = true) by (by destruct (lt (start_ x) s)).
  destruct (end_ x) as [ex|].
  - apply IH; [done| |done].
    destruct (lt (start_ x) s) eqn:?, (lt e ex) eqn:?; ord.
  - constructor; [|constructor]. unfold before. by rewrite Ey.
Qed.

Lemma merge_into_separated s e l :
  separated lt l → lt s e = true → meets_from s l → separated lt (merge_into lt s e l).
Proof.
  revert s e. induction l as [|x l IH]; intros s e Hl Hse Hm; simpl.
  { rewrite separated_cons. repeat split; (done || constructor). }
  apply separated_cons in Hl as (Hp & Hb & Hl). apply Forall_cons in Hm as [Hmx Hm].
  destruct (lt e (start_ x)) eqn:E.
  - rewrite !separated_cons. split_and!; try done. constructor; [done|].
    eapply Forall_impl; [exact Hb|]. intros y Hy. pose proof (before_start_lt _ _ Hp Hy).
    unfold before. simpl. by eapply sw_trans.
  - unfold proper in Hp. destruct (end_ x) as [ex|].
    + apply IH; [done|destruct (lt (start_ x) s) eqn:?, (lt e ex) eqn:?; ord|].
      eapply meets_from_mono; [|exact Hm]. destruct (lt (start_ x) s) eqn:?; ord.
    + rewrite separated_cons. repeat split; (done || constructor).
Qed.

Lemma merge_into_covered s e l k :
  separated lt l → lt s e = true → meets_from s l →
  covered lt (merge_into lt s e l) k ↔ covers lt (mkInterval s (Some e)) k ∨ covered lt l k.
Proof.
  revert s e. induction l as [|x l IH]; intros s e Hl Hse Hm; simpl.
  { unfold covered. by rewrite Exists_cons. }
  apply separated_cons in Hl as (Hp & Hb & Hl). apply Forall_cons in Hm as [Hmx Hm].
  destruct (lt e (start_ x)) eqn:E.
  { unfold covered. by rewrite !Exists_cons. }
  assert (Hmono : meets_from (if lt (start_ x) s then start_ x else s) l).
  { eapply meets_from_mono; [|exact Hm]. destruct (lt (start_ x) s) eqn:?; ord. }
  unfold covered at 2. rewrite Exists_cons. fold (covered lt l k).
  unfold proper in Hp. unfold covers in *. simpl. destruct (end_ x) as [ex|] eqn:Ex.
  - rewrite IH; [|done|destruct (lt (start_ x) s) eqn:?, (lt e ex) eqn:?; ord|done]. simpl.
    split.
    + intros [[H1 H2]|]; [|tauto].
      destruct (lt k e) eqn:?; destruct (lt k s) eqn:?;
      destruct (lt k ex) eqn:?; destruct (lt k (start_ x)) eqn:?; auto;
        destruct (lt (start_ x) s) eqn:?, (lt e ex) eqn:?; try (exfalso; ord).
    + intros [[H1 H2]|[[H1 H2]|]]; [left|left|tauto];
        destruct (lt (start_ x) s) eqn:?, (lt e ex) eqn:?; ord.
  - unfold covered. rewrite Exists_cons, Exists_nil. unfold covers. simpl.
    assert (l = []) as ->.
    { destruct l as [|y l]; [done|]. apply Forall_cons in Hb as [Hb _]. unfold before in Hb. by rewrite Ex in Hb. }
    rewrite Exists_nil. split.
    + intros [[H1 _]|[]].
      destruct (lt k e) eqn:?; destruct (lt k s) eqn:?; destruct (lt k (start_ x)) eqn:?; auto;
        destruct (lt (start_ x) s) eqn:?; try (exfalso; ord).
    + intros [[H1 H2]|[[H1 H2]|[]]]; left; (split; [|done]); destruct (lt (start_ x) s) eqn:?; ord.
Qed.

Lemma count_before_take l s :
  Forall (λ x, match end_ x with Some ex => lt ex s = true | None => False end)
    (take (count_before l s) l).
Proof.
  induction l as [|x l IH]; simpl; [constructor|]. destruct (end_ x) as [ex|] eqn:E; [|constructor].
  destruct (lt ex s) eqn:Es; [|constructor]. simpl. constructor; [by rewrite E|done].
Qed.

(** Beyond an interval that meets [s], no interval ends before [s]. *)
Lemma meets_from_after x l s :
  proper lt x → Forall (before lt x) l → separated lt l →
  match end_ x with Some ex => lt ex s = false | None => True end → meets_from s l.
Proof.
  intros Hp Hb [Hl _] Hx. unfold meets_from. rewrite Forall_forall in Hb, Hl |- *.
  intros y Hy. specialize (Hb y Hy). specialize (Hl y Hy). unfold before, proper in *.
  destruct (end_ x); [|done]. destruct (end_ y); [|done]. ord.
Qed.

Lemma count_before_meets l s : separated lt l → meets_from s (drop (count_before l s) l).
Proof.
  unfold meets_from. induction l as [|x l IH]; simpl; [constructor|].
  intros (Hp & Hb & Hl)%separated_cons.
  destruct (end_ x) as [ex|] eqn:E; [destruct (lt ex s) eqn:Es; [by apply IH|]|];
    (constructor; [by rewrite E|]; eapply (meets_from_after x); try done; by rewrite E).
Qed.

Lemma insert_ref_split s e l :
  insert_ref lt s e l =
    take (count_before l s) l ++ merge_into lt s e (drop (count_before l s) l).
Proof.
  induction l as [|x l IH]; [done|]. cbn [insert_ref count_before].
  destruct (end_ x) as [ex|]; [|done]. destruct (lt ex s); [|done].
  simpl. by rewrite IH.
Qed.

Lemma separated_app l1 l2 :
  separated lt (l1 ++ l2) ↔
  separated lt l1 ∧ separated lt l2 ∧ Forall (λ x, Forall (before lt x) l2) l1.
Proof.
  induction l1 as [|x l1 IH]; simpl.
  { split; [|tauto]. intros; split_and!; [split; constructor|done|constructor]. }
  rewrite !separated_cons, IH, Forall_app, Forall_cons. tauto.
Qed.

Lemma separated_split k l :
  separated lt l →
  separated lt (take k l) ∧ separated lt (drop k l) ∧
  Forall (λ x, Forall (before lt x) (drop k l)) (take k l).
Proof. intros Hl. apply separated_app. by rewrite take_drop. Qed.

(** The reference keeps the invariant and covers exactly one interval more. *)
Lemma insert_ref_spec s e l :
  separated lt l → lt s e = true →
  separated lt (insert_ref lt s e l) ∧
  ∀ k, covered lt (insert_ref lt s e l) k ↔
       covers lt (mkInterval s (Some e)) k ∨ covered lt l k.
Proof.
  intros Hl Hse. rewrite insert_ref_split.
  pose proof (count_before_take l s) as Ht. pose proof (count_before_meets l s Hl) as Hm.
  set (n := count_before l s) in *. destruct (separated_split n l Hl) as (H1 & H2 & H3).
  split.
  - apply separated_app. split_and!; [done|by apply merge_into_separated|].
    rewrite Forall_forall in Ht, H3 |- *. intros y Hy.
    apply merge_into_before; [by apply Ht|done|by apply H3].
  - intros k. unfold covered. rewrite Exists_app. fold (covered lt (merge_into lt s e (drop n l)) k).
    rewrite merge_into_covered by done. rewrite <- (take_drop n l) at 3.
    rewrite Exists_app. unfold covered. tauto.
Qed.

(** The reference for an interval without end. *)
Definition insert_inf_ref (s : K) (l : list (Interval K)) : list (Interval K) :=
  take (count_before l s) l ++
  [mkInterval (match drop (count_before l s) l with
               | x :: _ => if lt (start_ x) s then start_ x else s
               | [] => s end) None].

Lemma insert_inf_ref_spec s l :
  separated lt l →
  separated lt (insert_inf_ref s l) ∧
  ∀ k, covered lt (insert_inf_ref s l) k ↔
       covers lt (mkInterval s None) k ∨ covered lt l k.
Proof.
  intros Hl. unfold insert_inf_ref. pose proof (count_before_take l s) as Ht.
  pose proof (count_before_meets l s Hl) as Hm.
  set (n := count_before l s) in *. destruct (separated_split n l Hl) as (H1 & H2 & H3). split.
  - apply separated_app. split_and!; [done|split; repeat constructor|].
    rewrite Forall_forall in Ht, H3 |- *. intros y Hy. constructor; [|constructor].
    specialize (Ht y Hy). specialize (H3 y Hy). unfold before. destruct (end_ y) as [ey|] eqn:Ey; [|done].
    simpl. destruct (drop n l) as [|x rest]; [done|]. apply Forall_cons in H3 as [H3 _].
    unfold before in H3. rewrite Ey in H3. by destruct (lt (start_ x) s).
  - intros k. unfold covered. rewrite Exists_app, Exists_cons, Exists_nil.
    rewrite <- (take_drop n l) at 3. rewrite Exists_app.
    enough (covers lt (mkInterval (match drop n l with
               | x :: _ => if lt (start_ x) s then start_ x else s | [] => s end) None) k ↔
      covers lt (mkInterval s None) k ∨ Exists (λ i, covers lt i k) (drop n l)) by tauto.
    unfold covers at 1 2. simpl. destruct (drop n l) as [|x rest] eqn:Ed.
    { rewrite Exists_nil. tauto. }
    apply separated_cons in H2 as (Hp & Hb & _). apply Forall_cons in Hm as [Hmx _].
    rewrite Exists_cons. split.
    + intros [Hk _]. destruct (lt k s) eqn:Eks; [|by left]. right. left. unfold covers.
      destruct (lt (start_ x) s) eqn:?; [|congruence]. split; [done|].
      destruct (end_ x) as [ex|]; [|done]. ord.
    + intros [[Hk _]|[[Hk _]|Hr]]; (split; [|done]).
      * destruct (lt (start_ x) s) eqn:?; [ord|done].
      * destruct (lt (start_ x) s) eqn:?; [done|ord].
      * apply Exists_exists in Hr as (y & Hy & Hk & _). rewrite Forall_forall in Hb.
        pose proof (before_start_lt _ _ Hp (Hb y Hy)). destruct (lt (start_ x) s) eqn:?; ord.
Qed.

End Reference.

(** ** The set of slices implements the reference *)

#[export] Instance comparator_strict_weak {K} (Compare : K → K → Z) `{!Comparator Compare} :
  StrictWeak (SliceSet.lt Compare).
Proof.
  unfold SliceSet.lt. split.
  - intros a. pose proof (Compare_antisym a a). lia.
  - intros a b c ?%Z.ltb_lt ?%Z.ltb_lt. apply Z.ltb_lt.
    assert (Compare a c ≤ 0) by (apply (Compare_trans a b c); lia).
    destruct (decide (Compare a c = 0)) as [E|]; [|lia].
    pose proof (Compare_eq_l a c b E). pose proof (Compare_antisym b c). lia.
  - intros a b c ?%Z.ltb_ge ?%Z.ltb_ge. apply Z.ltb_ge.
    pose proof (Compare_antisym a b). pose proof (Compare_antisym b c).
    pose proof (Compare_antisym a c).
    assert (Compare c a ≤ 0) by (apply (Compare_trans c b a); lia). lia.
Qed.

Section SliceCorrect.
Context {K : Type} (Compare : K → K → Z) `{!Comparator Compare}.

Abbreviation lt := (SliceSet.lt Compare).
Abbreviation findPosition := (SliceSet.findPosition Compare).
Ltac ord := order_by (SliceSet.lt Compare).

(** Whether the interval before the position [it] reaches [s]. *)
Definition overlaps_prev (l : list (Interval K)) (it : nat) (s : K) : bool :=
  match it with
  | O => false
  | S p => match l !! p with
           | Some prev => match end_ prev with Some e => negb (lt e s) | None => true end
           | None => false
           end
  end.

Lemma findPosition_length l s : (findPosition l s ≤ length l)%nat.
Proof. induction l as [|x l IH]; simpl; [lia|]. case_match; lia. Qed.

(** The position the algorithm starts merging from is the first one that does
    not end before the new start. *)
Lemma adjusted_position l s :
  separated lt l →
  let it := findPosition l s in
  (if overlaps_prev l it s then Nat.pred it else it) = count_before lt l s.
Proof.
  induction l as [|x l IH]; intros Hl; [done|]. apply separated_cons in Hl as (Hp & Hb & Hl).
  specialize (IH Hl). simpl. unfold proper in Hp. destruct (lt (start_ x) s) eqn:Es; simpl.
  2:{ destruct (end_ x) as [ex|]; [|done]. by replace (lt ex s) with false by (symmetry; ord). }
  destruct (findPosition l s) as [|p] eqn:Ep; simpl in *.
  { rewrite <- IH. by destruct (end_ x) as [ex|]; [destruct (lt ex s)|]. }
  destruct l as [|y l]; [done|]. simpl in Ep. destruct (lt (start_ y) s) eqn:Ey; [|done].
  apply Forall_cons in Hb as [Hxy _]. unfold before in Hxy. destruct (end_ x) as [ex|]; [|done].
  replace (lt ex s) with true by (symmetry; ord). rewrite <- IH.
  by destruct (match (y :: l) !! p with Some _ => _ | None => _ end).
Qed.

(** A position found after the intervals before [s] were kept. *)
Lemma findPosition_app l1 l2 s :
  Forall (λ x, lt (start_ x) s = true) l1 →
  findPosition (l1 ++ l2) s = (length l1 + findPosition l2 s)%nat.
Proof. induction 1 as [|x l1 Hx _ IH]; [done|]. simpl. by rewrite Hx, IH. Qed.

Lemma insert_at_app (l1 l2 : list (Interval K)) x :
  SliceSet.insert_at (l1 ++ l2) (length l1) x = l1 ++ x :: l2.
Proof. unfold SliceSet.insert_at. by rewrite take_app_length, drop_app_length. Qed.

(** The smaller of [s] and the first start. *)
Definition min_start (s : K) (l : list (Interval K)) : K :=
  match l with x :: _ => if lt (start_ x) s then start_ x else s | [] => s end.

Lemma min_start_tail x l s :
  proper lt x → Forall (before lt x) l → min_start (min_start s (x :: l)) l = min_start s (x :: l).
Proof.
  intros Hp Hb. destruct l as [|y l]; [done|]. apply Forall_cons in Hb as [Hb _].
  pose proof (before_start_lt lt _ _ Hp Hb). unfold min_start.
  destruct (lt (start_ x) s) eqn:?; [|destruct (lt (start_ y) s) eqn:?; [exfalso; ord|done]].
  by replace (lt (start_ y) (start_ x)) with false by (symmetry; ord).
Qed.

(** What the merging loop leaves: the smaller start, [m] intervals consumed,
    and the merged list of the reference. *)
Lemma finite_loop_spec n l it s e ee :
  separated lt l → lt s e = true → meets_from lt s l →
  let st := SliceSet.finite_loop Compare n l it s e ee in
  SliceSet.l_start st = min_start s l ∧
  (if SliceSet.l_inf st
   then merge_into lt s e l = [mkInterval (SliceSet.l_start st) None] ∧
        SliceSet.l_erase_end st = n ∧
        existsb (λ x, negb (has_end x)) (SliceSet.l_rest st) = true
   else merge_into lt s e l =
          mkInterval (SliceSet.l_start st) (Some (SliceSet.l_end st)) :: SliceSet.l_rest st ∧
        ∃ m, (m ≤ length l)%nat ∧ SliceSet.l_rest st = drop m l ∧
             SliceSet.l_erase_end st = (match m with O => ee | _ => it + m end)%nat ∧
             Forall (λ x, lt e (start_ x) = true) (drop m l)).
Proof.
  revert it s e ee. induction l as [|x l IH]; intros it s e ee Hl Hse Hm; simpl.
  { split_and!; [done..|]. exists 0%nat. split_and!; done. }
  apply separated_cons in Hl as (Hp & Hb & Hl). apply Forall_cons in Hm as [Hmx Hm].
  destruct (lt e (start_ x)) eqn:Ex; simpl.
  { split_and!; [by replace (lt (start_ x) s) with false by (symmetry; ord)|done|].
    exists 0%nat. split_and!; try done; [simpl; lia|]. simpl. constructor; [done|]. eapply Forall_impl; [exact Hb|]. intros y Hy.
    pose proof (before_start_lt lt _ _ Hp Hy). by eapply sw_trans. }
  set (s' := if lt (start_ x) s then start_ x else s).
  assert (lt s s' = false) as Hs' by (unfold s'; destruct (lt (start_ x) s) eqn:?; [ord|apply sw_irrefl]).
  pose proof (min_start_tail x l s Hp Hb) as Hmin. simpl in Hmin. fold s' in Hmin.
  unfold proper in Hp. destruct (end_ x) as [ex|] eqn:Eex; simpl.
  2:{ split_and!; try done. unfold has_end. by rewrite Eex. }
  rewrite Hmx. set (e' := if lt e ex then ex else e).
  assert (lt e' e = false) as He'
    by (unfold e'; destruct (lt e ex) eqn:?; [ord|apply sw_irrefl]).
  assert (lt s' e' = true) as Hse'.
  { unfold s', e'. destruct (lt (start_ x) s) eqn:?, (lt e ex) eqn:?; ord. }
  specialize (IH (S it) s' e' (S it) Hl Hse' (meets_from_mono lt s s' l Hs' Hm)).
  destruct IH as (I1 & I3). split; [by rewrite I1|].
  case_match; [done|]. destruct I3 as (? & m & ? & ? & Hee & Hf). split; [done|].
  exists (S m). split_and!; [simpl; lia|done|rewrite Hee; destruct m; lia|].
  eapply Forall_impl; [exact Hf|]. simpl. intros y Hy. ord.
Qed.

(** The intervals kept in front all start before the new start. *)
Lemma kept_before l s :
  separated lt l → let k := count_before lt l s in
  Forall (λ x, lt (start_ x) (min_start s (drop k l)) = true) (take k l).
Proof.
  intros Hl k. pose proof (count_before_take lt l s) as Ht. fold k in Ht.
  destruct (separated_split lt k l Hl) as ([H1 _] & _ & H3).
  rewrite Forall_forall in Ht, H1, H3 |- *. intros x Hx.
  specialize (Ht x Hx). specialize (H1 x Hx). specialize (H3 x Hx).
  unfold proper in H1. destruct (end_ x) as [ex|] eqn:Ex; [|done]. unfold min_start.
  destruct (drop k l) as [|y rest]; [by eapply sw_trans|]. apply Forall_cons in H3 as [H3 _].
  unfold before in H3. rewrite Ex in H3. by destruct (lt (start_ y) s); eapply sw_trans.
Qed.

(** Inserting the merged interval in front of the intervals after it. *)
Lemma insert_at_kept l s rest x :
  separated lt l → let k := count_before lt l s in let s' := min_start s (drop k l) in
  Forall (λ y, lt s' (start_ y) = true) rest →
  SliceSet.insert_at (take k l ++ rest) (findPosition (take k l ++ rest) s') x =
    take k l ++ x :: rest.
Proof.
  intros Hl k s' Hrest. rewrite findPosition_app by (by apply kept_before).
  replace (findPosition rest s') with 0%nat; [by rewrite Nat.add_0_r, insert_at_app|].
  destruct Hrest as [|y rest Hy _]; [done|]. simpl.
  by replace (lt (start_ y) s') with false by (symmetry; ord).
Qed.

Lemma erase_app (l : list (Interval K)) k k' :
  (if (k =? k')%nat then l else SliceSet.erase l k k') = take k l ++ drop k' l.
Proof. destruct (Nat.eqb_spec k k') as [->|]; [by rewrite take_drop|done]. Qed.

(** The loop of an unbounded interval takes the smallest start. *)
Lemma inf_loop_min l s :
  separated lt l → SliceSet.inf_loop Compare false l s = Some (min_start s l).
Proof.
  revert s. induction l as [|x l IH]; intros s Hl; [done|].
  apply separated_cons in Hl as (Hp & Hb & Hl). pose proof (min_start_tail x l s Hp Hb) as Hm.
  simpl in *. by destruct (lt (start_ x) s); rewrite IH, Hm by done.
Qed.

Lemma insertImpl_inf l s :
  separated lt l →
  SliceSet.insert_from Compare (SliceSet.mkIntervalSet l false) s =
    (SliceSet.mkIntervalSet (insert_inf_ref lt s l) false, true).
Proof.
  intros Hl. unfold SliceSet.insert_from, SliceSet.insertImpl. simpl.
  fold (overlaps_prev l (findPosition l s) s). rewrite andb_false_r, adjusted_position by done.
  destruct (separated_split lt (count_before lt l s) l Hl) as (_ & H2 & _).
  rewrite inf_loop_min, andb_false_r, erase_app by done.
  rewrite (drop_ge l (length l)) by lia. by rewrite insert_at_kept by done.
Qed.

Lemma existsb_filter_beyond s l :
  Forall (λ x, lt s (start_ x) = true) l → inf_beyond lt s l = existsb (λ x, negb (has_end x)) l.
Proof.
  unfold inf_beyond. induction 1 as [|x l Hx _ IH]; [done|]. simpl. by rewrite Hx, andb_true_r, IH.
Qed.

Lemma inf_beyond_take l s : inf_beyond lt s (take (count_before lt l s) l) = false.
Proof.
  unfold inf_beyond. induction (count_before_take lt l s) as [|x l' Hx _ IH]; [done|].
  simpl. rewrite IH. unfold has_end. by destruct (end_ x).
Qed.

Lemma insertImpl_finite l s e :
  separated lt l → lt s e = true →
  SliceSet.insert Compare (SliceSet.mkIntervalSet l false) s e =
    (SliceSet.mkIntervalSet
       (if inf_beyond lt s (insert_ref lt s e l) then insert_inf_ref lt s l
        else insert_ref lt s e l) false, true).
Proof.
  intros Hl Hse. unfold SliceSet.insert, SliceSet.insertImpl. simpl. rewrite Hse. simpl.
  fold (overlaps_prev l (findPosition l s) s). rewrite andb_false_r, adjusted_position by done.
  set (k := count_before lt l s). destruct (separated_split lt k l Hl) as (_ & H2 & _).
  pose proof (λ rest x, insert_at_kept l s rest x Hl) as Hins. cbn zeta in Hins. fold k in Hins.
  destruct (finite_loop_spec (length l) (drop k l) k s e k H2 Hse (count_before_meets lt l s Hl))
    as (Hs & Hst).
  set (st := SliceSet.finite_loop _ _ _ _ _ _ _) in *. clearbody st.
  rewrite insert_ref_split. fold k. unfold inf_beyond at 1. rewrite existsb_app.
  rewrite (inf_beyond_take l s : existsb _ (take k l) = false). rewrite orb_false_l.
  assert (lt s (min_start s (drop k l)) = false) as Hmin.
  { unfold min_start. destruct (drop k l) as [|x ?]; [apply sw_irrefl|].
    destruct (lt (start_ x) s) eqn:?; [ord|apply sw_irrefl]. }
  rewrite !erase_app, Hs. destruct (SliceSet.l_inf st).
  - destruct Hst as (-> & Hee & ->). simpl. rewrite Hs, Hmin, drop_ge by lia.
    by rewrite Hins by done.
  - destruct Hst as (-> & m & Hm & Hr & Hee & Hf). rewrite Hr. simpl.
    assert (Forall (λ x, lt s (start_ x) = true) (drop m (drop k l))) as Hf'
      by (eapply Forall_impl; [exact Hf|]; intros; by eapply sw_trans).
    fold (inf_beyond lt s (drop m (drop k l))). rewrite existsb_filter_beyond by done.
    destruct (existsb _ _).
    + rewrite drop_ge by lia. by rewrite Hins by done.
    + replace (SliceSet.l_erase_end st) with (k + m)%nat by (rewrite Hee; destruct m; lia).
      rewrite <- drop_drop, Hins by
        (try done; eapply Forall_impl; [exact Hf'|]; intros; simpl in *; ord). by rewrite Hs.
Qed.

End SliceCorrect.

(** ** The generic set implements the reference on bounded intervals *)

Section GenericCorrect.
Context {K : Type} `{!EqDecision K} (less : K → K → bool) `{!StrictWeak less}.

Abbreviation bounded := (Forall (λ x : Interval K, has_end x = true)).
Ltac ord := order_by less.

Lemma comp_less a b : Generic.comp less a b = less a b.
Proof. done. Qed.

Lemma no_unbounded l f : bounded l → existsb (λ x, negb (has_end x) && f x) l = false.
Proof. induction 1 as [|x l Hx _ IH]; [done|]. simpl. by rewrite Hx, IH. Qed.

Lemma skip_before_length l s : (Generic.skip_before less l s ≤ length l)%nat.
Proof. induction l as [|a l IH]; simpl; [lia|]. case_match; lia. Qed.

(** The position after the intervals that start before [s], moved back over one
    that reaches [s]. *)
Lemma generic_position l s :
  separated less l → bounded l →
  match Generic.skip_before less l s with
  | O => O
  | S p => match l !! p with
           | Some prev => match end_ prev with
                          | Some e => if Generic.comp less e s then S p else p
                          | None => p
                          end
           | None => p
           end
  end = count_before less l s.
Proof.
  unfold Generic.comp, Generic.CompareVariant.
  induction l as [|x l IH]; intros Hl Hf; [done|]. apply separated_cons in Hl as (Hp & Hb & Hl).
  apply Forall_cons in Hf as [Hx Hf]. specialize (IH Hl Hf). unfold proper in Hp.
  unfold has_end in Hx. simpl. unfold Generic.comp, Generic.CompareVariant.
  destruct (end_ x) as [ex|] eqn:Ex; [|done].
  destruct (less (start_ x) s) eqn:Es.
  2:{ by replace (less ex s) with false by (symmetry; ord). }
  destruct (Generic.skip_before less l s) as [|p] eqn:Ep; simpl in *.
  { rewrite <- IH, Ex. by destruct (less ex s). }
  destruct l as [|y l]; [done|]. simpl in Ep. unfold Generic.comp, Generic.CompareVariant in Ep.
  destruct (less (start_ y) s) eqn:Ey; [|done].
  apply Forall_cons in Hb as [Hxy _]. unfold before in Hxy. rewrite Ex in Hxy.
  replace (less ex s) with true by (symmetry; ord). rewrite <- IH.
  destruct ((y :: l) !! p) as [z|] eqn:Ez; [|].
  - destruct (end_ z) as [ez|] eqn:Eez; [by destruct (less ez s)|].
    apply list_elem_of_lookup_2 in Ez. rewrite Forall_forall in Hf. specialize (Hf z Ez).
    unfold has_end in Hf. by rewrite Eez in Hf.
  - apply lookup_ge_None in Ez. pose proof (skip_before_length l s). simpl in *. lia.
Qed.

(** The loop erases the [m] intervals it merges, which follow each other. *)
Lemma generic_loop_spec l it s e er :
  separated less l → bounded l → less s e = true → meets_from less s l →
  let st := Generic.finite_loop less l it s e er in
  Generic.g_inf st = false ∧
  merge_into less s e l =
    mkInterval (Generic.g_start st) (Some (Generic.g_end st)) :: Generic.g_rest st ∧
  ∃ m, (m ≤ length l)%nat ∧ Generic.g_rest st = drop m l ∧
       Generic.g_erase st = er ++ seq it m.
Proof.
  revert it s e er. induction l as [|x l IH]; intros it s e er Hl Hf Hse Hm; simpl.
  { split_and!; [done..|]. exists 0%nat. simpl. by rewrite app_nil_r. }
  apply separated_cons in Hl as (Hp & Hb & Hl). apply Forall_cons in Hm as [Hmx Hm].
  apply Forall_cons in Hf as [Hx Hf]. unfold has_end in Hx. unfold proper in Hp.
  rewrite !comp_less. destruct (less e (start_ x)) eqn:Ex; simpl.
  { split_and!; [done..|]. exists 0%nat. simpl. rewrite app_nil_r. split_and!; [lia|done..]. }
  destruct (end_ x) as [ex|]; [|done]. rewrite !comp_less, Hmx.
  set (s' := if less (start_ x) s then start_ x else s). set (e' := if less e ex then ex else e).
  assert (less s' e' = true) as Hse'.
  { unfold s', e'. destruct (less (start_ x) s) eqn:?, (less e ex) eqn:?; ord. }
  assert (less s s' = false) as Hs' by (unfold s'; destruct (less (start_ x) s) eqn:?; [ord|apply sw_irrefl]).
  destruct (IH (S it) s' e' (er ++ [it]) Hl Hf Hse' (meets_from_mono less s s' l Hs' Hm))
    as (? & ? & m & ? & ? & Her).
  split_and!; [done..|]. exists (S m). split_and!; [lia|done|].
  etransitivity; [exact Her|]. by rewrite <- app_assoc.
Qed.

Lemma erase_positions_none (l : list (Interval K)) pos te :
  Forall (λ i, (i < pos)%nat) te → Generic.erase_positions l pos te = l.
Proof.
  revert pos. induction l as [|x l IH]; intros pos Hte; [done|]. simpl.
  rewrite bool_decide_false.
  - f_equal. apply IH. eapply Forall_impl; [exact Hte|]. simpl. lia.
  - intros Hin. rewrite Forall_forall in Hte. specialize (Hte pos Hin). simpl in Hte. lia.
Qed.

Lemma erase_positions_seq (l : list (Interval K)) pos a m :
  (pos ≤ a + m)%nat →
  Generic.erase_positions l pos (seq a m) = take (a - pos) l ++ drop (a + m - pos) l.
Proof.
  revert pos. induction l as [|x l IH]; intros pos Hpos; [by rewrite take_nil, drop_nil|].
  destruct (decide (pos = a + m)%nat) as [->|].
  { rewrite erase_positions_none.
    - by replace (a - (a + m))%nat with 0%nat by lia; rewrite Nat.sub_diag.
    - apply Forall_forall. intros i Hi%elem_of_seq. simpl. lia. }
  simpl. rewrite IH by lia. destruct (decide (pos < a)%nat).
  - rewrite bool_decide_false by (rewrite elem_of_seq; lia).
    replace (a - pos)%nat with (S (a - S pos)) by lia.
    by replace (a + m - pos)%nat with (S (a + m - S pos)) by lia.
  - rewrite bool_decide_true by (rewrite elem_of_seq; lia).
    replace (a - pos)%nat with 0%nat by lia. replace (a - S pos)%nat with 0%nat by lia.
    by replace (a + m - pos)%nat with (S (a + m - S pos)) by lia.
Qed.

Lemma check_loop_bounded l it er :
  bounded l → Generic.check_loop l it false er = (false, er).
Proof.
  intros Hl. revert it. induction Hl as [|x l Hx _ IH]; intros it; [done|].
  simpl. by rewrite Hx, IH.
Qed.

(** [std::set::insert] puts an interval separated from the others in its place. *)
Lemma set_insert_separated l1 x l2 :
  separated less (l1 ++ x :: l2) → Generic.set_insert less (l1 ++ l2) x = l1 ++ x :: l2.
Proof.
  unfold Generic.set_insert, Generic.interval_lt. fold (Generic.set_insert less).
  induction l1 as [|y l1 IH]; simpl; intros (Hp & Hb & Hl)%separated_cons.
  - destruct l2 as [|z l2]; [done|]. apply Forall_cons in Hb as [Hb _].
    pose proof (before_start_lt less _ _ Hp Hb) as Hxz. simpl. unfold Generic.interval_lt.
    rewrite Hxz. by replace (less (start_ z) (start_ x)) with false by (symmetry; ord).
  - apply Forall_app in Hb as [_ [Hyx _]%Forall_cons].
    unfold Generic.interval_lt. rewrite (before_start_lt less _ _ Hp Hyx). f_equal. by apply IH.
Qed.

Lemma bounded_drop n l : bounded l → bounded (drop n l).
Proof. apply Forall_drop. Qed.

Lemma generic_insert_ref l s e :
  separated less l → bounded l → less s e = true →
  Generic.insert less l s e = insert_ref less s e l.
Proof.
  intros Hl Hf Hse. unfold Generic.insert, Generic.insertImpl. cbn [start_ end_].
  rewrite no_unbounded by done. rewrite !comp_less, Hse. cbn [negb andb].
  rewrite generic_position by done. set (k := count_before less l s).
  destruct (separated_split less k l Hl) as (_ & H2 & _).
  destruct (generic_loop_spec (drop k l) k s e [] H2 (bounded_drop k l Hf) Hse
              (count_before_meets less l s Hl)) as (Hinf & Hmerge & m & _ & Hrest & Her).
  set (st := Generic.finite_loop _ _ _ _ _ _) in *. clearbody st.
  rewrite Hinf, check_loop_bounded by (rewrite Hrest; by apply bounded_drop, bounded_drop).
  rewrite Her, app_nil_l, erase_positions_seq by lia.
  rewrite Nat.sub_0_r, Nat.sub_0_r, <- drop_drop, <- Hrest.
  destruct (insert_ref_spec less s e l Hl Hse) as [Hsep _].
  rewrite insert_ref_split in *. fold k in Hsep |- *. rewrite Hmerge in *.
  by apply set_insert_separated.
Qed.

End GenericCorrect.

(** ** Properties *)

(** A comparator on integers, for the concrete cases. *)
Definition z_cmp (a b : Z) : Z := a - b.

#[export] Instance z_cmp_comparator : Comparator z_cmp.
Proof. unfold z_cmp. split; intros; lia. Qed.

#[export] Instance z_ltb_strict_weak : StrictWeak Z.ltb.
Proof. split; intros; lia. Qed.

Lemma separated_nil {K} (lt : K → K → bool) : separated lt [].
Proof. split; constructor. Qed.

Lemma separated_single {K} (lt : K → K → bool) x : proper lt x → separated lt [x].
Proof. intros. apply separated_cons. split_and!; [done|constructor|apply separated_nil]. Qed.

(** [IntervalSet<Slice>] without [fail_on_intersect]: inserting an empty
    interval is refused; inserting any other one keeps the invariant (ordered,
    non-empty, with gaps) and adds to the covered keys exactly the keys of the
    interval, except when the set keeps an unbounded interval that starts after
    the inserted one without meeting it, in which case every key from the
    inserted start on becomes covered. *)
Theorem slice_insert_cover {K} (Compare : K → K → Z) `{!Comparator Compare} l s :
  separated (SliceSet.lt Compare) l →
  (∀ e, SliceSet.lt Compare s e = false →
     SliceSet.insert Compare (SliceSet.mkIntervalSet l false) s e
       = (SliceSet.mkIntervalSet l false, false)) ∧
  (∀ e, SliceSet.lt Compare s e = true →
     let '(r, ok) := SliceSet.insert Compare (SliceSet.mkIntervalSet l false) s e in
     let r := SliceSet.intervals_ r in
     ok = true ∧ separated (SliceSet.lt Compare) r ∧
     ∀ k, covered (SliceSet.lt Compare) r k ↔
          covered (SliceSet.lt Compare) l k ∨
          (if inf_beyond (SliceSet.lt Compare) s (insert_ref (SliceSet.lt Compare) s e l)
           then SliceSet.lt Compare k s = false
           else covers (SliceSet.lt Compare) (mkInterval s (Some e)) k)) ∧
  (let '(r, ok) := SliceSet.insert_from Compare (SliceSet.mkIntervalSet l false) s in
   let r := SliceSet.intervals_ r in
   ok = true ∧ separated (SliceSet.lt Compare) r ∧
   ∀ k, covered (SliceSet.lt Compare) r k ↔
        covered (SliceSet.lt Compare) l k ∨ SliceSet.lt Compare k s = false).
Proof.
  intros Hl. split_and!.
  - intros e He. unfold SliceSet.insert, SliceSet.insertImpl. simpl. by rewrite He.
  - intros e He. rewrite insertImpl_finite by done. simpl.
    destruct (insert_ref_spec (SliceSet.lt Compare) s e l Hl He) as [H1 H2].
    destruct (insert_inf_ref_spec (SliceSet.lt Compare) s l Hl) as [H3 H4].
    case_match; (split_and!; [done..|]; intros k); [rewrite H4|rewrite H2]; unfold covers; simpl; tauto.
  - rewrite insertImpl_inf by done. simpl.
    destruct (insert_inf_ref_spec (SliceSet.lt Compare) s l Hl) as [H3 H4].
    split_and!; [done..|]. intros k. rewrite H4. unfold covers. simpl. tauto.
Qed.

Lemma slice_insert_cover_witness :
  let l := [mkInterval 1 (Some 3); mkInterval 5 (Some 7); mkInterval 9 (Some 12)] in
  separated (SliceSet.lt z_cmp) l ∧
  SliceSet.insert z_cmp (SliceSet.mkIntervalSet l false) 2 6 =
    (SliceSet.mkIntervalSet [mkInterval 1 (Some 7); mkInterval 9 (Some 12)] false, true) ∧
  SliceSet.insert z_cmp (SliceSet.mkIntervalSet l false) 6 6 =
    (SliceSet.mkIntervalSet l false, false).
Proof.
  intros l. assert (separated (SliceSet.lt z_cmp) l) as Hl by (split; repeat constructor).
  split_and!; [done|reflexivity|]. by apply (slice_insert_cover z_cmp l 6 Hl).
Defined.

(** Inserting every pair of a list, in order. *)
Definition insert_all {K} (Compare : K → K → Z) (ops : list (K * K)) (s : SliceSet.IntervalSet)
    : SliceSet.IntervalSet :=
  foldl (λ s '(a, b), fst (SliceSet.insert Compare s a b)) s ops.

Lemma bounded_insert_ref {K} (lt : K → K → bool) s e l :
  Forall (λ x, has_end x = true) l → Forall (λ x, has_end x = true) (insert_ref lt s e l).
Proof.
  assert (∀ l s e, Forall (λ x, has_end x = true) l →
            Forall (λ x, has_end x = true) (merge_into lt s e l)) as Hm.
  { clear. induction l as [|x l IH]; intros s e Hl; simpl; [by repeat constructor|].
    apply Forall_cons in Hl as [Hx Hl]. unfold has_end in Hx.
    destruct (lt e (start_ x)); [constructor; [done|by constructor]|].
    destruct (end_ x) eqn:E; [by apply IH|done]. }
  induction 1 as [|x l Hx Hl IH]; cbn [insert_ref]; [by repeat constructor|].
  destruct (end_ x) as [ex|]; [destruct (lt ex s)|]; [by constructor|apply Hm; by constructor..].
Qed.

Lemma inf_beyond_bounded {K} (lt : K → K → bool) s l :
  Forall (λ x, has_end x = true) l → inf_beyond lt s l = false.
Proof. unfold inf_beyond. induction 1 as [|x l Hx _ IH]; [done|]. simpl. by rewrite Hx, IH. Qed.

(** A set built by inserting bounded intervals, in any order and
    with any overlaps, covers a key exactly when one of the inserted intervals
    does, and the intervals it holds are ordered, disjoint and not empty. *)
Theorem slice_insert_all_union {K} (Compare : K → K → Z) `{!Comparator Compare}
    (ops : list (K * K)) :
  let r := SliceSet.intervals_ (insert_all Compare ops (SliceSet.IntervalSet_new false)) in
  separated (SliceSet.lt Compare) r ∧
  ∀ k, covered (SliceSet.lt Compare) r k ↔
       Exists (λ '(a, b), covers (SliceSet.lt Compare) (mkInterval a (Some b)) k) ops.
Proof.
  set (lt := SliceSet.lt Compare).
  enough (∀ l, separated lt l → Forall (λ x, has_end x = true) l →
    let r := SliceSet.intervals_ (insert_all Compare ops (SliceSet.mkIntervalSet l false)) in
    separated lt r ∧ ∀ k, covered lt r k ↔ covered lt l k ∨
       Exists (λ '(a, b), covers lt (mkInterval a (Some b)) k) ops) as H.
  { destruct (H [] (separated_nil lt) ltac:(constructor)) as [H1 H2]. split; [done|].
    intros k. rewrite H2. unfold covered. rewrite Exists_nil. tauto. }
  induction ops as [|[a b] ops IH]; intros l Hl Hf; simpl.
  { split; [done|]. intros k. rewrite Exists_nil. tauto. }
  destruct (lt a b) eqn:Hab.
  - rewrite (insertImpl_finite Compare l a b Hl Hab). simpl. fold lt.
    destruct (insert_ref_spec lt a b l Hl Hab) as [H1 H2].
    pose proof (bounded_insert_ref lt a b l Hf) as Hb. rewrite inf_beyond_bounded by done.
    destruct (IH _ H1 Hb) as [H3 H4]. split; [done|]. intros k.
    rewrite H4, H2, Exists_cons. tauto.
  - assert (¬ ∃ k, covers lt (mkInterval a (Some b)) k) as He.
    { intros (k & Hk & Hk'). simpl in *. order_by lt. }
    unfold SliceSet.insert, SliceSet.insertImpl. simpl. unfold lt in Hab. rewrite Hab. simpl.
    destruct (IH _ Hl Hf) as [H3 H4]. split; [done|]. intros k.
    rewrite H4, Exists_cons. naive_solver.
Qed.

Lemma slice_insert_all_union_witness :
  let r := SliceSet.intervals_
    (insert_all z_cmp [(5, 7); (1, 2); (6, 9); (20, 20); (2, 3)] (SliceSet.IntervalSet_new false)) in
  r = [mkInterval 1 (Some 3); mkInterval 5 (Some 9)] ∧ separated (SliceSet.lt z_cmp) r.
Proof.
  split; [reflexivity|].
  apply (slice_insert_all_union z_cmp [(5, 7); (1, 2); (6, 9); (20, 20); (2, 3)]).
Defined.

(** Contrary to the comment that an inserted interval merges with the
    ranges it intersects, a bounded interval inserted before an unbounded one
    that it does not meet fills the gap between the two: the result is the
    single unbounded interval from the inserted start. *)
Theorem slice_insert_fills_gap {K} (Compare : K → K → Z) `{!Comparator Compare} (s e t : K) :
  SliceSet.lt Compare s e = true → SliceSet.lt Compare e t = true →
  SliceSet.insert Compare (SliceSet.mkIntervalSet [mkInterval t None] false) s e
    = (SliceSet.mkIntervalSet [mkInterval s None] false, true).
Proof.
  intros Hse Het. rewrite (insertImpl_finite Compare) by (done || by apply separated_single).
  simpl. rewrite Het. simpl. assert (SliceSet.lt Compare s t = true) as Hst by (by eapply sw_trans).
  rewrite Hst. simpl. unfold insert_inf_ref. simpl.
  by replace (SliceSet.lt Compare t s) with false by (symmetry; order_by (SliceSet.lt Compare)).
Qed.

Lemma slice_insert_fills_gap_witness :
  ¬ covered (SliceSet.lt z_cmp) [mkInterval 1 (Some 2); mkInterval 10 None] 5 ∧
  covered (SliceSet.lt z_cmp) (SliceSet.intervals_
    (fst (SliceSet.insert z_cmp (SliceSet.mkIntervalSet [mkInterval 10 None] false) 1 2))) 5.
Proof.
  split.
  - unfold covered, covers. rewrite !Exists_cons, Exists_nil. vm_compute. naive_solver.
  - rewrite (slice_insert_fills_gap z_cmp 1 2 10) by reflexivity. by repeat constructor.
Defined.

(** In the mode [fail_on_intersect] an interval that intersects one
    starting before it is refused and the set is unchanged, but one that
    intersects an interval starting after it is merged and the insertion
    reports success, although the comment of the class says it fails. *)
Theorem fail_on_intersect_asymmetric {K} (Compare : K → K → Z) `{!Comparator Compare}
    (a b s e : K) :
  SliceSet.lt Compare a b = true → SliceSet.lt Compare s e = true →
  let S := SliceSet.mkIntervalSet [mkInterval a (Some b)] true in
  (SliceSet.lt Compare a s = true → SliceSet.lt Compare s b = true →
     SliceSet.insert Compare S s e = (S, false)) ∧
  (SliceSet.lt Compare s a = true → SliceSet.lt Compare a e = true →
     SliceSet.insert Compare S s e =
       (SliceSet.mkIntervalSet
          [mkInterval s (Some (if SliceSet.lt Compare e b then b else e))] true, true)).
Proof.
  intros Hab Hse S. unfold SliceSet.insert, SliceSet.insertImpl. simpl. rewrite Hse. simpl. split.
  - intros Has Hsb. rewrite Has. simpl.
    by replace (SliceSet.lt Compare b s) with false by (symmetry; order_by (SliceSet.lt Compare)).
  - intros Hsa Hae. assert (SliceSet.lt Compare a s = false) as Has by (order_by (SliceSet.lt Compare)).
    rewrite Has. simpl.
    replace (SliceSet.lt Compare e a) with false by (symmetry; order_by (SliceSet.lt Compare)).
    replace (SliceSet.lt Compare b s) with false by (symmetry; order_by (SliceSet.lt Compare)).
    simpl. by rewrite Has.
Qed.

Lemma fail_on_intersect_asymmetric_witness :
  SliceSet.insert z_cmp (SliceSet.mkIntervalSet [mkInterval 5 (Some 8)] true) 6 7
    = (SliceSet.mkIntervalSet [mkInterval 5 (Some 8)] true, false) ∧
  SliceSet.insert z_cmp (SliceSet.mkIntervalSet [mkInterval 5 (Some 8)] true) 3 6
    = (SliceSet.mkIntervalSet [mkInterval 3 (Some 8)] true, true).
Proof.
  split.
  - by apply (fail_on_intersect_asymmetric z_cmp 5 8 6 7).
  - by apply (fail_on_intersect_asymmetric z_cmp 5 8 3 6).
Defined.

(** [C38] The generic set and the set of slices agree: on a well-formed
    set of bounded intervals, inserting a non-empty interval gives the reference
    insertion, which keeps the invariant and adds exactly the interval's keys. *)
Theorem generic_insert_cover {K} `{!EqDecision K} (less : K → K → bool) `{!StrictWeak less} l s e :
  separated less l → Forall (λ x, has_end x = true) l → less s e = true →
  Generic.insert less l s e = insert_ref less s e l ∧
  separated less (Generic.insert less l s e) ∧
  ∀ k, covered less (Generic.insert less l s e) k ↔
       covers less (mkInterval s (Some e)) k ∨ covered less l k.
Proof.
  intros Hl Hf Hse. rewrite generic_insert_ref by done.
  split; [done|]. by apply insert_ref_spec.
Qed.

Lemma generic_insert_cover_witness :
  Generic.insert Z.ltb [mkInterval 1 (Some 3); mkInterval 5 (Some 7)] 3 5
    = [mkInterval 1 (Some 7)].
Proof.
  etransitivity.
  - apply (generic_insert_cover Z.ltb); [split; repeat constructor|repeat constructor|reflexivity].
  - reflexivity.
Defined.

(** With an unbounded interval in the set, the generic insertion of
    a bounded interval before it breaks the invariant of the class ("unique and
    disjoint"): the intervals between the two are kept inside the unbounded one. *)
Theorem generic_insert_overlaps :
  let l := [mkInterval 5 (Some 6); mkInterval 10 None] in
  separated Z.ltb l ∧
  Generic.insert Z.ltb l 1 2 = [mkInterval 1 None; mkInterval 5 (Some 6)] ∧
  ¬ separated Z.ltb (Generic.insert Z.ltb l 1 2).
Proof.
  split_and!; [split; repeat constructor|reflexivity|].
  intros [_ Hs]. vm_compute in Hs. inversion Hs as [|?? _ Hb]. by inversion Hb.
Qed.
