(* ===== verification/OptionsType.v ===== *)
(** * Option descriptors (libs/rocksdb/utilities/options_type.h)

    [OptionTypeInfo] describes one configurable option: where it is stored, how
    it is parsed from and printed to a string, how two values are compared, and
    flags.  The descriptors for enums, structs, arrays, vectors, string maps
    and pointers to customizable objects are translated, with the functions
    they install; the object an address points to is passed in and returned.

    [NextToken], [Parse], [Serialize], [AreEqual], the struct functions and the
    hexadecimal conversions of slices are declared in the headers and defined
    elsewhere: they are fields of the classes [Tokenizer], [InfoImpl],
    [StructImpl] and [HexImpl], and the theorems name what they rely on. *)

From stdpp Require Import base list gmap strings sorting.
From Stdlib Require Import ZArith Lia.
From Stdlib.Strings Require Import Byte.
From S2P Require Import Prelude Slice Status.

Open Scope Z_scope.

(** ** Enums *)

Inductive OptionType :=
| kBoolean | kInt | kInt32T | kInt64T | kUInt | kUInt8T | kUInt32T | kUInt64T | kSizeT
| kDouble | kAtomicInt | kString | kCompactionStyle | kCompactionPri | kCompressionType
| kCompactionStopStyle | kChecksumType | kEncodingType | kEnv | kEnum | kStruct | kVector
| kConfigurable | kCustomizable | kEncodedString | kTemperature | kArray | kStringMap
| kUnknown.

Inductive OptionVerificationType :=
| kNormal | kByName | kByNameAllowNull | kByNameAllowFromNull | kDeprecated | kAlias.

#[export] Instance OptionType_eq_dec : EqDecision OptionType.
Proof. solve_decision. Defined.
#[export] Instance OptionVerificationType_eq_dec : EqDecision OptionVerificationType.
Proof. solve_decision. Defined.

(** ** ConfigOptions (convenience.h) *)

Definition kSanityLevelNone : Z := 0x01.
Definition kSanityLevelLooselyCompatible : Z := 0x02.
Definition kSanityLevelExactMatch : Z := 0xFF.

Inductive Depth := kDepthDefault | kDepthShallow | kDepthDetailed.

#[export] Instance Depth_eq_dec : EqDecision Depth.
Proof. solve_decision. Defined.

(** Pointers ([env], [registry]) are addresses. *)
Record ConfigOptions := mkConfigOptions {
  ignore_unknown_options : bool;
  ignore_unsupported_options : bool;
  input_strings_escaped : bool;
  invoke_prepare_options : bool;
  mutable_options_only : bool;
  delimiter : bytes;
  depth : Depth;
  sanity_level : Z;
  file_readahead_size : Z;
  env : Z;
  registry : Z;
}.

(** The default member initialisers. *)
Definition ConfigOptions_default (env registry : Z) : ConfigOptions :=
  mkConfigOptions false true true true false (lit ";") kDepthDefault kSanityLevelExactMatch
    (512 * 1024) env registry.

Definition IsShallow (c : ConfigOptions) : bool := bool_decide (depth c = kDepthShallow).
Definition IsDetailed (c : ConfigOptions) : bool := bool_decide (depth c = kDepthDetailed).
Definition IsCheckDisabled (c : ConfigOptions) : bool := sanity_level c =? kSanityLevelNone.
Definition IsCheckEnabled (c : ConfigOptions) (level : Z) : bool :=
  (kSanityLevelNone <? level) && (level <=? sanity_level c).

(** [copy.ignore_unsupported_options = b] and [embedded.delimiter = d]. *)
Definition with_ignore_unsupported (c : ConfigOptions) (b : bool) : ConfigOptions :=
  mkConfigOptions (ignore_unknown_options c) b (input_strings_escaped c)
    (invoke_prepare_options c) (mutable_options_only c) (delimiter c) (depth c)
    (sanity_level c) (file_readahead_size c) (env c) (registry c).
Definition with_delimiter (c : ConfigOptions) (d : bytes) : ConfigOptions :=
  mkConfigOptions (ignore_unknown_options c) (ignore_unsupported_options c)
    (input_strings_escaped c) (invoke_prepare_options c) (mutable_options_only c) d (depth c)
    (sanity_level c) (file_readahead_size c) (env c) (registry c).

(** ** Flags *)

(** The enumerators of [OptionTypeFlags], a [uint32_t]. *)
Module Flags.
Definition kNone : Z := 0x00.
Definition kCompareDefault : Z := 0x0.
Definition kCompareNever : Z := kSanityLevelNone.
Definition kCompareLoose : Z := kSanityLevelLooselyCompatible.
Definition kCompareExact : Z := kSanityLevelExactMatch.
Definition kMutable : Z := 0x0100.
Definition kRawPointer : Z := 0x0200.
Definition kShared : Z := 0x0400.
Definition kUnique : Z := 0x0800.
Definition kAllowNull : Z := 0x1000.
Definition kDontSerialize : Z := 0x2000.
Definition kDontPrepare : Z := 0x4000.
Definition kStringNameOnly : Z := 0x8000.

Definition flags_or (a b : Z) : Z := Z.lor a b.
Definition flags_and (a b : Z) : Z := Z.land a b.
End Flags.

(** ** Enum maps *)

(** An [std::unordered_map] as the list of its pairs in iteration order. *)
Fixpoint map_find {T} (m : list (bytes * T)) (k : bytes) : option T :=
  match m with
  | [] => None
  | (k', v) :: m' => if bool_decide (k' = k) then Some v else map_find m' k
  end.

(** The result and the new [*value]. *)
Definition ParseEnum {T} (type_map : list (bytes * T)) (type : bytes) (value : T) : bool * T :=
  match map_find type_map type with
  | Some v => (true, v)
  | None => (false, value)
  end.

Fixpoint SerializeEnum {T} `{!EqDecision T} (type_map : list (bytes * T)) (type : T)
    (value : bytes) : bool * bytes :=
  match type_map with
  | [] => (false, value)
  | (k, v) :: m' => if bool_decide (v = type) then (true, k) else SerializeEnum m' type value
  end.

(** ** OptionTypeInfo *)

(** Parsing returns the status and the new object; [None] is a call that does
    not return (a failed assertion, or a loop without end). *)
Definition ParseFunc (A : Type) : Type :=
  ConfigOptions → bytes → bytes → A → option (Status * A).
Definition SerializeFunc (A : Type) : Type := ConfigOptions → bytes → A → bytes → Status * bytes.
Definition EqualsFunc (A : Type) : Type := ConfigOptions → bytes → A → A → bytes → bool * bytes.
Definition PrepareFunc (A : Type) : Type := ConfigOptions → bytes → A → Status * A.
Definition ValidateFunc (DBOptions ColumnFamilyOptions A : Type) : Type :=
  DBOptions → ColumnFamilyOptions → bytes → A → Status.

(** The descriptor of an option of type [A]; [D] and [C] are the types
    [DBOptions] and [ColumnFamilyOptions] a validation function receives. *)
Record OptionTypeInfo (D C A : Type) := mkInfo {
  offset_ : Z;
  parse_func_ : option (ParseFunc A);
  serialize_func_ : option (SerializeFunc A);
  equals_func_ : option (EqualsFunc A);
  prepare_func_ : option (PrepareFunc A);
  validate_func_ : option (ValidateFunc D C A);
  type_ : OptionType;
  verification_ : OptionVerificationType;
  flags_ : Z;
}.
Arguments mkInfo {D C A}.
Arguments offset_ {D C A}.
Arguments parse_func_ {D C A}.
Arguments serialize_func_ {D C A}.
Arguments equals_func_ {D C A}.
Arguments prepare_func_ {D C A}.
Arguments validate_func_ {D C A}.
Arguments type_ {D C A}.
Arguments verification_ {D C A}.
Arguments flags_ {D C A}.

(** ** Declared elsewhere *)

(** [NextToken opts delimiter start end token]: the status, and the new values
    of [*end] and [*token]. *)
Class Tokenizer := { NextToken : bytes → byte → Z → Z → bytes → Status * Z * bytes }.

Class InfoImpl (D C : Type) := {
  Parse {A} : OptionTypeInfo D C A → ParseFunc A;
  Serialize {A} : OptionTypeInfo D C A → SerializeFunc A;
  AreEqual {A} : OptionTypeInfo D C A → EqualsFunc A;
}.

(** The functions on structs, for a struct type [A] and its table of fields. *)
Class StructImpl (M A : Type) := {
  ParseStruct : ConfigOptions → bytes → M → bytes → bytes → A → option (Status * A);
  SerializeStruct : ConfigOptions → bytes → M → bytes → A → bytes → Status * bytes;
  StructsAreEqual : ConfigOptions → bytes → M → bytes → A → A → bytes → bool * bytes;
}.

(** [Slice::ToString(true)] and [Slice::DecodeHex]. *)
Class HexImpl := {
  ToString_hex : Slice → bytes;
  DecodeHex : Slice → bool * bytes;
}.

(** [T::CreateFromString] into a pointer, of which [None] is null. *)
Class CreateFromStringImpl (T : Type) := {
  CreateFromString : ConfigOptions → bytes → option T → option (Status * option T);
}.

(** ** std::string *)

Definition npos : Z := size_max.

(** [s.find(c)]. *)
Fixpoint find_from (s : bytes) (c : byte) (pos : Z) : Z :=
  match s with
  | [] => npos
  | b :: s' => if bool_decide (b = c) then pos else find_from s' c (pos + 1)
  end.
Definition find (s : bytes) (c : byte) : Z := find_from s c 0.

(** [s.substr(pos, n)] for [pos <= s.size()]. *)
Definition substr (s : bytes) (pos n : Z) : bytes := take (Z.to_nat n) (drop (Z.to_nat pos) s).

Definition string_size (s : bytes) : Z := Z.of_nat (length s).

(** A string literal converted to a [Slice]. *)
Definition msg (s : string) : Slice := Slice_cstr (Some (lit s ++ [x00])).

(** ** Operations of OptionTypeInfo *)

Section Info.
Context {D C A : Type}.
Abbreviation info_t := (OptionTypeInfo D C A).

Definition OptionTypeInfo_new (offset : Z) (type : OptionType)
    (verification : OptionVerificationType) (flags : Z) (parse_func : option (ParseFunc A))
    (serialize_func : option (SerializeFunc A)) (equals_func : option (EqualsFunc A)) : info_t :=
  mkInfo offset parse_func serialize_func equals_func None None type verification flags.

Definition SetParseFunc (i : info_t) (f : option (ParseFunc A)) : info_t :=
  mkInfo (offset_ i) f (serialize_func_ i) (equals_func_ i) (prepare_func_ i)
    (validate_func_ i) (type_ i) (verification_ i) (flags_ i).
Definition SetSerializeFunc (i : info_t) (f : option (SerializeFunc A)) : info_t :=
  mkInfo (offset_ i) (parse_func_ i) f (equals_func_ i) (prepare_func_ i)
    (validate_func_ i) (type_ i) (verification_ i) (flags_ i).
Definition SetEqualsFunc (i : info_t) (f : option (EqualsFunc A)) : info_t :=
  mkInfo (offset_ i) (parse_func_ i) (serialize_func_ i) f (prepare_func_ i)
    (validate_func_ i) (type_ i) (verification_ i) (flags_ i).
Definition SetPrepareFunc (i : info_t) (f : option (PrepareFunc A)) : info_t :=
  mkInfo (offset_ i) (parse_func_ i) (serialize_func_ i) (equals_func_ i) f
    (validate_func_ i) (type_ i) (verification_ i) (flags_ i).
Definition SetValidateFunc (i : info_t) (f : option (ValidateFunc D C A)) : info_t :=
  mkInfo (offset_ i) (parse_func_ i) (serialize_func_ i) (equals_func_ i) (prepare_func_ i)
    f (type_ i) (verification_ i) (flags_ i).

Definition GetFlags (i : info_t) : Z := flags_ i.
Definition SetFlags (i : info_t) (flags : Z) : info_t :=
  mkInfo (offset_ i) (parse_func_ i) (serialize_func_ i) (equals_func_ i) (prepare_func_ i)
    (validate_func_ i) (type_ i) (verification_ i) flags.

Definition IsEnabled (i : info_t) (otf : Z) : bool := Flags.flags_and (flags_ i) otf =? otf.
Definition IsEnabled_ovt (i : info_t) (ovf : OptionVerificationType) : bool :=
  bool_decide (verification_ i = ovf).

Definition IsMutable (i : info_t) : bool := IsEnabled i Flags.kMutable.
Definition IsEditable (i : info_t) (opts : ConfigOptions) : bool :=
  if mutable_options_only opts then IsMutable i else true.
Definition IsDeprecated (i : info_t) : bool := IsEnabled_ovt i kDeprecated.
Definition IsAlias (i : info_t) : bool := IsEnabled_ovt i kAlias.

Definition GetSanityLevel (i : info_t) : Z :=
  if IsDeprecated i || IsAlias i then kSanityLevelNone
  else
    let m := Flags.flags_and (flags_ i) Flags.kCompareExact in
    if m =? Flags.kCompareDefault then kSanityLevelExactMatch else m.

Definition IsConfigurable (i : info_t) : bool :=
  bool_decide (type_ i = kConfigurable) || bool_decide (type_ i = kCustomizable).
Definition IsCustomizable (i : info_t) : bool := bool_decide (type_ i = kCustomizable).
Definition IsStruct (i : info_t) : bool := bool_decide (type_ i = kStruct).

Definition ShouldSerialize (i : info_t) : bool :=
  if IsDeprecated i || IsAlias i then false
  else if IsEnabled i Flags.kDontSerialize then false
  else true.

Definition ShouldPrepare (i : info_t) : bool :=
  if IsDeprecated i || IsAlias i then false
  else if IsEnabled i Flags.kDontPrepare then false
  else match prepare_func_ i with Some _ => true | None => IsConfigurable i end.

Definition ShouldValidate (i : info_t) : bool :=
  if IsDeprecated i || IsAlias i then false
  else match validate_func_ i with Some _ => true | None => IsConfigurable i end.

Definition CanBeNull (i : info_t) : bool :=
  IsEnabled i Flags.kAllowNull || IsEnabled_ovt i kByNameAllowNull
  || IsEnabled_ovt i kByNameAllowFromNull.

Definition IsSharedPtr (i : info_t) : bool := IsEnabled i Flags.kShared.
Definition IsUniquePtr (i : info_t) : bool := IsEnabled i Flags.kUnique.
Definition IsRawPtr (i : info_t) : bool := IsEnabled i Flags.kRawPointer.
Definition IsByName (i : info_t) : bool :=
  bool_decide (verification_ i = kByName) || bool_decide (verification_ i = kByNameAllowNull)
  || bool_decide (verification_ i = kByNameAllowFromNull).
Definition GetType (i : info_t) : OptionType := type_ i.

(** Addresses are integers, 0 is null. *)
Definition GetOffset (i : info_t) (base : Z) : Z := base + offset_ i.
Definition GetOffsetAs (i : info_t) (base : Z) : Z := let addr := GetOffset i base in addr.

(** [unique_get], [shared_get] and [load] read the pointer held by the object
    of that kind at an address. *)
Definition AsRawPointer (unique_get shared_get load : Z → Z) (i : info_t) (base_addr : Z) : Z :=
  if base_addr =? 0 then 0
  else if IsUniquePtr i then unique_get (GetOffsetAs i base_addr)
  else if IsSharedPtr i then shared_get (GetOffsetAs i base_addr)
  else if IsRawPtr i then load (GetOffsetAs i base_addr)
  else GetOffsetAs i base_addr.

End Info.

(** ** Arrays and vectors *)

Section Sequences.
Context `{I : StatusImpl, TK : Tokenizer}.
Context {D C : Type} `{II : InfoImpl D C}.
Context {T : Type} (elem_info : OptionTypeInfo D C T) (separator : byte).

(** One step of the loops of [ParseArray]: the element at [i] is parsed in
    place. *)
Fixpoint parse_array_loop (fuel : nat) (config_options : ConfigOptions) (name value : bytes)
    (status : Status) (i : nat) (start end_ : Z) (result : list T)
    : option (Status * nat * Z * Z * list T) :=
  match fuel with
  | O => None
  | S fuel' =>
      if ok status && (i <? length result)%nat && (start <? string_size value)
         && negb (end_ =? npos)
      then
        let '(status, end_, token) := NextToken value separator start end_ [] in
        if ok status then
          match result !! i with
          | None => None
          | Some elem =>
              match Parse elem_info (with_ignore_unsupported config_options false) name token elem with
              | None => None
              | Some (status, elem) =>
                  let status := if ignore_unsupported_options config_options
                                   && IsNotSupported status then OK else status in
                  parse_array_loop fuel' config_options name value status (S i)
                    (u64_add end_ 1) end_ (<[i := elem]> result)
              end
          end
        else parse_array_loop fuel' config_options name value status (S i) (u64_add end_ 1) end_ result
      else Some (status, i, start, end_, result)
  end.

(** [result] is the array of [kSize] elements to fill. *)
Definition ParseArray (config_options : ConfigOptions) (name value : bytes) (result : list T)
    : option (Status * list T) :=
  match parse_array_loop (S (S (length value))) config_options name value Status_new 0 0 0 result with
  | None => None
  | Some (status, i, start, end_, result) =>
      if negb (ok status) then Some (status, result)
      else if (i <? length result)%nat then
        Some (InvalidArgument (msg "Serialized value has less elements than array size")
                (Slice_string name), result)
      else if (start <? string_size value) && negb (end_ =? npos) then
        Some (InvalidArgument (msg "Serialized value has more elements than array size")
                (Slice_string name), result)
      else Some (status, result)
  end.

(** The loop of [SerializeArray] and [SerializeVector]: the result string and
    the number of printed elements, or the error. *)
Fixpoint serialize_loop (embedded : ConfigOptions) (name : bytes) (elems : list T)
    (result : bytes) (printed : Z) : Status + bytes * Z :=
  match elems with
  | [] => inr (result, printed)
  | elem :: elems' =>
      let '(s, elem_str) := Serialize elem_info embedded name elem [] in
      if negb (ok s) then inl s
      else if negb (string_size elem_str =? 0) then
        let result := if 0 <? printed then result ++ [separator] else result in
        let printed := printed + 1 in
        let result := if negb (find elem_str separator =? npos)
                      then result ++ lit "{" ++ elem_str ++ lit "}"
                      else result ++ elem_str in
        serialize_loop embedded name elems' result printed
      else serialize_loop embedded name elems' result printed
  end.

Definition serialize_result (result : bytes) (printed : Z) : bytes :=
  if negb (find result "="%byte =? npos) then lit "{" ++ result ++ lit "}"
  else if (1 <? printed) && bool_decide (result !! 0%nat = Some "{"%byte)
  then lit "{" ++ result ++ lit "}"
  else result.

(** The status and the new [*value]. *)
Definition SerializeArray (config_options : ConfigOptions) (name : bytes) (array : list T)
    (value : bytes) : Status * bytes :=
  match serialize_loop (with_delimiter config_options (lit ";")) name array [] 0 with
  | inl s => (s, value)
  | inr (result, printed) => (OK, serialize_result result printed)
  end.

Definition SerializeVector (config_options : ConfigOptions) (name : bytes) (vec : list T)
    (value : bytes) : Status * bytes :=
  match serialize_loop (with_delimiter config_options (lit ";")) name vec [] 0 with
  | inl s => (s, value)
  | inr (result, printed) => (OK, serialize_result result printed)
  end.

(** The element-wise comparison of two sequences of the same length. *)
Fixpoint equal_loop (config_options : ConfigOptions) (name : bytes) (l1 l2 : list T)
    (mismatch : bytes) : bool * bytes :=
  match l1, l2 with
  | x1 :: l1', x2 :: l2' =>
      let '(eq, mismatch) := AreEqual elem_info config_options name x1 x2 mismatch in
      if negb eq then (false, mismatch) else equal_loop config_options name l1' l2' mismatch
  | _, _ => (true, mismatch)
  end.

Definition ArraysAreEqual (config_options : ConfigOptions) (name : bytes) (array1 array2 : list T)
    (mismatch : bytes) : bool * bytes :=
  equal_loop config_options name array1 array2 mismatch.

Definition VectorsAreEqual (config_options : ConfigOptions) (name : bytes) (vec1 vec2 : list T)
    (mismatch : bytes) : bool * bytes :=
  if negb (length vec1 =? length vec2)%nat then (false, name)
  else equal_loop config_options name vec1 vec2 mismatch.

(** [elem0] is the value of a default-initialised element. *)
Fixpoint parse_vector_loop (fuel : nat) (elem0 : T) (config_options : ConfigOptions)
    (name value : bytes) (status : Status) (start end_ : Z) (result : list T)
    : option (Status * list T) :=
  match fuel with
  | O => None
  | S fuel' =>
      if ok status && (start <? string_size value) && negb (end_ =? npos) then
        let '(status, end_, token) := NextToken value separator start end_ [] in
        if ok status then
          match Parse elem_info (with_ignore_unsupported config_options false) name token elem0 with
          | None => None
          | Some (status, elem) =>
              if ok status then
                parse_vector_loop fuel' elem0 config_options name value status (u64_add end_ 1)
                  end_ (result ++ [elem])
              else if ignore_unsupported_options config_options && IsNotSupported status then
                parse_vector_loop fuel' elem0 config_options name value OK (u64_add end_ 1)
                  end_ result
              else
                parse_vector_loop fuel' elem0 config_options name value status (u64_add end_ 1)
                  end_ result
          end
        else parse_vector_loop fuel' elem0 config_options name value status (u64_add end_ 1)
               end_ result
      else Some (status, result)
  end.

Definition ParseVector (elem0 : T) (config_options : ConfigOptions) (name value : bytes)
    (result : list T) : option (Status * list T) :=
  parse_vector_loop (S (S (length value))) elem0 config_options name value Status_new 0 0 [].

End Sequences.

(** ** String maps *)

(** [std::map] as the list of its pairs in key order. *)
Fixpoint map_emplace (m : list (bytes * bytes)) (k v : bytes) : list (bytes * bytes) :=
  match m with
  | [] => [(k, v)]
  | (k', v') :: m' =>
      if lex_cmp k k' <? 0 then (k, v) :: m
      else if lex_cmp k' k <? 0 then (k', v') :: map_emplace m' k v
      else m
  end.

Section StringMap.
Context `{TK : Tokenizer, HX : HexImpl}.

(** The assertion that the separator is found is the failure [None]. *)
Fixpoint parse_map_loop (fuel : nat) (kv_separator item_separator : byte) (value : bytes)
    (s : Status) (start end_ : Z) (map : list (bytes * bytes))
    : option (Status * list (bytes * bytes)) :=
  match fuel with
  | O => None
  | S fuel' =>
      if ok s && (start <? string_size value) && negb (end_ =? npos) then
        let '(s, end_, token) := NextToken value item_separator start end_ [] in
        if ok s && negb (string_size token =? 0) then
          let pos := find token kv_separator in
          if pos =? npos then None else
          let k := substr token 0 pos in
          let v := drop (Z.to_nat (pos + 1)) token in
          let decoded_key := snd (DecodeHex (Slice_string k)) in
          let decoded_value := snd (DecodeHex (Slice_string v)) in
          parse_map_loop fuel' kv_separator item_separator value s (u64_add end_ 1) end_
            (map_emplace map decoded_key decoded_value)
        else parse_map_loop fuel' kv_separator item_separator value s (u64_add end_ 1) end_ map
      else Some (s, map)
  end.

Definition string_map_parse (kv_separator item_separator : byte)
    : ParseFunc (list (bytes * bytes)) := λ _ _ value addr,
  match parse_map_loop (S (S (length value))) kv_separator item_separator value Status_new 0 0 [] with
  | None => None
  | Some (s, map) => Some (s, if ok s then map else addr)
  end.

Definition string_map_serialize (kv_separator item_separator : byte)
    : SerializeFunc (list (bytes * bytes)) := λ _ _ map value,
  (OK, value ++ lit "{"
       ++ concat ((λ '(k, v), ToString_hex (Slice_string k) ++ [kv_separator]
                     ++ ToString_hex (Slice_string v) ++ [item_separator]) <$> map)
       ++ lit "}").

Definition StringMap {D C} (offset : Z) (verification : OptionVerificationType) (flags : Z)
    (kv_separator item_separator : byte) : OptionTypeInfo D C (list (bytes * bytes)) :=
  let info := OptionTypeInfo_new offset kStringMap verification flags None None None in
  let info := SetParseFunc info (Some (string_map_parse kv_separator item_separator)) in
  let info := SetSerializeFunc info (Some (string_map_serialize kv_separator item_separator)) in
  SetEqualsFunc info (Some (λ _ _ m1 m2 mismatch, (bool_decide (m1 = m2), mismatch))).

End StringMap.

(** ** Descriptors *)

Section Descriptors.
Context `{I : StatusImpl} {D C : Type}.

(** [map] is [None] for a null pointer. *)
Definition Enum {T} `{!EqDecision T} (offset : Z) (map : option (list (bytes * T))) (flags : Z)
    (verification : OptionVerificationType) : OptionTypeInfo D C T :=
  let info := OptionTypeInfo_new offset kEnum verification flags None None None in
  let info := SetParseFunc info (Some (λ _ name value addr,
    match map with
    | None => Some (NotSupported (msg "No enum mapping ") (Slice_string name), addr)
    | Some map =>
        let '(found, v) := ParseEnum map value addr in
        if found then Some (OK, v)
        else Some (InvalidArgument (msg "No mapping for enum ") (Slice_string name), v)
    end)) in
  let info := SetSerializeFunc info (Some (λ _ name addr value,
    match map with
    | None => (NotSupported (msg "No enum mapping ") (Slice_string name), value)
    | Some map =>
        let '(found, v) := SerializeEnum map addr value in
        if found then (OK, v)
        else (InvalidArgument (msg "No mapping for enum ") (Slice_string name), v)
    end)) in
  SetEqualsFunc info (Some (λ _ _ addr1 addr2 mismatch, (bool_decide (addr1 = addr2), mismatch))).

Definition Struct {M A} `{S : StructImpl M A} (struct_name : bytes) (struct_map : M) (offset : Z)
    (verification : OptionVerificationType) (flags : Z) : OptionTypeInfo D C A :=
  let info := OptionTypeInfo_new offset kStruct verification flags None None None in
  let info := SetParseFunc info (Some (λ opts name value addr,
    ParseStruct opts struct_name struct_map name value addr)) in
  let info := SetSerializeFunc info (Some (λ opts name addr value,
    SerializeStruct opts struct_name struct_map name addr value)) in
  SetEqualsFunc info (Some (λ opts name addr1 addr2 mismatch,
    StructsAreEqual opts struct_name struct_map name addr1 addr2 mismatch)).

Definition Struct_parse {M A} `{S : StructImpl M A} (struct_name : bytes) (struct_map : M)
    (offset : Z) (verification : OptionVerificationType) (flags : Z)
    (parse_func : option (ParseFunc A)) : OptionTypeInfo D C A :=
  SetParseFunc (Struct struct_name struct_map offset verification flags) parse_func.

(** An array is the list of its elements. *)
Definition Array {T} `{TK : Tokenizer, II : InfoImpl D C} (offset : Z)
    (verification : OptionVerificationType) (flags : Z) (elem_info : OptionTypeInfo D C T)
    (separator : byte) : OptionTypeInfo D C (list T) :=
  let info := OptionTypeInfo_new offset kArray verification flags None None None in
  let info := SetParseFunc info (Some (λ opts name value addr,
    ParseArray elem_info separator opts name value addr)) in
  let info := SetSerializeFunc info (Some (λ opts name addr value,
    SerializeArray elem_info separator opts name addr value)) in
  SetEqualsFunc info (Some (λ opts name addr1 addr2 mismatch,
    ArraysAreEqual elem_info opts name addr1 addr2 mismatch)).

Definition Vector {T} `{TK : Tokenizer, II : InfoImpl D C} (elem0 : T) (offset : Z)
    (verification : OptionVerificationType) (flags : Z) (elem_info : OptionTypeInfo D C T)
    (separator : byte) : OptionTypeInfo D C (list T) :=
  let info := OptionTypeInfo_new offset kVector verification flags None None None in
  let info := SetParseFunc info (Some (λ opts name value addr,
    ParseVector elem_info separator elem0 opts name value addr)) in
  let info := SetSerializeFunc info (Some (λ opts name addr value,
    SerializeVector elem_info separator opts name addr value)) in
  SetEqualsFunc info (Some (λ opts name addr1 addr2 mismatch,
    VectorsAreEqual elem_info opts name addr1 addr2 mismatch)).

Definition kIdPropName : bytes := lit "id".
Definition kIdPropSuffix : bytes := lit ".id".

(** The parse function of a pointer to a customizable object. *)
Definition custom_parse {T} `{CF : CreateFromStringImpl T} : ParseFunc (option T) :=
  λ opts name value addr,
    if bool_decide (name = kIdPropName) && (string_size value =? 0)
    then Some (OK, None)
    else CreateFromString opts value addr.

Definition AsCustomSharedPtr {T} `{CF : CreateFromStringImpl T} (offset : Z)
    (ovt : OptionVerificationType) (flags : Z) (serialize_func : option (SerializeFunc (option T)))
    (equals_func : option (EqualsFunc (option T))) : OptionTypeInfo D C (option T) :=
  OptionTypeInfo_new offset kCustomizable ovt (Flags.flags_or flags Flags.kShared)
    (Some custom_parse) serialize_func equals_func.

Definition AsCustomUniquePtr {T} `{CF : CreateFromStringImpl T} (offset : Z)
    (ovt : OptionVerificationType) (flags : Z) : OptionTypeInfo D C (option T) :=
  SetParseFunc (OptionTypeInfo_new offset kCustomizable ovt
    (Flags.flags_or flags Flags.kUnique) None None None) (Some custom_parse).

Definition AsCustomUniquePtr_funcs {T} `{CF : CreateFromStringImpl T} (offset : Z)
    (ovt : OptionVerificationType) (flags : Z) (serialize_func : option (SerializeFunc (option T)))
    (equals_func : option (EqualsFunc (option T))) : OptionTypeInfo D C (option T) :=
  SetEqualsFunc (SetSerializeFunc (AsCustomUniquePtr offset ovt flags) serialize_func) equals_func.

Definition AsCustomRawPtr {T} `{CF : CreateFromStringImpl T} (offset : Z)
    (ovt : OptionVerificationType) (flags : Z) : OptionTypeInfo D C (option T) :=
  SetParseFunc (OptionTypeInfo_new offset kCustomizable ovt
    (Flags.flags_or flags Flags.kRawPointer) None None None) (Some custom_parse).

Definition AsCustomRawPtr_funcs {T} `{CF : CreateFromStringImpl T} (offset : Z)
    (ovt : OptionVerificationType) (flags : Z) (serialize_func : option (SerializeFunc (option T)))
    (equals_func : option (EqualsFunc (option T))) : OptionTypeInfo D C (option T) :=
  SetEqualsFunc (SetSerializeFunc (AsCustomRawPtr offset ovt flags) serialize_func) equals_func.

End Descriptors.

(** ** What the tokenizer promises *)

Definition is_space (b : byte) : bool :=
  bool_decide (b ∈ [x20; x09; x0a; x0b; x0c; x0d]).

(** A byte that a token can hold without being trimmed or matched. *)
Definition clean (b : byte) : bool :=
  negb (is_space b) && negb (bool_decide (b = "{"%byte)) && negb (bool_decide (b = "}"%byte)).

(** The token as it is written: in braces when it holds the delimiter. *)
Definition token_repr (d : byte) (tok : bytes) : bytes :=
  if negb (find tok d =? npos) then lit "{" ++ tok ++ lit "}" else tok.

(** The documented behaviour of [NextToken] on well-formed input: the token up
    to the delimiter, or the inside of a pair of braces, with [*end] at the
    delimiter after it; at the end of the input [*end] is [npos] or the size. *)
Class TokenizerOk (TK : Tokenizer) : Prop := {
  NextToken_plain (d : byte) pre tok post e t :
    clean d = true → tok ≠ [] → Forall (λ b, clean b = true) tok → find tok d = npos →
    string_size (pre ++ tok ++ post) < npos → post = [] ∨ head post = Some d →
    NextToken (pre ++ tok ++ post) d (string_size pre) e t =
      (OK, match post with [] => npos | _ => string_size pre + string_size tok end, tok);
  NextToken_braced (d : byte) pre tok post e t :
    clean d = true → tok ≠ [] → Forall (λ b, clean b = true) tok →
    string_size (pre ++ lit "{" ++ tok ++ lit "}" ++ post) < npos →
    post = [] ∨ head post = Some d →
    NextToken (pre ++ lit "{" ++ tok ++ lit "}" ++ post) d (string_size pre) e t =
      (OK, string_size pre + string_size tok + 2, tok);
}.

(** A well-formed token list. *)
Definition tokens_ok (toks : list bytes) : Prop :=
  Forall (λ tok, tok ≠ [] ∧ Forall (λ b, clean b = true) tok) toks.

(** The tokens as they are written, with separators in between. *)
Definition join (d : byte) (toks : list bytes) : bytes :=
  match toks with
  | [] => []
  | t :: toks' => token_repr d t ++ concat ((λ t, d :: token_repr d t) <$> toks')
  end.

Lemma string_size_app a b : string_size (a ++ b) = string_size a + string_size b.
Proof. unfold string_size. rewrite length_app. lia. Qed.

Lemma string_size_nonneg a : 0 ≤ string_size a.
Proof. unfold string_size. lia. Qed.

Lemma token_repr_nonempty d t : t ≠ [] → 1 ≤ string_size (token_repr d t).
Proof.
  intros Ht. destruct t; [done|]. unfold token_repr.
  case_match; rewrite ?string_size_app; unfold string_size; simpl; lia.
Qed.

(** Reading one written token. *)
Lemma NextToken_repr `{TK : Tokenizer, !TokenizerOk TK} d pre tok post e t :
  clean d = true → tok ≠ [] → Forall (λ b, clean b = true) tok →
  string_size (pre ++ token_repr d tok ++ post) < npos → post = [] ∨ head post = Some d →
  ∃ e', NextToken (pre ++ token_repr d tok ++ post) d (string_size pre) e t = (OK, e', tok) ∧
        (e' = string_size pre + string_size (token_repr d tok) ∨ e' = npos ∧ post = []).
Proof.
  intros Hd Ht Hc Hsz Hp. unfold token_repr in *.
  destruct (find tok d =? npos) eqn:E; simpl in *.
  - apply Z.eqb_eq in E. rewrite NextToken_plain by done. eexists. split; [done|].
    destruct post; [by right|by left].
  - exists (string_size pre + string_size tok + 2). split.
    + pose proof (NextToken_braced d pre tok post e t Hd Ht Hc) as H. simpl in H.
      rewrite <- app_assoc in Hsz |- *. by apply H.
    + left. unfold string_size. simpl. rewrite length_app. simpl. lia.
Qed.

(** The bytes after the first token: what ends the list, or the delimiter and
    the other tokens. *)
Definition after_token (d : byte) (toks : list bytes) (tail : bytes) : bytes :=
  match toks with [] => tail | _ => d :: join d toks ++ tail end.

Lemma join_cons d t toks tail :
  join d (t :: toks) ++ tail = token_repr d t ++ after_token d toks tail.
Proof.
  unfold join, after_token. destruct toks as [|t' toks]; simpl; [by rewrite app_nil_r|].
  by rewrite <- app_assoc.
Qed.

Lemma after_token_head d toks tail :
  tail = [] ∨ tail = [d] → after_token d toks tail = [] ∨ head (after_token d toks tail) = Some d.
Proof. destruct toks; [intros [->| ->]|]; auto. Qed.

(** ** Lemmas on the loops *)

(** The position of a loop over [value] before the tokens [toks]: at the start
    of the first of them, or where the loop stops; the last token may be followed
    by the delimiter. *)
Definition at_tokens (d : byte) (value : bytes) (start e : Z) (toks : list bytes) : Prop :=
  match toks with
  | [] => (start <? string_size value) && negb (e =? npos) = false
  | _ => ∃ pre tail, value = pre ++ join d toks ++ tail ∧ (tail = [] ∨ tail = [d]) ∧
                     start = string_size pre ∧ e ≠ npos
  end.

Lemma u64_succ e n : 0 ≤ e ≤ n → n < npos → u64_add e 1 = e + 1.
Proof. unfold u64_add, npos, size_max. intros. apply wrap_small. unfold in_width. lia. Qed.

Lemma at_tokens_start d toks tail :
  tail = [] ∨ tail = [d] → (toks = [] → tail = []) → at_tokens d (join d toks ++ tail) 0 0 toks.
Proof. intros Ht Hn. destruct toks; [by rewrite Hn|]. by exists [], tail. Qed.

(** One iteration reads the first token and moves to the others. *)
Lemma at_tokens_next `{TK : Tokenizer, !TokenizerOk TK} d value start e t toks :
  clean d = true → tokens_ok (t :: toks) → string_size value < npos →
  at_tokens d value start e (t :: toks) →
  (start <? string_size value) = true ∧ (e =? npos) = false ∧
  ∃ e', NextToken value d start e [] = (OK, e', t) ∧ at_tokens d value (u64_add e' 1) e' toks.
Proof.
  intros Hd [[Ht Hc] _]%Forall_cons Hsz (pre & tail & -> & Htail & -> & He).
  rewrite join_cons in *. pose proof (after_token_head d toks tail Htail) as Hpost.
  destruct (NextToken_repr d pre t _ e [] Hd Ht Hc Hsz Hpost) as (e' & Hnext & He').
  pose proof (token_repr_nonempty d t Ht). pose proof (string_size_nonneg (after_token d toks tail)).
  pose proof (string_size_nonneg pre). rewrite !string_size_app in *.
  split; [apply Z.ltb_lt; lia|]. split; [by apply Z.eqb_neq|]. exists e'. split; [done|].
  destruct He' as [->|[-> Hnil]].
  2:{ destruct toks; [|done]. simpl. by rewrite andb_false_r. }
  rewrite (u64_succ _ (string_size pre + (string_size (token_repr d t)
                       + string_size (after_token d toks tail)))) by lia.
  destruct toks as [|t' toks]; simpl in *.
  - apply andb_false_intro1. apply Z.ltb_ge. rewrite !string_size_app.
    destruct Htail as [->| ->]; unfold string_size at 3; simpl; lia.
  - exists (pre ++ token_repr d t ++ [d]), tail. rewrite !string_size_app.
    split_and!; [by rewrite <- !app_assoc|done|unfold string_size; simpl; lia|lia].
Qed.

Lemma ok_not_unsupported st : ok st = true → IsNotSupported st = false.
Proof. unfold ok, IsNotSupported, has_code. by destruct (code st). Qed.

Section Loops.
Context `{I : StatusImpl, TK : Tokenizer, !TokenizerOk TK}.
Context {D C : Type} `{II : InfoImpl D C}.
Context {T : Type} (elem_info : OptionTypeInfo D C T) (separator : byte).
Context (config_options : ConfigOptions) (name value : bytes).
Hypothesis Hsep : clean separator = true.
Hypothesis Hvalue : string_size value < npos.

Abbreviation parse_elem :=
  (Parse elem_info (with_ignore_unsupported config_options false) name).

(** The vector loop appends what each token parses to. *)
Lemma parse_vector_loop_tokens elem0 toks xs : 
  Forall2 (λ t x, ∃ st, parse_elem t elem0 = Some (st, x) ∧ ok st = true) toks xs →
  ∀ fuel st start e result,
  tokens_ok toks → at_tokens separator value start e toks → (length toks < fuel)%nat →
  ok st = true →
  ∃ st', parse_vector_loop elem_info separator fuel elem0 config_options name value st start e
           result = Some (st', result ++ xs) ∧ ok st' = true.
Proof.
  induction 1 as [|t x toks xs (st1 & Hp & Hst1) _ IH]; intros fuel st start e result Htoks Hat Hfuel Hst;
    (destruct fuel as [|fuel]; [simpl in Hfuel; lia|]); cbn [parse_vector_loop]; rewrite Hst.
  { simpl in *. rewrite Hat, app_nil_r. by exists st. }
  destruct (at_tokens_next separator value start e t toks Hsep Htoks Hvalue Hat)
    as (-> & -> & e' & -> & Hat').
  apply Forall_cons in Htoks as [_ Htoks].
  cbn [andb negb]. change (ok OK) with true. cbn [andb negb]. rewrite Hp, Hst1.
  destruct (IH fuel st1 (u64_add e' 1) e' (result ++ [x])) as (st' & -> & Hst'); try done.
  { simpl in *. lia. }
  exists st'. by rewrite <- app_assoc.
Qed.

(** The array loop fills the array from [i] on, one element per token, until the
    array is full. *)
Lemma parse_array_loop_tokens toks xs :
  Forall2 (λ t x, ∀ old, ∃ st, parse_elem t old = Some (st, x) ∧ ok st = true) toks xs →
  ∀ fuel st i start e result,
  tokens_ok toks → at_tokens separator value start e toks → (length toks < fuel)%nat →
  ok st = true → (i ≤ length result)%nat →
  let n := (length result - i)%nat in
  ∃ st' start' e',
    parse_array_loop elem_info separator fuel config_options name value st i start e result =
      Some (st', (i + Nat.min n (length toks))%nat, start', e',
            take i result ++ take n xs ++ drop (i + length toks) result) ∧
    ok st' = true ∧ at_tokens separator value start' e' (drop n toks).
Proof.
  induction 1 as [|t x toks xs Hp _ IH]; intros fuel st i start e result Htoks Hat Hfuel Hst Hi n;
    (destruct fuel as [|fuel]; [simpl in Hfuel; lia|]); cbn [parse_array_loop]; rewrite Hst.
  { exists st, start, e. cbn [length]. rewrite Nat.min_0_r, take_nil, !Nat.add_0_r.
    simpl. rewrite take_drop. simpl in Hat. rewrite drop_nil.
    destruct (i <? length result)%nat; simpl; [rewrite Hat|]; done. }
  destruct (Nat.ltb_spec i (length result)) as [Hlt|Hge].
  2:{ exists st, start, e. replace n with 0%nat by lia. simpl.
      rewrite Nat.add_0_r, take_ge, drop_ge by lia. by rewrite !app_nil_r. }
  destruct (at_tokens_next separator value start e t toks Hsep Htoks Hvalue Hat)
    as (-> & -> & e' & -> & Hat').
  apply Forall_cons in Htoks as [_ Htoks].
  cbn [andb negb]. change (ok OK) with true. cbn [andb negb].
  destruct (lookup_lt_is_Some_2 result i Hlt) as [old Hold]. rewrite Hold.
  destruct (Hp old) as (st1 & -> & Hst1). rewrite ok_not_unsupported, andb_false_r by done.
  destruct (IH fuel st1 (S i) (u64_add e' 1) e' (<[i:=x]> result)) as (st' & s' & e2 & Heq & Hs & Ha);
    try done; try (rewrite length_insert; lia); [simpl in *; lia|].
  exists st', s', e2. rewrite length_insert in *. replace n with (S (length result - S i)) by lia.
  replace (S i + Nat.min (length result - S i) (length toks))%nat
    with (i + Nat.min (S (length result - S i)) (length (t :: toks)))%nat in Heq by (simpl; lia).
  rewrite Heq. split_and!; [|done..]. f_equal. f_equal.
  rewrite (take_S_r _ i x) by (rewrite list_lookup_insert_eq by lia; done).
  rewrite take_insert_ge, drop_insert_lt by lia. simpl. rewrite <- app_assoc. simpl.
  by rewrite Nat.add_succ_r.
Qed.

(** Writing elements: each one as a token, with separators in between. *)
Lemma serialize_loop_tokens embedded (ser : T → bytes) elems : ∀ result printed,
  Forall (λ x, Serialize elem_info embedded name x [] = (OK, ser x) ∧ ser x ≠ []) elems →
  0 < printed →
  serialize_loop elem_info separator embedded name elems result printed =
    inr (result ++ concat ((λ t, separator :: token_repr separator t) <$> (ser <$> elems)),
         printed + Z.of_nat (length elems)).
Proof.
  induction elems as [|x elems IH]; intros result printed Hs Hp; simpl.
  { by rewrite app_nil_r, Z.add_0_r. }
  apply Forall_cons in Hs as [[Hx Hne] Hs]. rewrite Hx. change (ok OK) with true. simpl.
  destruct (ser x) as [|b bs] eqn:Ex; [done|].
  replace (string_size (b :: bs) =? 0) with false
    by (symmetry; apply Z.eqb_neq; unfold string_size; simpl; lia).
  simpl negb. cbn match. rewrite (proj2 (Z.ltb_lt _ _)) by done.
  rewrite IH by (done || lia). f_equal. f_equal; [|lia]. rewrite <- !app_assoc.
  simpl. assert (token_repr separator (b :: bs) = if negb (find (b :: bs) separator =? npos)
    then lit "{" ++ (b :: bs) ++ lit "}" else b :: bs) as -> by done.
  destruct (negb _); simpl; rewrite <- ?app_assoc; simpl; by rewrite <- ?app_assoc.
Qed.

End Loops.

(** ** Finding a byte *)

Lemma find_from_notin s c pos : c ∉ s → find_from s c pos = npos.
Proof.
  revert pos. induction s as [|b s IH]; intros pos Hc; [done|]. simpl.
  rewrite bool_decide_false by set_solver. apply IH. set_solver.
Qed.

Lemma find_from_app s c r pos : c ∉ s → find_from (s ++ c :: r) c pos = pos + string_size s.
Proof.
  revert pos. induction s as [|b s IH]; intros pos Hc; simpl.
  { rewrite bool_decide_true by done. unfold string_size. simpl. lia. }
  rewrite bool_decide_false, IH by set_solver. unfold string_size. simpl. lia.
Qed.

Lemma find_npos s c : string_size s < npos → find s c = npos → c ∉ s.
Proof.
  intros Hsz Hf Hin. apply list_elem_of_split_l in Hin as (l1 & l2 & -> & Hin).
  revert Hf. unfold find. rewrite find_from_app by done. rewrite string_size_app in Hsz.
  pose proof (string_size_nonneg (c :: l2)). lia.
Qed.

(** ** A tokenizer *)

(** An implementation of the documented behaviour, for the concrete cases. *)
Fixpoint skip_spaces (s : bytes) : bytes :=
  match s with
  | [] => []
  | b :: s' => if is_space b then skip_spaces s' else s
  end.

Definition trim (s : bytes) : bytes := reverse (skip_spaces (reverse (skip_spaces s))).

(** The bytes up to the matching brace, and the ones after it. *)
Fixpoint split_braces (s : bytes) (count : nat) : option (bytes * bytes) :=
  match s with
  | [] => None
  | b :: s' =>
      let next (n : nat) := match split_braces s' n with Some (t, r) => Some (b :: t, r) | None => None end in
      if bool_decide (b = "{"%byte) then next (S count)
      else if bool_decide (b = "}"%byte) then
        match count with S (S n) => next (S n) | _ => Some ([], s') end
      else next count
  end.

Definition next_token (opts : bytes) (d : byte) (start e : Z) (t : bytes) : Status * Z * bytes :=
  let rest := skip_spaces (drop (Z.to_nat start) opts) in
  let pos := string_size opts - string_size rest in
  match rest with
  | [] => (OK, npos, [])
  | b :: inner =>
      if bool_decide (b = "{"%byte) then
        match split_braces inner 1 with
        | None => (InvalidArgument_sub kNone, e, t)
        | Some (tok, after) =>
            let after := skip_spaces after in
            match after with
            | [] => (OK, string_size opts, trim tok)
            | c :: _ => if bool_decide (c = d)
                        then (OK, string_size opts - string_size after, trim tok)
                        else (InvalidArgument_sub kNone, e, t)
            end
        end
      else
        let end_ := find_from rest d pos in
        (OK, end_, trim (if end_ =? npos then rest else substr rest 0 (end_ - pos)))
  end.

#[export] Instance concrete_tokenizer : Tokenizer := {| NextToken := next_token |}.

Lemma clean_spec b :
  clean b = true ↔ is_space b = false ∧ b ≠ "{"%byte ∧ b ≠ "}"%byte.
Proof.
  unfold clean. rewrite !andb_true_iff, !negb_true_iff, !bool_decide_eq_false. tauto.
Qed.

Lemma skip_spaces_clean b s : clean b = true → skip_spaces (b :: s) = b :: s.
Proof. intros (E & _)%clean_spec. simpl. by rewrite E. Qed.

Lemma trim_clean s : s ≠ [] → Forall (λ b, clean b = true) s → trim s = s.
Proof.
  intros Hne Hs. unfold trim. destruct s as [|b s]; [done|].
  rewrite skip_spaces_clean by (by apply Forall_cons in Hs as [? _]).
  apply Forall_reverse in Hs. destruct (reverse (b :: s)) as [|c r] eqn:E.
  { apply (f_equal length) in E. by rewrite length_reverse in E. }
  rewrite skip_spaces_clean by (by apply Forall_cons in Hs as [? _]).
  rewrite <- E. apply reverse_involutive.
Qed.

Lemma split_braces_clean s r :
  Forall (λ b, clean b = true) s → split_braces (s ++ "}"%byte :: r) 1 = Some (s, r).
Proof.
  induction 1 as [|b s Hb _ IH]; [done|]. simpl. apply clean_spec in Hb as (_ & Hb1 & Hb2).
  rewrite !bool_decide_false by done. by rewrite IH.
Qed.

Lemma skip_after (d : byte) post :
  clean d = true → post = [] ∨ head post = Some d → skip_spaces post = post.
Proof.
  intros Hd [->|Hp]; [done|]. destruct post as [|c post]; [done|]. injection Hp as ->.
  by apply skip_spaces_clean.
Qed.

Lemma drop_prefix (pre s : bytes) : drop (Z.to_nat (string_size pre)) (pre ++ s) = s.
Proof. unfold string_size. by rewrite Nat2Z.id, drop_app_length. Qed.

Lemma next_token_plain (d : byte) pre tok post e t :
  clean d = true → tok ≠ [] → Forall (λ b, clean b = true) tok → find tok d = npos →
  string_size (pre ++ tok ++ post) < npos → post = [] ∨ head post = Some d →
  next_token (pre ++ tok ++ post) d (string_size pre) e t =
    (OK, match post with [] => npos | _ => string_size pre + string_size tok end, tok).
Proof.
  intros Hd Hne Hc Hf Hsz Hp. pose proof (string_size_nonneg pre) as Hpre.
  rewrite !string_size_app in Hsz. pose proof (string_size_nonneg post).
  assert (d ∉ tok) as Hd' by (apply find_npos; [lia|done]). pose proof (string_size_nonneg tok).
  unfold next_token. rewrite drop_prefix. destruct tok as [|b tok]; [done|].
  pose proof Hc as [Hb _]%Forall_cons. cbn [app].
  rewrite skip_spaces_clean by done. apply clean_spec in Hb as (_ & Hb1 & _). rewrite bool_decide_false by done.
  rewrite string_size_app. change (b :: tok ++ post) with ((b :: tok) ++ post).
  replace (string_size pre + string_size ((b :: tok) ++ post) - string_size ((b :: tok) ++ post))
    with (string_size pre) by lia.
  destruct post as [|c post]; [by rewrite app_nil_r, find_from_notin, Z.eqb_refl, trim_clean by done|].
  destruct Hp as [|Hp]; [done|]. injection Hp as ->.
  rewrite find_from_app by done. rewrite (proj2 (Z.eqb_neq _ _)) by lia.
  rewrite Z.add_simpl_l. unfold substr. rewrite drop_0.
  replace (Z.to_nat (string_size (b :: tok))) with (length (b :: tok)) by (unfold string_size; lia).
  by rewrite take_app_length, trim_clean.
Qed.

Lemma next_token_braced (d : byte) pre tok post e t :
  clean d = true → tok ≠ [] → Forall (λ b, clean b = true) tok →
  post = [] ∨ head post = Some d →
  next_token (pre ++ lit "{" ++ tok ++ lit "}" ++ post) d (string_size pre) e t =
    (OK, string_size pre + string_size tok + 2, tok).
Proof.
  intros Hd Hne Hc Hp. unfold next_token. rewrite drop_prefix. simpl.
  rewrite split_braces_clean, (skip_after d), trim_clean by done.
  assert (string_size (pre ++ "{"%byte :: tok ++ "}"%byte :: post)
          = string_size pre + string_size tok + 2 + string_size post) as ->.
  { unfold string_size. rewrite length_app. simpl. rewrite length_app. simpl. lia. }
  destruct post as [|c post]; [by rewrite Z.add_0_r|].
  destruct Hp as [|Hp]; [done|]. injection Hp as ->. rewrite bool_decide_true by done.
  by rewrite Z.add_simpl_r.
Qed.

#[export] Instance concrete_tokenizer_ok : TokenizerOk concrete_tokenizer.
Proof. split; intros; [by apply next_token_plain|by apply next_token_braced]. Qed.

(** ** Implementations for the concrete cases *)

(** Parsing, printing and comparing with the installed functions. *)
#[export] Instance func_info_impl D C : InfoImpl D C := {|
  Parse A i opts name value addr :=
    match parse_func_ i with
    | Some f => f opts name value addr
    | None => Some (NotSupported_sub kNone, addr)
    end;
  Serialize A i opts name addr value :=
    match serialize_func_ i with
    | Some f => f opts name addr value
    | None => (NotSupported_sub kNone, value)
    end;
  AreEqual A i opts name addr1 addr2 mismatch :=
    match equals_func_ i with
    | Some f => f opts name addr1 addr2 mismatch
    | None => (false, mismatch)
    end;
|}.

Definition demo_config : ConfigOptions := ConfigOptions_default 0 0.
Definition demo_map : list (bytes * Z) := [(lit "lz4", 4); (lit "zstd", 7); (lit "none", 0); (lit "x:y", 9)].
Definition demo_enum : OptionTypeInfo unit unit Z :=
  Enum (I := concrete_impl) 0 (Some demo_map) Flags.kNone kNormal.

(** ** Properties *)

Lemma InvalidArgument_is `{I : StatusImpl, !StatusImplOk I} m m2 :
  IsInvalidArgument (InvalidArgument m m2) = true.
Proof.
  unfold IsInvalidArgument, has_code, code, InvalidArgument, Status_code_msgs.
  by rewrite (proj1 (Status_msgs_codes _ _ _ _ _)), bool_decide_true.
Qed.

Lemma NotSupported_is `{I : StatusImpl, !StatusImplOk I} m m2 :
  IsNotSupported (NotSupported m m2) = true.
Proof.
  unfold IsNotSupported, has_code, code, NotSupported, Status_code_msgs.
  by rewrite (proj1 (Status_msgs_codes _ _ _ _ _)), bool_decide_true.
Qed.

Lemma map_find_in {T} (m : list (bytes * T)) k v :
  NoDup (fst <$> m) → (k, v) ∈ m → map_find m k = Some v.
Proof.
  induction m as [|[k' v'] m IH]; simpl; intros Hn Hin; [set_solver|].
  apply NoDup_cons in Hn as [Hk Hn]. apply elem_of_cons in Hin as [[= -> ->]|Hin].
  - by rewrite bool_decide_true.
  - rewrite bool_decide_false; [by apply IH|]. intros ->. apply Hk.
    apply list_elem_of_fmap. by exists (k, v).
Qed.

Lemma SerializeEnum_cases {T} `{!EqDecision T} (m : list (bytes * T)) x s0 :
  (∃ k, SerializeEnum m x s0 = (true, k) ∧ (k, x) ∈ m) ∨
  SerializeEnum m x s0 = (false, s0) ∧ x ∉ snd <$> m.
Proof.
  induction m as [|[k v] m IH]; simpl; [right; set_solver|]. case_bool_decide as Hv.
  - left. exists k. subst. split; [done|]. by left.
  - destruct IH as [(k' & -> & Hin)|[-> Hin]]; [left; exists k'; split; [done|by right]|].
    right. split; [done|]. simpl. set_solver.
Qed.

(** The enum descriptor prints and parses consistently: a printed
    value parses back to the same enumerator; a value without a name is refused
    with [InvalidArgument] and the output is unchanged; an unknown name is
    refused with [InvalidArgument] and the option is unchanged; a missing map is
    [NotSupported]. *)
Theorem enum_roundtrip `{I : StatusImpl, !StatusImplOk I} {D C T} `{!EqDecision T}
    (offset flags : Z) (v : OptionVerificationType) (m : list (bytes * T))
    (opts : ConfigOptions) (name : bytes) (x old : T) (s0 : bytes) :
  NoDup (fst <$> m) →
  let info := Enum (D := D) (C := C) offset (Some m) flags v in
  (x ∈ snd <$> m → ∃ s, Serialize info opts name x s0 = (OK, s) ∧
     Parse info opts name s old = Some (OK, x)) ∧
  (x ∉ snd <$> m → ∃ st, Serialize info opts name x s0 = (st, s0) ∧ IsInvalidArgument st = true) ∧
  (s0 ∉ fst <$> m → ∃ st, Parse info opts name s0 old = Some (st, old) ∧
     IsInvalidArgument st = true) ∧
  (∃ st, Parse (Enum (D := D) (C := C) offset None flags v) opts name s0 old = Some (st, old) ∧
     IsNotSupported st = true).
Proof.
  intros Hn info. simpl. unfold ParseEnum. split_and!.
  - intros Hx. destruct (SerializeEnum_cases m x s0) as [(k & -> & Hk)|[_ Hx']]; [|done].
    exists k. split; [done|]. by rewrite (map_find_in m k x).
  - intros Hx. destruct (SerializeEnum_cases m x s0) as [(k & _ & Hk)|[-> _]].
    + exfalso. apply Hx. apply list_elem_of_fmap. by exists (k, x).
    + eexists. split; [done|]. apply InvalidArgument_is.
  - intros Hs. replace (map_find m s0) with (@None T).
    + eexists. split; [done|]. apply InvalidArgument_is.
    + clear Hn info. induction m as [|[k y] m IH]; [done|]. simpl in *.
      rewrite bool_decide_false by set_solver. apply IH. set_solver.
  - eexists. split; [done|]. apply NotSupported_is.
Qed.

Lemma enum_roundtrip_witness :
  ∃ s, Serialize demo_enum demo_config (lit "compression") 7 [] = (OK, s) ∧
       Parse demo_enum demo_config (lit "compression") s 0 = Some (OK, 7).
Proof.
  apply (enum_roundtrip (I := concrete_impl) 0 Flags.kNone kNormal demo_map demo_config
    (lit "compression") 7 0 []).
  - apply (bool_decide_unpack _). vm_compute. done.
  - apply (bool_decide_unpack _). vm_compute. done.
Defined.

(** What the descriptor of the elements must do for a sequence to be read back:
    it prints [x] as the non-empty clean token [ser x] without [=], and parses
    that token to [x]. *)
Definition reads_back `{II : InfoImpl D C} {T} (elem_info : OptionTypeInfo D C T)
    (opts : ConfigOptions) (name : bytes) (elem0 : T) (ser : T → bytes) (x : T) : Prop :=
  Serialize elem_info (with_delimiter opts (lit ";")) name x [] = (OK, ser x) ∧
  ser x ≠ [] ∧ Forall (λ b, clean b = true) (ser x) ∧ "="%byte ∉ ser x ∧
  ∃ st, Parse elem_info (with_ignore_unsupported opts false) name (ser x) elem0 = Some (st, x) ∧
        ok st = true.

Lemma token_repr_notin d c t : c ∉ t → c ≠ "{"%byte → c ≠ "}"%byte → c ∉ token_repr d t.
Proof. unfold token_repr. case_match; simpl; set_solver. Qed.

Lemma join_notin d c toks :
  c ≠ d → c ≠ "{"%byte → c ≠ "}"%byte → Forall (λ t, c ∉ t) toks → c ∉ join d toks.
Proof.
  intros Hd H1 H2. destruct toks as [|t toks]; [set_solver|]. simpl.
  intros [Ht Htoks]%Forall_cons. rewrite elem_of_app. intros [Hc|Hc].
  - by eapply token_repr_notin.
  - revert Hc. induction Htoks as [|t' toks Ht' _ IH]; simpl; [set_solver|].
    rewrite elem_of_cons, elem_of_app. intros [Hc|[Hc|Hc]]; [done| |by apply IH].
    by eapply (token_repr_notin d c t').
Qed.

(** Printing a sequence of elements that are read back, as long as the whole is
    not put in braces. *)
Lemma serialize_join `{II : InfoImpl D C} {T} (elem_info : OptionTypeInfo D C T) sep embedded name
    (ser : T → bytes) elems :
  Forall (λ x, Serialize elem_info embedded name x [] = (OK, ser x) ∧ ser x ≠ []) elems →
  serialize_loop elem_info sep embedded name elems [] 0 =
    inr (join sep (ser <$> elems), Z.of_nat (length elems)).
Proof.
  destruct elems as [|x elems]; intros Hs; [done|]. apply Forall_cons in Hs as [[Hx Hne] Hs].
  cbn [serialize_loop]. rewrite Hx. change (ok OK) with true. cbn [negb].
  destruct (ser x) as [|b bs] eqn:Ex; [done|].
  replace (string_size (b :: bs) =? 0) with false
    by (symmetry; apply Z.eqb_neq; unfold string_size; simpl; lia).
  cbn [negb]. rewrite Z.ltb_irrefl. rewrite (serialize_loop_tokens _ _ _ _ ser) by (done || lia).
  f_equal. f_equal; [|simpl; lia]. rewrite fmap_cons, Ex. unfold join, token_repr.
  by destruct (negb _).
Qed.

Lemma serialize_result_plain d toks :
  d ≠ "="%byte → tokens_ok toks → Forall (λ t, "="%byte ∉ t) toks →
  (length toks ≤ 1)%nat ∨ (∃ t, head toks = Some t ∧ d ∉ t) →
  serialize_result (join d toks) (Z.of_nat (length toks)) = join d toks.
Proof.
  intros Hd Htoks Heq Hfirst. unfold serialize_result, find.
  rewrite find_from_notin, Z.eqb_refl by (by apply join_notin). simpl.
  destruct toks as [|t toks]; [done|]. destruct Hfirst as [Hl|(t' & [= <-] & Ht')].
  { rewrite (proj2 (Z.ltb_ge _ _)) by lia. done. }
  apply Forall_cons in Htoks as [[Hne Hc] _]. simpl. unfold token_repr, find.
  rewrite find_from_notin, Z.eqb_refl by done. simpl. destruct t as [|b t]; [done|]. simpl.
  apply Forall_cons in Hc as [(_ & Hb & _)%clean_spec _].
  rewrite (bool_decide_false (Some b = _)) by congruence. by rewrite andb_false_r.
Qed.

Lemma length_join d toks : tokens_ok toks → (length toks ≤ length (join d toks))%nat.
Proof.
  destruct toks as [|t toks]; simpl; [lia|]. intros [[Ht _] Htoks]%Forall_cons.
  pose proof (token_repr_nonempty d t Ht) as H1. unfold string_size in H1. rewrite length_app.
  assert (length toks ≤ length (concat ((λ t, d :: token_repr d t) <$> toks)))%nat; [|lia].
  clear. induction toks as [|t' toks IH]; csimpl; [lia|]. rewrite length_app. lia.
Qed.



(** A fixed-size array option accepts exactly as many tokens as it
    has elements: with that many the array holds what the tokens parse to; with
    fewer or with more the result is [InvalidArgument]. *)
Theorem array_exact_count `{I : StatusImpl, !StatusImplOk I, TK : Tokenizer, !TokenizerOk TK} {D C}
    `{II : InfoImpl D C} {T} (elem_info : OptionTypeInfo D C T) (separator : byte)
    (opts : ConfigOptions) (name : bytes) (toks : list bytes) (xs array : list T) :
  clean separator = true → tokens_ok toks →
  Forall2 (λ t x, ∀ old, ∃ st,
    Parse elem_info (with_ignore_unsupported opts false) name t old = Some (st, x) ∧
    ok st = true) toks xs →
  string_size (join separator toks) < npos →
  ∃ st array', ParseArray elem_info separator opts name (join separator toks) array
                 = Some (st, array') ∧
    (length toks = length array → ok st = true ∧ array' = xs) ∧
    (length toks ≠ length array → IsInvalidArgument st = true).
Proof.
  intros Hsep Htoks Hxs Hsz. pose proof (Forall2_length _ _ _ Hxs) as Hlen.
  pose proof (length_join separator toks Htoks) as Hj.
  destruct (parse_array_loop_tokens elem_info separator opts name (join separator toks) Hsep Hsz
    toks xs Hxs (S (S (length (join separator toks)))) Status_new 0 0 0 array)
    as (st & start & e & Hloop & Hok & Hat); try done; try lia.
  { pose proof (at_tokens_start separator toks [] ltac:(by left) ltac:(done)) as H.
    by rewrite app_nil_r in H. }
  unfold ParseArray. rewrite Hloop, Hok. simpl. rewrite Nat.sub_0_r in *.
  set (array' := take (length array) xs ++ drop (length toks) array).
  assert (length array' = length array) as Hlen'.
  { unfold array'. rewrite length_app, length_take, length_drop. lia. }
  rewrite Hlen'. destruct (Nat.ltb_spec (Nat.min (length array) (length toks)) (length array)).
  - eexists _, _. split; [done|]. split; [lia|]. intros _. apply InvalidArgument_is.
  - destruct (drop (length array) toks) as [|t rest] eqn:Ed.
    + apply (f_equal length) in Ed. rewrite length_drop in Ed. simpl in Ed, Hat. rewrite Hat.
      eexists _, _. split; [done|]. split; [|lia]. intros Heq. split; [done|].
      unfold array'. rewrite take_ge, drop_ge by lia. apply app_nil_r.
    + assert (tokens_ok (t :: rest)) as Hrest by (rewrite <- Ed; by apply Forall_drop).
      destruct (at_tokens_next separator _ start e t rest Hsep Hrest Hsz Hat) as (-> & -> & _).
      simpl. apply (f_equal length) in Ed. rewrite length_drop in Ed. simpl in Ed.
      eexists _, _. split; [done|]. split; [lia|]. intros _. apply InvalidArgument_is.
Qed.

Lemma array_exact_count_witness :
  ∃ st, ParseArray (I := concrete_impl) demo_enum ":"%byte demo_config (lit "pair")
          (lit "zstd:lz4") [0; 0] = Some (st, [7; 4]) ∧ ok st = true.
Proof.
  destruct (array_exact_count (I := concrete_impl) demo_enum ":"%byte demo_config (lit "pair")
    [lit "zstd"; lit "lz4"] [7; 4] [0; 0]) as (st & a & H & Heq & _).
  - reflexivity.
  - repeat constructor; done.
  - repeat constructor; intros; by eexists.
  - reflexivity.
  - destruct (Heq eq_refl) as [Hok ->]. by exists st.
Defined.

(** ** String maps *)

(** The documented behaviour of the hexadecimal conversions: upper-case digits,
    which decode to the bytes they encode. *)
Definition is_hex (b : byte) : bool := bool_decide (b ∈ lit "0123456789ABCDEF").

Class HexOk (HX : HexImpl) : Prop := {
  ToString_hex_digits s : Forall (λ b, is_hex b = true) (ToString_hex (Slice_string s));
  DecodeHex_ToString s : DecodeHex (Slice_string (ToString_hex (Slice_string s))) = (true, s);
}.

Lemma hex_clean b : is_hex b = true → clean b = true ∧ b ≠ "="%byte ∧ b ≠ ";"%byte.
Proof.
  unfold is_hex. intros H%bool_decide_eq_true. cbn in H.
  repeat (apply elem_of_cons in H as [->|H]; [done|]). by apply elem_of_nil in H.
Qed.

Lemma at_tokens_size d value start e t toks :
  at_tokens d value start e (t :: toks) → string_size t ≤ string_size value.
Proof.
  intros (pre & tail & -> & _). rewrite join_cons, !string_size_app.
  pose proof (string_size_nonneg pre). pose proof (string_size_nonneg (after_token d toks tail)).
  enough (string_size t ≤ string_size (token_repr d t)) by lia.
  unfold token_repr. case_match; [|done]. rewrite !string_size_app. unfold string_size. simpl. lia.
Qed.

Section StringMapLemmas.
Context `{TK : Tokenizer, !TokenizerOk TK, HX : HexImpl, !HexOk HX}.

(** The token of an entry. *)
Definition map_token (p : bytes * bytes) : bytes :=
  ToString_hex (Slice_string p.1) ++ "="%byte :: ToString_hex (Slice_string p.2).

Lemma hex_token_clean s :
  Forall (λ b, clean b = true) (ToString_hex (Slice_string s)) ∧
  "="%byte ∉ ToString_hex (Slice_string s) ∧ ";"%byte ∉ ToString_hex (Slice_string s).
Proof.
  pose proof (ToString_hex_digits s) as H. split_and!.
  - eapply Forall_impl; [exact H|]. intros b Hb. by apply hex_clean.
  - intros Hin. rewrite Forall_forall in H. by apply H, hex_clean in Hin as (_ & ? & _).
  - intros Hin. rewrite Forall_forall in H. by apply H, hex_clean in Hin as (_ & _ & ?).
Qed.

Lemma map_token_ok m : tokens_ok (map_token <$> m).
Proof.
  apply Forall_fmap, Forall_true. intros [k v]. unfold map_token. simpl. split.
  - intros H. apply (f_equal length) in H. rewrite length_app in H. simpl in H. lia.
  - apply Forall_app. split; [apply hex_token_clean|]. constructor; [done|apply hex_token_clean].
Qed.

Lemma map_token_repr p : token_repr ";"%byte (map_token p) = map_token p.
Proof.
  destruct p as [k v]. unfold token_repr, find, map_token. simpl.
  rewrite find_from_notin; [by rewrite Z.eqb_refl|].
  rewrite elem_of_app, elem_of_cons. intros [H|[H|H]]; [|done|]; by apply hex_token_clean in H.
Qed.

(** Splitting the token of an entry at the separator. *)
Lemma map_token_split k v :
  let hk := ToString_hex (Slice_string k) in
  find (map_token (k, v)) "="%byte = string_size hk ∧
  substr (map_token (k, v)) 0 (string_size hk) = hk ∧
  drop (Z.to_nat (string_size hk + 1)) (map_token (k, v)) = ToString_hex (Slice_string v).
Proof.
  intros hk. unfold map_token, find, substr. cbn [fst snd]. fold hk.
  rewrite find_from_app, Z.add_0_l by apply hex_token_clean. split; [done|].
  change (Z.to_nat 0) with 0%nat. rewrite drop_0. unfold string_size. rewrite Nat2Z.id.
  split; [apply take_app_length|]. replace (Z.to_nat _) with (length hk + 1)%nat by lia.
  by rewrite drop_app_add'.
Qed.

(** A key larger than all the present ones goes to the end. *)
Lemma map_emplace_last m k v :
  Forall (λ p, lex_cmp p.1 k < 0) m → map_emplace m k v = m ++ [(k, v)].
Proof.
  induction 1 as [|[k' v'] m Hk _ IH]; [done|]. simpl in *.
  rewrite (proj2 (Z.ltb_ge _ _)); [|rewrite lex_cmp_antisym; lia].
  rewrite (proj2 (Z.ltb_lt _ _)) by done. by rewrite IH.
Qed.

Lemma parse_map_loop_tokens value m2 : string_size value < npos → ∀ fuel st start e m1,
  StronglySorted (λ p q, lex_cmp p.1 q.1 < 0) (m1 ++ m2) →
  at_tokens ";"%byte value start e (map_token <$> m2) → (length m2 < fuel)%nat → ok st = true →
  ∃ st', parse_map_loop fuel "="%byte ";"%byte value st start e m1 = Some (st', m1 ++ m2) ∧
         ok st' = true.
Proof.
  intros Hsz. induction m2 as [|[k v] m2 IH]; intros fuel st start e m1 Hsort Hat Hfuel Hst;
    (destruct fuel as [|fuel]; [simpl in Hfuel; lia|]); cbn [parse_map_loop]; rewrite Hst.
  { simpl in *. rewrite Hat, app_nil_r. by exists st. }
  pose proof (map_token_ok ((k, v) :: m2)) as Htoks.
  destruct (at_tokens_next ";"%byte value start e _ _ eq_refl Htoks Hsz Hat)
    as (-> & -> & e' & -> & Hat').
  cbn [andb negb]. change (ok OK) with true. cbn [andb negb].
  apply Forall_cons in Htoks as [[Hne _] _].
  replace (string_size (map_token (k, v)) =? 0) with false.
  2:{ symmetry. apply Z.eqb_neq. unfold string_size. destruct (map_token (k, v)); [done|simpl; lia]. }
  destruct (map_token_split k v) as (-> & Hk & Hv). apply at_tokens_size in Hat.
  unfold map_token in Hat. cbn [fst snd] in Hat. rewrite string_size_app in Hat.
  pose proof (string_size_nonneg ("="%byte :: ToString_hex (Slice_string v))).
  cbn [negb]. rewrite (proj2 (Z.eqb_neq _ _)) by lia.
  rewrite Hk, Hv, !DecodeHex_ToString. cbn [snd]. rewrite map_emplace_last.
  - destruct (IH fuel OK (u64_add e' 1) e' (m1 ++ [(k, v)])) as (st' & -> & Hst'); try done.
    + by rewrite <- app_assoc.
    + simpl in *. lia.
    + exists st'. by rewrite <- app_assoc.
  - apply Forall_forall. intros p Hp. apply StronglySorted_app in Hsort as (Hs & _).
    apply (Hs p (k, v)); [done|by left].
Qed.

Lemma string_map_inner m :
  concat ((λ '(k, v), ToString_hex (Slice_string k) ++ ["="%byte]
             ++ ToString_hex (Slice_string v) ++ [";"%byte]) <$> m)
  = join ";"%byte (map_token <$> m) ++ match m with [] => [] | _ => [";"%byte] end.
Proof.
  rewrite (list_fmap_ext _ (λ p, map_token p ++ [";"%byte])).
  2:{ intros _ [k v] _. unfold map_token. by rewrite <- app_assoc. }
  assert (∀ m, ";"%byte :: concat ((λ p, map_token p ++ [";"%byte]) <$> m) =
    concat ((λ t, ";"%byte :: token_repr ";"%byte t) <$> (map_token <$> m)) ++ [";"%byte]) as H.
  { clear m. induction m as [|p m IH]; [done|]. csimpl.
    by rewrite map_token_repr, <- !app_assoc, <- IH. }
  destruct m as [|p m]; [done|]. csimpl. by rewrite map_token_repr, <- !app_assoc, <- H.
Qed.

End StringMapLemmas.

(** A hexadecimal conversion, for the concrete cases. *)
Definition hex_digit (n : Z) : byte := nth (Z.to_nat n) (lit "0123456789ABCDEF") x00.
Definition hex_encode (s : bytes) : bytes :=
  b ← s; [hex_digit (byte_val b / 16); hex_digit (byte_val b mod 16)].
Definition hex_value (b : byte) : option Z :=
  Z.of_nat <$> (fst <$> list_find (b =.) (lit "0123456789ABCDEF")).
Fixpoint hex_decode (s : bytes) : option bytes :=
  match s with
  | [] => Some []
  | a :: b :: s' =>
      match hex_value a, hex_value b, hex_decode s' with
      | Some x, Some y, Some r => (λ c, c :: r) <$> Byte.of_N (Z.to_N (16 * x + y))
      | _, _, _ => None
      end
  | [_] => None
  end.

#[export] Instance concrete_hex : HexImpl := {|
  ToString_hex s := hex_encode (ToStringView s);
  DecodeHex s := match hex_decode (ToStringView s) with Some r => (true, r) | None => (false, []) end;
|}.

Lemma hex_byte_roundtrip b :
  hex_decode [hex_digit (byte_val b / 16); hex_digit (byte_val b mod 16)] = Some [b] ∧
  is_hex (hex_digit (byte_val b / 16)) = true ∧ is_hex (hex_digit (byte_val b mod 16)) = true.
Proof. destruct b; vm_compute; done. Qed.

Lemma hex_decode_app2 a b s x r :
  hex_decode [a; b] = Some [x] → hex_decode s = Some r → hex_decode (a :: b :: s) = Some (x :: r).
Proof.
  simpl. intros H Hs. rewrite Hs. destruct (hex_value a), (hex_value b); [|done..].
  by destruct (Byte.of_N _); simplify_eq/=.
Qed.

Lemma ToStringView_string s : ToStringView (Slice_string s) = s.
Proof. unfold ToStringView, Slice_string. simpl. rewrite Nat2Z.id. apply take_ge. done. Qed.

#[export] Instance concrete_hex_ok : HexOk concrete_hex.
Proof.
  split; intros s; simpl; rewrite !ToStringView_string.
  - induction s as [|b s IH]; [constructor|]. destruct (hex_byte_roundtrip b) as (_ & H1 & H2).
    by repeat constructor.
  - enough (hex_decode (hex_encode s) = Some s) as -> by done.
    induction s as [|b s IH]; [done|]. destruct (hex_byte_roundtrip b) as (H & _).
    by apply hex_decode_app2.
Qed.

(** A string-map option is read back as it was written: the output
    of the serializer is a brace, entries in hexadecimal, and a brace; parsing
    what is between the braces gives the same map. *)
Theorem string_map_roundtrip `{TK : Tokenizer, !TokenizerOk TK, HX : HexImpl, !HexOk HX} {D C}
    (offset flags : Z) (v : OptionVerificationType) (opts : ConfigOptions) (name : bytes)
    (m m0 : list (bytes * bytes)) :
  StronglySorted (λ p q, lex_cmp p.1 q.1 < 0) m →
  let info := StringMap (D := D) (C := C) offset v flags "="%byte ";"%byte in
  ∃ inner, Serialize info opts name m [] = (OK, lit "{" ++ inner ++ lit "}") ∧
    (string_size inner < npos →
     ∃ st, Parse info opts name inner m0 = Some (st, m) ∧ ok st = true).
Proof.
  intros Hm info. eexists. split; [done|]. rewrite string_map_inner. intros Hsz. simpl.
  unfold string_map_parse. set (tail := match m with [] => [] | _ => [";"%byte] end) in *.
  destruct (parse_map_loop_tokens _ m Hsz
    (S (S (length (join ";"%byte (map_token <$> m) ++ tail)))) Status_new 0 0 []) as (st & -> & Hst);
    try done.
  - apply at_tokens_start; [unfold tail; destruct m; auto|]. by destruct m.
  - pose proof (length_join ";"%byte _ (map_token_ok m)). rewrite length_fmap in *.
    rewrite length_app. lia.
  - exists st. by rewrite Hst.
Qed.

Lemma string_map_roundtrip_witness :
  let m := [(lit "", lit "x"); (lit "a;b", lit "1"); (lit "k=", lit "")] in
  let info := StringMap (D := unit) (C := unit) 0 kNormal 0 "="%byte ";"%byte in
  ∃ inner, Serialize info demo_config (lit "props") m [] = (OK, lit "{" ++ inner ++ lit "}") ∧
    (string_size inner < npos →
     ∃ st, Parse info demo_config (lit "props") inner [] = Some (st, m) ∧ ok st = true).
Proof.
  intros m info. apply (string_map_roundtrip 0 0 kNormal demo_config (lit "props") m []).
  repeat constructor.
Defined.

(** ** Flags *)

(** The single-bit flags, beside the comparison level in the low byte. *)
Definition bit_flags : list Z :=
  [Flags.kMutable; Flags.kRawPointer; Flags.kShared; Flags.kUnique; Flags.kAllowNull;
   Flags.kDontSerialize; Flags.kDontPrepare; Flags.kStringNameOnly].

(** The comparison levels an option can be declared with. *)
Definition compare_levels : list Z :=
  [Flags.kCompareDefault; Flags.kCompareNever; Flags.kCompareLoose; Flags.kCompareExact].

(** The flags an option is declared with: a level and any of the single bits. *)
Definition declared_flags (level : Z) (fs : list Z) : Z := foldr Flags.flags_or level fs.

Lemma bit_flags_pow2 f : f ∈ bit_flags → ∃ n, 8 ≤ n ∧ f = 2 ^ n.
Proof.
  intros H. cbn in H. repeat (apply elem_of_cons in H as [->|H]).
  1-8: match goal with |- ∃ n, _ ∧ ?f = _ => exists (Z.log2 f); by split end.
  by apply elem_of_nil in H.
Qed.

Lemma land_pow2_eqb x n : 0 ≤ n → (Z.land x (2 ^ n) =? 2 ^ n) = Z.testbit x n.
Proof.
  intros Hn. destruct (Z.testbit x n) eqn:E.
  - apply Z.eqb_eq. apply Z.bits_inj'. intros i Hi. rewrite Z.land_spec, Z.pow2_bits_eqb by done.
    destruct (Z.eqb_spec n i) as [->|]; [by rewrite E|by rewrite andb_false_r].
  - apply Z.eqb_neq. intros H. apply (f_equal (λ z, Z.testbit z n)) in H.
    rewrite Z.land_spec, Z.pow2_bits_true, E in H by done. done.
Qed.

Lemma declared_flags_enabled level fs f :
  level ∈ compare_levels → Forall (.∈ bit_flags) fs → f ∈ bit_flags →
  (Z.land (declared_flags level fs) f =? f) = bool_decide (f ∈ fs).
Proof.
  intros Hl Hfs (n & Hn & ->)%bit_flags_pow2. rewrite land_pow2_eqb by lia.
  induction Hfs as [|g fs Hg _ IH].
  - rewrite bool_decide_false by set_solver. cbn in Hl.
    repeat (apply elem_of_cons in Hl as [->|Hl]; [apply Z.bits_above_log2; [done|simpl; lia]|]).
    by apply elem_of_nil in Hl.
  - change (declared_flags level (g :: fs)) with (Z.lor g (declared_flags level fs)).
    rewrite Z.lor_spec, IH. apply bit_flags_pow2 in Hg as (m & Hm & ->).
    rewrite Z.pow2_bits_eqb by lia. destruct (Z.eqb_spec m n) as [->|Hne]; simpl.
    + by rewrite bool_decide_true by set_solver.
    + apply bool_decide_ext. rewrite elem_of_cons. split; [by right|]. intros [Heq|]; [|done].
      apply Z.pow_inj_r in Heq; lia.
Qed.

Lemma declared_flags_level level fs :
  level ∈ compare_levels → Forall (.∈ bit_flags) fs →
  Z.land (declared_flags level fs) Flags.kCompareExact = level.
Proof.
  intros Hl Hfs. induction Hfs as [|g fs Hg _ IH]; simpl.
  - cbn in Hl. repeat (apply elem_of_cons in Hl as [->|Hl]; [done|]). by apply elem_of_nil in Hl.
  - unfold Flags.flags_or. rewrite Z.land_lor_distr_l, IH.
    cbn in Hg. repeat (apply elem_of_cons in Hg as [->|Hg]; [done|]). by apply elem_of_nil in Hg.
Qed.

(** The flags of an option are independent: declared with one
    comparison level and any set of single-bit flags, each flag reads back as
    set exactly when it was given, and the comparison level reads back as
    declared, with exact matching by default; a deprecated option or an alias is
    neither compared, serialized, prepared nor validated. *)
Theorem flags_independent {D C A} (i : OptionTypeInfo D C A) (level : Z) (fs : list Z) :
  level ∈ compare_levels → Forall (.∈ bit_flags) fs → flags_ i = declared_flags level fs →
  (∀ f, f ∈ bit_flags → IsEnabled i f = bool_decide (f ∈ fs)) ∧
  (if IsDeprecated i || IsAlias i
   then GetSanityLevel i = kSanityLevelNone ∧ ShouldSerialize i = false ∧
        ShouldPrepare i = false ∧ ShouldValidate i = false
   else GetSanityLevel i = (if level =? Flags.kCompareDefault then kSanityLevelExactMatch else level) ∧
        ShouldSerialize i = bool_decide (Flags.kDontSerialize ∉ fs) ∧
        (ShouldPrepare i = true ↔ Flags.kDontPrepare ∉ fs ∧
           (is_Some (prepare_func_ i) ∨ IsConfigurable i = true))).
Proof.
  intros Hl Hfs Hi.
  assert (∀ f, f ∈ bit_flags → IsEnabled i f = bool_decide (f ∈ fs)) as Hen.
  { intros f Hf. unfold IsEnabled. rewrite Hi. by apply declared_flags_enabled. }
  split; [done|]. unfold GetSanityLevel, ShouldSerialize, ShouldPrepare, ShouldValidate.
  destruct (IsDeprecated i || IsAlias i); [done|].
  rewrite !Hen by (apply (bool_decide_unpack _); by vm_compute).
  unfold Flags.flags_and. rewrite Hi, declared_flags_level by done. split_and!; [done| |].
  - repeat case_bool_decide; tauto.
  - case_bool_decide; [naive_solver|]. unfold is_Some. destruct (prepare_func_ i); naive_solver.
Qed.

Lemma flags_independent_witness :
  let i : OptionTypeInfo unit unit Z := SetFlags demo_enum
    (Flags.flags_or Flags.kMutable (Flags.flags_or Flags.kShared Flags.kCompareLoose)) in
  IsMutable i = true ∧ IsSharedPtr i = true ∧ IsUniquePtr i = false ∧
  GetSanityLevel i = kSanityLevelLooselyCompatible.
Proof.
  intros i. destruct (flags_independent i Flags.kCompareLoose [Flags.kMutable; Flags.kShared])
    as [H1 H2].
  - by apply (bool_decide_unpack _).
  - by apply (bool_decide_unpack _).
  - reflexivity.
  - unfold IsMutable, IsSharedPtr, IsUniquePtr.
    rewrite !H1 by (apply (bool_decide_unpack _); by vm_compute).
    split_and!; [reflexivity..|]. exact (proj1 H2).
Defined.

(** The comparison of sequences: arrays of one size are equal exactly
    when all elements are, the first unequal pair decides the reported
    mismatch, and vectors of different sizes differ under the option's name. *)
Theorem sequences_equal_spec `{II : InfoImpl D C} {T} (elem_info : OptionTypeInfo D C T)
    (opts : ConfigOptions) (name : bytes) (l1 l2 : list T) (mismatch : bytes) :
  (length l1 ≠ length l2 → VectorsAreEqual elem_info opts name l1 l2 mismatch = (false, name)) ∧
  (length l1 = length l2 →
   VectorsAreEqual elem_info opts name l1 l2 mismatch
     = ArraysAreEqual elem_info opts name l1 l2 mismatch ∧
   ((∀ m x y, snd (AreEqual elem_info opts name x y m) = m ∨ fst (AreEqual elem_info opts name x y m) = false) →
    (∀ m m' x y, fst (AreEqual elem_info opts name x y m) = fst (AreEqual elem_info opts name x y m')) →
    (fst (ArraysAreEqual elem_info opts name l1 l2 mismatch) = true ↔
     Forall2 (λ x y, fst (AreEqual elem_info opts name x y mismatch) = true) l1 l2))).
Proof.
  unfold VectorsAreEqual, ArraysAreEqual. split.
  - intros Hne. by rewrite (proj2 (Nat.eqb_neq _ _)).
  - intros Hlen. rewrite Hlen, Nat.eqb_refl. split; [done|]. intros Hsame Hind.
    revert l2 Hlen. induction l1 as [|x l1 IH]; intros [|y l2] Hlen; try done.
    simpl. destruct (AreEqual elem_info opts name x y mismatch) as [eq m'] eqn:E.
    rewrite Forall2_cons, E. simpl. destruct eq; simpl; [|naive_solver].
    destruct (Hsame mismatch x y) as [Hm|Hm]; rewrite E in Hm; simpl in Hm; [|done]. subst m'.
    rewrite IH by (simpl in Hlen; lia). naive_solver.
Qed.

Lemma sequences_equal_spec_witness :
  fst (ArraysAreEqual demo_enum demo_config (lit "n") [1; 2] [1; 3] []) = true ↔
  Forall2 (λ x y, fst (AreEqual demo_enum demo_config (lit "n") x y []) = true) [1; 2] [1; 3].
Proof.
  apply (sequences_equal_spec demo_enum demo_config (lit "n") [1; 2] [1; 3] []).
  - reflexivity.
  - intros m x y. by left.
  - done.
Defined.
