(* ===== verification/Pinnable.v ===== *)
(** * Pinned values (libs/rocksdb/cleanable.h, slice.h, wide_columns.h,
    attribute_groups.h and the managed pointer of data_structure.h)

    A [Cleanable] owns cleanups that run when it is reset or destroyed.  A
    [PinnableSlice] is a slice that either owns its bytes in a buffer or is
    pinned to bytes kept alive by its cleanups.  [PinnableWideColumns] indexes
    the columns of a value held in a pinnable slice, and the attribute groups
    pair such columns with a column family.  [ManagedPtr] gives an object back
    to its owner.

    A slice is the bytes it refers to, so that two buffers with equal contents
    are not told apart; where the code compares the addresses of two buffers,
    the outcome is an argument.  The functions the headers declare without a
    body are the fields of [CleanableImpl] and [ColumnsImpl]. *)

From stdpp Require Import base list gmap strings.
From Stdlib Require Import ZArith Lia.
From Stdlib.Strings Require Import Byte.
From S2P Require Import Prelude Slice Status.

Open Scope Z_scope.

(** ** Cleanable *)

(** Function pointers and arguments are addresses; 0 is null. *)
Record Cleanup := mkCleanup { function : Z; arg1 : Z; arg2 : Z }.

(** The inline cleanup and the linked list behind [next]. *)
Record Cleanable := mkCleanable { cleanup_ : Cleanup; next : list Cleanup }.

Definition Cleanable_new : Cleanable := mkCleanable (mkCleanup 0 0 0) [].

Definition HasCleanups (c : Cleanable) : bool := negb (function (cleanup_ c) =? 0).

(** The calls made, in order. *)
Definition DoCleanup (c : Cleanable) : list Cleanup :=
  if negb (function (cleanup_ c) =? 0) then cleanup_ c :: next c else [].

(** The calls made and the object after them. *)
Definition Cleanable_Reset (c : Cleanable) : list Cleanup * Cleanable :=
  (DoCleanup c, mkCleanable (mkCleanup 0 (arg1 (cleanup_ c)) (arg2 (cleanup_ c))) []).

(** What cleanable.h declares and does not define. [DelegateCleanupsTo c other]
    is the new [c] and the new [other]. *)
Class CleanableImpl := {
  RegisterCleanup : Cleanable → Cleanup → Cleanable;
  DelegateCleanupsTo : Cleanable → Cleanable → Cleanable * Cleanable;
}.

(** The documented behaviour: a registered cleanup is added to the pending
    ones, and delegation moves all of them. *)
Class CleanableOk (I : CleanableImpl) : Prop := {
  RegisterCleanup_pending c x :
    function x ≠ 0 → DoCleanup (RegisterCleanup c x) ≡ₚ x :: DoCleanup c;
  DelegateCleanupsTo_pending c other :
    let '(c', other') := DelegateCleanupsTo c other in
    DoCleanup c' = [] ∧ DoCleanup other' ≡ₚ DoCleanup other ++ DoCleanup c;
}.

(** ** PinnableSlice *)

(** [base] is the slice, [buf] the contents of the string [buf_] points to. *)
Record PinnableSlice := mkPinnable {
  base : Slice;
  cleanable : Cleanable;
  buf : bytes;
  pinned_ : bool;
}.

Definition PinnableSlice_new : PinnableSlice :=
  mkPinnable Slice_empty Cleanable_new [] false.
Definition PinnableSlice_buf (b : bytes) : PinnableSlice :=
  mkPinnable Slice_empty Cleanable_new b false.

Section PinnableOps.
Context `{CI : CleanableImpl}.

Definition PinSlice (p : PinnableSlice) (s : Slice) (f a1 a2 : Z) : option PinnableSlice :=
  if pinned_ p then None
  else Some (mkPinnable (mkSlice (data_ s) (size_ s))
               (RegisterCleanup (cleanable p) (mkCleanup f a1 a2)) (buf p) true).

(** The new slice and the object that delegated its cleanups, if any. *)
Definition PinSlice_cleanable (p : PinnableSlice) (s : Slice) (c : option Cleanable)
    : option (PinnableSlice * option Cleanable) :=
  if pinned_ p then None
  else
    let '(c', own) := match c with
                      | Some c => let '(c', own) := DelegateCleanupsTo c (cleanable p) in
                                  (Some c', own)
                      | None => (None, cleanable p)
                      end in
    Some (mkPinnable (mkSlice (data_ s) (size_ s)) own (buf p) true, c').

Definition PinSelf (p : PinnableSlice) : option PinnableSlice :=
  if pinned_ p then None
  else Some (mkPinnable (Slice_string (buf p)) (cleanable p) (buf p) false).

(** [buf_->assign(slice.data(), slice.size())], then the slice refers to it. *)
Definition PinSelf_slice (p : PinnableSlice) (s : Slice) : option PinnableSlice :=
  if pinned_ p then None
  else let b := ToStringView s in
       Some (mkPinnable (Slice_string b) (cleanable p) b false).

(** [std::string::erase(pos, n)], which throws when [pos] is past the end. *)
Definition string_erase (b : bytes) (pos n : Z) : option bytes :=
  if pos <=? Z.of_nat (length b)
  then Some (take (Z.to_nat pos) b ++ drop (Z.to_nat (pos + n)) b)
  else None.

Definition pinnable_remove_suffix (p : PinnableSlice) (n : Z) : option PinnableSlice :=
  if n <=? size (base p) then
    if pinned_ p
    then Some (mkPinnable (mkSlice (data_ (base p)) (size_ (base p) - n)) (cleanable p) (buf p) true)
    else match string_erase (buf p) (size (base p) - n) n with
         | Some b => PinSelf (mkPinnable (base p) (cleanable p) b (pinned_ p))
         | None => None
         end
  else None.

Definition pinnable_remove_prefix (p : PinnableSlice) (n : Z) : option PinnableSlice :=
  if n <=? size (base p) then
    if pinned_ p
    then Some (mkPinnable (mkSlice (drop (Z.to_nat n) <$> data_ (base p)) (size_ (base p) - n))
                 (cleanable p) (buf p) true)
    else match string_erase (buf p) 0 n with
         | Some b => PinSelf (mkPinnable (base p) (cleanable p) b (pinned_ p))
         | None => None
         end
  else None.

(** The calls made and the slice after them. *)
Definition PinnableSlice_Reset (p : PinnableSlice) : list Cleanup * PinnableSlice :=
  let '(calls, c) := Cleanable_Reset (cleanable p) in
  (calls, mkPinnable (mkSlice (data_ (base p)) 0) c (buf p) false).

Definition GetSelf (p : PinnableSlice) : bytes := buf p.
Definition IsPinned (p : PinnableSlice) : bool := pinned_ p.

End PinnableOps.

Record SliceParts := mkSliceParts { parts : list Slice; num_parts : Z }.
Definition SliceParts_new (parts : list Slice) (num_parts : Z) : SliceParts :=
  mkSliceParts parts num_parts.
Definition SliceParts_empty : SliceParts := mkSliceParts [] 0.

(** ** WideColumn *)

Record WideColumn := mkWideColumn { name_ : Slice; value_ : Slice }.

Definition WideColumn_default : WideColumn := mkWideColumn Slice_empty Slice_empty.
Definition WideColumn_new (name value : Slice) : WideColumn := mkWideColumn name value.
(** The piecewise constructor, with the arguments of the two slices. *)
Definition WideColumn_piecewise (name value : option bytes * Z) : WideColumn :=
  mkWideColumn (Slice_data name.1 name.2) (Slice_data value.1 value.2).

Definition name (c : WideColumn) : Slice := name_ c.
Definition value (c : WideColumn) : Slice := value_ c.

Definition WideColumn_eqb (lhs rhs : WideColumn) : bool :=
  Slice_eqb (name lhs) (name rhs) && Slice_eqb (value lhs) (value rhs).
Definition WideColumn_neqb (lhs rhs : WideColumn) : bool := negb (WideColumn_eqb lhs rhs).

(** [operator<<]: [to_hex] is [Slice::ToString(true)]. *)
Definition WideColumn_print (to_hex : Slice → bytes) (hex : bool) (c : WideColumn) : bytes :=
  let field (s : Slice) :=
    if negb (empty s)
    then (if hex then lit "0x" else []) ++ (if hex then to_hex s else ToStringView s)
    else [] in
  field (name c) ++ lit ":" ++ field (value c).

Abbreviation WideColumns := (list WideColumn).

(** [std::vector]'s [operator==]. *)
Fixpoint WideColumns_eqb (a b : WideColumns) : bool :=
  match a, b with
  | [], [] => true
  | x :: a', y :: b' => WideColumn_eqb x y && WideColumns_eqb a' b'
  | _, _ => false
  end.

Definition kDefaultWideColumnName : Slice := Slice_empty.
Definition kNoWideColumns : WideColumns := [].

(** ** PinnableWideColumns *)

Record PinnableWideColumns := mkPinnableColumns { pvalue : PinnableSlice; columns_ : WideColumns }.

Definition PinnableWideColumns_new : PinnableWideColumns :=
  mkPinnableColumns PinnableSlice_new [].

(** What the headers declare and do not define: the assignment
    [*this = std::move(other)] of pinnable slices (the new [*this], the new
    [other], whether the data pointer of [other] was kept, and the cleanups of
    [*this] it ran), and the index of a serialized entity. *)
Class ColumnsImpl := {
  pinnable_move_assign :
    PinnableSlice → PinnableSlice → PinnableSlice * PinnableSlice * bool * list Cleanup;
  index_columns : Slice → Status * WideColumns;
}.

Section ColumnsOps.
Context `{CI : CleanableImpl, WI : ColumnsImpl}.

Definition columns (p : PinnableWideColumns) : WideColumns := columns_ p.
Definition serialized_size (p : PinnableWideColumns) : Z := size (base (pvalue p)).

Definition columns_Reset (p : PinnableWideColumns) : list Cleanup * PinnableWideColumns :=
  let '(calls, v) := PinnableSlice_Reset (pvalue p) in (calls, mkPinnableColumns v []).

Definition CreateIndexForPlainValue (p : PinnableWideColumns) : PinnableWideColumns :=
  mkPinnableColumns (pvalue p) [mkWideColumn kDefaultWideColumnName (base (pvalue p))].

(** [CreateIndexForWideColumns]. *)
Definition CreateIndexForWideColumns (p : PinnableWideColumns) : Status * PinnableWideColumns :=
  let '(s, cols) := index_columns (base (pvalue p)) in (s, mkPinnableColumns (pvalue p) cols).

Definition CopyValue (p : PinnableWideColumns) (v : Slice) : option PinnableWideColumns :=
  pv ← PinSelf_slice (pvalue p) v; Some (mkPinnableColumns pv (columns_ p)).

Definition PinOrCopyValue (p : PinnableWideColumns) (v : Slice) (c : option Cleanable)
    : option (PinnableWideColumns * option Cleanable) :=
  match c with
  | None => p' ← CopyValue p v; Some (p', None)
  | Some _ => '(pv, c') ← PinSlice_cleanable (pvalue p) v c; Some (mkPinnableColumns pv (columns_ p), c')
  end.

Definition MoveValue (p : PinnableWideColumns) (v : PinnableSlice)
    : PinnableWideColumns * PinnableSlice * bool * list Cleanup :=
  let '(pv, v', same, calls) := pinnable_move_assign (pvalue p) v in
  (mkPinnableColumns pv (columns_ p), v', same, calls).

Definition MoveValue_string (p : PinnableWideColumns) (v : bytes) : option PinnableWideColumns :=
  let pv := mkPinnable (base (pvalue p)) (cleanable (pvalue p)) v (pinned_ (pvalue p)) in
  pv ← PinSelf pv; Some (mkPinnableColumns pv (columns_ p)).

Definition SetPlainValue (p : PinnableWideColumns) (v : Slice) : option PinnableWideColumns :=
  p ← CopyValue p v; Some (CreateIndexForPlainValue p).
Definition SetPlainValue_cleanable (p : PinnableWideColumns) (v : Slice) (c : option Cleanable)
    : option (PinnableWideColumns * option Cleanable) :=
  '(p, c') ← PinOrCopyValue p v c; Some (CreateIndexForPlainValue p, c').
Definition SetPlainValue_move (p : PinnableWideColumns) (v : PinnableSlice)
    : PinnableWideColumns * PinnableSlice * list Cleanup :=
  let '(p, v', _, calls) := MoveValue p v in (CreateIndexForPlainValue p, v', calls).
Definition SetPlainValue_string (p : PinnableWideColumns) (v : bytes) : option PinnableWideColumns :=
  p ← MoveValue_string p v; Some (CreateIndexForPlainValue p).

(** The index of the value, or a reset when it cannot be built: the status, the
    calls made and the object. *)
Definition index_or_reset (p : PinnableWideColumns) : Status * list Cleanup * PinnableWideColumns :=
  let '(s, p) := CreateIndexForWideColumns p in
  if negb (ok s) then let '(calls, p) := columns_Reset p in (s, calls, p) else (s, [], p).

Definition SetWideColumnValue (p : PinnableWideColumns) (v : Slice)
    : option (Status * list Cleanup * PinnableWideColumns) :=
  p ← CopyValue p v; Some (index_or_reset p).
Definition SetWideColumnValue_cleanable (p : PinnableWideColumns) (v : Slice) (c : option Cleanable)
    : option (Status * list Cleanup * PinnableWideColumns * option Cleanable) :=
  '(p, c') ← PinOrCopyValue p v c; Some (index_or_reset p, c').
Definition SetWideColumnValue_move (p : PinnableWideColumns) (v : PinnableSlice)
    : Status * list Cleanup * PinnableWideColumns * PinnableSlice :=
  let '(p, v', _, calls) := MoveValue p v in
  let '(s, calls', p) := index_or_reset p in (s, calls ++ calls', p, v').
Definition SetWideColumnValue_string (p : PinnableWideColumns) (v : bytes)
    : option (Status * list Cleanup * PinnableWideColumns) :=
  p ← MoveValue_string p v; Some (index_or_reset p).

(** [Move(std::move(other))]: the new [*this], the calls made and the new
    [other]. *)
Definition Move (p other : PinnableWideColumns)
    : option (PinnableWideColumns * list Cleanup * PinnableWideColumns) :=
  match columns_ p with
  | _ :: _ => None
  | [] =>
      match columns_ other with
      | [] => Some (p, [], other)
      | first :: rest =>
          let is_plain_value :=
            (length (columns_ other) =? 1)%nat && Slice_eqb (name first) kDefaultWideColumnName
            && Slice_eqb (value first) (base (pvalue other)) in
          let '(p, ov, same, calls) := MoveValue p (pvalue other) in
          let reindexed :=
            if same then Some (mkPinnableColumns (pvalue p) (columns_ other))
            else if is_plain_value then Some (CreateIndexForPlainValue p)
            else let '(s, p) := CreateIndexForWideColumns p in if ok s then Some p else None in
          p ← reindexed;
          let '(calls', other) :=
            columns_Reset (mkPinnableColumns ov (if same then [] else columns_ other)) in
          Some (p, calls ++ calls', other)
      end
  end.

Definition PinnableWideColumns_move (other : PinnableWideColumns)
    : option (PinnableWideColumns * list Cleanup * PinnableWideColumns) :=
  Move PinnableWideColumns_new other.

(** [*this = std::move(other)] for two objects; the calls of the reset of
    [*this] come first. *)
Definition columns_move_assign (p other : PinnableWideColumns)
    : option (PinnableWideColumns * list Cleanup * PinnableWideColumns) :=
  let '(calls, p) := columns_Reset p in
  '(p, calls', other) ← Move p other; Some (p, calls ++ calls', other).

Definition PinnableWideColumns_eqb (lhs rhs : PinnableWideColumns) : bool :=
  WideColumns_eqb (columns lhs) (columns rhs).
Definition PinnableWideColumns_neqb (lhs rhs : PinnableWideColumns) : bool :=
  negb (PinnableWideColumns_eqb lhs rhs).

End ColumnsOps.

(** ** Attribute groups *)

(** A column family handle is its address. *)
Record AttributeGroup := mkAttributeGroup { column_family_ : Z; acolumns : WideColumns }.
Definition AttributeGroup_new (column_family : Z) (columns : WideColumns) : AttributeGroup :=
  mkAttributeGroup column_family columns.
Definition AttributeGroup_eqb (lhs rhs : AttributeGroup) : bool :=
  (column_family_ lhs =? column_family_ rhs) && WideColumns_eqb (acolumns lhs) (acolumns rhs).
Definition AttributeGroup_neqb (lhs rhs : AttributeGroup) : bool := negb (AttributeGroup_eqb lhs rhs).

Record PinnableAttributeGroup := mkPinnableGroup {
  group_family : Z; status_ : Status; group_columns : PinnableWideColumns;
}.

Section GroupOps.
Context `{SI : StatusImpl, CI : CleanableImpl, WI : ColumnsImpl}.

Definition PinnableAttributeGroup_new (column_family : Z) : PinnableAttributeGroup :=
  mkPinnableGroup column_family OK PinnableWideColumns_new.

Definition SetStatus (g : PinnableAttributeGroup) (s : Status) : PinnableAttributeGroup :=
  mkPinnableGroup (group_family g) (copy_assign false (status_ g) s) (group_columns g).

Definition SetColumns (g : PinnableAttributeGroup) (c : PinnableWideColumns)
    : option (PinnableAttributeGroup * list Cleanup * PinnableWideColumns) :=
  '(c', calls, rest) ← columns_move_assign (group_columns g) c;
  Some (mkPinnableGroup (group_family g) (status_ g) c', calls, rest).

Definition group_Reset (g : PinnableAttributeGroup) : list Cleanup * PinnableAttributeGroup :=
  let g := SetStatus g OK in
  let '(calls, c) := columns_Reset (group_columns g) in
  (calls, mkPinnableGroup (group_family g) (status_ g) c).

End GroupOps.

(** The pointer to the columns is the columns it points to. *)
Record IteratorAttributeGroup := mkIteratorGroup { it_family : Z; it_columns : WideColumns }.
Definition IteratorAttributeGroup_new (column_family : Z) (columns : WideColumns)
    : IteratorAttributeGroup := mkIteratorGroup column_family columns.
Definition IteratorAttributeGroup_of (g : AttributeGroup) : IteratorAttributeGroup :=
  IteratorAttributeGroup_new (column_family_ g) (acolumns g).
Definition IteratorAttributeGroup_eqb (lhs rhs : IteratorAttributeGroup) : bool :=
  (it_family lhs =? it_family rhs) && WideColumns_eqb (it_columns lhs) (it_columns rhs).
Definition IteratorAttributeGroup_neqb (lhs rhs : IteratorAttributeGroup) : bool :=
  negb (IteratorAttributeGroup_eqb lhs rhs).

(** ** ManagedPtr *)

(** Addresses of the object and of the owner, 0 for null. *)
Record ManagedPtr := mkManaged { ptr_ : Z; owner_ : Z }.
Definition ManagedPtr_default : ManagedPtr := mkManaged 0 0.
Definition ManagedPtr_new (ptr owner : Z) : ManagedPtr := mkManaged ptr owner.

(** The calls [Fn(owner, ptr)] the destructor makes. *)
Definition ManagedPtr_destroy (m : ManagedPtr) : list (Z * Z) :=
  if negb (ptr_ m =? 0) && negb (owner_ m =? 0) then [(owner_ m, ptr_ m)] else [].

(** The new object and what is left of [other]. *)
Definition ManagedPtr_move (other : ManagedPtr) : ManagedPtr * ManagedPtr :=
  (mkManaged (ptr_ other) (owner_ other), mkManaged 0 0).

(** [*this = std::move(other)]; [same] is [this == &other]. *)
Definition ManagedPtr_move_assign (same : bool) (this other : ManagedPtr) : ManagedPtr * ManagedPtr :=
  if same then (mkManaged 0 0, mkManaged 0 0)
  else (mkManaged (ptr_ other) (owner_ other), mkManaged 0 0).

Definition ManagedPtr_get (m : ManagedPtr) : Z := ptr_ m.
Definition ManagedPtr_bool (m : ManagedPtr) : bool := negb (ptr_ m =? 0).
Definition owner (m : ManagedPtr) : Z := owner_ m.

(** ** Cleanups run once *)

(** The operations a client applies to a pinnable slice. *)
Inductive pin_op :=
| OpPin (s : Slice) (f a1 a2 : Z)
| OpPinCleanable (s : Slice) (c : Cleanable)
| OpPinSelf (s : Slice)
| OpRemoveSuffix (n : Z)
| OpRemovePrefix (n : Z)
| OpReset.

Section Runs.
Context `{CI : CleanableImpl}.

(** The slice after an operation, the cleanups it ran and the ones it was given. *)
Definition pin_step (p : PinnableSlice) (op : pin_op)
    : option (PinnableSlice * list Cleanup * list Cleanup) :=
  match op with
  | OpPin s f a1 a2 => p' ← PinSlice p s f a1 a2; Some (p', [], [mkCleanup f a1 a2])
  | OpPinCleanable s c =>
      '(p', _) ← PinSlice_cleanable p s (Some c); Some (p', [], DoCleanup c)
  | OpPinSelf s => p' ← PinSelf_slice p s; Some (p', [], [])
  | OpRemoveSuffix n => p' ← pinnable_remove_suffix p n; Some (p', [], [])
  | OpRemovePrefix n => p' ← pinnable_remove_prefix p n; Some (p', [], [])
  | OpReset => let '(calls, p') := PinnableSlice_Reset p in Some (p', calls, [])
  end.

(** A sequence of operations, with the cleanups ran and given so far. *)
Fixpoint pin_run (p : PinnableSlice) (ops : list pin_op) : option (PinnableSlice * list Cleanup * list Cleanup) :=
  match ops with
  | [] => Some (p, [], [])
  | op :: ops' =>
      '(p1, ran1, given1) ← pin_step p op;
      '(p2, ran2, given2) ← pin_run p1 ops';
      Some (p2, ran1 ++ ran2, given1 ++ given2)
  end.

(** Registered functions are not null. *)
Definition op_ok (op : pin_op) : Prop :=
  match op with OpPin _ f _ _ => f ≠ 0 | _ => True end.

Lemma PinSelf_cleanable p p' : PinSelf p = Some p' → cleanable p' = cleanable p.
Proof. unfold PinSelf. case_match; naive_solver. Qed.

Lemma pin_step_pending `{!CleanableOk CI} p op p' ran given :
  op_ok op → pin_step p op = Some (p', ran, given) →
  ran ++ DoCleanup (cleanable p') ≡ₚ DoCleanup (cleanable p) ++ given.
Proof.
  intros Hop. destruct op; simpl.
  - unfold PinSlice. case_match; simpl; [done|]. intros [= <- <- <-]. simpl.
    rewrite RegisterCleanup_pending by done. by rewrite Permutation_app_comm.
  - unfold PinSlice_cleanable. destruct (pinned_ p); simpl; [done|].
    pose proof (DelegateCleanupsTo_pending c (cleanable p)) as H.
    destruct (DelegateCleanupsTo c (cleanable p)) as [c' own]. simpl.
    intros [= <- <- <-]. simpl. apply H.
  - unfold PinSelf_slice. case_match; simpl; [done|]. intros [= <- <- <-]. by rewrite app_nil_r.
  - unfold pinnable_remove_suffix. case_match; simpl; [|done].
    destruct (pinned_ p) eqn:Ep; simpl; [intros [= <- <- <-]; by rewrite app_nil_r|].
    destruct (string_erase _ _ _); simpl; [|done].
    intros [= <- <- <-]. by rewrite app_nil_r.
  - unfold pinnable_remove_prefix. case_match; simpl; [|done].
    destruct (pinned_ p) eqn:Ep; simpl; [intros [= <- <- <-]; by rewrite app_nil_r|].
    destruct (string_erase _ _ _); simpl; [|done]. intros [= <- <- <-]. by rewrite app_nil_r.
  - intros Hs. simplify_eq/=. by rewrite !app_nil_r.
Qed.

Lemma pin_run_pending `{!CleanableOk CI} ops : ∀ p p' ran given,
  Forall op_ok ops → pin_run p ops = Some (p', ran, given) →
  ran ++ DoCleanup (cleanable p') ≡ₚ DoCleanup (cleanable p) ++ given.
Proof.
  induction ops as [|op ops IH]; intros p p' ran given Hops; simpl.
  { intros [= <- <- <-]. by rewrite app_nil_r. }
  apply Forall_cons in Hops as [Hop Hops].
  destruct (pin_step p op) as [[[p1 ran1] given1]|] eqn:E1; simpl; [|done].
  destruct (pin_run p1 ops) as [[[p2 ran2] given2]|] eqn:E2; simpl; [|done].
  intros [= <- <- <-]. apply pin_step_pending in E1; [|done]. apply IH in E2; [|done].
  rewrite <- app_assoc, E2, app_assoc, E1. by rewrite app_assoc.
Qed.

End Runs.

(** An implementation of the functions of cleanable.h, for the concrete cases. *)
Definition concrete_register (c : Cleanable) (x : Cleanup) : Cleanable :=
  if function (cleanup_ c) =? 0 then mkCleanable x []
  else mkCleanable (cleanup_ c) (x :: next c).

#[export] Instance concrete_cleanable : CleanableImpl := {|
  RegisterCleanup := concrete_register;
  DelegateCleanupsTo c other :=
    (Cleanable_new,
     match DoCleanup other, DoCleanup c with
     | x :: l, l' => mkCleanable x (l ++ l')
     | [], x :: l => mkCleanable x l
     | [], [] => other
     end);
|}.

Lemma DoCleanup_cons c x l : DoCleanup c = x :: l → function x ≠ 0.
Proof. unfold DoCleanup. case_match eqn:E; [|done]. intros [= <- _]. lia. Qed.

#[export] Instance concrete_cleanable_ok : CleanableOk concrete_cleanable.
Proof.
  split.
  - intros c x Hx. simpl. unfold concrete_register, DoCleanup.
    destruct (function (cleanup_ c) =? 0) eqn:E; simpl;
      [|rewrite E]; simpl; [|apply Permutation_swap].
    by rewrite (proj2 (Z.eqb_neq _ _)).
  - intros c other. simpl. split; [done|].
    destruct (DoCleanup other) as [|x l] eqn:Eo; [destruct (DoCleanup c) as [|x l] eqn:Ec|].
    + by rewrite Eo.
    + unfold DoCleanup. simpl. apply DoCleanup_cons in Ec. by rewrite (proj2 (Z.eqb_neq _ _)).
    + unfold DoCleanup at 1. simpl. apply DoCleanup_cons in Eo. by rewrite (proj2 (Z.eqb_neq _ _)).
Qed.

(** [C40] Whatever a client does with a pinnable slice (pinning it with a
    cleanup function, taking over the cleanups of another object, copying,
    trimming and resetting it any number of times), every cleanup it was given
    runs exactly once: the calls made so far together with the ones the
    destructor still makes are the cleanups given, and after a reset none is
    left. *)
Theorem cleanups_run_once `{CI : CleanableImpl, !CleanableOk CI} (ops : list pin_op) p ran given :
  Forall op_ok ops → pin_run PinnableSlice_new ops = Some (p, ran, given) →
  ran ++ DoCleanup (cleanable p) ≡ₚ given ∧
  DoCleanup (cleanable (snd (PinnableSlice_Reset p))) = [] ∧
  ran ++ fst (PinnableSlice_Reset p) ≡ₚ given.
Proof.
  intros Hops Hrun. apply pin_run_pending in Hrun; [|done]. simpl in Hrun.
  by split_and!.
Qed.

Lemma cleanups_run_once_witness :
  let ops := [OpPin (Slice_string (lit "abc")) 5 1 2; OpRemovePrefix 1; OpReset;
              OpPinSelf (Slice_string (lit "xy")); OpRemoveSuffix 1] in
  ∃ p, pin_run PinnableSlice_new ops = Some (p, [mkCleanup 5 1 2], [mkCleanup 5 1 2]) ∧
       [mkCleanup 5 1 2] ++ DoCleanup (cleanable p) ≡ₚ [mkCleanup 5 1 2].
Proof.
  intros ops. eexists. split; [reflexivity|].
  eapply (cleanups_run_once ops); [repeat constructor; done|reflexivity].
Defined.

(** ** Contents *)

(** The slice refers to pinned storage, or to its own buffer. *)
Definition in_sync (p : PinnableSlice) : Prop :=
  if pinned_ p then Slice_wf (base p) else base p = Slice_string (buf p).

Abbreviation view p := (ToStringView (base p)).

Lemma Slice_string_wf b : Slice_wf (Slice_string b).
Proof. exists b. simpl. split; [done|]. lia. Qed.

Lemma default_name_wf : Slice_wf kDefaultWideColumnName.
Proof. exists [x00]. simpl. split; [done|]. lia. Qed.

Lemma view_string b : ToStringView (Slice_string b) = b.
Proof. unfold ToStringView. simpl. by rewrite Nat2Z.id, take_ge. Qed.

Lemma in_sync_wf p : in_sync p → Slice_wf (base p).
Proof. unfold in_sync. case_match; [done|]. intros ->. apply Slice_string_wf. Qed.

(** On a pinnable slice that refers to pinned storage or to its own
    buffer, trimming removes exactly the requested bytes at the end or at the
    start in both cases, and keeps that state; asking for more bytes than there
    are fails the assertion; pinning to a slice or copying one gives its bytes;
    and a reset leaves an empty slice. *)
Theorem pinnable_contents `{CI : CleanableImpl} (p : PinnableSlice) (n : Z) (s : Slice) :
  in_sync p → 0 ≤ n → Slice_wf s →
  (if n <=? size (base p)
   then (∃ q, pinnable_remove_suffix p n = Some q ∧ in_sync q ∧
              view q = take (length (view p) - Z.to_nat n) (view p)) ∧
        (∃ q, pinnable_remove_prefix p n = Some q ∧ in_sync q ∧ view q = drop (Z.to_nat n) (view p))
   else pinnable_remove_suffix p n = None ∧ pinnable_remove_prefix p n = None) ∧
  (if pinned_ p then PinSlice p s 1 0 0 = None ∧ PinSelf_slice p s = None
   else (∃ q, PinSlice p s 1 0 0 = Some q ∧ in_sync q ∧ view q = ToStringView s) ∧
        (∃ q, PinSelf_slice p s = Some q ∧ in_sync q ∧ view q = ToStringView s)) ∧
  (view (snd (PinnableSlice_Reset p)) = [] ∧ pinned_ (snd (PinnableSlice_Reset p)) = false).
Proof.
  intros Hsync Hn Hs. pose proof (in_sync_wf p Hsync) as Hwf.
  pose proof (length_ToStringView _ Hwf) as Hlen. destruct (deref_wf _ Hwf) as [Hd Hpos].
  split_and!; [..|done].
  - unfold pinnable_remove_suffix, pinnable_remove_prefix, size.
    destruct (Z.leb_spec n (size_ (base p))) as [Hle|]; [|done].
    unfold in_sync in Hsync. destruct (pinned_ p).
    + destruct Hwf as (d & Hdat & Hsz). split; eexists; (split; [done|]); unfold in_sync; simpl.
      * split; [exists d; simpl; split; [done|lia]|]. unfold ToStringView. simpl.
        rewrite length_take, take_take. f_equal. lia.
      * split; [exists (drop (Z.to_nat n) d); rewrite Hdat; simpl; split; [done|rewrite length_drop; lia]|].
        unfold ToStringView. simpl. rewrite Hdat. simpl. rewrite skipn_firstn_comm. f_equal. lia.
    + rewrite Hsync in *. rewrite view_string in *. simpl in Hle |- *. unfold string_erase.
      rewrite !(proj2 (Z.leb_le _ _)) by lia. split; eexists; (split; [done|]); split; try done.
      * simpl. rewrite view_string. replace (Z.to_nat (Z.of_nat (length (buf p)) - n + n))
          with (length (buf p)) by lia. rewrite drop_all, app_nil_r. f_equal. lia.
      * simpl. by rewrite view_string.
  - unfold PinSlice, PinSelf_slice. destruct (pinned_ p); [done|].
    split; eexists; (split; [done|]); unfold in_sync; simpl.
    + split; [done|]. by destruct s.
    + split; [done|]. apply view_string.
  - unfold ToStringView. simpl. done.
Qed.

Lemma pinnable_contents_witness :
  let p := mkPinnable (Slice_string (lit "hello")) Cleanable_new (lit "hello") false in
  ∃ q, pinnable_remove_prefix p 2 = Some q ∧ in_sync q ∧ view q = lit "llo".
Proof.
  intros p. apply (pinnable_contents p 2 (Slice_string (lit "x"))).
  - reflexivity.
  - lia.
  - apply Slice_string_wf.
Defined.

(** A reset does not forget the buffer: after resetting an unpinned
    slice, removing zero bytes makes the bytes that were reset visible again. *)
Theorem reset_keeps_buffer `{CI : CleanableImpl} (b : bytes) :
  ∃ p q, PinSelf_slice PinnableSlice_new (Slice_string b) = Some p ∧
    view (snd (PinnableSlice_Reset p)) = [] ∧
    pinnable_remove_suffix (snd (PinnableSlice_Reset p)) 0 = Some q ∧ view q = b.
Proof.
  eexists _, _. split; [done|]. split; [done|]. simpl. rewrite !view_string.
  unfold pinnable_remove_suffix, string_erase. simpl.
  rewrite (proj2 (Z.leb_le _ _)) by lia. split; [done|]. simpl. apply view_string.
Qed.

(** ** Moving wide columns *)

(** The bytes of a column. *)
Definition col_bytes (c : WideColumn) : bytes * bytes :=
  (ToStringView (name c), ToStringView (value c)).

(** The behaviour of a move and of the index: a moved slice refers to the same
    bytes, and the index of a value depends on its bytes alone. *)
Class ColumnsOk (WI : ColumnsImpl) : Prop := {
  pinnable_move_view p v : Slice_wf (base v) →
    let '(p', _, _, _) := pinnable_move_assign p v in
    Slice_wf (base p') ∧ view p' = view v;
  index_columns_bytes a b : ToStringView a = ToStringView b →
    ok (fst (index_columns a)) = ok (fst (index_columns b)) ∧
    col_bytes <$> snd (index_columns a) = col_bytes <$> snd (index_columns b);
}.

(** The columns are an index of the value: the anonymous column that holds all
    of it, or the columns it decodes to. *)
Definition indexed `{WI : ColumnsImpl} (p : PinnableWideColumns) : Prop :=
  Slice_wf (base (pvalue p)) ∧
  Forall (λ c, Slice_wf (name c) ∧ Slice_wf (value c)) (columns p) ∧
  (col_bytes <$> columns p = [([], view (pvalue p))] ∨
   ok (fst (index_columns (base (pvalue p)))) = true ∧
   col_bytes <$> columns p = col_bytes <$> snd (index_columns (base (pvalue p)))).

(** Moving wide columns keeps them: whether or not the buffer of the
    value keeps its address, the object moved to has the same column names and
    values as the object moved from, over the same serialized value, and the
    object moved from is left without columns. *)
Theorem columns_move_spec `{CI : CleanableImpl, WI : ColumnsImpl, !ColumnsOk WI}
    (p other : PinnableWideColumns) :
  indexed other → columns other ≠ [] →
  ∃ p' calls other', columns_move_assign p other = Some (p', calls, other') ∧
    col_bytes <$> columns p' = col_bytes <$> columns other ∧
    view (pvalue p') = view (pvalue other) ∧ columns other' = [] ∧
    serialized_size other' = 0.
Proof.
  intros (Hwf & Hcwf & Hidx) Hne. unfold columns_move_assign, columns_Reset, Move, columns in *.
  destruct (PinnableSlice_Reset (pvalue p)) as [calls0 pv0]. simpl.
  destruct (columns_ other) as [|first rest] eqn:Ec; [done|].
  pose proof (pinnable_move_view pv0 (pvalue other) Hwf) as Hmv. unfold MoveValue. simpl.
  destruct (pinnable_move_assign pv0 (pvalue other)) as [[[pv ov] same] calls1].
  destruct Hmv as [Hpwf Hview]. destruct (index_columns_bytes _ _ Hview) as [Hok Hcols].
  apply Forall_cons in Hcwf as [[Hn Hv] _].
  destruct same; simpl; [by eexists _, _, _|].
  destruct ((length rest =? 0)%nat && Slice_eqb (name first) kDefaultWideColumnName
            && Slice_eqb (value first) (base (pvalue other))) eqn:Eplain; simpl.
  - apply andb_prop in Eplain as [[Hl E1]%andb_prop E2]. apply Slice_eqb_spec in E1, E2; [|by auto using default_name_wf..].
    destruct rest; [|done]. eexists _, _, _. split; [done|]. simpl. split_and!; try done.
    unfold col_bytes. simpl. unfold name, value in *. simpl. by rewrite E1, E2, Hview.
  - destruct Hidx as [Hplain|[Hok' Hcols']].
    { exfalso. destruct rest as [|c rest]; [|done]. injection Hplain as En Ev.
      simpl in Eplain. apply andb_false_iff in Eplain as [E|E].
      - rewrite (proj2 (Slice_eqb_spec _ _ Hn default_name_wf)) in E; [done|].
        by rewrite En.
      - rewrite (proj2 (Slice_eqb_spec _ _ Hv Hwf)) in E; [done|]. done. }
    unfold CreateIndexForWideColumns. simpl. destruct (index_columns (base pv)) as [s cols].
    simpl in Hok, Hcols. rewrite Hok, Hok'. eexists _, _, _. split; [done|]. simpl.
    split_and!; try done. rewrite Hcols. symmetry. exact Hcols'.
Qed.

(** A column format (one byte of name, then the value) and a move that keeps
    the address of pinned storage only, for the concrete case. *)
#[export] Instance concrete_columns : ColumnsImpl := {|
  pinnable_move_assign p v :=
    (mkPinnable (base v) (cleanable v) (buf v) (pinned_ v), PinnableSlice_new, pinned_ v,
     DoCleanup (cleanable p));
  index_columns s :=
    match ToStringView s with
    | [] => (Corruption_sub kNone, [])
    | b :: r => (OK, [mkWideColumn (Slice_string [b]) (Slice_string r)])
    end;
|}.

#[export] Instance concrete_columns_ok : ColumnsOk concrete_columns.
Proof. split; simpl; [done|]. intros a b ->. done. Qed.

Lemma columns_move_spec_witness :
  let v := mkPinnable (Slice_string (lit "kval")) Cleanable_new (lit "kval") false in
  let other := mkPinnableColumns v [mkWideColumn (Slice_string (lit "k")) (Slice_string (lit "val"))] in
  ∃ p' calls other', columns_move_assign PinnableWideColumns_new other = Some (p', calls, other') ∧
    col_bytes <$> columns p' = [(lit "k", lit "val")] ∧
    view (pvalue p') = lit "kval" ∧ columns other' = [] ∧ serialized_size other' = 0.
Proof.
  intros v other. apply (columns_move_spec PinnableWideColumns_new other).
  - split_and!; [apply Slice_string_wf|repeat constructor; apply Slice_string_wf|right; done].
  - done.
Defined.

(** ** Managed pointers *)

(** A managed pointer gives its object back to its owner once, also
    after a move construction; but a move assignment drops the object the target
    held without giving it back, and a self-move drops it too. *)
Theorem managed_ptr_reclaim (a oa b ob : Z) :
  a ≠ 0 → oa ≠ 0 → b ≠ 0 → ob ≠ 0 → a ≠ b →
  let destroy_both '(x, y) := ManagedPtr_destroy x ++ ManagedPtr_destroy y in
  destroy_both (ManagedPtr_move (ManagedPtr_new a oa)) = [(oa, a)] ∧
  destroy_both (ManagedPtr_move_assign false ManagedPtr_default (ManagedPtr_new b ob)) = [(ob, b)] ∧
  (oa, a) ∉ destroy_both (ManagedPtr_move_assign false (ManagedPtr_new a oa) (ManagedPtr_new b ob)) ∧
  destroy_both (ManagedPtr_move_assign true (ManagedPtr_new a oa) (ManagedPtr_new a oa)) = [].
Proof.
  intros Ha Hoa Hb Hob Hab. unfold ManagedPtr_move, ManagedPtr_move_assign, ManagedPtr_destroy.
  simpl. rewrite !(proj2 (Z.eqb_neq _ _)) by done. simpl. split_and!; [done..| |done].
  rewrite list_elem_of_singleton. congruence.
Qed.

Lemma managed_ptr_reclaim_witness :
  (2, 1) ∉ (let '(x, y) := ManagedPtr_move_assign false (ManagedPtr_new 1 2) (ManagedPtr_new 3 4) in
            ManagedPtr_destroy x ++ ManagedPtr_destroy y).
Proof. by apply (managed_ptr_reclaim 1 2 3 4). Defined.
