(* ===== verification/WriteBuffer.v ===== *)
(** * The write buffer manager (libs/rocksdb/write_buffer_manager.h)

    [WriteBufferManager] caps the memory of memtables: it decides when a flush
    is due and when writers have to stall.  Sizes are [size_t] and wrap around;
    the atomics are read once where the code loads them once, and no other
    thread writes in between.  [MaybeEndWriteStall] is declared in the header
    and defined elsewhere: it is an argument of the operations that call it. *)

From stdpp Require Import base list.
From Stdlib Require Import ZArith Lia.
From S2P Require Import Prelude.

Open Scope Z_scope.

(** [cache_res_mgr_] and the members of [queue_] are addresses; 0 is null. *)
Record WriteBufferManager := mkWBM {
  buffer_size_ : Z;
  mutable_limit_ : Z;
  memory_used_ : Z;
  memory_active_ : Z;
  cache_res_mgr_ : Z;
  queue_ : list Z;
  allow_stall_ : bool;
  stall_active_ : bool;
}.

Definition memory_usage (m : WriteBufferManager) : Z := memory_used_ m.
Definition mutable_memtable_memory_usage (m : WriteBufferManager) : Z := memory_active_ m.
Definition buffer_size (m : WriteBufferManager) : Z := buffer_size_ m.
Definition enabled (m : WriteBufferManager) : bool := 0 <? buffer_size m.
Definition cost_to_cache (m : WriteBufferManager) : bool := negb (cache_res_mgr_ m =? 0).

Definition ShouldFlush (m : WriteBufferManager) : bool :=
  if enabled m then
    if mutable_limit_ m <? mutable_memtable_memory_usage m then true
    else
      let local_size := buffer_size m in
      if (local_size <=? memory_usage m)
         && (local_size / 2 <=? mutable_memtable_memory_usage m)
      then true else false
  else false.

Definition IsStallActive (m : WriteBufferManager) : bool := stall_active_ m.
Definition IsStallThresholdExceeded (m : WriteBufferManager) : bool :=
  buffer_size_ m <=? memory_usage m.

Definition ShouldStall (m : WriteBufferManager) : bool :=
  if negb (allow_stall_ m) || negb (enabled m) then false
  else IsStallActive m || IsStallThresholdExceeded m.

Section Setters.
Context (MaybeEndWriteStall : WriteBufferManager → WriteBufferManager).

(** The assertion is the failure [None]. *)
Definition SetBufferSize (m : WriteBufferManager) (new_size : Z) : option WriteBufferManager :=
  if 0 <? new_size then
    Some (MaybeEndWriteStall
      (mkWBM new_size (u64_mul new_size 7 / 8) (memory_used_ m) (memory_active_ m)
         (cache_res_mgr_ m) (queue_ m) (allow_stall_ m) (stall_active_ m)))
  else None.

Definition SetAllowStall (m : WriteBufferManager) (new_allow_stall : bool) : WriteBufferManager :=
  MaybeEndWriteStall
    (mkWBM (buffer_size_ m) (mutable_limit_ m) (memory_used_ m) (memory_active_ m)
       (cache_res_mgr_ m) (queue_ m) new_allow_stall (stall_active_ m)).

End Setters.

(** Ending a stall only removes waiting instances and clears the stall. *)
Definition ends_stall_only (f : WriteBufferManager → WriteBufferManager) : Prop :=
  ∀ m, ∃ q a, f m = mkWBM (buffer_size_ m) (mutable_limit_ m) (memory_used_ m) (memory_active_ m)
                     (cache_res_mgr_ m) q (allow_stall_ m) a ∧ (a = true → stall_active_ m = true).

(** ** Properties *)

(** The flush policy of a write buffer of [n] bytes, when [7 * n]
    fits in 64 bits: a flush is due when the active memtables use more than seven
    eighths of the buffer, or when the total reaches the buffer size and at
    least half of the buffer is active; it is never due with less than half of
    the buffer active; and when the total has reached the buffer size without a
    flush being due, more than half of the buffer is already being freed.  A
    size of zero is refused. *)
Theorem flush_policy (f : WriteBufferManager → WriteBufferManager) (m : WriteBufferManager) (n : Z) :
  ends_stall_only f → 0 ≤ n → 7 * n < 2 ^ 64 →
  (n = 0 → SetBufferSize f m n = None) ∧
  (0 < n → ∃ m', SetBufferSize f m n = Some m' ∧
     buffer_size m' = n ∧ memory_usage m' = memory_usage m ∧
     (ShouldFlush m' = true ↔
        7 * n < 8 * memory_active_ m' ∨
        n ≤ memory_usage m' ∧ n / 2 ≤ memory_active_ m') ∧
     (ShouldFlush m' = true → n / 2 ≤ memory_active_ m') ∧
     (ShouldFlush m' = false → n ≤ memory_usage m' →
        n / 2 < memory_usage m' - memory_active_ m')).
Proof.
  intros Hf Hn Hw. split; [by intros ->|]. intros Hpos. unfold SetBufferSize.
  rewrite (proj2 (Z.ltb_lt _ _)) by done. eexists. split; [done|].
  destruct (Hf (mkWBM n (u64_mul n 7 / 8) (memory_used_ m) (memory_active_ m)
    (cache_res_mgr_ m) (queue_ m) (allow_stall_ m) (stall_active_ m))) as (q & a & -> & _). simpl.
  unfold u64_mul. rewrite wrap_small by (unfold in_width; lia).
  split_and!; [done..| | |]; unfold ShouldFlush, enabled, buffer_size, memory_usage,
    mutable_memtable_memory_usage; simpl; rewrite (proj2 (Z.ltb_lt 0 n)) by done;
    destruct (Z.ltb_spec (n * 7 / 8) (memory_active_ m)) as [H1|H1],
      (Z.leb_spec n (memory_used_ m)) as [H2|H2],
      (Z.leb_spec (n / 2) (memory_active_ m)) as [H3|H3]; simpl;
    try done; try (split; intros); try done; try lia; Z.div_mod_to_equations; lia.
Qed.

Lemma flush_policy_witness :
  ∃ m', SetBufferSize id (mkWBM 64 56 90 70 0 [] false false) 80 = Some m' ∧
    (ShouldFlush m' = true ↔
       7 * 80 < 8 * memory_active_ m' ∨
       80 ≤ memory_usage m' ∧ 80 / 2 ≤ memory_active_ m').
Proof.
  destruct (flush_policy id (mkWBM 64 56 90 70 0 [] false false) 80) as [_ H].
  - intros m. exists (queue_ m), (stall_active_ m). by destruct m.
  - lia.
  - lia.
  - destruct (H ltac:(lia)) as (m' & H1 & _ & _ & H2 & _). by exists m'.
Defined.

(** Without a limit (buffer size zero) neither a flush nor a stall is
    ever requested, although the comment of the constructor says that
    [ShouldFlush] then always returns true. *)
Theorem unlimited_never_flushes (m : WriteBufferManager) :
  buffer_size_ m = 0 → ShouldFlush m = false ∧ ShouldStall m = false.
Proof.
  intros H. unfold ShouldFlush, ShouldStall, enabled, buffer_size. rewrite H. simpl.
  by rewrite orb_true_r.
Qed.

Lemma unlimited_never_flushes_witness :
  ShouldFlush (mkWBM 0 0 1000 1000 0 [] true false) = false ∧
  ShouldStall (mkWBM 0 0 1000 1000 0 [] true false) = false.
Proof. by apply (unlimited_never_flushes (mkWBM 0 0 1000 1000 0 [] true false)). Defined.

(** The limit of the active memtables is computed in 64 bits: for a
    buffer of 2^63 bytes it wraps to 2^60, so that a flush is due when one
    eighth of the buffer is active. *)
Theorem resize_limit_wraps (f : WriteBufferManager → WriteBufferManager) (m : WriteBufferManager) :
  ends_stall_only f →
  ∃ m', SetBufferSize f m (2 ^ 63) = Some m' ∧ mutable_limit_ m' = 2 ^ 60 ∧
    (2 ^ 60 < memory_active_ m' → ShouldFlush m' = true).
Proof.
  intros Hf. eexists. split; [done|].
  destruct (Hf (mkWBM (2 ^ 63) (u64_mul (2 ^ 63) 7 / 8) (memory_used_ m) (memory_active_ m)
    (cache_res_mgr_ m) (queue_ m) (allow_stall_ m) (stall_active_ m))) as (q & a & -> & _).
  split; [done|]. simpl. intros H. unfold ShouldFlush. simpl.
  by rewrite (proj2 (Z.ltb_lt _ _)) by done.
Qed.

Lemma resize_limit_wraps_witness :
  ∃ m', SetBufferSize id (mkWBM 64 56 90 70 0 [] false false) (2 ^ 63) = Some m' ∧
    mutable_limit_ m' = 2 ^ 60 ∧ (2 ^ 60 < memory_active_ m' → ShouldFlush m' = true).
Proof.
  apply (resize_limit_wraps id (mkWBM 64 56 90 70 0 [] false false)).
  intros m. exists (queue_ m), (stall_active_ m). by destruct m.
Defined.
