(* ===== verification/Scan.v ===== *)
(** * Scans over several ranges (libs/rocksdb/multi_scan.h and options.h)

    [MultiScanArgs] collects scan ranges, [MultiScanIterator] seeks to them one
    after the other, and [ScanIterator] walks the entries of the current range
    over an iterator of the database.  Exceptions are values; the iterator of
    the database is an interface, the class [DbIterator]. *)

From stdpp Require Import base list gmap strings.
From Stdlib Require Import ZArith Lia.
From Stdlib.Strings Require Import Byte.
From S2P Require Import Prelude Slice Status.

Open Scope Z_scope.

(** ** Ranges and options *)

Inductive ReadTier := kReadAllTier | kBlockCacheTier | kPersistedTier | kMemtableTier.

Record Range := mkRange { start : Slice; limit : Slice }.
Definition Range_default : Range := mkRange Slice_empty Slice_empty.
Definition Range_new (s l : Slice) : Range := mkRange s l.

Record RangeOpt := mkRangeOpt { opt_start : OptSlice; opt_limit : OptSlice }.
Definition RangeOpt_default : RangeOpt := mkRangeOpt OptSlice_none OptSlice_none.
Definition RangeOpt_new (s l : OptSlice) : RangeOpt := mkRangeOpt s l.

(** [std::unordered_map<std::string, std::string>]. *)
Abbreviation property_map := (list (bytes * bytes)).

Record ScanOptions := mkScanOptions { range : RangeOpt; property_bag : option property_map }.
Definition ScanOptions_from (s : Slice) : ScanOptions :=
  mkScanOptions (RangeOpt_new (OptSlice_some s) OptSlice_none) None.
Definition ScanOptions_between (s upper_bound : Slice) : ScanOptions :=
  mkScanOptions (RangeOpt_new (OptSlice_some s) (OptSlice_some upper_bound)) None.

(** [comp_] is the address of the comparator. *)
Record MultiScanArgs := mkArgs {
  io_coalesce_threshold : Z; comp_ : Z; original_ranges_ : list ScanOptions;
}.
Definition MultiScanArgs_new (comparator : Z) : MultiScanArgs :=
  mkArgs (Z.shiftl 16 10) comparator [].
Definition args_copy (other : MultiScanArgs) : MultiScanArgs :=
  mkArgs (io_coalesce_threshold other) (comp_ other) (original_ranges_ other).
(** The new object and what is left of [other], whose vector is moved out. *)
Definition args_move (other : MultiScanArgs) : MultiScanArgs * MultiScanArgs :=
  (mkArgs (io_coalesce_threshold other) (comp_ other) (original_ranges_ other),
   mkArgs (io_coalesce_threshold other) (comp_ other) []).
Definition args_copy_assign (this other : MultiScanArgs) : MultiScanArgs :=
  mkArgs (io_coalesce_threshold other) (comp_ other) (original_ranges_ other).
Definition args_move_assign (same : bool) (this other : MultiScanArgs)
    : MultiScanArgs * MultiScanArgs :=
  if same then (this, this) else args_move other.

Definition args_append (a : MultiScanArgs) (o : ScanOptions) : MultiScanArgs :=
  mkArgs (io_coalesce_threshold a) (comp_ a) (original_ranges_ a ++ [o]).
Definition insert_range (a : MultiScanArgs) (s b : Slice) : MultiScanArgs :=
  args_append a (ScanOptions_between s b).
Definition insert_range_props (a : MultiScanArgs) (s b : Slice) (bag : option property_map)
    : MultiScanArgs :=
  args_append a (mkScanOptions (range (ScanOptions_between s b)) bag).
Definition insert_start (a : MultiScanArgs) (s : Slice) : MultiScanArgs :=
  args_append a (ScanOptions_from s).
Definition insert_start_props (a : MultiScanArgs) (s : Slice) (bag : option property_map)
    : MultiScanArgs :=
  args_append a (mkScanOptions (range (ScanOptions_from s)) bag).
Definition args_size (a : MultiScanArgs) : Z := Z.of_nat (length (original_ranges_ a)).
Definition args_empty (a : MultiScanArgs) : bool :=
  match original_ranges_ a with [] => true | _ => false end.
Definition GetScanRanges (a : MultiScanArgs) : list ScanOptions := original_ranges_ a.

(** ** The iterator of the database *)

(** The operations of [Iterator] the scans use; the object is passed along. *)
Class DbIterator (S : Type) := {
  Valid : S → bool;
  key : S → Slice;
  ivalue : S → Slice;
  Next : S → S;
  Seek : S → Slice → S;
  istatus : S → Status;
}.

(** What an operation throws. *)
Inductive scan_exn :=
| logic_error (what : bytes)
| MultiScanException (s : Status).

Section ScanOps.
Context {S : Type} `{DB : DbIterator S}.

(** ** ScanIterator *)

(** [result_] is [None] before an entry was read. *)
Record ScanIterator := mkScanIterator {
  db_iter_ : S; valid_ : bool; status_ : Status; result_ : option (Slice * Slice);
}.

Definition ScanIterator_new (it : S) : ScanIterator :=
  let v := Valid it in
  mkScanIterator it v Status_new (if v then Some (key it, ivalue it) else None).

(** [operator++]: the iterator after it, and the exception thrown. *)
Definition scan_next (i : ScanIterator) : ScanIterator * option scan_exn :=
  if negb (valid_ i) then (i, Some (logic_error (lit "Trying to advance invalid iterator")))
  else
    let it := Next (db_iter_ i) in
    let st := istatus it in
    if negb (ok st) then (mkScanIterator it (valid_ i) st (result_ i), Some (MultiScanException st))
    else
      let v := Valid it in
      (mkScanIterator it v st (if v then Some (key it, ivalue it) else result_ i), None).

(** Comparison with [nullptr]. *)
Definition scan_eq_null (i : ScanIterator) : bool := negb (valid_ i).
Definition scan_neq_null (i : ScanIterator) : bool := valid_ i.

(** [operator*] and [operator->]. *)
Definition scan_deref (i : ScanIterator) : scan_exn + option (Slice * Slice) :=
  if negb (valid_ i) then inl (logic_error (lit "Trying to deref invalid iterator"))
  else inr (result_ i).

(** The assertion of the destructor. *)
Definition scan_destroy_ok (i : ScanIterator) : bool := ok (status_ i).

(** ** Scan *)

Definition Scan_begin (it : S) : ScanIterator := ScanIterator_new it.

(** [for (auto it : scan)]: the entries seen, the last iterator and the
    exception that ended the loop, if any. *)
Fixpoint scan_loop (fuel : nat) (i : ScanIterator)
    : option (list (Slice * Slice) * ScanIterator * option scan_exn) :=
  match fuel with
  | O => None
  | Datatypes.S fuel' =>
      if scan_neq_null i then
        match scan_deref i with
        | inl e => Some ([], i, Some e)
        | inr kv =>
            let '(i', exn) := scan_next i in
            match exn with
            | Some e => Some (option_list kv, i', Some e)
            | None =>
                match scan_loop fuel' i' with
                | Some (l, i'', e) => Some (option_list kv ++ l, i'', e)
                | None => None
                end
            end
        end
      else Some ([], i, None)
  end.

(** ** MultiScanIterator *)

Record MultiScanIterator := mkMulti {
  scan_opts_ : list ScanOptions; idx_ : nat; mdb_iter_ : S; mstatus_ : Status;
}.

(** The constructor: the iterator, or what it throws; a missing start key is an
    access to an empty optional, the failure [None]. *)
Definition MultiScanIterator_new (scan_opts : list ScanOptions) (it : S)
    : option (scan_exn + MultiScanIterator) :=
  match scan_opts with
  | [] => Some (inl (logic_error (lit "Zero scans in multi-scan")))
  | o :: _ =>
      match OptSlice_value (opt_start (range o)) with
      | None => None
      | Some s =>
          let it := Seek it s in
          let st := istatus it in
          if negb (ok st) then Some (inl (MultiScanException st))
          else Some (inr (mkMulti scan_opts 0 it st))
      end
  end.

Definition multi_eq_null (m : MultiScanIterator) : bool :=
  (length (scan_opts_ m) <=? idx_ m)%nat.
Definition multi_neq_null (m : MultiScanIterator) : bool :=
  (idx_ m <? length (scan_opts_ m))%nat.

(** [MultiScan::begin]. *)
Definition MultiScan_begin (args : MultiScanArgs) (it : S) : option (scan_exn + MultiScanIterator) :=
  MultiScanIterator_new (GetScanRanges args) it.

End ScanOps.

(** ** Properties *)

(** The entries an iterator goes through from a position, and the error it meets
    when moving on, if it does. *)
Inductive yields {S} `{DB : DbIterator S} : S → list (Slice * Slice) → option Status → Prop :=
| yields_end it : Valid it = false → yields it [] None
| yields_next it l o :
    Valid it = true → ok (istatus (Next it)) = true → yields (Next it) l o →
    yields it ((key it, ivalue it) :: l) o
| yields_error it :
    Valid it = true → ok (istatus (Next it)) = false →
    yields it [(key it, ivalue it)] (Some (istatus (Next it))).

Lemma scan_next_ok {S} `{DB : DbIterator S} it st r :
  ok (istatus (Next it)) = true →
  scan_next (mkScanIterator it true st r) =
    (mkScanIterator (Next it) (Valid (Next it)) (istatus (Next it))
       (if Valid (Next it) then Some (key (Next it), ivalue (Next it)) else r), None).
Proof. intros H. unfold scan_next. simpl. by rewrite H. Qed.

(** Iterating over a scan gives exactly the entries the database
    iterator goes through, in order, and ends: normally when the iterator
    becomes invalid, and with a [MultiScanException] carrying the status when
    moving on fails.  In the second case the scan iterator keeps the failed
    status, so that the assertion of its destructor fails while the exception is
    handled. *)
Theorem scan_collects {S} `{DB : DbIterator S} (it : S) (l : list (Slice * Slice))
    (o : option Status) :
  yields it l o →
  ∃ i, scan_loop (Datatypes.S (length l)) (Scan_begin it) = Some (l, i, MultiScanException <$> o) ∧
       scan_destroy_ok i = match o with None => true | Some _ => false end.
Proof.
  enough (∀ st r, ok st = true → yields it l o →
    (Valid it = true → r = Some (key it, ivalue it)) →
    ∃ i, scan_loop (Datatypes.S (length l)) (mkScanIterator it (Valid it) st r)
           = Some (l, i, MultiScanException <$> o) ∧
         scan_destroy_ok i = match o with None => true | Some _ => false end) as H.
  { intros Hy. apply H; [done|done|]. by intros ->. }
  intros st r Hst Hy. revert st r Hst.
  induction Hy as [it Hv|it l o Hv Hok _ IH|it Hv Herr]; intros st r Hst Hr.
  - simpl. unfold scan_neq_null. simpl. rewrite Hv. eexists. split; [done|]. exact Hst.
  - specialize (Hr Hv) as ->. rewrite Hv. cbn [length] in *.
    remember (Datatypes.S (length l)) as f. cbn [scan_loop]. unfold scan_neq_null, scan_deref.
    cbn [valid_ negb result_]. rewrite scan_next_ok by done.
    destruct (IH (istatus (Next it))
      (if Valid (Next it) then Some (key (Next it), ivalue (Next it)) else Some (key it, ivalue it)))
      as (i & Hl & Hd); [done|by intros ->|]. rewrite Hl. by exists i.
  - specialize (Hr Hv) as ->. rewrite Hv. simpl. unfold scan_neq_null, scan_deref, scan_next. simpl.
    rewrite Herr. simpl. eexists. split; [done|]. exact Herr.
Qed.

(** A database iterator over a list of entries, with the status met at the end. *)
#[export] Instance list_iterator : DbIterator (list (Slice * Slice) * Status) := {|
  Valid s := match s.1 with [] => false | _ => true end;
  key s := match s.1 with (k, _) :: _ => k | [] => Slice_empty end;
  ivalue s := match s.1 with (_, v) :: _ => v | [] => Slice_empty end;
  Next s := (tail s.1, s.2);
  Seek s _ := s;
  istatus s := match s.1 with [] => s.2 | _ => OK end;
|}.

Lemma scan_collects_witness :
  let e1 := (Slice_string (lit "a"), Slice_string (lit "1")) in
  let e2 := (Slice_string (lit "b"), Slice_string (lit "2")) in
  let err := IOError_sub kNone in
  ∃ i, scan_loop 3 (Scan_begin ([e1; e2], err)) = Some ([e1; e2], i, Some (MultiScanException err)) ∧
       scan_destroy_ok i = false.
Proof.
  intros e1 e2 err. apply (scan_collects ([e1; e2], err) [e1; e2] (Some err)).
  exact (yields_next ([e1; e2], err) [e2] (Some err) eq_refl eq_refl
    (yields_error ([e2], err) eq_refl eq_refl)).
Defined.
