(* ===== verification/Virtual.v ===== *)
(** * Virtual functions

    How the models of the C++ interfaces treat virtual functions.  A call of a
    virtual function is a value of a type indexed by the type of the result, an
    object answers every call, and a class is its table of overriding functions; a
    call that is not overridden runs the body of the base class, which can call the
    same object again.  What the calls do to the outside is a state [St]; [None] is
    a call of a pure virtual function, a failed assertion, or lack of fuel.

    [Transparent] has what makes a wrapper, a class that forwards calls to another
    object, indistinguishable from that object but for the calls it hides. *)

From stdpp Require Import base list.
From Stdlib Require Import ZArith Lia.
From S2P Require Import Prelude.

Open Scope Z_scope.

(** ** Computations *)

Definition M (St R : Type) : Type := St → option (R * St).

#[export] Instance M_ret {St} : MRet (M St) := λ R r s, Some (r, s).
#[export] Instance M_bind {St} : MBind (M St) := λ A B k m s,
  match m s with Some (a, s') => k a s' | None => None end.

Definition ret {St R} (r : R) : M St R := mret r.
Definition M_opt {St R} (o : option R) : M St R := λ s, r ← o; Some (r, s).

(** A function without a body. *)
Definition pure_virtual {St R} : M St R := λ _, None.

(** [if (p != nullptr) *p = a]. *)
Definition assign_if {A} (p : option A) (a : A) : option A :=
  match p with Some _ => Some a | None => None end.

(** ** Objects and classes *)

Section Objects.
Context (call : Type → Type) (St : Type).

Definition object : Type := ∀ R, call R → M St R.
Definition overrides : Type := ∀ R, call R → option (M St R).

(** [bodies this self]: the bodies of the base class for the object [self] at the
    address [this]. *)
Context (bodies : Z → object → object).

(** A call on the object at [this] of the class [ov]; [fuel] is how deep the bodies
    may call the object again. *)
Fixpoint dispatch (fuel : nat) (this : Z) (ov : overrides) : object := λ R c,
  match fuel with
  | O => λ _, None
  | S fuel' =>
      match ov R c with
      | Some m => m
      | None => bodies this (dispatch fuel' this ov) R c
      end
  end.

(** ** Transparent wrappers *)

(** A wrapper forwards every call but those in [hidden] and the overloads, whose
    bodies only call the object again; [depth] bounds how deep. *)
Class Transparent (wrapper : object → overrides) := {
  overload : ∀ {R}, call R → bool;
  hidden : ∀ {R}, call R → bool;
  has_body : ∀ {R}, call R → bool;
  depth : ∀ {R}, call R → nat;
  max_depth : nat;
  depth_bound : ∀ R (c : call R), (1 ≤ depth c ≤ max_depth)%nat;
  overload_has_body : ∀ R (c : call R), overload c = true → has_body c = true;
  wrapper_forwards : ∀ db R (c : call R), hidden c = false →
    wrapper db R c = if overload c then None else Some (db R c);
  bodies_agree : ∀ a b (self self' : object) R (c : call R) s,
    has_body c = true → a = b ∨ overload c = true →
    (∀ R' (c' : call R') s', (depth c' < depth c)%nat →
       hidden c' = false ∨ overload c = false ∧ has_body c' = true → self _ c' s' = self' _ c' s') →
    bodies a self R c s = bodies b self' R c s;
}.

Context (wrapper : object → overrides) `{TW : !Transparent wrapper}.

(** A class that inherits the overloads and overrides what has no body. *)
Record base_class (ov : overrides) : Prop := {
  inherits : ∀ R (c : call R), overload c = true → ov R c = None;
  supplies : ∀ R (c : call R), has_body c = false → hidden c = false → ov R c ≠ None;
}.

(** [k] wrappers around an object. *)
Fixpoint layers (k : nat) (address : nat → Z) (ov : overrides) : object :=
  match k with
  | O => dispatch max_depth (address O) ov
  | S k' => dispatch max_depth (address k) (wrapper (layers k' address ov))
  end.

(** More fuel than the depth of a call does not change its result. *)
Lemma dispatch_stable (this : Z) (ov : overrides) : base_class ov →
  ∀ n m R (c : call R) s, (depth c ≤ n)%nat → (depth c ≤ m)%nat → hidden c = false ∨ has_body c = true →
  dispatch n this ov _ c s = dispatch m this ov _ c s.
Proof.
  intros Hov. induction n as [|n IH]; intros [|m] R c s Hn Hm Hc;
    pose proof (depth_bound R c); [lia..|].
  simpl. destruct (ov R c) eqn:E; [done|].
  destruct (has_body c) eqn:Hb; [|destruct Hc as [Hc|]; [by destruct (supplies _ Hov _ _ Hb Hc)|done]].
  apply bodies_agree; [done|by left|]. intros R' c' s' Hd Hc'. apply IH; [lia|lia|].
  destruct Hc' as [|[]]; auto.
Qed.

Lemma layer_transparent (this this' : Z) (ov : overrides) (db : object) : base_class ov →
  (∀ R (c : call R) s, hidden c = false → db _ c s = dispatch max_depth this ov _ c s) →
  ∀ n R (c : call R) s, (depth c ≤ n)%nat → hidden c = false →
  dispatch n this' (wrapper db) _ c s = dispatch n this ov _ c s.
Proof.
  intros Hov Hdb. induction n as [|n IH]; intros R c s Hn Hh; pose proof (depth_bound R c) as Hd; [lia|].
  pose proof (wrapper_forwards db R c Hh) as Hs. destruct (overload c) eqn:Ho.
  - simpl. rewrite Hs, (inherits _ Hov) by done. apply bodies_agree; [by apply overload_has_body|by right|].
    intros R' c' s' Hd' [Hc'|[]]; [|congruence]. apply IH; [lia|done].
  - transitivity (db _ c s); [simpl; by rewrite Hs|]. rewrite Hdb by done.
    apply dispatch_stable; [done|lia|lia|by left].
Qed.

Lemma layers_transparent (ov : overrides) (address : nat → Z) (k : nat) R (c : call R) (s : St) :
  base_class ov → hidden c = false →
  layers k address ov _ c s = dispatch max_depth (address O) ov _ c s.
Proof.
  intros Hov. revert R c s. induction k as [|k IH]; intros R c s Hh; [done|].
  apply layer_transparent; [done|exact IH|apply depth_bound|done].
Qed.
End Objects.
