(* ===== verification/Database.v ===== *)
(** * Databases and stacked databases (libs/rocksdb/db.h and utilities/stackable_db.h)

    [DB] is the interface of the storage engine: virtual functions, many of them
    with a body in the header that calls others on the same object, and final
    functions on top.  [StackableDB] wraps a database and overrides most of the
    functions to forward them.

    A virtual function is a constructor of a type of calls, as in Virtual.v; in and
    out parameters are arguments and parts of the result, a pointer that may be null
    is an [option], other pointers and handles are addresses. *)

From stdpp Require Import base list gmap strings.
From Stdlib Require Import ZArith Lia QArith.
From Stdlib.Strings Require Import Byte.
From S2P Require Import Prelude Slice Status Pinnable Scan Virtual.

Open Scope Z_scope.

(** ** The types the calls pass along *)

(** Structs that [DB] and [StackableDB] hand on without looking inside. *)
Class DbTypes := {
  WriteOptions : Type; ReadOptions : Type; ColumnFamilyOptions : Type;
  IngestExternalFileOptions : Type; IngestExternalFileArg : Type;
  ImportColumnFamilyOptions : Type; ExportImportFilesMetaData : Type;
  CompactRangeOptions : Type; CompactionOptions : Type; WaitForCompactOptions : Type;
  Options : Type; DBOptions : Type; FlushOptions : Type; LiveFilesStorageInfoOptions : Type;
  TraceOptions : Type; BlockCacheTraceOptions : Type; LogReadOptions : Type;
  LiveFileMetaData : Type; FileChecksumList : Type; LiveFileStorageInfo : Type;
  ColumnFamilyMetaData : Type; TablePropertiesCollection : Type; CompactionJobInfo : Type;
  ReadOptions_new : ReadOptions;
}.

Record ColumnFamilyDescriptor `{DbTypes} := mkDescriptor { cfd_name : bytes; cfd_options : ColumnFamilyOptions }.

Record SizeApproximationOptions := mkSizeApproximation {
  include_memtables : bool; include_files : bool; files_size_error_margin : Q;
}.
Definition SizeApproximationOptions_new : SizeApproximationOptions := mkSizeApproximation false true (-1 # 1).

(** [enum class SizeApproximationFlags : uint8_t] and its operators. *)
Definition NONE : Z := 0.
Definition INCLUDE_MEMTABLES : Z := Z.shiftl 1 0.
Definition INCLUDE_FILES : Z := Z.shiftl 1 1.
Definition size_flags_and (lhs rhs : Z) : Z := Z.land lhs rhs.
Definition size_flags_or (lhs rhs : Z) : Z := Z.lor lhs rhs.

(** The functions a call can be. *)
Ltac by_function c := destruct c as [? []|? []|? []|? []|? []|? []|? []|? []|? []|? []|? []|? []|? []|? []].

Section Calls.
Context `{DT : DbTypes}.

(** ** The virtual functions *)

(** The functions are grouped as the headers have them.  The suffix [_d] marks an
    overload for the default column family, [_ts] one with a timestamp; arrays are
    lists. *)
Inductive fam_call : Type → Type :=
| CreateColumnFamily (options : ColumnFamilyOptions) (name : bytes) (handle : Z) : fam_call (Status * Z)
| CreateColumnFamilies_names (options : ColumnFamilyOptions) (names : list bytes) (handles : list Z)
    : fam_call (Status * list Z)
| CreateColumnFamilies (families : list ColumnFamilyDescriptor) (handles : list Z) : fam_call (Status * list Z)
| DropColumnFamily (column_family : Z) : fam_call Status
| DropColumnFamilies (column_families : list Z) : fam_call Status
| DestroyColumnFamilyHandle (column_family : Z) : fam_call Status
| Close : fam_call Status.

Inductive put_call : Type → Type :=
| Put (options : WriteOptions) (column_family : Z) (key value : Slice) : put_call Status
| Put_ts (options : WriteOptions) (column_family : Z) (key ts value : Slice) : put_call Status
| Put_d (options : WriteOptions) (key value : Slice) : put_call Status
| Put_d_ts (options : WriteOptions) (key ts value : Slice) : put_call Status
| PutEntity (options : WriteOptions) (column_family : Z) (key : Slice) (columns : WideColumns) : put_call Status
| PutEntity_groups (options : WriteOptions) (key : Slice) (groups : list AttributeGroup) : put_call Status.

Inductive del_call : Type → Type :=
| Delete (options : WriteOptions) (column_family : Z) (key : Slice) : del_call Status
| Delete_ts (options : WriteOptions) (column_family : Z) (key ts : Slice) : del_call Status
| Delete_d (options : WriteOptions) (key : Slice) : del_call Status
| Delete_d_ts (options : WriteOptions) (key ts : Slice) : del_call Status
| SingleDelete (options : WriteOptions) (column_family : Z) (key : Slice) : del_call Status
| SingleDelete_ts (options : WriteOptions) (column_family : Z) (key ts : Slice) : del_call Status
| SingleDelete_d (options : WriteOptions) (key : Slice) : del_call Status
| SingleDelete_d_ts (options : WriteOptions) (key ts : Slice) : del_call Status
| DeleteRange (options : WriteOptions) (column_family : Z) (begin_key end_key : Slice) : del_call Status
| DeleteRange_ts (options : WriteOptions) (column_family : Z) (begin_key end_key ts : Slice) : del_call Status
| DeleteRange_d (options : WriteOptions) (begin_key end_key : Slice) : del_call Status
| DeleteRange_d_ts (options : WriteOptions) (begin_key end_key ts : Slice) : del_call Status
| Merge (options : WriteOptions) (column_family : Z) (key value : Slice) : del_call Status
| Merge_d (options : WriteOptions) (key value : Slice) : del_call Status
| Merge_ts (options : WriteOptions) (column_family : Z) (key ts value : Slice) : del_call Status
| Write (options : WriteOptions) (updates : Z) : del_call Status
| WriteWithCallback (options : WriteOptions) (updates user_write_cb : Z) : del_call Status
| IngestWriteBatchWithIndex (options : WriteOptions) (wbwi : Z) : del_call Status.

Inductive get_call : Type → Type :=
| Get (options : ReadOptions) (column_family : Z) (key : Slice) (value : PinnableSlice)
    (timestamp : option bytes) : get_call (Status * PinnableSlice * option bytes)
| GetEntity (options : ReadOptions) (column_family : Z) (key : Slice) (columns : PinnableWideColumns)
    : get_call (Status * PinnableWideColumns)
| GetEntity_groups (options : ReadOptions) (key : Slice) (result : list PinnableAttributeGroup)
    : get_call (Status * list PinnableAttributeGroup)
| GetMergeOperands (options : ReadOptions) (column_family : Z) (key : Slice)
    (merge_operands : list PinnableSlice) (get_merge_operands_options number_of_operands : Z)
    : get_call (Status * list PinnableSlice * Z)
| MultiGet (options : ReadOptions) (num_keys : Z) (column_families : list Z) (keys : list Slice)
    (values : list PinnableSlice) (timestamps : option (list bytes)) (statuses : list Status)
    (sorted_input : bool) : get_call (list PinnableSlice * option (list bytes) * list Status)
| MultiGetEntity (options : ReadOptions) (column_family num_keys : Z) (keys : list Slice)
    (results : list PinnableWideColumns) (statuses : list Status) (sorted_input : bool)
    : get_call (list PinnableWideColumns * list Status)
| MultiGetEntity_cfs (options : ReadOptions) (num_keys : Z) (column_families : list Z) (keys : list Slice)
    (results : list PinnableWideColumns) (statuses : list Status) (sorted_input : bool)
    : get_call (list PinnableWideColumns * list Status)
| MultiGetEntity_groups (options : ReadOptions) (num_keys : Z) (keys : list Slice)
    (results : list (list PinnableAttributeGroup)) : get_call (list (list PinnableAttributeGroup)).

Inductive may_call : Type → Type :=
| KeyMayExist_ts (options : ReadOptions) (column_family : Z) (key : Slice) (value timestamp : option bytes)
    (value_found : option bool) : may_call (bool * option bytes * option bytes * option bool)
| KeyMayExist (options : ReadOptions) (column_family : Z) (key : Slice) (value : option bytes)
    (value_found : option bool) : may_call (bool * option bytes * option bool)
| KeyMayExist_d (options : ReadOptions) (key : Slice) (value : option bytes) (value_found : option bool)
    : may_call (bool * option bytes * option bool)
| KeyMayExist_d_ts (options : ReadOptions) (key : Slice) (value timestamp : option bytes)
    (value_found : option bool) : may_call (bool * option bytes * option bytes * option bool).

Inductive iter_call : Type → Type :=
| NewIterator (options : ReadOptions) (column_family : Z) : iter_call Z
| NewIterator_d (options : ReadOptions) : iter_call Z
| NewIterators (options : ReadOptions) (column_families iterators : list Z) : iter_call (Status * list Z)
| NewCoalescingIterator (options : ReadOptions) (column_families : list Z) : iter_call Z
| NewAttributeGroupIterator (options : ReadOptions) (column_families : list Z) : iter_call Z
| NewMultiScan (options : ReadOptions) (column_family : Z) (scan_opts : MultiScanArgs) : iter_call Z
| GetSnapshot : iter_call Z
| ReleaseSnapshot (snapshot : Z) : iter_call unit.

Inductive prop_call : Type → Type :=
| GetProperty (column_family : Z) (property : Slice) (value : bytes) : prop_call (bool * bytes)
| GetProperty_d (property : Slice) (value : bytes) : prop_call (bool * bytes)
| GetMapProperty (column_family : Z) (property : Slice) (value : property_map) : prop_call (bool * property_map)
| GetMapProperty_d (property : Slice) (value : property_map) : prop_call (bool * property_map)
| GetIntProperty (column_family : Z) (property : Slice) (value : Z) : prop_call (bool * Z)
| GetIntProperty_d (property : Slice) (value : Z) : prop_call (bool * Z)
| ResetStats : prop_call Status
| GetAggregatedIntProperty (property : Slice) (value : Z) : prop_call (bool * Z)
| GetApproximateSizes (options : SizeApproximationOptions) (column_family : Z) (ranges : list Range) (n : Z)
    (sizes : list Z) : prop_call (Status * list Z)
| GetApproximateSizes_flags (column_family : Z) (ranges : list Range) (n : Z) (sizes : list Z)
    (include_flags : Z) : prop_call (Status * list Z)
| GetApproximateSizes_d (ranges : list Range) (n : Z) (sizes : list Z) (include_flags : Z)
    : prop_call (Status * list Z)
| GetApproximateMemTableStats (column_family : Z) (range : Range) (count size : Z) : prop_call (Z * Z)
| GetApproximateMemTableStats_d (range : Range) (count size : Z) : prop_call (Z * Z).

Inductive comp_call : Type → Type :=
| CompactRange (options : CompactRangeOptions) (column_family : Z) (begin_ end_ : option Slice) : comp_call Status
| CompactRange_d (options : CompactRangeOptions) (begin_ end_ : option Slice) : comp_call Status
| SetOptions (column_family : Z) (new_options : property_map) : comp_call Status
| SetOptions_d (new_options : property_map) : comp_call Status
| SetDBOptions (new_options : property_map) : comp_call Status
| CompactFiles (options : CompactionOptions) (column_family : Z) (input_file_names : list bytes)
    (output_level output_path_id : Z) (output_file_names : option (list bytes))
    (compaction_job_info : option CompactionJobInfo)
    : comp_call (Status * option (list bytes) * option CompactionJobInfo)
| CompactFiles_d (options : CompactionOptions) (input_file_names : list bytes)
    (output_level output_path_id : Z) (output_file_names : option (list bytes))
    (compaction_job_info : option CompactionJobInfo)
    : comp_call (Status * option (list bytes) * option CompactionJobInfo)
| PauseBackgroundWork : comp_call Status
| ContinueBackgroundWork : comp_call Status
| EnableAutoCompaction (column_family_handles : list Z) : comp_call Status
| DisableManualCompaction : comp_call unit
| EnableManualCompaction : comp_call unit
| WaitForCompact (options : WaitForCompactOptions) : comp_call Status
| NumberLevels (column_family : Z) : comp_call Z
| NumberLevels_d : comp_call Z
| MaxMemCompactionLevel (column_family : Z) : comp_call Z
| MaxMemCompactionLevel_d : comp_call Z
| Level0StopWriteTrigger (column_family : Z) : comp_call Z
| Level0StopWriteTrigger_d : comp_call Z.

Inductive flush_call : Type → Type :=
| GetName : flush_call bytes
| GetEnv : flush_call Z
| GetFileSystem : flush_call Z
| GetOptions (column_family : Z) : flush_call Options
| GetOptions_d : flush_call Options
| GetDBOptions : flush_call DBOptions
| Flush (options : FlushOptions) (column_family : Z) : flush_call Status
| Flush_d (options : FlushOptions) : flush_call Status
| Flush_cfs (options : FlushOptions) (column_families : list Z) : flush_call Status
| FlushWAL (sync : bool) : flush_call Status
| SyncWAL : flush_call Status
| LockWAL : flush_call Status
| UnlockWAL : flush_call Status
| DisableFileDeletions : flush_call Status
| EnableFileDeletions : flush_call Status.

Inductive live_call : Type → Type :=
| GetLiveFilesMetaData (metadata : list LiveFileMetaData) : live_call (list LiveFileMetaData)
| GetLiveFilesChecksumInfo (checksum_list : FileChecksumList) : live_call (Status * FileChecksumList)
| GetLiveFilesStorageInfo (opts : LiveFilesStorageInfoOptions) (files : list LiveFileStorageInfo)
    : live_call (Status * list LiveFileStorageInfo)
| GetColumnFamilyMetaData (column_family : Z) (metadata : ColumnFamilyMetaData) : live_call ColumnFamilyMetaData
| GetAllColumnFamilyMetaData (metadata : list ColumnFamilyMetaData) : live_call (list ColumnFamilyMetaData).

Inductive trace_call : Type → Type :=
| StartTrace (options : TraceOptions) (trace_writer : Z) : trace_call Status
| EndTrace : trace_call Status
| StartIOTrace (options : TraceOptions) (trace_writer : Z) : trace_call Status
| EndIOTrace : trace_call Status
| StartBlockCacheTrace (trace_options : TraceOptions) (trace_writer : Z) : trace_call Status
| StartBlockCacheTrace_writer (options : BlockCacheTraceOptions) (trace_writer : Z) : trace_call Status
| EndBlockCacheTrace : trace_call Status
| NewDefaultReplayer (handles : list Z) (reader replayer : Z) : trace_call (Status * Z)
| GetRootDB : trace_call Z
| GetStatsHistory (start_time end_time stats_iterator : Z) : trace_call (Status * Z).

Inductive hist_call : Type → Type :=
| GetLiveFiles (vec : list bytes) (manifest_file_size : Z) (flush_memtable : bool)
    : hist_call (Status * list bytes * Z)
| GetLatestSequenceNumber : hist_call Z
| IncreaseFullHistoryTsLow (column_family : Z) (ts_low : bytes) : hist_call Status
| GetFullHistoryTsLow (column_family : Z) (ts_low : bytes) : hist_call (Status * bytes)
| GetNewestUserDefinedTimestamp (column_family : Z) (newest_timestamp : bytes) : hist_call (Status * bytes)
| GetSortedWalFiles (files : list Z) : hist_call (Status * list Z)
| GetCurrentWalFile (current_wal_file : Z) : hist_call (Status * Z)
| GetCreationTimeOfOldestFile (creation_time : Z) : hist_call (Status * Z)
| GetDbIdentity (identity : bytes) : hist_call (Status * bytes)
| GetDbSessionId (session_id : bytes) : hist_call (Status * bytes).

Inductive table_call : Type → Type :=
| GetPropertiesOfAllTables (column_family : Z) (props : TablePropertiesCollection)
    : table_call (Status * TablePropertiesCollection)
| GetPropertiesOfAllTables_d (props : TablePropertiesCollection) : table_call (Status * TablePropertiesCollection)
| GetPropertiesOfTablesInRange (column_family : Z) (range : list Range) (n : Z)
    (props : TablePropertiesCollection) : table_call (Status * TablePropertiesCollection)
| GetPropertiesOfTablesByLevel (column_family : Z) (props_by_level : list TablePropertiesCollection)
    : table_call (Status * list TablePropertiesCollection)
| GetUpdatesSince (seq_number iter : Z) (read_options : LogReadOptions) : table_call (Status * Z)
| SuggestCompactRange (column_family : Z) (begin_ end_ : option Slice) : table_call Status
| PromoteL0 (column_family target_level : Z) : table_call Status
| DefaultColumnFamily : table_call Z
| TryCatchUpWithPrimary : table_call Status
| Resume : table_call Status.

Inductive ingest_call : Type → Type :=
| IngestExternalFile (column_family : Z) (external_files : list bytes) (options : IngestExternalFileOptions)
    : ingest_call Status
| IngestExternalFile_d (external_files : list bytes) (options : IngestExternalFileOptions) : ingest_call Status
| IngestExternalFiles (args : list IngestExternalFileArg) : ingest_call Status
| CreateColumnFamilyWithImport_one (options : ColumnFamilyOptions) (name : bytes)
    (import : ImportColumnFamilyOptions) (metadata : ExportImportFilesMetaData) (handle : Z) : ingest_call (Status * Z)
| CreateColumnFamilyWithImport (options : ColumnFamilyOptions) (name : bytes)
    (import : ImportColumnFamilyOptions) (metadatas : list ExportImportFilesMetaData) (handle : Z)
    : ingest_call (Status * Z)
| ClipColumnFamily (column_family : Z) (begin_key end_key : Slice) : ingest_call Status
| VerifyFileChecksums (read_options : ReadOptions) : ingest_call Status
| VerifyChecksum (read_options : ReadOptions) : ingest_call Status
| VerifyChecksum_d : ingest_call Status.

Inductive call : Type → Type :=
| Fam {R} (c : fam_call R) : call R
| Pt {R} (c : put_call R) : call R
| Dl {R} (c : del_call R) : call R
| Gt {R} (c : get_call R) : call R
| May {R} (c : may_call R) : call R
| It {R} (c : iter_call R) : call R
| Pr {R} (c : prop_call R) : call R
| Cm {R} (c : comp_call R) : call R
| Fl {R} (c : flush_call R) : call R
| Lv {R} (c : live_call R) : call R
| Tr {R} (c : trace_call R) : call R
| Hs {R} (c : hist_call R) : call R
| Tb {R} (c : table_call R) : call R
| Ig {R} (c : ingest_call R) : call R.

(** ** The bodies of the header *)

(** The state the calls act on. *)
Context {St : Type}.

#[local] Abbreviation M := (M St).
#[local] Abbreviation object := (object call St).
#[local] Abbreviation overrides := (overrides call St).

(** What the header does not define: bodies of [DB], the iterator
    [NewErrorIterator] makes, wrapped in a [MultiScan], and the final overload of
    [MultiGet] for the keys of one column family. *)
Class DbImpl := {
  db_body : object → object;
  error_scan : Status → M Z;
  multiget_family : object → ReadOptions → Z → Z → list Slice → list PinnableSlice → option (list bytes) →
    list Status → bool → M (list PinnableSlice * option (list bytes) * list Status);
}.

Context `{SI : StatusImpl, DI : DbImpl}.

(** [Status::NotSupported("...")]. *)
Definition not_supported (s : string) : Status :=
  NotSupported (Slice_cstr (Some (lit s ++ [x00]))) Slice_empty.

Definition db_fam (self : object) {R} (c : fam_call R) : M R :=
  match c in fam_call T return M T with
  | CreateColumnFamily options name handle => db_body self _ (Fam (CreateColumnFamily options name handle))
  | CreateColumnFamilies_names options names handles =>
      db_body self _ (Fam (CreateColumnFamilies_names options names handles))
  | CreateColumnFamilies families handles => db_body self _ (Fam (CreateColumnFamilies families handles))
  | DropColumnFamily cf => db_body self _ (Fam (DropColumnFamily cf))
  | DropColumnFamilies cfs => db_body self _ (Fam (DropColumnFamilies cfs))
  | DestroyColumnFamilyHandle cf => db_body self _ (Fam (DestroyColumnFamilyHandle cf))
  | Close => ret (NotSupported_sub kNone)
  end.

Definition db_put (self : object) {R} (c : put_call R) : M R :=
  match c in put_call T return M T with
  | Put_d options key value =>
      cf ← self _ (Tb DefaultColumnFamily); self _ (Pt (Put options cf key value))
  | Put_d_ts options key ts value =>
      cf ← self _ (Tb DefaultColumnFamily); self _ (Pt (Put_ts options cf key ts value))
  | PutEntity options cf key columns => db_body self _ (Pt (PutEntity options cf key columns))
  | PutEntity_groups options key groups => db_body self _ (Pt (PutEntity_groups options key groups))
  | _ => pure_virtual
  end.

Definition db_del (self : object) {R} (c : del_call R) : M R :=
  match c in del_call T return M T with
  | Delete_d options key =>
      cf ← self _ (Tb DefaultColumnFamily); self _ (Dl (Delete options cf key))
  | Delete_d_ts options key ts =>
      cf ← self _ (Tb DefaultColumnFamily); self _ (Dl (Delete_ts options cf key ts))
  | SingleDelete_d options key =>
      cf ← self _ (Tb DefaultColumnFamily); self _ (Dl (SingleDelete options cf key))
  | SingleDelete_d_ts options key ts =>
      cf ← self _ (Tb DefaultColumnFamily); self _ (Dl (SingleDelete_ts options cf key ts))
  | DeleteRange options cf begin_key end_key => db_body self _ (Dl (DeleteRange options cf begin_key end_key))
  | DeleteRange_ts options cf begin_key end_key ts =>
      db_body self _ (Dl (DeleteRange_ts options cf begin_key end_key ts))
  | DeleteRange_d options begin_key end_key =>
      cf ← self _ (Tb DefaultColumnFamily); self _ (Dl (DeleteRange options cf begin_key end_key))
  | DeleteRange_d_ts options begin_key end_key ts =>
      cf ← self _ (Tb DefaultColumnFamily); self _ (Dl (DeleteRange_ts options cf begin_key end_key ts))
  | Merge_d options key value =>
      cf ← self _ (Tb DefaultColumnFamily); self _ (Dl (Merge options cf key value))
  | Merge_ts options cf key ts value => db_body self _ (Dl (Merge_ts options cf key ts value))
  | WriteWithCallback _ _ _ => ret (not_supported "WriteWithCallback not implemented for this interface.")
  | IngestWriteBatchWithIndex _ _ => ret (not_supported "IngestWriteBatchWithIndex not implemented.")
  | _ => pure_virtual
  end.

(** [for (size_t i = 0; i < num_keys; ++i) a[i] = x], for an array of at least
    that size. *)
Definition fill {A} (num_keys : Z) (x : A) (a : list A) : option (list A) :=
  if (Z.to_nat num_keys <=? length a)%nat
  then Some (replicate (Z.to_nat num_keys) x ++ drop (Z.to_nat num_keys) a) else None.

(** The inner loop of [MultiGetEntity] over the groups of one key. *)
Definition groups_unsupported (gs : list PinnableAttributeGroup) : list PinnableAttributeGroup :=
  (λ g, SetStatus g (not_supported "MultiGetEntity not supported")) <$> gs.

Definition db_get (self : object) {R} (c : get_call R) : M R :=
  match c in get_call T return M T with
  | GetEntity _ _ _ columns => ret (not_supported "GetEntity not supported", columns)
  | GetEntity_groups _ _ result => ret (not_supported "GetEntity not supported", result)
  | MultiGetEntity _ _ num_keys _ results statuses _ =>
      M_opt (l ← fill num_keys (not_supported "MultiGetEntity not supported") statuses; Some (results, l))
  | MultiGetEntity_cfs _ num_keys _ _ results statuses _ =>
      M_opt (l ← fill num_keys (not_supported "MultiGetEntity not supported") statuses; Some (results, l))
  | MultiGetEntity_groups _ num_keys _ results =>
      M_opt (if (Z.to_nat num_keys <=? length results)%nat
             then Some ((groups_unsupported <$> take (Z.to_nat num_keys) results) ++
                        drop (Z.to_nat num_keys) results)
             else None)
  | _ => pure_virtual
  end.

Definition db_may (self : object) {R} (c : may_call R) : M R :=
  match c in may_call T return M T with
  | KeyMayExist_ts _ _ _ value timestamp value_found =>
      ret (true, value, timestamp, assign_if value_found false)
  | KeyMayExist options cf key value value_found =>
      '(r, value, _, value_found) ← self _ (May (KeyMayExist_ts options cf key value None value_found));
      ret (r, value, value_found)
  | KeyMayExist_d options key value value_found =>
      cf ← self _ (Tb DefaultColumnFamily); self _ (May (KeyMayExist options cf key value value_found))
  | KeyMayExist_d_ts options key value timestamp value_found =>
      cf ← self _ (Tb DefaultColumnFamily);
      self _ (May (KeyMayExist_ts options cf key value timestamp value_found))
  end.

Definition db_iter (self : object) {R} (c : iter_call R) : M R :=
  match c in iter_call T return M T with
  | NewIterator_d options => cf ← self _ (Tb DefaultColumnFamily); self _ (It (NewIterator options cf))
  | NewMultiScan _ _ _ => error_scan (NotSupported_sub kNone)
  | _ => pure_virtual
  end.

(** [GetApproximateSizes] with flags: the options it makes of them. *)
Definition size_options (include_flags : Z) : SizeApproximationOptions :=
  let options := SizeApproximationOptions_new in
  mkSizeApproximation (negb (size_flags_and include_flags INCLUDE_MEMTABLES =? NONE))
    (negb (size_flags_and include_flags INCLUDE_FILES =? NONE)) (files_size_error_margin options).

Definition db_prop (self : object) {R} (c : prop_call R) : M R :=
  match c in prop_call T return M T with
  | GetProperty_d property value =>
      cf ← self _ (Tb DefaultColumnFamily); self _ (Pr (GetProperty cf property value))
  | GetMapProperty_d property value =>
      cf ← self _ (Tb DefaultColumnFamily); self _ (Pr (GetMapProperty cf property value))
  | GetIntProperty_d property value =>
      cf ← self _ (Tb DefaultColumnFamily); self _ (Pr (GetIntProperty cf property value))
  | ResetStats => ret (not_supported "Not implemented")
  | GetApproximateSizes_flags cf ranges n sizes include_flags =>
      self _ (Pr (GetApproximateSizes (size_options include_flags) cf ranges n sizes))
  | GetApproximateSizes_d ranges n sizes include_flags =>
      cf ← self _ (Tb DefaultColumnFamily);
      self _ (Pr (GetApproximateSizes_flags cf ranges n sizes include_flags))
  | GetApproximateMemTableStats_d range count size =>
      cf ← self _ (Tb DefaultColumnFamily); self _ (Pr (GetApproximateMemTableStats cf range count size))
  | _ => pure_virtual
  end.

Definition db_comp (self : object) {R} (c : comp_call R) : M R :=
  match c in comp_call T return M T with
  | CompactRange_d options begin_ end_ =>
      cf ← self _ (Tb DefaultColumnFamily); self _ (Cm (CompactRange options cf begin_ end_))
  | SetOptions _ _ => ret (not_supported "Not implemented")
  | SetOptions_d new_options =>
      cf ← self _ (Tb DefaultColumnFamily); self _ (Cm (SetOptions cf new_options))
  | CompactFiles_d options inputs output_level output_path_id outputs info =>
      cf ← self _ (Tb DefaultColumnFamily);
      self _ (Cm (CompactFiles options cf inputs output_level output_path_id outputs info))
  | NumberLevels_d => cf ← self _ (Tb DefaultColumnFamily); self _ (Cm (NumberLevels cf))
  | MaxMemCompactionLevel _ => ret 0
  | MaxMemCompactionLevel_d => cf ← self _ (Tb DefaultColumnFamily); self _ (Cm (MaxMemCompactionLevel cf))
  | Level0StopWriteTrigger_d => cf ← self _ (Tb DefaultColumnFamily); self _ (Cm (Level0StopWriteTrigger cf))
  | _ => pure_virtual
  end.

Definition db_flush (self : object) {R} (c : flush_call R) : M R :=
  match c in flush_call T return M T with
  | GetFileSystem => db_body self _ (Fl GetFileSystem)
  | GetOptions_d => cf ← self _ (Tb DefaultColumnFamily); self _ (Fl (GetOptions cf))
  | Flush_d options => cf ← self _ (Tb DefaultColumnFamily); self _ (Fl (Flush options cf))
  | FlushWAL _ => ret (not_supported "FlushWAL not implemented")
  | LockWAL => ret (not_supported "LockWAL not implemented")
  | UnlockWAL => ret (not_supported "UnlockWAL not implemented")
  | _ => pure_virtual
  end.

Definition db_live (self : object) {R} (c : live_call R) : M R :=
  match c in live_call T return M T with
  | GetLiveFilesMetaData metadata => ret metadata
  | GetColumnFamilyMetaData _ metadata => ret metadata
  | GetAllColumnFamilyMetaData metadata => ret metadata
  | _ => pure_virtual
  end.

(** [this] is the address of the object. *)
Definition db_trace (this : Z) (self : object) {R} (c : trace_call R) : M R :=
  match c in trace_call T return M T with
  | StartTrace _ _ => ret (not_supported "StartTrace() is not implemented.")
  | EndTrace => ret (not_supported "EndTrace() is not implemented.")
  | StartIOTrace _ _ => ret (not_supported "StartIOTrace() is not implemented.")
  | EndIOTrace => ret (not_supported "EndIOTrace() is not implemented.")
  | StartBlockCacheTrace _ _ => ret (not_supported "StartBlockCacheTrace() is not implemented.")
  | StartBlockCacheTrace_writer _ _ => ret (not_supported "StartBlockCacheTrace() is not implemented.")
  | EndBlockCacheTrace => ret (not_supported "EndBlockCacheTrace() is not implemented.")
  | NewDefaultReplayer _ _ replayer => ret (not_supported "NewDefaultReplayer() is not implemented.", replayer)
  | GetRootDB => ret this
  | GetStatsHistory _ _ stats_iterator =>
      ret (not_supported "GetStatsHistory() is not implemented.", stats_iterator)
  end.

Definition db_table (self : object) {R} (c : table_call R) : M R :=
  match c in table_call T return M T with
  | GetPropertiesOfAllTables_d props =>
      cf ← self _ (Tb DefaultColumnFamily); self _ (Tb (GetPropertiesOfAllTables cf props))
  | SuggestCompactRange _ _ _ => ret (not_supported "SuggestCompactRange() is not implemented.")
  | PromoteL0 _ _ => ret (not_supported "PromoteL0() is not implemented.")
  | TryCatchUpWithPrimary => ret (not_supported "Supported only by secondary instance")
  | Resume => ret (NotSupported_sub kNone)
  | _ => pure_virtual
  end.

Definition db_ingest (self : object) {R} (c : ingest_call R) : M R :=
  match c in ingest_call T return M T with
  | IngestExternalFile_d external_files options =>
      cf ← self _ (Tb DefaultColumnFamily); self _ (Ig (IngestExternalFile cf external_files options))
  | CreateColumnFamilyWithImport_one options name import metadata handle =>
      self _ (Ig (CreateColumnFamilyWithImport options name import [metadata] handle))
  | VerifyFileChecksums _ => ret (not_supported "File verification not supported")
  | VerifyChecksum_d => self _ (Ig (VerifyChecksum ReadOptions_new))
  | _ => pure_virtual
  end.

Definition db_bodies (this : Z) (self : object) : object := λ R c,
  match c in call T return M T with
  | Fam c => db_fam self c
  | Pt c => db_put self c
  | Dl c => db_del self c
  | Gt c => db_get self c
  | May c => db_may self c
  | It c => db_iter self c
  | Pr c => db_prop self c
  | Cm c => db_comp self c
  | Fl c => db_flush self c
  | Lv c => db_live self c
  | Tr c => db_trace this self c
  | Hs _ => pure_virtual
  | Tb c => db_table self c
  | Ig c => db_ingest self c
  end.

(** ** StackableDB *)

(** [None]: the function is inherited from [DB]. *)
Definition stack_fam (db_ : object) {R} (c : fam_call R) : option (M R) :=
  match c in fam_call T return option (M T) with
  | CreateColumnFamily options name handle => Some (db_ _ (Fam (CreateColumnFamily options name handle)))
  | CreateColumnFamilies_names options names handles =>
      Some (db_ _ (Fam (CreateColumnFamilies_names options names handles)))
  | CreateColumnFamilies families handles => Some (db_ _ (Fam (CreateColumnFamilies families handles)))
  | DropColumnFamily cf => Some (db_ _ (Fam (DropColumnFamily cf)))
  | DropColumnFamilies cfs => Some (db_ _ (Fam (DropColumnFamilies cfs)))
  | DestroyColumnFamilyHandle cf => Some (db_ _ (Fam (DestroyColumnFamilyHandle cf)))
  | Close => Some (db_ _ (Fam Close))
  end.

Definition stack_put (db_ : object) {R} (c : put_call R) : option (M R) :=
  match c in put_call T return option (M T) with
  | Put options cf key val => Some (db_ _ (Pt (Put options cf key val)))
  | Put_ts options cf key ts val => Some (db_ _ (Pt (Put_ts options cf key ts val)))
  | PutEntity options cf key columns => Some (db_ _ (Pt (PutEntity options cf key columns)))
  | PutEntity_groups options key groups => Some (db_ _ (Pt (PutEntity_groups options key groups)))
  | Put_d _ _ _ | Put_d_ts _ _ _ _ => None
  end.

Definition stack_del (db_ : object) {R} (c : del_call R) : option (M R) :=
  match c in del_call T return option (M T) with
  | Delete wopts cf key => Some (db_ _ (Dl (Delete wopts cf key)))
  | Delete_ts wopts cf key ts => Some (db_ _ (Dl (Delete_ts wopts cf key ts)))
  | SingleDelete wopts cf key => Some (db_ _ (Dl (SingleDelete wopts cf key)))
  | SingleDelete_ts wopts cf key ts => Some (db_ _ (Dl (SingleDelete_ts wopts cf key ts)))
  | DeleteRange wopts cf start_key end_key => Some (db_ _ (Dl (DeleteRange wopts cf start_key end_key)))
  | Merge options cf key value => Some (db_ _ (Dl (Merge options cf key value)))
  | Merge_ts options cf key ts value => Some (db_ _ (Dl (Merge_ts options cf key ts value)))
  | Write opts updates => Some (db_ _ (Dl (Write opts updates)))
  | Delete_d _ _ | Delete_d_ts _ _ _ | SingleDelete_d _ _ | SingleDelete_d_ts _ _ _
  | DeleteRange_ts _ _ _ _ _ | DeleteRange_d _ _ _ | DeleteRange_d_ts _ _ _ _ | Merge_d _ _ _
  | WriteWithCallback _ _ _ | IngestWriteBatchWithIndex _ _ => None
  end.

Definition stack_get (db_ : object) {R} (c : get_call R) : option (M R) :=
  match c in get_call T return option (M T) with
  | Get options cf key value timestamp => Some (db_ _ (Gt (Get options cf key value timestamp)))
  | GetEntity options cf key columns => Some (db_ _ (Gt (GetEntity options cf key columns)))
  | GetEntity_groups options key result => Some (db_ _ (Gt (GetEntity_groups options key result)))
  | GetMergeOperands options cf key slice operands_options number_of_operands =>
      Some (db_ _ (Gt (GetMergeOperands options cf key slice operands_options number_of_operands)))
  | MultiGet options num_keys cfs keys values timestamps statuses sorted_input =>
      Some (db_ _ (Gt (MultiGet options num_keys cfs keys values timestamps statuses sorted_input)))
  | MultiGetEntity options cf num_keys keys results statuses sorted_input =>
      Some (db_ _ (Gt (MultiGetEntity options cf num_keys keys results statuses sorted_input)))
  | MultiGetEntity_cfs options num_keys cfs keys results statuses sorted_input =>
      Some (db_ _ (Gt (MultiGetEntity_cfs options num_keys cfs keys results statuses sorted_input)))
  | MultiGetEntity_groups options num_keys keys results =>
      Some (db_ _ (Gt (MultiGetEntity_groups options num_keys keys results)))
  end.

Definition stack_may (db_ : object) {R} (c : may_call R) : option (M R) :=
  match c in may_call T return option (M T) with
  | KeyMayExist options cf key value value_found =>
      Some (db_ _ (May (KeyMayExist options cf key value value_found)))
  | KeyMayExist_ts _ _ _ _ _ _ | KeyMayExist_d _ _ _ _ | KeyMayExist_d_ts _ _ _ _ _ => None
  end.

Definition stack_iter (db_ : object) {R} (c : iter_call R) : option (M R) :=
  match c in iter_call T return option (M T) with
  | NewIterator opts cf => Some (db_ _ (It (NewIterator opts cf)))
  | NewIterators options cfs iterators => Some (db_ _ (It (NewIterators options cfs iterators)))
  | NewCoalescingIterator options cfs => Some (db_ _ (It (NewCoalescingIterator options cfs)))
  | NewAttributeGroupIterator options cfs => Some (db_ _ (It (NewAttributeGroupIterator options cfs)))
  | NewMultiScan opts cf scan_opts => Some (db_ _ (It (NewMultiScan opts cf scan_opts)))
  | GetSnapshot => Some (db_ _ (It GetSnapshot))
  | ReleaseSnapshot snapshot => Some (db_ _ (It (ReleaseSnapshot snapshot)))
  | NewIterator_d _ => None
  end.

Definition stack_prop (db_ : object) {R} (c : prop_call R) : option (M R) :=
  match c in prop_call T return option (M T) with
  | GetProperty cf property value => Some (db_ _ (Pr (GetProperty cf property value)))
  | GetMapProperty cf property value => Some (db_ _ (Pr (GetMapProperty cf property value)))
  | GetIntProperty cf property value => Some (db_ _ (Pr (GetIntProperty cf property value)))
  | ResetStats => Some (db_ _ (Pr ResetStats))
  | GetAggregatedIntProperty property value => Some (db_ _ (Pr (GetAggregatedIntProperty property value)))
  | GetApproximateSizes options cf r n sizes => Some (db_ _ (Pr (GetApproximateSizes options cf r n sizes)))
  | GetApproximateMemTableStats cf range count size =>
      Some (db_ _ (Pr (GetApproximateMemTableStats cf range count size)))
  | GetProperty_d _ _ | GetMapProperty_d _ _ | GetIntProperty_d _ _
  | GetApproximateSizes_flags _ _ _ _ _ | GetApproximateSizes_d _ _ _ _
  | GetApproximateMemTableStats_d _ _ _ => None
  end.

Definition stack_comp (db_ : object) {R} (c : comp_call R) : option (M R) :=
  match c in comp_call T return option (M T) with
  | CompactRange options cf begin_ end_ => Some (db_ _ (Cm (CompactRange options cf begin_ end_)))
  | SetOptions cf new_options => Some (db_ _ (Cm (SetOptions cf new_options)))
  | SetDBOptions new_options => Some (db_ _ (Cm (SetDBOptions new_options)))
  | CompactFiles options cf inputs output_level output_path_id outputs info =>
      Some (db_ _ (Cm (CompactFiles options cf inputs output_level output_path_id outputs info)))
  | PauseBackgroundWork => Some (db_ _ (Cm PauseBackgroundWork))
  | ContinueBackgroundWork => Some (db_ _ (Cm ContinueBackgroundWork))
  | EnableAutoCompaction handles => Some (db_ _ (Cm (EnableAutoCompaction handles)))
  | DisableManualCompaction => Some (db_ _ (Cm DisableManualCompaction))
  | EnableManualCompaction => Some (db_ _ (Cm EnableManualCompaction))
  | WaitForCompact options => Some (db_ _ (Cm (WaitForCompact options)))
  | NumberLevels cf => Some (db_ _ (Cm (NumberLevels cf)))
  | MaxMemCompactionLevel cf => Some (db_ _ (Cm (MaxMemCompactionLevel cf)))
  | Level0StopWriteTrigger cf => Some (db_ _ (Cm (Level0StopWriteTrigger cf)))
  | CompactRange_d _ _ _ | SetOptions_d _ | CompactFiles_d _ _ _ _ _ _ | NumberLevels_d
  | MaxMemCompactionLevel_d | Level0StopWriteTrigger_d => None
  end.

Definition stack_flush (db_ : object) {R} (c : flush_call R) : option (M R) :=
  match c in flush_call T return option (M T) with
  | GetName => Some (db_ _ (Fl GetName))
  | GetEnv => Some (db_ _ (Fl GetEnv))
  | GetFileSystem => Some (db_ _ (Fl GetFileSystem))
  | GetOptions cf => Some (db_ _ (Fl (GetOptions cf)))
  | GetDBOptions => Some (db_ _ (Fl GetDBOptions))
  | Flush fopts cf => Some (db_ _ (Fl (Flush fopts cf)))
  | Flush_cfs fopts cfs => Some (db_ _ (Fl (Flush_cfs fopts cfs)))
  | FlushWAL sync => Some (db_ _ (Fl (FlushWAL sync)))
  | SyncWAL => Some (db_ _ (Fl SyncWAL))
  | LockWAL => Some (db_ _ (Fl LockWAL))
  | UnlockWAL => Some (db_ _ (Fl UnlockWAL))
  | DisableFileDeletions => Some (db_ _ (Fl DisableFileDeletions))
  | EnableFileDeletions => Some (db_ _ (Fl EnableFileDeletions))
  | GetOptions_d | Flush_d _ => None
  end.

Definition stack_live (db_ : object) {R} (c : live_call R) : option (M R) :=
  match c in live_call T return option (M T) with
  | GetLiveFilesMetaData metadata => Some (db_ _ (Lv (GetLiveFilesMetaData metadata)))
  | GetLiveFilesChecksumInfo checksums => Some (db_ _ (Lv (GetLiveFilesChecksumInfo checksums)))
  | GetLiveFilesStorageInfo opts files => Some (db_ _ (Lv (GetLiveFilesStorageInfo opts files)))
  | GetColumnFamilyMetaData cf cf_meta => Some (db_ _ (Lv (GetColumnFamilyMetaData cf cf_meta)))
  | GetAllColumnFamilyMetaData _ => None
  end.

Definition stack_trace (db_ : object) {R} (c : trace_call R) : option (M R) :=
  match c in trace_call T return option (M T) with
  | StartTrace options writer => Some (db_ _ (Tr (StartTrace options writer)))
  | EndTrace => Some (db_ _ (Tr EndTrace))
  | StartIOTrace options writer => Some (db_ _ (Tr (StartIOTrace options writer)))
  | EndIOTrace => Some (db_ _ (Tr EndIOTrace))
  | StartBlockCacheTrace options writer => Some (db_ _ (Tr (StartBlockCacheTrace options writer)))
  | StartBlockCacheTrace_writer options writer => Some (db_ _ (Tr (StartBlockCacheTrace_writer options writer)))
  | EndBlockCacheTrace => Some (db_ _ (Tr EndBlockCacheTrace))
  | NewDefaultReplayer handles reader replayer => Some (db_ _ (Tr (NewDefaultReplayer handles reader replayer)))
  | GetRootDB => Some (db_ _ (Tr GetRootDB))
  | GetStatsHistory _ _ _ => None
  end.

Definition stack_hist (db_ : object) {R} (c : hist_call R) : option (M R) :=
  match c in hist_call T return option (M T) with
  | GetLiveFiles vec mfs flush_memtable => Some (db_ _ (Hs (GetLiveFiles vec mfs flush_memtable)))
  | GetLatestSequenceNumber => Some (db_ _ (Hs GetLatestSequenceNumber))
  | IncreaseFullHistoryTsLow cf ts_low => Some (db_ _ (Hs (IncreaseFullHistoryTsLow cf ts_low)))
  | GetFullHistoryTsLow cf ts_low => Some (db_ _ (Hs (GetFullHistoryTsLow cf ts_low)))
  | GetNewestUserDefinedTimestamp cf newest => Some (db_ _ (Hs (GetNewestUserDefinedTimestamp cf newest)))
  | GetSortedWalFiles files => Some (db_ _ (Hs (GetSortedWalFiles files)))
  | GetCurrentWalFile file => Some (db_ _ (Hs (GetCurrentWalFile file)))
  | GetCreationTimeOfOldestFile time => Some (db_ _ (Hs (GetCreationTimeOfOldestFile time)))
  | GetDbIdentity identity => Some (db_ _ (Hs (GetDbIdentity identity)))
  | GetDbSessionId session_id => Some (db_ _ (Hs (GetDbSessionId session_id)))
  end.

Definition stack_table (db_ : object) {R} (c : table_call R) : option (M R) :=
  match c in table_call T return option (M T) with
  | GetPropertiesOfAllTables cf props => Some (db_ _ (Tb (GetPropertiesOfAllTables cf props)))
  | GetPropertiesOfTablesInRange cf range n props =>
      Some (db_ _ (Tb (GetPropertiesOfTablesInRange cf range n props)))
  | GetPropertiesOfTablesByLevel cf props_by_level =>
      Some (db_ _ (Tb (GetPropertiesOfTablesByLevel cf props_by_level)))
  | GetUpdatesSince seq_number iter read_options => Some (db_ _ (Tb (GetUpdatesSince seq_number iter read_options)))
  | SuggestCompactRange cf begin_ end_ => Some (db_ _ (Tb (SuggestCompactRange cf begin_ end_)))
  | PromoteL0 cf target_level => Some (db_ _ (Tb (PromoteL0 cf target_level)))
  | DefaultColumnFamily => Some (db_ _ (Tb DefaultColumnFamily))
  | TryCatchUpWithPrimary => Some (db_ _ (Tb TryCatchUpWithPrimary))
  | Resume => Some (db_ _ (Tb Resume))
  | GetPropertiesOfAllTables_d _ => None
  end.

Definition stack_ingest (db_ : object) {R} (c : ingest_call R) : option (M R) :=
  match c in ingest_call T return option (M T) with
  | IngestExternalFile cf files options => Some (db_ _ (Ig (IngestExternalFile cf files options)))
  | IngestExternalFiles args => Some (db_ _ (Ig (IngestExternalFiles args)))
  | CreateColumnFamilyWithImport_one options name import metadata handle =>
      Some (db_ _ (Ig (CreateColumnFamilyWithImport_one options name import metadata handle)))
  | CreateColumnFamilyWithImport options name import metadatas handle =>
      Some (db_ _ (Ig (CreateColumnFamilyWithImport options name import metadatas handle)))
  | ClipColumnFamily cf begin_key end_key => Some (db_ _ (Ig (ClipColumnFamily cf begin_key end_key)))
  | VerifyFileChecksums read_opts => Some (db_ _ (Ig (VerifyFileChecksums read_opts)))
  | VerifyChecksum options => Some (db_ _ (Ig (VerifyChecksum options)))
  | VerifyChecksum_d => Some (db_ _ (Ig VerifyChecksum_d))
  | IngestExternalFile_d _ _ => None
  end.

Definition StackableDB (db_ : object) : overrides := λ R c,
  match c in call T return option (M T) with
  | Fam c => stack_fam db_ c
  | Pt c => stack_put db_ c
  | Dl c => stack_del db_ c
  | Gt c => stack_get db_ c
  | May c => stack_may db_ c
  | It c => stack_iter db_ c
  | Pr c => stack_prop db_ c
  | Cm c => stack_comp db_ c
  | Fl c => stack_flush db_ c
  | Lv c => stack_live db_ c
  | Tr c => stack_trace db_ c
  | Hs c => stack_hist db_ c
  | Tb c => stack_table db_ c
  | Ig c => stack_ingest db_ c
  end.

(** ** The final functions *)

(** What is left in a string that was lent to a pinnable slice: the value is
    copied if the slice was pinned, and is in the string otherwise. *)
Definition lent_string (s : Status) (p : PinnableSlice) : bytes :=
  if ok s && IsPinned p then ToStringView (base p) else GetSelf p.

Definition Get_string_ts (self : object) (options : ReadOptions) (column_family : Z) (key : Slice)
    (value : bytes) (timestamp : option bytes) : M (Status * bytes * option bytes) :=
  '(s, pinnable_val, timestamp) ←
    self _ (Gt (Get options column_family key (PinnableSlice_buf value) timestamp));
  ret (s, lent_string s pinnable_val, timestamp).

Definition Get_pinnable (self : object) (options : ReadOptions) (column_family : Z) (key : Slice)
    (value : PinnableSlice) : M (Status * PinnableSlice) :=
  '(s, value, _) ← self _ (Gt (Get options column_family key value None)); ret (s, value).

Definition Get_string (self : object) (options : ReadOptions) (column_family : Z) (key : Slice)
    (value : bytes) : M (Status * bytes) :=
  '(s, pinnable_val) ← Get_pinnable self options column_family key (PinnableSlice_buf value);
  ret (s, lent_string s pinnable_val).

Definition Get_string_d (self : object) (options : ReadOptions) (key : Slice) (value : bytes)
    : M (Status * bytes) :=
  cf ← self _ (Tb DefaultColumnFamily); Get_string self options cf key value.

Definition Get_string_d_ts (self : object) (options : ReadOptions) (key : Slice) (value : bytes)
    (timestamp : option bytes) : M (Status * bytes * option bytes) :=
  cf ← self _ (Tb DefaultColumnFamily); Get_string_ts self options cf key value timestamp.

(** The loop over the results: the values whose status is OK are assigned. *)
Fixpoint assign_values (statuses : list Status) (pin_values : list PinnableSlice) (values : list bytes)
    : list bytes :=
  match statuses, pin_values, values with
  | s :: statuses', p :: pin_values', v :: values' =>
      (if ok s then ToStringView (base p) else v) :: assign_values statuses' pin_values' values'
  | _, _, _ => values
  end.

Definition MultiGet_vector_ts (self : object) (options : ReadOptions) (column_families : list Z)
    (keys : list Slice) (values : list bytes) (timestamps : option (list bytes))
    : M (list Status * list bytes * option (list bytes)) :=
  let num_keys := length keys in
  let values := resize num_keys [] values in
  let timestamps := resize num_keys [] <$> timestamps in
  '(pin_values, timestamps, statuses) ←
    self _ (Gt (MultiGet options (Z.of_nat num_keys) column_families keys
      (replicate num_keys PinnableSlice_new) timestamps (replicate num_keys Status_new) false));
  ret (statuses, assign_values statuses pin_values values, timestamps).

Definition MultiGet_vector (self : object) (options : ReadOptions) (column_families : list Z)
    (keys : list Slice) (values : list bytes) : M (list Status * list bytes) :=
  let values := resize (length keys) [] values in
  '(statuses, values, _) ← MultiGet_vector_ts self options column_families keys values None;
  ret (statuses, values).

Definition MultiGet_keys (self : object) (options : ReadOptions) (keys : list Slice) (values : list bytes)
    : M (list Status * list bytes) :=
  let values := resize (length keys) [] values in
  cf ← self _ (Tb DefaultColumnFamily);
  MultiGet_vector self options (replicate (length keys) cf) keys values.

Definition MultiGet_keys_ts (self : object) (options : ReadOptions) (keys : list Slice) (values : list bytes)
    (timestamps : option (list bytes)) : M (list Status * list bytes * option (list bytes)) :=
  let values := resize (length keys) [] values in
  cf ← self _ (Tb DefaultColumnFamily);
  MultiGet_vector_ts self options (replicate (length keys) cf) keys values timestamps.

Definition MultiGet_arrays_cf (self : object) (options : ReadOptions) (column_family num_keys : Z)
    (keys : list Slice) (values : list PinnableSlice) (statuses : list Status) (sorted_input : bool)
    : M (list PinnableSlice * list Status) :=
  '(values, _, statuses) ←
    multiget_family self options column_family num_keys keys values None statuses sorted_input;
  ret (values, statuses).

Definition MultiGet_arrays (self : object) (options : ReadOptions) (num_keys : Z) (column_families : list Z)
    (keys : list Slice) (values : list PinnableSlice) (statuses : list Status) (sorted_input : bool)
    : M (list PinnableSlice * list Status) :=
  '(values, _, statuses) ←
    self _ (Gt (MultiGet options num_keys column_families keys values None statuses sorted_input));
  ret (values, statuses).

(** Not virtual. *)
Definition GetColumnFamilyMetaData_d (self : object) (metadata : ColumnFamilyMetaData) : M ColumnFamilyMetaData :=
  cf ← self _ (Tb DefaultColumnFamily); self _ (Lv (GetColumnFamilyMetaData cf metadata)).

(** ** Opening *)

(** The functions that open a database into a [unique_ptr], whose address they
    return; those with a raw pointer release it into the pointer. *)
Class OpenImpl := {
  db_Open : Options → bytes → Z → M (Status * Z);
  db_Open_cfs : DBOptions → bytes → list ColumnFamilyDescriptor → list Z → Z → M (Status * list Z * Z);
  db_OpenForReadOnly : Options → bytes → Z → bool → M (Status * Z);
  db_OpenForReadOnly_cfs :
    DBOptions → bytes → list ColumnFamilyDescriptor → list Z → Z → bool → M (Status * list Z * Z);
  db_OpenAsSecondary : Options → bytes → bytes → Z → M (Status * Z);
  db_OpenAsSecondary_cfs :
    DBOptions → bytes → bytes → list ColumnFamilyDescriptor → list Z → Z → M (Status * list Z * Z);
  db_OpenAndTrimHistory :
    DBOptions → bytes → list ColumnFamilyDescriptor → list Z → Z → bytes → M (Status * list Z * Z);
}.
Context `{OI : OpenImpl}.

(** [dbptr] before the call is lost, also when opening fails. *)
Definition Open_raw (options : Options) (name : bytes) (dbptr : Z) : M (Status * Z) :=
  '(s, smart_ptr) ← db_Open options name 0; ret (s, smart_ptr).
Definition Open_cfs_raw (db_options : DBOptions) (name : bytes) (families : list ColumnFamilyDescriptor)
    (handles : list Z) (dbptr : Z) : M (Status * list Z * Z) :=
  '(s, handles, smart_ptr) ← db_Open_cfs db_options name families handles 0; ret (s, handles, smart_ptr).
Definition OpenForReadOnly_raw (options : Options) (name : bytes) (dbptr : Z) (error_if_wal_file_exists : bool)
    : M (Status * Z) :=
  '(s, smart_ptr) ← db_OpenForReadOnly options name 0 error_if_wal_file_exists; ret (s, smart_ptr).
Definition OpenForReadOnly_cfs_raw (db_options : DBOptions) (name : bytes)
    (families : list ColumnFamilyDescriptor) (handles : list Z) (dbptr : Z) (error_if_wal_file_exists : bool)
    : M (Status * list Z * Z) :=
  '(s, handles, smart_ptr) ←
    db_OpenForReadOnly_cfs db_options name families handles 0 error_if_wal_file_exists;
  ret (s, handles, smart_ptr).
Definition OpenAsSecondary_raw (options : Options) (name secondary_path : bytes) (dbptr : Z) : M (Status * Z) :=
  '(s, smart_ptr) ← db_OpenAsSecondary options name secondary_path 0; ret (s, smart_ptr).
Definition OpenAsSecondary_cfs_raw (db_options : DBOptions) (name secondary_path : bytes)
    (families : list ColumnFamilyDescriptor) (handles : list Z) (dbptr : Z) : M (Status * list Z * Z) :=
  '(s, handles, smart_ptr) ← db_OpenAsSecondary_cfs db_options name secondary_path families handles 0;
  ret (s, handles, smart_ptr).
Definition OpenAndTrimHistory_raw (db_options : DBOptions) (dbname : bytes)
    (families : list ColumnFamilyDescriptor) (handles : list Z) (dbptr : Z) (trim_ts : bytes)
    : M (Status * list Z * Z) :=
  '(s, handles, smart_ptr) ← db_OpenAndTrimHistory db_options dbname families handles 0 trim_ts;
  ret (s, handles, smart_ptr).

(** ** Ownership of the database below *)

(** [shared_db_ptr_] is [None] when it is null. *)
Record Stackable := mkStackable { db_ : Z; shared_db_ptr_ : option Z }.
Definition shared_of (db : Z) : option Z := if db =? 0 then None else Some db.

Definition StackableDB_raw (db : Z) : Stackable := mkStackable db None.
Definition StackableDB_shared (db : Z) : Stackable := mkStackable db (shared_of db).
Definition StackableDB_unique (db : Z) : Stackable := mkStackable db (shared_of db).
Definition GetBaseDB (d : Stackable) : Z := db_ d.

(** What the destructor gives up: the object, or a reference to it.  [None] is the
    failed assertion. *)
Inductive release := Deletes (db : Z) | Drops (db : Z).
Definition StackableDB_destroy (d : Stackable) : option (list release) :=
  match shared_db_ptr_ d with
  | None => Some (if db_ d =? 0 then [] else [Deletes (db_ d)])
  | Some p => if p =? db_ d then Some [Drops p] else None
  end.

(** ** Transparency *)

(** The overloads that only choose the default column family or other options,
    and that [StackableDB] inherits. *)
Definition stack_overload {R} (c : call R) : bool :=
  match c with
  | Cm (SetOptions_d _) | Fl GetOptions_d | Cm NumberLevels_d | Cm MaxMemCompactionLevel_d
  | Cm Level0StopWriteTrigger_d
  | Pt (Put_d _ _ _) | Pt (Put_d_ts _ _ _ _) | Dl (Delete_d _ _) | Dl (Delete_d_ts _ _ _)
  | Dl (SingleDelete_d _ _) | Dl (SingleDelete_d_ts _ _ _) | Dl (DeleteRange_d _ _ _) | Dl (Merge_d _ _ _)
  | May (KeyMayExist_d _ _ _ _) | It (NewIterator_d _)
  | Pr (GetProperty_d _ _) | Pr (GetMapProperty_d _ _) | Pr (GetIntProperty_d _ _)
  | Pr (GetApproximateSizes_flags _ _ _ _ _) | Pr (GetApproximateSizes_d _ _ _ _)
  | Pr (GetApproximateMemTableStats_d _ _ _) | Tb (GetPropertiesOfAllTables_d _)
  | Cm (CompactRange_d _ _ _) | Cm (CompactFiles_d _ _ _ _ _ _) | Fl (Flush_d _)
  | Ig (IngestExternalFile_d _ _) => true
  | _ => false
  end.

(** The functions that [StackableDB] does not forward, with the overloads that
    lead to them. *)
Definition stack_hidden {R} (c : call R) : bool :=
  match c with
  | Dl (DeleteRange_ts _ _ _ _ _) | Dl (DeleteRange_d_ts _ _ _ _) | Dl (WriteWithCallback _ _ _)
  | Dl (IngestWriteBatchWithIndex _ _) | May (KeyMayExist_ts _ _ _ _ _ _) | May (KeyMayExist_d_ts _ _ _ _ _)
  | Tr (GetStatsHistory _ _ _) | Lv (GetAllColumnFamilyMetaData _) => true
  | _ => false
  end.

(** How deep the bodies of the header call the object again. *)
Definition stack_depth {R} (c : call R) : nat :=
  match c with
  | May (KeyMayExist_d _ _ _ _) | Pr (GetApproximateSizes_d _ _ _ _) => 3
  | Ig (CreateColumnFamilyWithImport_one _ _ _ _ _) | May (KeyMayExist _ _ _ _ _)
  | Dl (DeleteRange_d_ts _ _ _ _) | May (KeyMayExist_d_ts _ _ _ _ _) | Ig VerifyChecksum_d => 2
  | _ => if stack_overload c then 2 else 1
  end.

(** The body of [DB] answers by itself or calls the object. *)
Definition stack_has_body {R} (c : call R) : bool :=
  match c with
  | Cm (SetOptions _ _) | Cm (MaxMemCompactionLevel _) | Ig (CreateColumnFamilyWithImport_one _ _ _ _ _)
  | Gt (GetEntity _ _ _ _) | Gt (GetEntity_groups _ _ _) | Gt (MultiGetEntity _ _ _ _ _ _ _)
  | Gt (MultiGetEntity_cfs _ _ _ _ _ _ _) | Gt (MultiGetEntity_groups _ _ _ _) | May (KeyMayExist _ _ _ _ _)
  | May (KeyMayExist_ts _ _ _ _ _ _) | It (NewMultiScan _ _ _)
  | Pr ResetStats | Tr (GetStatsHistory _ _ _) | Tr GetRootDB
  | Tb (SuggestCompactRange _ _ _) | Tb (PromoteL0 _ _) | Fl (FlushWAL _) | Fl LockWAL | Fl UnlockWAL
  | Tb Resume | Fam Close | Tb TryCatchUpWithPrimary
  | Lv (GetLiveFilesMetaData _) | Lv (GetColumnFamilyMetaData _ _) | Lv (GetAllColumnFamilyMetaData _)
  | Ig (VerifyFileChecksums _) | Ig VerifyChecksum_d | Dl (WriteWithCallback _ _ _)
  | Dl (IngestWriteBatchWithIndex _ _) | Tr _ => true
  | _ => stack_overload c
  end.

Lemma stack_depth_bound R (c : call R) : (1 ≤ stack_depth c ≤ 3)%nat.
Proof. by_function c; simpl; lia. Qed.

Lemma stack_overload_body R (c : call R) : stack_overload c = true → stack_has_body c = true.
Proof. by_function c; done. Qed.

(** A call that is forwarded is the same call. *)
Lemma stack_forwards (db : object) R (c : call R) : stack_hidden c = false →
  StackableDB db R c = if stack_overload c then None else Some (db R c).
Proof. by_function c; try done. Qed.

(** A body gives the same result on two objects that agree on the calls it
    makes. *)
Lemma db_bodies_agree (a b : Z) (self self' : object) R (c : call R) s :
  stack_has_body c = true → a = b ∨ stack_overload c = true →
  (∀ R' (c' : call R') s', (stack_depth c' < stack_depth c)%nat →
    stack_hidden c' = false ∨ stack_overload c = false ∧ stack_has_body c' = true →
    self _ c' s' = self' _ c' s') →
  db_bodies a self R c s = db_bodies b self' R c s.
Proof.
  intros Hb Hab Hs.
  by_function c; try discriminate Hb; try reflexivity;
    cbn [db_bodies db_fam db_put db_del db_get db_may db_iter db_prop db_comp db_flush db_live db_trace
         db_table db_ingest]; unfold mbind, M_bind.
  all: try (rewrite (Hs _ (Tb DefaultColumnFamily)) by (simpl; auto with lia); destruct (self' _ _ s) as [[cf s1]|];
    [apply Hs; simpl; auto with lia|reflexivity]).
  all: try (rewrite Hs by (simpl; auto with lia); reflexivity).
  all: try (apply Hs; simpl; auto with lia).
  destruct Hab as [->|[=]]; reflexivity.
Qed.

#[export] Instance stack_wrapper : Transparent call St db_bodies StackableDB := {|
  overload := @stack_overload; hidden := @stack_hidden; has_body := @stack_has_body; depth := @stack_depth;
  max_depth := 3; depth_bound := stack_depth_bound; overload_has_body := stack_overload_body;
  wrapper_forwards := stack_forwards; bodies_agree := db_bodies_agree;
|}.

(** A database of the class [ov], and [k] stackable databases on top of it. *)
Definition database (this : Z) (ov : overrides) : object := dispatch call St db_bodies 3 this ov.
Definition stacked (k : nat) (address : nat → Z) (ov : overrides) : object :=
  layers call St db_bodies StackableDB k address ov.

Lemma stacked_calls (ov : overrides) (address : nat → Z) (k : nat) R (c : call R) (s : St) :
  base_class call St db_bodies StackableDB ov → stack_hidden c = false →
  stacked k address ov _ c s = database (address O) ov _ c s.
Proof. apply layers_transparent. Qed.

(** [C35] Stackable databases are transparent.  Any number of them on top of a
    database whose class inherits the overloads of [DB] and implements what the
    header leaves open answers every call as the database itself would, with the
    same effect, except the calls in [stack_hidden]; the overloads that [StackableDB]
    inherits resolve through the stacked to the same functions with the same
    column family. *)
Theorem stacked_transparent (ov : overrides) (address : nat → Z) (k : nat) R (c : call R) (s : St) :
  base_class call St db_bodies StackableDB ov → stack_hidden c = false →
  stacked k address ov _ c s = database (address O) ov _ c s.
Proof. apply stacked_calls. Qed.

(** What a stackable database hides: whatever the database below supports, these
    calls are answered by the bodies of [DB], that a key may exist and no value was
    found, that writing with a callback, ingesting an indexed batch and the history
    of statistics are not supported, and nothing about the column families. *)
Theorem stacked_hides (ov : overrides) (address : nat → Z) (k : nat) (s : St)
    ro wo cf key value timestamp found updates cb t1 t2 it metas :
  let db := stacked (S k) address ov in
  db _ (May (KeyMayExist_ts ro cf key value timestamp found)) s =
    Some ((true, value, timestamp, assign_if found false), s) ∧
  db _ (Dl (WriteWithCallback wo updates cb)) s =
    Some (not_supported "WriteWithCallback not implemented for this interface.", s) ∧
  db _ (Dl (IngestWriteBatchWithIndex wo updates)) s =
    Some (not_supported "IngestWriteBatchWithIndex not implemented.", s) ∧
  db _ (Tr (GetStatsHistory t1 t2 it)) s =
    Some ((not_supported "GetStatsHistory() is not implemented.", it), s) ∧
  db _ (Lv (GetAllColumnFamilyMetaData metas)) s = Some (metas, s).
Proof. done. Qed.

(** ** Reading into strings *)

Lemma lent_string_view (st : Status) (p : PinnableSlice) :
  in_sync p → ok st = true → lent_string st p = ToStringView (base p).
Proof.
  intros Hp Hok. unfold lent_string, in_sync, IsPinned, GetSelf in *. rewrite Hok. simpl.
  destruct (pinned_ p); [done|]. by rewrite Hp, view_string.
Qed.

Lemma length_assign_values statuses pins values : length (assign_values statuses pins values) = length values.
Proof.
  revert pins values. induction statuses as [|st statuses IH]; intros [|p pins] [|v values]; simpl; [done..|].
  by rewrite IH.
Qed.

Lemma lookup_assign_values statuses pins values i st p v :
  statuses !! i = Some st → pins !! i = Some p → values !! i = Some v →
  assign_values statuses pins values !! i = Some (if ok st then ToStringView (base p) else v).
Proof.
  revert pins values i. induction statuses as [|st' statuses IH]; intros [|p' pins] [|v' values] [|i]; simpl; try done.
  - by intros [= ->] [= ->] [= ->].
  - apply IH.
Qed.

Lemma lookup_resize_default (n i : nat) (l : list bytes) :
  (i < n)%nat → resize n [] l !! i = Some (default [] (l !! i)).
Proof.
  intros Hi. destruct (l !! i) as [v|] eqn:E; simpl.
  - rewrite lookup_resize; [done|done|by eapply lookup_lt_Some].
  - apply lookup_resize_new; [by apply lookup_ge_None|done].
Qed.

(** Reading one key of the default column family into a string, through any number
    of stackable databases: the status and the effect are those of [Get] with a
    pinnable slice on the database, and with the status OK the string has the
    bytes of that slice, whether it was pinned or used the string itself. *)
Theorem get_string_reads (ov : overrides) (address : nat → Z) (k : nat) options key value s cf s1 st p ts s2 :
  base_class call St db_bodies StackableDB ov →
  database (address O) ov _ (Tb DefaultColumnFamily) s = Some (cf, s1) →
  database (address O) ov _ (Gt (Get options cf key (PinnableSlice_buf value) None)) s1 =
    Some ((st, p, ts), s2) →
  (ok st = true → in_sync p) →
  ∃ v, Get_string_d (stacked k address ov) options key value s = Some ((st, v), s2) ∧
    (ok st = true → v = ToStringView (base p)).
Proof.
  intros Hov Hcf Hget Hp. exists (lent_string st p). split.
  - unfold Get_string_d, Get_string, Get_pinnable, mbind, M_bind, ret.
    rewrite (stacked_calls ov address k) by done. rewrite Hcf.
    rewrite (stacked_calls ov address k) by done. by rewrite Hget.
  - intros Hok. apply lent_string_view; auto.
Qed.

(** Reading several keys of the default column family: the statuses are those of
    the call with arrays, which starts with empty slices and statuses, and the
    values have the size of the keys; a key whose status is OK has the bytes of its
    slice as its value, and the others keep the value that was there, or the empty
    one where there was none. *)
Theorem multiget_keys_reads (ov : overrides) (address : nat → Z) (k : nat) options keys values s cf s1 pins ts
    statuses s2 :
  base_class call St db_bodies StackableDB ov →
  database (address O) ov _ (Tb DefaultColumnFamily) s = Some (cf, s1) →
  database (address O) ov _
    (Gt (MultiGet options (Z.of_nat (length keys)) (replicate (length keys) cf) keys
           (replicate (length keys) PinnableSlice_new) None (replicate (length keys) Status_new) false)) s1 =
    Some ((pins, ts, statuses), s2) →
  length pins = length keys → length statuses = length keys →
  ∃ vs, MultiGet_keys (stacked k address ov) options keys values s = Some ((statuses, vs), s2) ∧
    length vs = length keys ∧
    ∀ i st p, statuses !! i = Some st → pins !! i = Some p →
      vs !! i = Some (if ok st then ToStringView (base p) else default [] (values !! i)).
Proof.
  intros Hov Hcf Hget Hlp Hls. eexists. split.
  - unfold MultiGet_keys, MultiGet_vector, MultiGet_vector_ts, mbind, M_bind, ret.
    rewrite (stacked_calls ov address k) by done. rewrite Hcf. simpl fmap.
    rewrite (stacked_calls ov address k) by done. rewrite Hget. reflexivity.
  - rewrite length_assign_values, !length_resize. split; [done|]. intros i st p Hst Hp.
    assert (i < length keys)%nat as Hi by (rewrite <- Hls; by eapply lookup_lt_Some).
    apply lookup_assign_values; [done|done|].
    rewrite !resize_idemp. by apply lookup_resize_default.
Qed.

End Calls.

(** ** A database of one column family *)

#[local] Instance toy_types : DbTypes := {|
  WriteOptions := unit; ReadOptions := unit; ColumnFamilyOptions := unit;
  IngestExternalFileOptions := unit; IngestExternalFileArg := unit;
  ImportColumnFamilyOptions := unit; ExportImportFilesMetaData := unit;
  CompactRangeOptions := unit; CompactionOptions := unit; WaitForCompactOptions := unit;
  Options := unit; DBOptions := unit; FlushOptions := unit; LiveFilesStorageInfoOptions := unit;
  TraceOptions := unit; BlockCacheTraceOptions := unit; LogReadOptions := unit;
  LiveFileMetaData := unit; FileChecksumList := unit; LiveFileStorageInfo := unit;
  ColumnFamilyMetaData := unit; TablePropertiesCollection := unit; CompactionJobInfo := unit;
  ReadOptions_new := tt;
|}.
#[local] Existing Instance concrete_impl.

(** Keys and values, the last write first. *)
Abbreviation toy_state := (list (bytes * bytes)).

Definition toy_find (s : toy_state) (key : Slice) : option bytes :=
  '(_, kv) ← list_find (λ kv, kv.1 = ToStringView key) s; Some kv.2.

#[local] Instance toy_impl : DbImpl (St := toy_state) := {|
  db_body := λ _ _ _ _, None;
  error_scan := λ _ s, Some (0, s);
  multiget_family := λ _ _ _ _ _ values timestamps statuses _ s, Some ((values, timestamps, statuses), s);
|}.

(** The value is in the slice's own string. *)
Definition toy_get (s : toy_state) (key : Slice) (value : PinnableSlice) : Status * PinnableSlice :=
  match toy_find s key with
  | Some v => (OK, mkPinnable (Slice_string v) (cleanable value) v false)
  | None => (NotFound_sub kNone, value)
  end.

Definition toy_put {R} (c : put_call R) : option (M toy_state R) :=
  match c in put_call T return option (M toy_state T) with
  | Put _ _ key value => Some (λ s, Some (OK, (ToStringView key, ToStringView value) :: s))
  | _ => None
  end.
Definition toy_reads {R} (c : get_call R) : option (M toy_state R) :=
  match c in get_call T return option (M toy_state T) with
  | Get _ _ key value timestamp => Some (λ s, Some ((toy_get s key value, timestamp), s))
  | MultiGet _ _ _ keys values timestamps _ _ =>
      Some (λ s, let l := (λ k, toy_get s k PinnableSlice_new) <$> keys in
                 Some ((l.*2, timestamps, l.*1), s))
  | _ => None
  end.
Definition toy_table {R} (c : table_call R) : option (M toy_state R) :=
  match c in table_call T return option (M toy_state T) with DefaultColumnFamily => Some (ret 1) | _ => None end.
Definition toy_calls : overrides call toy_state := λ R c,
  match c in call T return option (M toy_state T) with
  | Pt c => toy_put c
  | Gt c => toy_reads c
  | Tb c => toy_table c
  | _ => None
  end.
Definition toy_db : overrides call toy_state := λ R c,
  match toy_calls R c with
  | Some m => Some m
  | None => if stack_has_body c then None else Some pure_virtual
  end.

Lemma toy_base_class : base_class call toy_state db_bodies StackableDB toy_db.
Proof.
  split.
  - intros R c Ho. by_function c; done.
  - intros R c Hb Hh. by_function c; done.
Qed.

Definition toy_stored (k : nat) : option (Status * toy_state) :=
  stacked k (λ n, Z.of_nat n) toy_db _ (Pt (Put_d tt (Slice_string (lit "key")) (Slice_string (lit "val")))) [].

Lemma stacked_transparent_witness : toy_stored 2 = Some (OK, [(lit "key", lit "val")]).
Proof.
  unfold toy_stored. rewrite (stacked_transparent toy_db (λ n, Z.of_nat n) 2).
  - reflexivity.
  - exact toy_base_class.
  - reflexivity.
Defined.

Lemma get_string_reads_witness :
  ∃ v, Get_string_d (stacked 1 (λ n, Z.of_nat n) toy_db) tt (Slice_string (lit "key")) [] [(lit "key", lit "val")] =
    Some ((OK, v), [(lit "key", lit "val")]) ∧ (ok OK = true → v = lit "val").
Proof.
  destruct (get_string_reads toy_db (λ n, Z.of_nat n) 1 tt (Slice_string (lit "key")) []
    [(lit "key", lit "val")] 1 [(lit "key", lit "val")] OK
    (mkPinnable (Slice_string (lit "val")) Cleanable_new (lit "val") false) None [(lit "key", lit "val")])
    as (v & E & Hv).
  - exact toy_base_class.
  - reflexivity.
  - reflexivity.
  - intros _. reflexivity.
  - exists v. split; [exact E|exact Hv].
Defined.

Lemma multiget_keys_reads_witness :
  ∃ vs, MultiGet_keys (stacked 1 (λ n, Z.of_nat n) toy_db) tt
      [Slice_string (lit "none"); Slice_string (lit "key")] [lit "old"] [(lit "key", lit "val")] =
    Some (([NotFound_sub kNone; OK], vs), [(lit "key", lit "val")]) ∧ length vs = 2%nat ∧
    vs !! 0%nat = Some (lit "old") ∧ vs !! 1%nat = Some (lit "val").
Proof.
  destruct (multiget_keys_reads toy_db (λ n, Z.of_nat n) 1 tt
    [Slice_string (lit "none"); Slice_string (lit "key")] [lit "old"] [(lit "key", lit "val")] 1
    [(lit "key", lit "val")] [PinnableSlice_new; mkPinnable (Slice_string (lit "val")) Cleanable_new (lit "val") false]
    None [NotFound_sub kNone; OK] [(lit "key", lit "val")]) as (vs & E & Hl & Hvs).
  - exact toy_base_class.
  - reflexivity.
  - reflexivity.
  - reflexivity.
  - reflexivity.
  - exists vs. split; [exact E|]. split; [exact Hl|]. split.
    + rewrite (Hvs 0%nat _ _ eq_refl eq_refl). reflexivity.
    + rewrite (Hvs 1%nat _ _ eq_refl eq_refl). reflexivity.
Defined.
