(* ===== verification/FileSystem.v ===== *)
(** * File systems and files (libs/rocksdb/file_system.h)

    The interfaces of a file system and of its files, with the bodies the header
    gives their virtual functions, and the wrappers that forward the calls to a
    target.  Functions, objects and classes are as in Virtual.v; in and out
    parameters are arguments and parts of the result, pointers are addresses, and
    an [IODebugContext] that is passed along is its address. *)

From stdpp Require Import base list gmap strings.
From Stdlib Require Import ZArith Lia.
From Stdlib.Strings Require Import Byte.
From S2P Require Import Prelude Slice Status Virtual.

Open Scope Z_scope.

(** ** Data *)

Inductive Temperature := kUnknownTemperature | kHot | kWarm | kCold | kLastTemperature.

Record FileAttributes := mkAttributes { fa_name : bytes; size_bytes : Z; fa_temperature : Temperature }.
Definition FileAttributes_new : FileAttributes := mkAttributes [] 0 kUnknownTemperature.

Inductive FsyncReason := kNewFileSynced | kFileRenamed | kDirRenamed | kFileDeleted | kDefaultReason.
Record DirFsyncOptions := mkDirFsync { reason : FsyncReason; renamed_new_name : bytes }.

Record DataVerificationInfo := mkVerification { checksum : Slice }.

(** [scratch] and [fs_scratch] are addresses. *)
Record FSReadRequest := mkRequest {
  req_offset : Z; req_len : Z; req_scratch : Z; req_result : Slice; req_status : Status; fs_scratch : Z;
}.
Definition set_outcome (req : FSReadRequest) (s : Status) (result : Slice) : FSReadRequest :=
  mkRequest (req_offset req) (req_len req) (req_scratch req) result s (fs_scratch req).

Definition kDefaultPageSize : Z := 4 * 1024.
(** [FSSupportedOps]. *)
Definition kAsyncIO : Z := 0.

(** ** IODebugContext *)

(** [request_id]: null, the object's own copy, or a string elsewhere. *)
Inductive request_ptr := NoRequest | OwnRequest | RequestAt (contents : bytes).

Record IODebugContext := mkDebug {
  file_path : bytes; counters : list (bytes * Z); dbg_msg : bytes; request_id : request_ptr;
  trace_data : Z; cost_info : Z; own_request_id : bytes;
}.

(** The string [request_id] points to. *)
Definition request_string (d : IODebugContext) : option bytes :=
  match request_id d with NoRequest => None | OwnRequest => Some (own_request_id d) | RequestAt s => Some s end.

(** The copy constructor. *)
Definition IODebugContext_copy (other : IODebugContext) : IODebugContext :=
  mkDebug (file_path other) (counters other) (dbg_msg other)
    (match request_string other with Some _ => OwnRequest | None => NoRequest end)
    (trace_data other) (cost_info other) (default [] (request_string other)).

(** The assignment; [same]: both are one object. *)
Definition debug_assign (same : bool) (this other : IODebugContext) : IODebugContext :=
  if same then this
  else mkDebug (file_path other) (counters other) (dbg_msg other)
    (match request_string other with Some _ => OwnRequest | None => NoRequest end)
    (trace_data other) (cost_info other) (default [] (request_string other)).

(** [std::map::emplace]: an entry that is there stays. *)
Definition AddCounter (d : IODebugContext) (name : bytes) (value : Z) : IODebugContext :=
  if bool_decide (name ∈ (counters d).*1) then d
  else mkDebug (file_path d) (counters d ++ [(name, value)]) (dbg_msg d) (request_id d) (trace_data d)
         (cost_info d) (own_request_id d).

Definition SetRequestId (d : IODebugContext) (updated : option bytes) : IODebugContext :=
  mkDebug (file_path d) (counters d) (dbg_msg d)
    (match updated with Some s => RequestAt s | None => NoRequest end)
    (Z.lor (trace_data d) (Z.shiftl 1 0)) (cost_info d) (own_request_id d).

(** ** The virtual functions *)

(** Structs that are handed on. *)
Class FsTypes := {
  IOOptions : Type; FileOptions : Type; FsDBOptions : Type; ImmutableDBOptions : Type;
}.

Section Interfaces.
Context `{FT : FsTypes} {St : Type} `{SI : StatusImpl}.

(** What [new char[]] contains when a status with a message is built. *)
Context (init : nat → bytes).

(** [IOStatus::NotSupported("...")]. *)
Definition fs_not_supported (s : string) : M St Status :=
  M_opt (IO.io_NotSupported_msg init (Slice_cstr (Some (lit s ++ [x00]))) Slice_empty).

(** The functions of [FileSystem], grouped as the header has them. *)
Inductive fsnew_call : Type → Type :=
| RegisterDbPaths (paths : list bytes) : fsnew_call Status
| UnregisterDbPaths (paths : list bytes) : fsnew_call Status
| NewSequentialFile (fname : bytes) (file_opts : FileOptions) (result : Z) (dbg : Z) : fsnew_call (Status * Z)
| NewRandomAccessFile (fname : bytes) (file_opts : FileOptions) (result : Z) (dbg : Z) : fsnew_call (Status * Z)
| NewWritableFile (fname : bytes) (file_opts : FileOptions) (result : Z) (dbg : Z) : fsnew_call (Status * Z)
| ReopenWritableFile (fname : bytes) (file_opts : FileOptions) (result : Z) (dbg : Z) : fsnew_call (Status * Z)
| ReuseWritableFile (fname old_fname : bytes) (file_opts : FileOptions) (result : Z) (dbg : Z) : fsnew_call
    (Status * Z)
| NewRandomRWFile (fname : bytes) (file_opts : FileOptions) (result : Z) (dbg : Z) : fsnew_call (Status * Z)
| NewMemoryMappedFileBuffer (fname : bytes) (result : Z) : fsnew_call (Status * Z)
| NewDirectory (name : bytes) (io_opts : IOOptions) (result : Z) (dbg : Z) : fsnew_call (Status * Z).

Inductive fsname_call : Type → Type :=
| FileExists (fname : bytes) (options : IOOptions) (dbg : Z) : fsname_call Status
| GetChildren (dir : bytes) (options : IOOptions) (result : list bytes) (dbg : Z) : fsname_call
    (Status * list bytes)
| GetChildrenFileAttributes (dir : bytes) (options : IOOptions) (result : list FileAttributes) (dbg : Z) :
    fsname_call (Status * list FileAttributes)
| DeleteFile (fname : bytes) (options : IOOptions) (dbg : Z) : fsname_call Status
| Truncate (fname : bytes) (size : Z) (options : IOOptions) (dbg : Z) : fsname_call Status
| CreateDir (dirname : bytes) (options : IOOptions) (dbg : Z) : fsname_call Status
| CreateDirIfMissing (dirname : bytes) (options : IOOptions) (dbg : Z) : fsname_call Status
| DeleteDir (dirname : bytes) (options : IOOptions) (dbg : Z) : fsname_call Status
| GetFileSize (fname : bytes) (options : IOOptions) (file_size : Z) (dbg : Z) : fsname_call (Status * Z)
| GetFileModificationTime (fname : bytes) (options : IOOptions) (file_mtime : Z) (dbg : Z) : fsname_call
    (Status * Z)
| GetAbsolutePath (db_path : bytes) (options : IOOptions) (output_path : bytes) (dbg : Z) : fsname_call
    (Status * bytes)
| RenameFile (src target : bytes) (options : IOOptions) (dbg : Z) : fsname_call Status
| LinkFile (src target : bytes) (options : IOOptions) (dbg : Z) : fsname_call Status
| SyncFile (fname : bytes) (file_options : FileOptions) (io_options : IOOptions) (use_fsync : bool) (dbg : Z) :
    fsname_call Status
| NumFileLinks (fname : bytes) (options : IOOptions) (count : Z) (dbg : Z) : fsname_call (Status * Z)
| AreFilesSame (first second : bytes) (options : IOOptions) (res : bool) (dbg : Z) : fsname_call (Status * bool).

Inductive fsmisc_call : Type → Type :=
| LockFile (fname : bytes) (options : IOOptions) (lock : Z) (dbg : Z) : fsmisc_call (Status * Z)
| UnlockFile (lock : Z) (options : IOOptions) (dbg : Z) : fsmisc_call Status
| GetTestDirectory (options : IOOptions) (path : bytes) (dbg : Z) : fsmisc_call (Status * bytes)
| NewLogger (fname : bytes) (io_opts : IOOptions) (result : Z) (dbg : Z) : fsmisc_call (Status * Z)
| SanitizeFileOptions (opts : FileOptions) : fsmisc_call FileOptions
| OptimizeForLogRead (file_options : FileOptions) : fsmisc_call FileOptions
| OptimizeForManifestRead (file_options : FileOptions) : fsmisc_call FileOptions
| OptimizeForLogWrite (file_options : FileOptions) (db_options : FsDBOptions) : fsmisc_call FileOptions
| OptimizeForManifestWrite (file_options : FileOptions) : fsmisc_call FileOptions
| OptimizeForCompactionTableWrite (file_options : FileOptions) (immutable_ops : ImmutableDBOptions) :
    fsmisc_call FileOptions
| OptimizeForCompactionTableRead (file_options : FileOptions) (db_options : ImmutableDBOptions) : fsmisc_call
    FileOptions
| OptimizeForBlobFileRead (file_options : FileOptions) (db_options : ImmutableDBOptions) : fsmisc_call
    FileOptions
| GetFreeSpace (path : bytes) (options : IOOptions) (diskfree : Z) (dbg : Z) : fsmisc_call (Status * Z)
| IsDirectory (path : bytes) (options : IOOptions) (is_dir : bool) (dbg : Z) : fsmisc_call (Status * bool)
| Poll (io_handles : list Z) (min_completions : Z) : fsmisc_call (Status * list Z)
| AbortIO (io_handles : list Z) : fsmisc_call (Status * list Z)
| DiscardCacheForDirectory (path : bytes) : fsmisc_call unit
| SupportedOps (supported_ops : Z) : fsmisc_call Z.

Inductive fs_call : Type → Type :=
| Fn {R} (c : fsnew_call R) : fs_call R
| Fm {R} (c : fsname_call R) : fs_call R
| Fo {R} (c : fsmisc_call R) : fs_call R.

#[local] Abbreviation filesystem := (object fs_call St).

(** The bodies that are not in the header. *)
Class FsImpl := { fs_outside : filesystem → filesystem }.
Context `{FI : FsImpl}.

Definition fsnew_bodies (self : filesystem) {R} (c : fsnew_call R) : M St R :=
  match c in fsnew_call T return M St T with
  | RegisterDbPaths _ => ret OK
  | UnregisterDbPaths _ => ret OK
  | ReopenWritableFile _ _ result _ => s ← fs_not_supported "ReopenWritableFile"; ret (s, result)
  | ReuseWritableFile fname old_fname file_opts result dbg =>
      fs_outside self _ (Fn (ReuseWritableFile fname old_fname file_opts result dbg))
  | NewRandomRWFile _ _ result _ =>
      s ← fs_not_supported "RandomRWFile is not implemented in this FileSystem"; ret (s, result)
  | NewMemoryMappedFileBuffer _ result =>
      s ← fs_not_supported "MemoryMappedFileBuffer is not implemented in this FileSystem"; ret (s, result)
  | _ => pure_virtual
  end.

(** The loop of [GetChildrenFileAttributes] over the children that are left; the
    next entry goes to position [n]. *)
Fixpoint attributes_loop (self : filesystem) (dir : bytes) (options : IOOptions) (dbg : Z)
    (children : list bytes) (result : list FileAttributes) (n : nat)
    : M St (Status * list FileAttributes) :=
  match children with
  | [] => ret (IO.io_OK, resize n FileAttributes_new result)
  | child :: children' =>
      let path := dir ++ lit "/" ++ child in
      e ← M_opt (result !! n);
      '(s, size) ← self _ (Fm (GetFileSize path options (size_bytes e) dbg));
      let result := <[n := mkAttributes (fa_name e) size (fa_temperature e)]> result in
      if negb (ok s) then
        t ← self _ (Fm (FileExists path options dbg));
        if IsNotFound t then attributes_loop self dir options dbg children' result n
        else ret (s, result)
      else
        attributes_loop self dir options dbg children'
          (<[n := mkAttributes child size (fa_temperature e)]> result) (S n)
  end.

Definition children_attributes (self : filesystem) (dir : bytes) (options : IOOptions)
    (result : list FileAttributes) (dbg : Z) : M St (Status * list FileAttributes) :=
  '(s, child_fnames) ← self _ (Fm (GetChildren dir options [] dbg));
  if negb (ok s) then ret (s, result)
  else attributes_loop self dir options dbg child_fnames
         (resize (length child_fnames) FileAttributes_new result) 0.

Definition fsname_bodies (self : filesystem) {R} (c : fsname_call R) : M St R :=
  match c in fsname_call T return M St T with
  | GetChildrenFileAttributes dir options result dbg => children_attributes self dir options result dbg
  | Truncate _ _ _ _ => fs_not_supported "Truncate is not supported for this FileSystem"
  | LinkFile _ _ _ _ => fs_not_supported "LinkFile is not supported for this FileSystem"
  | SyncFile fname file_options io_options use_fsync dbg =>
      fs_outside self _ (Fm (SyncFile fname file_options io_options use_fsync dbg))
  | NumFileLinks _ _ count _ =>
      s ← fs_not_supported "Getting number of file links is not supported for this FileSystem"; ret (s, count)
  | AreFilesSame _ _ _ res _ =>
      s ← fs_not_supported "AreFilesSame is not supported for this FileSystem"; ret (s, res)
  | _ => pure_virtual
  end.

Definition fsmisc_bodies (self : filesystem) {R} (c : fsmisc_call R) : M St R :=
  match c in fsmisc_call T return M St T with
  | NewLogger fname io_opts result dbg => fs_outside self _ (Fo (NewLogger fname io_opts result dbg))
  | SanitizeFileOptions opts => ret opts
  | OptimizeForLogRead file_options => fs_outside self _ (Fo (OptimizeForLogRead file_options))
  | OptimizeForManifestRead file_options => fs_outside self _ (Fo (OptimizeForManifestRead file_options))
  | OptimizeForLogWrite file_options db_options =>
      fs_outside self _ (Fo (OptimizeForLogWrite file_options db_options))
  | OptimizeForManifestWrite file_options => fs_outside self _ (Fo (OptimizeForManifestWrite file_options))
  | OptimizeForCompactionTableWrite file_options immutable_ops =>
      fs_outside self _ (Fo (OptimizeForCompactionTableWrite file_options immutable_ops))
  | OptimizeForCompactionTableRead file_options db_options =>
      fs_outside self _ (Fo (OptimizeForCompactionTableRead file_options db_options))
  | OptimizeForBlobFileRead file_options db_options =>
      fs_outside self _ (Fo (OptimizeForBlobFileRead file_options db_options))
  | GetFreeSpace _ _ diskfree _ => s ← fs_not_supported "GetFreeSpace"; ret (s, diskfree)
  | Poll io_handles _ => ret (IO.io_OK, io_handles)
  | AbortIO io_handles => ret (IO.io_OK, io_handles)
  | DiscardCacheForDirectory _ => ret tt
  | SupportedOps _ => ret (Z.lor 0 (Z.shiftl 1 kAsyncIO))
  | _ => pure_virtual
  end.

Definition fs_bodies (self : filesystem) : filesystem := λ R c,
  match c in fs_call T return M St T with
  | Fn c => fsnew_bodies self c
  | Fm c => fsname_bodies self c
  | Fo c => fsmisc_bodies self c
  end.

(** [FileSystemWrapper]: [None], the function is inherited. *)
Definition wrap_fsnew (target_ : filesystem) {R} (c : fsnew_call R) : option (M St R) :=
  match c in fsnew_call T return option (M St T) with
  | NewSequentialFile fname file_opts result dbg =>
      Some (target_ _ (Fn (NewSequentialFile fname file_opts result dbg)))
  | NewRandomAccessFile fname file_opts result dbg =>
      Some (target_ _ (Fn (NewRandomAccessFile fname file_opts result dbg)))
  | NewWritableFile fname file_opts result dbg =>
      Some (target_ _ (Fn (NewWritableFile fname file_opts result dbg)))
  | ReopenWritableFile fname file_opts result dbg =>
      Some (target_ _ (Fn (ReopenWritableFile fname file_opts result dbg)))
  | ReuseWritableFile fname old_fname file_opts result dbg =>
      Some (target_ _ (Fn (ReuseWritableFile fname old_fname file_opts result dbg)))
  | NewRandomRWFile fname file_opts result dbg =>
      Some (target_ _ (Fn (NewRandomRWFile fname file_opts result dbg)))
  | NewMemoryMappedFileBuffer fname result => Some (target_ _ (Fn (NewMemoryMappedFileBuffer fname result)))
  | NewDirectory name io_opts result dbg => Some (target_ _ (Fn (NewDirectory name io_opts result dbg)))
  | RegisterDbPaths _ | UnregisterDbPaths _ => None
  end.

Definition wrap_fsname (target_ : filesystem) {R} (c : fsname_call R) : option (M St R) :=
  match c in fsname_call T return option (M St T) with
  | FileExists fname options dbg => Some (target_ _ (Fm (FileExists fname options dbg)))
  | GetChildren dir options result dbg => Some (target_ _ (Fm (GetChildren dir options result dbg)))
  | GetChildrenFileAttributes dir options result dbg =>
      Some (target_ _ (Fm (GetChildrenFileAttributes dir options result dbg)))
  | DeleteFile fname options dbg => Some (target_ _ (Fm (DeleteFile fname options dbg)))
  | Truncate fname size options dbg => Some (target_ _ (Fm (Truncate fname size options dbg)))
  | CreateDir dirname options dbg => Some (target_ _ (Fm (CreateDir dirname options dbg)))
  | CreateDirIfMissing dirname options dbg => Some (target_ _ (Fm (CreateDirIfMissing dirname options dbg)))
  | DeleteDir dirname options dbg => Some (target_ _ (Fm (DeleteDir dirname options dbg)))
  | GetFileSize fname options file_size dbg => Some (target_ _ (Fm (GetFileSize fname options file_size dbg)))
  | GetFileModificationTime fname options file_mtime dbg =>
      Some (target_ _ (Fm (GetFileModificationTime fname options file_mtime dbg)))
  | GetAbsolutePath db_path options output_path dbg =>
      Some (target_ _ (Fm (GetAbsolutePath db_path options output_path dbg)))
  | RenameFile src target options dbg => Some (target_ _ (Fm (RenameFile src target options dbg)))
  | LinkFile src target options dbg => Some (target_ _ (Fm (LinkFile src target options dbg)))
  | SyncFile fname file_options io_options use_fsync dbg =>
      Some (target_ _ (Fm (SyncFile fname file_options io_options use_fsync dbg)))
  | NumFileLinks fname options count dbg => Some (target_ _ (Fm (NumFileLinks fname options count dbg)))
  | AreFilesSame first second options res dbg =>
      Some (target_ _ (Fm (AreFilesSame first second options res dbg)))
  end.

Definition wrap_fsmisc (target_ : filesystem) {R} (c : fsmisc_call R) : option (M St R) :=
  match c in fsmisc_call T return option (M St T) with
  | LockFile fname options lock dbg => Some (target_ _ (Fo (LockFile fname options lock dbg)))
  | UnlockFile lock options dbg => Some (target_ _ (Fo (UnlockFile lock options dbg)))
  | GetTestDirectory options path dbg => Some (target_ _ (Fo (GetTestDirectory options path dbg)))
  | NewLogger fname io_opts result dbg => Some (target_ _ (Fo (NewLogger fname io_opts result dbg)))
  | SanitizeFileOptions opts => Some (target_ _ (Fo (SanitizeFileOptions opts)))
  | OptimizeForLogRead file_options => Some (target_ _ (Fo (OptimizeForLogRead file_options)))
  | OptimizeForManifestRead file_options => Some (target_ _ (Fo (OptimizeForManifestRead file_options)))
  | OptimizeForLogWrite file_options db_options =>
      Some (target_ _ (Fo (OptimizeForLogWrite file_options db_options)))
  | OptimizeForManifestWrite file_options => Some (target_ _ (Fo (OptimizeForManifestWrite file_options)))
  | OptimizeForCompactionTableWrite file_options immutable_ops =>
      Some (target_ _ (Fo (OptimizeForCompactionTableWrite file_options immutable_ops)))
  | OptimizeForCompactionTableRead file_options db_options =>
      Some (target_ _ (Fo (OptimizeForCompactionTableRead file_options db_options)))
  | OptimizeForBlobFileRead file_options db_options =>
      Some (target_ _ (Fo (OptimizeForBlobFileRead file_options db_options)))
  | GetFreeSpace path options diskfree dbg => Some (target_ _ (Fo (GetFreeSpace path options diskfree dbg)))
  | IsDirectory path options is_dir dbg => Some (target_ _ (Fo (IsDirectory path options is_dir dbg)))
  | Poll io_handles min_completions => Some (target_ _ (Fo (Poll io_handles min_completions)))
  | AbortIO io_handles => Some (target_ _ (Fo (AbortIO io_handles)))
  | DiscardCacheForDirectory path => Some (target_ _ (Fo (DiscardCacheForDirectory path)))
  | SupportedOps supported_ops => Some (target_ _ (Fo (SupportedOps supported_ops)))
  end.

Definition FileSystemWrapper (target_ : filesystem) : overrides fs_call St := λ R c,
  match c in fs_call T return option (M St T) with
  | Fn c => wrap_fsnew target_ c
  | Fm c => wrap_fsname target_ c
  | Fo c => wrap_fsmisc target_ c
  end.

(** ** The files *)

(** [FSSequentialFile]. *)
Inductive seq_call : Type → Type :=
| SeqRead (n : Z) (options : IOOptions) (result : Slice) (scratch : Z) (dbg : Z) : seq_call (Status * Slice)
| Skip (n : Z) : seq_call Status
| seq_use_direct_io : seq_call bool
| seq_alignment : seq_call Z
| seq_InvalidateCache (offset length : Z) : seq_call Status
| PositionedRead (offset n : Z) (options : IOOptions) (result : Slice) (scratch : Z) (dbg : Z) : seq_call
    (Status * Slice)
| seq_GetTemperature : seq_call Temperature.

#[local] Abbreviation seq_file := (object seq_call St).

Definition seq_bodies (self : seq_file) {R} (c : seq_call R) : M St R :=
  match c in seq_call T return M St T with
  | seq_use_direct_io => ret false
  | seq_alignment => ret kDefaultPageSize
  | seq_InvalidateCache _ _ => fs_not_supported "InvalidateCache not supported."
  | PositionedRead _ _ _ result _ _ => s ← fs_not_supported "PositionedRead"; ret (s, result)
  | seq_GetTemperature => ret kUnknownTemperature
  | _ => pure_virtual
  end.

(** [FSSequentialFileWrapper]. *)
Definition FSSequentialFileWrapper (target_ : seq_file) {R} (c : seq_call R) : option (M St R) :=
  match c in seq_call T return option (M St T) with
  | SeqRead n options result scratch dbg => Some (target_ _ (SeqRead n options result scratch dbg))
  | Skip n => Some (target_ _ (Skip n))
  | seq_use_direct_io => Some (target_ _ seq_use_direct_io)
  | seq_alignment => Some (target_ _ seq_alignment)
  | seq_InvalidateCache offset length => Some (target_ _ (seq_InvalidateCache offset length))
  | PositionedRead offset n options result scratch dbg =>
      Some (target_ _ (PositionedRead offset n options result scratch dbg))
  | seq_GetTemperature => Some (target_ _ seq_GetTemperature)
  end.

(** [FSRandomAccessFile]. *)
Inductive ra_call : Type → Type :=
| Read (offset n : Z) (options : IOOptions) (result : Slice) (scratch : Z) (dbg : Z) : ra_call (Status * Slice)
| MultiRead (reqs : list FSReadRequest) (num_reqs : Z) (options : IOOptions) (dbg : Z) : ra_call
    (Status * list FSReadRequest)
| Prefetch (offset n : Z) (options : IOOptions) (dbg : Z) : ra_call Status
| ra_GetUniqueId (id max_size : Z) : ra_call Z
| Hint (pattern : Z) : ra_call unit
| ra_use_direct_io : ra_call bool
| ra_alignment : ra_call Z
| ra_InvalidateCache (offset length : Z) : ra_call Status
| ReadAsync (req : FSReadRequest) (opts : IOOptions) (cb : FSReadRequest → Z → M St unit)
    (cb_arg io_handle del_fn : Z) (dbg : Z) : ra_call (Status * FSReadRequest * Z)
| ra_GetTemperature : ra_call Temperature
| ra_GetFileSize (result : Z) : ra_call (Status * Z).

#[local] Abbreviation ra_file := (object ra_call St).

(** The loop of [MultiRead] over the requests that are left of [num_reqs]. *)
Fixpoint multi_read_loop (self : ra_file) (options : IOOptions) (dbg : Z) (num_reqs : nat)
    (reqs : list FSReadRequest) : M St (list FSReadRequest) :=
  match num_reqs, reqs with
  | O, _ => ret reqs
  | S n, req :: reqs' =>
      '(s, result) ← self _ (Read (req_offset req) (req_len req) options (req_result req) (req_scratch req) dbg);
      reqs'' ← multi_read_loop self options dbg n reqs';
      ret (set_outcome req s result :: reqs'')
  | S _, [] => pure_virtual (* reading past the array *)
  end.
Definition multi_read (self : ra_file) (reqs : list FSReadRequest) (num_reqs : Z) (options : IOOptions) (dbg : Z)
    : M St (Status * list FSReadRequest) :=
  reqs ← multi_read_loop self options dbg (Z.to_nat num_reqs) reqs; ret (IO.io_OK, reqs).

Definition read_async (self : ra_file) (req : FSReadRequest) (opts : IOOptions)
    (cb : FSReadRequest → Z → M St unit) (cb_arg io_handle dbg : Z) : M St (Status * FSReadRequest * Z) :=
  '(s, result) ← self _ (Read (req_offset req) (req_len req) opts (req_result req) (req_scratch req) dbg);
  let req := set_outcome req s result in
  _ ← cb req cb_arg;
  ret (IO.io_OK, req, io_handle).

Definition ra_bodies (self : ra_file) {R} (c : ra_call R) : M St R :=
  match c in ra_call T return M St T with
  | MultiRead reqs num_reqs options dbg => multi_read self reqs num_reqs options dbg
  | Prefetch _ _ _ _ => fs_not_supported "Prefetch"
  | ra_GetUniqueId _ _ => ret 0
  | Hint _ => ret tt
  | ra_use_direct_io => ret false
  | ra_alignment => ret kDefaultPageSize
  | ra_InvalidateCache _ _ => fs_not_supported "InvalidateCache not supported."
  | ReadAsync req opts cb cb_arg io_handle _ dbg => read_async self req opts cb cb_arg io_handle dbg
  | ra_GetTemperature => ret kUnknownTemperature
  | ra_GetFileSize result => s ← fs_not_supported "GetFileSize Not Supported"; ret (s, result)
  | _ => pure_virtual
  end.

(** [FSRandomAccessFileWrapper]. *)
Definition FSRandomAccessFileWrapper (target_ : ra_file) {R} (c : ra_call R) : option (M St R) :=
  match c in ra_call T return option (M St T) with
  | Read offset n options result scratch dbg => Some (target_ _ (Read offset n options result scratch dbg))
  | MultiRead reqs num_reqs options dbg => Some (target_ _ (MultiRead reqs num_reqs options dbg))
  | Prefetch offset n options dbg => Some (target_ _ (Prefetch offset n options dbg))
  | ra_GetUniqueId id max_size => Some (target_ _ (ra_GetUniqueId id max_size))
  | Hint pattern => Some (target_ _ (Hint pattern))
  | ra_use_direct_io => Some (target_ _ ra_use_direct_io)
  | ra_alignment => Some (target_ _ ra_alignment)
  | ra_InvalidateCache offset length => Some (target_ _ (ra_InvalidateCache offset length))
  | ReadAsync req opts cb cb_arg io_handle del_fn dbg =>
      Some (target_ _ (ReadAsync req opts cb cb_arg io_handle del_fn dbg))
  | ra_GetTemperature => Some (target_ _ ra_GetTemperature)
  | ra_GetFileSize result => Some (target_ _ (ra_GetFileSize result))
  end.

(** [FSRandomRWFile]. *)
Inductive rw_call : Type → Type :=
| rw_use_direct_io : rw_call bool
| rw_alignment : rw_call Z
| rw_Write (offset : Z) (data : Slice) (options : IOOptions) (dbg : Z) : rw_call Status
| rw_Read (offset n : Z) (options : IOOptions) (result : Slice) (scratch : Z) (dbg : Z) : rw_call
    (Status * Slice)
| rw_Flush (options : IOOptions) (dbg : Z) : rw_call Status
| rw_Sync (options : IOOptions) (dbg : Z) : rw_call Status
| rw_Fsync (options : IOOptions) (dbg : Z) : rw_call Status
| rw_Close (options : IOOptions) (dbg : Z) : rw_call Status
| rw_GetTemperature : rw_call Temperature.

#[local] Abbreviation rw_file := (object rw_call St).

Definition rw_bodies (self : rw_file) {R} (c : rw_call R) : M St R :=
  match c in rw_call T return M St T with
  | rw_use_direct_io => ret false
  | rw_alignment => ret kDefaultPageSize
  | rw_Fsync options dbg => self _ (rw_Sync options dbg)
  | rw_GetTemperature => ret kUnknownTemperature
  | _ => pure_virtual
  end.

(** [FSRandomRWFileWrapper]. *)
Definition FSRandomRWFileWrapper (target_ : rw_file) {R} (c : rw_call R) : option (M St R) :=
  match c in rw_call T return option (M St T) with
  | rw_use_direct_io => Some (target_ _ rw_use_direct_io)
  | rw_alignment => Some (target_ _ rw_alignment)
  | rw_Write offset data options dbg => Some (target_ _ (rw_Write offset data options dbg))
  | rw_Read offset n options result scratch dbg =>
      Some (target_ _ (rw_Read offset n options result scratch dbg))
  | rw_Flush options dbg => Some (target_ _ (rw_Flush options dbg))
  | rw_Sync options dbg => Some (target_ _ (rw_Sync options dbg))
  | rw_Fsync options dbg => Some (target_ _ (rw_Fsync options dbg))
  | rw_Close options dbg => Some (target_ _ (rw_Close options dbg))
  | rw_GetTemperature => Some (target_ _ rw_GetTemperature)
  end.

(** [FSDirectory]. *)
Inductive dir_call : Type → Type :=
| dir_Fsync (options : IOOptions) (dbg : Z) : dir_call Status
| FsyncWithDirOptions (options : IOOptions) (dbg : Z) (dir_fsync_options : DirFsyncOptions) : dir_call Status
| dir_Close (options : IOOptions) (dbg : Z) : dir_call Status
| dir_GetUniqueId (id max_size : Z) : dir_call Z.

#[local] Abbreviation dir_file := (object dir_call St).

Definition dir_bodies (self : dir_file) {R} (c : dir_call R) : M St R :=
  match c in dir_call T return M St T with
  | FsyncWithDirOptions options dbg _ => self _ (dir_Fsync options dbg)
  | dir_Close _ _ => fs_not_supported "Close"
  | dir_GetUniqueId _ _ => ret 0
  | _ => pure_virtual
  end.

(** [FSDirectoryWrapper]. *)
Definition FSDirectoryWrapper (target_ : dir_file) {R} (c : dir_call R) : option (M St R) :=
  match c in dir_call T return option (M St T) with
  | dir_Fsync options dbg => Some (target_ _ (dir_Fsync options dbg))
  | FsyncWithDirOptions options dbg dir_fsync_options =>
      Some (target_ _ (FsyncWithDirOptions options dbg dir_fsync_options))
  | dir_Close options dbg => Some (target_ _ (dir_Close options dbg))
  | dir_GetUniqueId id max_size => Some (target_ _ (dir_GetUniqueId id max_size))
  end.

End Interfaces.

(** ** Writable files *)

(** The fields of [FSWritableFile]; every object has its own. *)
Record WritableFields := mkFields {
  last_preallocated_block_ : Z; preallocation_block_size_ : Z; io_priority_ : Z; write_hint_ : Z;
  strict_bytes_per_sync_ : bool;
}.
Definition IO_TOTAL : Z := 4.
Definition WLTH_NOT_SET : Z := 0.
Definition FSWritableFile_new (strict : bool) : WritableFields := mkFields 0 0 IO_TOTAL WLTH_NOT_SET strict.

Definition set_write_hint (hint : Z) (f : WritableFields) : WritableFields :=
  mkFields (last_preallocated_block_ f) (preallocation_block_size_ f) (io_priority_ f) hint (strict_bytes_per_sync_ f).
Definition set_io_priority (pri : Z) (f : WritableFields) : WritableFields :=
  mkFields (last_preallocated_block_ f) (preallocation_block_size_ f) pri (write_hint_ f) (strict_bytes_per_sync_ f).
Definition set_block_size (size : Z) (f : WritableFields) : WritableFields :=
  mkFields (last_preallocated_block_ f) size (io_priority_ f) (write_hint_ f) (strict_bytes_per_sync_ f).
Definition set_last_block (n : Z) (f : WritableFields) : WritableFields :=
  mkFields n (preallocation_block_size_ f) (io_priority_ f) (write_hint_ f) (strict_bytes_per_sync_ f).

Section Writable.
Context `{FT : FsTypes} {W : Type} `{SI : StatusImpl} (init : nat → bytes).

(** The world outside and the fields of the objects, by their address. *)
#[local] Abbreviation St := (W * gmap Z WritableFields)%type.

Definition fields (this : Z) : M St WritableFields := λ s, f ← s.2 !! this; Some (f, s).
Definition modify_fields (this : Z) (g : WritableFields → WritableFields) : M St unit :=
  λ s, f ← s.2 !! this; Some (tt, (s.1, <[this := g f]> s.2)).

Inductive wf_call : Type → Type :=
| Append (data : Slice) (options : IOOptions) (dbg : Z) : wf_call Status
| Append_verify (data : Slice) (options : IOOptions) (verify : DataVerificationInfo) (dbg : Z) : wf_call Status
| PositionedAppend (data : Slice) (offset : Z) (options : IOOptions) (dbg : Z) : wf_call Status
| PositionedAppend_verify (data : Slice) (offset : Z) (options : IOOptions) (verify : DataVerificationInfo)
    (dbg : Z) : wf_call Status
| wf_Truncate (size : Z) (options : IOOptions) (dbg : Z) : wf_call Status
| wf_Close (options : IOOptions) (dbg : Z) : wf_call Status
| wf_Flush (options : IOOptions) (dbg : Z) : wf_call Status
| wf_Sync (options : IOOptions) (dbg : Z) : wf_call Status
| wf_Fsync (options : IOOptions) (dbg : Z) : wf_call Status
| IsSyncThreadSafe : wf_call bool
| wf_use_direct_io : wf_call bool
| wf_alignment : wf_call Z
| SetWriteLifeTimeHint (hint : Z) : wf_call unit
| SetIOPriority (pri : Z) : wf_call unit
| GetIOPriority : wf_call Z
| GetWriteLifeTimeHint : wf_call Z
| wf_GetFileSize (options : IOOptions) (dbg : Z) : wf_call Z
| SetPreallocationBlockSize (size : Z) : wf_call unit
| GetPreallocationStatus (block_size last_allocated_block : Z) : wf_call (Z * Z)
| wf_GetUniqueId (id max_size : Z) : wf_call Z
| wf_InvalidateCache (offset length : Z) : wf_call Status
| RangeSync (offset nbytes : Z) (options : IOOptions) (dbg : Z) : wf_call Status
| PrepareWrite (offset len : Z) (options : IOOptions) (dbg : Z) : wf_call unit
| Allocate (offset len : Z) (options : IOOptions) (dbg : Z) : wf_call Status.

#[local] Abbreviation wf_file := (object wf_call St).

(** [size_t] arithmetic; the status of [Allocate] is ignored. *)
Definition prepare_write (this : Z) (self : wf_file) (offset len : Z) (options : IOOptions) (dbg : Z) : M St unit :=
  f ← fields this;
  if preallocation_block_size_ f =? 0 then ret tt
  else
    let block_size := preallocation_block_size_ f in
    let new_last_preallocated_block :=
      u64_sub (u64_add (u64_add offset len) block_size) 1 / block_size in
    if last_preallocated_block_ f <? new_last_preallocated_block then
      let num_spanned_blocks := u64_sub new_last_preallocated_block (last_preallocated_block_ f) in
      _ ← self _ (Allocate (u64_mul block_size (last_preallocated_block_ f))
                    (u64_mul block_size num_spanned_blocks) options dbg);
      modify_fields this (set_last_block new_last_preallocated_block)
    else ret tt.

Definition wf_bodies (this : Z) (self : wf_file) {R} (c : wf_call R) : M St R :=
  match c in wf_call T return M St T with
  | Append_verify data options _ dbg => self _ (Append data options dbg)
  | PositionedAppend _ _ _ _ => fs_not_supported init "PositionedAppend"
  | PositionedAppend_verify _ _ _ _ _ => fs_not_supported init "PositionedAppend"
  | wf_Truncate _ _ _ => ret IO.io_OK
  | wf_Fsync options dbg => self _ (wf_Sync options dbg)
  | IsSyncThreadSafe => ret false
  | wf_use_direct_io => ret false
  | wf_alignment => ret kDefaultPageSize
  | SetWriteLifeTimeHint hint => modify_fields this (set_write_hint hint)
  | SetIOPriority pri => modify_fields this (set_io_priority pri)
  | GetIOPriority => f ← fields this; ret (io_priority_ f)
  | GetWriteLifeTimeHint => f ← fields this; ret (write_hint_ f)
  | SetPreallocationBlockSize size => modify_fields this (set_block_size size)
  | GetPreallocationStatus _ _ =>
      f ← fields this; ret (preallocation_block_size_ f, last_preallocated_block_ f)
  | wf_GetUniqueId _ _ => ret 0
  | wf_InvalidateCache _ _ => fs_not_supported init "InvalidateCache not supported."
  | RangeSync _ _ options dbg =>
      f ← fields this; if strict_bytes_per_sync_ f then self _ (wf_Sync options dbg) else ret IO.io_OK
  | PrepareWrite offset len options dbg => prepare_write this self offset len options dbg
  | Allocate _ _ _ _ => ret IO.io_OK
  | _ => pure_virtual
  end.

(** [FSWritableFileWrapper]. *)
Definition FSWritableFileWrapper (target_ : wf_file) {R} (c : wf_call R) : option (M St R) :=
  match c in wf_call T return option (M St T) with
  | Append data options dbg => Some (target_ _ (Append data options dbg))
  | Append_verify data options verify dbg => Some (target_ _ (Append_verify data options verify dbg))
  | PositionedAppend data offset options dbg => Some (target_ _ (PositionedAppend data offset options dbg))
  | PositionedAppend_verify data offset options verify dbg =>
      Some (target_ _ (PositionedAppend_verify data offset options verify dbg))
  | wf_Truncate size options dbg => Some (target_ _ (wf_Truncate size options dbg))
  | wf_Close options dbg => Some (target_ _ (wf_Close options dbg))
  | wf_Flush options dbg => Some (target_ _ (wf_Flush options dbg))
  | wf_Sync options dbg => Some (target_ _ (wf_Sync options dbg))
  | wf_Fsync options dbg => Some (target_ _ (wf_Fsync options dbg))
  | IsSyncThreadSafe => Some (target_ _ IsSyncThreadSafe)
  | wf_use_direct_io => Some (target_ _ wf_use_direct_io)
  | wf_alignment => Some (target_ _ wf_alignment)
  | SetWriteLifeTimeHint hint => Some (target_ _ (SetWriteLifeTimeHint hint))
  | GetWriteLifeTimeHint => Some (target_ _ GetWriteLifeTimeHint)
  | wf_GetFileSize options dbg => Some (target_ _ (wf_GetFileSize options dbg))
  | SetPreallocationBlockSize size => Some (target_ _ (SetPreallocationBlockSize size))
  | GetPreallocationStatus block_size last_allocated_block =>
      Some (target_ _ (GetPreallocationStatus block_size last_allocated_block))
  | wf_GetUniqueId id max_size => Some (target_ _ (wf_GetUniqueId id max_size))
  | wf_InvalidateCache offset length => Some (target_ _ (wf_InvalidateCache offset length))
  | RangeSync offset nbytes options dbg => Some (target_ _ (RangeSync offset nbytes options dbg))
  | PrepareWrite offset len options dbg => Some (target_ _ (PrepareWrite offset len options dbg))
  | Allocate offset len options dbg => Some (target_ _ (Allocate offset len options dbg))
  | SetIOPriority _ | GetIOPriority => None
  end.

Definition writable (this : Z) (ov : overrides wf_call St) : wf_file :=
  dispatch wf_call St (λ this self _ c, wf_bodies this self c) 3 this ov.
End Writable.

(** ** Copies of debug contexts *)

(** A copy of a debug context has the same request, kept in the copy itself, so that
    it no longer depends on the string the original pointed to; assignment gives
    the same as copying, and the first value of a counter stays. *)
Theorem debug_context_copy (d this : IODebugContext) (name : bytes) (v w : Z) (r : bytes) :
  request_string (IODebugContext_copy d) = request_string d ∧
  (∀ s, request_id (IODebugContext_copy d) ≠ RequestAt s) ∧
  debug_assign false this d = IODebugContext_copy d ∧
  AddCounter (AddCounter d name v) name w = AddCounter d name v ∧
  request_string (SetRequestId d (Some r)) = Some r ∧ Z.testbit (trace_data (SetRequestId d (Some r))) 0 = true.
Proof.
  split_and!.
  - unfold IODebugContext_copy, request_string. simpl. by destruct (request_id d).
  - intros s. simpl. by destruct (request_string d).
  - done.
  - unfold AddCounter. destruct (bool_decide (name ∈ (counters d).*1)) eqn:E; [by rewrite E|].
    rewrite bool_decide_true; [done|]. simpl. rewrite fmap_app, elem_of_app. right. left.
  - done.
  - unfold SetRequestId. cbn [trace_data]. rewrite Z.lor_spec. apply orb_true_r.
Qed.

(** ** Attributes of the children of a directory *)

Section Children.
Context `{FT : FsTypes} {St : Type} `{SI : StatusImpl} (self : object fs_call St).
Context (dir : bytes) (options : IOOptions) (dbg : Z) (s : St).

(** What the file system answers for a path, while the directory is read. *)
Context (size_of : bytes → Status * Z) (exists_ : bytes → Status).
Hypothesis size_reads : ∀ path z, self _ (Fm (GetFileSize path options z dbg)) s = Some (size_of path, s).
Hypothesis exists_reads : ∀ path, self _ (Fm (FileExists path options dbg)) s = Some (exists_ path, s).

Definition child_path (child : bytes) : bytes := dir ++ lit "/" ++ child.
(** The name and size of a child that is there. *)
Definition present (child : bytes) : option (bytes * Z) :=
  let '(t, size) := size_of (child_path child) in if ok t then Some (child, size) else None.
(** Its size cannot be read though it exists. *)
Definition broken (child : bytes) : bool :=
  negb (ok (size_of (child_path child)).1) && negb (IsNotFound (exists_ (child_path child))).

Abbreviation name_size := (λ a : FileAttributes, (fa_name a, size_bytes a)).

Lemma take_insert_last {A} (n : nat) (x : A) (l : list A) : (n < length l)%nat →
  take (S n) (<[n := x]> l) = take n l ++ [x].
Proof.
  intros Hn. erewrite take_S_r by (by apply list_lookup_insert_eq). by rewrite take_insert_ge.
Qed.

Lemma temps_insert (n : nat) (l : list FileAttributes) e x : l !! n = Some e →
  fa_temperature x = fa_temperature e → fa_temperature <$> <[n := x]> l = fa_temperature <$> l.
Proof.
  intros He Hx. rewrite list_fmap_insert, Hx. apply list_insert_id. by rewrite list_lookup_fmap, He.
Qed.

Lemma attributes_loop_spec children v n :
  (n + length children ≤ length v)%nat →
  match list_find (λ c, broken c = true) children with
  | None => ∃ l, attributes_loop self dir options dbg children v n s = Some ((IO.io_OK, l), s) ∧
      name_size <$> l = (name_size <$> take n v) ++ omap present children ∧
      fa_temperature <$> l = take (length l) (fa_temperature <$> v)
  | Some (_, c) => ∃ l, attributes_loop self dir options dbg children v n s =
      Some (((size_of (child_path c)).1, l), s)
  end.
Proof.
  revert v n. induction children as [|c children IH]; intros v n Hn.
  - simpl in Hn. simpl. eexists. split; [done|]. rewrite resize_le by lia. split; [by rewrite app_nil_r|].
    rewrite length_take_le by lia. by rewrite fmap_take.
  - simpl in Hn. destruct (lookup_lt_is_Some_2 v n) as [e He]; [lia|].
    assert (omap present (c :: children) = match present c with
      Some y => y :: omap present children | None => omap present children end) as -> by reflexivity.
    cbn [list_find attributes_loop]. unfold mbind at 1 2, M_bind, M_opt. rewrite He. cbn [mbind option_bind].
    fold (child_path c). unfold mbind, M_bind. rewrite size_reads.
    destruct (size_of (child_path c)) as [t size] eqn:Esz.
    assert (broken c = negb (ok t) && negb (IsNotFound (exists_ (child_path c)))) as Hb
      by (unfold broken; by rewrite Esz).
    destruct (ok t) eqn:Et; cbn [negb].
    + rewrite decide_False by (rewrite Hb; done).
      assert (present c = Some (c, size)) as -> by (unfold present; by rewrite Esz, Et).
      specialize (IH (<[n := mkAttributes c size (fa_temperature e)]>
        (<[n := mkAttributes (fa_name e) size (fa_temperature e)]> v)) (S n)).
      rewrite !length_insert in IH. specialize (IH ltac:(lia)).
      destruct (list_find _ children) as [[i c']|]; simpl; [done|].
      destruct IH as (l & -> & Hl & Ht). exists l. split; [done|]. split.
      * rewrite Hl, list_insert_insert_eq, take_insert_last by lia.
        by rewrite fmap_app, <- app_assoc.
      * by rewrite Ht, list_insert_insert_eq, (temps_insert n v e).
    + rewrite exists_reads.
      assert (present c = None) as -> by (unfold present; by rewrite Esz, Et).
      destruct (IsNotFound (exists_ (child_path c))) eqn:Ex.
      * rewrite decide_False by (rewrite Hb; done).
        specialize (IH (<[n := mkAttributes (fa_name e) size (fa_temperature e)]> v) n).
        rewrite !length_insert in IH. specialize (IH ltac:(lia)).
        destruct (list_find _ children) as [[i c']|]; simpl; [done|].
        destruct IH as (l & -> & Hl & Ht). exists l. split; [done|]. split.
        -- by rewrite Hl, take_insert_ge.
        -- by rewrite Ht, (temps_insert n v e).
      * rewrite decide_True by (rewrite Hb; done). rewrite Esz. by eexists.
Qed.

(** The attributes of a directory's children, by the body of the base class.  If
    the children can be listed, and every child whose size cannot be read is gone
    by then, the result has the name and the size of the children that are there,
    in their order, whatever the vector held before, except for the temperatures,
    which are left as they were in the vector; otherwise the status is that of the
    first child that exists and has no size. *)
Theorem children_attributes_spec (s0 : St) (t : Status) (children : list bytes) (old : list FileAttributes) :
  self _ (Fm (GetChildren dir options [] dbg)) s0 = Some ((t, children), s) → ok t = true →
  match list_find (λ c, broken c = true) children with
  | None => ∃ l, children_attributes self dir options old dbg s0 = Some ((IO.io_OK, l), s) ∧
      name_size <$> l = omap present children ∧
      fa_temperature <$> l =
        take (length l) (fa_temperature <$> resize (length children) FileAttributes_new old)
  | Some (_, c) => ∃ l, children_attributes self dir options old dbg s0 =
      Some (((size_of (child_path c)).1, l), s)
  end.
Proof.
  intros E Ht. pose proof (attributes_loop_spec children (resize (length children) FileAttributes_new old) 0) as H.
  rewrite length_resize in H. specialize (H ltac:(lia)). unfold children_attributes, mbind, M_bind.
  rewrite E, Ht. simpl negb. cbv iota. destruct (list_find _ children) as [[i c]|]; exact H.
Qed.
End Children.

(** ** Reading several ranges *)

(** [MultiRead] and [ReadAsync] by the bodies of the base class, on a file whose
    reads do not change it: every request has the status and the result of a read
    of its own, in their order, requests past [num_reqs] are left alone, and the
    call itself succeeds also when reads fail; [ReadAsync] reads before it returns
    and hands the request to the callback. *)
Theorem default_reads `{FT : FsTypes} {St : Type} (self : object ra_call St) (options : IOOptions) (dbg : Z) (s : St)
    (rd : Z → Z → Status * Slice) (reqs : list FSReadRequest) (num : nat) (cb : FSReadRequest → Z → M St unit)
    (req : FSReadRequest) (arg handle : Z) :
  (∀ offset n result scratch, self _ (Read offset n options result scratch dbg) s = Some (rd offset n, s)) →
  (num ≤ length reqs)%nat →
  let answer req := let '(t, r) := rd (req_offset req) (req_len req) in set_outcome req t r in
  multi_read self reqs (Z.of_nat num) options dbg s =
    Some ((IO.io_OK, (answer <$> take num reqs) ++ drop num reqs), s) ∧
  read_async self req options cb arg handle dbg s =
    match cb (answer req) arg s with
    | Some (_, s') => Some ((IO.io_OK, answer req, handle), s')
    | None => None
    end.
Proof.
  intros Hrd Hn answer. split.
  - assert (∀ n l, (n ≤ length l)%nat →
      multi_read_loop self options dbg n l s = Some ((answer <$> take n l) ++ drop n l, s)) as Hloop.
    { intros n. induction n as [|n IH]; intros [|r l] Hl; simpl in *; [done..|lia|].
      unfold mbind, M_bind. rewrite Hrd. unfold answer at 1. destruct (rd _ _) as [t x].
      rewrite IH by lia. done. }
    unfold multi_read, mbind, M_bind. by rewrite Nat2Z.id, Hloop.
  - unfold read_async, mbind, M_bind, answer. rewrite Hrd. by destruct (rd _ _).
Qed.

(** ** Preallocation *)

Section Preallocation.
Context `{FT : FsTypes} `{SI : StatusImpl} (init : nat → bytes).

(** The allocations [log] cover the bytes from [a] to [b], each after the last. *)
Fixpoint tiles (a b : Z) (log : list (Z * Z)) : Prop :=
  match log with
  | [] => a = b
  | (o, l) :: log' => o = a ∧ 0 < l ∧ tiles (a + l) b log'
  end.

Lemma tiles_snoc a b l log : tiles a b log → 0 < l → tiles a (b + l) (log ++ [(b, l)]).
Proof.
  revert a. induction log as [|[o k] log IH]; intros a; simpl; [by intros ->|].
  intros (? & ? & ?) ?. auto.
Qed.

(** A class of files that logs its allocations and inherits [PrepareWrite]. *)
Record logging (ov : overrides wf_call (list (Z * Z) * gmap Z WritableFields)) : Prop := {
  logs_Allocate : ∀ o l options dbg,
    ov _ (Allocate o l options dbg) = Some (λ s, Some (IO.io_OK, (s.1 ++ [(o, l)], s.2)));
  inherits_PrepareWrite : ∀ o l options dbg, ov _ (PrepareWrite o l options dbg) = None;
}.

(** [PrepareWrite] for each of the ranges. *)
Fixpoint prepare_all (file : object wf_call (list (Z * Z) * gmap Z WritableFields)) (options : IOOptions) (dbg : Z)
    (ranges : list (Z * Z)) : M (list (Z * Z) * gmap Z WritableFields) unit :=
  match ranges with
  | [] => ret tt
  | (o, l) :: ranges' => _ ← file _ (PrepareWrite o l options dbg); prepare_all file options dbg ranges'
  end.

Definition blocks (B : Z) (range : Z * Z) : Z := (range.1 + range.2 + B - 1) / B.

Lemma foldr_max (a b : Z) (l : list Z) : foldr Z.max (Z.max a b) l = foldr Z.max a (b :: l).
Proof. simpl. induction l as [|x l IH]; simpl in *; lia. Qed.

Lemma foldr_max_ge (a x : Z) (l : list Z) : x ∈ l → x ≤ foldr Z.max a l.
Proof.
  induction l as [|y l IH]; [by intros ?%elem_of_nil|].
  intros [->|?]%elem_of_cons; simpl; [lia|]. specialize (IH ltac:(done)). lia.
Qed.

Lemma prepare_one ov this options dbg o l log m f :
  logging ov → m !! this = Some f → 0 < preallocation_block_size_ f →
  0 ≤ o → 0 ≤ l → o + l + preallocation_block_size_ f ≤ 2 ^ 64 →
  0 ≤ last_preallocated_block_ f → tiles 0 (preallocation_block_size_ f * last_preallocated_block_ f) log →
  ∃ log', writable init this ov _ (PrepareWrite o l options dbg) (log, m) =
      Some (tt, (log', <[this := set_last_block
        (Z.max (last_preallocated_block_ f) (blocks (preallocation_block_size_ f) (o, l))) f]> m)) ∧
    tiles 0 (preallocation_block_size_ f *
      Z.max (last_preallocated_block_ f) (blocks (preallocation_block_size_ f) (o, l))) log'.
Proof.
  intros Hov Hf HB Ho Hl Hw Hlast Ht. set (B := preallocation_block_size_ f) in *.
  unfold writable. cbn [dispatch]. rewrite (inherits_PrepareWrite _ Hov). cbn [wf_bodies].
  unfold prepare_write, fields, mbind, M_bind. cbn [snd]. rewrite Hf. cbn [mbind option_bind]. fold B.
  rewrite (proj2 (Z.eqb_neq B 0)) by lia.
  assert (u64_sub (u64_add (u64_add o l) B) 1 / B = blocks B (o, l)) as ->.
  { unfold blocks, u64_sub, u64_add. simpl. rewrite wrap_add_l, wrap_sub_l, wrap_small by (split; lia). done. }
  assert (B * blocks B (o, l) ≤ o + l + B - 1) as Hb by (unfold blocks; simpl; apply Z.mul_div_le; lia).
  assert (set_last_block (last_preallocated_block_ f) f = f) as Hid by (by destruct f).
  destruct (Z.ltb_spec (last_preallocated_block_ f) (blocks B (o, l))) as [Hlt|Hge].
  - rewrite (logs_Allocate _ Hov). unfold modify_fields. cbn [fst snd]. rewrite Hf. cbn [mbind option_bind].
    rewrite Z.max_r by lia. eexists. split; [done|].
    unfold u64_mul, u64_sub. rewrite (wrap_small 64 (blocks B (o, l) - last_preallocated_block_ f)) by (split; nia).
    rewrite (wrap_small 64 (B * last_preallocated_block_ f)) by (split; nia).
    rewrite (wrap_small 64 (B * (blocks B (o, l) - last_preallocated_block_ f))) by (split; nia).
    replace (B * blocks B (o, l)) with
      (B * last_preallocated_block_ f + B * (blocks B (o, l) - last_preallocated_block_ f)) by lia.
    apply tiles_snoc; [done|nia].
  - rewrite Z.max_l, Hid by lia. rewrite (insert_id _ _ _ Hf). by eexists.
Qed.

(** [C36] Preallocation covers what is written.  From a new file with a block size, and as
    long as the arithmetic does not wrap around, the calls of [PrepareWrite] for any
    ranges in any order allocate consecutive parts of the file from its start, each
    once; the last of them ends with the block of the highest byte announced, so
    that all ranges are inside. *)
Theorem preallocation_covers (ov : overrides wf_call (list (Z * Z) * gmap Z WritableFields)) (this : Z)
    (options : IOOptions) (dbg B : Z) (strict : bool) (ranges : list (Z * Z)) m :
  logging ov → 0 < B →
  Forall (λ r, 0 ≤ r.1 ∧ 0 ≤ r.2 ∧ r.1 + r.2 + B ≤ 2 ^ 64) ranges →
  ∃ log n,
    prepare_all (writable init this ov) options dbg ranges
      ([], <[this := set_block_size B (FSWritableFile_new strict)]> m) =
    Some (tt, (log, <[this := set_last_block n (set_block_size B (FSWritableFile_new strict))]> m)) ∧
    n = foldr Z.max 0 (blocks B <$> ranges) ∧ tiles 0 (B * n) log ∧
    Forall (λ r, r.1 + r.2 ≤ B * n) ranges.
Proof.
  intros Hov HB Hr. set (f0 := set_block_size B (FSWritableFile_new strict)).
  assert (∀ n0 log0, 0 ≤ n0 → tiles 0 (B * n0) log0 → ∃ log,
    prepare_all (writable init this ov) options dbg ranges (log0, <[this := set_last_block n0 f0]> m) =
    Some (tt, (log, <[this := set_last_block (foldr Z.max n0 (blocks B <$> ranges)) f0]> m)) ∧
    tiles 0 (B * foldr Z.max n0 (blocks B <$> ranges)) log) as Hrun.
  { induction Hr as [|[o l] ranges (Ho & Hl & Hw) _ IH]; intros n0 log0 Hn Ht; [by exists log0|].
    simpl in Ho, Hl, Hw. cbn [prepare_all]. unfold mbind, M_bind.
    destruct (prepare_one ov this options dbg o l log0 (<[this := set_last_block n0 f0]> m) (set_last_block n0 f0))
      as (log1 & -> & Ht1); [done|by rewrite lookup_insert_eq|done..|].
    rewrite insert_insert_eq. destruct (IH (Z.max n0 (blocks B (o, l))) log1) as (log & E & Ht'); [lia|done|].
    assert (foldr Z.max (Z.max n0 (blocks B (o, l))) (blocks B <$> ranges) =
      foldr Z.max n0 (blocks B <$> (o, l) :: ranges)) as <-; [|by exists log].
    rewrite fmap_cons. apply foldr_max. }
  destruct (Hrun 0 []) as (log & E & Ht); [lia|simpl; lia|].
  exists log, (foldr Z.max 0 (blocks B <$> ranges)). split; [exact E|]. split; [done|]. split; [done|].
  apply Forall_forall. intros r Hin.
  pose proof (foldr_max_ge 0 (blocks B r) (blocks B <$> ranges) (list_elem_of_fmap_2 _ _ _ Hin)) as Hle.
  unfold blocks in Hle at 1. pose proof (Z.mul_succ_div_gt (r.1 + r.2 + B - 1) B HB). nia.
Qed.
End Preallocation.

(** ** Wrappers *)

Definition fs_hidden `{FT : FsTypes} {R} (c : fs_call R) : bool :=
  match c with Fn (RegisterDbPaths _) | Fn (UnregisterDbPaths _) => true | _ => false end.
Definition wf_hidden `{FT : FsTypes} {R} (c : wf_call R) : bool :=
  match c with SetIOPriority _ | GetIOPriority => true | _ => false end.

(** The wrappers forward every function to the target, with its arguments in
    place, except the registration of paths and the I/O priority.  Registering a
    path on a wrapped file system succeeds without the target being told, and the
    priority set on a wrapped file is kept in the wrapper and does not reach the
    target. *)
Theorem wrappers_forward `{FT : FsTypes} {St W : Type} `{SI : StatusImpl} `{FI : !FsImpl (St := St)} (init : nat → bytes)
    (fs : object fs_call St) (sq : object seq_call St) (ra : object (ra_call (St := St)) St)
    (rw : object rw_call St) (dr : object dir_call St) (wf : object wf_call (W * gmap Z WritableFields))
    (paths : list bytes) (a b pri : Z) (s : St) (w : W) (m : gmap Z WritableFields) :
  (∀ R (c : fs_call R), fs_hidden c = false → FileSystemWrapper fs R c = Some (fs R c)) ∧
  (∀ R (c : seq_call R), FSSequentialFileWrapper sq c = Some (sq R c)) ∧
  (∀ R (c : ra_call R), FSRandomAccessFileWrapper ra c = Some (ra R c)) ∧
  (∀ R (c : rw_call R), FSRandomRWFileWrapper rw c = Some (rw R c)) ∧
  (∀ R (c : dir_call R), FSDirectoryWrapper dr c = Some (dr R c)) ∧
  (∀ R (c : wf_call R), wf_hidden c = false → FSWritableFileWrapper wf c = Some (wf R c)) ∧
  dispatch fs_call St (λ _, fs_bodies init) 1 a (FileSystemWrapper fs) _ (Fn (RegisterDbPaths paths)) s =
    Some (OK, s) ∧
  (is_Some (m !! a) → a ≠ b →
   let file := writable init a (λ _ c, FSWritableFileWrapper wf c) in
   ∃ m', file _ (SetIOPriority pri) (w, m) = Some (tt, (w, m')) ∧ m' !! b = m !! b ∧
     file _ GetIOPriority (w, m') = Some (pri, (w, m'))).
Proof.
  split_and!.
  - intros R [R' []|R' []|R' []]; done.
  - by intros R [].
  - by intros R [].
  - by intros R [].
  - by intros R [].
  - by intros R [].
  - done.
  - intros [f Hf] Hab file. eexists. split; [|split].
    + unfold file, writable. simpl. unfold modify_fields. simpl. by rewrite Hf.
    + by rewrite lookup_insert_ne.
    + unfold file, writable. simpl. unfold mbind, M_bind, fields. simpl. by rewrite lookup_insert_eq.
Qed.

(** ** Examples *)

#[local] Instance toy_fs_types : FsTypes :=
  {| IOOptions := unit; FileOptions := unit; FsDBOptions := unit; ImmutableDBOptions := unit |}.
#[local] Existing Instance concrete_impl.

Definition toy_size (path : bytes) : Status * Z :=
  if bool_decide (path = lit "d/gone") then (IO.io_NotFound_sub kNone, 0) else (IO.io_OK, Z.of_nat (length path)).
Definition toy_exists (path : bytes) : Status :=
  if bool_decide (path = lit "d/gone") then IO.io_NotFound_sub kNone else IO.io_OK.
Definition toy_names {R} (c : fsname_call R) : M unit R :=
  match c in fsname_call T return M unit T with
  | GetChildren _ _ _ _ => ret (IO.io_OK, [lit "a"; lit "gone"; lit "bc"])
  | GetFileSize path _ _ _ => ret (toy_size path)
  | FileExists path _ _ => ret (toy_exists path)
  | _ => pure_virtual
  end.
Definition toy_fs : object fs_call unit := λ R c,
  match c in fs_call T return M unit T with Fm c => toy_names c | _ => pure_virtual end.

Lemma children_attributes_spec_witness :
  ∃ l, children_attributes toy_fs (lit "d") tt [] 0 tt = Some ((IO.io_OK, l), tt) ∧
    (λ a, (fa_name a, size_bytes a)) <$> l = [(lit "a", 3); (lit "bc", 4)].
Proof.
  destruct (children_attributes_spec toy_fs (lit "d") tt 0 tt toy_size toy_exists
    (λ _ _, eq_refl) (λ _, eq_refl) tt IO.io_OK [lit "a"; lit "gone"; lit "bc"] [] eq_refl eq_refl)
    as (l & E & Hl & _).
  exists l. split; [exact E|exact Hl].
Defined.

Definition toy_reads (offset n : Z) : Status * Slice := (IO.io_OK, Slice_string (replicate (Z.to_nat n) x61)).
Definition toy_ra : object (ra_call (St := unit)) unit := λ R c,
  match c in ra_call T return M unit T with Read offset n _ _ _ _ => ret (toy_reads offset n) | _ => pure_virtual end.
Definition toy_request (n : Z) : FSReadRequest := mkRequest 0 n 0 Slice_empty IO.io_OK 0.

Lemma default_reads_witness :
  multi_read toy_ra [toy_request 1; toy_request 2; toy_request 3] 2 tt 0 tt =
  Some ((IO.io_OK, [set_outcome (toy_request 1) IO.io_OK (Slice_string [x61]);
                    set_outcome (toy_request 2) IO.io_OK (Slice_string [x61; x61]); toy_request 3]), tt).
Proof.
  apply (default_reads toy_ra tt 0 tt toy_reads [toy_request 1; toy_request 2; toy_request 3] 2 (λ _ _, ret tt)
    (toy_request 1) 0 0).
  - reflexivity.
  - simpl. lia.
Defined.

Definition toy_file : overrides wf_call (list (Z * Z) * gmap Z WritableFields) := λ R c,
  match c in wf_call T return option (M _ T) with
  | Allocate o l _ _ => Some (λ s, Some (IO.io_OK, (s.1 ++ [(o, l)], s.2)))
  | _ => None
  end.

Lemma preallocation_covers_witness :
  ∃ log n, prepare_all (writable (λ _, []) 7 toy_file) tt 0 [(0, 5); (3, 2); (90, 20)]
      ([], {[7 := set_block_size 50 (FSWritableFile_new false)]}) =
    Some (tt, (log, {[7 := set_last_block n (set_block_size 50 (FSWritableFile_new false))]})) ∧
    n = 3 ∧ tiles 0 (50 * n) log ∧ Forall (λ r, r.1 + r.2 ≤ 50 * n) [(0, 5); (3, 2); (90, 20)].
Proof.
  destruct (preallocation_covers (λ _, []) toy_file 7 tt 0 50 false [(0, 5); (3, 2); (90, 20)] ∅)
    as (log & n & E & Hn & Ht & Hc).
  - split; reflexivity.
  - lia.
  - repeat constructor; simpl; lia.
  - exists log, n. split; [exact E|]. split; [exact Hn|]. split; [exact Ht|exact Hc].
Defined.

Lemma wrappers_forward_witness :
  let m := {[1 := FSWritableFile_new false; 2 := FSWritableFile_new false]} : gmap Z WritableFields in
  let file := writable (W := unit) (λ _, []) 1 (λ _ c, FSWritableFileWrapper (writable (λ _, []) 2 (λ _ _, None)) c) in
  ∃ m', file _ (SetIOPriority 2) (tt, m) = Some (tt, (tt, m')) ∧ m' !! 2 = m !! 2 ∧
    file _ GetIOPriority (tt, m') = Some (2, (tt, m')).
Proof.
  apply (wrappers_forward (FI := {| fs_outside := λ f, f |}) (λ _, []) toy_fs (λ _ _, pure_virtual) toy_ra
    (λ _ _, pure_virtual) (λ _ _, pure_virtual) (writable (λ _, []) 2 (λ _ _, None)) [] 1 2 2 tt tt).
  - by eexists.
  - lia.
Defined.
