(* ===== verification/Env.v ===== *)
(** * Environments (libs/rocksdb/env.h and utilities/env_mirror.h)

    The interface [Env] through which RocksDB reaches files, threads and clocks,
    with the bodies the header gives its virtual functions, the files and loggers of
    the interface, the wrappers that forward every call to a target, and
    [EnvMirror], which makes every change in two environments and compares their
    answers.  Functions, objects and classes are as in Virtual.v; in and out
    parameters are arguments and parts of the result, pointers are addresses. *)

From stdpp Require Import base list gmap strings sorting.
From Stdlib Require Import ZArith Lia.
From Stdlib.Strings Require Import Byte.
From S2P Require Import Prelude Slice Status Virtual FileSystem.

Open Scope Z_scope.

(** ** Data *)

Record EnvOptions := mkEnvOptions {
  use_mmap_reads : bool; use_mmap_writes : bool; use_direct_reads : bool; use_direct_writes : bool;
  allow_fallocate : bool; set_fd_cloexec : bool; bytes_per_sync : Z; strict_bytes_per_sync : bool;
  fallocate_with_keep_size : bool; compaction_readahead_size : Z; writable_file_max_buffer_size : Z;
  rate_limiter : Z;
}.
(** The initializers of the members. *)
Definition EnvOptions_members : EnvOptions :=
  mkEnvOptions false true false false true true 0 false true 0 (1024 * 1024) 0.

Inductive Priority := BOTTOM | LOW | HIGH | USER | TOTAL.
Inductive CpuPriority := kIdle | kLow | kNormal | kHigh.
Inductive InfoLogLevel :=
| DEBUG_LEVEL | INFO_LEVEL | WARN_LEVEL | ERROR_LEVEL | FATAL_LEVEL | HEADER_LEVEL | NUM_INFO_LOG_LEVELS.

(** Structs that are handed on. *)
Class EnvTypes := { EnvDBOptions : Type; EnvImmutableDBOptions : Type; ThreadStatus : Type }.

(** Cases on the function that is called. *)
Ltac by_env_call c := destruct c as [? []|? []|? []|? []].

Section Environment.
Context `{ET : EnvTypes} {St : Type} `{SI : StatusImpl}.

(** [Status::NotSupported("...")]. *)
Definition env_not_supported (s : string) : Status :=
  NotSupported (Slice_cstr (Some (lit s ++ [x00]))) Slice_empty.

(** ** The virtual functions *)

(** The functions of [Env], grouped; functions passed as arguments are addresses. *)
Inductive envnew_call : Type → Type :=
| RegisterDbPaths (paths : list bytes) : envnew_call Status
| UnregisterDbPaths (paths : list bytes) : envnew_call Status
| NewSequentialFile (fname : bytes) (result : Z) (options : EnvOptions) : envnew_call (Status * Z)
| NewRandomAccessFile (fname : bytes) (result : Z) (options : EnvOptions) : envnew_call (Status * Z)
| NewWritableFile (fname : bytes) (result : Z) (options : EnvOptions) : envnew_call (Status * Z)
| ReopenWritableFile (fname : bytes) (result : Z) (options : EnvOptions) : envnew_call (Status * Z)
| ReuseWritableFile (fname old_fname : bytes) (result : Z) (options : EnvOptions) : envnew_call (Status * Z)
| NewRandomRWFile (fname : bytes) (result : Z) (options : EnvOptions) : envnew_call (Status * Z)
| NewMemoryMappedFileBuffer (fname : bytes) (result : Z) : envnew_call (Status * Z)
| NewDirectory (name : bytes) (result : Z) : envnew_call (Status * Z)
| NewLogger (fname : bytes) (result : Z) : envnew_call (Status * Z)
| LoadLibrary (lib_name search_path : bytes) (result : Z) : envnew_call (Status * Z).

Inductive envname_call : Type → Type :=
| FileExists (fname : bytes) : envname_call Status
| GetChildren (dir : bytes) (result : list bytes) : envname_call (Status * list bytes)
| GetChildrenFileAttributes (dir : bytes) (result : list FileAttributes) : envname_call
    (Status * list FileAttributes)
| DeleteFile (fname : bytes) : envname_call Status
| Truncate (fname : bytes) (size : Z) : envname_call Status
| CreateDir (dirname : bytes) : envname_call Status
| CreateDirIfMissing (dirname : bytes) : envname_call Status
| DeleteDir (dirname : bytes) : envname_call Status
| GetFileSize (fname : bytes) (file_size : Z) : envname_call (Status * Z)
| GetFileModificationTime (fname : bytes) (file_mtime : Z) : envname_call (Status * Z)
| RenameFile (src target : bytes) : envname_call Status
| LinkFile (src target : bytes) : envname_call Status
| SyncFile (fname : bytes) (env_options : EnvOptions) (use_fsync : bool) : envname_call Status
| NumFileLinks (fname : bytes) (count : Z) : envname_call (Status * Z)
| AreFilesSame (first second : bytes) (res : bool) : envname_call (Status * bool)
| LockFile (fname : bytes) (lock : Z) : envname_call (Status * Z)
| UnlockFile (lock : Z) : envname_call Status
| GetTestDirectory (path : bytes) : envname_call (Status * bytes)
| GetAbsolutePath (db_path output_path : bytes) : envname_call (Status * bytes)
| GetFreeSpace (path : bytes) (diskfree : Z) : envname_call (Status * Z)
| IsDirectory (path : bytes) (is_dir : bool) : envname_call (Status * bool).

Inductive envthread_call : Type → Type :=
| Schedule (function arg : Z) (pri : Priority) (tag unschedFunction : Z) : envthread_call unit
| UnSchedule (arg : Z) (pri : Priority) : envthread_call Z
| StartThread (function arg : Z) : envthread_call unit
| WaitForJoin : envthread_call unit
| ReserveThreads (threads_to_be_reserved : Z) (pri : Priority) : envthread_call Z
| ReleaseThreads (threads_to_be_released : Z) (pri : Priority) : envthread_call Z
| GetThreadPoolQueueLen (pri : Priority) : envthread_call Z
| SetBackgroundThreads (number : Z) (pri : Priority) : envthread_call unit
| GetBackgroundThreads (pri : Priority) : envthread_call Z
| SetAllowNonOwnerAccess (allow_non_owner_access : bool) : envthread_call Status
| IncBackgroundThreadsIfNeeded (number : Z) (pri : Priority) : envthread_call unit
| LowerThreadPoolIOPriority (pool : Priority) : envthread_call unit
| LowerThreadPoolCPUPriority_to (pool : Priority) (pri : CpuPriority) : envthread_call Status
| LowerThreadPoolCPUPriority (pool : Priority) : envthread_call unit
| GetThreadList (thread_list : list ThreadStatus) : envthread_call (Status * list ThreadStatus)
| GetThreadStatusUpdater : envthread_call Z
| GetThreadID : envthread_call Z.

Inductive envmisc_call : Type → Type :=
| Name : envmisc_call bytes
| NowMicros : envmisc_call Z
| NowNanos : envmisc_call Z
| NowCPUNanos : envmisc_call Z
| SleepForMicroseconds (micros : Z) : envmisc_call unit
| GetHostName (name : bytes) (len : Z) : envmisc_call (Status * bytes)
| GetHostNameString (result : bytes) : envmisc_call (Status * bytes)
| GetCurrentTime (unix_time : Z) : envmisc_call (Status * Z)
| TimeToString (time : Z) : envmisc_call bytes
| GenerateUniqueId : envmisc_call bytes
| OptimizeForLogRead (env_options : EnvOptions) : envmisc_call EnvOptions
| OptimizeForManifestRead (env_options : EnvOptions) : envmisc_call EnvOptions
| OptimizeForLogWrite (env_options : EnvOptions) (db_options : EnvDBOptions) : envmisc_call EnvOptions
| OptimizeForManifestWrite (env_options : EnvOptions) : envmisc_call EnvOptions
| OptimizeForCompactionTableWrite (env_options : EnvOptions) (immutable_ops : EnvImmutableDBOptions) :
    envmisc_call EnvOptions
| OptimizeForCompactionTableRead (env_options : EnvOptions) (db_options : EnvImmutableDBOptions) :
    envmisc_call EnvOptions
| OptimizeForBlobFileRead (env_options : EnvOptions) (db_options : EnvImmutableDBOptions) : envmisc_call
    EnvOptions
| SanitizeEnvOptions (env_opts : EnvOptions) : envmisc_call EnvOptions.

Inductive env_call : Type → Type :=
| En {R} (c : envnew_call R) : env_call R
| Em {R} (c : envname_call R) : env_call R
| Et {R} (c : envthread_call R) : env_call R
| Eo {R} (c : envmisc_call R) : env_call R.

#[local] Abbreviation env := (object env_call St).

(** What the header does not define: the bodies that are only declared, and what
    the constructors put into [thread_status_updater_] of the object at an address. *)
Class EnvImpl := {
  env_outside : env → env;
  thread_status_updater_ : Z → M St Z;
}.
Context `{EI : EnvImpl}.

Definition envnew_bodies (self : env) {R} (c : envnew_call R) : M St R :=
  match c in envnew_call T return M St T with
  | RegisterDbPaths _ => ret OK
  | UnregisterDbPaths _ => ret OK
  | ReopenWritableFile _ result _ =>
      ret (env_not_supported "Env::ReopenWritableFile() not supported.", result)
  | ReuseWritableFile fname old_fname result options =>
      env_outside self _ (En (ReuseWritableFile fname old_fname result options))
  | NewRandomRWFile _ result _ => ret (env_not_supported "RandomRWFile is not implemented in this Env", result)
  | NewMemoryMappedFileBuffer _ result =>
      ret (env_not_supported "MemoryMappedFileBuffer is not implemented in this Env", result)
  | NewLogger fname result => env_outside self _ (En (NewLogger fname result))
  | LoadLibrary _ _ result => ret (env_not_supported "LoadLibrary is not implemented in this Env", result)
  | _ => pure_virtual
  end.

Definition envname_bodies (self : env) {R} (c : envname_call R) : M St R :=
  match c in envname_call T return M St T with
  | GetChildrenFileAttributes dir result => env_outside self _ (Em (GetChildrenFileAttributes dir result))
  | Truncate _ _ => ret (env_not_supported "Truncate is not supported for this Env")
  | LinkFile _ _ => ret (env_not_supported "LinkFile is not supported for this Env")
  | SyncFile fname env_options use_fsync => env_outside self _ (Em (SyncFile fname env_options use_fsync))
  | NumFileLinks _ count =>
      ret (env_not_supported "Getting number of file links is not supported for this Env", count)
  | AreFilesSame _ _ res => ret (env_not_supported "AreFilesSame is not supported for this Env", res)
  | GetFreeSpace _ diskfree => ret (env_not_supported "Env::GetFreeSpace() not supported.", diskfree)
  | IsDirectory _ is_dir => ret (env_not_supported "Env::IsDirectory() not supported.", is_dir)
  | _ => pure_virtual
  end.

Definition envthread_bodies (this : Z) (self : env) {R} (c : envthread_call R) : M St R :=
  match c in envthread_call T return M St T with
  | UnSchedule _ _ => ret 0
  | WaitForJoin => ret tt
  | ReserveThreads _ _ => ret 0
  | ReleaseThreads _ _ => ret 0
  | GetThreadPoolQueueLen _ => ret 0
  | SetAllowNonOwnerAccess _ => ret (env_not_supported "Env::SetAllowNonOwnerAccess() not supported.")
  | LowerThreadPoolIOPriority _ => ret tt
  | LowerThreadPoolCPUPriority_to _ _ =>
      ret (env_not_supported "Env::LowerThreadPoolCPUPriority(Priority, CpuPriority) not supported")
  | LowerThreadPoolCPUPriority _ => ret tt
  | GetThreadList thread_list => ret (env_not_supported "Env::GetThreadList() not supported.", thread_list)
  | GetThreadStatusUpdater => thread_status_updater_ this
  | GetThreadID => env_outside self _ (Et GetThreadID)
  | _ => pure_virtual
  end.

Definition envmisc_bodies (self : env) {R} (c : envmisc_call R) : M St R :=
  match c in envmisc_call T return M St T with
  | Name => ret []
  | NowNanos => t ← self _ (Eo NowMicros); ret (u64_mul t 1000)
  | NowCPUNanos => ret 0
  | GetHostNameString result => env_outside self _ (Eo (GetHostNameString result))
  | GenerateUniqueId => env_outside self _ (Eo GenerateUniqueId)
  | OptimizeForLogRead env_options => env_outside self _ (Eo (OptimizeForLogRead env_options))
  | OptimizeForManifestRead env_options => env_outside self _ (Eo (OptimizeForManifestRead env_options))
  | OptimizeForLogWrite env_options db_options =>
      env_outside self _ (Eo (OptimizeForLogWrite env_options db_options))
  | OptimizeForManifestWrite env_options => env_outside self _ (Eo (OptimizeForManifestWrite env_options))
  | OptimizeForCompactionTableWrite env_options immutable_ops =>
      env_outside self _ (Eo (OptimizeForCompactionTableWrite env_options immutable_ops))
  | OptimizeForCompactionTableRead env_options db_options =>
      env_outside self _ (Eo (OptimizeForCompactionTableRead env_options db_options))
  | OptimizeForBlobFileRead env_options db_options =>
      env_outside self _ (Eo (OptimizeForBlobFileRead env_options db_options))
  | SanitizeEnvOptions env_opts => ret env_opts
  | _ => pure_virtual
  end.

Definition env_bodies (this : Z) (self : env) : env := λ R c,
  match c in env_call T return M St T with
  | En c => envnew_bodies self c
  | Em c => envname_bodies self c
  | Et c => envthread_bodies this self c
  | Eo c => envmisc_bodies self c
  end.

(** ** EnvWrapper *)

(** [Target]: [env] and [guard] are addresses, 0 is the null pointer. *)
Record Target := mkTarget { target_env : Z; guard : Z }.
Definition Target_raw (t : Z) : Target := mkTarget t 0.
Definition Target_owned (t : Z) : Target := mkTarget t t.
(** [Env::Default()] is code outside. *)
Definition Prepare (Default : Z) (t : Target) : Target :=
  if negb (guard t =? 0) then mkTarget (guard t) (guard t)
  else if target_env t =? 0 then mkTarget Default (guard t)
  else t.

Definition wrap_envnew (target_ : env) {R} (c : envnew_call R) : option (M St R) :=
  match c in envnew_call T return option (M St T) with
  | RegisterDbPaths paths => Some (target_ _ (En (RegisterDbPaths paths)))
  | UnregisterDbPaths paths => Some (target_ _ (En (UnregisterDbPaths paths)))
  | NewSequentialFile f r options => Some (target_ _ (En (NewSequentialFile f r options)))
  | NewRandomAccessFile f r options => Some (target_ _ (En (NewRandomAccessFile f r options)))
  | NewWritableFile f r options => Some (target_ _ (En (NewWritableFile f r options)))
  | ReopenWritableFile fname result options => Some (target_ _ (En (ReopenWritableFile fname result options)))
  | ReuseWritableFile fname old_fname r options =>
      Some (target_ _ (En (ReuseWritableFile fname old_fname r options)))
  | NewRandomRWFile fname result options => Some (target_ _ (En (NewRandomRWFile fname result options)))
  | NewMemoryMappedFileBuffer fname result => Some (target_ _ (En (NewMemoryMappedFileBuffer fname result)))
  | NewDirectory name result => Some (target_ _ (En (NewDirectory name result)))
  | NewLogger fname result => Some (target_ _ (En (NewLogger fname result)))
  | LoadLibrary lib_name search_path result => Some (target_ _ (En (LoadLibrary lib_name search_path result)))
  end.

Definition wrap_envname (target_ : env) {R} (c : envname_call R) : option (M St R) :=
  match c in envname_call T return option (M St T) with
  | FileExists f => Some (target_ _ (Em (FileExists f)))
  | GetChildren dir r => Some (target_ _ (Em (GetChildren dir r)))
  | GetChildrenFileAttributes dir result => Some (target_ _ (Em (GetChildrenFileAttributes dir result)))
  | DeleteFile f => Some (target_ _ (Em (DeleteFile f)))
  | Truncate fname size => Some (target_ _ (Em (Truncate fname size)))
  | CreateDir d => Some (target_ _ (Em (CreateDir d)))
  | CreateDirIfMissing d => Some (target_ _ (Em (CreateDirIfMissing d)))
  | DeleteDir d => Some (target_ _ (Em (DeleteDir d)))
  | GetFileSize f s => Some (target_ _ (Em (GetFileSize f s)))
  | GetFileModificationTime fname file_mtime => Some (target_ _ (Em (GetFileModificationTime fname file_mtime)))
  | RenameFile s t => Some (target_ _ (Em (RenameFile s t)))
  | LinkFile s t => Some (target_ _ (Em (LinkFile s t)))
  | SyncFile fname env_options use_fsync => Some (target_ _ (Em (SyncFile fname env_options use_fsync)))
  | NumFileLinks fname count => Some (target_ _ (Em (NumFileLinks fname count)))
  | AreFilesSame first second res => Some (target_ _ (Em (AreFilesSame first second res)))
  | LockFile f l => Some (target_ _ (Em (LockFile f l)))
  | UnlockFile l => Some (target_ _ (Em (UnlockFile l)))
  | GetTestDirectory path => Some (target_ _ (Em (GetTestDirectory path)))
  | GetAbsolutePath db_path output_path => Some (target_ _ (Em (GetAbsolutePath db_path output_path)))
  | GetFreeSpace path diskfree => Some (target_ _ (Em (GetFreeSpace path diskfree)))
  | IsDirectory path is_dir => Some (target_ _ (Em (IsDirectory path is_dir)))
  end.

Definition wrap_envthread (target_ : env) {R} (c : envthread_call R) : option (M St R) :=
  match c in envthread_call T return option (M St T) with
  | Schedule f a pri tag u => Some (target_ _ (Et (Schedule f a pri tag u)))
  | UnSchedule tag pri => Some (target_ _ (Et (UnSchedule tag pri)))
  | StartThread f a => Some (target_ _ (Et (StartThread f a)))
  | WaitForJoin => Some (target_ _ (Et WaitForJoin))
  | GetThreadPoolQueueLen pri => Some (target_ _ (Et (GetThreadPoolQueueLen pri)))
  | ReserveThreads n pri => Some (target_ _ (Et (ReserveThreads n pri)))
  | ReleaseThreads n pri => Some (target_ _ (Et (ReleaseThreads n pri)))
  | SetBackgroundThreads num pri => Some (target_ _ (Et (SetBackgroundThreads num pri)))
  | GetBackgroundThreads pri => Some (target_ _ (Et (GetBackgroundThreads pri)))
  | SetAllowNonOwnerAccess b => Some (target_ _ (Et (SetAllowNonOwnerAccess b)))
  | IncBackgroundThreadsIfNeeded num pri => Some (target_ _ (Et (IncBackgroundThreadsIfNeeded num pri)))
  | LowerThreadPoolIOPriority pool => Some (target_ _ (Et (LowerThreadPoolIOPriority pool)))
  | LowerThreadPoolCPUPriority_to pool pri => Some (target_ _ (Et (LowerThreadPoolCPUPriority_to pool pri)))
  | LowerThreadPoolCPUPriority pool => Some (target_ _ (Et (LowerThreadPoolCPUPriority pool)))
  | GetThreadList thread_list => Some (target_ _ (Et (GetThreadList thread_list)))
  | GetThreadStatusUpdater => Some (target_ _ (Et GetThreadStatusUpdater))
  | GetThreadID => Some (target_ _ (Et GetThreadID))
  end.

Definition wrap_envmisc (target_ : env) {R} (c : envmisc_call R) : option (M St R) :=
  match c in envmisc_call T return option (M St T) with
  | Name => Some (target_ _ (Eo Name))
  | NowMicros => Some (target_ _ (Eo NowMicros))
  | NowNanos => Some (target_ _ (Eo NowNanos))
  | NowCPUNanos => Some (target_ _ (Eo NowCPUNanos))
  | SleepForMicroseconds micros => Some (target_ _ (Eo (SleepForMicroseconds micros)))
  | GetHostName name len => Some (target_ _ (Eo (GetHostName name len)))
  | GetHostNameString _ => None
  | GetCurrentTime unix_time => Some (target_ _ (Eo (GetCurrentTime unix_time)))
  | TimeToString time => Some (target_ _ (Eo (TimeToString time)))
  | GenerateUniqueId => Some (target_ _ (Eo GenerateUniqueId))
  | OptimizeForLogRead env_options => Some (target_ _ (Eo (OptimizeForLogRead env_options)))
  | OptimizeForManifestRead env_options => Some (target_ _ (Eo (OptimizeForManifestRead env_options)))
  | OptimizeForLogWrite env_options db_options =>
      Some (target_ _ (Eo (OptimizeForLogWrite env_options db_options)))
  | OptimizeForManifestWrite env_options => Some (target_ _ (Eo (OptimizeForManifestWrite env_options)))
  | OptimizeForCompactionTableWrite env_options immutable_ops =>
      Some (target_ _ (Eo (OptimizeForCompactionTableWrite env_options immutable_ops)))
  | OptimizeForCompactionTableRead env_options db_options =>
      Some (target_ _ (Eo (OptimizeForCompactionTableRead env_options db_options)))
  | OptimizeForBlobFileRead env_options db_options =>
      Some (target_ _ (Eo (OptimizeForBlobFileRead env_options db_options)))
  | SanitizeEnvOptions env_opts => Some (target_ _ (Eo (SanitizeEnvOptions env_opts)))
  end.

Definition EnvWrapper (target_ : env) : overrides env_call St := λ R c,
  match c in env_call T return option (M St T) with
  | En c => wrap_envnew target_ c
  | Em c => wrap_envname target_ c
  | Et c => wrap_envthread target_ c
  | Eo c => wrap_envmisc target_ c
  end.

(** ** Wrapped environments *)

(** The function [EnvWrapper] does not forward. *)
Definition env_hidden {R} (c : env_call R) : bool := match c with Eo (GetHostNameString _) => true | _ => false end.

(** The functions with a body in the header. *)
Definition env_has_body {R} (c : env_call R) : bool :=
  match c with
  | En (RegisterDbPaths _) | En (UnregisterDbPaths _) | En (ReopenWritableFile _ _ _) | En (NewRandomRWFile _ _ _)
  | En (NewMemoryMappedFileBuffer _ _) | En (LoadLibrary _ _ _)
  | Em (Truncate _ _) | Em (LinkFile _ _) | Em (NumFileLinks _ _) | Em (AreFilesSame _ _ _)
  | Em (GetFreeSpace _ _) | Em (IsDirectory _ _)
  | Et (UnSchedule _ _) | Et WaitForJoin | Et (ReserveThreads _ _) | Et (ReleaseThreads _ _)
  | Et (GetThreadPoolQueueLen _) | Et (SetAllowNonOwnerAccess _) | Et (LowerThreadPoolIOPriority _)
  | Et (LowerThreadPoolCPUPriority_to _ _) | Et (LowerThreadPoolCPUPriority _) | Et (GetThreadList _)
  | Et GetThreadStatusUpdater
  | Eo Name | Eo NowNanos | Eo NowCPUNanos | Eo (SanitizeEnvOptions _) => true
  | _ => false
  end.

(** [NowNanos] calls [NowMicros]. *)
Definition env_depth {R} (c : env_call R) : nat := match c with Eo NowNanos => 2 | _ => 1 end.
Definition no_overload {R} (c : env_call R) : bool := false.

Lemma env_depth_bound R (c : env_call R) : (1 ≤ env_depth c ≤ 2)%nat.
Proof. by_env_call c; simpl; lia. Qed.

Lemma env_forwards (t : env) R (c : env_call R) : env_hidden c = false →
  EnvWrapper t R c = if no_overload c then None else Some (t R c).
Proof. by_env_call c; try done. Qed.

Lemma env_bodies_agree (a b : Z) (self self' : env) R (c : env_call R) s :
  env_has_body c = true → a = b ∨ no_overload c = true →
  (∀ R' (c' : env_call R') s', (env_depth c' < env_depth c)%nat →
    env_hidden c' = false ∨ no_overload c = false ∧ env_has_body c' = true → self _ c' s' = self' _ c' s') →
  env_bodies a self R c s = env_bodies b self' R c s.
Proof.
  intros Hb [->|[=]] Hs. by_env_call c; try discriminate Hb; try reflexivity.
  cbn [env_bodies envmisc_bodies]. unfold mbind, M_bind. rewrite Hs; [done|simpl; lia|by left].
Qed.

#[export] Instance env_wrapper : Transparent env_call St env_bodies EnvWrapper := {|
  overload := @no_overload; hidden := @env_hidden; has_body := @env_has_body; depth := @env_depth;
  max_depth := 2; depth_bound := env_depth_bound; overload_has_body := λ _ _ H, False_ind _ (diff_false_true H);
  wrapper_forwards := env_forwards; bodies_agree := env_bodies_agree;
|}.

(** An environment of the class [ov], and [k] wrappers around it. *)
Definition environment (this : Z) (ov : overrides env_call St) : env := dispatch env_call St env_bodies 2 this ov.
Definition wrapped_env (k : nat) (address : nat → Z) (ov : overrides env_call St) : env :=
  layers env_call St env_bodies EnvWrapper k address ov.

(** Any number of [EnvWrapper]s around an environment that implements what the
    header leaves open answers every call but [GetHostNameString] as the
    environment itself, with the same effect; the functions with a body in [Env],
    which the class need not override, included. *)
Theorem wrapped_env_transparent (ov : overrides env_call St) (address : nat → Z) (k : nat) R (c : env_call R) (s : St) :
  base_class env_call St env_bodies EnvWrapper ov → env_hidden c = false →
  wrapped_env k address ov _ c s = environment (address O) ov _ c s.
Proof. apply layers_transparent. Qed.

(** [Prepare] leaves no null pointer, keeps an environment that was given, prefers
    the one that is owned, and does nothing the second time. *)
Theorem prepare_target (Default : Z) (t : Target) : Default ≠ 0 →
  target_env (Prepare Default t) ≠ 0 ∧ Prepare Default (Prepare Default t) = Prepare Default t ∧
  (∀ e, e ≠ 0 → Prepare Default (Target_raw e) = Target_raw e ∧ Prepare Default (Target_owned e) = Target_owned e).
Proof.
  intros HD. unfold Prepare, Target_raw, Target_owned. destruct t as [e g]. simpl. split_and!.
  - destruct (Z.eqb_spec g 0); simpl; [|done]. by destruct (Z.eqb_spec e 0).
  - destruct (Z.eqb_spec g 0) as [->|Hg]; simpl.
    + destruct (Z.eqb_spec e 0) as [->|He]; simpl; [by rewrite (proj2 (Z.eqb_neq Default 0))|].
      by rewrite (proj2 (Z.eqb_neq e 0)).
    + by rewrite (proj2 (Z.eqb_neq g 0)).
  - intros e' He. by rewrite (proj2 (Z.eqb_neq e' 0)).
Qed.
End Environment.
