(* ===== verification/EnvFiles.v ===== *)
(** * The files and loggers of an environment (libs/rocksdb/env.h)

    The classes [SequentialFile], [RandomAccessFile], [WritableFile], [RandomRWFile],
    [Directory], [Logger] and [DynamicLibrary] with their bodies, and the wrappers
    that forward every call.  Functions, objects and classes are as in Virtual.v;
    buffers are addresses, and the fields of a writable file are those of
    FileSystem.v, which has the newer interface of the same files. *)

From stdpp Require Import base list gmap strings.
From Stdlib Require Import ZArith Lia.
From Stdlib.Strings Require Import Byte.
From S2P Require Import Prelude Slice Status Virtual FileSystem Env.

Open Scope Z_scope.

(** ** Files for reading *)

Record ReadRequest := mkReadRequest {
  rr_offset : Z; rr_len : Z; rr_scratch : Z; rr_result : Slice; rr_status : Status;
}.
Definition set_read (req : ReadRequest) (s : Status) (result : Slice) : ReadRequest :=
  mkReadRequest (rr_offset req) (rr_len req) (rr_scratch req) result s.

Inductive AccessPattern := NORMAL | RANDOM | SEQUENTIAL | WILLNEED | DONTNEED.

Section Reading.
Context {St : Type} `{SI : StatusImpl}.

Inductive SequentialFile : Type → Type :=
| sf_Read (n : Z) (result : Slice) (scratch : Z) : SequentialFile (Status * Slice)
| sf_Skip (n : Z) : SequentialFile Status
| sf_use_direct_io : SequentialFile bool
| sf_GetRequiredBufferAlignment : SequentialFile Z
| sf_InvalidateCache (offset length : Z) : SequentialFile Status
| sf_PositionedRead (offset n : Z) (result : Slice) (scratch : Z) : SequentialFile (Status * Slice).

Definition SequentialFile_bodies (self : object SequentialFile St) {R} (c : SequentialFile R) : M St R :=
  match c in SequentialFile T return M St T with
  | sf_use_direct_io => ret false
  | sf_GetRequiredBufferAlignment => ret kDefaultPageSize
  | sf_InvalidateCache _ _ => ret (env_not_supported "SequentialFile::InvalidateCache not supported.")
  | sf_PositionedRead _ _ result _ =>
      ret (env_not_supported "SequentialFile::PositionedRead() not supported.", result)
  | _ => pure_virtual
  end.

Definition SequentialFileWrapper (target_ : object SequentialFile St) {R} (c : SequentialFile R) : option (M St R) :=
  match c in SequentialFile T return option (M St T) with
  | sf_Read n result scratch => Some (target_ _ (sf_Read n result scratch))
  | sf_Skip n => Some (target_ _ (sf_Skip n))
  | sf_use_direct_io => Some (target_ _ sf_use_direct_io)
  | sf_GetRequiredBufferAlignment => Some (target_ _ sf_GetRequiredBufferAlignment)
  | sf_InvalidateCache offset length => Some (target_ _ (sf_InvalidateCache offset length))
  | sf_PositionedRead offset n result scratch => Some (target_ _ (sf_PositionedRead offset n result scratch))
  end.

Inductive RandomAccessFile : Type → Type :=
| rf_Read (offset n : Z) (result : Slice) (scratch : Z) : RandomAccessFile (Status * Slice)
| rf_Prefetch (offset n : Z) : RandomAccessFile Status
| rf_MultiRead (reqs : list ReadRequest) (num_reqs : Z) : RandomAccessFile (Status * list ReadRequest)
| rf_GetUniqueId (id max_size : Z) : RandomAccessFile Z
| rf_Hint (pattern : AccessPattern) : RandomAccessFile unit
| rf_use_direct_io : RandomAccessFile bool
| rf_GetRequiredBufferAlignment : RandomAccessFile Z
| rf_InvalidateCache (offset length : Z) : RandomAccessFile Status
| rf_GetFileSize (result : Z) : RandomAccessFile (Status * Z).

(** The loop of [MultiRead] over the requests that are left of [num_reqs]; [None] is
    an access past the array. *)
Fixpoint env_multi_read_loop (self : object RandomAccessFile St) (num_reqs : nat) (reqs : list ReadRequest)
    : M St (list ReadRequest) :=
  match num_reqs, reqs with
  | O, _ => ret reqs
  | S n, req :: reqs' =>
      '(s, result) ← self _ (rf_Read (rr_offset req) (rr_len req) (rr_result req) (rr_scratch req));
      reqs'' ← env_multi_read_loop self n reqs';
      ret (set_read req s result :: reqs'')
  | S _, [] => pure_virtual
  end.
Definition env_multi_read (self : object RandomAccessFile St) (reqs : list ReadRequest) (num_reqs : Z)
    : M St (Status * list ReadRequest) :=
  reqs ← env_multi_read_loop self (Z.to_nat num_reqs) reqs; ret (OK, reqs).

Definition RandomAccessFile_bodies (self : object RandomAccessFile St) {R} (c : RandomAccessFile R) : M St R :=
  match c in RandomAccessFile T return M St T with
  | rf_Prefetch _ _ => ret OK
  | rf_MultiRead reqs num_reqs => env_multi_read self reqs num_reqs
  | rf_GetUniqueId _ _ => ret 0
  | rf_Hint _ => ret tt
  | rf_use_direct_io => ret false
  | rf_GetRequiredBufferAlignment => ret kDefaultPageSize
  | rf_InvalidateCache _ _ => ret (env_not_supported "RandomAccessFile::InvalidateCache not supported.")
  | rf_GetFileSize result => ret (env_not_supported "RandomAccessFile::GetFileSize not supported.", result)
  | _ => pure_virtual
  end.

Definition RandomAccessFileWrapper (target_ : object RandomAccessFile St) {R} (c : RandomAccessFile R)
    : option (M St R) :=
  match c in RandomAccessFile T return option (M St T) with
  | rf_Read offset n result scratch => Some (target_ _ (rf_Read offset n result scratch))
  | rf_MultiRead reqs num_reqs => Some (target_ _ (rf_MultiRead reqs num_reqs))
  | rf_Prefetch offset n => Some (target_ _ (rf_Prefetch offset n))
  | rf_GetUniqueId id max_size => Some (target_ _ (rf_GetUniqueId id max_size))
  | rf_Hint pattern => Some (target_ _ (rf_Hint pattern))
  | rf_use_direct_io => Some (target_ _ rf_use_direct_io)
  | rf_GetRequiredBufferAlignment => Some (target_ _ rf_GetRequiredBufferAlignment)
  | rf_InvalidateCache offset length => Some (target_ _ (rf_InvalidateCache offset length))
  | rf_GetFileSize file_size => Some (target_ _ (rf_GetFileSize file_size))
  end.

(** ** Other files *)

Inductive RandomRWFile : Type → Type :=
| rwf_use_direct_io : RandomRWFile bool
| rwf_GetRequiredBufferAlignment : RandomRWFile Z
| rwf_Write (offset : Z) (data : Slice) : RandomRWFile Status
| rwf_Read (offset n : Z) (result : Slice) (scratch : Z) : RandomRWFile (Status * Slice)
| rwf_Flush : RandomRWFile Status
| rwf_Sync : RandomRWFile Status
| rwf_Fsync : RandomRWFile Status
| rwf_Close : RandomRWFile Status.

Definition RandomRWFile_bodies (self : object RandomRWFile St) {R} (c : RandomRWFile R) : M St R :=
  match c in RandomRWFile T return M St T with
  | rwf_use_direct_io => ret false
  | rwf_GetRequiredBufferAlignment => ret kDefaultPageSize
  | rwf_Fsync => self _ rwf_Sync
  | _ => pure_virtual
  end.

Definition RandomRWFileWrapper (target_ : object RandomRWFile St) {R} (c : RandomRWFile R) : option (M St R) :=
  match c in RandomRWFile T return option (M St T) with
  | rwf_use_direct_io => Some (target_ _ rwf_use_direct_io)
  | rwf_GetRequiredBufferAlignment => Some (target_ _ rwf_GetRequiredBufferAlignment)
  | rwf_Write offset data => Some (target_ _ (rwf_Write offset data))
  | rwf_Read offset n result scratch => Some (target_ _ (rwf_Read offset n result scratch))
  | rwf_Flush => Some (target_ _ rwf_Flush)
  | rwf_Sync => Some (target_ _ rwf_Sync)
  | rwf_Fsync => Some (target_ _ rwf_Fsync)
  | rwf_Close => Some (target_ _ rwf_Close)
  end.

Inductive Directory : Type → Type :=
| d_Fsync : Directory Status
| d_Close : Directory Status
| d_GetUniqueId (id max_size : Z) : Directory Z.

Definition Directory_bodies (self : object Directory St) {R} (c : Directory R) : M St R :=
  match c in Directory T return M St T with
  | d_Close => ret (env_not_supported "Close")
  | d_GetUniqueId _ _ => ret 0
  | _ => pure_virtual
  end.

Definition DirectoryWrapper (target_ : object Directory St) {R} (c : Directory R) : option (M St R) :=
  match c in Directory T return option (M St T) with
  | d_Fsync => Some (target_ _ d_Fsync)
  | d_Close => Some (target_ _ d_Close)
  | d_GetUniqueId id max_size => Some (target_ _ (d_GetUniqueId id max_size))
  end.

(** [DynamicLibrary::LoadFunction]; [LoadSymbol] gives a status and a pointer. *)
Definition LoadFunction (LoadSymbol : bytes → Z → M St (Status * Z)) (sym_name : bytes) (function : option Z)
    : M St (Status * Z) :=
  match function with
  | None => pure_virtual (* assert *)
  | Some _ => '(s, ptr) ← LoadSymbol sym_name 0; ret (s, ptr)
  end.
End Reading.

(** ** Writable files *)

Section Writing.
Context {W : Type} `{SI : StatusImpl}.

#[local] Abbreviation St := (W * gmap Z WritableFields)%type.

Definition WritableFile_new : WritableFields := mkFields 0 0 IO_TOTAL WLTH_NOT_SET false.
Definition WritableFile_options (options : EnvOptions) : WritableFields :=
  mkFields 0 0 IO_TOTAL WLTH_NOT_SET (strict_bytes_per_sync options).

Inductive WritableFile : Type → Type :=
| w_Append (data : Slice) : WritableFile Status
| w_Append_verify (data : Slice) (verification_info : DataVerificationInfo) : WritableFile Status
| w_PositionedAppend (data : Slice) (offset : Z) : WritableFile Status
| w_PositionedAppend_verify (data : Slice) (offset : Z) (verification_info : DataVerificationInfo) :
    WritableFile Status
| w_Truncate (size : Z) : WritableFile Status
| w_Close : WritableFile Status
| w_Flush : WritableFile Status
| w_Sync : WritableFile Status
| w_Fsync : WritableFile Status
| w_IsSyncThreadSafe : WritableFile bool
| w_use_direct_io : WritableFile bool
| w_GetRequiredBufferAlignment : WritableFile Z
| w_SetIOPriority (pri : Z) : WritableFile unit
| w_GetIOPriority : WritableFile Z
| w_SetWriteLifeTimeHint (hint : Z) : WritableFile unit
| w_GetWriteLifeTimeHint : WritableFile Z
| w_GetFileSize : WritableFile Z
| w_SetPreallocationBlockSize (size : Z) : WritableFile unit
| w_GetPreallocationStatus (block_size last_allocated_block : Z) : WritableFile (Z * Z)
| w_GetUniqueId (id max_size : Z) : WritableFile Z
| w_InvalidateCache (offset length : Z) : WritableFile Status
| w_RangeSync (offset nbytes : Z) : WritableFile Status
| w_PrepareWrite (offset len : Z) : WritableFile unit
| w_Allocate (offset len : Z) : WritableFile Status.

#[local] Abbreviation file := (object WritableFile St).

(** [size_t] arithmetic; the status of [Allocate] is ignored. *)
Definition WritableFile_PrepareWrite (this : Z) (self : file) (offset len : Z) : M St unit :=
  f ← fields this;
  if preallocation_block_size_ f =? 0 then ret tt
  else
    let block_size := preallocation_block_size_ f in
    let new_last_preallocated_block :=
      u64_sub (u64_add (u64_add offset len) block_size) 1 / block_size in
    if last_preallocated_block_ f <? new_last_preallocated_block then
      let num_spanned_blocks := u64_sub new_last_preallocated_block (last_preallocated_block_ f) in
      _ ← self _ (w_Allocate (u64_mul block_size (last_preallocated_block_ f))
                    (u64_mul block_size num_spanned_blocks));
      modify_fields this (set_last_block new_last_preallocated_block)
    else ret tt.

Definition WritableFile_bodies (this : Z) (self : file) : file := λ R c,
  match c in WritableFile T return M St T with
  | w_Append_verify data _ => self _ (w_Append data)
  | w_PositionedAppend _ _ => ret (env_not_supported "WritableFile::PositionedAppend() not supported.")
  | w_PositionedAppend_verify _ _ _ => ret (env_not_supported "PositionedAppend")
  | w_Truncate _ => ret OK
  | w_Fsync => self _ w_Sync
  | w_IsSyncThreadSafe => ret false
  | w_use_direct_io => ret false
  | w_GetRequiredBufferAlignment => ret kDefaultPageSize
  | w_SetIOPriority pri => modify_fields this (set_io_priority pri)
  | w_GetIOPriority => f ← fields this; ret (io_priority_ f)
  | w_SetWriteLifeTimeHint hint => modify_fields this (set_write_hint hint)
  | w_GetWriteLifeTimeHint => f ← fields this; ret (write_hint_ f)
  | w_SetPreallocationBlockSize size => modify_fields this (set_block_size size)
  | w_GetPreallocationStatus _ _ =>
      f ← fields this; ret (preallocation_block_size_ f, last_preallocated_block_ f)
  | w_GetUniqueId _ _ => ret 0
  | w_InvalidateCache _ _ => ret (env_not_supported "WritableFile::InvalidateCache not supported.")
  | w_RangeSync _ _ => f ← fields this; if strict_bytes_per_sync_ f then self _ w_Sync else ret OK
  | w_PrepareWrite offset len => WritableFile_PrepareWrite this self offset len
  | w_Allocate _ _ => ret OK
  | _ => pure_virtual
  end.

Definition WritableFileWrapper (target_ : file) : overrides WritableFile St := λ R c,
  match c in WritableFile T return option (M St T) with
  | w_Append data => Some (target_ _ (w_Append data))
  | w_Append_verify data verification_info => Some (target_ _ (w_Append_verify data verification_info))
  | w_PositionedAppend data offset => Some (target_ _ (w_PositionedAppend data offset))
  | w_PositionedAppend_verify data offset verification_info =>
      Some (target_ _ (w_PositionedAppend_verify data offset verification_info))
  | w_Truncate size => Some (target_ _ (w_Truncate size))
  | w_Close => Some (target_ _ w_Close)
  | w_Flush => Some (target_ _ w_Flush)
  | w_Sync => Some (target_ _ w_Sync)
  | w_Fsync => Some (target_ _ w_Fsync)
  | w_IsSyncThreadSafe => Some (target_ _ w_IsSyncThreadSafe)
  | w_use_direct_io => Some (target_ _ w_use_direct_io)
  | w_GetRequiredBufferAlignment => Some (target_ _ w_GetRequiredBufferAlignment)
  | w_SetIOPriority pri => Some (target_ _ (w_SetIOPriority pri))
  | w_GetIOPriority => Some (target_ _ w_GetIOPriority)
  | w_SetWriteLifeTimeHint hint => Some (target_ _ (w_SetWriteLifeTimeHint hint))
  | w_GetWriteLifeTimeHint => Some (target_ _ w_GetWriteLifeTimeHint)
  | w_GetFileSize => Some (target_ _ w_GetFileSize)
  | w_SetPreallocationBlockSize size => Some (target_ _ (w_SetPreallocationBlockSize size))
  | w_GetPreallocationStatus block_size last_allocated_block =>
      Some (target_ _ (w_GetPreallocationStatus block_size last_allocated_block))
  | w_GetUniqueId id max_size => Some (target_ _ (w_GetUniqueId id max_size))
  | w_InvalidateCache offset length => Some (target_ _ (w_InvalidateCache offset length))
  | w_RangeSync offset nbytes => Some (target_ _ (w_RangeSync offset nbytes))
  | w_PrepareWrite offset len => Some (target_ _ (w_PrepareWrite offset len))
  | w_Allocate offset len => Some (target_ _ (w_Allocate offset len))
  end.
End Writing.

(** ** Loggers *)

Record LoggerFields := mkLogger { closed_ : bool; log_level_ : InfoLogLevel }.
Definition Logger_new (log_level : InfoLogLevel) : LoggerFields := mkLogger false log_level.
Definition kDoNotSupportGetLogFileSize : Z := 2 ^ 64 - 1.

Section Logging.
Context {W : Type} `{SI : StatusImpl}.

(** The world outside and the fields of the loggers, by their address. *)
#[local] Abbreviation St := (W * gmap Z LoggerFields)%type.

Definition logger_fields (this : Z) : M St LoggerFields := λ s, f ← s.2 !! this; Some (f, s).
Definition set_log_level (this : Z) (level : InfoLogLevel) : M St unit :=
  λ s, f ← s.2 !! this; Some (tt, (s.1, <[this := mkLogger (closed_ f) level]> s.2)).

(** A format and its arguments are a string and the address of the list. *)
Inductive Logger : Type → Type :=
| l_Close : Logger Status
| l_LogHeader (format : bytes) (ap : Z) : Logger unit
| l_Logv (format : bytes) (ap : Z) : Logger unit
| l_Logv_level (log_level : InfoLogLevel) (format : bytes) (ap : Z) : Logger unit
| l_GetLogFileSize : Logger Z
| l_Flush : Logger unit
| l_GetInfoLogLevel : Logger InfoLogLevel
| l_SetInfoLogLevel (log_level : InfoLogLevel) : Logger unit
| l_CloseImpl : Logger Status.

#[local] Abbreviation logger := (object Logger St).

(** [Close], [CloseImpl] and the [Logv] with a level are only declared. *)
Class LoggerImpl := { logger_outside : Z → logger → logger }.
Context `{LI : LoggerImpl}.

Definition Logger_bodies (this : Z) (self : logger) : logger := λ R c,
  match c in Logger T return M St T with
  | l_Close => logger_outside this self _ l_Close
  | l_LogHeader format ap => self _ (l_Logv_level INFO_LEVEL format ap)
  | l_Logv _ _ => pure_virtual (* assert(false) *)
  | l_Logv_level log_level format ap => logger_outside this self _ (l_Logv_level log_level format ap)
  | l_GetLogFileSize => ret kDoNotSupportGetLogFileSize
  | l_Flush => ret tt
  | l_GetInfoLogLevel => f ← logger_fields this; ret (log_level_ f)
  | l_SetInfoLogLevel log_level => set_log_level this log_level
  | l_CloseImpl => logger_outside this self _ l_CloseImpl
  end.

(** [None]: the function is inherited. *)
Definition LoggerWrapper (target_ : logger) : overrides Logger St := λ R c,
  match c in Logger T return option (M St T) with
  | l_Close => Some (target_ _ l_Close)
  | l_LogHeader format ap => Some (target_ _ (l_LogHeader format ap))
  | l_Logv format ap => Some (target_ _ (l_Logv format ap))
  | l_Logv_level log_level format ap => Some (target_ _ (l_Logv_level log_level format ap))
  | l_GetLogFileSize => Some (target_ _ l_GetLogFileSize)
  | l_Flush => Some (target_ _ l_Flush)
  | l_GetInfoLogLevel => Some (target_ _ l_GetInfoLogLevel)
  | l_SetInfoLogLevel log_level => Some (target_ _ (l_SetInfoLogLevel log_level))
  | l_CloseImpl => None
  end.
End Logging.

(** ** Wrapped files and loggers *)

Section Wrapped.
Context {W : Type} `{SI : StatusImpl}.

#[local] Abbreviation FSt := (W * gmap Z WritableFields)%type.
#[local] Abbreviation LSt := (W * gmap Z LoggerFields)%type.

Definition file_has_body {R} (c : WritableFile R) : bool :=
  match c with w_Append _ | w_Close | w_Flush | w_Sync | w_GetFileSize => false | _ => true end.
Definition file_depth {R} (c : WritableFile R) : nat :=
  match c with w_Append_verify _ _ | w_Fsync | w_RangeSync _ _ | w_PrepareWrite _ _ => 2 | _ => 1 end.

Lemma file_depth_bound R (c : WritableFile R) : (1 ≤ file_depth c ≤ 2)%nat.
Proof. destruct c; simpl; lia. Qed.

Lemma file_forwards (t : object WritableFile FSt) R (c : WritableFile R) : false = false →
  WritableFileWrapper t R c = if false then None else Some (t R c).
Proof. by destruct c. Qed.

Lemma file_bodies_agree (a b : Z) (self self' : object WritableFile FSt) R (c : WritableFile R) s :
  file_has_body c = true → a = b ∨ false = true →
  (∀ R' (c' : WritableFile R') s', (file_depth c' < file_depth c)%nat →
    false = false ∨ false = false ∧ file_has_body c' = true → self _ c' s' = self' _ c' s') →
  WritableFile_bodies a self R c s = WritableFile_bodies b self' R c s.
Proof.
  intros Hb [->|[=]] Hs. destruct c; try discriminate Hb; try reflexivity; cbn.
  - apply Hs; [simpl; lia|by left].
  - apply Hs; [simpl; lia|by left].
  - unfold mbind, M_bind. destruct (fields b s) as [[f s']|]; [|done].
    destruct (strict_bytes_per_sync_ f); [|done]. apply Hs; [simpl; lia|by left].
  - unfold WritableFile_PrepareWrite, mbind, M_bind. destruct (fields b s) as [[f s']|]; [|done].
    destruct (_ =? 0); [done|]. destruct (_ <? _); [|done]. rewrite Hs; [done|simpl; lia|by left].
Qed.

#[export] Instance file_wrapper : Transparent WritableFile FSt WritableFile_bodies WritableFileWrapper := {|
  overload := λ _ _, false; hidden := λ _ _, false; has_body := @file_has_body; depth := @file_depth;
  max_depth := 2; depth_bound := file_depth_bound; overload_has_body := λ _ _ H, False_ind _ (diff_false_true H);
  wrapper_forwards := file_forwards; bodies_agree := file_bodies_agree;
|}.

Context `{LI : !LoggerImpl (W := W)}.

Definition logger_hidden {R} (c : Logger R) : bool := match c with l_CloseImpl => true | _ => false end.
Definition logger_has_body {R} (c : Logger R) : bool :=
  match c with l_Close | l_Logv_level _ _ _ | l_CloseImpl => false | _ => true end.
Definition logger_depth {R} (c : Logger R) : nat := match c with l_LogHeader _ _ => 2 | _ => 1 end.

Lemma logger_depth_bound R (c : Logger R) : (1 ≤ logger_depth c ≤ 2)%nat.
Proof. destruct c; simpl; lia. Qed.

Lemma logger_forwards (t : object Logger LSt) R (c : Logger R) : logger_hidden c = false →
  LoggerWrapper t R c = if false then None else Some (t R c).
Proof. by destruct c. Qed.

Lemma logger_bodies_agree (a b : Z) (self self' : object Logger LSt) R (c : Logger R) s :
  logger_has_body c = true → a = b ∨ false = true →
  (∀ R' (c' : Logger R') s', (logger_depth c' < logger_depth c)%nat →
    logger_hidden c' = false ∨ false = false ∧ logger_has_body c' = true → self _ c' s' = self' _ c' s') →
  Logger_bodies a self R c s = Logger_bodies b self' R c s.
Proof.
  intros Hb [->|[=]] Hs. destruct c; try discriminate Hb; try reflexivity. cbn. apply Hs; [simpl; lia|by left].
Qed.

#[export] Instance logger_wrapper : Transparent Logger LSt Logger_bodies LoggerWrapper := {|
  overload := λ _ _, false; hidden := @logger_hidden; has_body := @logger_has_body; depth := @logger_depth;
  max_depth := 2; depth_bound := logger_depth_bound; overload_has_body := λ _ _ H, False_ind _ (diff_false_true H);
  wrapper_forwards := logger_forwards; bodies_agree := logger_bodies_agree;
|}.

Definition writable_file (this : Z) (ov : overrides WritableFile FSt) : object WritableFile FSt :=
  dispatch WritableFile FSt WritableFile_bodies 2 this ov.
Definition wrapped_file (k : nat) (address : nat → Z) (ov : overrides WritableFile FSt) : object WritableFile FSt :=
  layers WritableFile FSt WritableFile_bodies WritableFileWrapper k address ov.

(** Any number of [WritableFileWrapper]s and of [LoggerWrapper]s around a file and a
    logger answer every call as these themselves; unlike with the wrapper of the
    newer interface, an I/O priority that is set reaches the file, and the level set
    on a wrapper is that of the logger. *)
Theorem wrapped_files_transparent (k : nat) (address : nat → Z) :
  (∀ ov R (c : WritableFile R) s, base_class WritableFile FSt WritableFile_bodies WritableFileWrapper ov →
    wrapped_file k address ov _ c s = writable_file (address O) ov _ c s) ∧
  (∀ ov R (c : Logger R) s, base_class Logger LSt Logger_bodies LoggerWrapper ov → logger_hidden c = false →
    layers Logger LSt Logger_bodies LoggerWrapper k address ov _ c s =
    dispatch Logger LSt Logger_bodies 2 (address O) ov _ c s).
Proof.
  split.
  - intros ov R c s Hov. by apply layers_transparent.
  - intros ov R c s Hov Hc. by apply layers_transparent.
Qed.

(** The wrappers of the files without fields forward every function. *)
Theorem env_wrappers_forward {St : Type} (sf : object SequentialFile St) (rf : object RandomAccessFile St)
    (rw : object RandomRWFile St) (d : object Directory St) :
  (∀ R (c : SequentialFile R), SequentialFileWrapper sf c = Some (sf R c)) ∧
  (∀ R (c : RandomAccessFile R), RandomAccessFileWrapper rf c = Some (rf R c)) ∧
  (∀ R (c : RandomRWFile R), RandomRWFileWrapper rw c = Some (rw R c)) ∧
  (∀ R (c : Directory R), DirectoryWrapper d c = Some (d R c)).
Proof. split_and!; by intros R []. Qed.

(** ** The two interfaces of a writable file *)

Context `{FT : FsTypes, SO : !StatusImplOk SI} (init : nat → bytes) (options : IOOptions) (dbg : Z).

(** The call of [FSWritableFile] for a call of [WritableFile]. *)
Definition newer_call {R} (c : WritableFile R) : wf_call R :=
  match c in WritableFile T return wf_call T with
  | w_Append data => Append data options dbg
  | w_Append_verify data v => Append_verify data options v dbg
  | w_PositionedAppend data offset => PositionedAppend data offset options dbg
  | w_PositionedAppend_verify data offset v => PositionedAppend_verify data offset options v dbg
  | w_Truncate size => wf_Truncate size options dbg
  | w_Close => wf_Close options dbg
  | w_Flush => wf_Flush options dbg
  | w_Sync => wf_Sync options dbg
  | w_Fsync => wf_Fsync options dbg
  | w_IsSyncThreadSafe => IsSyncThreadSafe
  | w_use_direct_io => wf_use_direct_io
  | w_GetRequiredBufferAlignment => wf_alignment
  | w_SetIOPriority pri => SetIOPriority pri
  | w_GetIOPriority => GetIOPriority
  | w_SetWriteLifeTimeHint hint => SetWriteLifeTimeHint hint
  | w_GetWriteLifeTimeHint => GetWriteLifeTimeHint
  | w_GetFileSize => wf_GetFileSize options dbg
  | w_SetPreallocationBlockSize size => SetPreallocationBlockSize size
  | w_GetPreallocationStatus b l => GetPreallocationStatus b l
  | w_GetUniqueId id max_size => wf_GetUniqueId id max_size
  | w_InvalidateCache offset length => wf_InvalidateCache offset length
  | w_RangeSync offset nbytes => RangeSync offset nbytes options dbg
  | w_PrepareWrite offset len => PrepareWrite offset len options dbg
  | w_Allocate offset len => Allocate offset len options dbg
  end.

(** Statuses with the same code; other results are equal. *)
Definition same_answer {R} (c : WritableFile R) : R → R → Prop :=
  match c in WritableFile T return T → T → Prop with
  | w_Append _ | w_Append_verify _ _ | w_PositionedAppend _ _ | w_PositionedAppend_verify _ _ _ | w_Truncate _
  | w_Close | w_Flush | w_Sync | w_Fsync | w_InvalidateCache _ _ | w_RangeSync _ _ | w_Allocate _ _ =>
      λ x y, code_ x = code_ y
  | _ => eq
  end.
Definition same_run {R} (c : WritableFile R) (x y : option (R * FSt)) : Prop :=
  match x, y with
  | Some (r, s), Some (r', s') => same_answer c r r' ∧ s = s'
  | None, None => True
  | _, _ => False
  end.

Lemma same_run_refl {R} (c : WritableFile R) x : same_run c x x.
Proof. destruct x as [[r s]|]; [|done]. split; [|done]. by destruct c. Qed.

Lemma strlen_bounds (d : bytes) : 0 ≤ strlen d ≤ Z.of_nat (length d).
Proof. induction d as [|x d IH]; [done|]. cbn [strlen length]. destruct (bool_decide _); lia. Qed.

(** Both interfaces answer with the same code where they support nothing. *)
Lemma unsupported_runs (m msg : string) (s : FSt) : (∀ n, length (init n) = n) →
  Z.of_nat (length (lit m)) < 2 ^ 32 →
  ∃ st, fs_not_supported init m s = Some (st, s) ∧ code_ (env_not_supported msg) = code_ st.
Proof.
  intros Hi Hl. unfold fs_not_supported, M_opt, IO.io_NotSupported_msg.
  pose proof (strlen_bounds (lit m ++ [x00])) as Hb. rewrite length_app in Hb. simpl in Hb.
  rewrite IOStatus_message.
  - eexists. split; [reflexivity|]. simpl. unfold env_not_supported, NotSupported, Status_code_msgs. by apply Status_msgs_codes.
  - done.
  - done.
  - done.
  - eexists. split; [reflexivity|]. simpl. rewrite length_app. simpl. lia.
  - eexists. split; [reflexivity|]. simpl. lia.
  - unfold size. simpl. lia.
Qed.

(** A class of the older interface and one of the newer that override the same
    functions, and the calls of files of these classes. *)
Lemma interfaces_agree (this : Z) (ov : overrides WritableFile FSt) (ov' : overrides wf_call FSt) :
  (∀ n, length (init n) = n) → (∀ R (c : WritableFile R), ov' _ (newer_call c) = ov _ c) →
  ∀ n R (c : WritableFile R) s,
  same_run c (dispatch WritableFile FSt WritableFile_bodies n this ov _ c s)
    (dispatch wf_call FSt (λ this self _ c, wf_bodies init this self c) n this ov' _ (newer_call c) s).
Proof.
  intros Hi Hov. induction n as [|n IH]; intros R c s; [done|]. cbn [dispatch]. rewrite Hov.
  destruct (ov R c) as [m|]; [apply same_run_refl|].
  destruct c; try exact (same_run_refl _ _); cbn [newer_call WritableFile_bodies wf_bodies].
  - exact (IH _ (w_Append data) s).
  - destruct (unsupported_runs "PositionedAppend" "WritableFile::PositionedAppend() not supported." s)
      as (st & -> & E); [done|done|by split].
  - destruct (unsupported_runs "PositionedAppend" "PositionedAppend" s) as (st & -> & E); [done|done|by split].
  - exact (IH _ w_Sync s).
  - destruct (unsupported_runs "InvalidateCache not supported." "WritableFile::InvalidateCache not supported." s)
      as (st & -> & E); [done|done|by split].
  - unfold mbind, M_bind. destruct (fields this s) as [[f s']|]; [|done].
    destruct (strict_bytes_per_sync_ f); [exact (IH _ w_Sync s')|done].
  - unfold WritableFile_PrepareWrite, prepare_write, mbind, M_bind. destruct (fields this s) as [[f s']|]; [|done].
    destruct (_ =? 0); [done|]. destruct (_ <? _); [|done].
    match goal with |- context [w_Allocate ?o ?l] => pose proof (IH _ (w_Allocate o l) s') as H end.
    cbn [newer_call] in H. unfold same_run in H.
    destruct (dispatch _ _ _ n this ov _ _ s') as [[r s1]|], (dispatch _ _ _ n this ov' _ _ s') as [[r' s2]|]; try done.
    destruct H as [_ ->]. apply same_run_refl.
Qed.

(** The older and the newer interface of a writable file agree.  Of classes that
    override the same functions alike, also with the preallocation in between,
    every call has the same result and leaves the same state and fields, and where one
    of them has none neither has the other; of statuses the code is the same. *)
Theorem writable_interfaces_agree (this : Z) (ov : overrides WritableFile FSt) (ov' : overrides wf_call FSt)
    R (c : WritableFile R) s :
  (∀ n, length (init n) = n) → (∀ R (c : WritableFile R), ov' _ (newer_call c) = ov _ c) →
  same_run c (dispatch WritableFile FSt WritableFile_bodies 3 this ov _ c s)
    (writable init this ov' _ (newer_call c) s).
Proof. intros Hi Hov. by apply interfaces_agree. Qed.
End Wrapped.

(** [MultiRead] by the body of the base class, on a file whose reads do not change
    it: every request has the status and the result of a read of its own, requests
    past [num_reqs] are left alone, and the call succeeds also when reads fail. *)
Theorem env_default_reads {St : Type} (self : object RandomAccessFile St) (s : St)
    (rd : Z → Z → Status * Slice) (reqs : list ReadRequest) (num : nat) :
  (∀ offset n result scratch, self _ (rf_Read offset n result scratch) s = Some (rd offset n, s)) →
  (num ≤ length reqs)%nat →
  let answer req := let '(t, r) := rd (rr_offset req) (rr_len req) in set_read req t r in
  env_multi_read self reqs (Z.of_nat num) s = Some ((OK, (answer <$> take num reqs) ++ drop num reqs), s).
Proof.
  intros Hrd Hn answer.
  assert (∀ n l, (n ≤ length l)%nat →
    env_multi_read_loop self n l s = Some ((answer <$> take n l) ++ drop n l, s)) as Hloop.
  { intros n. induction n as [|n IH]; intros [|r l] Hl; simpl in *; [done..|lia|].
    unfold mbind, M_bind. rewrite Hrd. unfold answer at 1. destruct (rd _ _) as [t x].
    rewrite IH by lia. done. }
  unfold env_multi_read, mbind, M_bind. by rewrite Nat2Z.id, Hloop.
Qed.

(** ** Examples *)

Module FileExamples.
#[local] Instance toy_types : FsTypes :=
  {| IOOptions := unit; FileOptions := unit; FsDBOptions := unit; ImmutableDBOptions := unit |}.
#[local] Existing Instance concrete_impl.

Abbreviation toy_world := (list (Z * Z) * gmap Z WritableFields)%type.

(** A file that logs its allocations. *)
Definition toy_older : overrides WritableFile toy_world := λ R c,
  match c in WritableFile T return option (M toy_world T) with
  | w_Allocate o l => Some (λ s, Some (OK, (s.1 ++ [(o, l)], s.2)))
  | w_Append _ | w_Close | w_Flush | w_Sync => Some (ret OK)
  | w_GetFileSize => Some (ret 0)
  | _ => None
  end.
Definition toy_newer : overrides wf_call toy_world := λ R c,
  match c in wf_call T return option (M toy_world T) with
  | Allocate o l _ _ => Some (λ s, Some (OK, (s.1 ++ [(o, l)], s.2)))
  | Append _ _ _ | wf_Close _ _ | wf_Flush _ _ | wf_Sync _ _ => Some (ret OK)
  | wf_GetFileSize _ _ => Some (ret 0)
  | _ => None
  end.
Definition toy_world_start : toy_world := ([], {[7 := set_block_size 10 (WritableFile_new)]}).

Lemma writable_interfaces_agree_witness :
  let older := dispatch WritableFile toy_world WritableFile_bodies 3 7 toy_older _ (w_PrepareWrite 3 20) toy_world_start in
  let newer := writable (λ n, repeat x00 n) 7 toy_newer _ (PrepareWrite 3 20 tt 0) toy_world_start in
  same_run (w_PrepareWrite 3 20) older newer ∧ (λ r, r.2.1) <$> newer = Some [(0, 30)].
Proof.
  split; [|vm_compute; reflexivity].
  apply (writable_interfaces_agree (FT := toy_types) (λ n, repeat x00 n) tt 0 7 toy_older toy_newer _ (w_PrepareWrite 3 20)).
  - intros n. apply repeat_length.
  - intros R []; reflexivity.
Defined.

Lemma toy_older_class : base_class WritableFile toy_world WritableFile_bodies WritableFileWrapper toy_older.
Proof. split; [done|]. intros R [] ??; done. Qed.

#[local] Instance toy_logger : LoggerImpl (W := list (Z * Z)) := {| logger_outside := λ _ l, l |}.

Lemma wrapped_files_transparent_witness :
  match wrapped_file 2 (λ n, 7 + Z.of_nat n) toy_older _ (w_SetIOPriority 2) toy_world_start with
  | Some (_, s) => io_priority_ <$> s.2 !! 7 = Some 2
  | None => False
  end.
Proof.
  rewrite (proj1 (wrapped_files_transparent 2 (λ n, 7 + Z.of_nat n))).
  - vm_compute. reflexivity.
  - exact toy_older_class.
Defined.

Definition toy_random : object RandomAccessFile unit := λ R c,
  match c in RandomAccessFile T return M unit T with
  | rf_Read _ n _ _ => ret (OK, Slice_string (replicate (Z.to_nat n) x61))
  | _ => pure_virtual
  end.
Definition toy_read_request (n : Z) : ReadRequest := mkReadRequest 0 n 0 Slice_empty OK.

Lemma env_default_reads_witness :
  env_multi_read toy_random [toy_read_request 1; toy_read_request 2] 1 tt =
  Some ((OK, [set_read (toy_read_request 1) OK (Slice_string [x61]); toy_read_request 2]), tt).
Proof.
  apply (env_default_reads toy_random tt (λ _ n, (OK, Slice_string (replicate (Z.to_nat n) x61)))
    [toy_read_request 1; toy_read_request 2] 1).
  - reflexivity.
  - simpl. lia.
Defined.
End FileExamples.
