(* ===== verification/Mirror.v ===== *)
(** * Mirrored environments (libs/rocksdb/utilities/env_mirror.h)

    [EnvMirror] is an environment over two others: it makes every call that changes
    names in both, asserts that their statuses agree, and for reads that the
    results do; other calls are forwarded to the first, as [EnvWrapper] does.  A
    failed assertion is [None].  The state has those of the two environments and
    the locks the mirror has handed out. *)

From stdpp Require Import base list gmap strings sorting.
From Stdlib Require Import ZArith Lia.
From Stdlib.Strings Require Import Byte.
From S2P Require Import Prelude Slice Status Virtual FileSystem Env.

Open Scope Z_scope.

(** The pair of locks behind a [FileLockMirror], by its address. *)
Abbreviation lock_table := (gmap Z (Z * Z)).

(** The order of [std::string]s, for [std::sort]. *)
Definition string_le (a b : bytes) : Prop := lex_cmp a b ≤ 0.
#[export] Instance string_le_dec : RelDecision string_le := λ a b, decide (lex_cmp a b ≤ 0).
Definition sort_strings (l : list bytes) : list bytes := merge_sort string_le l.

Section Mirror.
Context `{ET : EnvTypes} `{SI : StatusImpl} {Sa Sb : Type}.

#[local] Abbreviation St := (Sa * Sb * lock_table)%type.

(** The two environments. *)
Context (a_ : object env_call Sa) (b_ : object env_call Sb).

(** What the header does not have: the functions that open mirrored files, the
    destructor of a directory of the second environment, and what the variables
    [asize], [bsize], [amtime], [bmtime], [al] and [bl], which are not initialised,
    contain. *)
Class MirrorImpl := {
  mirror_open : ∀ R, envnew_call R → M St R;
  destroy_directory : Z → M Sb unit;
  uninit : Z;
}.
Context `{MI : MirrorImpl}.

Definition on_a {R} (m : M Sa R) : M St R := λ '(sa, sb, l), '(r, sa) ← m sa; Some (r, (sa, sb, l)).
Definition on_b {R} (m : M Sb R) : M St R := λ '(sa, sb, l), '(r, sb) ← m sb; Some (r, (sa, sb, l)).
Definition assert_ (b : bool) : M St unit := if b then ret tt else pure_virtual.

(** ** The functions of EnvMirror *)

(** The functions that only give a status. *)
Definition mirror_status (c : env_call Status) : M St Status :=
  as_ ← on_a (a_ _ c);
  bs ← on_b (b_ _ c);
  _ ← assert_ (Status_eqb as_ bs);
  ret as_.

(** [br] is destroyed at the end. *)
Definition mirror_NewDirectory (name : bytes) (result : Z) : M St (Status * Z) :=
  '(as_, result) ← on_a (a_ _ (En (NewDirectory name result)));
  '(bs, br) ← on_b (b_ _ (En (NewDirectory name 0)));
  _ ← assert_ (Status_eqb as_ bs);
  _ ← (if br =? 0 then ret tt else on_b (destroy_directory br));
  ret (as_, result).

Definition mirror_GetChildren (dir : bytes) : M St (Status * list bytes) :=
  '(as_, ar) ← on_a (a_ _ (Em (GetChildren dir [])));
  '(bs, br) ← on_b (b_ _ (Em (GetChildren dir [])));
  _ ← assert_ (Status_eqb as_ bs);
  let ar := sort_strings ar in
  let br := sort_strings br in
  _ ← assert_ (negb (negb (ok as_) || negb (bool_decide (ar = br))));
  ret (as_, ar).

Definition mirror_GetFileSize (f : bytes) : M St (Status * Z) :=
  '(as_, asize) ← on_a (a_ _ (Em (GetFileSize f uninit)));
  '(bs, bsize) ← on_b (b_ _ (Em (GetFileSize f uninit)));
  _ ← assert_ (Status_eqb as_ bs);
  _ ← assert_ (negb (ok as_) || (asize =? bsize));
  ret (as_, asize).

Definition mirror_GetFileModificationTime (fname : bytes) : M St (Status * Z) :=
  '(as_, amtime) ← on_a (a_ _ (Em (GetFileModificationTime fname uninit)));
  '(bs, bmtime) ← on_b (b_ _ (Em (GetFileModificationTime fname uninit)));
  _ ← assert_ (Status_eqb as_ bs);
  _ ← assert_ (negb (ok as_) || (u64_sub amtime bmtime <? 10000) || (u64_sub bmtime amtime <? 10000));
  ret (as_, amtime).

Definition new_lock (al bl : Z) : M St Z := λ '(sa, sb, l),
  let p := fresh (dom l) in Some (p, (sa, sb, <[p := (al, bl)]> l)).
Definition read_lock (p : Z) : M St (Z * Z) := λ s, ml ← s.2 !! p; Some (ml, s).
Definition delete_lock (p : Z) : M St unit := λ '(sa, sb, l), Some (tt, (sa, sb, delete p l)).

Definition mirror_LockFile (f : bytes) (l : Z) : M St (Status * Z) :=
  '(as_, al) ← on_a (a_ _ (Em (LockFile f uninit)));
  '(bs, bl) ← on_b (b_ _ (Em (LockFile f uninit)));
  _ ← assert_ (Status_eqb as_ bs);
  if ok as_ then p ← new_lock al bl; ret (as_, p) else ret (as_, l).

Definition mirror_UnlockFile (l : Z) : M St Status :=
  ml ← read_lock l;
  as_ ← on_a (a_ _ (Em (UnlockFile ml.1)));
  bs ← on_b (b_ _ (Em (UnlockFile ml.2)));
  _ ← assert_ (Status_eqb as_ bs);
  _ ← delete_lock l;
  ret as_.

Definition mirror_new {R} (c : envnew_call R) : option (M St R) :=
  match c in envnew_call T return option (M St T) with
  | NewSequentialFile f r options => Some (mirror_open _ (NewSequentialFile f r options))
  | NewRandomAccessFile f r options => Some (mirror_open _ (NewRandomAccessFile f r options))
  | NewWritableFile f r options => Some (mirror_open _ (NewWritableFile f r options))
  | ReuseWritableFile fname old_fname r options => Some (mirror_open _ (ReuseWritableFile fname old_fname r options))
  | NewDirectory name result => Some (mirror_NewDirectory name result)
  | _ => None
  end.

Definition mirror_name {R} (c : envname_call R) : option (M St R) :=
  match c in envname_call T return option (M St T) with
  | FileExists f => Some (mirror_status (Em (FileExists f)))
  | GetChildren dir _ => Some (mirror_GetChildren dir)
  | DeleteFile f => Some (mirror_status (Em (DeleteFile f)))
  | CreateDir d => Some (mirror_status (Em (CreateDir d)))
  | CreateDirIfMissing d => Some (mirror_status (Em (CreateDirIfMissing d)))
  | DeleteDir d => Some (mirror_status (Em (DeleteDir d)))
  | GetFileSize f _ => Some (mirror_GetFileSize f)
  | GetFileModificationTime fname _ => Some (mirror_GetFileModificationTime fname)
  | RenameFile s t => Some (mirror_status (Em (RenameFile s t)))
  | LinkFile s t => Some (mirror_status (Em (LinkFile s t)))
  | LockFile f l => Some (mirror_LockFile f l)
  | UnlockFile l => Some (mirror_UnlockFile l)
  | _ => None
  end.

(** [EnvMirror], derived from [EnvWrapper] with the first environment as target. *)
Definition EnvMirror : overrides env_call St := λ R c,
  let own := match c in env_call T return option (M St T) with
    | En c => mirror_new c
    | Em c => mirror_name c
    | _ => None
    end in
  match own with
  | Some m => Some m
  | None => EnvWrapper (λ R c, on_a (a_ R c)) R c
  end.

Context `{EI : !EnvImpl (St := St)}.
Definition mirror (this : Z) : object env_call St := environment this EnvMirror.

(** ** What a call of the mirror does *)

(** The calls that are made in both environments, without those that open files. *)
Definition mirrored {R} (c : env_call R) : bool :=
  match c with
  | En (NewDirectory _ _)
  | Em (FileExists _) | Em (GetChildren _ _) | Em (DeleteFile _) | Em (CreateDir _) | Em (CreateDirIfMissing _)
  | Em (DeleteDir _) | Em (GetFileSize _ _) | Em (GetFileModificationTime _ _) | Em (RenameFile _ _)
  | Em (LinkFile _ _) | Em (LockFile _ _) | Em (UnlockFile _) => true
  | _ => false
  end.

(** The calls made in the two environments; a lock is that of the environment. *)
Definition backing (L : lock_table) {R} (c : env_call R) : option (env_call R * env_call R) :=
  match c in env_call T return option (env_call T * env_call T) with
  | En c =>
      match c in envnew_call T return option (env_call T * env_call T) with
      | NewDirectory name result => Some (En (NewDirectory name result), En (NewDirectory name 0))
      | c => Some (En c, En c)
      end
  | Em c =>
      match c in envname_call T return option (env_call T * env_call T) with
      | GetChildren dir _ => Some (Em (GetChildren dir []), Em (GetChildren dir []))
      | GetFileSize f _ => Some (Em (GetFileSize f uninit), Em (GetFileSize f uninit))
      | GetFileModificationTime f _ =>
          Some (Em (GetFileModificationTime f uninit), Em (GetFileModificationTime f uninit))
      | LockFile f _ => Some (Em (LockFile f uninit), Em (LockFile f uninit))
      | UnlockFile p => ml ← L !! p; Some (Em (UnlockFile ml.1), Em (UnlockFile ml.2))
      | c => Some (Em c, Em c)
      end
  | Et c => Some (Et c, Et c)
  | Eo c => Some (Eo c, Eo c)
  end.

(** The difference of two times in the wrap-around arithmetic of [uint64_t]. *)
Definition times_close (x y : Z) : Prop := (x - y) mod 2 ^ 64 < 10000 ∨ (y - x) mod 2 ^ 64 < 10000.

(** What the mirror requires of the two answers: the same code, and what was read
    is the same; a directory has to be readable. *)
Definition answers_agree {R} (c : env_call R) : R → R → Prop :=
  match c in env_call T return T → T → Prop with
  | En c =>
      match c in envnew_call T return T → T → Prop with
      | NewDirectory _ _ => λ ra rb, code_ ra.1 = code_ rb.1
      | _ => λ _ _, False
      end
  | Em c =>
      match c in envname_call T return T → T → Prop with
      | FileExists _ | DeleteFile _ | CreateDir _ | CreateDirIfMissing _ | DeleteDir _ | RenameFile _ _
      | LinkFile _ _ | UnlockFile _ => λ ra rb, code_ ra = code_ rb
      | GetChildren _ _ => λ ra rb, code_ ra.1 = code_ rb.1 ∧ ok ra.1 = true ∧ ra.2 ≡ₚ rb.2
      | GetFileSize _ _ => λ ra rb, code_ ra.1 = code_ rb.1 ∧ (ok ra.1 = true → ra.2 = rb.2)
      | GetFileModificationTime _ _ => λ ra rb, code_ ra.1 = code_ rb.1 ∧ (ok ra.1 = true → times_close ra.2 rb.2)
      | LockFile _ _ => λ ra rb, code_ ra.1 = code_ rb.1
      | _ => λ _ _, False
      end
  | _ => λ _ _, False
  end.

(** The locks after a call, the new one at the address [p]. *)
Definition locks_after (L : lock_table) (p : Z) {R} (c : env_call R) : R → R → lock_table :=
  match c in env_call T return T → T → lock_table with
  | Em c =>
      match c in envname_call T return T → T → lock_table with
      | LockFile _ _ => λ ra rb, if ok ra.1 then <[p := (ra.2, rb.2)]> L else L
      | UnlockFile l => λ _ _, delete l L
      | _ => λ _ _, L
      end
  | _ => λ _ _, L
  end.

(** The answer, given that of the first environment. *)
Definition answer (p : Z) {R} (c : env_call R) : R → R :=
  match c in env_call T return T → T with
  | Em c =>
      match c in envname_call T return T → T with
      | GetChildren _ _ => λ ra, (ra.1, sort_strings ra.2)
      | LockFile _ l => λ ra, (ra.1, if ok ra.1 then p else l)
      | _ => λ ra, ra
      end
  | _ => λ ra, ra
  end.

(** What is left of the answer of the second environment is destroyed. *)
Definition dispose {R} (c : env_call R) : R → M Sb unit :=
  match c in env_call T return T → M Sb unit with
  | En c =>
      match c in envnew_call T return T → M Sb unit with
      | NewDirectory _ _ => λ rb, if rb.2 =? 0 then ret tt else destroy_directory rb.2
      | _ => λ _, ret tt
      end
  | _ => λ _, ret tt
  end.

(** ** Sorted names *)

#[local] Instance string_le_trans : Transitive string_le.
Proof. intros x y z. apply lex_cmp_trans. Qed.
#[local] Instance string_le_antisymm : AntiSymm eq string_le.
Proof. intros x y H1 H2. unfold string_le in *. pose proof (lex_cmp_antisym x y). apply lex_cmp_eq. lia. Qed.
#[local] Instance string_le_total : Total string_le.
Proof. intros x y. unfold string_le. pose proof (lex_cmp_antisym x y). lia. Qed.

Lemma sort_strings_eq (l k : list bytes) : sort_strings l = sort_strings k ↔ l ≡ₚ k.
Proof.
  unfold sort_strings. split.
  - intros E. by rewrite <- (merge_sort_Permutation string_le l), E, merge_sort_Permutation.
  - intros E. apply (StronglySorted_unique string_le); [apply StronglySorted_merge_sort; apply _..|].
    by rewrite !merge_sort_Permutation.
Qed.

Lemma times_close_spec (x y : Z) : (u64_sub x y <? 10000) || (u64_sub y x <? 10000) = true ↔ times_close x y.
Proof. unfold times_close, u64_sub, wrap. rewrite orb_true_iff, !Z.ltb_lt. done. Qed.

(** ** The calls *)

Lemma assert_ok (b : bool) s : b = true → assert_ b s = Some (tt, s).
Proof. by intros ->. Qed.
Lemma assert_inv (b : bool) s r : assert_ b s = Some r → b = true ∧ r = (tt, s).
Proof. destruct b; [|done]. by intros [= <-]. Qed.

Lemma status_agree (x y : Status) : Status_eqb x y = true ↔ code_ x = code_ y.
Proof. unfold Status_eqb. apply bool_decide_eq_true. Qed.

(** The assertions as a test of the two answers. *)
Definition agree_test {R} (c : env_call R) : R → R → bool :=
  match c in env_call T return T → T → bool with
  | En c =>
      match c in envnew_call T return T → T → bool with
      | NewDirectory _ _ => λ ra rb, Status_eqb ra.1 rb.1
      | _ => λ _ _, false
      end
  | Em c =>
      match c in envname_call T return T → T → bool with
      | FileExists _ | DeleteFile _ | CreateDir _ | CreateDirIfMissing _ | DeleteDir _ | RenameFile _ _
      | LinkFile _ _ | UnlockFile _ => λ ra rb, Status_eqb ra rb
      | GetChildren _ _ => λ ra rb, Status_eqb ra.1 rb.1 &&
          negb (negb (ok ra.1) || negb (bool_decide (sort_strings ra.2 = sort_strings rb.2)))
      | GetFileSize _ _ => λ ra rb, Status_eqb ra.1 rb.1 && (negb (ok ra.1) || (ra.2 =? rb.2))
      | GetFileModificationTime _ _ => λ ra rb, Status_eqb ra.1 rb.1 &&
          (negb (ok ra.1) || (u64_sub ra.2 rb.2 <? 10000) || (u64_sub rb.2 ra.2 <? 10000))
      | LockFile _ _ => λ ra rb, Status_eqb ra.1 rb.1
      | _ => λ _ _, false
      end
  | _ => λ _ _, false
  end.

Lemma agree_test_spec {R} (c : env_call R) ra rb : agree_test c ra rb = true ↔ answers_agree c ra rb.
Proof.
  by_env_call c; simpl; try apply status_agree; try done.
  - rewrite andb_true_iff, status_agree. destruct (ok ra.1); simpl; [|naive_solver].
    rewrite negb_involutive, bool_decide_eq_true, sort_strings_eq. naive_solver.
  - rewrite andb_true_iff, status_agree. destruct (ok ra.1); simpl; [|naive_solver].
    rewrite Z.eqb_eq. naive_solver.
  - rewrite andb_true_iff, status_agree. destruct (ok ra.1); simpl; [|naive_solver].
    rewrite times_close_spec. naive_solver.
Qed.

#[local] Ltac split_pair r := match type of r with prod _ _ => destruct r | _ => idtac end.

Lemma mirror_eq (this : Z) {R} (c : env_call R) L sa sb : mirrored c = true →
  mirror this _ c (sa, sb, L) =
    '(ca, cb) ← backing L c;
    '(ra, sa') ← a_ _ ca sa;
    '(rb, sb') ← b_ _ cb sb;
    if agree_test c ra rb then
      '(_, sb2) ← dispose c rb sb';
      Some (answer (fresh (dom L)) c ra, (sa', sb2, locks_after L (fresh (dom L)) c ra rb))
    else None.
Proof.
  intros Hm. unfold mirror, environment. destruct c as [R c|R c|R c|R c]; [..|discriminate Hm|discriminate Hm].
  - destruct c; try discriminate Hm. cbn. unfold mirror_NewDirectory, mbind, M_bind, on_a, on_b. cbn.
    destruct (a_ _ _ sa) as [[[ra da] sa']|]; [cbn|done]. destruct (b_ _ _ sb) as [[[rb db] sb']|]; [cbn|done].
    destruct (Status_eqb ra rb); [cbn|done]. destruct (db =? 0); [done|]. cbn. by destruct (destroy_directory db sb') as [[]|].
  - destruct c; try discriminate Hm; cbn;
      unfold mirror_status, mirror_GetChildren, mirror_GetFileSize, mirror_GetFileModificationTime,
        mirror_LockFile, mirror_UnlockFile, read_lock, mbind, M_bind, on_a, on_b; cbn.
    all: try (destruct (L !! _) as [[al bl]|]; [cbn|done]).
    all: destruct (a_ _ _ sa) as [[ra sa']|]; [split_pair ra; cbn|done];
      destruct (b_ _ _ sb) as [[rb sb']|]; [split_pair rb; cbn|done];
      destruct (Status_eqb _ _); [cbn|done].
    all: try reflexivity.
    + by destruct (negb (negb (ok _) || _)).
    + by destruct (negb (ok _) || _).
    + by destruct (negb (ok _) || _ || _).
    + by destruct (ok _).
Qed.

(** A call on the mirror returns exactly if the call returns in both environments
    and their answers agree; the answer is then that of the first one, with the names
    of a directory sorted and a lock of the mirror instead of the lock, and both
    environments have done the call. *)
Theorem mirror_returns_iff_agree (this : Z) {R} (c : env_call R) L sa sb r s : mirrored c = true →
  mirror this _ c (sa, sb, L) = Some (r, s) ↔
  ∃ ca cb ra sa' rb sb' sb2, backing L c = Some (ca, cb) ∧
    a_ _ ca sa = Some (ra, sa') ∧ b_ _ cb sb = Some (rb, sb') ∧ answers_agree c ra rb ∧
    dispose c rb sb' = Some (tt, sb2) ∧
    r = answer (fresh (dom L)) c ra ∧ s = (sa', sb2, locks_after L (fresh (dom L)) c ra rb).
Proof.
  intros Hm. rewrite mirror_eq by done. split.
  - intros H. destruct (backing L c) as [[ca cb]|]; [cbn in H|done].
    destruct (a_ _ ca sa) as [[ra sa']|] eqn:Ea; [cbn in H|done].
    destruct (b_ _ cb sb) as [[rb sb']|] eqn:Eb; [cbn in H|done].
    destruct (agree_test c ra rb) eqn:Et; [cbn in H|done].
    destruct (dispose c rb sb') as [[[] sb2]|] eqn:Ed; [cbn in H|done]. injection H as <- <-.
    exists ca, cb, ra, sa', rb, sb', sb2. by rewrite agree_test_spec in Et.
  - intros (ca & cb & ra & sa' & rb & sb' & sb2 & -> & Ha & Hb & Hag & Hd & -> & ->). cbn.
    rewrite Ha. cbn. rewrite Hb. cbn. by rewrite (proj2 (agree_test_spec c ra rb) Hag), Hd.
Qed.

(** ** Clients *)

(** A client makes calls one after the other, each chosen from the answers so far. *)
Inductive client (A : Type) : Type :=
| Done (x : A) : client A
| Ask (R : Type) (c : env_call R) (k : R → client A) : client A.
#[global] Arguments Done {A}.
#[global] Arguments Ask {A R}.

Fixpoint run_client {A} (e : object env_call St) (cl : client A) : M St A :=
  match cl with
  | Done x => ret x
  | Ask c k => r ← e _ c; run_client e (k r)
  end.

(** The locks a client holds after an answer. *)
Definition held {R} (c : env_call R) : R → gset Z → gset Z :=
  match c in env_call T return T → gset Z → gset Z with
  | Em c =>
      match c in envname_call T return T → gset Z → gset Z with
      | LockFile _ _ => λ r D, if ok r.1 then {[r.2]} ∪ D else D
      | UnlockFile l => λ _ D, D ∖ {[l]}
      | _ => λ _ D, D
      end
  | _ => λ _ D, D
  end.
Definition unlocks {R} (c : env_call R) (l : Z) : Prop := match c with Em (UnlockFile l') => l = l' | _ => False end.

(** A client that makes mirrored calls and unlocks only what it holds. *)
Fixpoint polite {A} (D : gset Z) (cl : client A) : Prop :=
  match cl with
  | Done _ => True
  | Ask c k => mirrored c = true ∧ (∀ l, unlocks c l → l ∈ D) ∧ ∀ r, polite (held c r D) (k r)
  end.

(** Two environments in step, with the locks [L] held: every call returns in both,
    the answers agree, and they stay in step, also when the directory of the
    second one is destroyed. *)
Record in_step (Rel : lock_table → Sa → Sb → Prop) : Prop := {
  step_agrees : ∀ R (c ca cb : env_call R) L sa sb, Rel L sa sb → mirrored c = true →
    backing L c = Some (ca, cb) →
    ∃ ra sa' rb sb', a_ _ ca sa = Some (ra, sa') ∧ b_ _ cb sb = Some (rb, sb') ∧ answers_agree c ra rb ∧
      ∀ p, p ∉ dom L → Rel (locks_after L p c ra rb) sa' sb';
  step_destroy : ∀ d L sa sb, Rel L sa sb → ∃ sb', destroy_directory d sb = Some (tt, sb') ∧ Rel L sa sb';
}.

Lemma dom_locks_after L p {R} (c : env_call R) ra rb : dom (locks_after L p c ra rb) = held c (answer p c ra) (dom L).
Proof.
  by_env_call c; simpl; try done.
  - destruct (ok ra.1); [by rewrite dom_insert_L|done].
  - by rewrite dom_delete_L.
Qed.

Lemma backing_held L {R} (c : env_call R) : (∀ l, unlocks c l → l ∈ dom L) → is_Some (backing L c).
Proof.
  intros H. by_env_call c; try by eexists. simpl in *.
  destruct (proj1 (elem_of_dom L lock) (H _ eq_refl)) as [ml ->]. by eexists.
Qed.

Lemma dispose_in_step Rel {R} (c : env_call R) rb L sa sb : in_step Rel → Rel L sa sb →
  ∃ sb2, dispose c rb sb = Some (tt, sb2) ∧ Rel L sa sb2.
Proof.
  intros HR H. by_env_call c; simpl; try (by eexists).
  destruct (rb.2 =? 0); [by eexists|]. by apply (step_destroy _ HR).
Qed.


(** ** What is not mirrored *)

(** The calls [EnvMirror] overrides. *)
Definition mirror_overrides {R} (c : env_call R) : bool :=
  mirrored c ||
  match c with
  | En (NewSequentialFile _ _ _) | En (NewRandomAccessFile _ _ _) | En (NewWritableFile _ _ _)
  | En (ReuseWritableFile _ _ _ _) => true
  | _ => false
  end.

(** Every other call reaches only the first environment, changes of files like
    [Truncate] or [ReopenWritableFile] included; and a directory that cannot be
    listed fails an assertion, also when both environments say so. *)
Theorem mirror_one_sided (this : Z) :
  (∀ R (c : env_call R) sa sb L, mirror_overrides c = false → env_hidden c = false →
    mirror this _ c (sa, sb, L) = '(r, sa') ← a_ _ c sa; Some (r, (sa', sb, L))) ∧
  (∀ dir r sa sb L ra sa', a_ _ (Em (GetChildren dir [])) sa = Some (ra, sa') → ok ra.1 = false →
    mirror this _ (Em (GetChildren dir r)) (sa, sb, L) = None).
Proof.
  split.
  - intros R c sa sb L Ho Hh. by_env_call c; try discriminate Ho; try discriminate Hh; reflexivity.
  - intros dir r sa sb L ra sa' Ha Hok. rewrite mirror_eq by done. cbn. rewrite Ha. cbn.
    destruct (b_ _ _ sb) as [[rb sb']|]; [cbn|done]. rewrite Hok. simpl. by rewrite andb_false_r.
Qed.
End Mirror.

(** ** Two environments in memory *)

Module Examples.
#[local] Instance toy_env_types : EnvTypes :=
  {| EnvDBOptions := unit; EnvImmutableDBOptions := unit; ThreadStatus := unit |}.
#[local] Existing Instance concrete_impl.

#[local] Instance byte_countable : Countable byte := inj_countable Byte.to_N Byte.of_N Byte.of_to_N.

(** The files and directories with their size. *)
Abbreviation toy_files := (gmap bytes Z).

Definition toy_status (b : bool) : Status := if b then OK else NotFound_sub kNone.

Definition toy_names {R} (c : envname_call R) : M toy_files R :=
  match c in envname_call T return M toy_files T with
  | FileExists f => λ s, Some (toy_status (bool_decide (is_Some (s !! f))), s)
  | GetChildren _ _ => λ s, Some ((OK, (map_to_list s).*1), s)
  | DeleteFile f => λ s, Some (toy_status (bool_decide (is_Some (s !! f))), delete f s)
  | Truncate f n => λ s, Some (OK, <[f := n]> s)
  | CreateDir d => λ s, Some (OK, <[d := 0]> s)
  | CreateDirIfMissing d => λ s, Some (OK, <[d := 0]> s)
  | DeleteDir d => λ s, Some (OK, delete d s)
  | GetFileSize f _ => λ s, Some (match s !! f with Some n => (OK, n) | None => (NotFound_sub kNone, 0) end, s)
  | GetFileModificationTime _ _ => ret (OK, 0)
  | RenameFile f t => λ s, Some (OK, <[t := default 0 (s !! f)]> (delete f s))
  | LinkFile f t => λ s, Some (OK, <[t := default 0 (s !! f)]> s)
  | LockFile _ _ => ret (OK, 7)
  | UnlockFile l => ret (toy_status (l =? 7))
  | _ => pure_virtual
  end.
Definition toy_env : object env_call toy_files := λ R c,
  match c in env_call T return M toy_files T with
  | Em c => toy_names c
  | En c => match c in envnew_call T return M toy_files T with NewDirectory _ _ => ret (OK, 8) | _ => pure_virtual end
  | _ => pure_virtual
  end.

#[local] Instance toy_mirror_impl : MirrorImpl (Sa := toy_files) (Sb := toy_files) :=
  {| mirror_open := λ _ _, pure_virtual; destroy_directory := λ _, ret tt; uninit := 0 |}.
#[local] Instance toy_env_impl : EnvImpl (St := toy_files * toy_files * lock_table) :=
  {| env_outside := λ e, e; thread_status_updater_ := λ _, ret 0 |}.

Abbreviation toy_mirror := (mirror toy_env toy_env 1).

(** Both have the same files, and locks of the mirror stand for equal locks. *)
Definition same_files (L : lock_table) (sa sb : toy_files) : Prop :=
  sa = sb ∧ map_Forall (λ _ ml, ml = (7, 7)) L.

Lemma toy_in_step : in_step toy_env toy_env same_files.
Proof.
  split; [|by eexists].
  intros R c ca cb L sa sb [<- HL] Hm HB.
  by_env_call c; try discriminate Hm; cbn in HB; try (injection HB as <- <-);
    try (destruct (L !! lock) as [ml|] eqn:El; [|done]; injection HB as <- <-; rewrite (HL _ _ El)).
  all: cbn; eexists _, _, _, _; split; [reflexivity|]; split; [reflexivity|]; cbn; split;
    [try done|].
  all: try (split; [done|intros _; by left]).
  all: intros p Hp; split; try done.
  - intros q ml [[<- <-]|[??]]%lookup_insert_Some; [done|by eapply (HL q)].
  - by apply map_Forall_delete.
Qed.

Definition toy_client : client (list bytes) :=
  Ask (Em (CreateDir (lit "b"))) (λ _,
  Ask (Em (CreateDir (lit "a"))) (λ _,
  Ask (Em (LockFile (lit "LOCK") 0)) (λ r,
  Ask (Em (GetChildren (lit ".") [])) (λ names,
  if ok r.1 then Ask (Em (UnlockFile r.2)) (λ _, Done names.2) else Done names.2)))).


(** Truncating a file through the mirror changes only the first environment; reading
    its size afterwards fails the assertion of the mirror. *)
Theorem truncate_not_mirrored :
  run_client toy_mirror (Ask (Em (CreateDir (lit "f"))) (λ _, Ask (Em (Truncate (lit "f") 5)) (λ _,
    Ask (Em (GetFileSize (lit "f") 0)) Done))) (∅, ∅, ∅) = None.
Proof. vm_compute. reflexivity. Qed.

Lemma mirror_returns_iff_agree_witness :
  ∃ r s, toy_mirror _ (Em (GetChildren (lit ".") [])) ({[lit "x" := 1]}, {[lit "x" := 2]}, ∅) = Some (r, s) ∧
    r = (OK, [lit "x"]).
Proof.
  eexists _, _. split; [|reflexivity].
  apply (mirror_returns_iff_agree toy_env toy_env 1 (Em (GetChildren (lit ".") []))); [reflexivity|].
  eexists _, _, _, _, _, _, _. split; [reflexivity|]. split; [reflexivity|]. split; [reflexivity|].
  split; [split_and!; reflexivity|]. split; [reflexivity|]. split; vm_compute; reflexivity.
Defined.

Lemma mirror_one_sided_witness : toy_mirror _ (Em (Truncate (lit "f") 5)) (∅, ∅, ∅) = Some (OK, ({[lit "f" := 5]}, ∅, ∅)).
Proof. rewrite (proj1 (mirror_one_sided toy_env toy_env 1)); reflexivity. Defined.
End Examples.
