(* ===== verification/Wrappers.v ===== *)
(** * Caches, clocks and customizable objects (libs/rocksdb)

    The interfaces of advanced_cache.h, secondary_cache.h and system_clock.h with
    the bodies of their virtual functions and the wrappers that forward the calls, and
    from customizable.h how an object finds itself or an inner object by a name.
    Functions, objects and classes are as in Virtual.v; pointers are addresses, 0 is
    the null pointer. *)

From stdpp Require Import base list gmap strings.
From Stdlib Require Import ZArith Lia.
From Stdlib.Strings Require Import Byte.
From S2P Require Import Prelude Slice Status Virtual.

Open Scope Z_scope.

Definition SIZE_MAX : Z := 2 ^ 64 - 1.

(** ** The helper of a cache entry *)

Inductive CacheEntryRole :=
| kDataBlock | kFilterBlock | kFilterMetaBlock | kDeprecatedFilterBlock | kIndexBlock | kOtherBlock
| kWriteBuffer | kCompressionDictionaryBuildingBuffer | kFilterConstruction | kBlockBasedTableReader
| kFileMetadata | kBlobValue | kBlobCache | kMisc.
#[export] Instance CacheEntryRole_eq_dec : EqDecision CacheEntryRole.
Proof. solve_decision. Defined.

(** Callbacks are addresses of functions. *)
Record CacheItemHelper := mkHelper {
  del_cb : Z; size_cb : Z; saveto_cb : Z; create_cb : Z; role : CacheEntryRole; without_secondary_compat : Z;
}.
Definition IsSecondaryCacheCompatible (h : CacheItemHelper) : bool := negb (size_cb h =? 0).

(** The constructor at [this], with the helpers that exist; [None]: an assertion fails
    or the pointer is not to a helper. *)
Definition CacheItemHelper_new (heap : gmap Z CacheItemHelper) (this : Z) (role_ : CacheEntryRole)
    (del size saveto create without : Z) : option (gmap Z CacheItemHelper) :=
  let h := mkHelper del size saveto create role_ without in
  let heap := <[this := h]> heap in
  w ← heap !! without;
  if Bool.eqb (negb (size =? 0)) (negb (saveto =? 0)) && Bool.eqb (negb (size =? 0)) (negb (create =? 0)) &&
     bool_decide (role_ = role w) && (del =? del_cb w) && negb (IsSecondaryCacheCompatible w)
  then Some heap else None.

(** The constructor for helpers without a secondary cache. *)
Definition CacheItemHelper_basic (heap : gmap Z CacheItemHelper) (this : Z) (role_ : CacheEntryRole) (del : Z)
    : option (gmap Z CacheItemHelper) :=
  CacheItemHelper_new heap this role_ del 0 0 0 this.

(** ** Caches *)

Inductive CachePriority := PriorityHIGH | PriorityLOW | PriorityBOTTOM.
Inductive CacheTier := kVolatileTier | kVolatileCompressedTier | kNonVolatileBlockTier.

(** The members of [AsyncLookupHandle]. *)
Record AsyncLookupHandle := mkAsync {
  al_key : Slice; al_helper : Z; al_create_context : Z; al_priority : CachePriority; al_stats : Z;
  result_handle : Z; pending_handle : Z; pending_cache : Z; found_dummy_entry : bool; kept_in_sec_cache : bool;
}.
Definition AsyncLookupHandle_new (key : Slice) (helper create_context : Z) (priority : CachePriority) (stats : Z)
    : AsyncLookupHandle := mkAsync key helper create_context priority stats 0 0 0 false false.

Section Cache.
Context {St : Type} `{SI : StatusImpl}.

(** A callback on an entry: key, object, charge and helper. *)
#[local] Abbreviation entry_callback := (Slice → Z → Z → Z → M St unit).

(** [handle] is the pointer to the handle, [None] if it is null. *)
Inductive cache_call : Type → Type :=
| c_Name : cache_call bytes
| c_Insert (key : Slice) (obj helper charge : Z) (handle : option Z) (priority : CachePriority)
    (compressed : Slice) (type : Z) : cache_call (Status * option Z)
| c_CreateStandalone (key : Slice) (obj helper charge : Z) (allow_uncharged : bool) : cache_call Z
| c_Lookup (key : Slice) (helper create_context : Z) (priority : CachePriority) (stats : Z) : cache_call Z
| c_Ref (handle : Z) : cache_call bool
| c_Release (handle : Z) (erase_if_last_ref : bool) : cache_call bool
| c_Value (handle : Z) : cache_call Z
| c_Erase (key : Slice) : cache_call unit
| c_NewId : cache_call Z
| c_SetCapacity (capacity : Z) : cache_call unit
| c_SetStrictCapacityLimit (strict_capacity_limit : bool) : cache_call unit
| c_HasStrictCapacityLimit : cache_call bool
| c_GetCapacity : cache_call Z
| c_GetUsage : cache_call Z
| c_GetOccupancyCount : cache_call Z
| c_GetTableAddressCount : cache_call Z
| c_GetUsage_handle (handle : Z) : cache_call Z
| c_GetPinnedUsage : cache_call Z
| c_GetCharge (handle : Z) : cache_call Z
| c_GetCacheItemHelper (handle : Z) : cache_call Z
| c_GetSecondaryCacheCapacity (size : Z) : cache_call (Status * Z)
| c_GetSecondaryCachePinnedUsage (size : Z) : cache_call (Status * Z)
| c_DisownData : cache_call unit
| c_ApplyToAllEntries (callback : entry_callback) (average_entries_per_lock : Z) : cache_call unit
| c_ApplyToHandle (cache handle : Z) (callback : entry_callback) : cache_call unit
| c_EraseUnRefEntries : cache_call unit
| c_GetPrintableOptions : cache_call bytes
| c_ReportProblems (info_log : Z) : cache_call unit
| c_GetHashSeed : cache_call Z
| c_Release_useful (handle : Z) (useful erase_if_last_ref : bool) : cache_call bool
| c_StartAsyncLookup (async_handle : AsyncLookupHandle) : cache_call AsyncLookupHandle
| c_WaitAll (async_handles : list AsyncLookupHandle) (count : Z) : cache_call (list AsyncLookupHandle).

#[local] Abbreviation cache := (object cache_call St).

(** The bodies that are only declared. *)
Class CacheImpl := { cache_outside : cache → cache }.
Context `{CI : CacheImpl}.

Definition Cache_bodies (this : Z) (self : cache) : cache := λ R c,
  match c in cache_call T return M St T with
  | c_GetOccupancyCount => ret SIZE_MAX
  | c_GetTableAddressCount => ret 0
  | c_GetSecondaryCacheCapacity size => ret (NotSupported_sub kNone, size)
  | c_GetSecondaryCachePinnedUsage size => ret (NotSupported_sub kNone, size)
  | c_DisownData => ret tt
  | c_GetPrintableOptions => ret []
  | c_ReportProblems _ => ret tt
  | c_GetHashSeed => ret 0
  | c_Release_useful handle _ erase_if_last_ref => self _ (c_Release handle erase_if_last_ref)
  | c_StartAsyncLookup async_handle => cache_outside self _ (c_StartAsyncLookup async_handle)
  | c_WaitAll async_handles count => cache_outside self _ (c_WaitAll async_handles count)
  | _ => pure_virtual
  end.

(** [BasicLookup], which is not virtual. *)
Definition BasicLookup (self : cache) (key : Slice) (stats : Z) : M St Z := self _ (c_Lookup key 0 0 PriorityLOW stats).

(** [CacheWrapper]; [target_of] is [target_.get()] of the wrapper at an address, and
    [None] is inherited. *)
Context (target_of : Z → option Z).

Definition CacheWrapper (target_ : cache) : overrides cache_call St := λ R c,
  match c in cache_call T return option (M St T) with
  | c_Insert key value helper charge handle priority compressed type =>
      Some (target_ _ (c_Insert key value helper charge handle priority compressed type))
  | c_CreateStandalone key obj helper charge allow_uncharged =>
      Some (target_ _ (c_CreateStandalone key obj helper charge allow_uncharged))
  | c_Lookup key helper create_context priority stats =>
      Some (target_ _ (c_Lookup key helper create_context priority stats))
  | c_Ref handle => Some (target_ _ (c_Ref handle))
  | c_Release handle erase_if_last_ref => Some (target_ _ (c_Release handle erase_if_last_ref))
  | c_Value handle => Some (target_ _ (c_Value handle))
  | c_Erase key => Some (target_ _ (c_Erase key))
  | c_NewId => Some (target_ _ c_NewId)
  | c_SetCapacity capacity => Some (target_ _ (c_SetCapacity capacity))
  | c_SetStrictCapacityLimit b => Some (target_ _ (c_SetStrictCapacityLimit b))
  | c_HasStrictCapacityLimit => Some (target_ _ c_HasStrictCapacityLimit)
  | c_GetOccupancyCount => Some (target_ _ c_GetOccupancyCount)
  | c_GetTableAddressCount => Some (target_ _ c_GetTableAddressCount)
  | c_GetCapacity => Some (target_ _ c_GetCapacity)
  | c_GetUsage => Some (target_ _ c_GetUsage)
  | c_GetUsage_handle handle => Some (target_ _ (c_GetUsage_handle handle))
  | c_GetPinnedUsage => Some (target_ _ c_GetPinnedUsage)
  | c_GetCharge handle => Some (target_ _ (c_GetCharge handle))
  | c_GetCacheItemHelper handle => Some (target_ _ (c_GetCacheItemHelper handle))
  | c_ApplyToAllEntries callback opts => Some (target_ _ (c_ApplyToAllEntries callback opts))
  | c_ApplyToHandle cache handle callback =>
      Some (t ← M_opt (target_of cache); target_ _ (c_ApplyToHandle t handle callback))
  | c_EraseUnRefEntries => Some (target_ _ c_EraseUnRefEntries)
  | c_StartAsyncLookup async_handle => Some (target_ _ (c_StartAsyncLookup async_handle))
  | c_WaitAll async_handles count => Some (target_ _ (c_WaitAll async_handles count))
  | c_GetHashSeed => Some (target_ _ c_GetHashSeed)
  | c_ReportProblems info_log => Some (target_ _ (c_ReportProblems info_log))
  | c_Name | c_GetSecondaryCacheCapacity _ | c_GetSecondaryCachePinnedUsage _ | c_DisownData
  | c_GetPrintableOptions | c_Release_useful _ _ _ => None
  end.

(** *** Wrapped caches *)

(** What the wrapper does not forward, and what it changes. *)
Definition cache_hidden {R} (c : cache_call R) : bool :=
  match c with
  | c_Name | c_GetSecondaryCacheCapacity _ | c_GetSecondaryCachePinnedUsage _ | c_DisownData
  | c_GetPrintableOptions | c_ApplyToHandle _ _ _ => true
  | _ => false
  end.
Definition cache_overload {R} (c : cache_call R) : bool := match c with c_Release_useful _ _ _ => true | _ => false end.
Definition cache_has_body {R} (c : cache_call R) : bool :=
  match c with
  | c_GetOccupancyCount | c_GetTableAddressCount | c_GetSecondaryCacheCapacity _ | c_GetSecondaryCachePinnedUsage _
  | c_DisownData | c_GetPrintableOptions | c_ReportProblems _ | c_GetHashSeed | c_Release_useful _ _ _ => true
  | _ => false
  end.
Definition cache_depth {R} (c : cache_call R) : nat := if cache_overload c then 2 else 1.

Lemma cache_depth_bound R (c : cache_call R) : (1 ≤ cache_depth c ≤ 2)%nat.
Proof. unfold cache_depth. destruct c; simpl; lia. Qed.

Lemma cache_overload_body R (c : cache_call R) : cache_overload c = true → cache_has_body c = true.
Proof. by destruct c. Qed.

Lemma cache_forwards (t : cache) R (c : cache_call R) : cache_hidden c = false →
  CacheWrapper t R c = if cache_overload c then None else Some (t R c).
Proof. by destruct c. Qed.

Lemma cache_bodies_agree (a b : Z) (self self' : cache) R (c : cache_call R) s :
  cache_has_body c = true → a = b ∨ cache_overload c = true →
  (∀ R' (c' : cache_call R') s', (cache_depth c' < cache_depth c)%nat →
    cache_hidden c' = false ∨ cache_overload c = false ∧ cache_has_body c' = true → self _ c' s' = self' _ c' s') →
  Cache_bodies a self R c s = Cache_bodies b self' R c s.
Proof. intros Hb _ Hs. destruct c; try discriminate Hb; try reflexivity. apply Hs; [unfold cache_depth; simpl; lia|by left]. Qed.

#[export] Instance cache_wrapper : Transparent cache_call St Cache_bodies CacheWrapper := {|
  overload := @cache_overload; hidden := @cache_hidden; has_body := @cache_has_body; depth := @cache_depth;
  max_depth := 2; depth_bound := cache_depth_bound; overload_has_body := cache_overload_body;
  wrapper_forwards := cache_forwards; bodies_agree := cache_bodies_agree;
|}.

Definition cache_of (this : Z) (ov : overrides cache_call St) : cache := dispatch cache_call St Cache_bodies 2 this ov.
Definition wrapped_cache (k : nat) (address : nat → Z) (ov : overrides cache_call St) : cache :=
  layers cache_call St Cache_bodies CacheWrapper k address ov.

(** Any number of [CacheWrapper]s answer every call but those in [cache_hidden] as the
    cache itself, when its class does not override the [Release] with three
    arguments; and applying a callback to a handle of the outermost wrapper applies
    it in the cache, at the cache's address, when every wrapper has the next
    one as its target. *)
Theorem wrapped_cache_transparent (ov : overrides cache_call St) (address : nat → Z) (k : nat) :
  base_class cache_call St Cache_bodies CacheWrapper ov →
  (∀ n, (n < k)%nat → target_of (address (S n)) = Some (address n)) →
  (∀ R (c : cache_call R) s, cache_hidden c = false →
    wrapped_cache k address ov _ c s = cache_of (address O) ov _ c s) ∧
  (∀ handle callback s, wrapped_cache k address ov _ (c_ApplyToHandle (address k) handle callback) s =
    cache_of (address O) ov _ (c_ApplyToHandle (address O) handle callback) s).
Proof.
  intros Hov Ht. split; [intros R c s Hc; by apply layers_transparent|].
  intros handle callback s. induction k as [|k IH]; [done|].
  unfold wrapped_cache. cbn [layers max_depth cache_wrapper dispatch CacheWrapper]. unfold mbind, M_bind, M_opt.
  rewrite Ht by lia. cbn. apply IH. intros n Hn. apply Ht. lia.
Qed.

(** What a wrapped cache does not tell its target: data is never disowned, the
    capacity of a secondary cache is not supported whatever the target has, and
    a [Release] that says whether the entry was useful releases without saying so,
    also when the target's class has its own body for it. *)
Theorem wrapped_cache_hides (ov : overrides cache_call St) (address : nat → Z) (k : nat) size handle useful erase s :
  let c := wrapped_cache (S k) address ov in
  c _ c_DisownData s = Some (tt, s) ∧
  c _ (c_GetSecondaryCacheCapacity size) s = Some ((NotSupported_sub kNone, size), s) ∧
  c _ (c_Release_useful handle useful erase) s = wrapped_cache k address ov _ (c_Release handle erase) s.
Proof. done. Qed.
End Cache.

(** Helpers that are constructed have all three callbacks for a secondary cache or
    none, and point to a helper with the same role and deleter that has none; a
    helper without such callbacks can always be constructed and points to itself. *)
Theorem helpers_constructed (heap heap' : gmap Z CacheItemHelper) this role_ del size saveto create without :
  CacheItemHelper_new heap this role_ del size saveto create without = Some heap' →
  (∃ h w, heap' !! this = Some h ∧ heap' !! without_secondary_compat h = Some w ∧
    IsSecondaryCacheCompatible h = negb (saveto_cb h =? 0) ∧ IsSecondaryCacheCompatible h = negb (create_cb h =? 0) ∧
    role w = role h ∧ del_cb w = del_cb h ∧ IsSecondaryCacheCompatible w = false) ∧
  (∀ p, p ≠ this → heap' !! p = heap !! p) ∧
  (∀ hp q r d, ∃ hp', CacheItemHelper_basic hp q r d = Some hp' ∧ hp' !! q = Some (mkHelper d 0 0 0 r q)).
Proof.
  intros H. split_and!.
  - unfold CacheItemHelper_new in H. destruct (_ !! without) as [w|] eqn:Ew; [cbn in H|done].
    destruct (_ && _) eqn:E in H; [|done]. injection H as <-.
    repeat (apply andb_true_iff in E as [E ?]). apply Bool.eqb_prop in E.
    exists (mkHelper del size saveto create role_ without), w. simpl.
    rewrite lookup_insert_eq, Ew. unfold IsSecondaryCacheCompatible in *. simpl.
    repeat match goal with
    | H : Bool.eqb _ _ = true |- _ => apply Bool.eqb_prop in H
    | H : bool_decide _ = true |- _ => apply bool_decide_eq_true in H
    | H : (_ =? _) = true |- _ => apply Z.eqb_eq in H
    | H : negb _ = true |- _ => apply negb_true_iff in H
    end. by split_and!.
  - intros p Hp. unfold CacheItemHelper_new in H. destruct (_ !! without); [cbn in H|done].
    destruct (_ && _) in H; [|done]. injection H as <-. by rewrite lookup_insert_ne.
  - intros hp q r d. unfold CacheItemHelper_basic, CacheItemHelper_new. rewrite lookup_insert_eq. cbn.
    rewrite bool_decide_true by done. rewrite Z.eqb_refl. simpl. eexists. split; [done|]. by rewrite lookup_insert_eq.
Qed.

(** ** Secondary caches and clocks *)

Section Others.
Context {St : Type} `{SI : StatusImpl}.

Inductive secondary_call : Type → Type :=
| s_Insert (key : Slice) (obj helper : Z) (force_insert : bool) : secondary_call Status
| s_InsertSaved (key saved : Slice) (type : Z) (source : CacheTier) : secondary_call Status
| s_Lookup (key : Slice) (helper create_context : Z) (wait advise_erase : bool) (stats : Z)
    (kept_in_sec_cache : bool) : secondary_call (Z * bool)
| s_SupportForceErase : secondary_call bool
| s_Erase (key : Slice) : secondary_call unit
| s_WaitAll (handles : list Z) : secondary_call unit
| s_SetCapacity (capacity : Z) : secondary_call Status
| s_GetCapacity (capacity : Z) : secondary_call (Status * Z)
| s_Deflate (decrease : Z) : secondary_call Status
| s_Inflate (increase : Z) : secondary_call Status.

Definition SecondaryCache_bodies (this : Z) (self : object secondary_call St) : object secondary_call St := λ R c,
  match c in secondary_call T return M St T with
  | s_SetCapacity _ => ret (NotSupported_sub kNone)
  | s_GetCapacity capacity => ret (NotSupported_sub kNone, capacity)
  | s_Deflate _ => ret (NotSupported_sub kNone)
  | s_Inflate _ => ret (NotSupported_sub kNone)
  | _ => pure_virtual
  end.

Definition SecondaryCacheWrapper (target_ : object secondary_call St) : overrides secondary_call St := λ R c,
  match c in secondary_call T return option (M St T) with
  | s_Insert key obj helper force_insert => Some (target_ _ (s_Insert key obj helper force_insert))
  | s_InsertSaved key saved type source => Some (target_ _ (s_InsertSaved key saved type source))
  | s_Lookup key helper create_context wait advise_erase stats kept =>
      Some (target_ _ (s_Lookup key helper create_context wait advise_erase stats kept))
  | s_SupportForceErase => Some (target_ _ s_SupportForceErase)
  | s_Erase key => Some (target_ _ (s_Erase key))
  | s_WaitAll handles => Some (target_ _ (s_WaitAll handles))
  | s_SetCapacity capacity => Some (target_ _ (s_SetCapacity capacity))
  | s_GetCapacity capacity => Some (target_ _ (s_GetCapacity capacity))
  | s_Deflate decrease => Some (target_ _ (s_Deflate decrease))
  | s_Inflate increase => Some (target_ _ (s_Inflate increase))
  end.

Inductive clock_call : Type → Type :=
| k_NowMicros : clock_call Z
| k_NowNanos : clock_call Z
| k_CPUMicros : clock_call Z
| k_CPUNanos : clock_call Z
| k_SleepForMicroseconds (micros : Z) : clock_call unit
| k_TimedWait (cv deadline : Z) : clock_call bool
| k_GetCurrentTime (unix_time : Z) : clock_call (Status * Z)
| k_TimeToString (time : Z) : clock_call bytes.

(** [TimedWait] is only declared. *)
Class ClockImpl := { clock_outside : object clock_call St → object clock_call St }.
Context `{KI : ClockImpl}.

Definition SystemClock_bodies (this : Z) (self : object clock_call St) : object clock_call St := λ R c,
  match c in clock_call T return M St T with
  | k_NowNanos => t ← self _ k_NowMicros; ret (u64_mul t 1000)
  | k_CPUMicros => ret 0
  | k_CPUNanos => t ← self _ k_CPUMicros; ret (u64_mul t 1000)
  | k_TimedWait cv deadline => clock_outside self _ (k_TimedWait cv deadline)
  | _ => pure_virtual
  end.

Definition SystemClockWrapper (target_ : object clock_call St) : overrides clock_call St := λ R c,
  match c in clock_call T return option (M St T) with
  | k_NowMicros => Some (target_ _ k_NowMicros)
  | k_NowNanos => Some (target_ _ k_NowNanos)
  | k_CPUMicros => Some (target_ _ k_CPUMicros)
  | k_CPUNanos => Some (target_ _ k_CPUNanos)
  | k_SleepForMicroseconds micros => Some (target_ _ (k_SleepForMicroseconds micros))
  | k_TimedWait cv deadline => Some (target_ _ (k_TimedWait cv deadline))
  | k_GetCurrentTime unix_time => Some (target_ _ (k_GetCurrentTime unix_time))
  | k_TimeToString time => Some (target_ _ (k_TimeToString time))
  end.

Definition secondary_has_body {R} (c : secondary_call R) : bool :=
  match c with s_SetCapacity _ | s_GetCapacity _ | s_Deflate _ | s_Inflate _ => true | _ => false end.
Definition clock_has_body {R} (c : clock_call R) : bool :=
  match c with k_NowNanos | k_CPUMicros | k_CPUNanos => true | _ => false end.
Definition clock_depth {R} (c : clock_call R) : nat := match c with k_NowNanos | k_CPUNanos => 2 | _ => 1 end.

Lemma secondary_bodies_agree (a b : Z) (self self' : object secondary_call St) R (c : secondary_call R) s :
  secondary_has_body c = true → a = b ∨ false = true →
  (∀ R' (c' : secondary_call R') s', (1 < 1)%nat →
    false = false ∨ false = false ∧ secondary_has_body c' = true → self _ c' s' = self' _ c' s') →
  SecondaryCache_bodies a self R c s = SecondaryCache_bodies b self' R c s.
Proof. intros Hb _ _. by destruct c. Qed.

#[export] Instance secondary_wrapper :
    Transparent secondary_call St SecondaryCache_bodies SecondaryCacheWrapper.
Proof.
  refine {| overload := λ _ _, false; hidden := λ _ _, false; has_body := @secondary_has_body; depth := λ _ _, 1%nat;
    max_depth := 1; depth_bound := _; overload_has_body := λ _ _ H, False_ind _ (diff_false_true H);
    wrapper_forwards := _; bodies_agree := secondary_bodies_agree |}.
  - intros R c. lia.
  - intros t R c _. by destruct c.
Defined.

Lemma clock_bodies_agree (a b : Z) (self self' : object clock_call St) R (c : clock_call R) s :
  clock_has_body c = true → a = b ∨ false = true →
  (∀ R' (c' : clock_call R') s', (clock_depth c' < clock_depth c)%nat →
    false = false ∨ false = false ∧ clock_has_body c' = true → self _ c' s' = self' _ c' s') →
  SystemClock_bodies a self R c s = SystemClock_bodies b self' R c s.
Proof.
  intros Hb _ Hs. destruct c; try discriminate Hb; try reflexivity; cbn; unfold mbind, M_bind;
    (rewrite Hs; [done|simpl; lia|by left]).
Qed.

#[export] Instance clock_wrapper : Transparent clock_call St SystemClock_bodies SystemClockWrapper.
Proof.
  refine {| overload := λ _ _, false; hidden := λ _ _, false; has_body := @clock_has_body; depth := @clock_depth;
    max_depth := 2; depth_bound := _; overload_has_body := λ _ _ H, False_ind _ (diff_false_true H);
    wrapper_forwards := _; bodies_agree := clock_bodies_agree |}.
  - intros R c. destruct c; simpl; lia.
  - intros t R c _. by destruct c.
Defined.

(** Wrapped secondary caches and clocks answer every call as what they wrap, however
    many wrappers there are. *)
Theorem wrapped_clocks_transparent (k : nat) (address : nat → Z) :
  (∀ ov R (c : secondary_call R) s, base_class secondary_call St SecondaryCache_bodies SecondaryCacheWrapper ov →
    layers secondary_call St SecondaryCache_bodies SecondaryCacheWrapper k address ov _ c s =
    dispatch secondary_call St SecondaryCache_bodies 1 (address O) ov _ c s) ∧
  (∀ ov R (c : clock_call R) s, base_class clock_call St SystemClock_bodies SystemClockWrapper ov →
    layers clock_call St SystemClock_bodies SystemClockWrapper k address ov _ c s =
    dispatch clock_call St SystemClock_bodies 2 (address O) ov _ c s).
Proof. split; intros ov R c s Hov; by apply layers_transparent. Qed.
End Others.

(** ** Customizable objects *)

(** What an object of a class derived from [Customizable] supplies: its name and
    nick name, the pointers to its registered options ([Configurable::GetOptionsPtr],
    null if there is none), and its own [IsInstanceOf] if it has one. *)
Record Customizable := mkCustomizable {
  cust_Name : bytes; cust_NickName : option bytes; cust_options : bytes → Z;
  cust_IsInstanceOf : option (bytes → bool);
}.
(** The nick name of a class that does not override it. *)
Definition no_nick_name : option bytes := Some [].

Definition Customizable_IsInstanceOf (o : Customizable) (name : bytes) : bool :=
  if bool_decide (name = []) then false
  else if bool_decide (name = cust_Name o) then true
  else match cust_NickName o with Some nickname => bool_decide (name = nickname) | None => false end.

(** The virtual call. *)
Definition IsInstanceOf (o : Customizable) (name : bytes) : bool :=
  match cust_IsInstanceOf o with Some f => f name | None => Customizable_IsInstanceOf o name end.

(** [GetId]. *)
Definition Customizable_GetId (o : Customizable) : bytes := cust_Name o.

(** An object and the objects [Inner] leads to, at their addresses. *)
Abbreviation chain := (list (Z * Customizable)).

Fixpoint GetOptionsPtr (name : bytes) (objects : chain) : Z :=
  match objects with
  | [] => 0
  | (_, o) :: inner =>
      let ptr := cust_options o name in
      if negb (ptr =? 0) then ptr else GetOptionsPtr name inner
  end.

(** [CheckedCast<T>] with the name [T::kClassName()]. *)
Fixpoint CheckedCast (kClassName : bytes) (objects : chain) : Z :=
  match objects with
  | [] => 0
  | (this, o) :: inner => if IsInstanceOf o kClassName then this else CheckedCast kClassName inner
  end.

(** [EncryptedFileSystem::IsInstanceOf], over that of [FileSystemWrapper]. *)
Definition Encrypted_IsInstanceOf (base : bytes → bool) (name : bytes) : bool :=
  if bool_decide (name = lit "EncryptedFileSystem") then true else base name.

(** Casting finds the outermost object of a class, in the object or what it wraps, and
    null exactly if none is of the class; options are found the same way.  Wrapping
    objects of other classes around changes neither, as long as they have no options
    of the name; and no name but a real one makes an object an instance, also though
    the nick name is empty by default. *)
Theorem customizable_finds (name : bytes) (outer objects : chain) (this : Z) (o : Customizable) :
  Forall (λ p, p.1 ≠ 0) objects →
  (CheckedCast name objects = 0 ↔ Forall (λ p, IsInstanceOf p.2 name = false) objects) ∧
  (IsInstanceOf o name = true → Forall (λ p, IsInstanceOf p.2 name = false) outer →
    CheckedCast name (outer ++ (this, o) :: objects) = this) ∧
  (GetOptionsPtr name objects = 0 ↔ Forall (λ p, cust_options p.2 name = 0) objects) ∧
  (cust_options o name ≠ 0 → Forall (λ p, cust_options p.2 name = 0) outer →
    GetOptionsPtr name (outer ++ (this, o) :: objects) = cust_options o name) ∧
  Customizable_IsInstanceOf o [] = false.
Proof.
  intros Hn. split_and!.
  - induction Hn as [|[a x] l Ha _ IH]; simpl; [by split|]. simpl in Ha. rewrite Forall_cons. simpl.
    destruct (IsInstanceOf x name); [naive_solver|]. rewrite IH. naive_solver.
  - intros Ho Hl. induction Hl as [|[a x] l Hx _ IH]; simpl; [by rewrite Ho|]. simpl in Hx. by rewrite Hx.
  - clear Hn. induction objects as [|[a x] l IH]; simpl; [by split|]. rewrite Forall_cons. simpl.
    destruct (Z.eqb_spec (cust_options x name) 0) as [->|H]; simpl; [rewrite IH; naive_solver|naive_solver].
  - intros Ho Hl. induction Hl as [|[a x] l Hx _ IH]; simpl; [by rewrite (proj2 (Z.eqb_neq _ 0) Ho)|].
    simpl in Hx. by rewrite Hx.
  - done.
Qed.

(** ** Examples *)

Module WrapperExamples.
#[local] Existing Instance concrete_impl.

(** A cache that counts the releases and keeps the last address a callback was applied
    at. *)
Definition toy_cache : overrides (cache_call (St := Z * Z)) (Z * Z) := λ R c,
  match c in cache_call T return option (M (Z * Z) T) with
  | c_Release _ _ => Some (λ s, Some (true, (s.1 + 1, s.2)))
  | c_ApplyToHandle cache _ _ => Some (λ s, Some (tt, (s.1, cache)))
  | c => if cache_has_body c then None else Some pure_virtual
  end.
#[local] Instance toy_cache_impl : CacheImpl (St := Z * Z) := {| cache_outside := λ c, c |}.

Lemma toy_cache_class t : base_class cache_call (Z * Z) Cache_bodies (CacheWrapper t) toy_cache.
Proof. split; intros R []; done. Qed.

Lemma wrapped_cache_transparent_witness :
  let c := wrapped_cache (λ a, Some (a - 1)) 2 (λ n, 10 + Z.of_nat n) toy_cache in
  c _ (c_Release_useful 5 true false) (0, 0) = Some (true, (1, 0)) ∧
  c _ (c_ApplyToHandle 12 5 (λ _ _ _ _, ret tt)) (0, 0) = Some (tt, (0, 10)).
Proof.
  destruct (wrapped_cache_transparent (λ a, Some (a - 1)) toy_cache (λ n, 10 + Z.of_nat n) 2) as [H1 H2].
  - exact (toy_cache_class _).
  - intros n Hn. f_equal. lia.
  - split.
    + rewrite H1 by reflexivity. reflexivity.
    + exact (H2 5 (λ _ _ _ _, ret tt) (0, 0)).
Defined.

Definition toy_object (n : bytes) : Customizable := mkCustomizable n no_nick_name (λ _, 0) None.

Lemma customizable_finds_witness :
  CheckedCast (lit "Base") [(1, toy_object (lit "Timed")); (2, toy_object (lit "Base"))] = 2.
Proof.
  apply (customizable_finds (lit "Base") [(1, toy_object (lit "Timed"))] [] 2 (toy_object (lit "Base"))).
  - constructor.
  - reflexivity.
  - repeat constructor.
Defined.

Lemma helpers_constructed_witness :
  ∃ heap, CacheItemHelper_new {[8 := mkHelper 3 0 0 0 kDataBlock 8]} 9 kDataBlock 3 4 5 6 8 = Some heap ∧
    heap !! 8 = Some (mkHelper 3 0 0 0 kDataBlock 8).
Proof.
  destruct (CacheItemHelper_new {[8 := mkHelper 3 0 0 0 kDataBlock 8]} 9 kDataBlock 3 4 5 6 8) as [heap|] eqn:E.
  - exists heap. split; [reflexivity|]. destruct (helpers_constructed _ _ _ _ _ _ _ _ _ E) as (_ & H & _).
    rewrite H; [reflexivity|discriminate].
  - vm_compute in E. discriminate E.
Defined.
End WrapperExamples.
