(* ===== verification/Txn.v ===== *)
(** * Transactions of RocksDB (libs/rocksdb/utilities/transaction.h)

    The interface [Transaction] with the bodies the header gives its virtual
    functions: reads into pinnable slices by way of reads into strings, the reads of
    several keys, and the fields every transaction has.  Functions, objects and
    classes are as in Virtual.v; pointers are addresses, arrays are lists, [None] of
    a pointer to a string or a slice is the null pointer. *)

From stdpp Require Import base list gmap strings.
From Stdlib Require Import ZArith Lia.
From Stdlib.Strings Require Import Byte.
From S2P Require Import Prelude Slice Status Pinnable Virtual.

Open Scope Z_scope.

Definition kMaxTxnTimestamp : Z := 2 ^ 64 - 1.

(** ** Endpoints of ranges *)

Record Endpoint := mkEndpoint { endpoint_slice : Slice; inf_suffix : bool }.
Definition Endpoint_slice (slice_arg : Slice) (inf_suffix_arg : bool) : Endpoint := mkEndpoint slice_arg inf_suffix_arg.
Definition Endpoint_cstr (s : option bytes) (inf_suffix_arg : bool) : Endpoint := mkEndpoint (Slice_cstr s) inf_suffix_arg.
Definition Endpoint_data (s : option bytes) (n : Z) (inf_suffix_arg : bool) : Endpoint :=
  mkEndpoint (Slice_data s n) inf_suffix_arg.
Definition Endpoint_new : Endpoint := mkEndpoint Slice_empty false.

(** ** The fields of a transaction *)

Inductive TransactionState :=
| STARTED | AWAITING_PREPARE | PREPARED | AWAITING_COMMIT | COMMITTED | AWAITING_ROLLBACK | ROLLEDBACK | LOCKS_STOLEN.

Record TxnFields := mkTxn { log_number_ : Z; txn_name_ : bytes; txn_state_ : TransactionState; id_ : Z }.
Definition Transaction_new : TxnFields := mkTxn 0 [] STARTED 0.
(** The constructor from a database does not initialise the number and the state. *)
Definition Transaction_db (log_number : Z) (state : TransactionState) : TxnFields := mkTxn log_number [] state 0.

Definition set_log_number (n : Z) (f : TxnFields) : TxnFields := mkTxn n (txn_name_ f) (txn_state_ f) (id_ f).
Definition set_txn_state (st : TransactionState) (f : TxnFields) : TxnFields :=
  mkTxn (log_number_ f) (txn_name_ f) st (id_ f).
Definition set_txn_id (n : Z) (f : TxnFields) : TxnFields := mkTxn (log_number_ f) (txn_name_ f) (txn_state_ f) n.

(** [Env::IOActivity]. *)
Inductive IOActivity :=
| kFlush | kCompaction | kDBOpen | kGet | kMultiGet | kDBIterator | kVerifyDBChecksum | kVerifyFileChecksums
| kGetEntity | kMultiGetEntity | kGetFileChecksumsFromCurrentManifest | kUnknownActivity.
#[export] Instance IOActivity_eq_dec : EqDecision IOActivity.
Proof. solve_decision. Defined.

(** Structs that are handed on; of the read options the bodies use the activity. *)
Class TxnTypes := { TxnReadOptions : Type; io_activity : TxnReadOptions → IOActivity; TxnWriteOptions : Type }.

Section Txn.
Context `{TT : TxnTypes} {W : Type} `{SI : StatusImpl}.

(** The world outside and the fields of the transactions, by their address. *)
#[local] Abbreviation St := (W * gmap Z TxnFields)%type.

Definition txn_fields (this : Z) : M St TxnFields := λ s, f ← s.2 !! this; Some (f, s).
Definition modify_txn (this : Z) (g : TxnFields → TxnFields) : M St unit :=
  λ s, f ← s.2 !! this; Some (tt, (s.1, <[this := g f]> s.2)).

(** ** The virtual functions *)

(** The suffix [_pin] marks the overloads with a pinnable slice, [_d] those for the
    default column family, [_parts] those with slice parts. *)
Inductive txread_call : Type → Type :=
| t_Get (options : TxnReadOptions) (column_family : Z) (key : Slice) (value : bytes) : txread_call (Status * bytes)
| t_Get_pin (options : TxnReadOptions) (column_family : Z) (key : Slice) (pinnable_val : PinnableSlice) :
    txread_call (Status * PinnableSlice)
| t_Get_d (options : TxnReadOptions) (key : Slice) (value : bytes) : txread_call (Status * bytes)
| t_Get_pin_d (options : TxnReadOptions) (key : Slice) (pinnable_val : PinnableSlice) :
    txread_call (Status * PinnableSlice)
| t_GetEntity (options : TxnReadOptions) (column_family : Z) (key : Slice) (columns : PinnableWideColumns) :
    txread_call (Status * PinnableWideColumns)
| t_MultiGet_vector (options : TxnReadOptions) (column_family : list Z) (keys : list Slice) (values : list bytes) :
    txread_call (list Status * list bytes)
| t_MultiGet_vector_d (options : TxnReadOptions) (keys : list Slice) (values : list bytes) :
    txread_call (list Status * list bytes)
| t_MultiGet (options : TxnReadOptions) (column_family num_keys : Z) (keys : list Slice)
    (values : list PinnableSlice) (statuses : list Status) (sorted_input : bool) :
    txread_call (list PinnableSlice * list Status)
| t_MultiGetEntity (options : TxnReadOptions) (column_family num_keys : Z) (keys : list Slice)
    (results : list PinnableWideColumns) (statuses : list Status) (sorted_input : bool) :
    txread_call (list PinnableWideColumns * list Status)
| t_GetForUpdate (options : TxnReadOptions) (column_family : Z) (key : Slice) (value : option bytes)
    (exclusive do_validate : bool) : txread_call (Status * option bytes)
| t_GetForUpdate_pin (options : TxnReadOptions) (column_family : Z) (key : Slice)
    (pinnable_val : option PinnableSlice) (exclusive do_validate : bool) :
    txread_call (Status * option PinnableSlice)
| t_GetRangeLock (column_family : Z) (first last : Endpoint) : txread_call Status
| t_GetForUpdate_d (options : TxnReadOptions) (key : Slice) (value : option bytes) (exclusive do_validate : bool) :
    txread_call (Status * option bytes)
| t_GetForUpdate_pin_d (options : TxnReadOptions) (key : Slice) (pinnable_val : option PinnableSlice)
    (exclusive do_validate : bool) : txread_call (Status * option PinnableSlice)
| t_GetEntityForUpdate (options : TxnReadOptions) (column_family : Z) (key : Slice) (columns : PinnableWideColumns)
    (exclusive do_validate : bool) : txread_call (Status * PinnableWideColumns)
| t_MultiGetForUpdate (options : TxnReadOptions) (column_family : list Z) (keys : list Slice) (values : list bytes) :
    txread_call (list Status * list bytes)
| t_MultiGetForUpdate_d (options : TxnReadOptions) (keys : list Slice) (values : list bytes) :
    txread_call (list Status * list bytes)
| t_GetIterator (options : TxnReadOptions) : txread_call Z
| t_GetIterator_cf (options : TxnReadOptions) (column_family : Z) : txread_call Z
| t_GetCoalescingIterator (options : TxnReadOptions) (column_families : list Z) : txread_call Z
| t_GetAttributeGroupIterator (options : TxnReadOptions) (column_families : list Z) : txread_call Z
| t_GetImpl (options : TxnReadOptions) (column_family : Z) (key : Slice) (value : bytes) :
    txread_call (Status * bytes)
| t_GetImpl_pin (options : TxnReadOptions) (column_family : Z) (key : Slice) (pinnable_val : PinnableSlice) :
    txread_call (Status * PinnableSlice).

Inductive txwrite_call : Type → Type :=
| t_Put (column_family : Z) (key value : Slice) (assume_tracked : bool) : txwrite_call Status
| t_Put_d (key value : Slice) : txwrite_call Status
| t_Put_parts (column_family : Z) (key value : SliceParts) (assume_tracked : bool) : txwrite_call Status
| t_Put_parts_d (key value : SliceParts) : txwrite_call Status
| t_PutEntity (column_family : Z) (key : Slice) (columns : WideColumns) (assume_tracked : bool) : txwrite_call Status
| t_Merge (column_family : Z) (key value : Slice) (assume_tracked : bool) : txwrite_call Status
| t_Merge_d (key value : Slice) : txwrite_call Status
| t_Delete (column_family : Z) (key : Slice) (assume_tracked : bool) : txwrite_call Status
| t_Delete_d (key : Slice) : txwrite_call Status
| t_Delete_parts (column_family : Z) (key : SliceParts) (assume_tracked : bool) : txwrite_call Status
| t_Delete_parts_d (key : SliceParts) : txwrite_call Status
| t_SingleDelete (column_family : Z) (key : Slice) (assume_tracked : bool) : txwrite_call Status
| t_SingleDelete_d (key : Slice) : txwrite_call Status
| t_SingleDelete_parts (column_family : Z) (key : SliceParts) (assume_tracked : bool) : txwrite_call Status
| t_SingleDelete_parts_d (key : SliceParts) : txwrite_call Status
| t_PutUntracked (column_family : Z) (key value : Slice) : txwrite_call Status
| t_PutUntracked_d (key value : Slice) : txwrite_call Status
| t_PutUntracked_parts (column_family : Z) (key value : SliceParts) : txwrite_call Status
| t_PutUntracked_parts_d (key value : SliceParts) : txwrite_call Status
| t_PutEntityUntracked (column_family : Z) (key : Slice) (columns : WideColumns) : txwrite_call Status
| t_MergeUntracked (column_family : Z) (key value : Slice) : txwrite_call Status
| t_MergeUntracked_d (key value : Slice) : txwrite_call Status
| t_DeleteUntracked (column_family : Z) (key : Slice) : txwrite_call Status
| t_DeleteUntracked_d (key : Slice) : txwrite_call Status
| t_DeleteUntracked_parts (column_family : Z) (key : SliceParts) : txwrite_call Status
| t_DeleteUntracked_parts_d (key : SliceParts) : txwrite_call Status
| t_SingleDeleteUntracked (column_family : Z) (key : Slice) : txwrite_call Status
| t_SingleDeleteUntracked_d (key : Slice) : txwrite_call Status
| t_CollapseKey (options : TxnReadOptions) (key : Slice) (column_family : Z) : txwrite_call Status
| t_PutLogData (blob : Slice) : txwrite_call unit
| t_RebuildFromWriteBatch (src_batch : Z) : txwrite_call Status.

Inductive txctl_call : Type → Type :=
| t_SetSnapshot : txctl_call unit
| t_SetSnapshotOnNextOperation (notifier : Z) : txctl_call unit
| t_GetSnapshot : txctl_call Z
| t_GetTimestampedSnapshot : txctl_call Z
| t_ClearSnapshot : txctl_call unit
| t_Prepare : txctl_call Status
| t_Commit : txctl_call Status
| t_Rollback : txctl_call Status
| t_SetSavePoint : txctl_call unit
| t_RollbackToSavePoint : txctl_call Status
| t_PopSavePoint : txctl_call Status
| t_DisableIndexing : txctl_call unit
| t_EnableIndexing : txctl_call unit
| t_GetNumKeys : txctl_call Z
| t_GetNumPuts : txctl_call Z
| t_GetNumPutEntities : txctl_call Z
| t_GetNumDeletes : txctl_call Z
| t_GetNumMerges : txctl_call Z
| t_GetElapsedTime : txctl_call Z
| t_GetWriteBatch : txctl_call Z
| t_SetLockTimeout (timeout : Z) : txctl_call unit
| t_GetWriteOptions : txctl_call Z
| t_SetWriteOptions (write_options : TxnWriteOptions) : txctl_call unit
| t_UndoGetForUpdate (column_family : Z) (key : Slice) : txctl_call unit
| t_UndoGetForUpdate_d (key : Slice) : txctl_call unit
| t_GetCommitTimeWriteBatch : txctl_call Z
| t_SetLogNumber (log : Z) : txctl_call unit
| t_GetLogNumber : txctl_call Z
| t_SetName (name : bytes) : txctl_call Status
| t_GetName : txctl_call bytes
| t_GetID : txctl_call Z
| t_IsDeadlockDetect : txctl_call bool
| t_GetWaitingTxns (column_family_id : Z) (key : bytes) : txctl_call (list Z)
| t_SetReadTimestampForValidation (ts : Z) : txctl_call Status
| t_SetCommitTimestamp (ts : Z) : txctl_call Status
| t_GetCommitTimestamp : txctl_call Z
| t_SetId (id : Z) : txctl_call unit
| t_GetLastLogNumber : txctl_call Z.

Inductive txn_call : Type → Type :=
| Xr {R} (c : txread_call R) : txn_call R
| Xw {R} (c : txwrite_call R) : txn_call R
| Xc {R} (c : txctl_call R) : txn_call R.

#[local] Abbreviation txn := (object txn_call St).

(** [Status::NotSupported("...")]. *)
Definition txn_not_supported (s : string) : Status :=
  NotSupported (Slice_cstr (Some (lit s ++ [x00]))) Slice_empty.

(** ** Reading into pinnable slices *)

(** The string of the slice is read into, [read] gives its new contents, and then
    the slice refers to it. *)
Definition read_self (pinnable_val : PinnableSlice) (read : bytes → M St (Status * bytes))
    : M St (Status * PinnableSlice) :=
  '(s, value) ← read (GetSelf pinnable_val);
  p ← M_opt (PinSelf (mkPinnable (base pinnable_val) (cleanable pinnable_val) value (pinned_ pinnable_val)));
  ret (s, p).

(** [GetForUpdate] into a slice: without one nothing is read. *)
Definition read_self_for_update (pinnable_val : option PinnableSlice)
    (read : option bytes → M St (Status * option bytes)) : M St (Status * option PinnableSlice) :=
  match pinnable_val with
  | None => '(s, _) ← read None; ret (s, None)
  | Some p =>
      '(s, p) ← read_self p (λ b, '(s, v) ← read (Some b); ret (s, default b v));
      ret (s, Some p)
  end.

(** The loop of [MultiGet] that reads; [None] is an access past an array. *)
Fixpoint multi_get_loop (self : txn) (options : TxnReadOptions) (column_family : Z) (num_keys : nat)
    (keys : list Slice) (values : list PinnableSlice) (statuses : list Status)
    : M St (list PinnableSlice * list Status) :=
  match num_keys, keys, values, statuses with
  | O, _, _, _ => ret (values, statuses)
  | S n, key :: keys', v :: values', _ :: statuses' =>
      '(s, v) ← self _ (Xr (t_GetImpl_pin options column_family key v));
      '(vs, ss) ← multi_get_loop self options column_family n keys' values' statuses';
      ret (v :: vs, s :: ss)
  | _, _, _, _ => pure_virtual
  end.

(** The loop that refuses: a status that is OK is replaced. *)
Fixpoint refuse_loop (s : Status) (num_keys : nat) (statuses : list Status) : option (list Status) :=
  match num_keys, statuses with
  | O, _ => Some statuses
  | S n, st :: statuses' => l ← refuse_loop s n statuses'; Some ((if ok st then s else st) :: l)
  | S _, [] => None
  end.

Definition wrong_activity : Status :=
  InvalidArgument (Slice_cstr (Some (lit ("Can only call MultiGet with `ReadOptions::io_activity` is " +:+
    "`Env::IOActivity::kUnknown` or `Env::IOActivity::kMultiGet`")%string ++ [x00]))) Slice_empty.

Definition multi_get (self : txn) (options : TxnReadOptions) (column_family num_keys : Z) (keys : list Slice)
    (values : list PinnableSlice) (statuses : list Status) : M St (list PinnableSlice * list Status) :=
  if bool_decide (io_activity options ≠ kUnknownActivity) && bool_decide (io_activity options ≠ kMultiGet) then
    l ← M_opt (refuse_loop wrong_activity (Z.to_nat num_keys) statuses); ret (values, l)
  else multi_get_loop self options column_family (Z.to_nat num_keys) keys values statuses.

(** ** The bodies *)

Definition txread_bodies (self : txn) {R} (c : txread_call R) : M St R :=
  match c in txread_call T return M St T with
  | t_Get_pin options column_family key pinnable_val =>
      read_self pinnable_val (λ b, self _ (Xr (t_Get options column_family key b)))
  | t_Get_pin_d options key pinnable_val => read_self pinnable_val (λ b, self _ (Xr (t_Get_d options key b)))
  | t_MultiGet options column_family num_keys keys values statuses _ =>
      multi_get self options column_family num_keys keys values statuses
  | t_GetForUpdate_pin options column_family key pinnable_val exclusive do_validate =>
      read_self_for_update pinnable_val
        (λ v, self _ (Xr (t_GetForUpdate options column_family key v exclusive do_validate)))
  | t_GetRangeLock _ _ _ => ret (NotSupported_sub kNone)
  | t_GetForUpdate_pin_d options key pinnable_val exclusive do_validate =>
      read_self_for_update pinnable_val (λ v, self _ (Xr (t_GetForUpdate_d options key v exclusive do_validate)))
  | t_GetImpl _ _ _ value => ret (txn_not_supported "Not implemented", value)
  | t_GetImpl_pin options column_family key pinnable_val =>
      read_self pinnable_val (λ b, self _ (Xr (t_GetImpl options column_family key b)))
  | _ => pure_virtual
  end.

Definition txwrite_bodies {R} (c : txwrite_call R) : M St R :=
  match c in txwrite_call T return M St T with
  | t_CollapseKey _ _ _ => ret (txn_not_supported "collpase not supported")
  | _ => pure_virtual
  end.

Definition txctl_bodies (this : Z) {R} (c : txctl_call R) : M St R :=
  match c in txctl_call T return M St T with
  | t_SetLogNumber log => modify_txn this (set_log_number log)
  | t_GetLogNumber => f ← txn_fields this; ret (log_number_ f)
  | t_GetName => f ← txn_fields this; ret (txn_name_ f)
  | t_GetID => ret 0
  | t_IsDeadlockDetect => ret false
  | t_GetWaitingTxns _ _ => pure_virtual (* assert(false) *)
  | t_SetReadTimestampForValidation _ => ret (txn_not_supported "timestamp not supported")
  | t_SetCommitTimestamp _ => ret (txn_not_supported "timestamp not supported")
  | t_GetCommitTimestamp => ret kMaxTxnTimestamp
  | t_SetId id =>
      f ← txn_fields this;
      if id_ f =? 0 then modify_txn this (set_txn_id id) else pure_virtual (* assert *)
  | t_GetLastLogNumber => f ← txn_fields this; ret (log_number_ f)
  | _ => pure_virtual
  end.

Definition txn_bodies (this : Z) (self : txn) : txn := λ R c,
  match c in txn_call T return M St T with
  | Xr c => txread_bodies self c
  | Xw c => txwrite_bodies c
  | Xc c => txctl_bodies this c
  end.

(** [GetState], [SetState] and [GetId] are not virtual. *)
Definition GetState (this : Z) : M St TransactionState := f ← txn_fields this; ret (txn_state_ f).
Definition SetState (this : Z) (state : TransactionState) : M St unit := modify_txn this (set_txn_state state).
Definition GetId (this : Z) : M St Z := f ← txn_fields this; ret (id_ f).

(** A transaction of the class [ov]. *)
Definition transaction (this : Z) (ov : overrides txn_call St) : txn := dispatch txn_call St txn_bodies 3 this ov.

(** ** Theorems *)

(** A slice that refers to its own string. *)
Definition holds_value (p : PinnableSlice) (value : bytes) : Prop :=
  buf p = value ∧ base p = Slice_string value ∧ pinned_ p = false.

Lemma read_self_runs p read s st value s' : pinned_ p = false → read (buf p) s = Some ((st, value), s') →
  ∃ p', read_self p read s = Some ((st, p'), s') ∧ holds_value p' value ∧ cleanable p' = cleanable p.
Proof.
  intros Hp Hr. unfold read_self, mbind, M_bind, GetSelf. rewrite Hr. unfold PinSelf, M_opt. simpl. rewrite Hp. simpl.
  eexists. split; [done|]. by split_and!.
Qed.

(** Reading into a pinnable slice, by the bodies of the base class: from a slice that
    is not pinned the status and the effect are those of reading into a string that
    starts with the slice's own contents, and the slice then refers to that string;
    with a slice that is pinned the assertion fails.  This is so for [Get] with and
    without a column family and for [GetImpl], and for [GetForUpdate] when a slice is
    given; without one nothing is read into. *)
Theorem pinnable_reads (this : Z) (ov : overrides txn_call St) options cf key p excl valid s st value s' :
  (∀ R (c : txread_call R), match c with
     | t_Get_pin _ _ _ _ | t_Get_pin_d _ _ _ | t_GetImpl_pin _ _ _ _ | t_GetForUpdate_pin _ _ _ _ _ _ => ov _ (Xr c) = None
     | _ => True end) →
  let txn := transaction this ov in
  let string_txn := dispatch txn_call St txn_bodies 2 this ov in
  (pinned_ p = false →
    (string_txn _ (Xr (t_Get options cf key (buf p))) s = Some ((st, value), s') →
     ∃ p', txn _ (Xr (t_Get_pin options cf key p)) s = Some ((st, p'), s') ∧ holds_value p' value) ∧
    (string_txn _ (Xr (t_Get_d options key (buf p))) s = Some ((st, value), s') →
     ∃ p', txn _ (Xr (t_Get_pin_d options key p)) s = Some ((st, p'), s') ∧ holds_value p' value) ∧
    (string_txn _ (Xr (t_GetImpl options cf key (buf p))) s = Some ((st, value), s') →
     ∃ p', txn _ (Xr (t_GetImpl_pin options cf key p)) s = Some ((st, p'), s') ∧ holds_value p' value) ∧
    (string_txn _ (Xr (t_GetForUpdate options cf key (Some (buf p)) excl valid)) s = Some ((st, Some value), s') →
     ∃ p', txn _ (Xr (t_GetForUpdate_pin options cf key (Some p) excl valid)) s = Some ((st, Some p'), s') ∧
       holds_value p' value)) ∧
  (pinned_ p = true → txn _ (Xr (t_Get_pin options cf key p)) s = None) ∧
  (string_txn _ (Xr (t_GetForUpdate options cf key None excl valid)) s = Some ((st, None), s') →
   txn _ (Xr (t_GetForUpdate_pin options cf key None excl valid)) s = Some ((st, None), s')).
Proof.
  intros Hov txn string_txn.
  assert (∀ R (c : txread_call R), match c with
     | t_Get_pin _ _ _ _ | t_Get_pin_d _ _ _ | t_GetImpl_pin _ _ _ _ | t_GetForUpdate_pin _ _ _ _ _ _ => True
     | _ => False end → txn _ (Xr c) = txread_bodies string_txn c) as Hbody.
  { intros R c Hc. unfold txn, transaction. cbn [dispatch]. specialize (Hov R c). destruct c; try done; by rewrite Hov. }
  split_and!.
  - intros Hp. rewrite !Hbody by done. cbn [txread_bodies].
    split_and!; intros Hr.
    + destruct (read_self_runs p (λ b, string_txn _ (Xr (t_Get options cf key b))) s st value s' Hp Hr) as (p' & ? & ? & _).
      by exists p'.
    + destruct (read_self_runs p (λ b, string_txn _ (Xr (t_Get_d options key b))) s st value s' Hp Hr) as (p' & ? & ? & _).
      by exists p'.
    + destruct (read_self_runs p (λ b, string_txn _ (Xr (t_GetImpl options cf key b))) s st value s' Hp Hr)
        as (p' & ? & ? & _). by exists p'.
    + unfold read_self_for_update.
      destruct (read_self_runs p (λ b, '(s, v) ← string_txn _ (Xr (t_GetForUpdate options cf key (Some b) excl valid));
        ret (s, default b v)) s st value s' Hp) as (p' & E & ? & _).
      { unfold mbind, M_bind. by rewrite Hr. }
      exists p'. split; [|done]. unfold mbind at 1, M_bind at 1. by rewrite E.
  - intros Hp. rewrite Hbody by done. cbn [txread_bodies]. unfold read_self, mbind, M_bind.
    destruct (string_txn _ _ s) as [[[st' v] s1]|]; [|done]. unfold M_opt, PinSelf. simpl. by rewrite Hp.
  - intros Hr. rewrite Hbody by done. cbn [txread_bodies]. unfold read_self_for_update, mbind, M_bind. by rewrite Hr.
Qed.

(** *** Reading several keys *)

Lemma refuse_loop_spec s n statuses : (n ≤ length statuses)%nat →
  refuse_loop s n statuses = Some (((λ st, if ok st then s else st) <$> take n statuses) ++ drop n statuses).
Proof.
  revert statuses. induction n as [|n IH]; intros [|st statuses] Hn; simpl in *; [done..|lia|].
  by rewrite IH by lia.
Qed.

Lemma multi_get_loop_spec (self : txn) options cf (rd : Slice → Status * bytes) s keys values statuses :
  (∀ key p, pinned_ p = false → self _ (Xr (t_GetImpl_pin options cf key p)) s =
     Some ((let '(st, v) := rd key in (st, mkPinnable (Slice_string v) (cleanable p) v false)), s)) →
  Forall (λ p, pinned_ p = false) values → length keys = length values → length keys = length statuses →
  ∃ vs, multi_get_loop self options cf (length keys) keys values statuses s = Some ((vs, fst ∘ rd <$> keys), s) ∧
    Forall2 (λ key p, holds_value p (rd key).2) keys vs.
Proof.
  intros Hrd. revert values statuses. induction keys as [|key keys IH]; intros [|v values] [|st statuses] Hp Hv Hs;
    try discriminate Hv; try discriminate Hs; [by exists []|]. simpl. apply Forall_cons in Hp as [Hp1 Hp].
  unfold mbind, M_bind. rewrite Hrd by done. unfold compose at 1. destruct (rd key) as [t x] eqn:E. simpl.
  destruct (IH values statuses) as (vs & -> & Hvs); [done|by injection Hv|by injection Hs|].
  eexists. split; [reflexivity|]. constructor; [|done]. rewrite E. by split_and!.
Qed.

(** [MultiGet] on a transaction whose class overrides the [GetImpl] with a string by a
    read that does not change the state.  With an activity other than the unknown one
    and that of [MultiGet] nothing is read, the values stay as they were, and a status
    that was OK becomes an invalid argument while an error stays; otherwise every key
    has the status of its read, and every value refers to a string of its own with
    what was read. *)
Theorem multi_get_spec (this : Z) (ov : overrides txn_call St) options cf (rd : Slice → Status * bytes)
    keys values statuses sorted s :
  (∀ o c k p, ov _ (Xr (t_GetImpl_pin o c k p)) = None) →
  (∀ o c n k v st b, ov _ (Xr (t_MultiGet o c n k v st b)) = None) →
  (∀ key b, ov _ (Xr (t_GetImpl options cf key b)) = Some (λ s, Some (rd key, s))) →
  Forall (λ p, pinned_ p = false) values → length keys = length values → length keys = length statuses →
  let result := transaction this ov _
    (Xr (t_MultiGet options cf (Z.of_nat (length keys)) keys values statuses sorted)) s in
  if bool_decide (io_activity options = kUnknownActivity ∨ io_activity options = kMultiGet)
  then ∃ vs, result = Some ((vs, fst ∘ rd <$> keys), s) ∧ Forall2 (λ key p, holds_value p (rd key).2) keys vs
  else result = Some ((values, (λ st, if ok st then wrong_activity else st) <$> statuses), s).
Proof.
  intros Hpin Hmulti Himpl Hp Hv Hs result. unfold result, transaction. cbn [dispatch]. rewrite Hmulti.
  cbn [txn_bodies txread_bodies]. unfold multi_get. rewrite Nat2Z.id.
  case_bool_decide as H.
  - replace (_ && _) with false by (destruct H as [-> | ->]; done).
    apply multi_get_loop_spec; [|done..]. intros key p Hk. rewrite Hpin. cbn [txn_bodies txread_bodies].
    unfold read_self, mbind, M_bind. rewrite Himpl. destruct (rd key) as [st v]. unfold M_opt, PinSelf. simpl.
    by rewrite Hk.
  - apply Decidable.not_or in H as [H1 H2]. rewrite !bool_decide_true by done. simpl. unfold mbind, M_bind, M_opt.
    rewrite refuse_loop_spec by lia. simpl.
    rewrite firstn_all2 by lia. rewrite drop_ge by lia. by rewrite app_nil_r.
Qed.

(** The identity of a transaction is set once: from a new transaction it is 0, setting
    it succeeds and is read back, and setting it again fails an assertion once it
    is not 0. *)
Theorem txn_id_set_once (this : Z) (ov : overrides txn_call St) (w : W) m id id' :
  (∀ i, ov _ (Xc (t_SetId i)) = None) →
  let s := (w, <[this := Transaction_new]> m) in
  GetId this s = Some (0, s) ∧
  ∃ s', transaction this ov _ (Xc (t_SetId id)) s = Some (tt, s') ∧ GetId this s' = Some (id, s') ∧
    GetState this s' = Some (STARTED, s') ∧
    (id ≠ 0 → transaction this ov _ (Xc (t_SetId id')) s' = None).
Proof.
  intros Hov s. unfold GetId, GetState, s. split.
  - unfold mbind, M_bind, txn_fields. cbn. by rewrite lookup_insert_eq.
  - unfold transaction. cbn [dispatch]. rewrite !Hov. cbn [txn_bodies txctl_bodies].
    unfold mbind, M_bind, txn_fields, modify_txn. cbn. rewrite lookup_insert_eq. cbn. rewrite lookup_insert_eq. cbn.
    eexists. split; [done|]. cbn. rewrite lookup_insert_eq. cbn. split; [done|]. split; [done|].
    intros Hid. by rewrite (proj2 (Z.eqb_neq id 0) Hid).
Qed.
End Txn.

(** ** An example *)

Module TxnExamples.
#[local] Instance toy_txn_types : TxnTypes :=
  {| TxnReadOptions := IOActivity; io_activity := id; TxnWriteOptions := unit |}.
#[local] Existing Instance concrete_impl.

Definition toy_options (a : IOActivity) : TxnReadOptions (TxnTypes := toy_txn_types) := a.

Definition toy_rd (key : Slice) : Status * bytes :=
  if size key =? 0 then (NotFound_sub kNone, []) else (OK, ToStringView key ++ lit "!").

Definition toy_txn : overrides txn_call (unit * gmap Z TxnFields) := λ R c,
  match c in txn_call T return option (M _ T) with
  | Xr c =>
      match c in txread_call T return option (M _ T) with
      | t_GetImpl _ _ key _ => Some (λ s, Some (toy_rd key, s))
      | t_Get _ _ key _ => Some (λ s, Some (toy_rd key, s))
      | _ => None
      end
  | _ => None
  end.

Lemma multi_get_spec_witness :
  ∃ vs, transaction 1 toy_txn _
      (Xr (t_MultiGet (toy_options kMultiGet) 0 2 [Slice_string (lit "a"); Slice_empty]
        [PinnableSlice_new; PinnableSlice_new] [OK; OK] false)) (tt, ∅) =
    Some ((vs, [OK; NotFound_sub kNone]), (tt, ∅)) ∧
    Forall2 (λ key p, holds_value p (toy_rd key).2) [Slice_string (lit "a"); Slice_empty] vs.
Proof.
  apply (multi_get_spec 1 toy_txn (toy_options kMultiGet) 0 toy_rd [Slice_string (lit "a"); Slice_empty]
    [PinnableSlice_new; PinnableSlice_new] [OK; OK] false (tt, ∅)).
  - reflexivity.
  - reflexivity.
  - reflexivity.
  - repeat constructor.
  - reflexivity.
  - reflexivity.
Defined.

Lemma pinnable_reads_witness :
  ∃ p, transaction 1 toy_txn _ (Xr (t_Get_pin (toy_options kGet) 0 (Slice_string (lit "a")) PinnableSlice_new)) (tt, ∅) =
    Some ((OK, p), (tt, ∅)) ∧ holds_value p (lit "a!").
Proof.
  apply (pinnable_reads 1 toy_txn (toy_options kGet) 0 (Slice_string (lit "a")) PinnableSlice_new false false (tt, ∅)
    OK (lit "a!") (tt, ∅)).
  - intros R []; done.
  - reflexivity.
  - vm_compute. reflexivity.
Defined.
End TxnExamples.
