(* ===== verification/Hooks.v ===== *)
(** * Extension points (libs/rocksdb/compaction_filter.h, write_batch.h, rate_limiter.h, comparator.h)

    Classes whose virtual functions an application overrides: compaction filters,
    the handler that a write batch is replayed on, rate limiters and comparators.
    The bodies of the headers make the newer functions work through the older ones;
    the theorems say what a class that overrides only the older ones does.
    Functions, objects and classes are as in Virtual.v. *)

From stdpp Require Import base list gmap strings.
From Stdlib Require Import ZArith Lia.
From Stdlib.Strings Require Import Byte.
From S2P Require Import Prelude Slice Status Pinnable Virtual.

Open Scope Z_scope.

(** ** Compaction filters *)

Inductive ValueType := kValue | kMergeOperand | kBlobIndex | kWideColumnEntity.
Inductive Decision :=
| kKeep | kRemove | kChangeValue | kRemoveAndSkipUntil | kChangeBlobIndex | kFilterIOError | kPurge
| kChangeWideColumnEntity | kUndetermined.
Inductive BlobDecision := kBlobKeep | kBlobChangeValue | kBlobCorruption | kBlobIOError.
Inductive TableFileCreationReason := kFlush | kCompaction | kRecovery | kMisc.

#[export] Instance ValueType_eq_dec : EqDecision ValueType.
Proof. solve_decision. Defined.
#[export] Instance TableFileCreationReason_eq_dec : EqDecision TableFileCreationReason.
Proof. solve_decision. Defined.

Abbreviation new_columns_t := (list (bytes * bytes)).

Inductive filter_call : Type → Type :=
| Filter (level : Z) (key existing_value : Slice) (new_value : bytes) (value_changed : bool)
    : filter_call (bool * bytes * bool)
| FilterMergeOperand (level : Z) (key operand : Slice) : filter_call bool
| FilterV2 (level : Z) (key : Slice) (value_type : ValueType) (existing_value : Slice)
    (new_value skip_until : bytes) : filter_call (Decision * bytes * bytes)
| FilterV3 (level : Z) (key : Slice) (value_type : ValueType) (existing_value : option Slice)
    (existing_columns : option WideColumns) (new_value : bytes) (new_columns : new_columns_t)
    (skip_until : bytes) : filter_call (Decision * bytes * new_columns_t * bytes)
| PrepareBlobOutput (key existing_value : Slice) (new_value : bytes) : filter_call (BlobDecision * bytes)
| IgnoreSnapshots : filter_call bool
| IsStackedBlobDbInternalCompactionFilter : filter_call bool
| FilterBlobByKey (level : Z) (key : Slice) (new_value skip_until : bytes) : filter_call (Decision * bytes * bytes).

Section Filters.
Context {St : Type}.

#[local] Abbreviation filter_object := (object filter_call St).

Definition filter_v2 (self : filter_object) (level : Z) (key : Slice) (value_type : ValueType)
    (existing_value : Slice) (new_value skip_until : bytes) : M St (Decision * bytes * bytes) :=
  match value_type with
  | kValue =>
      '(rv, new_value, value_changed) ← self _ (Filter level key existing_value new_value false);
      ret (if rv : bool then kRemove else if value_changed : bool then kChangeValue else kKeep, new_value, skip_until)
  | kMergeOperand =>
      rv ← self _ (FilterMergeOperand level key existing_value);
      ret (if rv : bool then kRemove else kKeep, new_value, skip_until)
  | kBlobIndex => ret (kKeep, new_value, skip_until)
  | kWideColumnEntity => pure_virtual (* assert(false) *)
  end.

(** The three assertions, then the dispatch; [existing_value] is dereferenced. *)
Definition filter_v3 (self : filter_object) (level : Z) (key : Slice) (value_type : ValueType)
    (existing_value : option Slice) (existing_columns : option WideColumns) (new_value : bytes)
    (new_columns : new_columns_t) (skip_until : bytes) : M St (Decision * bytes * new_columns_t * bytes) :=
  let entity := bool_decide (value_type = kWideColumnEntity) in
  let has_value := bool_decide (is_Some existing_value) in
  let has_columns := bool_decide (is_Some existing_columns) in
  if (negb has_value || negb has_columns) && (entity || has_value) && (negb entity || has_columns) then
    if entity then ret (kKeep, new_value, new_columns, skip_until)
    else
      v ← M_opt existing_value;
      '(d, new_value, skip_until) ← self _ (FilterV2 level key value_type v new_value skip_until);
      ret (d, new_value, new_columns, skip_until)
  else pure_virtual.

Definition filter_bodies (self : filter_object) : filter_object := λ R c,
  match c in filter_call T return M St T with
  | Filter _ _ _ new_value value_changed => ret (false, new_value, value_changed)
  | FilterMergeOperand _ _ _ => ret false
  | FilterV2 level key value_type existing_value new_value skip_until =>
      filter_v2 self level key value_type existing_value new_value skip_until
  | FilterV3 level key value_type existing_value existing_columns new_value new_columns skip_until =>
      filter_v3 self level key value_type existing_value existing_columns new_value new_columns skip_until
  | PrepareBlobOutput _ _ new_value => ret (kBlobKeep, new_value)
  | IgnoreSnapshots => ret true
  | IsStackedBlobDbInternalCompactionFilter => ret false
  | FilterBlobByKey _ _ new_value skip_until => ret (kUndetermined, new_value, skip_until)
  end.

Definition compaction_filter (ov : overrides filter_call St) : filter_object :=
  dispatch filter_call St (λ _, filter_bodies) 3 0 ov.

(** [CompactionFilterFactory::ShouldFilterTableFileCreation]. *)
Definition ShouldFilterTableFileCreation (reason : TableFileCreationReason) : bool :=
  bool_decide (reason = kCompaction).

(** The compaction calls [FilterV3]; a filter that overrides only [Filter] and
    [FilterMergeOperand] is asked through it: a value is removed if [Filter] says
    so, changed if it says that the value changed, with the new value it made, and
    kept otherwise; a merge operand is removed or kept as [FilterMergeOperand]
    says; blobs and entities are kept without a call.  The columns and the key to
    skip to are never set.  A call with a value missing, columns missing for an
    entity, or both given fails an assertion. *)
Theorem old_filter_decides (ov : overrides filter_call St) flt mrg level key vt v cols nv ncols skip (s : St) :
  (∀ l k e n c, ov _ (Filter l k e n c) = Some (flt l k e n c)) →
  (∀ l k o, ov _ (FilterMergeOperand l k o) = Some (mrg l k o)) →
  (∀ l k t e n u, ov _ (FilterV2 l k t e n u) = None) →
  (∀ l k t e c n m u, ov _ (FilterV3 l k t e c n m u) = None) →
  compaction_filter ov _ (FilterV3 level key vt v cols nv ncols skip) s =
  match vt, v, cols with
  | kValue, Some e, None =>
      match flt level key e nv false s with
      | Some ((rm, nv', changed), s') =>
          Some ((if rm : bool then kRemove else if changed : bool then kChangeValue else kKeep, nv', ncols, skip), s')
      | None => None
      end
  | kMergeOperand, Some e, None =>
      match mrg level key e s with
      | Some (rm, s') => Some ((if rm : bool then kRemove else kKeep, nv, ncols, skip), s')
      | None => None
      end
  | kBlobIndex, Some _, None | kWideColumnEntity, None, Some _ => Some ((kKeep, nv, ncols, skip), s)
  | _, _, _ => None
  end.
Proof.
  intros Hf Hm H2 H3. unfold compaction_filter. cbn [dispatch]. rewrite H3. cbn [filter_bodies].
  unfold filter_v3. destruct v as [v|], cols as [cols|], vt; try done; cbn; unfold mbind, M_bind, M_opt;
    cbn; rewrite ?H2; cbn; unfold mbind, M_bind; rewrite ?Hf, ?Hm; try done;
    rewrite bool_decide_eq_false_2 by done; cbn.
  - by destruct (flt _ _ _ _ _ _) as [[[[rm nv'] changed] s']|].
  - by destruct (mrg _ _ _ _) as [[rm s']|].
Qed.
End Filters.

(** ** Replaying a write batch *)

Record SavePoint := mkSavePoint { sp_size : Z; sp_count : Z; sp_content_flags : Z }.
Definition SavePoint_new : SavePoint := mkSavePoint 0 0 0.
Definition SavePoint_clear (_ : SavePoint) : SavePoint := mkSavePoint 0 0 0.
Definition is_cleared (p : SavePoint) : bool :=
  Z.lor (Z.lor (sp_size p) (sp_count p)) (sp_content_flags p) =? 0.

(** The timestamp sizes a batch keeps of its column families. *)
Record ts_tracking := mkTracking { track_timestamp_size_ : bool; cf_id_to_ts_sz_ : gmap Z Z }.
Definition SetTrackTimestampSize (b : bool) (t : ts_tracking) : ts_tracking :=
  mkTracking b (cf_id_to_ts_sz_ t).
Definition MaybeTrackTimestampSize (column_family_id ts_sz : Z) (t : ts_tracking) : ts_tracking :=
  if track_timestamp_size_ t then
    match cf_id_to_ts_sz_ t !! column_family_id with
    | None => mkTracking true (<[column_family_id := ts_sz]> (cf_id_to_ts_sz_ t))
    | Some _ => t
    end
  else t.

Inductive handler_call : Type → Type :=
| PutCF (column_family_id : Z) (key value : Slice) : handler_call Status
| Put_h (key value : Slice) : handler_call unit
| TimedPutCF (column_family_id : Z) (key value : Slice) (write_time : Z) : handler_call Status
| PutEntityCF (column_family_id : Z) (key entity : Slice) : handler_call Status
| DeleteCF (column_family_id : Z) (key : Slice) : handler_call Status
| Delete_h (key : Slice) : handler_call unit
| SingleDeleteCF (column_family_id : Z) (key : Slice) : handler_call Status
| SingleDelete_h (key : Slice) : handler_call unit
| DeleteRangeCF (column_family_id : Z) (begin_key end_key : Slice) : handler_call Status
| MergeCF (column_family_id : Z) (key value : Slice) : handler_call Status
| Merge_h (key value : Slice) : handler_call unit
| PutBlobIndexCF (column_family_id : Z) (key value : Slice) : handler_call Status
| LogData (blob : Slice) : handler_call unit
| MarkBeginPrepare (unprepared : bool) : handler_call Status
| MarkEndPrepare (xid : Slice) : handler_call Status
| MarkNoop (empty_batch : bool) : handler_call Status
| MarkRollback (xid : Slice) : handler_call Status
| MarkCommit (xid : Slice) : handler_call Status
| MarkCommitWithTimestamp (xid commit_ts : Slice) : handler_call Status
| Continue : handler_call bool.

Section Handlers.
Context {St : Type} `{SI : StatusImpl}.

(** [LogData] and [Continue] are only declared in the header. *)
Context (LogData_body : Slice → M St unit) (Continue_body : M St bool).

(** [Status::InvalidArgument("...")]. *)
Definition invalid (s : string) : Status :=
  InvalidArgument (Slice_cstr (Some (lit s ++ [x00]))) Slice_empty.

#[local] Abbreviation handler_object := (object handler_call St).

(** The older function for the default family, an error for the others. *)
Definition default_family (column_family_id : Z) (old : M St unit) (msg : string) : M St Status :=
  if column_family_id =? 0 then _ ← old; ret OK else ret (invalid msg).

Definition handler_bodies (self : handler_object) : handler_object := λ R c,
  match c in handler_call T return M St T with
  | PutCF id key value =>
      default_family id (self _ (Put_h key value)) "non-default column family and PutCF not implemented"
  | Put_h _ _ | Delete_h _ | SingleDelete_h _ | Merge_h _ _ => ret tt
  | LogData blob => LogData_body blob
  | TimedPutCF _ _ _ _ => ret (invalid "TimedPutCF not implemented")
  | PutEntityCF _ _ _ =>
      ret (NotSupported (Slice_cstr (Some (lit "PutEntityCF not implemented" ++ [x00]))) Slice_empty)
  | DeleteCF id key =>
      default_family id (self _ (Delete_h key)) "non-default column family and DeleteCF not implemented"
  | SingleDeleteCF id key =>
      default_family id (self _ (SingleDelete_h key))
        "non-default column family and SingleDeleteCF not implemented"
  | DeleteRangeCF _ _ _ => ret (invalid "DeleteRangeCF not implemented")
  | MergeCF id key value =>
      default_family id (self _ (Merge_h key value)) "non-default column family and MergeCF not implemented"
  | PutBlobIndexCF _ _ _ => ret (invalid "PutBlobIndexCF not implemented")
  | MarkBeginPrepare _ => ret (invalid "MarkBeginPrepare() handler not defined.")
  | MarkEndPrepare _ => ret (invalid "MarkEndPrepare() handler not defined.")
  | MarkNoop _ => ret (invalid "MarkNoop() handler not defined.")
  | MarkRollback _ => ret (invalid "MarkRollbackPrepare() handler not defined.")
  | MarkCommit _ => ret (invalid "MarkCommit() handler not defined.")
  | MarkCommitWithTimestamp _ _ => ret (invalid "MarkCommitWithTimestamp() handler not defined.")
  | Continue => Continue_body
  end.

Definition write_handler (ov : overrides handler_call St) : handler_object :=
  dispatch handler_call St (λ _, handler_bodies) 2 0 ov.
(** The calls that have an older form, with it. *)
Inductive older : handler_call Status → Z → handler_call unit → Prop :=
| older_put id key value : older (PutCF id key value) id (Put_h key value)
| older_delete id key : older (DeleteCF id key) id (Delete_h key)
| older_single id key : older (SingleDeleteCF id key) id (SingleDelete_h key)
| older_merge id key value : older (MergeCF id key value) id (Merge_h key value).

(** A handler that does not override a call with a column family is called through
    the older form for the default family, with its effect and status OK (or its
    failure), and is not called for another family: the status is InvalidArgument. *)
Theorem older_handler_called `{!StatusImplOk SI} (ov : overrides handler_call St) c id c' (s : St) :
  older c id c' → ov _ c = None →
  if id =? 0 then
    write_handler ov _ c s =
    match write_handler ov _ c' s with Some (_, s') => Some (OK, s') | None => None end
  else ∃ st, write_handler ov _ c s = Some (st, s) ∧ code st = kInvalidArgument.
Proof.
  intros Ho Hov. unfold write_handler. cbn [dispatch]. rewrite Hov.
  destruct Ho; cbn [handler_bodies]; unfold default_family; destruct (id =? 0);
    try (eexists; split; [done|apply Status_msgs_codes]);
    unfold mbind, M_bind; cbn [dispatch]; match goal with |- context [ov ?T ?c] => by destruct (ov T c) end.
Qed.
End Handlers.

(** ** Rate limiters *)

Inductive OpType := kRead | kWrite.
Inductive Mode := kReadsOnly | kWritesOnly | kAllIo.

#[export] Instance OpType_eq_dec : EqDecision OpType.
Proof. solve_decision. Defined.
#[export] Instance Mode_eq_dec : EqDecision Mode.
Proof. solve_decision. Defined.

(** Priorities and statistics are numbers, the identity of the object. *)
Inductive limiter_call : Type → Type :=
| SetBytesPerSecond (bytes_per_second : Z) : limiter_call unit
| SetSingleBurstBytes (single_burst_bytes : Z) : limiter_call Status
| Request (n pri : Z) : limiter_call unit
| Request_stats (n pri stats : Z) : limiter_call unit
| Request_op (n pri stats : Z) (op_type : OpType) : limiter_call unit
| GetSingleBurstBytes : limiter_call Z
| GetTotalBytesThrough (pri : Z) : limiter_call Z
| GetTotalRequests (pri : Z) : limiter_call Z
| GetTotalPendingRequests (total_pending_requests : option Z) (pri : Z) : limiter_call (Status * option Z)
| GetBytesPerSecond : limiter_call Z
| IsRateLimited (op_type : OpType) : limiter_call bool.

Section Limiters.
Context {St : Type}.

#[local] Abbreviation limiter_object := (object limiter_call St).

Definition default_mode : Mode := kWritesOnly.

Definition limited (mode_ : Mode) (op_type : OpType) : bool :=
  if bool_decide (mode_ = kWritesOnly) && bool_decide (op_type = kRead)
     || bool_decide (mode_ = kReadsOnly) && bool_decide (op_type = kWrite)
  then false else true.

Definition limiter_bodies (mode_ : Mode) (self : limiter_object) : limiter_object := λ R c,
  match c in limiter_call T return M St T with
  | SetSingleBurstBytes _ => ret (NotSupported_sub kNone)
  | Request_stats n pri _ => self _ (Request n pri)
  | Request_op n pri stats op_type =>
      l ← self _ (IsRateLimited op_type);
      if l : bool then self _ (Request_stats n pri stats) else ret tt
  | GetTotalPendingRequests p _ =>
      match p with Some _ => ret (NotSupported_sub kNone, p) | None => pure_virtual end
  | IsRateLimited op_type => ret (limited mode_ op_type)
  | _ => pure_virtual (* Request(bytes, pri): assert(false) *)
  end.

Definition rate_limiter (mode_ : Mode) (ov : overrides limiter_call St) : limiter_object :=
  dispatch limiter_call St (λ _, limiter_bodies mode_) 3 0 ov.

(** A limiter that overrides only the oldest [Request] is asked for the bytes of
    every read when the mode is reads or all, of every write when it is writes or
    all, once each, and an operation outside of the mode passes without a request. *)
Theorem oldest_request_charged (mode_ : Mode) (ov : overrides limiter_call St) n pri stats op (s : St) :
  (∀ n pri stats, ov _ (Request_stats n pri stats) = None) →
  (∀ n pri stats op, ov _ (Request_op n pri stats op) = None) →
  (∀ op, ov _ (IsRateLimited op) = None) →
  rate_limiter mode_ ov _ (Request_op n pri stats op) s =
  match mode_, op with
  | kWritesOnly, kRead | kReadsOnly, kWrite => Some (tt, s)
  | _, _ => rate_limiter mode_ ov _ (Request n pri) s
  end.
Proof.
  intros Hs Ho Hl. unfold rate_limiter. cbn [dispatch]. rewrite Ho. cbn [limiter_bodies].
  unfold mbind, M_bind. cbn [dispatch]. rewrite Hl. cbn [limiter_bodies]. unfold ret, mret, M_ret.
  destruct mode_, op; cbn; rewrite ?Hs; cbn; try done; by destruct (ov _ (Request n pri)).
Qed.
End Limiters.

(** ** Comparators *)

Inductive comparator_call : Type → Type :=
| Compare (a b : Slice) : comparator_call Z
| Equal_c (a b : Slice) : comparator_call bool
| FindShortestSeparator (start : bytes) (limit : Slice) : comparator_call bytes
| FindShortSuccessor (key : bytes) : comparator_call bytes
| IsSameLengthImmediateSuccessor (s t : Slice) : comparator_call bool
| CanKeysWithDifferentByteContentsBeEqual : comparator_call bool
| GetRootComparator : comparator_call Z
| GetMaxTimestamp : comparator_call Slice
| GetMinTimestamp : comparator_call Slice
| TimestampToString (timestamp : Slice) : comparator_call bytes
| CompareTimestamp (ts1 ts2 : Slice) : comparator_call Z
| CompareWithoutTimestamp (a : Slice) (a_has_ts : bool) (b : Slice) (b_has_ts : bool) : comparator_call Z
| EqualWithoutTimestamp (a b : Slice) : comparator_call bool.

Section Comparators.
Context {St : Type}.

#[local] Abbreviation comparator_object := (object comparator_call St).

(** [operator=]: the target and the source can be the same object. *)
Definition Comparator_assign (same : bool) (timestamp_size_ rhs : Z) : Z :=
  if same then timestamp_size_ else rhs.

Definition no_timestamp (timestamp_size_ : Z) : M St Slice :=
  if timestamp_size_ =? 0 then ret Slice_empty else pure_virtual (* assert(false) *).

Definition comparator_bodies (timestamp_size_ this : Z) (self : comparator_object) : comparator_object := λ R c,
  match c in comparator_call T return M St T with
  | Equal_c a b => r ← self _ (Compare a b); ret (r =? 0)
  | IsSameLengthImmediateSuccessor _ _ => ret false
  | CanKeysWithDifferentByteContentsBeEqual => ret true
  | GetRootComparator => ret this
  | GetMaxTimestamp | GetMinTimestamp => no_timestamp timestamp_size_
  | TimestampToString _ => ret []
  | CompareTimestamp _ _ => ret 0
  | CompareWithoutTimestamp a _ b _ => self _ (Compare a b)
  | EqualWithoutTimestamp a b => r ← self _ (CompareWithoutTimestamp a true b true); ret (0 =? r)
  | _ => pure_virtual
  end.

Definition comparator (timestamp_size_ this : Z) (ov : overrides comparator_call St) : comparator_object :=
  dispatch comparator_call St (comparator_bodies timestamp_size_) 3 this ov.

(** The two-argument [CompareWithoutTimestamp], not virtual. *)
Definition CompareWithoutTimestamp_keys (cmp : comparator_object) (a b : Slice) : M St Z :=
  cmp _ (CompareWithoutTimestamp a true b true).
End Comparators.
