(* ===== verification/Registry.v ===== *)
(** * The object registry (libs/rocksdb/utilities/object_registry.h and
    customizable_util.h)

    An [ObjectLibrary] maps name patterns to factories, per type; an
    [ObjectRegistry] searches its libraries from the last added to the first and
    then its parent, creates objects, and keeps the managed ones.  The functions
    of customizable_util.h create and configure an object from an id and a map
    of options.

    A factory is a function of the state of the allocator, a counter that is
    passed along, so that two calls create two objects.  A weak pointer is the
    object it refers to; which objects are alive is an argument.  What the
    headers declare without a body is in [RegistryImpl]. *)

From stdpp Require Import base list gmap strings.
From Stdlib Require Import ZArith Lia.
From Stdlib.Strings Require Import Byte.
From S2P Require Import Prelude Slice Status OptionsType.

#[local] Set Warnings "-register-all".

Open Scope Z_scope.

(** ** Patterns *)

Inductive Quantifier :=
| kMatchZeroOrMore | kMatchAtLeastOne | kMatchExact | kMatchInteger | kMatchDecimal.

Record PatternEntry := mkPattern {
  pname_ : bytes;
  nlength_ : Z;
  names_ : list bytes;
  optional_ : bool;
  slength_ : Z;
  separators_ : list (bytes * Quantifier);
}.

Definition PatternEntry_new (name : bytes) (optional : bool) : PatternEntry :=
  mkPattern name (string_size name) [] optional 0 [].

Definition AddSuffix (e : PatternEntry) (suffix : bytes) : PatternEntry :=
  mkPattern (pname_ e) (nlength_ e) (names_ e) (optional_ e) (slength_ e + string_size suffix)
    (separators_ e ++ [(suffix, kMatchExact)]).

Definition AddSeparator (e : PatternEntry) (separator : bytes) (at_least_one : bool) : PatternEntry :=
  let slength := slength_ e + string_size separator in
  if at_least_one
  then mkPattern (pname_ e) (nlength_ e) (names_ e) (optional_ e) (slength + 1)
         (separators_ e ++ [(separator, kMatchAtLeastOne)])
  else mkPattern (pname_ e) (nlength_ e) (names_ e) (optional_ e) slength
         (separators_ e ++ [(separator, kMatchZeroOrMore)]).

Definition AddNumber (e : PatternEntry) (separator : bytes) (is_int : bool) : PatternEntry :=
  mkPattern (pname_ e) (nlength_ e) (names_ e) (optional_ e)
    (slength_ e + (string_size separator + 1))
    (separators_ e ++ [(separator, if is_int then kMatchInteger else kMatchDecimal)]).

Definition AnotherName (e : PatternEntry) (alt : bytes) : PatternEntry :=
  mkPattern (pname_ e) (nlength_ e) (names_ e ++ [alt]) (optional_ e) (slength_ e) (separators_ e).

Definition SetOptional (e : PatternEntry) (optional : bool) : PatternEntry :=
  mkPattern (pname_ e) (nlength_ e) (names_ e) optional (slength_ e) (separators_ e).

Definition AsIndividualId (name : bytes) : PatternEntry :=
  let entry := PatternEntry_new name true in
  let entry := AddSeparator entry (lit "@") true in
  AddSeparator entry (lit "#") true.

(** ** Objects and factories *)

(** An object: its address, its class name and its id. *)
Record Obj := mkObj { addr : Z; oname : bytes; oid : bytes }.

(** From the state of the allocator and the target: the object returned, the
    object put in the guard, and the error message. *)
Definition FactoryFunc : Type := nat → bytes → option Obj * option Obj * bytes.

(** A library: per type name, the entries in the order of registration. *)
Record ObjectLibrary := mkLibrary {
  id_ : bytes; factories_ : list (bytes * list (PatternEntry * FactoryFunc));
}.

Definition ObjectLibrary_new (id : bytes) : ObjectLibrary := mkLibrary id [].
Definition GetID (l : ObjectLibrary) : bytes := id_ l.

(** [factories_[type].emplace_back(entry)]. *)
Fixpoint add_entry (m : list (bytes * list (PatternEntry * FactoryFunc))) (type : bytes)
    (e : PatternEntry * FactoryFunc) : list (bytes * list (PatternEntry * FactoryFunc)) :=
  match m with
  | [] => [(type, [e])]
  | (t, es) :: m' =>
      if bool_decide (t = type) then (t, es ++ [e]) :: m' else (t, es) :: add_entry m' type e
  end.

Definition AddFactoryEntry (l : ObjectLibrary) (type : bytes) (e : PatternEntry * FactoryFunc)
    : ObjectLibrary := mkLibrary (id_ l) (add_entry (factories_ l) type e).

Definition AddFactory_name (l : ObjectLibrary) (type name : bytes) (func : FactoryFunc)
    : ObjectLibrary := AddFactoryEntry l type (PatternEntry_new name true, func).
Definition AddFactory_entry (l : ObjectLibrary) (type : bytes) (entry : PatternEntry)
    (func : FactoryFunc) : ObjectLibrary := AddFactoryEntry l type (entry, func).

(** A managed object under its key. *)
Abbreviation managed_map := (list (bytes * Obj)).

Inductive ObjectRegistry :=
  mkRegistry (libraries_ : list ObjectLibrary) (managed_objects_ : managed_map)
    (parent_ : option ObjectRegistry).

Definition libraries_ (r : ObjectRegistry) : list ObjectLibrary :=
  let 'mkRegistry libs _ _ := r in libs.
Definition managed_objects_ (r : ObjectRegistry) : managed_map :=
  let 'mkRegistry _ m _ := r in m.
Definition parent_ (r : ObjectRegistry) : option ObjectRegistry :=
  let 'mkRegistry _ _ p := r in p.

(** What the headers declare and do not define. *)
Class RegistryImpl := {
  Matches : PatternEntry → bytes → bool;
  GetManagedObject : (Obj → bool) → ObjectRegistry → bytes → bytes → option Obj;
  SetManagedObject : ObjectRegistry → bytes → bytes → Obj → ObjectRegistry * Status;
  ListManagedObjects : (Obj → bool) → ObjectRegistry → bytes → bytes → Status * list Obj;
  (** [Customizable::GetOptionsMap]: the status, the id and the map; the object
      is the existing one, if any. *)
  GetOptionsMap : ConfigOptions → option Obj → bytes → Status * bytes * list (bytes * bytes);
  (** [Customizable::ConfigureNewObject] and [Configurable::ConfigureFromMap]
      on the object pointed to: the status and the object afterwards. *)
  ConfigureNewObject : ConfigOptions → option Obj → list (bytes * bytes) → Status * option Obj;
  ConfigureFromMap : ConfigOptions → Obj → list (bytes * bytes) → Status * Obj;
}.

(** [Register] and [AddLibrary] with a registrar, which fills the library that
    the registry shares. *)
Definition RegistrarFunc : Type := ObjectLibrary → bytes → ObjectLibrary * Z.
Definition Register (l : ObjectLibrary) (registrar : RegistrarFunc) (arg : bytes)
    : ObjectLibrary * Z := registrar l arg.

Definition AddLibrary (r : ObjectRegistry) (l : ObjectLibrary) : ObjectRegistry :=
  mkRegistry (libraries_ r ++ [l]) (managed_objects_ r) (parent_ r).
Definition AddLibrary_id (r : ObjectRegistry) (id : bytes) : ObjectRegistry * ObjectLibrary :=
  let library := ObjectLibrary_new id in (AddLibrary r library, library).
Definition AddLibrary_registrar (r : ObjectRegistry) (id : bytes) (registrar : RegistrarFunc)
    (arg : bytes) : ObjectRegistry :=
  AddLibrary r (Register (ObjectLibrary_new id) registrar arg).1.

Definition ObjectRegistry_new (parent : option ObjectRegistry) : ObjectRegistry :=
  mkRegistry [] [] parent.

Section RegistryOps.
Context `{SI : StatusImpl, RI : RegistryImpl}.
(** [type] is [T::Type()]. *)
Context (type : bytes).

(** The first entry that matches, in the order of registration. *)
Fixpoint find_entry (es : list (PatternEntry * FactoryFunc)) (target : bytes)
    : option FactoryFunc :=
  match es with
  | [] => None
  | (e, f) :: es' => if Matches e target then Some f else find_entry es' target
  end.

Definition library_FindFactory (l : ObjectLibrary) (target : bytes) : option FactoryFunc :=
  match map_find (factories_ l) type with
  | Some es => find_entry es target
  | None => None
  end.

(** The loop over the libraries, here given in the order it visits them. *)
Fixpoint find_in_libraries (libs : list ObjectLibrary) (name : bytes) : option FactoryFunc :=
  match libs with
  | [] => None
  | l :: libs' =>
      match library_FindFactory l name with
      | Some f => Some f
      | None => find_in_libraries libs' name
      end
  end.

Fixpoint FindFactory (r : ObjectRegistry) (name : bytes) : option FactoryFunc :=
  let 'mkRegistry libs _ parent := r in
  match find_in_libraries (reverse libs) name with
  | Some f => Some f
  | None => match parent with None => None | Some p => FindFactory p name end
  end.

(** [NewObject]: the status, the new [*object] and [*guard], and the allocator. *)
Definition NewObject (r : ObjectRegistry) (now : nat) (target : bytes) (object : option Obj)
    : Status * option Obj * option Obj * nat :=
  match FindFactory r target with
  | Some factory =>
      let '(object, guard, errmsg) := factory now target in
      let st :=
        match object with
        | Some _ => OK
        | None =>
            if string_size errmsg =? 0
            then InvalidArgument (Slice_string (lit "Could not load " ++ type)) (Slice_string target)
            else InvalidArgument (Slice_string errmsg) (Slice_string target)
        end in
      (st, object, guard, S now)
  | None =>
      (NotSupported (Slice_string (lit "Could not load " ++ type)) (Slice_string target),
       object, None, now)
  end.

(** The status, the new [*result] and the allocator. *)
Definition registry_NewUniqueObject (r : ObjectRegistry) (now : nat) (target : bytes)
    (result : option Obj) : Status * option Obj * nat :=
  let '(s, ptr, guard, now) := NewObject r now target None in
  if negb (ok s) then (s, result, now)
  else match guard with
       | Some g => (OK, Some g, now)
       | None => (InvalidArgument (Slice_string (lit "Cannot make a unique " ++ type
                                     ++ lit " from unguarded one ")) (Slice_string target),
                  result, now)
       end.

Definition registry_NewSharedObject (r : ObjectRegistry) (now : nat) (target : bytes)
    (result : option Obj) : Status * option Obj * nat :=
  let '(s, ptr, guard, now) := NewObject r now target None in
  if negb (ok s) then (s, result, now)
  else match guard with
       | Some g => (OK, Some g, now)
       | None => (InvalidArgument (Slice_string (lit "Cannot make a shared " ++ type
                                     ++ lit " from unguarded one ")) (Slice_string target),
                  result, now)
       end.

Definition registry_NewStaticObject (r : ObjectRegistry) (now : nat) (target : bytes)
    (result : option Obj) : Status * option Obj * nat :=
  let '(s, ptr, guard, now) := NewObject r now target None in
  if negb (ok s) then (s, result, now)
  else match guard with
       | Some _ => (InvalidArgument (Slice_string (lit "Cannot make a static " ++ type
                                       ++ lit " from a guarded one ")) (Slice_string target),
                    result, now)
       | None => (OK, ptr, now)
       end.

Definition ToManagedObjectKey (ty id : bytes) : bytes := ty ++ lit "://" ++ id.

(** [managed_objects_[key] = c]. *)
Fixpoint managed_set (m : managed_map) (key : bytes) (c : Obj) : managed_map :=
  match m with
  | [] => [(key, c)]
  | (k, o) :: m' => if bool_decide (k = key) then (k, c) :: m' else (k, o) :: managed_set m' key c
  end.

(** The registry and the allocator after the call, the status and [*result].
    [cfunc] configures the new object, which keeps its address. *)
Definition GetOrCreateManagedObject (alive : Obj → bool) (r : ObjectRegistry) (now : nat)
    (id : bytes) (result : option Obj) (cfunc : option (Obj → Status * Obj))
    : ObjectRegistry * nat * Status * option Obj :=
  let in_parent := match parent_ r with Some p => GetManagedObject alive p type id | None => None end in
  match in_parent with
  | Some object => (r, now, OK, Some object)
  | None =>
      let key := ToManagedObjectKey type id in
      let existing :=
        match map_find (managed_objects_ r) key with
        | Some o => if alive o then Some o else None
        | None => None
        end in
      match existing with
      | Some object => (r, now, OK, Some object)
      | None =>
          let '(s, object, now) := registry_NewSharedObject r now id None in
          if ok s then
            match object with
            | Some o =>
                let '(s, c) := match cfunc with Some f => f o | None => (s, o) end in
                if ok s then
                  let m := managed_objects_ r in
                  let m := if negb (bool_decide (id = oname c)) then managed_set m key c else m in
                  let m :=
                    if negb (bool_decide (id = oid c)) && negb (bool_decide (oid c = oname c))
                    then managed_set m (ToManagedObjectKey type (oid c)) c else m in
                  (mkRegistry (libraries_ r) m (parent_ r), now, s, Some c)
                else (r, now, s, result)
            | None => (r, now, s, None) (* a successful creation has an object *)
            end
          else (r, now, s, result)
      end
  end.

(** The typed wrappers of the operations on managed objects; the pointer casts
    keep the object. *)
Definition registry_SetManagedObject_id (r : ObjectRegistry) (id : bytes) (object : Obj)
    : ObjectRegistry * Status := SetManagedObject r type id object.
Definition registry_SetManagedObject (r : ObjectRegistry) (object : Obj)
    : ObjectRegistry * Status := registry_SetManagedObject_id r (oid object) object.
Definition registry_GetManagedObject (alive : Obj → bool) (r : ObjectRegistry) (id : bytes)
    : option Obj := GetManagedObject alive r type id.

Definition registry_ListManagedObjects (alive : Obj → bool) (r : ObjectRegistry) (id : bytes)
    : Status * list Obj :=
  let '(s, customizables) := ListManagedObjects alive r type id in
  if ok s then (s, customizables) else (s, []).
Definition registry_ListManagedObjects_all (alive : Obj → bool) (r : ObjectRegistry)
    : Status * list Obj := registry_ListManagedObjects alive r [].

(** ** customizable_util.h

    [r] is the registry [config_options.registry] points to.  The shared, the
    unique and the static version have the same body around the registry's
    function [create]. *)
Definition create_and_configure
    (create : ObjectRegistry → nat → bytes → option Obj → Status * option Obj * nat)
    (config_options : ConfigOptions) (r : ObjectRegistry) (now : nat) (id : bytes)
    (opt_map : list (bytes * bytes)) (result : option Obj) : Status * option Obj * nat :=
  if negb (bool_decide (id = [])) then
    let '(status, result, now) := create r now id result in
    if ignore_unsupported_options config_options && IsNotSupported status then (OK, result, now)
    else if ok status then
      let '(status, result) := ConfigureNewObject config_options result opt_map in
      (status, result, now)
    else (status, result, now)
  else if bool_decide (opt_map = []) then (OK, None, now)
  else (NotSupported (Slice_string (lit "Cannot reset object ")) Slice_empty, result, now).

Definition NewSharedObject := create_and_configure registry_NewSharedObject.
Definition NewUniqueObject := create_and_configure registry_NewUniqueObject.
Definition NewStaticObject := create_and_configure registry_NewStaticObject.

Definition load_and_create
    (new : ConfigOptions → ObjectRegistry → nat → bytes → list (bytes * bytes) → option Obj →
           Status * option Obj * nat)
    (config_options : ConfigOptions) (r : ObjectRegistry) (now : nat) (value : bytes)
    (result : option Obj) : Status * option Obj * nat :=
  let '(status, id, opt_map) := GetOptionsMap config_options result value in
  if negb (ok status) then (status, result, now)
  else new config_options r now id opt_map result.

Definition LoadSharedObject := load_and_create NewSharedObject.
Definition LoadUniqueObject := load_and_create NewUniqueObject.
Definition LoadStaticObject := load_and_create NewStaticObject.

Definition NewManagedObject (alive : Obj → bool) (config_options : ConfigOptions)
    (r : ObjectRegistry) (now : nat) (id : bytes) (opt_map : list (bytes * bytes))
    (result : option Obj) : ObjectRegistry * nat * Status * option Obj :=
  if negb (bool_decide (id = [])) then
    let '(r, now, status, result) :=
      GetOrCreateManagedObject alive r now id result
        (Some (λ object, ConfigureFromMap config_options object opt_map)) in
    if ignore_unsupported_options config_options && IsNotSupported status
    then (r, now, OK, result) else (r, now, status, result)
  else (r, now, NotSupported (Slice_string (lit "Cannot reset object ")) Slice_empty, result).

Definition LoadManagedObject (alive : Obj → bool) (config_options : ConfigOptions)
    (r : ObjectRegistry) (now : nat) (value : bytes) (result : option Obj)
    : ObjectRegistry * nat * Status * option Obj :=
  let '(status, id, opt_map) := GetOptionsMap config_options None value in
  if negb (ok status) then (r, now, status, result)
  else if bool_decide (value = []) then (r, now, OK, None)
  else NewManagedObject alive config_options r now id opt_map result.

End RegistryOps.

(** ** Correctness *)

Section RegistryCorrect.
Context `{SI : StatusImpl, SO : !StatusImplOk SI, RI : RegistryImpl}.
Context (type : bytes).

(** The entries of a type, and those a registry consults, in order. *)
Definition entries (l : ObjectLibrary) : list (PatternEntry * FactoryFunc) :=
  default [] (map_find (factories_ l) type).

Fixpoint candidates (r : ObjectRegistry) : list (PatternEntry * FactoryFunc) :=
  let 'mkRegistry libs _ parent := r in
  concat (entries <$> reverse libs) ++ match parent with None => [] | Some p => candidates p end.

Lemma find_entry_app es1 es2 target :
  find_entry (es1 ++ es2) target =
  match find_entry es1 target with Some f => Some f | None => find_entry es2 target end.
Proof. induction es1 as [|[e f] es1 IH]; simpl; [done|]. by destruct (Matches e target). Qed.

Lemma library_entries l target : library_FindFactory type l target = find_entry (entries l) target.
Proof. unfold library_FindFactory, entries. by destruct (map_find _ _). Qed.

Lemma find_in_libraries_concat libs target :
  find_in_libraries type libs target = find_entry (concat (entries <$> libs)) target.
Proof.
  induction libs as [|l libs IH]; [done|]. csimpl.
  by rewrite find_entry_app, library_entries, IH.
Qed.

(** By recursion along the chain of parents. *)
Lemma FindFactory_candidates : ∀ r target,
  FindFactory type r target = find_entry (candidates r) target.
Proof.
  fix IH 1. intros [libs m [p|]] target; simpl;
    rewrite find_entry_app, find_in_libraries_concat; [by rewrite IH | done].
Qed.

Lemma entries_add l ty e : 
  entries (AddFactoryEntry l ty e) = entries l ++ (if bool_decide (ty = type) then [e] else []).
Proof.
  unfold entries, AddFactoryEntry. simpl. induction (factories_ l) as [|[t es] m IH]; simpl.
  - repeat case_bool_decide; done.
  - repeat case_bool_decide; simplify_eq; simpl; repeat case_bool_decide; simplify_eq;
      rewrite ?app_nil_r; try done.
    all: rewrite IH; repeat case_bool_decide; simplify_eq; by rewrite ?app_nil_r.
Qed.

Lemma find_set_eq m key c : map_find (managed_set m key c) key = Some c.
Proof.
  induction m as [|[k o] m IH]; simpl; [by rewrite bool_decide_true|].
  case_bool_decide as E; simpl; [by rewrite bool_decide_true|]. by rewrite bool_decide_false.
Qed.

Lemma find_set_ne m key key' c :
  key ≠ key' → map_find (managed_set m key c) key' = map_find m key'.
Proof.
  intros Hne. induction m as [|[k o] m IH]; simpl; [by rewrite bool_decide_false|].
  case_bool_decide as E; simpl; [|by rewrite IH].
  subst. by rewrite !bool_decide_false.
Qed.

Lemma key_inj (ty id id' : bytes) : ToManagedObjectKey ty id = ToManagedObjectKey ty id' → id = id'.
Proof. unfold ToManagedObjectKey. intros H. by repeat apply app_inv_head in H. Qed.

(** Which factory creates an object: the first one that matches among all
    entries of the type, the libraries taken from the last added to the first,
    each in the order of registration, and then those of the parent.  So a
    library that is added takes precedence over the others, while a factory added
    to a library does not hide the earlier ones of that library. *)
Theorem lookup_precedence (r : ObjectRegistry) (l : ObjectLibrary) (ty : bytes)
    (e : PatternEntry) (f : FactoryFunc) (target : bytes) :
  FindFactory type r target = snd <$> head (filter (λ p, Matches p.1 target = true) (candidates r))
  ∧ FindFactory type (AddLibrary r l) target
    = match library_FindFactory type l target with Some g => Some g | None => FindFactory type r target end
  ∧ library_FindFactory type (AddFactory_entry l ty e f) target
    = match library_FindFactory type l target with
      | Some g => Some g
      | None => if bool_decide (ty = type) && Matches e target then Some f else None
      end.
Proof.
  split_and!.
  - rewrite FindFactory_candidates. induction (candidates r) as [|[e' g] es IH]; [done|].
    simpl. rewrite filter_cons. simpl. rewrite IH.
    destruct (Matches e' target); case_decide; done.
  - rewrite library_entries, !FindFactory_candidates. destruct r as [libs m p]. simpl.
    rewrite reverse_app. csimpl. by rewrite <- app_assoc, find_entry_app.
  - rewrite !library_entries. unfold AddFactory_entry. rewrite entries_add, find_entry_app.
    case_bool_decide; simpl; [|done]. by destruct (find_entry _ _), (Matches e target).
Qed.

(** What the three ways to create an object report: the code of the status, the
    result and the state of the allocator. *)
Definition outcome (p : Status * option Obj * nat) : Code * option Obj * nat :=
  let '(s, o, now) := p in (code_ s, o, now).

Lemma ok_codes c m m2 : ok (Status_code_msgs c m m2) = match c with kOk => true | _ => false end.
Proof.
  unfold ok, has_code, code, Status_code_msgs.
  destruct (Status_msgs_codes c kNone m m2 kNoError) as [-> _].
  by destruct c.
Qed.

Lemma code_of c m m2 : code_ (Status_code_msgs c m m2) = c.
Proof. apply (Status_msgs_codes c kNone m m2 kNoError). Qed.

(** Creation by the registry, on every branch: with no factory the code is
    NotSupported and the allocator is not used; with a factory that returns no
    object it is InvalidArgument; a guarded object can be made unique or shared
    and not static, an unguarded one static and neither unique nor shared; and in
    every error case the caller's result keeps its value. *)
Theorem creation_outcomes (r : ObjectRegistry) (now : nat) (target : bytes) (result : option Obj) :
  let results := [outcome (registry_NewUniqueObject type r now target result);
                  outcome (registry_NewSharedObject type r now target result);
                  outcome (registry_NewStaticObject type r now target result)] in
  let refused := (kInvalidArgument, result, S now) in
  match FindFactory type r target with
  | None => results = replicate 3 (kNotSupported, result, now)
  | Some factory =>
      match factory now target with
      | (None, _, _) => results = replicate 3 refused
      | (Some _, Some g, _) => results = [(kOk, Some g, S now); (kOk, Some g, S now); refused]
      | (Some o, None, _) => results = [refused; refused; (kOk, Some o, S now)]
      end
  end.
Proof.
  unfold registry_NewUniqueObject, registry_NewSharedObject, registry_NewStaticObject, NewObject.
  unfold InvalidArgument, NotSupported.
  destruct (FindFactory type r target) as [factory|].
  - destruct (factory now target) as [[[o|] [g|]] msg]; cbn -[Status_code_msgs ok];
      try destruct (string_size msg =? 0); rewrite ?ok_codes;
      change (ok OK) with true; cbn -[Status_code_msgs]; by rewrite ?code_of.
  - cbn -[Status_code_msgs ok]. rewrite ok_codes. cbn -[Status_code_msgs]. by rewrite code_of.
Qed.

(** What the parent has under an id. *)
Definition in_parent (alive : Obj → bool) (r : ObjectRegistry) (id : bytes) : option Obj :=
  match parent_ r with Some p => GetManagedObject alive p type id | None => None end.

(** The live object under an id, among the registry's own. *)
Definition own_object (alive : Obj → bool) (r : ObjectRegistry) (id : bytes) : option Obj :=
  match map_find (managed_objects_ r) (ToManagedObjectKey type id) with
  | Some o => if alive o then Some o else None
  | None => None
  end.

Lemma managed_hit alive r now id result cfunc c :
  in_parent alive r id = None → own_object alive r id = Some c →
  GetOrCreateManagedObject type alive r now id result cfunc = (r, now, OK, Some c).
Proof.
  unfold in_parent, own_object, GetOrCreateManagedObject. intros -> H.
  destruct (map_find _ _); [|done]. by destruct (alive _); simplify_eq.
Qed.

(** The managed objects after a new object [c] was created for [id]. *)
Definition add_managed (m : managed_map) (id : bytes) (c : Obj) : managed_map :=
  let m := if negb (bool_decide (id = oname c))
           then managed_set m (ToManagedObjectKey type id) c else m in
  if negb (bool_decide (id = oid c)) && negb (bool_decide (oid c = oname c))
  then managed_set m (ToManagedObjectKey type (oid c)) c else m.

Lemma managed_miss alive r now id result cfunc r' n s c :
  in_parent alive r id = None → own_object alive r id = None →
  GetOrCreateManagedObject type alive r now id result cfunc = (r', n, s, Some c) → ok s = true →
  r' = mkRegistry (libraries_ r) (add_managed (managed_objects_ r) id c) (parent_ r).
Proof.
  unfold in_parent, own_object, GetOrCreateManagedObject. intros -> H.
  assert (Hs : ∀ t (o o' : option Obj) (n' : nat), registry_NewSharedObject type r now id None = (t, o, n')
                → ok t = true → is_Some o).
  { unfold registry_NewSharedObject. intros t o o' n'.
    destruct (NewObject type r now id None) as [[[t0 p0] [g|]] n0];
      destruct (ok t0) eqn:E; simpl; intros; simplify_eq; try congruence; [done|].
    unfold InvalidArgument in *. by rewrite ok_codes in *. }
  destruct (match map_find (managed_objects_ r) (ToManagedObjectKey type id) with
            | Some o => if alive o then Some o else None | None => None end); [done|].
  destruct (registry_NewSharedObject type r now id None) as [[t o] n'] eqn:EN.
  destruct (ok t) eqn:Et; [|intros; simplify_eq; congruence].
  destruct (Hs _ _ None _ eq_refl Et) as [o0 ->].
  destruct (match cfunc with Some f => f o0 | None => (t, o0) end) as [s1 c1].
  destruct (ok s1) eqn:Es1; intros; simplify_eq; [done|congruence].
Qed.

(** Managed objects, with none of that id in the parent.  A successful call
    for an id that is not the class name of the object gives the object that
    every later call with that id returns, with the registry unchanged and no
    object created, as long as it is alive.  For an object whose id is its class
    name nothing is stored, so that the next call creates another one. *)
Theorem managed_single_instance alive alive' r now now' id result result' cfunc cfunc' r' n s c :
  in_parent alive r id = None → in_parent alive' r id = None →
  GetOrCreateManagedObject type alive r now id result cfunc = (r', n, s, Some c) →
  ok s = true → alive' c = true →
  (id ≠ oname c →
   GetOrCreateManagedObject type alive' r' now' id result' cfunc' = (r', now', OK, Some c)) ∧
  (id = oname c → oid c = oname c → r' = r).
Proof.
  intros Hp Hp' HC Hs Ha. destruct (own_object alive r id) as [o|] eqn:Eo.
  { rewrite (managed_hit _ _ _ _ _ _ _ Hp Eo) in HC. simplify_eq. split; [|done].
    intros _. apply managed_hit; [done|]. unfold own_object in *.
    destruct (map_find _ _) as [o|]; [|done]. destruct (alive o); simplify_eq. by rewrite Ha. }
  pose proof (managed_miss _ _ _ _ _ _ _ _ _ _ Hp Eo HC Hs) as ->. unfold add_managed. split.
  - intros Hne. apply managed_hit; [done|]. unfold own_object. simpl.
    rewrite (bool_decide_false _ Hne). simpl.
    case_bool_decide as E1; simpl; [by rewrite find_set_eq, Ha|].
    case_bool_decide; simpl; [by rewrite find_set_eq, Ha|].
    rewrite find_set_ne, find_set_eq, Ha; [done|]. intros E%key_inj. congruence.
  - intros -> E. rewrite !bool_decide_true by congruence. by destruct r.
Qed.

End RegistryCorrect.

(** ** A concrete registry

    One library with one factory of caches, by class name or with an id after
    [@]; the objects differ in their addresses. *)
Definition example_impl : RegistryImpl := {|
  Matches e target := bool_decide (firstn (length (pname_ e)) target = pname_ e);
  GetManagedObject _ _ _ _ := None;
  SetManagedObject r _ _ _ := (r, OK);
  ListManagedObjects _ _ _ _ := (OK, []);
  GetOptionsMap _ _ v := (OK, v, []);
  ConfigureNewObject _ o _ := (OK, o);
  ConfigureFromMap _ o _ := (OK, o);
|}.

Definition example_factory : FactoryFunc := λ now target,
  let o := mkObj (Z.of_nat now) (lit "LRU") target in (Some o, Some o, []).

Definition example_registry : ObjectRegistry :=
  AddLibrary (ObjectRegistry_new None)
    (AddFactory_entry (ObjectLibrary_new (lit "lib")) (lit "Cache") (AsIndividualId (lit "LRU"))
       example_factory).

#[local] Existing Instance example_impl.

Lemma managed_single_instance_witness :
  (∀ alive now', alive (mkObj 5 (lit "LRU") (lit "LRU@1")) = true → 
   GetOrCreateManagedObject (SI := concrete_impl) (lit "Cache") alive
     (mkRegistry (libraries_ example_registry)
        [(lit "Cache://LRU@1", mkObj 5 (lit "LRU") (lit "LRU@1"))] None) now' (lit "LRU@1") None None
   = (mkRegistry (libraries_ example_registry)
        [(lit "Cache://LRU@1", mkObj 5 (lit "LRU") (lit "LRU@1"))] None, now', OK,
      Some (mkObj 5 (lit "LRU") (lit "LRU@1")))) ∧
  (λ p : _ * _ * _ * option Obj, p.2) <$>
    [GetOrCreateManagedObject (SI := concrete_impl) (lit "Cache") (λ _, true) example_registry 5 (lit "LRU") None None;
     GetOrCreateManagedObject (SI := concrete_impl) (lit "Cache") (λ _, true) example_registry 6 (lit "LRU") None None]
  = [Some (mkObj 5 (lit "LRU") (lit "LRU")); Some (mkObj 6 (lit "LRU") (lit "LRU"))].
Proof.
  split; [|by vm_compute]. intros alive now' Ha.
  refine (proj1 (managed_single_instance (SI := concrete_impl) (lit "Cache") (λ _, true) alive example_registry 5 now'
    (lit "LRU@1") None None None None _ 6 OK (mkObj 5 (lit "LRU") (lit "LRU@1")) _ _ _ _ Ha) _);
    by vm_compute.
Defined.

Lemma creation_outcomes_witness :
  [outcome (registry_NewUniqueObject (SI := concrete_impl) (lit "Cache") example_registry 3 (lit "LRU") None);
   outcome (registry_NewSharedObject (SI := concrete_impl) (lit "Cache") example_registry 3 (lit "LRU") None);
   outcome (registry_NewStaticObject (SI := concrete_impl) (lit "Cache") example_registry 3 (lit "LRU") None)]
  = [(kOk, Some (mkObj 3 (lit "LRU") (lit "LRU")), 4%nat);
     (kOk, Some (mkObj 3 (lit "LRU") (lit "LRU")), 4%nat); (kInvalidArgument, None, 4%nat)].
Proof.
  exact (creation_outcomes (SI := concrete_impl) (lit "Cache") example_registry 3 (lit "LRU") None).
Defined.
