(* ===== verification/Options.v ===== *)
(** * Option structs (libs/rocksdb/options.h, advanced_options.h, table.h, ...)

    The structs with which a client opens and uses a database, as the headers
    declare them: the enums with the values of their enumerators, and the structs
    with the values their initialisers and constructors give.  A long struct is a
    record of records, one for each run of members in the order of the source, and
    has a module of its own, because the structs share names of members.

    A pointer or a function object is an address, [None] when it is null or empty; a [double] is a rational
    number.  [members] lists the members of a struct with their C++ types, and
    [documented] what the comments of the header say the default of a member is.
    The theorems compare the two, show that every default fits the type of its
    member, and that the default options meet what the comments require of
    combinations of options.

    The constructors [DBOptions()], [ColumnFamilyOptions()] and
    [AdvancedColumnFamilyOptions()] are defined in the compiled library: what they
    set beyond the initialisers, and the objects of the library that the
    initialisers name, are fields of the class [Library]. *)

From stdpp Require Import base list gmap strings.
From Stdlib Require Import ZArith QArith Qround Lia.
From S2P Require Import Prelude Slice Status EnumSet Scan Virtual FileSystem Env Wrappers Txn.

Open Scope Z_scope.

(** ** Values of members *)

(** A member of a struct with what its type says about it: an integer has its sign
    and its width, an enumerator its value, a container the number of elements. *)
Inductive value :=
| VBool (b : bool)
| VInt (signed : bool) (bits : Z) (n : Z)
| VReal (q : Q)
| VPtr (p : option Z)
| VEnum (n : Z)
| VText (s : bytes)
| VSize (n : Z).

(** What a comment names as a default. *)
Inductive doc :=
| DBool (b : bool)
| DNum (n : Z)
| DReal (q : Q)
| DNull
| DEnum (n : Z)
| DEmpty.

Definition documents (d : doc) (v : value) : bool :=
  match d, v with
  | DBool a, VBool b => eqb a b
  | DNum n, VInt _ _ z => n =? z
  | DReal p, VReal q => Qeq_bool p q
  | DNull, VPtr None => true
  | DEnum n, VEnum z => n =? z
  | DEmpty, VText [] | DEmpty, VPtr None => true
  | DEmpty, VSize n => n =? 0
  | _, _ => false
  end.

Definition fits (v : value) : bool :=
  match v with
  | VInt true w n => (- 2 ^ (w - 1) <=? n) && (n <? 2 ^ (w - 1))
  | VInt false w n => (0 <=? n) && (n <? 2 ^ w)
  | _ => true
  end.

Definition list_size {A} (l : list A) : value := VSize (Z.of_nat (length l)).
Definition opt_size {A} (o : option A) : value := VSize (if o then 1 else 0).
Definition enum_set_size (kMaxValue : Z) (s : StateT) : value := VSize (Z.of_nat (length (members kMaxValue s))).
Definition nested (name : string) (ms : list (string * value)) : list (string * value) :=
  (λ '(n, v), (name +:+ "." +:+ n, v)) <$> ms.

Fixpoint member (n : string) (ms : list (string * value)) : option value :=
  match ms with
  | [] => None
  | (m, v) :: rest => if String.eqb m n then Some v else member n rest
  end.

(** ** Enums *)

(** *** compression_type.h *)

Inductive CompressionType :=
| kNoCompression | kSnappyCompression | kZlibCompression | kBZip2Compression | kLZ4Compression
| kLZ4HCCompression | kXpressCompression | kZSTD | kCustomCompression80 | kCustomCompression81
| kCustomCompression82 | kCustomCompression83 | kCustomCompression84 | kCustomCompression85
| kCustomCompression86 | kCustomCompression87 | kCustomCompression88 | kCustomCompression89
| kCustomCompression8A | kCustomCompression8B | kCustomCompression8C | kCustomCompression8D
| kCustomCompression8E | kCustomCompression8F | kCustomCompression90 | kCustomCompression91
| kCustomCompression92 | kCustomCompression93 | kCustomCompression94 | kCustomCompression95
| kCustomCompression96 | kCustomCompression97 | kCustomCompression98 | kCustomCompression99
| kCustomCompression9A | kCustomCompression9B | kCustomCompression9C | kCustomCompression9D
| kCustomCompression9E | kCustomCompression9F | kCustomCompressionA0 | kCustomCompressionA1
| kCustomCompressionA2 | kCustomCompressionA3 | kCustomCompressionA4 | kCustomCompressionA5
| kCustomCompressionA6 | kCustomCompressionA7 | kCustomCompressionA8 | kCustomCompressionA9
| kCustomCompressionAA | kCustomCompressionAB | kCustomCompressionAC | kCustomCompressionAD
| kCustomCompressionAE | kCustomCompressionAF | kCustomCompressionB0 | kCustomCompressionB1
| kCustomCompressionB2 | kCustomCompressionB3 | kCustomCompressionB4 | kCustomCompressionB5
| kCustomCompressionB6 | kCustomCompressionB7 | kCustomCompressionB8 | kCustomCompressionB9
| kCustomCompressionBA | kCustomCompressionBB | kCustomCompressionBC | kCustomCompressionBD
| kCustomCompressionBE | kCustomCompressionBF | kCustomCompressionC0 | kCustomCompressionC1
| kCustomCompressionC2 | kCustomCompressionC3 | kCustomCompressionC4 | kCustomCompressionC5
| kCustomCompressionC6 | kCustomCompressionC7 | kCustomCompressionC8 | kCustomCompressionC9
| kCustomCompressionCA | kCustomCompressionCB | kCustomCompressionCC | kCustomCompressionCD
| kCustomCompressionCE | kCustomCompressionCF | kCustomCompressionD0 | kCustomCompressionD1
| kCustomCompressionD2 | kCustomCompressionD3 | kCustomCompressionD4 | kCustomCompressionD5
| kCustomCompressionD6 | kCustomCompressionD7 | kCustomCompressionD8 | kCustomCompressionD9
| kCustomCompressionDA | kCustomCompressionDB | kCustomCompressionDC | kCustomCompressionDD
| kCustomCompressionDE | kCustomCompressionDF | kCustomCompressionE0 | kCustomCompressionE1
| kCustomCompressionE2 | kCustomCompressionE3 | kCustomCompressionE4 | kCustomCompressionE5
| kCustomCompressionE6 | kCustomCompressionE7 | kCustomCompressionE8 | kCustomCompressionE9
| kCustomCompressionEA | kCustomCompressionEB | kCustomCompressionEC | kCustomCompressionED
| kCustomCompressionEE | kCustomCompressionEF | kCustomCompressionF0 | kCustomCompressionF1
| kCustomCompressionF2 | kCustomCompressionF3 | kCustomCompressionF4 | kCustomCompressionF5
| kCustomCompressionF6 | kCustomCompressionF7 | kCustomCompressionF8 | kCustomCompressionF9
| kCustomCompressionFA | kCustomCompressionFB | kCustomCompressionFC | kCustomCompressionFD
| kCustomCompressionFE | kDisableCompressionOption.
Definition CompressionType_value (x : CompressionType) : Z :=
  match x with
  | kNoCompression => 0 | kSnappyCompression => 1 | kZlibCompression => 2 | kBZip2Compression => 3
  | kLZ4Compression => 4 | kLZ4HCCompression => 5 | kXpressCompression => 6 | kZSTD => 7
  | kCustomCompression80 => 128 | kCustomCompression81 => 129 | kCustomCompression82 => 130
  | kCustomCompression83 => 131 | kCustomCompression84 => 132 | kCustomCompression85 => 133
  | kCustomCompression86 => 134 | kCustomCompression87 => 135 | kCustomCompression88 => 136
  | kCustomCompression89 => 137 | kCustomCompression8A => 138 | kCustomCompression8B => 139
  | kCustomCompression8C => 140 | kCustomCompression8D => 141 | kCustomCompression8E => 142
  | kCustomCompression8F => 143 | kCustomCompression90 => 144 | kCustomCompression91 => 145
  | kCustomCompression92 => 146 | kCustomCompression93 => 147 | kCustomCompression94 => 148
  | kCustomCompression95 => 149 | kCustomCompression96 => 150 | kCustomCompression97 => 151
  | kCustomCompression98 => 152 | kCustomCompression99 => 153 | kCustomCompression9A => 154
  | kCustomCompression9B => 155 | kCustomCompression9C => 156 | kCustomCompression9D => 157
  | kCustomCompression9E => 158 | kCustomCompression9F => 159 | kCustomCompressionA0 => 160
  | kCustomCompressionA1 => 161 | kCustomCompressionA2 => 162 | kCustomCompressionA3 => 163
  | kCustomCompressionA4 => 164 | kCustomCompressionA5 => 165 | kCustomCompressionA6 => 166
  | kCustomCompressionA7 => 167 | kCustomCompressionA8 => 168 | kCustomCompressionA9 => 169
  | kCustomCompressionAA => 170 | kCustomCompressionAB => 171 | kCustomCompressionAC => 172
  | kCustomCompressionAD => 173 | kCustomCompressionAE => 174 | kCustomCompressionAF => 175
  | kCustomCompressionB0 => 176 | kCustomCompressionB1 => 177 | kCustomCompressionB2 => 178
  | kCustomCompressionB3 => 179 | kCustomCompressionB4 => 180 | kCustomCompressionB5 => 181
  | kCustomCompressionB6 => 182 | kCustomCompressionB7 => 183 | kCustomCompressionB8 => 184
  | kCustomCompressionB9 => 185 | kCustomCompressionBA => 186 | kCustomCompressionBB => 187
  | kCustomCompressionBC => 188 | kCustomCompressionBD => 189 | kCustomCompressionBE => 190
  | kCustomCompressionBF => 191 | kCustomCompressionC0 => 192 | kCustomCompressionC1 => 193
  | kCustomCompressionC2 => 194 | kCustomCompressionC3 => 195 | kCustomCompressionC4 => 196
  | kCustomCompressionC5 => 197 | kCustomCompressionC6 => 198 | kCustomCompressionC7 => 199
  | kCustomCompressionC8 => 200 | kCustomCompressionC9 => 201 | kCustomCompressionCA => 202
  | kCustomCompressionCB => 203 | kCustomCompressionCC => 204 | kCustomCompressionCD => 205
  | kCustomCompressionCE => 206 | kCustomCompressionCF => 207 | kCustomCompressionD0 => 208
  | kCustomCompressionD1 => 209 | kCustomCompressionD2 => 210 | kCustomCompressionD3 => 211
  | kCustomCompressionD4 => 212 | kCustomCompressionD5 => 213 | kCustomCompressionD6 => 214
  | kCustomCompressionD7 => 215 | kCustomCompressionD8 => 216 | kCustomCompressionD9 => 217
  | kCustomCompressionDA => 218 | kCustomCompressionDB => 219 | kCustomCompressionDC => 220
  | kCustomCompressionDD => 221 | kCustomCompressionDE => 222 | kCustomCompressionDF => 223
  | kCustomCompressionE0 => 224 | kCustomCompressionE1 => 225 | kCustomCompressionE2 => 226
  | kCustomCompressionE3 => 227 | kCustomCompressionE4 => 228 | kCustomCompressionE5 => 229
  | kCustomCompressionE6 => 230 | kCustomCompressionE7 => 231 | kCustomCompressionE8 => 232
  | kCustomCompressionE9 => 233 | kCustomCompressionEA => 234 | kCustomCompressionEB => 235
  | kCustomCompressionEC => 236 | kCustomCompressionED => 237 | kCustomCompressionEE => 238
  | kCustomCompressionEF => 239 | kCustomCompressionF0 => 240 | kCustomCompressionF1 => 241
  | kCustomCompressionF2 => 242 | kCustomCompressionF3 => 243 | kCustomCompressionF4 => 244
  | kCustomCompressionF5 => 245 | kCustomCompressionF6 => 246 | kCustomCompressionF7 => 247
  | kCustomCompressionF8 => 248 | kCustomCompressionF9 => 249 | kCustomCompressionFA => 250
  | kCustomCompressionFB => 251 | kCustomCompressionFC => 252 | kCustomCompressionFD => 253
  | kCustomCompressionFE => 254 | kDisableCompressionOption => 255
  end.
Definition kLastBuiltinCompression : CompressionType := kZSTD.
Definition kFirstCustomCompression : CompressionType := kCustomCompression80.
Definition kLastCustomCompression : CompressionType := kCustomCompressionFE.
(** The inverse, as the persistent format is read back. *)
Definition CompressionType_of (v : Z) : option CompressionType :=
  match v with
  | 0 => Some kNoCompression | 1 => Some kSnappyCompression | 2 => Some kZlibCompression
  | 3 => Some kBZip2Compression | 4 => Some kLZ4Compression | 5 => Some kLZ4HCCompression
  | 6 => Some kXpressCompression | 7 => Some kZSTD | 128 => Some kCustomCompression80
  | 129 => Some kCustomCompression81 | 130 => Some kCustomCompression82 | 131 => Some kCustomCompression83
  | 132 => Some kCustomCompression84 | 133 => Some kCustomCompression85 | 134 => Some kCustomCompression86
  | 135 => Some kCustomCompression87 | 136 => Some kCustomCompression88 | 137 => Some kCustomCompression89
  | 138 => Some kCustomCompression8A | 139 => Some kCustomCompression8B | 140 => Some kCustomCompression8C
  | 141 => Some kCustomCompression8D | 142 => Some kCustomCompression8E | 143 => Some kCustomCompression8F
  | 144 => Some kCustomCompression90 | 145 => Some kCustomCompression91 | 146 => Some kCustomCompression92
  | 147 => Some kCustomCompression93 | 148 => Some kCustomCompression94 | 149 => Some kCustomCompression95
  | 150 => Some kCustomCompression96 | 151 => Some kCustomCompression97 | 152 => Some kCustomCompression98
  | 153 => Some kCustomCompression99 | 154 => Some kCustomCompression9A | 155 => Some kCustomCompression9B
  | 156 => Some kCustomCompression9C | 157 => Some kCustomCompression9D | 158 => Some kCustomCompression9E
  | 159 => Some kCustomCompression9F | 160 => Some kCustomCompressionA0 | 161 => Some kCustomCompressionA1
  | 162 => Some kCustomCompressionA2 | 163 => Some kCustomCompressionA3 | 164 => Some kCustomCompressionA4
  | 165 => Some kCustomCompressionA5 | 166 => Some kCustomCompressionA6 | 167 => Some kCustomCompressionA7
  | 168 => Some kCustomCompressionA8 | 169 => Some kCustomCompressionA9 | 170 => Some kCustomCompressionAA
  | 171 => Some kCustomCompressionAB | 172 => Some kCustomCompressionAC | 173 => Some kCustomCompressionAD
  | 174 => Some kCustomCompressionAE | 175 => Some kCustomCompressionAF | 176 => Some kCustomCompressionB0
  | 177 => Some kCustomCompressionB1 | 178 => Some kCustomCompressionB2 | 179 => Some kCustomCompressionB3
  | 180 => Some kCustomCompressionB4 | 181 => Some kCustomCompressionB5 | 182 => Some kCustomCompressionB6
  | 183 => Some kCustomCompressionB7 | 184 => Some kCustomCompressionB8 | 185 => Some kCustomCompressionB9
  | 186 => Some kCustomCompressionBA | 187 => Some kCustomCompressionBB | 188 => Some kCustomCompressionBC
  | 189 => Some kCustomCompressionBD | 190 => Some kCustomCompressionBE | 191 => Some kCustomCompressionBF
  | 192 => Some kCustomCompressionC0 | 193 => Some kCustomCompressionC1 | 194 => Some kCustomCompressionC2
  | 195 => Some kCustomCompressionC3 | 196 => Some kCustomCompressionC4 | 197 => Some kCustomCompressionC5
  | 198 => Some kCustomCompressionC6 | 199 => Some kCustomCompressionC7 | 200 => Some kCustomCompressionC8
  | 201 => Some kCustomCompressionC9 | 202 => Some kCustomCompressionCA | 203 => Some kCustomCompressionCB
  | 204 => Some kCustomCompressionCC | 205 => Some kCustomCompressionCD | 206 => Some kCustomCompressionCE
  | 207 => Some kCustomCompressionCF | 208 => Some kCustomCompressionD0 | 209 => Some kCustomCompressionD1
  | 210 => Some kCustomCompressionD2 | 211 => Some kCustomCompressionD3 | 212 => Some kCustomCompressionD4
  | 213 => Some kCustomCompressionD5 | 214 => Some kCustomCompressionD6 | 215 => Some kCustomCompressionD7
  | 216 => Some kCustomCompressionD8 | 217 => Some kCustomCompressionD9 | 218 => Some kCustomCompressionDA
  | 219 => Some kCustomCompressionDB | 220 => Some kCustomCompressionDC | 221 => Some kCustomCompressionDD
  | 222 => Some kCustomCompressionDE | 223 => Some kCustomCompressionDF | 224 => Some kCustomCompressionE0
  | 225 => Some kCustomCompressionE1 | 226 => Some kCustomCompressionE2 | 227 => Some kCustomCompressionE3
  | 228 => Some kCustomCompressionE4 | 229 => Some kCustomCompressionE5 | 230 => Some kCustomCompressionE6
  | 231 => Some kCustomCompressionE7 | 232 => Some kCustomCompressionE8 | 233 => Some kCustomCompressionE9
  | 234 => Some kCustomCompressionEA | 235 => Some kCustomCompressionEB | 236 => Some kCustomCompressionEC
  | 237 => Some kCustomCompressionED | 238 => Some kCustomCompressionEE | 239 => Some kCustomCompressionEF
  | 240 => Some kCustomCompressionF0 | 241 => Some kCustomCompressionF1 | 242 => Some kCustomCompressionF2
  | 243 => Some kCustomCompressionF3 | 244 => Some kCustomCompressionF4 | 245 => Some kCustomCompressionF5
  | 246 => Some kCustomCompressionF6 | 247 => Some kCustomCompressionF7 | 248 => Some kCustomCompressionF8
  | 249 => Some kCustomCompressionF9 | 250 => Some kCustomCompressionFA | 251 => Some kCustomCompressionFB
  | 252 => Some kCustomCompressionFC | 253 => Some kCustomCompressionFD | 254 => Some kCustomCompressionFE
  | 255 => Some kDisableCompressionOption | _ => None
  end.

(** *** universal_compaction.h *)

Inductive CompactionStopStyle :=
| kCompactionStopStyleSimilarSize | kCompactionStopStyleTotalSize.
Definition CompactionStopStyle_value (x : CompactionStopStyle) : Z :=
  match x with
  | kCompactionStopStyleSimilarSize => 0 | kCompactionStopStyleTotalSize => 1
  end.

(** *** advanced_options.h *)

Inductive CompactionStyle :=
| kCompactionStyleLevel | kCompactionStyleUniversal | kCompactionStyleFIFO | kCompactionStyleNone.
Definition CompactionStyle_value (x : CompactionStyle) : Z :=
  match x with
  | kCompactionStyleLevel => 0 | kCompactionStyleUniversal => 1 | kCompactionStyleFIFO => 2
  | kCompactionStyleNone => 3
  end.

Inductive CompactionPri :=
| kByCompensatedSize | kOldestLargestSeqFirst | kOldestSmallestSeqFirst | kMinOverlappingRatio | kRoundRobin.
Definition CompactionPri_value (x : CompactionPri) : Z :=
  match x with
  | kByCompensatedSize => 0 | kOldestLargestSeqFirst => 1 | kOldestSmallestSeqFirst => 2
  | kMinOverlappingRatio => 3 | kRoundRobin => 4
  end.

Definition CacheTier_value (x : CacheTier) : Z :=
  match x with
  | kVolatileTier => 0 | kVolatileCompressedTier => 1 | kNonVolatileBlockTier => 2
  end.

Inductive UpdateStatus :=
| UPDATE_FAILED | UPDATED_INPLACE | UPDATED.
Definition UpdateStatus_value (x : UpdateStatus) : Z :=
  match x with
  | UPDATE_FAILED => 0 | UPDATED_INPLACE => 1 | UPDATED => 2
  end.

Inductive PrepopulateBlobCache :=
| PrepopulateBlobCache_kDisable | PrepopulateBlobCache_kFlushOnly.
Definition PrepopulateBlobCache_value (x : PrepopulateBlobCache) : Z :=
  match x with
  | PrepopulateBlobCache_kDisable => 0 | PrepopulateBlobCache_kFlushOnly => 1
  end.

(** *** options.h *)

Inductive WALRecoveryMode :=
| WALRecoveryMode_kTolerateCorruptedTailRecords | WALRecoveryMode_kAbsoluteConsistency
| WALRecoveryMode_kPointInTimeRecovery | WALRecoveryMode_kSkipAnyCorruptedRecords.
Definition WALRecoveryMode_value (x : WALRecoveryMode) : Z :=
  match x with
  | WALRecoveryMode_kTolerateCorruptedTailRecords => 0 | WALRecoveryMode_kAbsoluteConsistency => 1
  | WALRecoveryMode_kPointInTimeRecovery => 2 | WALRecoveryMode_kSkipAnyCorruptedRecords => 3
  end.

Inductive CompactionServiceJobStatus :=
| CompactionServiceJobStatus_kSuccess | CompactionServiceJobStatus_kFailure
| CompactionServiceJobStatus_kAborted | CompactionServiceJobStatus_kUseLocal.
Definition CompactionServiceJobStatus_value (x : CompactionServiceJobStatus) : Z :=
  match x with
  | CompactionServiceJobStatus_kSuccess => 0 | CompactionServiceJobStatus_kFailure => 1
  | CompactionServiceJobStatus_kAborted => 2 | CompactionServiceJobStatus_kUseLocal => 3
  end.

Definition ReadTier_value (x : ReadTier) : Z :=
  match x with
  | kReadAllTier => 0 | kBlockCacheTier => 1 | kPersistedTier => 2 | kMemtableTier => 3
  end.

Inductive BottommostLevelCompaction :=
| BottommostLevelCompaction_kSkip | BottommostLevelCompaction_kIfHaveCompactionFilter
| BottommostLevelCompaction_kForce | BottommostLevelCompaction_kForceOptimized.
Definition BottommostLevelCompaction_value (x : BottommostLevelCompaction) : Z :=
  match x with
  | BottommostLevelCompaction_kSkip => 0 | BottommostLevelCompaction_kIfHaveCompactionFilter => 1
  | BottommostLevelCompaction_kForce => 2 | BottommostLevelCompaction_kForceOptimized => 3
  end.

Inductive BlobGarbageCollectionPolicy :=
| BlobGarbageCollectionPolicy_kForce | BlobGarbageCollectionPolicy_kDisable
| BlobGarbageCollectionPolicy_kUseDefault.
Definition BlobGarbageCollectionPolicy_value (x : BlobGarbageCollectionPolicy) : Z :=
  match x with
  | BlobGarbageCollectionPolicy_kForce => 0 | BlobGarbageCollectionPolicy_kDisable => 1
  | BlobGarbageCollectionPolicy_kUseDefault => 2
  end.

(** *** table.h *)

Inductive ChecksumType :=
| kNoChecksum | kCRC32c | kxxHash | kxxHash64 | kXXH3.
Definition ChecksumType_value (x : ChecksumType) : Z :=
  match x with
  | kNoChecksum => 0 | kCRC32c => 1 | kxxHash => 2 | kxxHash64 => 3 | kXXH3 => 4
  end.

Inductive PinningTier :=
| PinningTier_kFallback | PinningTier_kNone | PinningTier_kFlushedAndSimilar | PinningTier_kAll.
Definition PinningTier_value (x : PinningTier) : Z :=
  match x with
  | PinningTier_kFallback => 0 | PinningTier_kNone => 1 | PinningTier_kFlushedAndSimilar => 2
  | PinningTier_kAll => 3
  end.

Inductive ChargeDecision :=
| ChargeDecision_kEnabled | ChargeDecision_kDisabled | ChargeDecision_kFallback.
Definition ChargeDecision_value (x : ChargeDecision) : Z :=
  match x with
  | ChargeDecision_kEnabled => 0 | ChargeDecision_kDisabled => 1 | ChargeDecision_kFallback => 2
  end.

Inductive IndexType :=
| kBinarySearch | kHashSearch | kTwoLevelIndexSearch | kBinarySearchWithFirstKey.
Definition IndexType_value (x : IndexType) : Z :=
  match x with
  | kBinarySearch => 0 | kHashSearch => 1 | kTwoLevelIndexSearch => 2 | kBinarySearchWithFirstKey => 3
  end.

Inductive DataBlockIndexType :=
| kDataBlockBinarySearch | kDataBlockBinaryAndHash.
Definition DataBlockIndexType_value (x : DataBlockIndexType) : Z :=
  match x with
  | kDataBlockBinarySearch => 0 | kDataBlockBinaryAndHash => 1
  end.

Inductive IndexShorteningMode :=
| IndexShorteningMode_kNoShortening | IndexShorteningMode_kShortenSeparators
| IndexShorteningMode_kShortenSeparatorsAndSuccessor.
Definition IndexShorteningMode_value (x : IndexShorteningMode) : Z :=
  match x with
  | IndexShorteningMode_kNoShortening => 0 | IndexShorteningMode_kShortenSeparators => 1
  | IndexShorteningMode_kShortenSeparatorsAndSuccessor => 2
  end.

Inductive PrepopulateBlockCache :=
| PrepopulateBlockCache_kDisable | PrepopulateBlockCache_kFlushOnly.
Definition PrepopulateBlockCache_value (x : PrepopulateBlockCache) : Z :=
  match x with
  | PrepopulateBlockCache_kDisable => 0 | PrepopulateBlockCache_kFlushOnly => 1
  end.

Inductive EncodingType :=
| kPlain | kPrefix.
Definition EncodingType_value (x : EncodingType) : Z :=
  match x with
  | kPlain => 0 | kPrefix => 1
  end.

(** *** listener.h *)

Inductive CompactionReason :=
| CompactionReason_kUnknown | CompactionReason_kLevelL0FilesNum | CompactionReason_kLevelMaxLevelSize
| CompactionReason_kUniversalSizeAmplification | CompactionReason_kUniversalSizeRatio
| CompactionReason_kUniversalSortedRunNum | CompactionReason_kFIFOMaxSize | CompactionReason_kFIFOReduceNumFiles
| CompactionReason_kFIFOTtl | CompactionReason_kManualCompaction | CompactionReason_kFilesMarkedForCompaction
| CompactionReason_kBottommostFiles | CompactionReason_kTtl | CompactionReason_kFlush
| CompactionReason_kExternalSstIngestion | CompactionReason_kPeriodicCompaction
| CompactionReason_kChangeTemperature | CompactionReason_kForcedBlobGC | CompactionReason_kRoundRobinTtl
| CompactionReason_kRefitLevel | CompactionReason_kNumOfReasons.
Definition CompactionReason_value (x : CompactionReason) : Z :=
  match x with
  | CompactionReason_kUnknown => 0 | CompactionReason_kLevelL0FilesNum => 1
  | CompactionReason_kLevelMaxLevelSize => 2 | CompactionReason_kUniversalSizeAmplification => 3
  | CompactionReason_kUniversalSizeRatio => 4 | CompactionReason_kUniversalSortedRunNum => 5
  | CompactionReason_kFIFOMaxSize => 6 | CompactionReason_kFIFOReduceNumFiles => 7
  | CompactionReason_kFIFOTtl => 8 | CompactionReason_kManualCompaction => 9
  | CompactionReason_kFilesMarkedForCompaction => 10 | CompactionReason_kBottommostFiles => 11
  | CompactionReason_kTtl => 12 | CompactionReason_kFlush => 13 | CompactionReason_kExternalSstIngestion => 14
  | CompactionReason_kPeriodicCompaction => 15 | CompactionReason_kChangeTemperature => 16
  | CompactionReason_kForcedBlobGC => 17 | CompactionReason_kRoundRobinTtl => 18
  | CompactionReason_kRefitLevel => 19 | CompactionReason_kNumOfReasons => 20
  end.

Inductive FlushReason :=
| FlushReason_kOthers | FlushReason_kGetLiveFiles | FlushReason_kShutDown | FlushReason_kExternalFileIngestion
| FlushReason_kManualCompaction | FlushReason_kWriteBufferManager | FlushReason_kWriteBufferFull
| FlushReason_kTest | FlushReason_kDeleteFiles | FlushReason_kAutoCompaction | FlushReason_kManualFlush
| FlushReason_kErrorRecovery | FlushReason_kErrorRecoveryRetryFlush | FlushReason_kWalFull
| FlushReason_kCatchUpAfterErrorRecovery.
Definition FlushReason_value (x : FlushReason) : Z :=
  match x with
  | FlushReason_kOthers => 0 | FlushReason_kGetLiveFiles => 1 | FlushReason_kShutDown => 2
  | FlushReason_kExternalFileIngestion => 3 | FlushReason_kManualCompaction => 4
  | FlushReason_kWriteBufferManager => 5 | FlushReason_kWriteBufferFull => 6 | FlushReason_kTest => 7
  | FlushReason_kDeleteFiles => 8 | FlushReason_kAutoCompaction => 9 | FlushReason_kManualFlush => 10
  | FlushReason_kErrorRecovery => 11 | FlushReason_kErrorRecoveryRetryFlush => 12 | FlushReason_kWalFull => 13
  | FlushReason_kCatchUpAfterErrorRecovery => 14
  end.

Inductive BackgroundErrorReason :=
| BackgroundErrorReason_kFlush | BackgroundErrorReason_kCompaction | BackgroundErrorReason_kWriteCallback
| BackgroundErrorReason_kMemTable | BackgroundErrorReason_kManifestWrite | BackgroundErrorReason_kFlushNoWAL
| BackgroundErrorReason_kManifestWriteNoWAL.
Definition BackgroundErrorReason_value (x : BackgroundErrorReason) : Z :=
  match x with
  | BackgroundErrorReason_kFlush => 0 | BackgroundErrorReason_kCompaction => 1
  | BackgroundErrorReason_kWriteCallback => 2 | BackgroundErrorReason_kMemTable => 3
  | BackgroundErrorReason_kManifestWrite => 4 | BackgroundErrorReason_kFlushNoWAL => 5
  | BackgroundErrorReason_kManifestWriteNoWAL => 6
  end.

Inductive FileOperationType :=
| FileOperationType_kRead | FileOperationType_kWrite | FileOperationType_kTruncate | FileOperationType_kClose
| FileOperationType_kFlush | FileOperationType_kSync | FileOperationType_kFsync | FileOperationType_kRangeSync
| FileOperationType_kAppend | FileOperationType_kPositionedAppend | FileOperationType_kOpen
| FileOperationType_kVerify.
Definition FileOperationType_value (x : FileOperationType) : Z :=
  match x with
  | FileOperationType_kRead => 0 | FileOperationType_kWrite => 1 | FileOperationType_kTruncate => 2
  | FileOperationType_kClose => 3 | FileOperationType_kFlush => 4 | FileOperationType_kSync => 5
  | FileOperationType_kFsync => 6 | FileOperationType_kRangeSync => 7 | FileOperationType_kAppend => 8
  | FileOperationType_kPositionedAppend => 9 | FileOperationType_kOpen => 10 | FileOperationType_kVerify => 11
  end.

(** *** env.h *)

Inductive IOPriority :=
| IO_LOW | IO_MID | IO_HIGH | IO_USER | IO_TOTAL.
Definition IOPriority_value (x : IOPriority) : Z :=
  match x with
  | IO_LOW => 0 | IO_MID => 1 | IO_HIGH => 2 | IO_USER => 3 | IO_TOTAL => 4
  end.

(** *** utilities/transaction_db.h *)

Inductive TxnDBWritePolicy :=
| WRITE_COMMITTED | WRITE_PREPARED | WRITE_UNPREPARED.
Definition TxnDBWritePolicy_value (x : TxnDBWritePolicy) : Z :=
  match x with
  | WRITE_COMMITTED => 0 | WRITE_PREPARED => 1 | WRITE_UNPREPARED => 2
  end.

(** *** utilities/optimistic_transaction_db.h *)

Inductive OccValidationPolicy :=
| OccValidationPolicy_kValidateSerial | OccValidationPolicy_kValidateParallel.
Definition OccValidationPolicy_value (x : OccValidationPolicy) : Z :=
  match x with
  | OccValidationPolicy_kValidateSerial => 0 | OccValidationPolicy_kValidateParallel => 1
  end.

(** *** perf_level.h *)

Inductive PerfLevel :=
| PerfLevel_kUninitialized | PerfLevel_kDisable | PerfLevel_kEnableCount | PerfLevel_kEnableWait
| PerfLevel_kEnableTimeExceptForMutex | PerfLevel_kEnableTimeAndCPUTimeExceptForMutex | PerfLevel_kEnableTime
| PerfLevel_kOutOfBounds.
Definition PerfLevel_value (x : PerfLevel) : Z :=
  match x with
  | PerfLevel_kUninitialized => 0 | PerfLevel_kDisable => 1 | PerfLevel_kEnableCount => 2
  | PerfLevel_kEnableWait => 3 | PerfLevel_kEnableTimeExceptForMutex => 4
  | PerfLevel_kEnableTimeAndCPUTimeExceptForMutex => 5 | PerfLevel_kEnableTime => 6
  | PerfLevel_kOutOfBounds => 7
  end.

(** *** statistics.h *)

Inductive StatsLevel :=
| kDisableAll | kExceptHistogramOrTimers | kExceptTimers | kExceptDetailedTimers | kExceptTimeForMutex | kAll.
Definition StatsLevel_value (x : StatsLevel) : Z :=
  match x with
  | kDisableAll => 0 | kExceptHistogramOrTimers => 1 | kExceptTimers => 2 | kExceptDetailedTimers => 3
  | kExceptTimeForMutex => 4 | kAll => 5
  end.
Definition kExceptTickers : StatsLevel := kDisableAll.
(** *** env.h and types.h *)

Definition IOActivity_value (x : IOActivity) : Z :=
  match x with
  | kFlush => 0 | kCompaction => 1 | kDBOpen => 2 | kGet => 3 | kMultiGet => 4 | kDBIterator => 5
  | kVerifyDBChecksum => 6 | kVerifyFileChecksums => 7 | kGetEntity => 8 | kMultiGetEntity => 9
  | kGetFileChecksumsFromCurrentManifest => 10 | kUnknownActivity => 11
  end.
Definition InfoLogLevel_value (x : InfoLogLevel) : Z :=
  match x with
  | DEBUG_LEVEL => 0 | INFO_LEVEL => 1 | WARN_LEVEL => 2 | ERROR_LEVEL => 3 | FATAL_LEVEL => 4
  | HEADER_LEVEL => 5 | NUM_INFO_LOG_LEVELS => 6
  end.
Definition Temperature_value (x : Temperature) : Z :=
  match x with
  | kUnknownTemperature => 0 | kHot => 0x04 | kWarm => 0x08 | kCold => 0x0C | kLastTemperature => 0x0D
  end.
Inductive FileType :=
| kWalFile | kDBLockFile | kTableFile | kDescriptorFile | kCurrentFile | kTempFile | kInfoLogFile
| kMetaDatabase | kIdentityFile | kOptionsFile | kBlobFile.
Definition FileType_value (x : FileType) : Z :=
  match x with
  | kWalFile => 0 | kDBLockFile => 1 | kTableFile => 2 | kDescriptorFile => 3 | kCurrentFile => 4
  | kTempFile => 5 | kInfoLogFile => 6 | kMetaDatabase => 7 | kIdentityFile => 8 | kOptionsFile => 9
  | kBlobFile => 10
  end.

Definition activity_field (x : IOActivity) : value := VEnum (IOActivity_value x).
Definition log_level_field (x : InfoLogLevel) : value := VEnum (InfoLogLevel_value x).
Definition temperature_field (x : Temperature) : value := VEnum (Temperature_value x).

(** [SmallEnumSet] of a list of enumerators. *)
Definition enum_set (kMaxValue : Z) (es : list Z) : StateT :=
  default (SmallEnumSet_empty kMaxValue) (SmallEnumSet_of kMaxValue es).

(** ** Constants and small structs *)

Definition kDefaultCompressionLevel : Z := 32767.
Definition kPlainTableVariableLength : Z := 0.
Definition kInitialMaxDeadlocks : Z := 5.

(** [TraceFilterType]. *)
Definition kTraceFilterNone : Z := 0x0.
Definition kTraceFilterGet : Z := Z.shiftl 0x1 0.
Definition kTraceFilterWrite : Z := Z.shiftl 0x1 1.
Definition kTraceFilterIteratorSeek : Z := Z.shiftl 0x1 2.
Definition kTraceFilterIteratorSeekForPrev : Z := Z.shiftl 0x1 3.
Definition kTraceFilterMultiGet : Z := Z.shiftl 0x1 4.

Record DbPath := mkDbPath { path : bytes; target_size : Z }.
Definition DbPath_default : DbPath := mkDbPath [] 0.
Definition DbPath_new (p : bytes) (t : Z) : DbPath := mkDbPath p t.

Record FileTemperatureAge := mkFileTemperatureAge { fta_temperature : Temperature; age : Z }.
Definition FileTemperatureAge_default : FileTemperatureAge := mkFileTemperatureAge kUnknownTemperature 0.

(** [CacheEntryRoleOptions] with its comparison, and [CacheUsageOptions]; a role is
    the value of its enumerator. *)
Record CacheEntryRoleOptions := mkCacheEntryRoleOptions { charged : ChargeDecision }.
Definition CacheEntryRoleOptions_default : CacheEntryRoleOptions := mkCacheEntryRoleOptions ChargeDecision_kFallback.
Definition CacheEntryRoleOptions_eqb (this other : CacheEntryRoleOptions) : bool :=
  ChargeDecision_value (charged this) =? ChargeDecision_value (charged other).
Record CacheUsageOptions := mkCacheUsageOptions {
  role_options : CacheEntryRoleOptions; options_overrides : gmap Z CacheEntryRoleOptions;
}.
Definition CacheUsageOptions_default : CacheUsageOptions := mkCacheUsageOptions CacheEntryRoleOptions_default ∅.
Definition CacheUsageOptions_members (o : CacheUsageOptions) : list (string * value) :=
  [("options.charged", VEnum (ChargeDecision_value (charged (role_options o))));
   ("options_overrides", VSize (Z.of_nat (base.size (options_overrides o))))].

(** What the compiled library provides: the objects and strings that initialisers
    name, and the members without an initialiser that the constructor of
    [ColumnFamilyOptions] sets. *)
Class Library := {
  Env_Default : Z;
  BytewiseComparator : Z;
  new_SkipListFactory : Z;
  kHostnameForDbHostId : bytes;
  kDefaultLogLevel : InfoLogLevel;
  kUnknownColumnFamily : Z;
  constructor_compression : CompressionType;
  constructor_table_factory : option Z;
}.

(** ** Option structs *)

(** [CompressionOptions]. *)
Module Compression.
Record CompressionOptions := mkCompressionOptions {
  window_bits : Z; level : Z; strategy : Z; max_dict_bytes : Z; zstd_max_train_bytes : Z; parallel_threads : Z;
  enabled : bool; max_dict_buffer_bytes : Z; use_zstd_dict_trainer : bool; max_compressed_bytes_per_kb : Z;
  checksum : bool;
}.
Definition CompressionOptions_default : CompressionOptions := {|
  window_bits := (-14); level := kDefaultCompressionLevel; strategy := 0; max_dict_bytes := 0;
  zstd_max_train_bytes := 0; parallel_threads := 1; enabled := false; max_dict_buffer_bytes := 0;
  use_zstd_dict_trainer := true; max_compressed_bytes_per_kb := (1024 * 7 / 8); checksum := false;
|}.
Definition CompressionOptions_members (o : CompressionOptions) : list (string * value) :=
  [("window_bits", VInt true 32 (window_bits o)); ("level", VInt true 32 (level o));
    ("strategy", VInt true 32 (strategy o)); ("max_dict_bytes", VInt false 32 (max_dict_bytes o));
    ("zstd_max_train_bytes", VInt false 32 (zstd_max_train_bytes o));
    ("parallel_threads", VInt false 32 (parallel_threads o)); ("enabled", VBool (enabled o));
    ("max_dict_buffer_bytes", VInt false 64 (max_dict_buffer_bytes o));
    ("use_zstd_dict_trainer", VBool (use_zstd_dict_trainer o));
    ("max_compressed_bytes_per_kb", VInt true 32 (max_compressed_bytes_per_kb o));
    ("checksum", VBool (checksum o))].
End Compression.
Import Compression.

(** [CompactionOptionsUniversal]. *)
Module Universal.
Record CompactionOptionsUniversal := mkCompactionOptionsUniversal {
  size_ratio : Z; min_merge_width : Z; max_merge_width : Z; max_size_amplification_percent : Z;
  compression_size_percent : Z; max_read_amp : Z; stop_style : CompactionStopStyle; allow_trivial_move : bool;
  incremental : bool; reduce_file_locking : bool;
}.
Definition CompactionOptionsUniversal_default : CompactionOptionsUniversal := {|
  size_ratio := 1; min_merge_width := 2; max_merge_width := (2 ^ 32 - 1); max_size_amplification_percent := 200;
  compression_size_percent := (-1); max_read_amp := (-1); stop_style := kCompactionStopStyleTotalSize;
  allow_trivial_move := false; incremental := false; reduce_file_locking := false;
|}.
Definition CompactionOptionsUniversal_members (o : CompactionOptionsUniversal) : list (string * value) :=
  [("size_ratio", VInt false 32 (size_ratio o)); ("min_merge_width", VInt false 32 (min_merge_width o));
    ("max_merge_width", VInt false 32 (max_merge_width o));
    ("max_size_amplification_percent", VInt false 32 (max_size_amplification_percent o));
    ("compression_size_percent", VInt true 32 (compression_size_percent o));
    ("max_read_amp", VInt true 32 (max_read_amp o));
    ("stop_style", VEnum (CompactionStopStyle_value (stop_style o)));
    ("allow_trivial_move", VBool (allow_trivial_move o)); ("incremental", VBool (incremental o));
    ("reduce_file_locking", VBool (reduce_file_locking o))].
Definition CompactionOptionsUniversal_documented : list (string * doc) := [
  ("size_ratio", DNum 1); ("min_merge_width", DNum 2); ("max_merge_width", DNum (2 ^ 32 - 1));
  ("max_size_amplification_percent", DNum 200); ("compression_size_percent", DNum (-1));
  ("max_read_amp", DNum (-1)); ("stop_style", DEnum (CompactionStopStyle_value kCompactionStopStyleTotalSize));
  ("allow_trivial_move", DBool false); ("incremental", DBool false); ("reduce_file_locking", DBool false)].
End Universal.
Import Universal.

(** [CompactionOptionsFIFO]. *)
Module Fifo.
Record CompactionOptionsFIFO := mkCompactionOptionsFIFO {
  max_table_files_size : Z; allow_compaction : bool; age_for_warm : Z;
  file_temperature_age_thresholds : list FileTemperatureAge; allow_trivial_copy_when_change_temperature : bool;
  trivial_copy_buffer_size : Z;
}.
Definition CompactionOptionsFIFO_default : CompactionOptionsFIFO := {|
  max_table_files_size := (1 * 1024 * 1024 * 1024); allow_compaction := false; age_for_warm := 0;
  file_temperature_age_thresholds := []; allow_trivial_copy_when_change_temperature := false;
  trivial_copy_buffer_size := 4096;
|}.
Definition CompactionOptionsFIFO_members (o : CompactionOptionsFIFO) : list (string * value) :=
  [("max_table_files_size", VInt false 64 (max_table_files_size o));
    ("allow_compaction", VBool (allow_compaction o)); ("age_for_warm", VInt false 64 (age_for_warm o));
    ("file_temperature_age_thresholds", list_size (file_temperature_age_thresholds o));
    ("allow_trivial_copy_when_change_temperature", VBool (allow_trivial_copy_when_change_temperature o));
    ("trivial_copy_buffer_size", VInt false 64 (trivial_copy_buffer_size o))].
Definition CompactionOptionsFIFO_documented : list (string * doc) := [
  ("max_table_files_size", DNum (2 ^ 30)); ("allow_compaction", DBool false);
  ("file_temperature_age_thresholds", DEmpty)].
End Fifo.
Import Fifo.

(** [AdvancedColumnFamilyOptions]. *)
Module Adv.
Record AdvancedOptions_buffers := mkAdvancedOptions_buffers {
  max_write_buffer_number : Z; min_write_buffer_number_to_merge : Z; max_write_buffer_size_to_maintain : Z;
  inplace_update_support : bool; inplace_update_num_locks : Z; experimental_mempurge_threshold : Q;
}.
Definition AdvancedOptions_buffers_default : AdvancedOptions_buffers := {|
  max_write_buffer_number := 2; min_write_buffer_number_to_merge := 1; max_write_buffer_size_to_maintain := 0;
  inplace_update_support := false; inplace_update_num_locks := 10000; experimental_mempurge_threshold := (0 # 1);
|}.
Definition AdvancedOptions_buffers_members (o : AdvancedOptions_buffers) : list (string * value) :=
  [("max_write_buffer_number", VInt true 32 (max_write_buffer_number o));
    ("min_write_buffer_number_to_merge", VInt true 32 (min_write_buffer_number_to_merge o));
    ("max_write_buffer_size_to_maintain", VInt true 64 (max_write_buffer_size_to_maintain o));
    ("inplace_update_support", VBool (inplace_update_support o));
    ("inplace_update_num_locks", VInt false 64 (inplace_update_num_locks o));
    ("experimental_mempurge_threshold", VReal (experimental_mempurge_threshold o))].
Definition AdvancedOptions_buffers_documented : list (string * doc) := [
  ("max_write_buffer_number", DNum 2); ("min_write_buffer_number_to_merge", DNum 1);
  ("max_write_buffer_size_to_maintain", DNum 0); ("inplace_update_support", DBool false)].
Record AdvancedOptions_memtable := mkAdvancedOptions_memtable {
  inplace_callback : option Z; memtable_prefix_bloom_size_ratio : Q; memtable_whole_key_filtering : bool;
  memtable_huge_page_size : Z; memtable_insert_with_hint_prefix_extractor : option Z; bloom_locality : Z;
  arena_block_size : Z;
}.
Definition AdvancedOptions_memtable_default : AdvancedOptions_memtable := {|
  inplace_callback := None; memtable_prefix_bloom_size_ratio := (0 # 1); memtable_whole_key_filtering := false;
  memtable_huge_page_size := 0; memtable_insert_with_hint_prefix_extractor := None; bloom_locality := 0;
  arena_block_size := 0;
|}.
Definition AdvancedOptions_memtable_members (o : AdvancedOptions_memtable) : list (string * value) :=
  [("inplace_callback", VPtr (inplace_callback o));
    ("memtable_prefix_bloom_size_ratio", VReal (memtable_prefix_bloom_size_ratio o));
    ("memtable_whole_key_filtering", VBool (memtable_whole_key_filtering o));
    ("memtable_huge_page_size", VInt false 64 (memtable_huge_page_size o));
    ("memtable_insert_with_hint_prefix_extractor", VPtr (memtable_insert_with_hint_prefix_extractor o));
    ("bloom_locality", VInt false 32 (bloom_locality o));
    ("arena_block_size", VInt false 64 (arena_block_size o))].
Definition AdvancedOptions_memtable_documented : list (string * doc) := [
  ("memtable_prefix_bloom_size_ratio", DReal (0 # 1)); ("memtable_whole_key_filtering", DBool false);
  ("bloom_locality", DNum 0); ("arena_block_size", DNum 0)].
Record AdvancedOptions_levels := mkAdvancedOptions_levels {
  compression_per_level : list CompressionType; num_levels : Z; level0_slowdown_writes_trigger : Z;
  level0_stop_writes_trigger : Z; target_file_size_base : Z; target_file_size_multiplier : Z;
}.
Definition AdvancedOptions_levels_default : AdvancedOptions_levels := {|
  compression_per_level := []; num_levels := 7; level0_slowdown_writes_trigger := 20;
  level0_stop_writes_trigger := 36; target_file_size_base := (64 * 1048576); target_file_size_multiplier := 1;
|}.
Definition AdvancedOptions_levels_members (o : AdvancedOptions_levels) : list (string * value) :=
  [("compression_per_level", list_size (compression_per_level o)); ("num_levels", VInt true 32 (num_levels o));
    ("level0_slowdown_writes_trigger", VInt true 32 (level0_slowdown_writes_trigger o));
    ("level0_stop_writes_trigger", VInt true 32 (level0_stop_writes_trigger o));
    ("target_file_size_base", VInt false 64 (target_file_size_base o));
    ("target_file_size_multiplier", VInt true 32 (target_file_size_multiplier o))].
Definition AdvancedOptions_levels_documented : list (string * doc) := [
  ("level0_slowdown_writes_trigger", DNum 20); ("level0_stop_writes_trigger", DNum 36);
  ("target_file_size_base", DNum (64 * 2 ^ 20))].
Record AdvancedOptions_compaction := mkAdvancedOptions_compaction {
  level_compaction_dynamic_level_bytes : bool; max_bytes_for_level_multiplier : Q;
  max_bytes_for_level_multiplier_additional : list Z; max_compaction_bytes : Z;
  soft_pending_compaction_bytes_limit : Z; hard_pending_compaction_bytes_limit : Z;
  compaction_style : CompactionStyle; compaction_pri : CompactionPri;
  compaction_options_universal : CompactionOptionsUniversal; compaction_options_fifo : CompactionOptionsFIFO;
}.
Definition AdvancedOptions_compaction_default : AdvancedOptions_compaction := {|
  level_compaction_dynamic_level_bytes := true; max_bytes_for_level_multiplier := (10 # 1);
  max_bytes_for_level_multiplier_additional := replicate (Z.to_nat 7) 1; max_compaction_bytes := 0;
  soft_pending_compaction_bytes_limit := (64 * 1073741824);
  hard_pending_compaction_bytes_limit := (256 * 1073741824); compaction_style := kCompactionStyleLevel;
  compaction_pri := kMinOverlappingRatio; compaction_options_universal := CompactionOptionsUniversal_default;
  compaction_options_fifo := CompactionOptionsFIFO_default;
|}.
Definition AdvancedOptions_compaction_members (o : AdvancedOptions_compaction) : list (string * value) :=
  [("level_compaction_dynamic_level_bytes", VBool (level_compaction_dynamic_level_bytes o));
    ("max_bytes_for_level_multiplier", VReal (max_bytes_for_level_multiplier o));
    ("max_bytes_for_level_multiplier_additional", list_size (max_bytes_for_level_multiplier_additional o));
    ("max_compaction_bytes", VInt false 64 (max_compaction_bytes o));
    ("soft_pending_compaction_bytes_limit", VInt false 64 (soft_pending_compaction_bytes_limit o));
    ("hard_pending_compaction_bytes_limit", VInt false 64 (hard_pending_compaction_bytes_limit o));
    ("compaction_style", VEnum (CompactionStyle_value (compaction_style o)));
    ("compaction_pri", VEnum (CompactionPri_value (compaction_pri o)))]
  ++ nested "compaction_options_universal" (CompactionOptionsUniversal_members (compaction_options_universal o))
  ++ nested "compaction_options_fifo" (CompactionOptionsFIFO_members (compaction_options_fifo o)).
Definition AdvancedOptions_compaction_documented : list (string * doc) := [
  ("level_compaction_dynamic_level_bytes", DBool true); ("max_bytes_for_level_multiplier", DReal (10 # 1));
  ("soft_pending_compaction_bytes_limit", DNum (64 * 2 ^ 30));
  ("hard_pending_compaction_bytes_limit", DNum (256 * 2 ^ 30));
  ("compaction_style", DEnum (CompactionStyle_value kCompactionStyleLevel));
  ("compaction_pri", DEnum (CompactionPri_value kMinOverlappingRatio))].
Record AdvancedOptions_tables := mkAdvancedOptions_tables {
  max_sequential_skip_in_iterations : Z; memtable_factory : option Z;
  table_properties_collector_factories : list Z; max_successive_merges : Z; strict_max_successive_merges : bool;
  optimize_filters_for_hits : bool; paranoid_file_checks : bool; force_consistency_checks : bool;
  report_bg_io_stats : bool; disallow_memtable_writes : bool; ttl : Z;
}.
Definition AdvancedOptions_tables_default `{L : Library} : AdvancedOptions_tables := {|
  max_sequential_skip_in_iterations := 8; memtable_factory := Some new_SkipListFactory;
  table_properties_collector_factories := []; max_successive_merges := 0; strict_max_successive_merges := false;
  optimize_filters_for_hits := false; paranoid_file_checks := false; force_consistency_checks := true;
  report_bg_io_stats := false; disallow_memtable_writes := false; ttl := 0xfffffffffffffffe;
|}.
Definition AdvancedOptions_tables_members (o : AdvancedOptions_tables) : list (string * value) :=
  [("max_sequential_skip_in_iterations", VInt false 64 (max_sequential_skip_in_iterations o));
    ("memtable_factory", VPtr (memtable_factory o));
    ("table_properties_collector_factories", list_size (table_properties_collector_factories o));
    ("max_successive_merges", VInt false 64 (max_successive_merges o));
    ("strict_max_successive_merges", VBool (strict_max_successive_merges o));
    ("optimize_filters_for_hits", VBool (optimize_filters_for_hits o));
    ("paranoid_file_checks", VBool (paranoid_file_checks o));
    ("force_consistency_checks", VBool (force_consistency_checks o));
    ("report_bg_io_stats", VBool (report_bg_io_stats o));
    ("disallow_memtable_writes", VBool (disallow_memtable_writes o)); ("ttl", VInt false 64 (ttl o))].
Definition AdvancedOptions_tables_documented : list (string * doc) := [
  ("max_sequential_skip_in_iterations", DNum 8); ("max_successive_merges", DNum 0);
  ("strict_max_successive_merges", DBool false); ("optimize_filters_for_hits", DBool false);
  ("paranoid_file_checks", DBool false); ("force_consistency_checks", DBool true);
  ("report_bg_io_stats", DBool false)].
Record AdvancedOptions_ageing := mkAdvancedOptions_ageing {
  periodic_compaction_seconds : Z; sample_for_compression : Z; last_level_temperature : Temperature;
  default_write_temperature : Temperature; default_temperature : Temperature;
  preclude_last_level_data_seconds : Z; preserve_internal_time_seconds : Z; enable_blob_files : bool;
  min_blob_size : Z;
}.
Definition AdvancedOptions_ageing_default : AdvancedOptions_ageing := {|
  periodic_compaction_seconds := 0xfffffffffffffffe; sample_for_compression := 0;
  last_level_temperature := kUnknownTemperature; default_write_temperature := kUnknownTemperature;
  default_temperature := kUnknownTemperature; preclude_last_level_data_seconds := 0;
  preserve_internal_time_seconds := 0; enable_blob_files := false; min_blob_size := 0;
|}.
Definition AdvancedOptions_ageing_members (o : AdvancedOptions_ageing) : list (string * value) :=
  [("periodic_compaction_seconds", VInt false 64 (periodic_compaction_seconds o));
    ("sample_for_compression", VInt false 64 (sample_for_compression o));
    ("last_level_temperature", temperature_field (last_level_temperature o));
    ("default_write_temperature", temperature_field (default_write_temperature o));
    ("default_temperature", temperature_field (default_temperature o));
    ("preclude_last_level_data_seconds", VInt false 64 (preclude_last_level_data_seconds o));
    ("preserve_internal_time_seconds", VInt false 64 (preserve_internal_time_seconds o));
    ("enable_blob_files", VBool (enable_blob_files o)); ("min_blob_size", VInt false 64 (min_blob_size o))].
Definition AdvancedOptions_ageing_documented : list (string * doc) := [
  ("preclude_last_level_data_seconds", DNum 0); ("preserve_internal_time_seconds", DNum 0);
  ("enable_blob_files", DBool false); ("min_blob_size", DNum 0)].
Record AdvancedOptions_blobs := mkAdvancedOptions_blobs {
  blob_file_size : Z; blob_compression_type : CompressionType; enable_blob_garbage_collection : bool;
  blob_garbage_collection_age_cutoff : Q; blob_garbage_collection_force_threshold : Q;
  blob_compaction_readahead_size : Z; blob_file_starting_level : Z; blob_cache : option Z;
  prepopulate_blob_cache : PrepopulateBlobCache; memtable_protection_bytes_per_key : Z;
}.
Definition AdvancedOptions_blobs_default : AdvancedOptions_blobs := {|
  blob_file_size := (Z.shiftl 1 28); blob_compression_type := kNoCompression;
  enable_blob_garbage_collection := false; blob_garbage_collection_age_cutoff := (1 # 4);
  blob_garbage_collection_force_threshold := (1 # 1); blob_compaction_readahead_size := 0;
  blob_file_starting_level := 0; blob_cache := None; prepopulate_blob_cache := PrepopulateBlobCache_kDisable;
  memtable_protection_bytes_per_key := 0;
|}.
Definition AdvancedOptions_blobs_members (o : AdvancedOptions_blobs) : list (string * value) :=
  [("blob_file_size", VInt false 64 (blob_file_size o));
    ("blob_compression_type", VEnum (CompressionType_value (blob_compression_type o)));
    ("enable_blob_garbage_collection", VBool (enable_blob_garbage_collection o));
    ("blob_garbage_collection_age_cutoff", VReal (blob_garbage_collection_age_cutoff o));
    ("blob_garbage_collection_force_threshold", VReal (blob_garbage_collection_force_threshold o));
    ("blob_compaction_readahead_size", VInt false 64 (blob_compaction_readahead_size o));
    ("blob_file_starting_level", VInt true 32 (blob_file_starting_level o));
    ("blob_cache", VPtr (blob_cache o));
    ("prepopulate_blob_cache", VEnum (PrepopulateBlobCache_value (prepopulate_blob_cache o)));
    ("memtable_protection_bytes_per_key", VInt false 32 (memtable_protection_bytes_per_key o))].
Definition AdvancedOptions_blobs_documented : list (string * doc) := [
  ("blob_file_size", DNum (256 * 2 ^ 20));
  ("blob_compression_type", DEnum (CompressionType_value kNoCompression));
  ("enable_blob_garbage_collection", DBool false); ("blob_garbage_collection_age_cutoff", DReal (1 # 4));
  ("blob_garbage_collection_force_threshold", DReal (1 # 1)); ("blob_compaction_readahead_size", DNum 0);
  ("blob_file_starting_level", DNum 0); ("blob_cache", DNull);
  ("prepopulate_blob_cache", DEnum (PrepopulateBlobCache_value PrepopulateBlobCache_kDisable));
  ("memtable_protection_bytes_per_key", DNum 0)].
Record AdvancedOptions_protection := mkAdvancedOptions_protection {
  persist_user_defined_timestamps : bool; block_protection_bytes_per_key : Z;
  bottommost_file_compaction_delay : Z; paranoid_memory_checks : bool; memtable_op_scan_flush_trigger : Z;
  memtable_avg_op_scan_flush_trigger : Z; cf_allow_ingest_behind : bool;
}.
Definition AdvancedOptions_protection_default : AdvancedOptions_protection := {|
  persist_user_defined_timestamps := true; block_protection_bytes_per_key := 0;
  bottommost_file_compaction_delay := 0; paranoid_memory_checks := false; memtable_op_scan_flush_trigger := 0;
  memtable_avg_op_scan_flush_trigger := 0; cf_allow_ingest_behind := false;
|}.
Definition AdvancedOptions_protection_members (o : AdvancedOptions_protection) : list (string * value) :=
  [("persist_user_defined_timestamps", VBool (persist_user_defined_timestamps o));
    ("block_protection_bytes_per_key", VInt false 8 (block_protection_bytes_per_key o));
    ("bottommost_file_compaction_delay", VInt false 32 (bottommost_file_compaction_delay o));
    ("paranoid_memory_checks", VBool (paranoid_memory_checks o));
    ("memtable_op_scan_flush_trigger", VInt false 32 (memtable_op_scan_flush_trigger o));
    ("memtable_avg_op_scan_flush_trigger", VInt false 32 (memtable_avg_op_scan_flush_trigger o));
    ("cf_allow_ingest_behind", VBool (cf_allow_ingest_behind o))].
Definition AdvancedOptions_protection_documented : list (string * doc) := [
  ("persist_user_defined_timestamps", DBool true); ("block_protection_bytes_per_key", DNum 0);
  ("bottommost_file_compaction_delay", DNum 0); ("memtable_op_scan_flush_trigger", DNum 0);
  ("memtable_avg_op_scan_flush_trigger", DNum 0); ("cf_allow_ingest_behind", DBool false)].
Record AdvancedColumnFamilyOptions := mkAdvancedColumnFamilyOptions {
  buffers_ : AdvancedOptions_buffers; memtable_ : AdvancedOptions_memtable; levels_ : AdvancedOptions_levels;
  compaction_ : AdvancedOptions_compaction; tables_ : AdvancedOptions_tables; ageing_ : AdvancedOptions_ageing;
  blobs_ : AdvancedOptions_blobs; protection_ : AdvancedOptions_protection;
}.
Definition AdvancedColumnFamilyOptions_default `{L : Library} : AdvancedColumnFamilyOptions := {|
  buffers_ := AdvancedOptions_buffers_default; memtable_ := AdvancedOptions_memtable_default;
  levels_ := AdvancedOptions_levels_default; compaction_ := AdvancedOptions_compaction_default;
  tables_ := AdvancedOptions_tables_default; ageing_ := AdvancedOptions_ageing_default;
  blobs_ := AdvancedOptions_blobs_default; protection_ := AdvancedOptions_protection_default;
|}.
Definition AdvancedColumnFamilyOptions_members (o : AdvancedColumnFamilyOptions) : list (string * value) :=
  AdvancedOptions_buffers_members (buffers_ o)
  ++ AdvancedOptions_memtable_members (memtable_ o)
  ++ AdvancedOptions_levels_members (levels_ o)
  ++ AdvancedOptions_compaction_members (compaction_ o)
  ++ AdvancedOptions_tables_members (tables_ o)
  ++ AdvancedOptions_ageing_members (ageing_ o)
  ++ AdvancedOptions_blobs_members (blobs_ o)
  ++ AdvancedOptions_protection_members (protection_ o).
End Adv.

(** [ColumnFamilyOptions], without the members of its base class. *)
Module CF.
Record ColumnFamilyOptions_keys := mkColumnFamilyOptions_keys {
  comparator : option Z; merge_operator : option Z; compaction_filter : option Z;
  compaction_filter_factory : option Z; write_buffer_size : Z; compression : CompressionType;
}.
Definition ColumnFamilyOptions_keys_default `{L : Library} : ColumnFamilyOptions_keys := {|
  comparator := Some BytewiseComparator; merge_operator := None; compaction_filter := None;
  compaction_filter_factory := None; write_buffer_size := (Z.shiftl 64 20);
  compression := constructor_compression;
|}.
Definition ColumnFamilyOptions_keys_members (o : ColumnFamilyOptions_keys) : list (string * value) :=
  [("comparator", VPtr (comparator o)); ("merge_operator", VPtr (merge_operator o));
    ("compaction_filter", VPtr (compaction_filter o));
    ("compaction_filter_factory", VPtr (compaction_filter_factory o));
    ("write_buffer_size", VInt false 64 (write_buffer_size o));
    ("compression", VEnum (CompressionType_value (compression o)))].
Definition ColumnFamilyOptions_keys_documented : list (string * doc) := [
  ("merge_operator", DNull); ("compaction_filter", DNull); ("compaction_filter_factory", DNull);
  ("write_buffer_size", DNum (64 * 2 ^ 20))].
Record ColumnFamilyOptions_files := mkColumnFamilyOptions_files {
  bottommost_compression : CompressionType; bottommost_compression_opts : CompressionOptions;
  compression_opts : CompressionOptions; compression_manager : option Z; level0_file_num_compaction_trigger : Z;
  prefix_extractor : option Z; max_bytes_for_level_base : Z; snap_refresh_nanos : Z;
  disable_auto_compactions : bool; table_factory : option Z; cf_paths : list DbPath;
  compaction_thread_limiter : option Z; sst_partitioner_factory : option Z; memtable_max_range_deletions : Z;
}.
Definition ColumnFamilyOptions_files_default `{L : Library} : ColumnFamilyOptions_files := {|
  bottommost_compression := kDisableCompressionOption;
  bottommost_compression_opts := CompressionOptions_default; compression_opts := CompressionOptions_default;
  compression_manager := None; level0_file_num_compaction_trigger := 4; prefix_extractor := None;
  max_bytes_for_level_base := (256 * 1048576); snap_refresh_nanos := 0; disable_auto_compactions := false;
  table_factory := constructor_table_factory; cf_paths := []; compaction_thread_limiter := None;
  sst_partitioner_factory := None; memtable_max_range_deletions := 0;
|}.
Definition ColumnFamilyOptions_files_members (o : ColumnFamilyOptions_files) : list (string * value) :=
  [("bottommost_compression", VEnum (CompressionType_value (bottommost_compression o)))]
  ++ nested "bottommost_compression_opts" (CompressionOptions_members (bottommost_compression_opts o))
  ++ nested "compression_opts" (CompressionOptions_members (compression_opts o))
  ++ [("compression_manager", VPtr (compression_manager o));
    ("level0_file_num_compaction_trigger", VInt true 32 (level0_file_num_compaction_trigger o));
    ("prefix_extractor", VPtr (prefix_extractor o));
    ("max_bytes_for_level_base", VInt false 64 (max_bytes_for_level_base o));
    ("snap_refresh_nanos", VInt false 64 (snap_refresh_nanos o));
    ("disable_auto_compactions", VBool (disable_auto_compactions o)); ("table_factory", VPtr (table_factory o));
    ("cf_paths", list_size (cf_paths o)); ("compaction_thread_limiter", VPtr (compaction_thread_limiter o));
    ("sst_partitioner_factory", VPtr (sst_partitioner_factory o));
    ("memtable_max_range_deletions", VInt false 32 (memtable_max_range_deletions o))].
Definition ColumnFamilyOptions_files_documented : list (string * doc) := [
  ("bottommost_compression", DEnum (CompressionType_value kDisableCompressionOption));
  ("level0_file_num_compaction_trigger", DNum 4); ("prefix_extractor", DNull);
  ("max_bytes_for_level_base", DNum (256 * 2 ^ 20)); ("cf_paths", DEmpty); ("compaction_thread_limiter", DNull);
  ("sst_partitioner_factory", DNull); ("memtable_max_range_deletions", DNum 0)].
Record ColumnFamilyOptions_caching := mkColumnFamilyOptions_caching {
  uncache_aggressiveness : Z;
}.
Definition ColumnFamilyOptions_caching_default : ColumnFamilyOptions_caching := {|
  uncache_aggressiveness := 0;
|}.
Definition ColumnFamilyOptions_caching_members (o : ColumnFamilyOptions_caching) : list (string * value) :=
  [("uncache_aggressiveness", VInt false 32 (uncache_aggressiveness o))].
End CF.

(** [DBOptions]. *)
Module DB.
Record DBOptions_checks := mkDBOptions_checks {
  create_if_missing : bool; create_missing_column_families : bool; error_if_exists : bool;
  paranoid_checks : bool; flush_verify_memtable_count : bool; compaction_verify_record_count : bool;
  track_and_verify_wals_in_manifest : bool; track_and_verify_wals : bool;
  verify_sst_unique_id_in_manifest : bool; env : option Z;
}.
Definition DBOptions_checks_default `{L : Library} : DBOptions_checks := {|
  create_if_missing := false; create_missing_column_families := false; error_if_exists := false;
  paranoid_checks := true; flush_verify_memtable_count := true; compaction_verify_record_count := true;
  track_and_verify_wals_in_manifest := false; track_and_verify_wals := false;
  verify_sst_unique_id_in_manifest := true; env := Some Env_Default;
|}.
Definition DBOptions_checks_members (o : DBOptions_checks) : list (string * value) :=
  [("create_if_missing", VBool (create_if_missing o));
    ("create_missing_column_families", VBool (create_missing_column_families o));
    ("error_if_exists", VBool (error_if_exists o)); ("paranoid_checks", VBool (paranoid_checks o));
    ("flush_verify_memtable_count", VBool (flush_verify_memtable_count o));
    ("compaction_verify_record_count", VBool (compaction_verify_record_count o));
    ("track_and_verify_wals_in_manifest", VBool (track_and_verify_wals_in_manifest o));
    ("track_and_verify_wals", VBool (track_and_verify_wals o));
    ("verify_sst_unique_id_in_manifest", VBool (verify_sst_unique_id_in_manifest o)); ("env", VPtr (env o))].
Definition DBOptions_checks_documented : list (string * doc) := [
  ("create_if_missing", DBool false); ("create_missing_column_families", DBool false);
  ("error_if_exists", DBool false); ("paranoid_checks", DBool true);
  ("flush_verify_memtable_count", DBool true); ("compaction_verify_record_count", DBool true);
  ("track_and_verify_wals_in_manifest", DBool false); ("track_and_verify_wals", DBool false);
  ("verify_sst_unique_id_in_manifest", DBool true)].
Record DBOptions_resources := mkDBOptions_resources {
  rate_limiter : option Z; sst_file_manager : option Z; info_log : option Z; info_log_level : InfoLogLevel;
  max_open_files : Z; max_file_opening_threads : Z; max_total_wal_size : Z; statistics : option Z;
  use_fsync : bool; db_paths : list DbPath; db_log_dir : bytes; wal_dir : bytes;
}.
Definition DBOptions_resources_default `{L : Library} : DBOptions_resources := {|
  rate_limiter := None; sst_file_manager := None; info_log := None; info_log_level := kDefaultLogLevel;
  max_open_files := (-1); max_file_opening_threads := 16; max_total_wal_size := 0; statistics := None;
  use_fsync := false; db_paths := []; db_log_dir := []; wal_dir := [];
|}.
Definition DBOptions_resources_members (o : DBOptions_resources) : list (string * value) :=
  [("rate_limiter", VPtr (rate_limiter o)); ("sst_file_manager", VPtr (sst_file_manager o));
    ("info_log", VPtr (info_log o)); ("info_log_level", log_level_field (info_log_level o));
    ("max_open_files", VInt true 32 (max_open_files o));
    ("max_file_opening_threads", VInt true 32 (max_file_opening_threads o));
    ("max_total_wal_size", VInt false 64 (max_total_wal_size o)); ("statistics", VPtr (statistics o));
    ("use_fsync", VBool (use_fsync o)); ("db_paths", list_size (db_paths o));
    ("db_log_dir", VText (db_log_dir o)); ("wal_dir", VText (wal_dir o))].
Definition DBOptions_resources_documented : list (string * doc) := [
  ("rate_limiter", DNull); ("sst_file_manager", DNull); ("info_log", DNull); ("max_open_files", DNum (-1));
  ("max_file_opening_threads", DNum 16); ("max_total_wal_size", DNum 0); ("db_paths", DEmpty)].
Record DBOptions_jobs := mkDBOptions_jobs {
  delete_obsolete_files_period_micros : Z; max_background_jobs : Z; max_background_compactions : Z;
  max_subcompactions : Z; max_background_flushes : Z; max_log_file_size : Z; log_file_time_to_roll : Z;
  keep_log_file_num : Z; recycle_log_file_num : Z; max_manifest_file_size : Z; table_cache_numshardbits : Z;
  WAL_ttl_seconds : Z; WAL_size_limit_MB : Z; manifest_preallocation_size : Z; allow_mmap_reads : bool;
  allow_mmap_writes : bool;
}.
Definition DBOptions_jobs_default : DBOptions_jobs := {|
  delete_obsolete_files_period_micros := (6 * 60 * 60 * 1000000); max_background_jobs := 2;
  max_background_compactions := (-1); max_subcompactions := 1; max_background_flushes := (-1);
  max_log_file_size := 0; log_file_time_to_roll := 0; keep_log_file_num := 1000; recycle_log_file_num := 0;
  max_manifest_file_size := (1024 * 1024 * 1024); table_cache_numshardbits := 6; WAL_ttl_seconds := 0;
  WAL_size_limit_MB := 0; manifest_preallocation_size := (4 * 1024 * 1024); allow_mmap_reads := false;
  allow_mmap_writes := false;
|}.
Definition DBOptions_jobs_members (o : DBOptions_jobs) : list (string * value) :=
  [("delete_obsolete_files_period_micros", VInt false 64 (delete_obsolete_files_period_micros o));
    ("max_background_jobs", VInt true 32 (max_background_jobs o));
    ("max_background_compactions", VInt true 32 (max_background_compactions o));
    ("max_subcompactions", VInt false 32 (max_subcompactions o));
    ("max_background_flushes", VInt true 32 (max_background_flushes o));
    ("max_log_file_size", VInt false 64 (max_log_file_size o));
    ("log_file_time_to_roll", VInt false 64 (log_file_time_to_roll o));
    ("keep_log_file_num", VInt false 64 (keep_log_file_num o));
    ("recycle_log_file_num", VInt false 64 (recycle_log_file_num o));
    ("max_manifest_file_size", VInt false 64 (max_manifest_file_size o));
    ("table_cache_numshardbits", VInt true 32 (table_cache_numshardbits o));
    ("WAL_ttl_seconds", VInt false 64 (WAL_ttl_seconds o));
    ("WAL_size_limit_MB", VInt false 64 (WAL_size_limit_MB o));
    ("manifest_preallocation_size", VInt false 64 (manifest_preallocation_size o));
    ("allow_mmap_reads", VBool (allow_mmap_reads o)); ("allow_mmap_writes", VBool (allow_mmap_writes o))].
Definition DBOptions_jobs_documented : list (string * doc) := [
  ("delete_obsolete_files_period_micros", DNum (6 * 3600 * 10 ^ 6)); ("max_background_jobs", DNum 2);
  ("max_background_compactions", DNum (-1)); ("max_subcompactions", DNum 1);
  ("max_background_flushes", DNum (-1)); ("log_file_time_to_roll", DNum 0); ("keep_log_file_num", DNum 1000);
  ("recycle_log_file_num", DNum 0); ("manifest_preallocation_size", DNum (4 * 2 ^ 20));
  ("allow_mmap_reads", DBool false); ("allow_mmap_writes", DBool false)].
Record DBOptions_io := mkDBOptions_io {
  use_direct_reads : bool; use_direct_io_for_flush_and_compaction : bool; allow_fallocate : bool;
  is_fd_close_on_exec : bool; stats_dump_period_sec : Z; stats_persist_period_sec : Z;
  persist_stats_to_disk : bool; stats_history_buffer_size : Z; advise_random_on_open : bool;
  db_write_buffer_size : Z; write_buffer_manager : option Z; compaction_readahead_size : Z;
  writable_file_max_buffer_size : Z; use_adaptive_mutex : bool; bytes_per_sync : Z;
}.
Definition DBOptions_io_default : DBOptions_io := {|
  use_direct_reads := false; use_direct_io_for_flush_and_compaction := false; allow_fallocate := true;
  is_fd_close_on_exec := true; stats_dump_period_sec := 600; stats_persist_period_sec := 600;
  persist_stats_to_disk := false; stats_history_buffer_size := (1024 * 1024); advise_random_on_open := true;
  db_write_buffer_size := 0; write_buffer_manager := None; compaction_readahead_size := (2 * 1024 * 1024);
  writable_file_max_buffer_size := (1024 * 1024); use_adaptive_mutex := false; bytes_per_sync := 0;
|}.
Definition DBOptions_io_members (o : DBOptions_io) : list (string * value) :=
  [("use_direct_reads", VBool (use_direct_reads o));
    ("use_direct_io_for_flush_and_compaction", VBool (use_direct_io_for_flush_and_compaction o));
    ("allow_fallocate", VBool (allow_fallocate o)); ("is_fd_close_on_exec", VBool (is_fd_close_on_exec o));
    ("stats_dump_period_sec", VInt false 32 (stats_dump_period_sec o));
    ("stats_persist_period_sec", VInt false 32 (stats_persist_period_sec o));
    ("persist_stats_to_disk", VBool (persist_stats_to_disk o));
    ("stats_history_buffer_size", VInt false 64 (stats_history_buffer_size o));
    ("advise_random_on_open", VBool (advise_random_on_open o));
    ("db_write_buffer_size", VInt false 64 (db_write_buffer_size o));
    ("write_buffer_manager", VPtr (write_buffer_manager o));
    ("compaction_readahead_size", VInt false 64 (compaction_readahead_size o));
    ("writable_file_max_buffer_size", VInt false 64 (writable_file_max_buffer_size o));
    ("use_adaptive_mutex", VBool (use_adaptive_mutex o)); ("bytes_per_sync", VInt false 64 (bytes_per_sync o))].
Definition DBOptions_io_documented : list (string * doc) := [
  ("use_direct_reads", DBool false); ("use_direct_io_for_flush_and_compaction", DBool false);
  ("is_fd_close_on_exec", DBool true); ("stats_dump_period_sec", DNum 600);
  ("stats_persist_period_sec", DNum 600); ("persist_stats_to_disk", DBool false);
  ("stats_history_buffer_size", DNum (2 ^ 20)); ("advise_random_on_open", DBool true);
  ("db_write_buffer_size", DNum 0); ("write_buffer_manager", DNull);
  ("compaction_readahead_size", DNum (2 * 2 ^ 20)); ("writable_file_max_buffer_size", DNum (1024 * 1024));
  ("use_adaptive_mutex", DBool false); ("bytes_per_sync", DNum 0)].
Record DBOptions_writes := mkDBOptions_writes {
  wal_bytes_per_sync : Z; strict_bytes_per_sync : bool; listeners : list Z; enable_thread_tracking : bool;
  delayed_write_rate : Z; enable_pipelined_write : bool; unordered_write : bool;
  allow_concurrent_memtable_write : bool; enable_write_thread_adaptive_yield : bool;
  max_write_batch_group_size_bytes : Z; write_thread_max_yield_usec : Z; write_thread_slow_yield_usec : Z;
}.
Definition DBOptions_writes_default : DBOptions_writes := {|
  wal_bytes_per_sync := 0; strict_bytes_per_sync := false; listeners := []; enable_thread_tracking := false;
  delayed_write_rate := 0; enable_pipelined_write := false; unordered_write := false;
  allow_concurrent_memtable_write := true; enable_write_thread_adaptive_yield := true;
  max_write_batch_group_size_bytes := (Z.shiftl 1 20); write_thread_max_yield_usec := 100;
  write_thread_slow_yield_usec := 3;
|}.
Definition DBOptions_writes_members (o : DBOptions_writes) : list (string * value) :=
  [("wal_bytes_per_sync", VInt false 64 (wal_bytes_per_sync o));
    ("strict_bytes_per_sync", VBool (strict_bytes_per_sync o)); ("listeners", list_size (listeners o));
    ("enable_thread_tracking", VBool (enable_thread_tracking o));
    ("delayed_write_rate", VInt false 64 (delayed_write_rate o));
    ("enable_pipelined_write", VBool (enable_pipelined_write o));
    ("unordered_write", VBool (unordered_write o));
    ("allow_concurrent_memtable_write", VBool (allow_concurrent_memtable_write o));
    ("enable_write_thread_adaptive_yield", VBool (enable_write_thread_adaptive_yield o));
    ("max_write_batch_group_size_bytes", VInt false 64 (max_write_batch_group_size_bytes o));
    ("write_thread_max_yield_usec", VInt false 64 (write_thread_max_yield_usec o));
    ("write_thread_slow_yield_usec", VInt false 64 (write_thread_slow_yield_usec o))].
Definition DBOptions_writes_documented : list (string * doc) := [
  ("wal_bytes_per_sync", DNum 0); ("strict_bytes_per_sync", DBool false);
  ("enable_thread_tracking", DBool false); ("delayed_write_rate", DNum 0);
  ("enable_pipelined_write", DBool false); ("unordered_write", DBool false);
  ("allow_concurrent_memtable_write", DBool true); ("enable_write_thread_adaptive_yield", DBool true);
  ("max_write_batch_group_size_bytes", DNum (2 ^ 20)); ("write_thread_max_yield_usec", DNum 100);
  ("write_thread_slow_yield_usec", DNum 3)].
Record DBOptions_recovery := mkDBOptions_recovery {
  skip_stats_update_on_db_open : bool; skip_checking_sst_file_sizes_on_db_open : bool;
  wal_recovery_mode : WALRecoveryMode; allow_2pc : bool; row_cache : option Z; wal_filter : option Z;
  dump_malloc_stats : bool; avoid_flush_during_recovery : bool; avoid_flush_during_shutdown : bool;
  allow_ingest_behind : bool; two_write_queues : bool; manual_wal_flush : bool;
  wal_compression : CompressionType; background_close_inactive_wals : bool; atomic_flush : bool;
  avoid_unnecessary_blocking_io : bool; write_dbid_to_manifest : bool; write_identity_file : bool;
}.
Definition DBOptions_recovery_default : DBOptions_recovery := {|
  skip_stats_update_on_db_open := false; skip_checking_sst_file_sizes_on_db_open := false;
  wal_recovery_mode := WALRecoveryMode_kPointInTimeRecovery; allow_2pc := false; row_cache := None;
  wal_filter := None; dump_malloc_stats := false; avoid_flush_during_recovery := false;
  avoid_flush_during_shutdown := false; allow_ingest_behind := false; two_write_queues := false;
  manual_wal_flush := false; wal_compression := kNoCompression; background_close_inactive_wals := false;
  atomic_flush := false; avoid_unnecessary_blocking_io := false; write_dbid_to_manifest := true;
  write_identity_file := true;
|}.
Definition DBOptions_recovery_members (o : DBOptions_recovery) : list (string * value) :=
  [("skip_stats_update_on_db_open", VBool (skip_stats_update_on_db_open o));
    ("skip_checking_sst_file_sizes_on_db_open", VBool (skip_checking_sst_file_sizes_on_db_open o));
    ("wal_recovery_mode", VEnum (WALRecoveryMode_value (wal_recovery_mode o)));
    ("allow_2pc", VBool (allow_2pc o)); ("row_cache", VPtr (row_cache o)); ("wal_filter", VPtr (wal_filter o));
    ("dump_malloc_stats", VBool (dump_malloc_stats o));
    ("avoid_flush_during_recovery", VBool (avoid_flush_during_recovery o));
    ("avoid_flush_during_shutdown", VBool (avoid_flush_during_shutdown o));
    ("allow_ingest_behind", VBool (allow_ingest_behind o)); ("two_write_queues", VBool (two_write_queues o));
    ("manual_wal_flush", VBool (manual_wal_flush o));
    ("wal_compression", VEnum (CompressionType_value (wal_compression o)));
    ("background_close_inactive_wals", VBool (background_close_inactive_wals o));
    ("atomic_flush", VBool (atomic_flush o));
    ("avoid_unnecessary_blocking_io", VBool (avoid_unnecessary_blocking_io o));
    ("write_dbid_to_manifest", VBool (write_dbid_to_manifest o));
    ("write_identity_file", VBool (write_identity_file o))].
Definition DBOptions_recovery_documented : list (string * doc) := [
  ("skip_stats_update_on_db_open", DBool false); ("skip_checking_sst_file_sizes_on_db_open", DBool false);
  ("wal_recovery_mode", DEnum (WALRecoveryMode_value WALRecoveryMode_kPointInTimeRecovery));
  ("row_cache", DNull)].
Record DBOptions_errors := mkDBOptions_errors {
  prefix_seek_opt_in_only : bool; log_readahead_size : Z; file_checksum_gen_factory : option Z;
  best_efforts_recovery : bool; max_bgerror_resume_count : Z; bgerror_resume_retry_interval : Z;
  allow_data_in_errors : bool; db_host_id : bytes; checksum_handoff_file_types : StateT;
  compaction_service : option Z; lowest_used_cache_tier : CacheTier;
}.
Definition DBOptions_errors_default `{L : Library} : DBOptions_errors := {|
  prefix_seek_opt_in_only := false; log_readahead_size := 0; file_checksum_gen_factory := None;
  best_efforts_recovery := false; max_bgerror_resume_count := (2 ^ 31 - 1);
  bgerror_resume_retry_interval := 1000000; allow_data_in_errors := false; db_host_id := kHostnameForDbHostId;
  checksum_handoff_file_types := SmallEnumSet_empty (FileType_value kBlobFile); compaction_service := None;
  lowest_used_cache_tier := kNonVolatileBlockTier;
|}.
Definition DBOptions_errors_members (o : DBOptions_errors) : list (string * value) :=
  [("prefix_seek_opt_in_only", VBool (prefix_seek_opt_in_only o));
    ("log_readahead_size", VInt false 64 (log_readahead_size o));
    ("file_checksum_gen_factory", VPtr (file_checksum_gen_factory o));
    ("best_efforts_recovery", VBool (best_efforts_recovery o));
    ("max_bgerror_resume_count", VInt true 32 (max_bgerror_resume_count o));
    ("bgerror_resume_retry_interval", VInt false 64 (bgerror_resume_retry_interval o));
    ("allow_data_in_errors", VBool (allow_data_in_errors o)); ("db_host_id", VText (db_host_id o));
    ("checksum_handoff_file_types", enum_set_size (FileType_value kBlobFile) (checksum_handoff_file_types o));
    ("compaction_service", VPtr (compaction_service o));
    ("lowest_used_cache_tier", VEnum (CacheTier_value (lowest_used_cache_tier o)))].
Definition DBOptions_errors_documented : list (string * doc) := [
  ("log_readahead_size", DNum 0); ("file_checksum_gen_factory", DNull); ("best_efforts_recovery", DBool false);
  ("max_bgerror_resume_count", DNum (2 ^ 31 - 1)); ("bgerror_resume_retry_interval", DNum 1000000);
  ("allow_data_in_errors", DBool false);
  ("lowest_used_cache_tier", DEnum (CacheTier_value kNonVolatileBlockTier))].
Record DBOptions_followers := mkDBOptions_followers {
  enforce_single_del_contracts : bool; daily_offpeak_time_utc : bytes; follower_refresh_catchup_period_ms : Z;
  follower_catchup_retry_count : Z; follower_catchup_retry_wait_ms : Z;
  metadata_write_temperature : Temperature; wal_write_temperature : Temperature;
  calculate_sst_write_lifetime_hint_set : StateT;
}.
Definition DBOptions_followers_default : DBOptions_followers := {|
  enforce_single_del_contracts := true; daily_offpeak_time_utc := [];
  follower_refresh_catchup_period_ms := 10000; follower_catchup_retry_count := 10;
  follower_catchup_retry_wait_ms := 100; metadata_write_temperature := kUnknownTemperature;
  wal_write_temperature := kUnknownTemperature;
  calculate_sst_write_lifetime_hint_set := enum_set (CompactionStyle_value kCompactionStyleNone) [CompactionStyle_value kCompactionStyleLevel];
|}.
Definition DBOptions_followers_members (o : DBOptions_followers) : list (string * value) :=
  [("enforce_single_del_contracts", VBool (enforce_single_del_contracts o));
    ("daily_offpeak_time_utc", VText (daily_offpeak_time_utc o));
    ("follower_refresh_catchup_period_ms", VInt false 64 (follower_refresh_catchup_period_ms o));
    ("follower_catchup_retry_count", VInt false 64 (follower_catchup_retry_count o));
    ("follower_catchup_retry_wait_ms", VInt false 64 (follower_catchup_retry_wait_ms o));
    ("metadata_write_temperature", temperature_field (metadata_write_temperature o));
    ("wal_write_temperature", temperature_field (wal_write_temperature o));
    ("calculate_sst_write_lifetime_hint_set", enum_set_size (CompactionStyle_value kCompactionStyleNone) (calculate_sst_write_lifetime_hint_set o))].
Definition DBOptions_followers_documented : list (string * doc) := [
  ("daily_offpeak_time_utc", DEmpty); ("follower_catchup_retry_count", DNum 10)].
Record DBOptions := mkDBOptions {
  checks_ : DBOptions_checks; resources_ : DBOptions_resources; jobs_ : DBOptions_jobs; io_ : DBOptions_io;
  writes_ : DBOptions_writes; recovery_ : DBOptions_recovery; errors_ : DBOptions_errors;
  followers_ : DBOptions_followers;
}.
Definition DBOptions_default `{L : Library} : DBOptions := {|
  checks_ := DBOptions_checks_default; resources_ := DBOptions_resources_default;
  jobs_ := DBOptions_jobs_default; io_ := DBOptions_io_default; writes_ := DBOptions_writes_default;
  recovery_ := DBOptions_recovery_default; errors_ := DBOptions_errors_default;
  followers_ := DBOptions_followers_default;
|}.
Definition DBOptions_members (o : DBOptions) : list (string * value) :=
  DBOptions_checks_members (checks_ o)
  ++ DBOptions_resources_members (resources_ o)
  ++ DBOptions_jobs_members (jobs_ o)
  ++ DBOptions_io_members (io_ o)
  ++ DBOptions_writes_members (writes_ o)
  ++ DBOptions_recovery_members (recovery_ o)
  ++ DBOptions_errors_members (errors_ o)
  ++ DBOptions_followers_members (followers_ o).
End DB.

(** [ReadOptions]. *)
Module Reads.
Record ReadOptions_lookup := mkReadOptions_lookup {
  snapshot : option Z; timestamp : option Z; iter_start_ts : option Z; deadline : Z; io_timeout : Z;
  read_tier : ReadTier; rate_limiter_priority : IOPriority; value_size_soft_limit : Z;
  merge_operand_count_threshold : option Z; verify_checksums : bool; fill_cache : bool;
  ignore_range_deletions : bool; async_io : bool; optimize_multiget_for_io : bool; readahead_size : Z;
  max_skippable_internal_keys : Z; iterate_lower_bound : option Z;
}.
Definition ReadOptions_lookup_default : ReadOptions_lookup := {|
  snapshot := None; timestamp := None; iter_start_ts := None; deadline := 0; io_timeout := 0;
  read_tier := kReadAllTier; rate_limiter_priority := IO_TOTAL; value_size_soft_limit := (2 ^ 64 - 1);
  merge_operand_count_threshold := None; verify_checksums := true; fill_cache := true;
  ignore_range_deletions := false; async_io := false; optimize_multiget_for_io := true; readahead_size := 0;
  max_skippable_internal_keys := 0; iterate_lower_bound := None;
|}.
Definition ReadOptions_lookup_members (o : ReadOptions_lookup) : list (string * value) :=
  [("snapshot", VPtr (snapshot o)); ("timestamp", VPtr (timestamp o));
    ("iter_start_ts", VPtr (iter_start_ts o)); ("deadline", VInt true 64 (deadline o));
    ("io_timeout", VInt true 64 (io_timeout o)); ("read_tier", VEnum (ReadTier_value (read_tier o)));
    ("rate_limiter_priority", VEnum (IOPriority_value (rate_limiter_priority o)));
    ("value_size_soft_limit", VInt false 64 (value_size_soft_limit o));
    ("merge_operand_count_threshold", opt_size (merge_operand_count_threshold o));
    ("verify_checksums", VBool (verify_checksums o)); ("fill_cache", VBool (fill_cache o));
    ("ignore_range_deletions", VBool (ignore_range_deletions o)); ("async_io", VBool (async_io o));
    ("optimize_multiget_for_io", VBool (optimize_multiget_for_io o));
    ("readahead_size", VInt false 64 (readahead_size o));
    ("max_skippable_internal_keys", VInt false 64 (max_skippable_internal_keys o));
    ("iterate_lower_bound", VPtr (iterate_lower_bound o))].
Record ReadOptions_iteration := mkReadOptions_iteration {
  iterate_upper_bound : option Z; tailing : bool; managed : bool; total_order_seek : bool;
  auto_prefix_mode : bool; prefix_same_as_start : bool; pin_data : bool; adaptive_readahead : bool;
  background_purge_on_iterator_cleanup : bool; table_filter : option Z; auto_readahead_size : bool;
  allow_unprepared_value : bool;
}.
Definition ReadOptions_iteration_default : ReadOptions_iteration := {|
  iterate_upper_bound := None; tailing := false; managed := false; total_order_seek := false;
  auto_prefix_mode := false; prefix_same_as_start := false; pin_data := false; adaptive_readahead := false;
  background_purge_on_iterator_cleanup := false; table_filter := None; auto_readahead_size := true;
  allow_unprepared_value := false;
|}.
Definition ReadOptions_iteration_members (o : ReadOptions_iteration) : list (string * value) :=
  [("iterate_upper_bound", VPtr (iterate_upper_bound o)); ("tailing", VBool (tailing o));
    ("managed", VBool (managed o)); ("total_order_seek", VBool (total_order_seek o));
    ("auto_prefix_mode", VBool (auto_prefix_mode o)); ("prefix_same_as_start", VBool (prefix_same_as_start o));
    ("pin_data", VBool (pin_data o)); ("adaptive_readahead", VBool (adaptive_readahead o));
    ("background_purge_on_iterator_cleanup", VBool (background_purge_on_iterator_cleanup o));
    ("table_filter", VPtr (table_filter o)); ("auto_readahead_size", VBool (auto_readahead_size o));
    ("allow_unprepared_value", VBool (allow_unprepared_value o))].
Definition ReadOptions_iteration_documented : list (string * doc) := [
  ("table_filter", DEmpty); ("auto_readahead_size", DBool true); ("allow_unprepared_value", DBool false)].
Record ReadOptions_request := mkReadOptions_request {
  auto_refresh_iterator_with_snapshot : bool; table_index_factory : option Z; io_activity : IOActivity;
  request_id : option Z;
}.
Definition ReadOptions_request_default : ReadOptions_request := {|
  auto_refresh_iterator_with_snapshot := false; table_index_factory := None; io_activity := kUnknownActivity;
  request_id := None;
|}.
Definition ReadOptions_request_members (o : ReadOptions_request) : list (string * value) :=
  [("auto_refresh_iterator_with_snapshot", VBool (auto_refresh_iterator_with_snapshot o));
    ("table_index_factory", VPtr (table_index_factory o)); ("io_activity", activity_field (io_activity o));
    ("request_id", VPtr (request_id o))].
Definition ReadOptions_request_documented : list (string * doc) := [
  ("auto_refresh_iterator_with_snapshot", DBool false)].
Record ReadOptions := mkReadOptions {
  lookup_ : ReadOptions_lookup; iteration_ : ReadOptions_iteration; request_ : ReadOptions_request;
}.
Definition ReadOptions_default : ReadOptions := {|
  lookup_ := ReadOptions_lookup_default; iteration_ := ReadOptions_iteration_default;
  request_ := ReadOptions_request_default;
|}.
Definition ReadOptions_members (o : ReadOptions) : list (string * value) :=
  ReadOptions_lookup_members (lookup_ o)
  ++ ReadOptions_iteration_members (iteration_ o)
  ++ ReadOptions_request_members (request_ o).
End Reads.

(** [WriteOptions]. *)
Module Writes.
Record WriteOptions := mkWriteOptions {
  sync : bool; disableWAL : bool; ignore_missing_column_families : bool; no_slowdown : bool; low_pri : bool;
  memtable_insert_hint_per_batch : bool; rate_limiter_priority : IOPriority; protection_bytes_per_key : Z;
  io_activity : IOActivity;
}.
Definition WriteOptions_default : WriteOptions := {|
  sync := false; disableWAL := false; ignore_missing_column_families := false; no_slowdown := false;
  low_pri := false; memtable_insert_hint_per_batch := false; rate_limiter_priority := IO_TOTAL;
  protection_bytes_per_key := 0; io_activity := kUnknownActivity;
|}.
Definition WriteOptions_members (o : WriteOptions) : list (string * value) :=
  [("sync", VBool (sync o)); ("disableWAL", VBool (disableWAL o));
    ("ignore_missing_column_families", VBool (ignore_missing_column_families o));
    ("no_slowdown", VBool (no_slowdown o)); ("low_pri", VBool (low_pri o));
    ("memtable_insert_hint_per_batch", VBool (memtable_insert_hint_per_batch o));
    ("rate_limiter_priority", VEnum (IOPriority_value (rate_limiter_priority o)));
    ("protection_bytes_per_key", VInt false 64 (protection_bytes_per_key o));
    ("io_activity", activity_field (io_activity o))].
Definition WriteOptions_documented : list (string * doc) := [
  ("sync", DBool false); ("disableWAL", DBool false); ("ignore_missing_column_families", DBool false);
  ("no_slowdown", DBool false); ("low_pri", DBool false); ("memtable_insert_hint_per_batch", DBool false);
  ("rate_limiter_priority", DEnum (IOPriority_value IO_TOTAL)); ("protection_bytes_per_key", DNum 0);
  ("io_activity", DEnum (IOActivity_value kUnknownActivity))].
End Writes.

(** [FlushOptions]. *)
Module Flush.
Record FlushOptions := mkFlushOptions {
  wait : bool; allow_write_stall : bool;
}.
Definition FlushOptions_default : FlushOptions := {|
  wait := true; allow_write_stall := false;
|}.
Definition FlushOptions_members (o : FlushOptions) : list (string * value) :=
  [("wait", VBool (wait o)); ("allow_write_stall", VBool (allow_write_stall o))].
Definition FlushOptions_documented : list (string * doc) := [
  ("wait", DBool true); ("allow_write_stall", DBool false)].
End Flush.

(** [CompactionOptions]. *)
Module Compact.
Record CompactionOptions := mkCompactionOptions {
  compression : CompressionType; output_file_size_limit : Z; max_subcompactions : Z; canceled : option Z;
}.
Definition CompactionOptions_default : CompactionOptions := {|
  compression := kDisableCompressionOption; output_file_size_limit := (2 ^ 64 - 1); max_subcompactions := 0;
  canceled := None;
|}.
Definition CompactionOptions_members (o : CompactionOptions) : list (string * value) :=
  [("compression", VEnum (CompressionType_value (compression o)));
    ("output_file_size_limit", VInt false 64 (output_file_size_limit o));
    ("max_subcompactions", VInt false 32 (max_subcompactions o)); ("canceled", VPtr (canceled o))].
Definition CompactionOptions_documented : list (string * doc) := [
  ("output_file_size_limit", DNum (2 ^ 64 - 1))].
End Compact.

(** [CompactRangeOptions]. *)
Module CompactRange.
Record CompactRangeOptions := mkCompactRangeOptions {
  exclusive_manual_compaction : bool; change_level : bool; target_level : Z; target_path_id : Z;
  bottommost_level_compaction : BottommostLevelCompaction; allow_write_stall : bool; max_subcompactions : Z;
  full_history_ts_low : option Z; canceled : option Z;
  blob_garbage_collection_policy : BlobGarbageCollectionPolicy; blob_garbage_collection_age_cutoff : Q;
}.
Definition CompactRangeOptions_default : CompactRangeOptions := {|
  exclusive_manual_compaction := false; change_level := false; target_level := (-1); target_path_id := 0;
  bottommost_level_compaction := BottommostLevelCompaction_kIfHaveCompactionFilter; allow_write_stall := false;
  max_subcompactions := 0; full_history_ts_low := None; canceled := None;
  blob_garbage_collection_policy := BlobGarbageCollectionPolicy_kUseDefault;
  blob_garbage_collection_age_cutoff := ((-1) # 1);
|}.
Definition CompactRangeOptions_members (o : CompactRangeOptions) : list (string * value) :=
  [("exclusive_manual_compaction", VBool (exclusive_manual_compaction o));
    ("change_level", VBool (change_level o)); ("target_level", VInt true 32 (target_level o));
    ("target_path_id", VInt false 32 (target_path_id o));
    ("bottommost_level_compaction", VEnum (BottommostLevelCompaction_value (bottommost_level_compaction o)));
    ("allow_write_stall", VBool (allow_write_stall o));
    ("max_subcompactions", VInt false 32 (max_subcompactions o));
    ("full_history_ts_low", VPtr (full_history_ts_low o)); ("canceled", VPtr (canceled o));
    ("blob_garbage_collection_policy", VEnum (BlobGarbageCollectionPolicy_value (blob_garbage_collection_policy o)));
    ("blob_garbage_collection_age_cutoff", VReal (blob_garbage_collection_age_cutoff o))].
Definition CompactRangeOptions_documented : list (string * doc) := [
  ("exclusive_manual_compaction", DBool false); ("full_history_ts_low", DNull)].
End CompactRange.

(** [IngestExternalFileOptions]. *)
Module Ingest.
Record IngestExternalFileOptions := mkIngestExternalFileOptions {
  move_files : bool; link_files : bool; failed_move_fall_back_to_copy : bool; snapshot_consistency : bool;
  allow_global_seqno : bool; allow_blocking_flush : bool; ingest_behind : bool; write_global_seqno : bool;
  verify_checksums_before_ingest : bool; verify_checksums_readahead_size : Z; verify_file_checksum : bool;
  fail_if_not_bottommost_level : bool; allow_db_generated_files : bool; fill_cache : bool;
}.
Definition IngestExternalFileOptions_default : IngestExternalFileOptions := {|
  move_files := false; link_files := false; failed_move_fall_back_to_copy := true; snapshot_consistency := true;
  allow_global_seqno := true; allow_blocking_flush := true; ingest_behind := false; write_global_seqno := false;
  verify_checksums_before_ingest := false; verify_checksums_readahead_size := 0; verify_file_checksum := true;
  fail_if_not_bottommost_level := false; allow_db_generated_files := false; fill_cache := true;
|}.
Definition IngestExternalFileOptions_members (o : IngestExternalFileOptions) : list (string * value) :=
  [("move_files", VBool (move_files o)); ("link_files", VBool (link_files o));
    ("failed_move_fall_back_to_copy", VBool (failed_move_fall_back_to_copy o));
    ("snapshot_consistency", VBool (snapshot_consistency o));
    ("allow_global_seqno", VBool (allow_global_seqno o));
    ("allow_blocking_flush", VBool (allow_blocking_flush o)); ("ingest_behind", VBool (ingest_behind o));
    ("write_global_seqno", VBool (write_global_seqno o));
    ("verify_checksums_before_ingest", VBool (verify_checksums_before_ingest o));
    ("verify_checksums_readahead_size", VInt false 64 (verify_checksums_readahead_size o));
    ("verify_file_checksum", VBool (verify_file_checksum o));
    ("fail_if_not_bottommost_level", VBool (fail_if_not_bottommost_level o));
    ("allow_db_generated_files", VBool (allow_db_generated_files o)); ("fill_cache", VBool (fill_cache o))].
End Ingest.
Import Ingest.

(** [IngestExternalFileArg]. *)
Module IngestArg.
Record IngestExternalFileArg := mkIngestExternalFileArg {
  column_family : option Z; external_files : list bytes; options : IngestExternalFileOptions;
  files_checksums : list bytes; files_checksum_func_names : list bytes; file_temperature : Temperature;
  atomic_replace_range : option RangeOpt;
}.
Definition IngestExternalFileArg_default : IngestExternalFileArg := {|
  column_family := None; external_files := []; options := IngestExternalFileOptions_default;
  files_checksums := []; files_checksum_func_names := []; file_temperature := kUnknownTemperature;
  atomic_replace_range := None;
|}.
Definition IngestExternalFileArg_members (o : IngestExternalFileArg) : list (string * value) :=
  [("column_family", VPtr (column_family o)); ("external_files", list_size (external_files o))]
  ++ nested "options" (IngestExternalFileOptions_members (options o))
  ++ [("files_checksums", list_size (files_checksums o));
    ("files_checksum_func_names", list_size (files_checksum_func_names o));
    ("file_temperature", temperature_field (file_temperature o));
    ("atomic_replace_range", opt_size (atomic_replace_range o))].
End IngestArg.

(** [TraceOptions]. *)
Module Trace.
Record TraceOptions := mkTraceOptions {
  max_trace_file_size : Z; sampling_frequency : Z; filter : Z; preserve_write_order : bool;
}.
Definition TraceOptions_default : TraceOptions := {|
  max_trace_file_size := (64 * 1024 * 1024 * 1024); sampling_frequency := 1; filter := kTraceFilterNone;
  preserve_write_order := false;
|}.
Definition TraceOptions_members (o : TraceOptions) : list (string * value) :=
  [("max_trace_file_size", VInt false 64 (max_trace_file_size o));
    ("sampling_frequency", VInt false 64 (sampling_frequency o)); ("filter", VInt false 64 (filter o));
    ("preserve_write_order", VBool (preserve_write_order o))].
Definition TraceOptions_documented : list (string * doc) := [
  ("max_trace_file_size", DNum (64 * 2 ^ 30)); ("sampling_frequency", DNum 1);
  ("preserve_write_order", DBool false)].
End Trace.

(** [ImportColumnFamilyOptions]. *)
Module ImportCF.
Record ImportColumnFamilyOptions := mkImportColumnFamilyOptions {
  move_files : bool;
}.
Definition ImportColumnFamilyOptions_default : ImportColumnFamilyOptions := {|
  move_files := false;
|}.
Definition ImportColumnFamilyOptions_members (o : ImportColumnFamilyOptions) : list (string * value) :=
  [("move_files", VBool (move_files o))].
End ImportCF.

(** [CompactionServiceOptionsOverride]. *)
Module Override.
Record CompactionServiceOptionsOverride := mkCompactionServiceOptionsOverride {
  env : option Z; file_checksum_gen_factory : option Z; comparator : option Z; merge_operator : option Z;
  compaction_filter : option Z; compaction_filter_factory : option Z; prefix_extractor : option Z;
  table_factory : option Z; sst_partitioner_factory : option Z; listeners : list Z; statistics : option Z;
  info_log : option Z; table_properties_collector_factories : list Z; options_map : list (bytes * bytes);
}.
Definition CompactionServiceOptionsOverride_default `{L : Library} : CompactionServiceOptionsOverride := {|
  env := Some Env_Default; file_checksum_gen_factory := None; comparator := Some BytewiseComparator;
  merge_operator := None; compaction_filter := None; compaction_filter_factory := None;
  prefix_extractor := None; table_factory := None; sst_partitioner_factory := None; listeners := [];
  statistics := None; info_log := None; table_properties_collector_factories := []; options_map := [];
|}.
Definition CompactionServiceOptionsOverride_members (o : CompactionServiceOptionsOverride) : list (string * value) :=
  [("env", VPtr (env o)); ("file_checksum_gen_factory", VPtr (file_checksum_gen_factory o));
    ("comparator", VPtr (comparator o)); ("merge_operator", VPtr (merge_operator o));
    ("compaction_filter", VPtr (compaction_filter o));
    ("compaction_filter_factory", VPtr (compaction_filter_factory o));
    ("prefix_extractor", VPtr (prefix_extractor o)); ("table_factory", VPtr (table_factory o));
    ("sst_partitioner_factory", VPtr (sst_partitioner_factory o)); ("listeners", list_size (listeners o));
    ("statistics", VPtr (statistics o)); ("info_log", VPtr (info_log o));
    ("table_properties_collector_factories", list_size (table_properties_collector_factories o));
    ("options_map", list_size (options_map o))].
End Override.

(** [OpenAndCompactOptions]. *)
Module OpenAndCompact.
Record OpenAndCompactOptions := mkOpenAndCompactOptions {
  canceled : option Z;
}.
Definition OpenAndCompactOptions_default : OpenAndCompactOptions := {|
  canceled := None;
|}.
Definition OpenAndCompactOptions_members (o : OpenAndCompactOptions) : list (string * value) :=
  [("canceled", VPtr (canceled o))].
End OpenAndCompact.

(** [LiveFilesStorageInfoOptions]. *)
Module LiveFiles.
Record LiveFilesStorageInfoOptions := mkLiveFilesStorageInfoOptions {
  include_checksum_info : bool; wal_size_for_flush : Z;
}.
Definition LiveFilesStorageInfoOptions_default : LiveFilesStorageInfoOptions := {|
  include_checksum_info := false; wal_size_for_flush := 0;
|}.
Definition LiveFilesStorageInfoOptions_members (o : LiveFilesStorageInfoOptions) : list (string * value) :=
  [("include_checksum_info", VBool (include_checksum_info o));
    ("wal_size_for_flush", VInt false 64 (wal_size_for_flush o))].
End LiveFiles.

(** [WaitForCompactOptions]. *)
Module WaitForCompact.
Record WaitForCompactOptions := mkWaitForCompactOptions {
  abort_on_pause : bool; flush : bool; wait_for_purge : bool; close_db : bool; timeout : Z;
}.
Definition WaitForCompactOptions_default : WaitForCompactOptions := {|
  abort_on_pause := false; flush := false; wait_for_purge := false; close_db := false; timeout := 0;
|}.
Definition WaitForCompactOptions_members (o : WaitForCompactOptions) : list (string * value) :=
  [("abort_on_pause", VBool (abort_on_pause o)); ("flush", VBool (flush o));
    ("wait_for_purge", VBool (wait_for_purge o)); ("close_db", VBool (close_db o));
    ("timeout", VInt true 64 (timeout o))].
End WaitForCompact.

(** [MetadataCacheOptions]. *)
Module Metadata.
Record MetadataCacheOptions := mkMetadataCacheOptions {
  top_level_index_pinning : PinningTier; partition_pinning : PinningTier; unpartitioned_pinning : PinningTier;
}.
Definition MetadataCacheOptions_default : MetadataCacheOptions := {|
  top_level_index_pinning := PinningTier_kFallback; partition_pinning := PinningTier_kFallback;
  unpartitioned_pinning := PinningTier_kFallback;
|}.
Definition MetadataCacheOptions_members (o : MetadataCacheOptions) : list (string * value) :=
  [("top_level_index_pinning", VEnum (PinningTier_value (top_level_index_pinning o)));
    ("partition_pinning", VEnum (PinningTier_value (partition_pinning o)));
    ("unpartitioned_pinning", VEnum (PinningTier_value (unpartitioned_pinning o)))].
End Metadata.
Import Metadata.

(** [BlockBasedTableOptions]. *)
Module Table.
Record BlockBasedTableOptions_caching := mkBlockBasedTableOptions_caching {
  flush_block_policy_factory : option Z; cache_index_and_filter_blocks : bool;
  cache_index_and_filter_blocks_with_high_priority : bool; pin_l0_filter_and_index_blocks_in_cache : bool;
  pin_top_level_index_and_filter : bool; metadata_cache_options : MetadataCacheOptions; index_type : IndexType;
  data_block_index_type : DataBlockIndexType; data_block_hash_table_util_ratio : Q; checksum : ChecksumType;
  no_block_cache : bool; block_cache : option Z; persistent_cache : option Z;
}.
Definition BlockBasedTableOptions_caching_default : BlockBasedTableOptions_caching := {|
  flush_block_policy_factory := None; cache_index_and_filter_blocks := false;
  cache_index_and_filter_blocks_with_high_priority := true; pin_l0_filter_and_index_blocks_in_cache := false;
  pin_top_level_index_and_filter := true; metadata_cache_options := MetadataCacheOptions_default;
  index_type := kBinarySearch; data_block_index_type := kDataBlockBinarySearch;
  data_block_hash_table_util_ratio := (3 # 4); checksum := kXXH3; no_block_cache := false; block_cache := None;
  persistent_cache := None;
|}.
Definition BlockBasedTableOptions_caching_members (o : BlockBasedTableOptions_caching) : list (string * value) :=
  [("flush_block_policy_factory", VPtr (flush_block_policy_factory o));
    ("cache_index_and_filter_blocks", VBool (cache_index_and_filter_blocks o));
    ("cache_index_and_filter_blocks_with_high_priority", VBool (cache_index_and_filter_blocks_with_high_priority o));
    ("pin_l0_filter_and_index_blocks_in_cache", VBool (pin_l0_filter_and_index_blocks_in_cache o));
    ("pin_top_level_index_and_filter", VBool (pin_top_level_index_and_filter o))]
  ++ nested "metadata_cache_options" (MetadataCacheOptions_members (metadata_cache_options o))
  ++ [("index_type", VEnum (IndexType_value (index_type o)));
    ("data_block_index_type", VEnum (DataBlockIndexType_value (data_block_index_type o)));
    ("data_block_hash_table_util_ratio", VReal (data_block_hash_table_util_ratio o));
    ("checksum", VEnum (ChecksumType_value (checksum o))); ("no_block_cache", VBool (no_block_cache o));
    ("block_cache", VPtr (block_cache o)); ("persistent_cache", VPtr (persistent_cache o))].
Record BlockBasedTableOptions_blocks := mkBlockBasedTableOptions_blocks {
  block_size : Z; block_size_deviation : Z; block_restart_interval : Z; index_block_restart_interval : Z;
  metadata_block_size : Z; cache_usage_options : CacheUsageOptions; partition_filters : bool;
  decouple_partitioned_filters : bool;
}.
Definition BlockBasedTableOptions_blocks_default : BlockBasedTableOptions_blocks := {|
  block_size := (4 * 1024); block_size_deviation := 10; block_restart_interval := 16;
  index_block_restart_interval := 1; metadata_block_size := 4096;
  cache_usage_options := CacheUsageOptions_default; partition_filters := false;
  decouple_partitioned_filters := true;
|}.
Definition BlockBasedTableOptions_blocks_members (o : BlockBasedTableOptions_blocks) : list (string * value) :=
  [("block_size", VInt false 64 (block_size o));
    ("block_size_deviation", VInt true 32 (block_size_deviation o));
    ("block_restart_interval", VInt true 32 (block_restart_interval o));
    ("index_block_restart_interval", VInt true 32 (index_block_restart_interval o));
    ("metadata_block_size", VInt false 64 (metadata_block_size o))]
  ++ nested "cache_usage_options" (CacheUsageOptions_members (cache_usage_options o))
  ++ [("partition_filters", VBool (partition_filters o));
    ("decouple_partitioned_filters", VBool (decouple_partitioned_filters o))].
Record BlockBasedTableOptions_filters := mkBlockBasedTableOptions_filters {
  optimize_filters_for_memory : bool; use_delta_encoding : bool; filter_policy : option Z;
  user_defined_index_factory : option Z; whole_key_filtering : bool; detect_filter_construct_corruption : bool;
  verify_compression : bool; read_amp_bytes_per_bit : Z; format_version : Z; enable_index_compression : bool;
  block_align : bool;
}.
Definition BlockBasedTableOptions_filters_default : BlockBasedTableOptions_filters := {|
  optimize_filters_for_memory := true; use_delta_encoding := true; filter_policy := None;
  user_defined_index_factory := None; whole_key_filtering := true; detect_filter_construct_corruption := false;
  verify_compression := false; read_amp_bytes_per_bit := 0; format_version := 6;
  enable_index_compression := true; block_align := false;
|}.
Definition BlockBasedTableOptions_filters_members (o : BlockBasedTableOptions_filters) : list (string * value) :=
  [("optimize_filters_for_memory", VBool (optimize_filters_for_memory o));
    ("use_delta_encoding", VBool (use_delta_encoding o)); ("filter_policy", VPtr (filter_policy o));
    ("user_defined_index_factory", VPtr (user_defined_index_factory o));
    ("whole_key_filtering", VBool (whole_key_filtering o));
    ("detect_filter_construct_corruption", VBool (detect_filter_construct_corruption o));
    ("verify_compression", VBool (verify_compression o));
    ("read_amp_bytes_per_bit", VInt false 32 (read_amp_bytes_per_bit o));
    ("format_version", VInt false 32 (format_version o));
    ("enable_index_compression", VBool (enable_index_compression o)); ("block_align", VBool (block_align o))].
Definition BlockBasedTableOptions_filters_documented : list (string * doc) := [
  ("use_delta_encoding", DBool true); ("read_amp_bytes_per_bit", DNum 0)].
Record BlockBasedTableOptions_readahead := mkBlockBasedTableOptions_readahead {
  index_shortening : IndexShorteningMode; max_auto_readahead_size : Z;
  prepopulate_block_cache : PrepopulateBlockCache; initial_auto_readahead_size : Z;
  num_file_reads_for_auto_readahead : Z;
}.
Definition BlockBasedTableOptions_readahead_default : BlockBasedTableOptions_readahead := {|
  index_shortening := IndexShorteningMode_kShortenSeparators; max_auto_readahead_size := (256 * 1024);
  prepopulate_block_cache := PrepopulateBlockCache_kDisable; initial_auto_readahead_size := (8 * 1024);
  num_file_reads_for_auto_readahead := 2;
|}.
Definition BlockBasedTableOptions_readahead_members (o : BlockBasedTableOptions_readahead) : list (string * value) :=
  [("index_shortening", VEnum (IndexShorteningMode_value (index_shortening o)));
    ("max_auto_readahead_size", VInt false 64 (max_auto_readahead_size o));
    ("prepopulate_block_cache", VEnum (PrepopulateBlockCache_value (prepopulate_block_cache o)));
    ("initial_auto_readahead_size", VInt false 64 (initial_auto_readahead_size o));
    ("num_file_reads_for_auto_readahead", VInt false 64 (num_file_reads_for_auto_readahead o))].
Definition BlockBasedTableOptions_readahead_documented : list (string * doc) := [
  ("max_auto_readahead_size", DNum (256 * 2 ^ 10)); ("initial_auto_readahead_size", DNum (8 * 2 ^ 10));
  ("num_file_reads_for_auto_readahead", DNum 2)].
Record BlockBasedTableOptions := mkBlockBasedTableOptions {
  caching_ : BlockBasedTableOptions_caching; blocks_ : BlockBasedTableOptions_blocks;
  filters_ : BlockBasedTableOptions_filters; readahead_ : BlockBasedTableOptions_readahead;
}.
Definition BlockBasedTableOptions_default : BlockBasedTableOptions := {|
  caching_ := BlockBasedTableOptions_caching_default; blocks_ := BlockBasedTableOptions_blocks_default;
  filters_ := BlockBasedTableOptions_filters_default; readahead_ := BlockBasedTableOptions_readahead_default;
|}.
Definition BlockBasedTableOptions_members (o : BlockBasedTableOptions) : list (string * value) :=
  BlockBasedTableOptions_caching_members (caching_ o)
  ++ BlockBasedTableOptions_blocks_members (blocks_ o)
  ++ BlockBasedTableOptions_filters_members (filters_ o)
  ++ BlockBasedTableOptions_readahead_members (readahead_ o).
End Table.

(** [TransactionDBOptions]. *)
Module TxnDB.
Record TransactionDBOptions := mkTransactionDBOptions {
  max_num_locks : Z; max_num_deadlocks : Z; num_stripes : Z; transaction_lock_timeout : Z;
  default_lock_timeout : Z; custom_mutex_factory : option Z; write_policy : TxnDBWritePolicy;
  rollback_merge_operands : bool; lock_mgr_handle : option Z; skip_concurrency_control : bool;
  default_write_batch_flush_threshold : Z; rollback_deletion_type_callback : option Z;
  enable_udt_validation : bool; secondary_indices : list Z; txn_commit_bypass_memtable_threshold : Z;
  wp_snapshot_cache_bits : Z; wp_commit_cache_bits : Z; autogenerate_name : bool;
}.
Definition TransactionDBOptions_default : TransactionDBOptions := {|
  max_num_locks := (-1); max_num_deadlocks := kInitialMaxDeadlocks; num_stripes := 16;
  transaction_lock_timeout := 1000; default_lock_timeout := 1000; custom_mutex_factory := None;
  write_policy := WRITE_COMMITTED; rollback_merge_operands := false; lock_mgr_handle := None;
  skip_concurrency_control := false; default_write_batch_flush_threshold := 0;
  rollback_deletion_type_callback := None; enable_udt_validation := true; secondary_indices := [];
  txn_commit_bypass_memtable_threshold := (2 ^ 32 - 1); wp_snapshot_cache_bits := 7; wp_commit_cache_bits := 23;
  autogenerate_name := false;
|}.
Definition TransactionDBOptions_members (o : TransactionDBOptions) : list (string * value) :=
  [("max_num_locks", VInt true 64 (max_num_locks o));
    ("max_num_deadlocks", VInt false 32 (max_num_deadlocks o)); ("num_stripes", VInt false 64 (num_stripes o));
    ("transaction_lock_timeout", VInt true 64 (transaction_lock_timeout o));
    ("default_lock_timeout", VInt true 64 (default_lock_timeout o));
    ("custom_mutex_factory", VPtr (custom_mutex_factory o));
    ("write_policy", VEnum (TxnDBWritePolicy_value (write_policy o)));
    ("rollback_merge_operands", VBool (rollback_merge_operands o));
    ("lock_mgr_handle", VPtr (lock_mgr_handle o));
    ("skip_concurrency_control", VBool (skip_concurrency_control o));
    ("default_write_batch_flush_threshold", VInt true 64 (default_write_batch_flush_threshold o));
    ("rollback_deletion_type_callback", VPtr (rollback_deletion_type_callback o));
    ("enable_udt_validation", VBool (enable_udt_validation o));
    ("secondary_indices", list_size (secondary_indices o));
    ("txn_commit_bypass_memtable_threshold", VInt false 32 (txn_commit_bypass_memtable_threshold o));
    ("wp_snapshot_cache_bits", VInt false 64 (wp_snapshot_cache_bits o));
    ("wp_commit_cache_bits", VInt false 64 (wp_commit_cache_bits o));
    ("autogenerate_name", VBool (autogenerate_name o))].
End TxnDB.

(** [TransactionOptions]. *)
Module TxnOptions.
Record TransactionOptions := mkTransactionOptions {
  set_snapshot : bool; deadlock_detect : bool; use_only_the_last_commit_time_batch_for_recovery : bool;
  lock_timeout : Z; expiration : Z; deadlock_detect_depth : Z; max_write_batch_size : Z;
  skip_concurrency_control : bool; skip_prepare : bool; write_batch_flush_threshold : Z;
  write_batch_track_timestamp_size : bool; commit_bypass_memtable : bool;
  large_txn_commit_optimize_threshold : Z; large_txn_commit_optimize_byte_threshold : Z;
}.
Definition TransactionOptions_default : TransactionOptions := {|
  set_snapshot := false; deadlock_detect := false; use_only_the_last_commit_time_batch_for_recovery := false;
  lock_timeout := (-1); expiration := (-1); deadlock_detect_depth := 50; max_write_batch_size := 0;
  skip_concurrency_control := false; skip_prepare := true; write_batch_flush_threshold := (-1);
  write_batch_track_timestamp_size := false; commit_bypass_memtable := false;
  large_txn_commit_optimize_threshold := 0; large_txn_commit_optimize_byte_threshold := 0;
|}.
Definition TransactionOptions_members (o : TransactionOptions) : list (string * value) :=
  [("set_snapshot", VBool (set_snapshot o)); ("deadlock_detect", VBool (deadlock_detect o));
    ("use_only_the_last_commit_time_batch_for_recovery", VBool (use_only_the_last_commit_time_batch_for_recovery o));
    ("lock_timeout", VInt true 64 (lock_timeout o)); ("expiration", VInt true 64 (expiration o));
    ("deadlock_detect_depth", VInt true 64 (deadlock_detect_depth o));
    ("max_write_batch_size", VInt false 64 (max_write_batch_size o));
    ("skip_concurrency_control", VBool (skip_concurrency_control o)); ("skip_prepare", VBool (skip_prepare o));
    ("write_batch_flush_threshold", VInt true 64 (write_batch_flush_threshold o));
    ("write_batch_track_timestamp_size", VBool (write_batch_track_timestamp_size o));
    ("commit_bypass_memtable", VBool (commit_bypass_memtable o));
    ("large_txn_commit_optimize_threshold", VInt false 32 (large_txn_commit_optimize_threshold o));
    ("large_txn_commit_optimize_byte_threshold", VInt false 64 (large_txn_commit_optimize_byte_threshold o))].
Definition TransactionOptions_documented : list (string * doc) := [
  ("skip_concurrency_control", DBool false); ("large_txn_commit_optimize_threshold", DNum 0);
  ("large_txn_commit_optimize_byte_threshold", DNum 0)].
End TxnOptions.

(** [TransactionDBWriteOptimizations]. *)
Module TxnWrites.
Record TransactionDBWriteOptimizations := mkTransactionDBWriteOptimizations {
  skip_concurrency_control : bool; skip_duplicate_key_check : bool;
}.
Definition TransactionDBWriteOptimizations_default : TransactionDBWriteOptimizations := {|
  skip_concurrency_control := false; skip_duplicate_key_check := false;
|}.
Definition TransactionDBWriteOptimizations_members (o : TransactionDBWriteOptimizations) : list (string * value) :=
  [("skip_concurrency_control", VBool (skip_concurrency_control o));
    ("skip_duplicate_key_check", VBool (skip_duplicate_key_check o))].
End TxnWrites.

(** [OptimisticTransactionOptions]. *)
Module OccTxn.
Record OptimisticTransactionOptions := mkOptimisticTransactionOptions {
  set_snapshot : bool; cmp : option Z;
}.
Definition OptimisticTransactionOptions_default `{L : Library} : OptimisticTransactionOptions := {|
  set_snapshot := false; cmp := Some BytewiseComparator;
|}.
Definition OptimisticTransactionOptions_members (o : OptimisticTransactionOptions) : list (string * value) :=
  [("set_snapshot", VBool (set_snapshot o)); ("cmp", VPtr (cmp o))].
End OccTxn.

(** [OptimisticTransactionDBOptions]. *)
Module OccDB.
Record OptimisticTransactionDBOptions := mkOptimisticTransactionDBOptions {
  validate_policy : OccValidationPolicy; occ_lock_buckets : Z; shared_lock_buckets : option Z;
}.
Definition OptimisticTransactionDBOptions_default : OptimisticTransactionDBOptions := {|
  validate_policy := OccValidationPolicy_kValidateParallel; occ_lock_buckets := (Z.shiftl 1 20);
  shared_lock_buckets := None;
|}.
Definition OptimisticTransactionDBOptions_members (o : OptimisticTransactionDBOptions) : list (string * value) :=
  [("validate_policy", VEnum (OccValidationPolicy_value (validate_policy o)));
    ("occ_lock_buckets", VInt false 32 (occ_lock_buckets o));
    ("shared_lock_buckets", VPtr (shared_lock_buckets o))].
End OccDB.

(** [TableProperties]. *)
Module Properties.
Record TableProperties_sizes := mkTableProperties_sizes {
  orig_file_number : Z; data_size : Z; index_size : Z; index_partitions : Z; top_level_index_size : Z;
  index_key_is_user_key : Z; index_value_is_delta_encoded : Z; filter_size : Z; raw_key_size : Z;
  raw_value_size : Z; num_data_blocks : Z; num_entries : Z; num_filter_entries : Z; num_deletions : Z;
  num_merge_operands : Z; num_range_deletions : Z; format_version : Z; fixed_key_len : Z; column_family_id : Z;
  creation_time : Z; oldest_key_time : Z; newest_key_time : Z; file_creation_time : Z;
  slow_compression_estimated_data_size : Z; fast_compression_estimated_data_size : Z;
  external_sst_file_global_seqno_offset : Z; tail_start_offset : Z; user_defined_timestamps_persisted : Z;
  key_largest_seqno : Z;
}.
Definition TableProperties_sizes_default `{L : Library} : TableProperties_sizes := {|
  orig_file_number := 0; data_size := 0; index_size := 0; index_partitions := 0; top_level_index_size := 0;
  index_key_is_user_key := 0; index_value_is_delta_encoded := 0; filter_size := 0; raw_key_size := 0;
  raw_value_size := 0; num_data_blocks := 0; num_entries := 0; num_filter_entries := 0; num_deletions := 0;
  num_merge_operands := 0; num_range_deletions := 0; format_version := 0; fixed_key_len := 0;
  column_family_id := kUnknownColumnFamily; creation_time := 0; oldest_key_time := 0; newest_key_time := 0;
  file_creation_time := 0; slow_compression_estimated_data_size := 0; fast_compression_estimated_data_size := 0;
  external_sst_file_global_seqno_offset := 0; tail_start_offset := 0; user_defined_timestamps_persisted := 1;
  key_largest_seqno := (2 ^ 64 - 1);
|}.
Definition TableProperties_sizes_members (o : TableProperties_sizes) : list (string * value) :=
  [("orig_file_number", VInt false 64 (orig_file_number o)); ("data_size", VInt false 64 (data_size o));
    ("index_size", VInt false 64 (index_size o)); ("index_partitions", VInt false 64 (index_partitions o));
    ("top_level_index_size", VInt false 64 (top_level_index_size o));
    ("index_key_is_user_key", VInt false 64 (index_key_is_user_key o));
    ("index_value_is_delta_encoded", VInt false 64 (index_value_is_delta_encoded o));
    ("filter_size", VInt false 64 (filter_size o)); ("raw_key_size", VInt false 64 (raw_key_size o));
    ("raw_value_size", VInt false 64 (raw_value_size o));
    ("num_data_blocks", VInt false 64 (num_data_blocks o)); ("num_entries", VInt false 64 (num_entries o));
    ("num_filter_entries", VInt false 64 (num_filter_entries o));
    ("num_deletions", VInt false 64 (num_deletions o));
    ("num_merge_operands", VInt false 64 (num_merge_operands o));
    ("num_range_deletions", VInt false 64 (num_range_deletions o));
    ("format_version", VInt false 64 (format_version o)); ("fixed_key_len", VInt false 64 (fixed_key_len o));
    ("column_family_id", VInt false 64 (column_family_id o));
    ("creation_time", VInt false 64 (creation_time o)); ("oldest_key_time", VInt false 64 (oldest_key_time o));
    ("newest_key_time", VInt false 64 (newest_key_time o));
    ("file_creation_time", VInt false 64 (file_creation_time o));
    ("slow_compression_estimated_data_size", VInt false 64 (slow_compression_estimated_data_size o));
    ("fast_compression_estimated_data_size", VInt false 64 (fast_compression_estimated_data_size o));
    ("external_sst_file_global_seqno_offset", VInt false 64 (external_sst_file_global_seqno_offset o));
    ("tail_start_offset", VInt false 64 (tail_start_offset o));
    ("user_defined_timestamps_persisted", VInt false 64 (user_defined_timestamps_persisted o));
    ("key_largest_seqno", VInt false 64 (key_largest_seqno o))].
Record TableProperties_names := mkTableProperties_names {
  db_id : bytes; db_session_id : bytes; db_host_id : bytes; column_family_name : bytes;
  filter_policy_name : bytes; comparator_name : bytes; merge_operator_name : bytes;
  prefix_extractor_name : bytes; property_collectors_names : bytes; compression_name : bytes;
  compression_options : bytes; seqno_to_time_mapping : bytes; user_collected_properties : list (bytes * bytes);
  readable_properties : list (bytes * bytes);
}.
Definition TableProperties_names_default : TableProperties_names := {|
  db_id := []; db_session_id := []; db_host_id := []; column_family_name := []; filter_policy_name := [];
  comparator_name := []; merge_operator_name := []; prefix_extractor_name := [];
  property_collectors_names := []; compression_name := []; compression_options := [];
  seqno_to_time_mapping := []; user_collected_properties := []; readable_properties := [];
|}.
Definition TableProperties_names_members (o : TableProperties_names) : list (string * value) :=
  [("db_id", VText (db_id o)); ("db_session_id", VText (db_session_id o));
    ("db_host_id", VText (db_host_id o)); ("column_family_name", VText (column_family_name o));
    ("filter_policy_name", VText (filter_policy_name o)); ("comparator_name", VText (comparator_name o));
    ("merge_operator_name", VText (merge_operator_name o));
    ("prefix_extractor_name", VText (prefix_extractor_name o));
    ("property_collectors_names", VText (property_collectors_names o));
    ("compression_name", VText (compression_name o)); ("compression_options", VText (compression_options o));
    ("seqno_to_time_mapping", VText (seqno_to_time_mapping o));
    ("user_collected_properties", list_size (user_collected_properties o));
    ("readable_properties", list_size (readable_properties o))].
Record TableProperties := mkTableProperties {
  sizes_ : TableProperties_sizes; names_ : TableProperties_names;
}.
Definition TableProperties_default `{L : Library} : TableProperties := {|
  sizes_ := TableProperties_sizes_default; names_ := TableProperties_names_default;
|}.
Definition TableProperties_members (o : TableProperties) : list (string * value) :=
  TableProperties_sizes_members (sizes_ o)
  ++ TableProperties_names_members (names_ o).
End Properties.

(** [PlainTableOptions]. *)
Module Plain.
Record PlainTableOptions := mkPlainTableOptions {
  user_key_len : Z; bloom_bits_per_key : Z; hash_table_ratio : Q; index_sparseness : Z; huge_page_tlb_size : Z;
  encoding_type : EncodingType; full_scan_mode : bool; store_index_in_file : bool;
}.
Definition PlainTableOptions_default : PlainTableOptions := {|
  user_key_len := kPlainTableVariableLength; bloom_bits_per_key := 10; hash_table_ratio := (3 # 4);
  index_sparseness := 16; huge_page_tlb_size := 0; encoding_type := kPlain; full_scan_mode := false;
  store_index_in_file := false;
|}.
Definition PlainTableOptions_members (o : PlainTableOptions) : list (string * value) :=
  [("user_key_len", VInt false 32 (user_key_len o));
    ("bloom_bits_per_key", VInt true 32 (bloom_bits_per_key o));
    ("hash_table_ratio", VReal (hash_table_ratio o)); ("index_sparseness", VInt false 64 (index_sparseness o));
    ("huge_page_tlb_size", VInt false 64 (huge_page_tlb_size o));
    ("encoding_type", VEnum (EncodingType_value (encoding_type o)));
    ("full_scan_mode", VBool (full_scan_mode o)); ("store_index_in_file", VBool (store_index_in_file o))].
End Plain.

(** [CuckooTableOptions]. *)
Module Cuckoo.
Record CuckooTableOptions := mkCuckooTableOptions {
  hash_table_ratio : Q; max_search_depth : Z; cuckoo_block_size : Z; identity_as_first_hash : bool;
  use_module_hash : bool;
}.
Definition CuckooTableOptions_default : CuckooTableOptions := {|
  hash_table_ratio := (9 # 10); max_search_depth := 100; cuckoo_block_size := 5;
  identity_as_first_hash := false; use_module_hash := true;
|}.
Definition CuckooTableOptions_members (o : CuckooTableOptions) : list (string * value) :=
  [("hash_table_ratio", VReal (hash_table_ratio o)); ("max_search_depth", VInt false 32 (max_search_depth o));
    ("cuckoo_block_size", VInt false 32 (cuckoo_block_size o));
    ("identity_as_first_hash", VBool (identity_as_first_hash o)); ("use_module_hash", VBool (use_module_hash o))].
End Cuckoo.
(** [ColumnFamilyOptions] with its base class, and [Options], which inherits from
    [DBOptions] and [ColumnFamilyOptions]. *)
Record ColumnFamilyOptions := mkColumnFamilyOptions {
  advanced : Adv.AdvancedColumnFamilyOptions; keys : CF.ColumnFamilyOptions_keys;
  files : CF.ColumnFamilyOptions_files; caching : CF.ColumnFamilyOptions_caching;
}.
Definition ColumnFamilyOptions_default `{L : Library} : ColumnFamilyOptions := {|
  advanced := Adv.AdvancedColumnFamilyOptions_default; keys := CF.ColumnFamilyOptions_keys_default;
  files := CF.ColumnFamilyOptions_files_default; caching := CF.ColumnFamilyOptions_caching_default;
|}.
Definition ColumnFamilyOptions_members (o : ColumnFamilyOptions) : list (string * value) :=
  Adv.AdvancedColumnFamilyOptions_members (advanced o) ++ CF.ColumnFamilyOptions_keys_members (keys o)
  ++ CF.ColumnFamilyOptions_files_members (files o) ++ CF.ColumnFamilyOptions_caching_members (caching o).

Record Options := mkOptions { db_options : DB.DBOptions; cf_options : ColumnFamilyOptions }.
Definition Options_default `{L : Library} : Options := mkOptions DB.DBOptions_default ColumnFamilyOptions_default.
Definition Options_new (db_options : DB.DBOptions) (column_family_options : ColumnFamilyOptions) : Options :=
  mkOptions db_options column_family_options.
Definition Options_members (o : Options) : list (string * value) :=
  DB.DBOptions_members (db_options o) ++ ColumnFamilyOptions_members (cf_options o).

(** [CompressionOptions::SetMinRatio]; the conversion to [int] truncates, and
    [None] is a quotient that is not an [int]. *)
Definition SetMinRatio (min_ratio : Q) (o : CompressionOptions) : option CompressionOptions :=
  if Qeq_bool min_ratio 0 then None
  else
    let v := (1024 / min_ratio + (1 # 2))%Q in
    let n := Z.quot (Qnum v) (Zpos (Qden v)) in
    if (- 2 ^ 31 <=? n) && (n <? 2 ^ 31) then
      Some (mkCompressionOptions (window_bits o) (level o) (strategy o) (max_dict_bytes o)
        (zstd_max_train_bytes o) (parallel_threads o) (enabled o) (max_dict_buffer_bytes o)
        (use_zstd_dict_trainer o) n (checksum o))
    else None.

(** ** Compaction services *)

Record CompactionServiceJobInfo := mkCompactionServiceJobInfo {
  db_name : bytes; db_id : bytes; db_session_id : bytes; cf_id : Z; cf_name : bytes; job_id : Z;
  priority : Priority; compaction_reason : CompactionReason; is_full_compaction : bool;
  is_manual_compaction : bool; bottommost_level : bool; base_input_level : Z; output_level : Z;
}.

Record CompactionServiceScheduleResponse := mkScheduleResponse {
  scheduled_job_id : bytes; status : CompactionServiceJobStatus;
}.
Definition ScheduleResponse_new (scheduled_job_id_ : bytes) (status_ : CompactionServiceJobStatus) :
    CompactionServiceScheduleResponse := mkScheduleResponse scheduled_job_id_ status_.
Definition ScheduleResponse_status (status_ : CompactionServiceJobStatus) : CompactionServiceScheduleResponse :=
  mkScheduleResponse [] status_.

Inductive service_call : Type → Type :=
| sv_Name : service_call bytes
| sv_Schedule (info : CompactionServiceJobInfo) (compaction_service_input : bytes) :
    service_call CompactionServiceScheduleResponse
| sv_Wait (id result : bytes) : service_call (CompactionServiceJobStatus * bytes)
| sv_CancelAwaitingJobs : service_call unit
| sv_OnInstallation (id : bytes) (s : CompactionServiceJobStatus) : service_call unit.

(** [Wait] leaves the string at [result] as it is. *)
Definition CompactionService_bodies {St} (_ : Z) (_ : object service_call St) : object service_call St := λ R c,
  match c in service_call R return M St R with
  | sv_Name => pure_virtual
  | sv_Schedule _ _ => ret (ScheduleResponse_status CompactionServiceJobStatus_kUseLocal)
  | sv_Wait _ result => ret (CompactionServiceJobStatus_kUseLocal, result)
  | sv_CancelAwaitingJobs => ret tt
  | sv_OnInstallation _ _ => ret tt
  end.

(** ** Documented defaults *)

Section Defaults.
Context `{L : Library}.

(** The structs with their defaults and what the comments say about them. *)
Definition structs : list (string * list (string * value) * list (string * doc)) := [
  ("CompressionOptions", Compression.CompressionOptions_members Compression.CompressionOptions_default,
    []);
  ("CompactionOptionsUniversal", Universal.CompactionOptionsUniversal_members Universal.CompactionOptionsUniversal_default,
    Universal.CompactionOptionsUniversal_documented);
  ("CompactionOptionsFIFO", Fifo.CompactionOptionsFIFO_members Fifo.CompactionOptionsFIFO_default,
    Fifo.CompactionOptionsFIFO_documented);
  ("AdvancedOptions_buffers", Adv.AdvancedOptions_buffers_members Adv.AdvancedOptions_buffers_default,
    Adv.AdvancedOptions_buffers_documented);
  ("AdvancedOptions_memtable", Adv.AdvancedOptions_memtable_members Adv.AdvancedOptions_memtable_default,
    Adv.AdvancedOptions_memtable_documented);
  ("AdvancedOptions_levels", Adv.AdvancedOptions_levels_members Adv.AdvancedOptions_levels_default,
    Adv.AdvancedOptions_levels_documented);
  ("AdvancedOptions_compaction", Adv.AdvancedOptions_compaction_members Adv.AdvancedOptions_compaction_default,
    Adv.AdvancedOptions_compaction_documented);
  ("AdvancedOptions_tables", Adv.AdvancedOptions_tables_members Adv.AdvancedOptions_tables_default,
    Adv.AdvancedOptions_tables_documented);
  ("AdvancedOptions_ageing", Adv.AdvancedOptions_ageing_members Adv.AdvancedOptions_ageing_default,
    Adv.AdvancedOptions_ageing_documented);
  ("AdvancedOptions_blobs", Adv.AdvancedOptions_blobs_members Adv.AdvancedOptions_blobs_default,
    Adv.AdvancedOptions_blobs_documented);
  ("AdvancedOptions_protection", Adv.AdvancedOptions_protection_members Adv.AdvancedOptions_protection_default,
    Adv.AdvancedOptions_protection_documented);
  ("ColumnFamilyOptions_keys", CF.ColumnFamilyOptions_keys_members CF.ColumnFamilyOptions_keys_default,
    CF.ColumnFamilyOptions_keys_documented);
  ("ColumnFamilyOptions_files", CF.ColumnFamilyOptions_files_members CF.ColumnFamilyOptions_files_default,
    CF.ColumnFamilyOptions_files_documented);
  ("ColumnFamilyOptions_caching", CF.ColumnFamilyOptions_caching_members CF.ColumnFamilyOptions_caching_default,
    []);
  ("DBOptions_checks", DB.DBOptions_checks_members DB.DBOptions_checks_default,
    DB.DBOptions_checks_documented);
  ("DBOptions_resources", DB.DBOptions_resources_members DB.DBOptions_resources_default,
    DB.DBOptions_resources_documented);
  ("DBOptions_jobs", DB.DBOptions_jobs_members DB.DBOptions_jobs_default,
    DB.DBOptions_jobs_documented);
  ("DBOptions_io", DB.DBOptions_io_members DB.DBOptions_io_default,
    DB.DBOptions_io_documented);
  ("DBOptions_writes", DB.DBOptions_writes_members DB.DBOptions_writes_default,
    DB.DBOptions_writes_documented);
  ("DBOptions_recovery", DB.DBOptions_recovery_members DB.DBOptions_recovery_default,
    DB.DBOptions_recovery_documented);
  ("DBOptions_errors", DB.DBOptions_errors_members DB.DBOptions_errors_default,
    DB.DBOptions_errors_documented);
  ("DBOptions_followers", DB.DBOptions_followers_members DB.DBOptions_followers_default,
    DB.DBOptions_followers_documented);
  ("ReadOptions_lookup", Reads.ReadOptions_lookup_members Reads.ReadOptions_lookup_default,
    []);
  ("ReadOptions_iteration", Reads.ReadOptions_iteration_members Reads.ReadOptions_iteration_default,
    Reads.ReadOptions_iteration_documented);
  ("ReadOptions_request", Reads.ReadOptions_request_members Reads.ReadOptions_request_default,
    Reads.ReadOptions_request_documented);
  ("WriteOptions", Writes.WriteOptions_members Writes.WriteOptions_default,
    Writes.WriteOptions_documented);
  ("FlushOptions", Flush.FlushOptions_members Flush.FlushOptions_default,
    Flush.FlushOptions_documented);
  ("CompactionOptions", Compact.CompactionOptions_members Compact.CompactionOptions_default,
    Compact.CompactionOptions_documented);
  ("CompactRangeOptions", CompactRange.CompactRangeOptions_members CompactRange.CompactRangeOptions_default,
    CompactRange.CompactRangeOptions_documented);
  ("IngestExternalFileOptions", Ingest.IngestExternalFileOptions_members Ingest.IngestExternalFileOptions_default,
    []);
  ("IngestExternalFileArg", IngestArg.IngestExternalFileArg_members IngestArg.IngestExternalFileArg_default,
    []);
  ("TraceOptions", Trace.TraceOptions_members Trace.TraceOptions_default,
    Trace.TraceOptions_documented);
  ("ImportColumnFamilyOptions", ImportCF.ImportColumnFamilyOptions_members ImportCF.ImportColumnFamilyOptions_default,
    []);
  ("CompactionServiceOptionsOverride", Override.CompactionServiceOptionsOverride_members Override.CompactionServiceOptionsOverride_default,
    []);
  ("OpenAndCompactOptions", OpenAndCompact.OpenAndCompactOptions_members OpenAndCompact.OpenAndCompactOptions_default,
    []);
  ("LiveFilesStorageInfoOptions", LiveFiles.LiveFilesStorageInfoOptions_members LiveFiles.LiveFilesStorageInfoOptions_default,
    []);
  ("WaitForCompactOptions", WaitForCompact.WaitForCompactOptions_members WaitForCompact.WaitForCompactOptions_default,
    []);
  ("MetadataCacheOptions", Metadata.MetadataCacheOptions_members Metadata.MetadataCacheOptions_default,
    []);
  ("BlockBasedTableOptions_caching", Table.BlockBasedTableOptions_caching_members Table.BlockBasedTableOptions_caching_default,
    []);
  ("BlockBasedTableOptions_blocks", Table.BlockBasedTableOptions_blocks_members Table.BlockBasedTableOptions_blocks_default,
    []);
  ("BlockBasedTableOptions_filters", Table.BlockBasedTableOptions_filters_members Table.BlockBasedTableOptions_filters_default,
    Table.BlockBasedTableOptions_filters_documented);
  ("BlockBasedTableOptions_readahead", Table.BlockBasedTableOptions_readahead_members Table.BlockBasedTableOptions_readahead_default,
    Table.BlockBasedTableOptions_readahead_documented);
  ("TransactionDBOptions", TxnDB.TransactionDBOptions_members TxnDB.TransactionDBOptions_default,
    []);
  ("TransactionOptions", TxnOptions.TransactionOptions_members TxnOptions.TransactionOptions_default,
    TxnOptions.TransactionOptions_documented);
  ("TransactionDBWriteOptimizations", TxnWrites.TransactionDBWriteOptimizations_members TxnWrites.TransactionDBWriteOptimizations_default,
    []);
  ("OptimisticTransactionOptions", OccTxn.OptimisticTransactionOptions_members OccTxn.OptimisticTransactionOptions_default,
    []);
  ("OptimisticTransactionDBOptions", OccDB.OptimisticTransactionDBOptions_members OccDB.OptimisticTransactionDBOptions_default,
    []);
  ("PlainTableOptions", Plain.PlainTableOptions_members Plain.PlainTableOptions_default,
    []);
  ("CuckooTableOptions", Cuckoo.CuckooTableOptions_members Cuckoo.CuckooTableOptions_default,
    [])].

Definition struct_ok (s : string * list (string * value) * list (string * doc)) : bool :=
  let '(_, ms, ds) := s in
  forallb (λ '(n, d), match member n ms with Some v => documents d v | None => false end) ds
  && forallb (λ '(_, v), fits v) ms.

Lemma structs_ok : forallb struct_ok structs = true.
Proof. vm_compute. reflexivity. Qed.

Lemma struct_ok_in name ms ds : (name, ms, ds) ∈ structs → struct_ok (name, ms, ds) = true.
Proof.
  intros Hin. pose proof structs_ok as Hok. rewrite forallb_forall in Hok.
  apply Hok. by apply list_elem_of_In.
Qed.

(** The default of a member is the one its comment names. *)
Theorem defaults_documented name ms ds n d :
  (name, ms, ds) ∈ structs → (n, d) ∈ ds → ∃ v, member n ms = Some v ∧ documents d v = true.
Proof.
  intros Hs%struct_ok_in Hd. unfold struct_ok in Hs. apply andb_prop in Hs as [Hs _].
  rewrite forallb_forall in Hs. specialize (Hs (n, d) (proj1 (list_elem_of_In _ _) Hd)).
  simpl in Hs. destruct (member n ms) as [v|]; [by exists v|done].
Qed.

(** The default of a member of an integer type is a value of that type. *)
Theorem defaults_fit name ms ds n signed w z :
  (name, ms, ds) ∈ structs → (n, VInt signed w z) ∈ ms →
  if signed then - 2 ^ (w - 1) ≤ z < 2 ^ (w - 1) else 0 ≤ z < 2 ^ w.
Proof.
  intros Hs%struct_ok_in Hm. unfold struct_ok in Hs. apply andb_prop in Hs as [_ Hs].
  rewrite forallb_forall in Hs. specialize (Hs _ (proj1 (list_elem_of_In _ _) Hm)). simpl in Hs.
  destruct signed; apply andb_prop in Hs as [H1 H2]; lia.
Qed.

(** The comment says [inplace_update_num_locks] is 0 when [inplace_update_support]
    is off, as it is by default. *)
Theorem inplace_locks_default :
  Adv.inplace_update_support Adv.AdvancedOptions_buffers_default = false ∧
  Adv.inplace_update_num_locks Adv.AdvancedOptions_buffers_default = 10000.
Proof. done. Qed.
End Defaults.

(** ** Compression ratios *)

Lemma Qfloor_quot (q : Q) : (0 <= q)%Q → Z.quot (Qnum q) (Zpos (Qden q)) = Qround.Qfloor q.
Proof.
  destruct q as [n d]. unfold Qle. simpl. intros H. unfold Qround.Qfloor. simpl.
  apply Z.quot_div_nonneg; lia.
Qed.

(** A minimum ratio between 1 and 2048 gives a number of bytes per kilobyte in the
    documented range from 1 to 1024, the integer closest to [1024 / min_ratio];
    nothing else of the options changes. *)
Theorem min_ratio_rounds (r : Q) (o : CompressionOptions) : (1 <= r)%Q → (r <= 2048)%Q →
  ∃ o', SetMinRatio r o = Some o' ∧ 1 ≤ max_compressed_bytes_per_kb o' ≤ 1024 ∧
    (1024 / r - (1 # 2) < inject_Z (max_compressed_bytes_per_kb o') <= 1024 / r + (1 # 2))%Q ∧
    ∀ n, n ≠ "max_compressed_bytes_per_kb" →
      member n (CompressionOptions_members o') = member n (CompressionOptions_members o).
Proof.
  intros H1 H2. assert (0 < r)%Q as Hr by (eapply Qlt_le_trans; [|done]; done).
  assert (Hlo : (1 # 2 <= 1024 / r)%Q).
  { apply Qle_shift_div_l; [done|]. apply Qle_trans with ((1 # 2) * 2048)%Q; [|by vm_compute].
    rewrite (Qmult_comm _ r), (Qmult_comm _ 2048). by apply Qmult_le_compat_r. }
  assert (Hhi : (1024 / r <= 1024)%Q).
  { apply Qle_shift_div_r; [done|]. apply Qle_trans with (1024 * 1)%Q; [by vm_compute|].
    rewrite (Qmult_comm _ 1), (Qmult_comm _ r). by apply Qmult_le_compat_r. }
  unfold SetMinRatio. destruct (Qeq_bool r 0) eqn:E0.
  { apply Qeq_bool_eq in E0. rewrite E0 in Hr. by apply Qlt_irrefl in Hr. }
  set (v := (1024 / r + (1 # 2))%Q).
  assert (Hv1 : (1 <= v)%Q).
  { apply Qle_trans with ((1 # 2) + (1 # 2))%Q; [by vm_compute|]. by apply Qplus_le_compat; [|apply Qle_refl]. }
  assert (Hv2 : (v <= 1024 + (1 # 2))%Q) by (by apply Qplus_le_compat; [|apply Qle_refl]).
  rewrite Qfloor_quot by (apply Qle_trans with 1%Q; [by vm_compute|done]).
  pose proof (Qround.Qfloor_resp_le _ _ Hv1) as F1. pose proof (Qround.Qfloor_resp_le _ _ Hv2) as F2.
  change (Qround.Qfloor 1) with 1 in F1. change (Qround.Qfloor (1024 + (1 # 2))) with 1024 in F2.
  destruct ((- 2 ^ 31 <=? Qround.Qfloor v) && (Qround.Qfloor v <? 2 ^ 31)) eqn:E; [|lia].
  eexists; split; [done|]. cbn [max_compressed_bytes_per_kb]. split; [lia|]. split; [split|].
  - pose proof (Qround.Qlt_floor v) as Hf. rewrite inject_Z_plus in Hf.
    apply Qplus_lt_l with 1%Q. eapply Qle_lt_trans; [|apply Hf]. unfold v.
    apply Qle_lteq; right. ring.
  - apply Qround.Qfloor_le.
  - intros n Hn. unfold CompressionOptions_members. cbn -[String.eqb]. rewrite (proj2 (String.eqb_neq "max_compressed_bytes_per_kb" n)) by congruence.
    done.
Qed.

(** The example of the comment, and the default. *)
Lemma min_ratio_examples :
  (max_compressed_bytes_per_kb <$> SetMinRatio (3 # 2) CompressionOptions_default) = Some 683 ∧
  SetMinRatio (8 # 7) CompressionOptions_default = Some CompressionOptions_default.
Proof. split; reflexivity. Qed.

(** Above 2048 the option leaves its documented range. *)
Lemma min_ratio_zero :
  (max_compressed_bytes_per_kb <$> SetMinRatio 2049 CompressionOptions_default) = Some 0.
Proof. reflexivity. Qed.

(** ** Combinations of options *)

Definition implb_of (a b : bool) : bool := negb a || b.

Fixpoint increasing (l : list Z) : bool :=
  match l with
  | a :: (b :: _) as rest => (a <? b) && increasing rest
  | _ => true
  end.

Definition power_of_two (n : Z) : bool := (0 <? n) && (Z.land n (n - 1) =? 0).

(** What the comments of the headers require of the members of the options of a
    database, of its tables and of its reads, by the member with the comment. *)
Definition requirements (o : Options) (t : Table.BlockBasedTableOptions) (r : Reads.ReadOptions) :
    list (string * bool) :=
  let d := db_options o in
  let c := cf_options o in
  let a := advanced c in
  let universal := Adv.compaction_options_universal (Adv.compaction_ a) in
  let fifo := Adv.compaction_options_fifo (Adv.compaction_ a) in
  let trigger := CF.level0_file_num_compaction_trigger (files c) in
  let concurrent := DB.allow_concurrent_memtable_write (DB.writes_ d) in
  [("allow_concurrent_memtable_write",
     implb_of concurrent (negb (Adv.inplace_update_support (Adv.buffers_ a))));
   ("write_dbid_to_manifest",
     DB.write_dbid_to_manifest (DB.recovery_ d) || DB.write_identity_file (DB.recovery_ d));
   ("persist_user_defined_timestamps",
     Adv.persist_user_defined_timestamps (Adv.protection_ a)
     || negb (DB.atomic_flush (DB.recovery_ d)) && negb concurrent);
   ("cf_allow_ingest_behind",
     implb_of (Adv.cf_allow_ingest_behind (Adv.protection_ a))
       ((3 <=? Adv.num_levels (Adv.levels_ a))
        && (CompactionStyle_value (Adv.compaction_style (Adv.compaction_ a))
              =? CompactionStyle_value kCompactionStyleUniversal)));
   ("max_read_amp",
     (-1 <=? max_read_amp universal)
     && implb_of (0 <? max_read_amp universal) (trigger <=? max_read_amp universal));
   ("file_temperature_age_thresholds", increasing (age <$> file_temperature_age_thresholds fifo));
   ("trivial_copy_buffer_size",
     implb_of (allow_trivial_copy_when_change_temperature fifo) (4096 <=? trivial_copy_buffer_size fifo));
   ("memtable_protection_bytes_per_key",
     bool_decide (Adv.memtable_protection_bytes_per_key (Adv.blobs_ a) ∈ [0; 1; 2; 4; 8]));
   ("block_protection_bytes_per_key",
     bool_decide (Adv.block_protection_bytes_per_key (Adv.protection_ a) ∈ [0; 1; 2; 4; 8]));
   ("arena_block_size",
     (Adv.arena_block_size (Adv.memtable_ a) =? 0)
     || (4096 <=? Adv.arena_block_size (Adv.memtable_ a))
        && (Adv.arena_block_size (Adv.memtable_ a) <=? Z.shiftl 2 30)
        && (Adv.arena_block_size (Adv.memtable_ a) mod 8 =? 0));
   ("compaction_filter",
     negb (bool_decide (is_Some (CF.compaction_filter (keys c)))
           && bool_decide (is_Some (CF.compaction_filter_factory (keys c)))));
   ("partition_filters",
     implb_of (Table.partition_filters (Table.blocks_ t))
       (IndexType_value (Table.index_type (Table.caching_ t)) =? IndexType_value kTwoLevelIndexSearch));
   ("read_amp_bytes_per_bit",
     (Table.read_amp_bytes_per_bit (Table.filters_ t) =? 0)
     || power_of_two (Table.read_amp_bytes_per_bit (Table.filters_ t)));
   ("format_version",
     (2 <=? Table.format_version (Table.filters_ t)) && (Table.format_version (Table.filters_ t) <=? 7));
   ("initial_auto_readahead_size",
     Table.initial_auto_readahead_size (Table.readahead_ t) <=? Table.max_auto_readahead_size (Table.readahead_ t));
   ("pin_data",
     implb_of (Reads.pin_data (Reads.iteration_ r)) (negb (Table.use_delta_encoding (Table.filters_ t))))].

(** The number of background jobs that the deprecated options stand for. *)
Definition background_jobs (o : Options) : Z :=
  let jobs := DB.jobs_ (db_options o) in
  let compactions := DB.max_background_compactions jobs in
  let flushes := DB.max_background_flushes jobs in
  if (compactions =? -1) && (flushes =? -1) then DB.max_background_jobs jobs
  else (if compactions =? -1 then 1 else compactions) + (if flushes =? -1 then 1 else flushes).

(** Assignments to members. *)
Definition set_create_if_missing (v : bool) (o : Options) : Options :=
  let d := db_options o in
  let g := DB.checks_ d in
  let g := DB.mkDBOptions_checks v (DB.create_missing_column_families g) (DB.error_if_exists g)
      (DB.paranoid_checks g) (DB.flush_verify_memtable_count g) (DB.compaction_verify_record_count g)
      (DB.track_and_verify_wals_in_manifest g) (DB.track_and_verify_wals g)
      (DB.verify_sst_unique_id_in_manifest g) (DB.env g) in
  mkOptions (DB.mkDBOptions g (DB.resources_ d) (DB.jobs_ d) (DB.io_ d) (DB.writes_ d) (DB.recovery_ d) (DB.errors_ d)
      (DB.followers_ d)) (cf_options o).
Definition set_max_open_files (v : Z) (o : Options) : Options :=
  let d := db_options o in
  let g := DB.resources_ d in
  let g := DB.mkDBOptions_resources (DB.rate_limiter g) (DB.sst_file_manager g) (DB.info_log g) (DB.info_log_level g)
      v (DB.max_file_opening_threads g) (DB.max_total_wal_size g) (DB.statistics g) (DB.use_fsync g)
      (DB.db_paths g) (DB.db_log_dir g) (DB.wal_dir g) in
  mkOptions (DB.mkDBOptions (DB.checks_ d) g (DB.jobs_ d) (DB.io_ d) (DB.writes_ d) (DB.recovery_ d) (DB.errors_ d)
      (DB.followers_ d)) (cf_options o).
Definition set_max_background_compactions (v : Z) (o : Options) : Options :=
  let d := db_options o in
  let g := DB.jobs_ d in
  let g := DB.mkDBOptions_jobs (DB.delete_obsolete_files_period_micros g) (DB.max_background_jobs g) v
      (DB.max_subcompactions g) (DB.max_background_flushes g) (DB.max_log_file_size g)
      (DB.log_file_time_to_roll g) (DB.keep_log_file_num g) (DB.recycle_log_file_num g)
      (DB.max_manifest_file_size g) (DB.table_cache_numshardbits g) (DB.WAL_ttl_seconds g)
      (DB.WAL_size_limit_MB g) (DB.manifest_preallocation_size g) (DB.allow_mmap_reads g)
      (DB.allow_mmap_writes g) in
  mkOptions (DB.mkDBOptions (DB.checks_ d) (DB.resources_ d) g (DB.io_ d) (DB.writes_ d) (DB.recovery_ d)
      (DB.errors_ d) (DB.followers_ d)) (cf_options o).
Definition set_max_background_flushes (v : Z) (o : Options) : Options :=
  let d := db_options o in
  let g := DB.jobs_ d in
  let g := DB.mkDBOptions_jobs (DB.delete_obsolete_files_period_micros g) (DB.max_background_jobs g)
      (DB.max_background_compactions g) (DB.max_subcompactions g) v (DB.max_log_file_size g)
      (DB.log_file_time_to_roll g) (DB.keep_log_file_num g) (DB.recycle_log_file_num g)
      (DB.max_manifest_file_size g) (DB.table_cache_numshardbits g) (DB.WAL_ttl_seconds g)
      (DB.WAL_size_limit_MB g) (DB.manifest_preallocation_size g) (DB.allow_mmap_reads g)
      (DB.allow_mmap_writes g) in
  mkOptions (DB.mkDBOptions (DB.checks_ d) (DB.resources_ d) g (DB.io_ d) (DB.writes_ d) (DB.recovery_ d)
      (DB.errors_ d) (DB.followers_ d)) (cf_options o).
Definition set_write_buffer_size (v : Z) (o : Options) : Options :=
  let c := cf_options o in
  let g := keys c in
  let g := CF.mkColumnFamilyOptions_keys (CF.comparator g) (CF.merge_operator g) (CF.compaction_filter g)
      (CF.compaction_filter_factory g) v (CF.compression g) in
  mkOptions (db_options o) (mkColumnFamilyOptions (advanced c) g (files c) (caching c)).
Definition set_compression (v : CompressionType) (o : Options) : Options :=
  let c := cf_options o in
  let g := keys c in
  let g := CF.mkColumnFamilyOptions_keys (CF.comparator g) (CF.merge_operator g) (CF.compaction_filter g)
      (CF.compaction_filter_factory g) (CF.write_buffer_size g) v in
  mkOptions (db_options o) (mkColumnFamilyOptions (advanced c) g (files c) (caching c)).
Definition set_table_factory (v : option Z) (o : Options) : Options :=
  let c := cf_options o in
  let g := files c in
  let g := CF.mkColumnFamilyOptions_files (CF.bottommost_compression g) (CF.bottommost_compression_opts g)
      (CF.compression_opts g) (CF.compression_manager g) (CF.level0_file_num_compaction_trigger g)
      (CF.prefix_extractor g) (CF.max_bytes_for_level_base g) (CF.snap_refresh_nanos g)
      (CF.disable_auto_compactions g) v (CF.cf_paths g) (CF.compaction_thread_limiter g)
      (CF.sst_partitioner_factory g) (CF.memtable_max_range_deletions g) in
  mkOptions (db_options o) (mkColumnFamilyOptions (advanced c) (keys c) g (caching c)).
Definition set_block_cache (v : option Z) (o : Table.BlockBasedTableOptions) : Table.BlockBasedTableOptions :=
  let g := Table.caching_ o in
  let g := Table.mkBlockBasedTableOptions_caching (Table.flush_block_policy_factory g)
      (Table.cache_index_and_filter_blocks g) (Table.cache_index_and_filter_blocks_with_high_priority g)
      (Table.pin_l0_filter_and_index_blocks_in_cache g) (Table.pin_top_level_index_and_filter g)
      (Table.metadata_cache_options g) (Table.index_type g) (Table.data_block_index_type g)
      (Table.data_block_hash_table_util_ratio g) (Table.checksum g) (Table.no_block_cache g) v
      (Table.persistent_cache g) in
  Table.mkBlockBasedTableOptions g (Table.blocks_ o) (Table.filters_ o) (Table.readahead_ o).

(** ** Constants of the C interface (c.h)

    The functions of the C interface take an enumerator as an [int] and convert it:
    a constant of c.h has to have the value of the enumerator it stands for.  Each
    table has the constants of one enum of c.h with that enumerator. *)

Definition c_index_types : list (string * Z * Z) := [
  ("rocksdb_block_based_table_index_type_binary_search", 0, IndexType_value kBinarySearch);
  ("rocksdb_block_based_table_index_type_hash_search", 1, IndexType_value kHashSearch);
  ("rocksdb_block_based_table_index_type_two_level_index_search", 2, IndexType_value kTwoLevelIndexSearch)].
Definition c_data_block_index_types : list (string * Z * Z) := [
  ("rocksdb_block_based_table_data_block_index_type_binary_search", 0,
    DataBlockIndexType_value kDataBlockBinarySearch);
  ("rocksdb_block_based_table_data_block_index_type_binary_search_and_hash", 1,
    DataBlockIndexType_value kDataBlockBinaryAndHash)].
Definition c_pinning_tiers : list (string * Z * Z) := [
  ("rocksdb_block_based_k_fallback_pinning_tier", 0, PinningTier_value PinningTier_kFallback);
  ("rocksdb_block_based_k_none_pinning_tier", 1, PinningTier_value PinningTier_kNone);
  ("rocksdb_block_based_k_flush_and_similar_pinning_tier", 2, PinningTier_value PinningTier_kFlushedAndSimilar);
  ("rocksdb_block_based_k_all_pinning_tier", 3, PinningTier_value PinningTier_kAll)].
Definition c_statistics_levels : list (string * Z * Z) := [
  ("rocksdb_statistics_level_disable_all", 0, StatsLevel_value kDisableAll);
  ("rocksdb_statistics_level_except_tickers", 0, StatsLevel_value kExceptTickers);
  ("rocksdb_statistics_level_except_histogram_or_timers", 1, StatsLevel_value kExceptHistogramOrTimers);
  ("rocksdb_statistics_level_except_timers", 2, StatsLevel_value kExceptTimers);
  ("rocksdb_statistics_level_except_detailed_timers", 3, StatsLevel_value kExceptDetailedTimers);
  ("rocksdb_statistics_level_except_time_for_mutex", 4, StatsLevel_value kExceptTimeForMutex);
  ("rocksdb_statistics_level_all", 5, StatsLevel_value kAll)].
Definition c_prepopulate_blob : list (string * Z * Z) := [
  ("rocksdb_prepopulate_blob_disable", 0, PrepopulateBlobCache_value PrepopulateBlobCache_kDisable);
  ("rocksdb_prepopulate_blob_flush_only", 1, PrepopulateBlobCache_value PrepopulateBlobCache_kFlushOnly)].
Definition c_recovery_modes : list (string * Z * Z) := [
  ("rocksdb_tolerate_corrupted_tail_records_recovery", 0,
    WALRecoveryMode_value WALRecoveryMode_kTolerateCorruptedTailRecords);
  ("rocksdb_absolute_consistency_recovery", 1, WALRecoveryMode_value WALRecoveryMode_kAbsoluteConsistency);
  ("rocksdb_point_in_time_recovery", 2, WALRecoveryMode_value WALRecoveryMode_kPointInTimeRecovery);
  ("rocksdb_skip_any_corrupted_records_recovery", 3,
    WALRecoveryMode_value WALRecoveryMode_kSkipAnyCorruptedRecords)].
Definition c_compressions : list (string * Z * Z) := [
  ("rocksdb_no_compression", 0, CompressionType_value kNoCompression);
  ("rocksdb_snappy_compression", 1, CompressionType_value kSnappyCompression);
  ("rocksdb_zlib_compression", 2, CompressionType_value kZlibCompression);
  ("rocksdb_bz2_compression", 3, CompressionType_value kBZip2Compression);
  ("rocksdb_lz4_compression", 4, CompressionType_value kLZ4Compression);
  ("rocksdb_lz4hc_compression", 5, CompressionType_value kLZ4HCCompression);
  ("rocksdb_xpress_compression", 6, CompressionType_value kXpressCompression);
  ("rocksdb_zstd_compression", 7, CompressionType_value kZSTD)].
Definition c_compaction_styles : list (string * Z * Z) := [
  ("rocksdb_level_compaction", 0, CompactionStyle_value kCompactionStyleLevel);
  ("rocksdb_universal_compaction", 1, CompactionStyle_value kCompactionStyleUniversal);
  ("rocksdb_fifo_compaction", 2, CompactionStyle_value kCompactionStyleFIFO)].
Definition c_compaction_pris : list (string * Z * Z) := [
  ("rocksdb_k_by_compensated_size_compaction_pri", 0, CompactionPri_value kByCompensatedSize);
  ("rocksdb_k_oldest_largest_seq_first_compaction_pri", 1, CompactionPri_value kOldestLargestSeqFirst);
  ("rocksdb_k_oldest_smallest_seq_first_compaction_pri", 2, CompactionPri_value kOldestSmallestSeqFirst);
  ("rocksdb_k_min_overlapping_ratio_compaction_pri", 3, CompactionPri_value kMinOverlappingRatio);
  ("rocksdb_k_round_robin_compaction_pri", 4, CompactionPri_value kRoundRobin)].
Definition c_stop_styles : list (string * Z * Z) := [
  ("rocksdb_similar_size_compaction_stop_style", 0, CompactionStopStyle_value kCompactionStopStyleSimilarSize);
  ("rocksdb_total_size_compaction_stop_style", 1, CompactionStopStyle_value kCompactionStopStyleTotalSize)].
Definition c_perf_levels : list (string * Z * Z) := [
  ("rocksdb_uninitialized", 0, PerfLevel_value PerfLevel_kUninitialized);
  ("rocksdb_disable", 1, PerfLevel_value PerfLevel_kDisable);
  ("rocksdb_enable_count", 2, PerfLevel_value PerfLevel_kEnableCount);
  ("rocksdb_enable_time_except_for_mutex", 3, PerfLevel_value PerfLevel_kEnableTimeExceptForMutex);
  ("rocksdb_enable_time", 4, PerfLevel_value PerfLevel_kEnableTime);
  ("rocksdb_out_of_bounds", 5, PerfLevel_value PerfLevel_kOutOfBounds)].

Definition c_constants : list (string * Z * Z) :=
  c_index_types ++ c_data_block_index_types ++ c_pinning_tiers ++ c_statistics_levels ++ c_prepopulate_blob
  ++ c_recovery_modes ++ c_compressions ++ c_compaction_styles ++ c_compaction_pris ++ c_stop_styles.

(** Every constant of c.h but those of the performance levels has the value of its
    enumerator. *)
Theorem c_constants_agree name c cpp : (name, c, cpp) ∈ c_constants → c = cpp.
Proof.
  intros Hin%list_elem_of_In.
  assert (H : forallb (λ '(_, a, b), a =? b) c_constants = true) by reflexivity.
  rewrite forallb_forall in H. specialize (H _ Hin). simpl in H. lia.
Qed.

(** The constants of c.h for the performance levels miss [kEnableWait] and
    [kEnableTimeAndCPUTimeExceptForMutex]: [rocksdb_enable_time_except_for_mutex] is
    the value of [kEnableWait] and [rocksdb_enable_time] that of
    [kEnableTimeExceptForMutex], so that a client that asks for all times gets no
    times of mutexes and no CPU times. *)
Theorem c_perf_levels_shifted :
  (λ '(n, c, cpp), (n, cpp)) <$> filter (λ '(_, c, cpp), c ≠ cpp) c_perf_levels =
    [("rocksdb_enable_time_except_for_mutex", 4); ("rocksdb_enable_time", 6); ("rocksdb_out_of_bounds", 7)] ∧
  PerfLevel_value PerfLevel_kEnableWait = 3.
Proof. split; reflexivity. Qed.

(** The number on disk gives the compression type back. *)
Theorem compression_type_roundtrip (t : CompressionType) :
  0 ≤ CompressionType_value t < 256 ∧ CompressionType_of (CompressionType_value t) = Some t.
Proof. destruct t; split; try reflexivity; simpl; lia. Qed.

Theorem compression_type_inverse (v : Z) (t : CompressionType) :
  CompressionType_of v = Some t → CompressionType_value t = v.
Proof.
  intros H. destruct v as [|p|p]; [by injection H as <-| |done].
  do 8 (destruct p as [p|p|]; try discriminate H; try (by injection H as <-)).
Qed.

Lemma requirements_default `{L : Library} :
  forallb snd (requirements Options_default Table.BlockBasedTableOptions_default Reads.ReadOptions_default) = true.
Proof. vm_compute. reflexivity. Qed.

(** [TableProperties::HasKeyLargestSeqno]. *)
Definition HasKeyLargestSeqno (p : Properties.TableProperties) : bool :=
  negb (Properties.key_largest_seqno (Properties.sizes_ p) =? 2 ^ 64 - 1).

Module OptionsExamples.

#[local] Instance library : Library := {|
  Env_Default := 1; BytewiseComparator := 2; new_SkipListFactory := 3;
  kHostnameForDbHostId := lit "__hostname__"; kDefaultLogLevel := INFO_LEVEL; kUnknownColumnFamily := 2 ^ 31 - 1;
  constructor_compression := kSnappyCompression; constructor_table_factory := Some 4;
|}.

Lemma flush_in_structs :
  ("FlushOptions", Flush.FlushOptions_members Flush.FlushOptions_default, Flush.FlushOptions_documented) ∈ structs.
Proof. unfold structs. repeat (first [left | right]). Qed.

Lemma defaults_documented_witness :
  ∃ v, member "wait" (Flush.FlushOptions_members Flush.FlushOptions_default) = Some v ∧
    documents (DBool true) v = true.
Proof.
  apply (defaults_documented "FlushOptions" _ Flush.FlushOptions_documented); [exact flush_in_structs|].
  left.
Defined.
End OptionsExamples.
