(* ===== verification/Compressors.v ===== *)
(** * Compression (libs/rocksdb/advanced_compression.h)

    The interfaces [Compressor], [Decompressor] and [CompressionManager], with the
    bodies of the functions that have one, and the classes that wrap them.  A
    compressor or decompressor that a function returns is its address, [None] if it
    is null; a managed working area is the address of the area and of its owner.
    The functions that the header only declares are fields of the classes
    [DecompressorImpl] and [ManagerImpl].

    The theorems: the wrappers answer as what they wrap, but for the functions they
    do not forward, and a block that a compressor and a decompressor carry over is
    carried over through any number of wrappers around both. *)

From stdpp Require Import base list strings.
From Stdlib Require Import ZArith Lia.
From S2P Require Import Prelude Slice Status Virtual Wrappers Options.

Open Scope Z_scope.

Section Compression.
Context {St : Type} `{SI : StatusImpl}.

(** ** Compressor *)

Record DictSampleArgs := mkDictSampleArgs { sample_data : bytes; sample_lens : list Z }.
Definition samples_empty (a : DictSampleArgs) : bool := bool_decide (sample_data a = []).
Definition samples_Verify (a : DictSampleArgs) : bool :=
  let total_len := fold_left u64_add (sample_lens a) 0 in
  total_len =? Z.of_nat (length (sample_data a)).

(** The area and the address of the compressor that releases it. *)
Abbreviation working_area := (option (Z * Z)).

(** [CompressBlock] returns the status, the output buffer, the size of the output
    and the compression type. *)
Inductive compressor_call : Type → Type :=
| cp_Name : compressor_call bytes
| cp_GetId : compressor_call bytes
| cp_GetMaxSampleSizeIfWantDict (block_type : CacheEntryRole) : compressor_call Z
| cp_GetSerializedDict : compressor_call Slice
| cp_GetPreferredCompressionType : compressor_call CompressionType
| cp_MaybeCloneSpecialized (block_type : CacheEntryRole) (dict_samples : DictSampleArgs) : compressor_call (option Z)
| cp_ReleaseWorkingArea (wa : option Z) : compressor_call unit
| cp_ObtainWorkingArea : compressor_call working_area
| cp_CompressBlock (uncompressed_data : Slice) (compressed_output : bytes) (compressed_output_size : Z)
    (out_compression_type : CompressionType) (wa : working_area) :
    compressor_call (Status * bytes * Z * CompressionType)
| cp_GetOptimizedDecompressor : compressor_call (option Z).

Definition Compressor_bodies (this : Z) (self : object compressor_call St) : object compressor_call St := λ R c,
  match c in compressor_call T return M St T with
  | cp_GetId => self _ cp_Name
  | cp_GetMaxSampleSizeIfWantDict _ => ret 0
  | cp_GetSerializedDict => ret Slice_empty
  | cp_GetPreferredCompressionType => ret kDisableCompressionOption
  | cp_MaybeCloneSpecialized _ dict_samples => if samples_empty dict_samples then ret None else M_opt None
  | cp_ReleaseWorkingArea _ => ret tt
  | cp_ObtainWorkingArea => ret None
  | cp_GetOptimizedDecompressor => ret None
  | cp_Name => pure_virtual
  | cp_CompressBlock _ _ _ _ _ => pure_virtual
  end.

Definition CompressorWrapper (wrapped_ : object compressor_call St) : overrides compressor_call St := λ R c,
  match c in compressor_call T return option (M St T) with
  | cp_GetMaxSampleSizeIfWantDict block_type => Some (wrapped_ _ (cp_GetMaxSampleSizeIfWantDict block_type))
  | cp_GetSerializedDict => Some (wrapped_ _ cp_GetSerializedDict)
  | cp_GetPreferredCompressionType => Some (wrapped_ _ cp_GetPreferredCompressionType)
  | cp_MaybeCloneSpecialized block_type dict_samples =>
      Some (wrapped_ _ (cp_MaybeCloneSpecialized block_type dict_samples))
  | cp_ObtainWorkingArea => Some (wrapped_ _ cp_ObtainWorkingArea)
  | cp_CompressBlock data out size type wa => Some (wrapped_ _ (cp_CompressBlock data out size type wa))
  | cp_GetOptimizedDecompressor => Some (wrapped_ _ cp_GetOptimizedDecompressor)
  | cp_Name => None
  | cp_GetId => None
  | cp_ReleaseWorkingArea _ => None
  end.

(** ** Decompressor *)

Record Args := mkArgs {
  compression_type : CompressionType; compressed_data : Slice; uncompressed_size : Z; args_area : option working_area;
}.
Definition Args_default : Args := mkArgs kNoCompression Slice_empty 0 None.

(** [MaybeCloneForDict] returns the status and what is stored in [out],
    [ExtractUncompressedSize] the status and the arguments, [DecompressBlock] the
    status and the output buffer. *)
Inductive decompressor_call : Type → Type :=
| dp_Name : decompressor_call bytes
| dp_ReleaseWorkingArea (wa : option Z) : decompressor_call unit
| dp_ObtainWorkingArea (preferred : CompressionType) : decompressor_call working_area
| dp_GetSerializedDict : decompressor_call Slice
| dp_MaybeCloneForDict (serialized_dict : Slice) (out : option Z) : decompressor_call (Status * option Z)
| dp_ApproximateOwnedMemoryUsage : decompressor_call Z
| dp_ExtractUncompressedSize (args : Args) : decompressor_call (Status * Args)
| dp_DecompressBlock (args : Args) (uncompressed_output : bytes) : decompressor_call (Status * bytes).

Class DecompressorImpl := {
  empty_dict : M St Slice;
  extract_size : Args → M St (Status * Args);
}.
Context `{DI : DecompressorImpl}.

Definition no_dictionary (name : bytes) : Status :=
  NotSupported (Slice_string (lit "Dictionary compression not (yet) supported by " ++ name)) Slice_empty.

Definition Decompressor_bodies (this : Z) (self : object decompressor_call St) : object decompressor_call St := λ R c,
  match c in decompressor_call T return M St T with
  | dp_ReleaseWorkingArea wa => match wa with None => ret tt | Some _ => M_opt None end
  | dp_ObtainWorkingArea _ => ret None
  | dp_GetSerializedDict => empty_dict
  | dp_MaybeCloneForDict _ out => name ← self _ dp_Name; ret (no_dictionary name, out)
  | dp_ApproximateOwnedMemoryUsage => ret 0
  | dp_ExtractUncompressedSize args => extract_size args
  | dp_Name => pure_virtual
  | dp_DecompressBlock _ _ => pure_virtual
  end.

Definition DecompressorWrapper (wrapped_ : object decompressor_call St) : overrides decompressor_call St := λ R c,
  match c in decompressor_call T return option (M St T) with
  | dp_Name => Some (wrapped_ _ dp_Name)
  | dp_ReleaseWorkingArea wa => Some (wrapped_ _ (dp_ReleaseWorkingArea wa))
  | dp_ObtainWorkingArea preferred => Some (wrapped_ _ (dp_ObtainWorkingArea preferred))
  | dp_GetSerializedDict => Some (wrapped_ _ dp_GetSerializedDict)
  | dp_MaybeCloneForDict serialized_dict out => Some (wrapped_ _ (dp_MaybeCloneForDict serialized_dict out))
  | dp_ApproximateOwnedMemoryUsage => Some (wrapped_ _ dp_ApproximateOwnedMemoryUsage)
  | dp_ExtractUncompressedSize args => Some (wrapped_ _ (dp_ExtractUncompressedSize args))
  | dp_DecompressBlock args out => Some (wrapped_ _ (dp_DecompressBlock args out))
  end.

(** ** CompressionManager *)

(** [context]: the address of the [FilterBuildingContext]. *)
Inductive manager_call : Type → Type :=
| mg_CompatibilityName : manager_call bytes
| mg_FindCompatible (compatibility_name : Slice) : manager_call (option Z)
| mg_SupportsCompressionType (type : CompressionType) : manager_call bool
| mg_GetCompressorForSST (context : Z) (opts : Compression.CompressionOptions) (preferred : CompressionType) :
    manager_call (option Z)
| mg_GetCompressor (opts : Compression.CompressionOptions) (type : CompressionType) : manager_call (option Z)
| mg_GetDecompressor : manager_call (option Z)
| mg_GetDecompressorOptimizeFor (optimize_for_type : CompressionType) : manager_call (option Z)
| mg_GetDecompressorForTypes (types : list CompressionType) : manager_call (option Z).

Class ManagerImpl := { find_compatible : Z → object manager_call St → Slice → M St (option Z) }.
Context `{MI : ManagerImpl}.

Definition CompressionManager_bodies (this : Z) (self : object manager_call St) : object manager_call St := λ R c,
  match c in manager_call T return M St T with
  | mg_FindCompatible name => find_compatible this self name
  | mg_GetCompressorForSST _ opts preferred => self _ (mg_GetCompressor opts preferred)
  | mg_GetDecompressorOptimizeFor _ => self _ mg_GetDecompressor
  | mg_GetDecompressorForTypes _ => self _ mg_GetDecompressor
  | mg_CompatibilityName => pure_virtual
  | mg_SupportsCompressionType _ => pure_virtual
  | mg_GetCompressor _ _ => pure_virtual
  | mg_GetDecompressor => pure_virtual
  end.

Definition CompressionManagerWrapper (wrapped_ : object manager_call St) : overrides manager_call St := λ R c,
  match c in manager_call T return option (M St T) with
  | mg_CompatibilityName => Some (wrapped_ _ mg_CompatibilityName)
  | mg_FindCompatible name => Some (wrapped_ _ (mg_FindCompatible name))
  | mg_SupportsCompressionType type => Some (wrapped_ _ (mg_SupportsCompressionType type))
  | mg_GetCompressorForSST context opts preferred => Some (wrapped_ _ (mg_GetCompressorForSST context opts preferred))
  | mg_GetCompressor opts type => Some (wrapped_ _ (mg_GetCompressor opts type))
  | mg_GetDecompressor => Some (wrapped_ _ mg_GetDecompressor)
  | mg_GetDecompressorOptimizeFor type => Some (wrapped_ _ (mg_GetDecompressorOptimizeFor type))
  | mg_GetDecompressorForTypes types => Some (wrapped_ _ (mg_GetDecompressorForTypes types))
  end.

(** ** The wrappers *)

(** A class derived from [CompressorWrapper] has a name of its own, hence an
    identifier of its own, and areas are released by their owner. *)
Definition compressor_hidden {R} (c : compressor_call R) : bool :=
  match c with cp_Name | cp_GetId | cp_ReleaseWorkingArea _ => true | _ => false end.
Definition compressor_has_body {R} (c : compressor_call R) : bool :=
  match c with cp_Name | cp_GetId | cp_CompressBlock _ _ _ _ _ => false | _ => true end.

#[export] Instance compressor_wrapper : Transparent compressor_call St Compressor_bodies CompressorWrapper.
Proof.
  refine {| overload := λ _ _, false; hidden := @compressor_hidden; has_body := @compressor_has_body;
    depth := λ _ _, 1%nat; max_depth := 1; overload_has_body := λ _ _ H, False_ind _ (diff_false_true H) |}.
  - intros R c. lia.
  - intros t R c Hc. by destruct c.
  - intros a b self self' R c s Hb _ _. by destruct c.
Defined.

Definition decompressor_has_body {R} (c : decompressor_call R) : bool :=
  match c with dp_Name | dp_DecompressBlock _ _ => false | _ => true end.
Definition decompressor_depth {R} (c : decompressor_call R) : nat :=
  match c with dp_MaybeCloneForDict _ _ => 2 | _ => 1 end.

#[export] Instance decompressor_wrapper : Transparent decompressor_call St Decompressor_bodies DecompressorWrapper.
Proof.
  refine {| overload := λ _ _, false; hidden := λ _ _, false; has_body := @decompressor_has_body;
    depth := @decompressor_depth; max_depth := 2; overload_has_body := λ _ _ H, False_ind _ (diff_false_true H) |}.
  - intros R c. destruct c; simpl; lia.
  - intros t R c _. by destruct c.
  - intros a b self self' R c s Hb _ Hs. destruct c; try discriminate Hb; try reflexivity.
    cbn. unfold mbind, M_bind. rewrite Hs; [done|simpl; lia|by left].
Defined.

Definition manager_has_body {R} (c : manager_call R) : bool :=
  match c with
  | mg_GetCompressorForSST _ _ _ | mg_GetDecompressorOptimizeFor _ | mg_GetDecompressorForTypes _ => true
  | _ => false
  end.
Definition manager_depth {R} (c : manager_call R) : nat := if manager_has_body c then 2 else 1.

#[export] Instance manager_wrapper : Transparent manager_call St CompressionManager_bodies CompressionManagerWrapper.
Proof.
  refine {| overload := λ _ _, false; hidden := λ _ _, false; has_body := @manager_has_body;
    depth := @manager_depth; max_depth := 2; overload_has_body := λ _ _ H, False_ind _ (diff_false_true H) |}.
  - intros R c. unfold manager_depth. destruct c; simpl; lia.
  - intros t R c _. by destruct c.
  - intros a b self self' R c s Hb _ Hs. destruct c; try discriminate Hb;
      (cbn; apply Hs; [unfold manager_depth; simpl; lia|by left]).
Defined.

(** However many wrappers there are around a compressor, a decompressor or a
    compression manager, the calls they forward are answered as what they wrap
    answers them. *)
Theorem compression_wrappers_transparent (k : nat) (address : nat → Z) :
  (∀ ov R (c : compressor_call R) s,
    base_class compressor_call St Compressor_bodies CompressorWrapper ov → compressor_hidden c = false →
    layers compressor_call St Compressor_bodies CompressorWrapper k address ov _ c s =
    dispatch compressor_call St Compressor_bodies 1 (address O) ov _ c s) ∧
  (∀ ov R (c : decompressor_call R) s,
    base_class decompressor_call St Decompressor_bodies DecompressorWrapper ov →
    layers decompressor_call St Decompressor_bodies DecompressorWrapper k address ov _ c s =
    dispatch decompressor_call St Decompressor_bodies 2 (address O) ov _ c s) ∧
  (∀ ov R (c : manager_call R) s,
    base_class manager_call St CompressionManager_bodies CompressionManagerWrapper ov →
    layers manager_call St CompressionManager_bodies CompressionManagerWrapper k address ov _ c s =
    dispatch manager_call St CompressionManager_bodies 2 (address O) ov _ c s).
Proof. split_and!; intros; by apply layers_transparent. Qed.

(** ** Carrying a block over *)

(** What the comments prescribe: [CompressBlock] into a buffer of [room] bytes, with a
    working area; the output with its type is stored, or the data itself if the
    compressor declines ([kNoCompression]); to read it back,
    [ExtractUncompressedSize] and [DecompressBlock] with the stored type. *)
Definition store_block (cp : object compressor_call St) (data : bytes) (room : Z) :
    M St (option (CompressionType * bytes)) :=
  wa ← cp _ cp_ObtainWorkingArea;
  '(st, out, size, type) ← cp _ (cp_CompressBlock (Slice_string data) (replicate (Z.to_nat room) Byte.x00) room
                                   kNoCompression wa);
  ret (if ok st then
         Some (if CompressionType_value type =? CompressionType_value kNoCompression then (kNoCompression, data)
               else (type, take (Z.to_nat size) out))
       else None).

Definition load_block (dp : object decompressor_call St) (stored : CompressionType * bytes) :
    M St (option bytes) :=
  let '(type, block) := stored in
  if CompressionType_value type =? CompressionType_value kNoCompression then ret (Some block)
  else
    wa ← dp _ (dp_ObtainWorkingArea type);
    '(st, args) ← dp _ (dp_ExtractUncompressedSize (mkArgs type (Slice_string block) 0 (Some wa)));
    if ok st then
      '(st, out) ← dp _ (dp_DecompressBlock args (replicate (Z.to_nat (uncompressed_size args)) Byte.x00));
      ret (if ok st then Some out else None)
    else ret None.

(** A block that is stored is read back; the states between and after are those of
    the implementations. *)
Definition carries (cp : object compressor_call St) (dp : object decompressor_call St) (data : bytes) (room : Z)
    (s : St) : Prop :=
  ∃ stored s' s'', store_block cp data room s = Some (Some stored, s') ∧
    load_block dp stored s' = Some (Some data, s'').

Lemma load_block_ext (dp dp' : object decompressor_call St) stored s :
  (∀ R (c : decompressor_call R) s, dp _ c s = dp' _ c s) → load_block dp stored s = load_block dp' stored s.
Proof.
  intros H. destruct stored as [type block]. unfold load_block. destruct (_ =? _); [done|].
  unfold mbind, M_bind. rewrite H. destruct (dp' _ _ _) as [[wa s1]|]; [|done].
  rewrite H. destruct (dp' _ _ s1) as [[[st args] s2]|]; [|done].
  destruct (ok st); [|done]. by rewrite H.
Qed.

(** Wrappers around the compressor and the decompressor keep what is stored and what
    is read: a block that the two carry over is carried over through the wrappers. *)
Theorem wrapped_block_carried (k m : nat) (address address' : nat → Z) cp_class dp_class data room s :
  base_class compressor_call St Compressor_bodies CompressorWrapper cp_class →
  base_class decompressor_call St Decompressor_bodies DecompressorWrapper dp_class →
  carries (dispatch compressor_call St Compressor_bodies 1 (address O) cp_class)
    (dispatch decompressor_call St Decompressor_bodies 2 (address' O) dp_class) data room s →
  carries (layers compressor_call St Compressor_bodies CompressorWrapper k address cp_class)
    (layers decompressor_call St Decompressor_bodies DecompressorWrapper m address' dp_class) data room s.
Proof.
  intros Hc Hd (stored & s' & s'' & H1 & H2). exists stored, s', s''. split.
  - rewrite <- H1. unfold store_block, mbind, M_bind.
    rewrite (layers_transparent _ _ _ _ _ _ _ _ cp_ObtainWorkingArea) by done.
    destruct (dispatch _ _ _ _ _ _ _ cp_ObtainWorkingArea s) as [[wa s1]|]; [|done].
    by rewrite (layers_transparent _ _ _ _ _ _ _ _ (cp_CompressBlock _ _ _ _ _)) by done.
  - rewrite <- H2. apply load_block_ext. intros R c s0. by apply layers_transparent.
Qed.
End Compression.

(** ** Examples *)

Module CompressorExamples.
#[local] Existing Instance concrete_impl.

(** A custom compression that stores the data behind its length in one byte, and
    hands out the working area 7 of the compressor 1. *)
Definition short_compressor : overrides compressor_call unit := λ R c,
  match c in compressor_call T return option (M unit T) with
  | cp_Name => Some (ret (lit "Short"))
  | cp_ObtainWorkingArea => Some (ret (Some (7, 1)))
  | cp_CompressBlock data out size type wa =>
      Some (match Byte.of_nat (length (deref (data_ data))) with
            | Some n => ret (Status_new, n :: deref (data_ data), size_ data + 1, kCustomCompression80)
            | None => ret (Status_new, out, 0, kNoCompression)
            end)
  | _ => None
  end.

Definition short_decompressor : overrides decompressor_call unit := λ R c,
  match c in decompressor_call T return option (M unit T) with
  | dp_Name => Some (ret (lit "Short"))
  | dp_DecompressBlock args out =>
      Some (ret (Status_new, take (Z.to_nat (uncompressed_size args)) (deref (data_ (compressed_data args)))))
  | _ => None
  end.

#[local] Instance length_byte : DecompressorImpl (St := unit) := {|
  empty_dict := ret Slice_empty;
  extract_size args :=
    match deref (data_ (compressed_data args)) with
    | n :: rest => ret (Status_new, mkArgs (compression_type args) (Slice_string rest) (Z.of_nat (Byte.to_nat n)) (args_area args))
    | [] => ret (NotSupported_sub kNone, args)
    end;
|}.

Lemma wrapped_block_carried_witness :
  carries (layers compressor_call unit Compressor_bodies CompressorWrapper 2 Z.of_nat short_compressor)
    (layers decompressor_call unit Decompressor_bodies DecompressorWrapper 3 Z.of_nat short_decompressor)
    (lit "block") 16 tt.
Proof.
  apply (wrapped_block_carried 2 3 Z.of_nat Z.of_nat short_compressor short_decompressor (lit "block") 16 tt).
  - split; intros R []; done.
  - split; intros R []; done.
  - do 3 eexists. split; reflexivity.
Defined.

(** A wrapped compressor has the identifier of the outermost class, and releases no
    areas itself. *)
Lemma wrapper_identity :
  dispatch compressor_call unit Compressor_bodies 2 5
    (λ R c, match c in compressor_call T return option (M unit T) with
            | cp_Name => Some (ret (lit "Outer"))
            | c => CompressorWrapper (dispatch compressor_call unit Compressor_bodies 2 1 short_compressor) _ c
            end) _ cp_GetId tt = Some (lit "Outer", tt).
Proof. reflexivity. Qed.
End CompressorExamples.
