(* ===== verification/Memtable.v ===== *)
(** * Memtables and table properties (libs/rocksdb/memtablerep.h,
      utilities/table_properties_collectors.h, utilities/ldb_cmd_execute_result.h)

    [MemTableRep], the interface of a memtable, with its iterator and its factories:
    the bodies that the header gives, over the functions a representation supplies.
    The functions that are only declared are fields of the class [MemTableImpl].  A
    handle, a hint and an entry are addresses.

    The theorems: the insertions a representation inherits all insert the key they
    are given, once, and report that they did; the ratio of entries with a write
    time lies between 0 and 1 as long as the counters do not overflow. *)

From stdpp Require Import base list strings.
From Stdlib Require Import ZArith QArith Lia.
From S2P Require Import Prelude Slice Status Virtual.

Open Scope Z_scope.

Section MemTableRep.
Context {St : Type} `{SI : StatusImpl}.

(** ** MemTableRep *)

(** [Allocate] returns the handle and the buffer; a callback takes the entry and says
    whether to go on; [UniqueRandomSample] returns the entries. *)
Inductive memtable_call : Type → Type :=
| mt_Allocate (len : Z) (buf : Z) : memtable_call (Z * Z)
| mt_Insert (handle : Z) : memtable_call unit
| mt_InsertKey (handle : Z) : memtable_call bool
| mt_InsertWithHint (handle hint : Z) : memtable_call unit
| mt_InsertKeyWithHint (handle hint : Z) : memtable_call bool
| mt_InsertWithHintConcurrently (handle hint : Z) : memtable_call unit
| mt_InsertKeyWithHintConcurrently (handle hint : Z) : memtable_call bool
| mt_InsertConcurrently (handle : Z) : memtable_call unit
| mt_InsertKeyConcurrently (handle : Z) : memtable_call bool
| mt_BatchPostProcess : memtable_call unit
| mt_Contains (key : Z) : memtable_call bool
| mt_MarkReadOnly : memtable_call unit
| mt_MarkFlushed : memtable_call unit
| mt_Get (k : Z) (callback : Z → M St bool) : memtable_call unit
| mt_GetAndValidate (k : Z) (callback : Z → M St bool) (allow_data_in_error : bool) : memtable_call Status
| mt_ApproximateNumEntries (start_ikey end_key : Slice) : memtable_call Z
| mt_UniqueRandomSample (num_entries target_sample_size : Z) (entries : list Z) : memtable_call (list Z)
| mt_ApproximateMemoryUsage : memtable_call Z
| mt_GetIterator (arena : option Z) : memtable_call Z
| mt_GetDynamicPrefixIterator (arena : option Z) : memtable_call Z
| mt_IsMergeOperatorSupported : memtable_call bool
| mt_IsSnapshotSupported : memtable_call bool
| mt_UserKey (key : Z) : memtable_call Slice.

(** [Allocate], [InsertConcurrently], [Get] and [UserKey] are only declared. *)
Class MemTableImpl := {
  rep_Allocate : object memtable_call St → Z → Z → M St (Z * Z);
  rep_InsertConcurrently : object memtable_call St → Z → M St unit;
  rep_Get : object memtable_call St → Z → (Z → M St bool) → M St unit;
  rep_UserKey : object memtable_call St → Z → M St Slice;
}.
Context `{TI : MemTableImpl}.

Definition not_implemented (s : string) : Status := NotSupported (Slice_string (lit s)) Slice_empty.

Definition MemTableRep_bodies (this : Z) (self : object memtable_call St) : object memtable_call St := λ R c,
  match c in memtable_call T return M St T with
  | mt_Allocate len buf => rep_Allocate self len buf
  | mt_InsertKey handle => _ ← self _ (mt_Insert handle); ret true
  | mt_InsertWithHint handle _ => self _ (mt_Insert handle)
  | mt_InsertKeyWithHint handle hint => _ ← self _ (mt_InsertWithHint handle hint); ret true
  | mt_InsertWithHintConcurrently handle _ => self _ (mt_InsertConcurrently handle)
  | mt_InsertKeyWithHintConcurrently handle hint =>
      _ ← self _ (mt_InsertWithHintConcurrently handle hint); ret true
  | mt_InsertConcurrently handle => rep_InsertConcurrently self handle
  | mt_InsertKeyConcurrently handle => _ ← self _ (mt_InsertConcurrently handle); ret true
  | mt_BatchPostProcess => ret tt
  | mt_MarkReadOnly => ret tt
  | mt_MarkFlushed => ret tt
  | mt_Get k callback => rep_Get self k callback
  | mt_GetAndValidate _ _ _ => ret (not_implemented "GetAndValidate() not implemented.")
  | mt_ApproximateNumEntries _ _ => ret 0
  | mt_UniqueRandomSample _ _ _ => M_opt None
  | mt_GetDynamicPrefixIterator arena => self _ (mt_GetIterator arena)
  | mt_IsMergeOperatorSupported => ret true
  | mt_IsSnapshotSupported => ret true
  | mt_UserKey key => rep_UserKey self key
  | mt_Insert _ => pure_virtual
  | mt_Contains _ => pure_virtual
  | mt_ApproximateMemoryUsage => pure_virtual
  | mt_GetIterator _ => pure_virtual
  end.

(** [MemTableRep::Iterator]. *)
Inductive mt_iterator_call : Type → Type :=
| mi_Valid : mt_iterator_call bool
| mi_key : mt_iterator_call Z
| mi_Next : mt_iterator_call unit
| mi_NextAndValidate (allow_data_in_errors : bool) : mt_iterator_call Status
| mi_Prev : mt_iterator_call unit
| mi_PrevAndValidate (allow_data_in_errors : bool) : mt_iterator_call Status
| mi_Seek (internal_key : Slice) (memtable_key : Z) : mt_iterator_call unit
| mi_SeekAndValidate (internal_key : Slice) (memtable_key : Z) (allow_data_in_errors : bool) :
    mt_iterator_call Status
| mi_SeekForPrev (internal_key : Slice) (memtable_key : Z) : mt_iterator_call unit
| mi_RandomSeek : mt_iterator_call unit
| mi_SeekToFirst : mt_iterator_call unit
| mi_SeekToLast : mt_iterator_call unit.

Definition MemTableIterator_bodies (this : Z) (self : object mt_iterator_call St) : object mt_iterator_call St :=
  λ R c,
  match c in mt_iterator_call T return M St T with
  | mi_NextAndValidate _ => ret (not_implemented "NextAndValidate() not implemented.")
  | mi_PrevAndValidate _ => ret (not_implemented "PrevAndValidate() not implemented.")
  | mi_SeekAndValidate _ _ _ => ret (not_implemented "SeekAndValidate() not implemented.")
  | mi_RandomSeek => ret tt
  | _ => pure_virtual
  end.

(** ** Factories *)

(** The comparator, the allocator, the transform and the logger are addresses. *)
Inductive factory_call : Type → Type :=
| mf_CreateMemTableRep (key_cmp allocator slice_transform logger : Z) : factory_call Z
| mf_CreateMemTableRep_cf (key_cmp allocator slice_transform logger column_family_id : Z) : factory_call Z
| mf_Name : factory_call bytes
| mf_NickName : factory_call bytes
| mf_IsInsertConcurrentlySupported : factory_call bool
| mf_CanHandleDuplicatedKey : factory_call bool.

(** [NickName] is that of [Customizable]. *)
Definition MemTableRepFactory_bodies (this : Z) (self : object factory_call St) : object factory_call St := λ R c,
  match c in factory_call T return M St T with
  | mf_CreateMemTableRep_cf key_cmp allocator slice_transform logger _ =>
      self _ (mf_CreateMemTableRep key_cmp allocator slice_transform logger)
  | mf_IsInsertConcurrentlySupported => ret false
  | mf_CanHandleDuplicatedKey => ret false
  | mf_NickName => ret []
  | mf_CreateMemTableRep _ _ _ _ => pure_virtual
  | mf_Name => pure_virtual
  end.

(** [create]: the overriding [CreateMemTableRep], which is only declared. *)
Definition SkipListFactory (create : Z → Z → Z → Z → M St Z) : overrides factory_call St := λ R c,
  match c in factory_call T return option (M St T) with
  | mf_CreateMemTableRep key_cmp allocator slice_transform logger =>
      Some (create key_cmp allocator slice_transform logger)
  | mf_Name => Some (ret (lit "SkipListFactory"))
  | mf_NickName => Some (ret (lit "skip_list"))
  | mf_IsInsertConcurrentlySupported => Some (ret true)
  | mf_CanHandleDuplicatedKey => Some (ret true)
  | mf_CreateMemTableRep_cf _ _ _ _ _ => None
  end.

Definition VectorRepFactory (create : Z → Z → Z → Z → M St Z) : overrides factory_call St := λ R c,
  match c in factory_call T return option (M St T) with
  | mf_CreateMemTableRep key_cmp allocator slice_transform logger =>
      Some (create key_cmp allocator slice_transform logger)
  | mf_Name => Some (ret (lit "VectorRepFactory"))
  | mf_NickName => Some (ret (lit "vector"))
  | mf_IsInsertConcurrentlySupported => Some (ret true)
  | mf_CanHandleDuplicatedKey => None
  | mf_CreateMemTableRep_cf _ _ _ _ _ => None
  end.

(** ** Insertions *)

(** A representation that overrides one-by-one insertion, and insertion by several
    writers, and inherits the others. *)
Record plain_rep (ov : overrides memtable_call St) (insert concurrent : Z → M St unit) : Prop := {
  plain_Insert h : ov _ (mt_Insert h) = Some (insert h);
  plain_InsertConcurrently h : ov _ (mt_InsertConcurrently h) = Some (concurrent h);
  plain_inherits R (c : memtable_call R) :
    match c with
    | mt_InsertKey _ | mt_InsertWithHint _ _ | mt_InsertKeyWithHint _ _ | mt_InsertWithHintConcurrently _ _
    | mt_InsertKeyWithHintConcurrently _ _ | mt_InsertKeyConcurrently _ => ov R c = None
    | _ => True
    end;
}.

(** Every insertion such a representation inherits inserts the handle once, ignores
    the hint, and returns true, also for a key that is already there. *)
Theorem inherited_insertions (ov : overrides memtable_call St) insert concurrent this handle hint s :
  plain_rep ov insert concurrent →
  let rep := dispatch memtable_call St MemTableRep_bodies 3 this ov in
  let reported (m : M St unit) := match m s with Some (_, s') => Some (true, s') | None => None end in
  rep _ (mt_Insert handle) s = insert handle s ∧
  rep _ (mt_InsertWithHint handle hint) s = insert handle s ∧
  rep _ (mt_InsertKey handle) s = reported (insert handle) ∧
  rep _ (mt_InsertKeyWithHint handle hint) s = reported (insert handle) ∧
  rep _ (mt_InsertWithHintConcurrently handle hint) s = concurrent handle s ∧
  rep _ (mt_InsertKeyConcurrently handle) s = reported (concurrent handle) ∧
  rep _ (mt_InsertKeyWithHintConcurrently handle hint) s = reported (concurrent handle).
Proof.
  intros [Hi Hc Hinh].
  pose proof (Hinh _ (mt_InsertKey handle)) as H1. pose proof (Hinh _ (mt_InsertWithHint handle hint)) as H2.
  pose proof (Hinh _ (mt_InsertKeyWithHint handle hint)) as H3.
  pose proof (Hinh _ (mt_InsertWithHintConcurrently handle hint)) as H4.
  pose proof (Hinh _ (mt_InsertKeyConcurrently handle)) as H5.
  pose proof (Hinh _ (mt_InsertKeyWithHintConcurrently handle hint)) as H6. cbn in *.
  rewrite H1, H2, H3, H4, H5, H6, Hi. cbn. unfold mbind, M_bind. rewrite ?H2, ?H4, ?Hi, ?Hc. cbn.
  rewrite ?Hi, ?Hc. split_and!; try done; by destruct (_ handle s) as [[[] ?]|].
Qed.
End MemTableRep.

(** ** Write times of a data collection *)

Record DataCollectionUnixWriteTimeInfo := mkWriteTimeInfo {
  min_write_time : Z; max_write_time : Z; average_write_time : Z; num_entries_infinitely_old : Z;
  num_entries_write_time_aggregated : Z; num_entries_write_time_untracked : Z;
}.
Definition WriteTimeInfo_default : DataCollectionUnixWriteTimeInfo := mkWriteTimeInfo 0 0 0 0 0 0.

Definition DataCollectionIsEmpty (i : DataCollectionUnixWriteTimeInfo) : bool :=
  (num_entries_infinitely_old i =? 0) && (num_entries_write_time_aggregated i =? 0)
  && (num_entries_write_time_untracked i =? 0).

(** A quotient of doubles: a number, or what a division by zero gives. *)
Definition double_div (a b : Z) : option Q := if b =? 0 then None else Some (inject_Z a / inject_Z b)%Q.

Definition TrackedDataRatio (i : DataCollectionUnixWriteTimeInfo) : option Q :=
  if DataCollectionIsEmpty i then Some 0%Q
  else
    let num_entries_write_time_tracked :=
      u64_add (num_entries_infinitely_old i) (num_entries_write_time_aggregated i) in
    double_div num_entries_write_time_tracked
      (u64_add num_entries_write_time_tracked (num_entries_write_time_untracked i)).

Definition HasInfinitelyOldData (i : DataCollectionUnixWriteTimeInfo) : bool := 0 <? num_entries_infinitely_old i.

(** As long as the number of entries fits 64 bits, the ratio is between 0 and 1: 0
    exactly if no entry has a write time, and 1 exactly if there are entries and
    every one has a write time. *)
Theorem tracked_ratio_range (i : DataCollectionUnixWriteTimeInfo) :
  0 ≤ num_entries_infinitely_old i → 0 ≤ num_entries_write_time_aggregated i →
  0 ≤ num_entries_write_time_untracked i →
  num_entries_infinitely_old i + num_entries_write_time_aggregated i + num_entries_write_time_untracked i < 2 ^ 64 →
  ∃ q, TrackedDataRatio i = Some q ∧ (0 <= q <= 1)%Q ∧
    ((q == 0)%Q ↔ num_entries_infinitely_old i = 0 ∧ num_entries_write_time_aggregated i = 0) ∧
    ((q == 1)%Q ↔ DataCollectionIsEmpty i = false ∧ num_entries_write_time_untracked i = 0).
Proof.
  destruct i as [x y z a b u]. cbn [num_entries_infinitely_old num_entries_write_time_aggregated
    num_entries_write_time_untracked]. intros Ha Hb Hu Hsum.
  unfold TrackedDataRatio, DataCollectionIsEmpty. cbn [num_entries_infinitely_old
    num_entries_write_time_aggregated num_entries_write_time_untracked].
  destruct ((a =? 0) && (b =? 0) && (u =? 0)) eqn:E.
  - exists 0%Q. split; [done|]. split; [split; by vm_compute|]. split; split; intros H; try done; lia.
  - unfold u64_add. rewrite (wrap_small 64 (a + b)) by (unfold in_width; lia). rewrite (wrap_small 64 (a + b + u)) by (unfold in_width; lia).
    unfold double_div. destruct (Z.eqb_spec (a + b + u) 0) as [H0|H0]; [lia|]. eexists; split; [done|].
    assert (Hpos : (0 < inject_Z (a + b + u))%Q) by (rewrite <- (Zlt_Qlt 0); lia).
    split; [split|split].
    + apply Qle_shift_div_l; [done|]. rewrite Qmult_0_l. rewrite <- (Zle_Qle 0). lia.
    + apply Qle_shift_div_r; [done|]. rewrite Qmult_1_l. rewrite <- Zle_Qle. lia.
    + split; intros H.
      * assert (inject_Z (a + b) == inject_Z 0)%Q as H'.
        { rewrite <- (Qmult_div_r (inject_Z (a + b)) (inject_Z (a + b + u))) by
            (intros F; rewrite F in Hpos; by apply Qlt_irrefl in Hpos). rewrite H. ring. }
        apply (proj1 (inject_Z_injective _ _)) in H'. lia.
      * destruct H as [-> ->]. simpl. unfold Qdiv. by rewrite Qmult_0_l.
    + split; intros H.
      * assert (inject_Z (a + b) == inject_Z (a + b + u))%Q as H'.
        { rewrite <- (Qmult_div_r (inject_Z (a + b)) (inject_Z (a + b + u))) at 1 by
            (intros F; rewrite F in Hpos; by apply Qlt_irrefl in Hpos). rewrite H. ring. }
        apply (proj1 (inject_Z_injective _ _)) in H'. split; [done|lia].
      * destruct H as [_ ->]. rewrite Z.add_0_r in *. unfold Qdiv. apply Qmult_inv_r.
        intros F; rewrite F in Hpos; by apply Qlt_irrefl in Hpos.
Qed.

(** Counters that overflow divide by zero. *)
Theorem tracked_ratio_overflow :
  TrackedDataRatio (mkWriteTimeInfo 0 0 0 (2 ^ 63) (2 ^ 63) 0) = None.
Proof. reflexivity. Qed.

(** [CompactOnDeletionCollectorFactory] and [CompactForTieringCollectorFactory]: the
    values of their atomic members, with the assignments. *)
Record CompactOnDeletion := mkCompactOnDeletion {
  sliding_window_size_ : Z; deletion_trigger_ : Z; deletion_ratio_ : Q; min_file_size_ : Z;
}.
Definition SetWindowSize (n : Z) (f : CompactOnDeletion) : CompactOnDeletion :=
  mkCompactOnDeletion n (deletion_trigger_ f) (deletion_ratio_ f) (min_file_size_ f).
Definition GetWindowSize (f : CompactOnDeletion) : Z := sliding_window_size_ f.
Definition SetDeletionTrigger (n : Z) (f : CompactOnDeletion) : CompactOnDeletion :=
  mkCompactOnDeletion (sliding_window_size_ f) n (deletion_ratio_ f) (min_file_size_ f).
Definition GetDeletionTrigger (f : CompactOnDeletion) : Z := deletion_trigger_ f.
Definition SetDeletionRatio (q : Q) (f : CompactOnDeletion) : CompactOnDeletion :=
  mkCompactOnDeletion (sliding_window_size_ f) (deletion_trigger_ f) q (min_file_size_ f).
Definition GetDeletionRatio (f : CompactOnDeletion) : Q := deletion_ratio_ f.
Definition SetMinFileSize (n : Z) (f : CompactOnDeletion) : CompactOnDeletion :=
  mkCompactOnDeletion (sliding_window_size_ f) (deletion_trigger_ f) (deletion_ratio_ f) n.
Definition GetMinFileSize (f : CompactOnDeletion) : Z := min_file_size_ f.
Record CompactForTiering := mkCompactForTiering { compaction_trigger_ratio_ : Q }.
Definition SetCompactionTriggerRatio (q : Q) (_ : CompactForTiering) : CompactForTiering := mkCompactForTiering q.
Definition GetCompactionTriggerRatio (f : CompactForTiering) : Q := compaction_trigger_ratio_ f.

(** ** Results of ldb commands *)

Inductive LdbState := EXEC_NOT_STARTED | EXEC_SUCCEED | EXEC_FAILED.
#[export] Instance LdbState_eq_dec : EqDecision LdbState.
Proof. solve_decision. Defined.

Record LDBCommandExecuteResult := mkLdbResult { ldb_state_ : LdbState; message_ : bytes }.
Definition LdbResult_new : LDBCommandExecuteResult := mkLdbResult EXEC_NOT_STARTED [].
Definition LdbResult_ToString (r : LDBCommandExecuteResult) : bytes :=
  let ret :=
    match ldb_state_ r with
    | EXEC_SUCCEED => []
    | EXEC_FAILED => lit "Failed: "
    | EXEC_NOT_STARTED => lit "Not started: "
    end in
  if bool_decide (message_ r = []) then ret else ret ++ message_ r.
Definition LdbResult_Reset (_ : LDBCommandExecuteResult) : LDBCommandExecuteResult := mkLdbResult EXEC_NOT_STARTED [].
Definition IsSucceed (r : LDBCommandExecuteResult) : bool := bool_decide (ldb_state_ r = EXEC_SUCCEED).
Definition IsNotStarted (r : LDBCommandExecuteResult) : bool := bool_decide (ldb_state_ r = EXEC_NOT_STARTED).
Definition IsFailed (r : LDBCommandExecuteResult) : bool := bool_decide (ldb_state_ r = EXEC_FAILED).
Definition Succeed (msg : bytes) : LDBCommandExecuteResult := mkLdbResult EXEC_SUCCEED msg.
Definition Failed (msg : bytes) : LDBCommandExecuteResult := mkLdbResult EXEC_FAILED msg.

(** A result is in exactly one state, and what is printed for a success is the
    message. *)
Lemma ldb_result_states (r : LDBCommandExecuteResult) :
  LdbResult_ToString (Succeed (message_ r)) = message_ r ∧
  [IsNotStarted r; IsSucceed r; IsFailed r] ∈ [[true; false; false]; [false; true; false]; [false; false; true]].
Proof.
  destruct r as [[] m]; unfold LdbResult_ToString, IsNotStarted, IsSucceed, IsFailed; simpl;
    (split; [case_bool_decide; by subst|repeat constructor]).
Qed.
