(* ===== verification/Backup.v ===== *)
(** * Backups (libs/rocksdb/utilities/backup_engine.h)

    The options of a backup engine with the assertions of their constructor, the
    naming schemes as bit fields, and the interfaces of the engine: the overloads
    that the header defines, over the functions an engine supplies.  An environment,
    a logger, a rate limiter and a database are addresses; an [IOStatus] is a
    [Status].

    The theorems: which options the constructor takes, that the bit operations on
    naming schemes keep the scheme and set or clear the flag, and what the overloads
    pass on. *)

From stdpp Require Import base list strings.
From Stdlib Require Import ZArith Lia.
From S2P Require Import Prelude Slice Status Virtual Env.

Open Scope Z_scope.

(** ** Naming schemes *)

Definition kLegacyCrc32cAndFileSize : Z := 1.
Definition kUseDbSessionId : Z := 2.
Definition kMaskNoNamingFlags : Z := 0xffff.
Definition kFlagIncludeFileSize : Z := Z.shiftl 1 31.
Definition kMaskNamingFlags : Z := Z.lxor kMaskNoNamingFlags (Z.ones 32).

(** [None] is a failed assertion. *)
Definition naming_and (lhs rhs : Z) : option Z :=
  if (rhs =? kMaskNoNamingFlags) || (Z.land rhs kMaskNoNamingFlags =? 0) then Some (Z.land lhs rhs) else None.
Definition naming_or (lhs rhs : Z) : option Z :=
  if Z.land rhs kMaskNoNamingFlags =? 0 then Some (Z.lor lhs rhs) else None.

(** ** Options *)

Record BackupEngineOptions := mkBackupEngineOptions {
  backup_dir : bytes; backup_env : option Z; share_table_files : bool; backup_info_log : option Z;
  backup_sync : bool; destroy_old_data : bool; backup_log_files : bool; io_buffer_size : Z;
  backup_rate_limit : Z; backup_rate_limiter : option Z; restore_rate_limit : Z;
  restore_rate_limiter : option Z; share_files_with_checksum : bool; max_background_operations : Z;
  callback_trigger_interval_size : Z; max_valid_backups_to_open : Z; share_files_with_checksum_naming : Z;
  schema_version : Z; current_temperatures_override_manifest : bool;
}.

(** The constructor; [None] is a failed assertion. *)
Definition BackupEngineOptions_new (_backup_dir : bytes) (_backup_env : option Z) (_share_table_files : bool)
    (_info_log : option Z) (_sync _destroy_old_data _backup_log_files : bool)
    (_io_buffer_size _backup_rate_limit _restore_rate_limit _max_background_operations
     _callback_trigger_interval_size _max_valid_backups_to_open _share_files_with_checksum_naming : Z) :
    option BackupEngineOptions :=
  let o := {|
    backup_dir := _backup_dir; backup_env := _backup_env; share_table_files := _share_table_files;
    backup_info_log := _info_log; backup_sync := _sync; destroy_old_data := _destroy_old_data;
    backup_log_files := _backup_log_files; io_buffer_size := _io_buffer_size;
    backup_rate_limit := _backup_rate_limit; backup_rate_limiter := None;
    restore_rate_limit := _restore_rate_limit; restore_rate_limiter := None;
    share_files_with_checksum := true; max_background_operations := _max_background_operations;
    callback_trigger_interval_size := _callback_trigger_interval_size;
    max_valid_backups_to_open := _max_valid_backups_to_open;
    share_files_with_checksum_naming := _share_files_with_checksum_naming;
    schema_version := 1; current_temperatures_override_manifest := false;
  |} in
  if share_table_files o || negb (share_files_with_checksum o) then
    if negb (Z.land (share_files_with_checksum_naming o) kMaskNoNamingFlags =? 0) then Some o else None
  else None.

(** The constructor with its default arguments. *)
Definition BackupEngineOptions_default (_backup_dir : bytes) : option BackupEngineOptions :=
  BackupEngineOptions_new _backup_dir None true None true false true 0 0 0 1 (4 * 1024 * 1024) (2 ^ 31 - 1)
    (Z.lor kUseDbSessionId kFlagIncludeFileSize).

Record BackupExcludedFileInfo := mkExcludedFile { relative_file : bytes }.
Record MaybeExcludeBackupFile := mkMaybeExclude { exclude_info : BackupExcludedFileInfo; exclude_decision : bool }.
Definition MaybeExclude_new (_info : BackupExcludedFileInfo) : MaybeExcludeBackupFile := mkMaybeExclude _info false.

Definition kKeepLatestDbSessionIdFiles : Z := 1.
Definition kVerifyChecksum : Z := 2.
Definition kPurgeAllFiles : Z := 0xffff.
Record RestoreOptions := mkRestoreOptions { keep_log_files : bool; alternate_dirs : list Z; mode : Z }.
Definition RestoreOptions_new (_keep_log_files : bool) (_mode : Z) : RestoreOptions :=
  mkRestoreOptions _keep_log_files [] _mode.
Definition RestoreOptions_default : RestoreOptions := RestoreOptions_new false kPurgeAllFiles.

(** [file_details] as addresses. *)
Record BackupInfo := mkBackupInfo {
  backup_id : Z; timestamp : Z; backup_size : Z; number_files : Z; app_metadata : bytes; file_details : list Z;
  excluded_files : list BackupExcludedFileInfo; name_for_open : bytes; env_for_open : option Z;
}.
Definition BackupInfo_default : BackupInfo := mkBackupInfo 0 0 0 0 [] [] [] [] None.
Definition BackupInfo_new (_backup_id _timestamp _size _number_files : Z) (_app_metadata : bytes) : BackupInfo :=
  mkBackupInfo _backup_id _timestamp _size _number_files _app_metadata [] [] [] None.

Record BackupStatistics := mkBackupStatistics { number_success_backup : Z; number_fail_backup : Z }.
Definition BackupStatistics_default : BackupStatistics := mkBackupStatistics 0 0.
Definition BackupStatistics_new (_number_success_backup _number_fail_backup : Z) : BackupStatistics :=
  mkBackupStatistics _number_success_backup _number_fail_backup.

(** ** The engine *)

Section Engine.
Context {St : Type}.

(** [progress_callback] and [exclude_files_callback] are [None] when empty; the second
    takes the files and returns them with its decisions. *)
Record CreateBackupOptions := mkCreateBackupOptions {
  flush_before_backup : bool; progress_callback : option (M St unit);
  exclude_files_callback : option (list MaybeExcludeBackupFile → M St (list MaybeExcludeBackupFile));
  decrease_background_thread_cpu_priority : bool; background_thread_cpu_priority : CpuPriority;
}.
Definition CreateBackupOptions_default : CreateBackupOptions := mkCreateBackupOptions false None None false kNormal.

(** Out parameters are passed in, [None] when null, and returned. *)
Inductive backup_call : Type → Type :=
| bk_GetLatestBackupInfo (info : BackupInfo) (include_file_details : bool) : backup_call (Status * BackupInfo)
| bk_GetBackupInfo (id : Z) (info : BackupInfo) (include_file_details : bool) : backup_call (Status * BackupInfo)
| bk_GetBackupInfos (infos : list BackupInfo) (include_file_details : bool) : backup_call (list BackupInfo)
| bk_GetCorruptedBackups (ids : list Z) : backup_call (list Z)
| bk_RestoreDBFromBackup (options : RestoreOptions) (id : Z) (db_dir wal_dir : bytes) : backup_call Status
| bk_RestoreDBFromBackup_id (id : Z) (db_dir wal_dir : bytes) (options : RestoreOptions) : backup_call Status
| bk_RestoreDBFromLatestBackup (options : RestoreOptions) (db_dir wal_dir : bytes) : backup_call Status
| bk_RestoreDBFromLatestBackup_dirs (db_dir wal_dir : bytes) (options : RestoreOptions) : backup_call Status
| bk_VerifyBackup (id : Z) (verify_with_checksum : bool) : backup_call Status
| bk_AsBackupEngine : backup_call (option Z)
| bk_CreateNewBackupWithMetadata (options : CreateBackupOptions) (db : Z) (metadata : bytes)
    (new_backup_id : option Z) : backup_call (Status * option Z)
| bk_CreateNewBackupWithMetadata_flush (db : Z) (metadata : bytes) (flush : bool) (progress : M St unit) :
    backup_call Status
| bk_CreateNewBackup (options : CreateBackupOptions) (db : Z) (new_backup_id : option Z) :
    backup_call (Status * option Z)
| bk_CreateNewBackup_flush (db : Z) (flush : bool) (progress : M St unit) : backup_call Status
| bk_StopBackup : backup_call unit
| bk_GarbageCollect : backup_call Status
| bk_PurgeOldBackups (num_backups_to_keep : Z) : backup_call Status
| bk_DeleteBackup (id : Z) : backup_call Status.

(** The options of the forms with a flush flag and a callback. *)
Definition flush_options (flush : bool) (progress : M St unit) : CreateBackupOptions :=
  let options := CreateBackupOptions_default in
  mkCreateBackupOptions flush (Some progress) (exclude_files_callback options)
    (decrease_background_thread_cpu_priority options) (background_thread_cpu_priority options).

Definition BackupEngine_bodies (this : Z) (self : object backup_call St) : object backup_call St := λ R c,
  match c in backup_call T return M St T with
  | bk_RestoreDBFromBackup_id id db_dir wal_dir options => self _ (bk_RestoreDBFromBackup options id db_dir wal_dir)
  | bk_RestoreDBFromLatestBackup_dirs db_dir wal_dir options =>
      self _ (bk_RestoreDBFromLatestBackup options db_dir wal_dir)
  | bk_CreateNewBackupWithMetadata_flush db metadata flush progress =>
      '(s, _) ← self _ (bk_CreateNewBackupWithMetadata (flush_options flush progress) db metadata None); ret s
  | bk_CreateNewBackup options db new_backup_id =>
      self _ (bk_CreateNewBackupWithMetadata options db [] new_backup_id)
  | bk_CreateNewBackup_flush db flush progress =>
      '(s, _) ← self _ (bk_CreateNewBackup (flush_options flush progress) db None); ret s
  | bk_GetLatestBackupInfo _ _ => pure_virtual
  | bk_GetBackupInfo _ _ _ => pure_virtual
  | bk_GetBackupInfos _ _ => pure_virtual
  | bk_GetCorruptedBackups _ => pure_virtual
  | bk_RestoreDBFromBackup _ _ _ _ => pure_virtual
  | bk_RestoreDBFromLatestBackup _ _ _ => pure_virtual
  | bk_VerifyBackup _ _ => pure_virtual
  | bk_AsBackupEngine => pure_virtual
  | bk_CreateNewBackupWithMetadata _ _ _ _ => pure_virtual
  | bk_StopBackup => pure_virtual
  | bk_GarbageCollect => pure_virtual
  | bk_PurgeOldBackups _ => pure_virtual
  | bk_DeleteBackup _ => pure_virtual
  end.

(** The two static overloads of [Open] take their arguments in either order. *)
Definition BackupEngine_Open_env {A} (Open : BackupEngineOptions → Z → M St A) (db_env : Z)
    (options : BackupEngineOptions) : M St A := Open options db_env.

(** An engine supplies the functions without a body and inherits the others. *)
Record engine_class (ov : overrides backup_call St)
    (create : CreateBackupOptions → Z → bytes → option Z → M St (Status * option Z))
    (restore : RestoreOptions → Z → bytes → bytes → M St Status)
    (latest : RestoreOptions → bytes → bytes → M St Status) : Prop := {
  engine_create o db m i : ov _ (bk_CreateNewBackupWithMetadata o db m i) = Some (create o db m i);
  engine_restore o i d w : ov _ (bk_RestoreDBFromBackup o i d w) = Some (restore o i d w);
  engine_latest o d w : ov _ (bk_RestoreDBFromLatestBackup o d w) = Some (latest o d w);
  engine_inherits R (c : backup_call R) :
    match c with
    | bk_RestoreDBFromBackup_id _ _ _ _ | bk_RestoreDBFromLatestBackup_dirs _ _ _
    | bk_CreateNewBackupWithMetadata_flush _ _ _ _ | bk_CreateNewBackup _ _ _
    | bk_CreateNewBackup_flush _ _ _ => ov R c = None
    | _ => True
    end;
}.

(** Every form of creating a backup is the one with metadata: without metadata it is
    empty, and the forms with a flush flag and a callback leave the other options at
    their defaults and throw the identifier away.  The forms of restoring pass their
    arguments on. *)
Theorem backup_overloads (ov : overrides backup_call St) create restore latest this s :
  engine_class ov create restore latest →
  let engine := dispatch backup_call St BackupEngine_bodies 3 this ov in
  let status (m : M St (Status * option Z)) : M St Status := '(st, _) ← m; ret st in
  (∀ o db i, engine _ (bk_CreateNewBackup o db i) s = create o db [] i s) ∧
  (∀ db m f p, engine _ (bk_CreateNewBackupWithMetadata_flush db m f p) s =
    status (create (mkCreateBackupOptions f (Some p) None false kNormal) db m None) s) ∧
  (∀ db f p, engine _ (bk_CreateNewBackup_flush db f p) s =
    status (create (mkCreateBackupOptions f (Some p) None false kNormal) db [] None) s) ∧
  (∀ i d w o, engine _ (bk_RestoreDBFromBackup_id i d w o) s = restore o i d w s) ∧
  (∀ d w o, engine _ (bk_RestoreDBFromLatestBackup_dirs d w o) s = latest o d w s).
Proof.
  intros [Hc Hr Hl Hi]. cbv zeta. split_and!; intros; cbn [dispatch].
  - pose proof (Hi _ (bk_CreateNewBackup o db i)) as E. cbn in E. rewrite E. cbn. by rewrite Hc.
  - pose proof (Hi _ (bk_CreateNewBackupWithMetadata_flush db m f p)) as E. cbn in E. rewrite E. cbn. by rewrite Hc.
  - pose proof (Hi _ (bk_CreateNewBackup_flush db f p)) as E. cbn in E. rewrite E. cbn.
    pose proof (Hi _ (bk_CreateNewBackup (flush_options f p) db None)) as E'. cbn in E'. unfold mbind, M_bind.
    rewrite E'. cbn. by rewrite Hc.
  - pose proof (Hi _ (bk_RestoreDBFromBackup_id i d w o)) as E. cbn in E. rewrite E. cbn. by rewrite Hr.
  - pose proof (Hi _ (bk_RestoreDBFromLatestBackup_dirs d w o)) as E. cbn in E. rewrite E. cbn. by rewrite Hl.
Qed.
End Engine.

(** ** The theorems on options *)

(** The comment lets [share_table_files] be false, for backups that share no files;
    the constructor sets [share_files_with_checksum] and asserts that it is false
    then, so that it stops for every such options. *)
Theorem unshared_backups_stop dir env log sync destroy logs a b c d e f naming :
  BackupEngineOptions_new dir env false log sync destroy logs a b c d e f naming = None.
Proof. done. Qed.

(** Otherwise it takes exactly the naming schemes that name something. *)
Theorem shared_backups_named dir env log sync destroy logs a b c d e f naming :
  is_Some (BackupEngineOptions_new dir env true log sync destroy logs a b c d e f naming) ↔
  Z.land naming kMaskNoNamingFlags ≠ 0.
Proof.
  unfold BackupEngineOptions_new. simpl.
  destruct (Z.eqb_spec (Z.land naming kMaskNoNamingFlags) 0); simpl; split; intros H; try done.
Qed.

(** The operations on naming schemes: adding the flag for the file size keeps the
    scheme, which the mask gives back, and sets the flag. *)
Theorem naming_flags (scheme : Z) : 0 ≤ scheme ≤ 0xffff →
  ∃ n, naming_or scheme kFlagIncludeFileSize = Some n ∧
    naming_and n kMaskNoNamingFlags = Some scheme ∧
    naming_and n kFlagIncludeFileSize = Some kFlagIncludeFileSize ∧
    naming_and n kMaskNamingFlags = Some kFlagIncludeFileSize.
Proof.
  intros Hs. exists (Z.lor scheme kFlagIncludeFileSize). split; [done|].
  assert (Hlow : Z.land scheme (Z.ones 16) = scheme).
  { rewrite Z.land_ones by lia. apply Z.mod_small. lia. }
  assert (Hbit : Z.land scheme kFlagIncludeFileSize = 0).
  { rewrite <- Hlow, <- Z.land_assoc. change (Z.land (Z.ones 16) kFlagIncludeFileSize) with 0. apply Z.land_0_r. }
  assert (Hmask : Z.land scheme kMaskNamingFlags = 0).
  { rewrite <- Hlow, <- Z.land_assoc. change (Z.land (Z.ones 16) kMaskNamingFlags) with 0. apply Z.land_0_r. }
  unfold naming_and. change kMaskNoNamingFlags with (Z.ones 16). split_and!; cbn -[Z.lor Z.land].
  - f_equal. rewrite Z.land_lor_distr_l. change (Z.land kFlagIncludeFileSize (Z.ones 16)) with 0.
    by rewrite Z.lor_0_r.
  - f_equal. by rewrite Z.land_lor_distr_l, Hbit.
  - f_equal. by rewrite Z.land_lor_distr_l, Hmask.
Qed.
