(* ===== verification/Listener.v ===== *)
(** * Event listeners (libs/rocksdb/listener.h)

    The structs that describe what happened in a database, with their constructors,
    and the interface [EventListener]: every function has a body that does nothing.
    A database, a column family handle, the statistics of a job and a time point are
    numbers; the structs that inherit from another hold it as their base. *)

From stdpp Require Import base list strings.
From Stdlib Require Import ZArith Lia.
From S2P Require Import Prelude Slice Status Virtual FileSystem Hooks Options.

Open Scope Z_scope.

(** ** Files *)

Inductive BlobFileCreationReason :=
| BlobFileCreationReason_kFlush | BlobFileCreationReason_kCompaction | BlobFileCreationReason_kRecovery.
Inductive WriteStallCondition :=
| WriteStallCondition_kDelayed | WriteStallCondition_kStopped | WriteStallCondition_kNormal.

Record FileCreationBriefInfo := mkFileCreationBriefInfo {
  fc_db_name : bytes; fc_cf_name : bytes; fc_file_path : bytes; fc_job_id : Z;
}.
Definition FileCreationBriefInfo_default : FileCreationBriefInfo := mkFileCreationBriefInfo [] [] [] 0.
Definition FileCreationBriefInfo_new (_db_name _cf_name _file_path : bytes) (_job_id : Z) : FileCreationBriefInfo :=
  mkFileCreationBriefInfo _db_name _cf_name _file_path _job_id.

Record TableFileCreationBriefInfo := mkTableFileCreationBriefInfo {
  tfc_brief : FileCreationBriefInfo; tfc_reason : TableFileCreationReason;
}.
Record TableFileCreationInfo := mkTableFileCreationInfo {
  tf_base : TableFileCreationBriefInfo; tf_file_size : Z; tf_table_properties : Properties.TableProperties;
  tf_status : Status; tf_file_checksum : bytes; tf_file_checksum_func_name : bytes;
}.

Record BlobFileCreationBriefInfo := mkBlobFileCreationBriefInfo {
  bfc_brief : FileCreationBriefInfo; bfc_reason : BlobFileCreationReason;
}.
Definition BlobFileCreationBriefInfo_new (_db_name _cf_name _file_path : bytes) (_job_id : Z)
    (_reason : BlobFileCreationReason) : BlobFileCreationBriefInfo :=
  mkBlobFileCreationBriefInfo (FileCreationBriefInfo_new _db_name _cf_name _file_path _job_id) _reason.
Record BlobFileCreationInfo := mkBlobFileCreationInfo {
  bf_base : BlobFileCreationBriefInfo; bf_total_blob_count : Z; bf_total_blob_bytes : Z; bf_status : Status;
  bf_file_checksum : bytes; bf_file_checksum_func_name : bytes;
}.
Definition BlobFileCreationInfo_new (_db_name _cf_name _file_path : bytes) (_job_id : Z)
    (_reason : BlobFileCreationReason) (_total_blob_count _total_blob_bytes : Z) (_status : Status)
    (_file_checksum _file_checksum_func_name : bytes) : BlobFileCreationInfo :=
  mkBlobFileCreationInfo (BlobFileCreationBriefInfo_new _db_name _cf_name _file_path _job_id _reason)
    _total_blob_count _total_blob_bytes _status _file_checksum _file_checksum_func_name.

Record WriteStallInfo := mkWriteStallInfo {
  ws_cf_name : bytes; ws_cur : WriteStallCondition; ws_prev : WriteStallCondition;
}.

Record FileDeletionInfo := mkFileDeletionInfo { fd_db_name : bytes; fd_file_path : bytes; fd_job_id : Z; fd_status : Status }.
Definition FileDeletionInfo_default : FileDeletionInfo := mkFileDeletionInfo [] [] 0 Status_new.
Definition FileDeletionInfo_new (_db_name _file_path : bytes) (_job_id : Z) (_status : Status) : FileDeletionInfo :=
  mkFileDeletionInfo _db_name _file_path _job_id _status.

(** Time points are in nanoseconds.  The constructor leaves the offset and the length
    as they are in memory: they are passed in. *)
Record FileOperationInfo := mkFileOperationInfo {
  fo_type : FileOperationType; fo_path : bytes; fo_temperature : Temperature; fo_offset : Z; fo_length : Z;
  fo_duration : Z; fo_start_ts : Z; fo_status : Status;
}.
Definition FileOperationInfo_new (memory_offset memory_length : Z) (_type : FileOperationType) (_path : bytes)
    (_start_ts : Z * Z) (_finish_ts : Z) (_status : Status) (_temperature : Temperature) : FileOperationInfo :=
  mkFileOperationInfo _type _path _temperature memory_offset memory_length (_finish_ts - _start_ts.2) _start_ts.1
    _status.

Record BlobFileInfo := mkBlobFileInfo { blob_file_path : bytes; blob_file_number : Z }.
Record BlobFileAdditionInfo := mkBlobFileAdditionInfo {
  add_base : BlobFileInfo; add_total_blob_count : Z; add_total_blob_bytes : Z;
}.
Definition BlobFileAdditionInfo_new (_path : bytes) (_number _count _bytes : Z) : BlobFileAdditionInfo :=
  mkBlobFileAdditionInfo (mkBlobFileInfo _path _number) _count _bytes.
Record BlobFileGarbageInfo := mkBlobFileGarbageInfo {
  garbage_base : BlobFileInfo; garbage_blob_count : Z; garbage_blob_bytes : Z;
}.
Definition BlobFileGarbageInfo_new (_path : bytes) (_number _count _bytes : Z) : BlobFileGarbageInfo :=
  mkBlobFileGarbageInfo (mkBlobFileInfo _path _number) _count _bytes.

(** ** Jobs *)

Record ManualFlushInfo := mkManualFlushInfo { mf_cf_id : Z; mf_cf_name : bytes; mf_flush_reason : FlushReason }.

Record FlushJobInfo := mkFlushJobInfo {
  fj_cf_id : Z; fj_cf_name : bytes; fj_file_path : bytes; fj_file_number : Z; fj_oldest_blob_file_number : Z;
  fj_thread_id : Z; fj_job_id : Z; triggered_writes_slowdown : bool; triggered_writes_stop : bool;
  smallest_seqno : Z; largest_seqno : Z; fj_table_properties : Properties.TableProperties;
  fj_flush_reason : FlushReason; fj_blob_compression_type : CompressionType;
  fj_blob_file_addition_infos : list BlobFileAdditionInfo;
}.

Record CompactionFileInfo := mkCompactionFileInfo { cfi_level : Z; cfi_file_number : Z; cfi_oldest_blob_file_number : Z }.

Record SubcompactionJobInfo := mkSubcompactionJobInfo {
  sj_cf_id : Z; sj_cf_name : bytes; sj_status : Status; sj_thread_id : Z; sj_job_id : Z; subcompaction_job_id : Z;
  sj_base_input_level : Z; sj_output_level : Z; sj_compaction_reason : CompactionReason;
  sj_compression : CompressionType; sj_stats : Z; sj_blob_compression_type : CompressionType;
}.

Record CompactionJobInfo := mkCompactionJobInfo {
  cj_cf_id : Z; cj_cf_name : bytes; cj_status : Status; cj_thread_id : Z; cj_job_id : Z; num_l0_files : Z;
  cj_base_input_level : Z; cj_output_level : Z; input_files : list bytes;
  input_file_infos : list CompactionFileInfo; output_files : list bytes; output_file_infos : list CompactionFileInfo;
  cj_table_properties : list (bytes * Properties.TableProperties); cj_compaction_reason : CompactionReason;
  cj_compression : CompressionType; cj_stats : Z; cj_blob_compression_type : CompressionType;
  cj_blob_file_addition_infos : list BlobFileAdditionInfo; cj_blob_file_garbage_infos : list BlobFileGarbageInfo;
}.

Record MemTableInfo := mkMemTableInfo {
  mti_cf_name : bytes; first_seqno : Z; earliest_seqno : Z; mti_num_entries : Z; num_deletes : Z; newest_udt : bytes;
}.
Record ExternalFileIngestionInfo := mkExternalFileIngestionInfo {
  ei_cf_name : bytes; external_file_path : bytes; internal_file_path : bytes; global_seqno : Z;
  ei_table_properties : Properties.TableProperties;
}.
Record BackgroundErrorRecoveryInfo := mkErrorRecoveryInfo { old_bg_error : Status; new_bg_error : Status }.
Record IOErrorInfo := mkIOErrorInfo {
  io_status : Status; io_operation : FileOperationType; io_file_path : bytes; io_length : Z; io_offset : Z;
}.

(** ** EventListener *)

Section Listener.
Context {St : Type}.

(** A status or a flag passed by pointer is returned. *)
Inductive listener_call : Type → Type :=
| el_Name : listener_call bytes
| el_OnFlushCompleted (db : Z) (info : FlushJobInfo) : listener_call unit
| el_OnFlushBegin (db : Z) (info : FlushJobInfo) : listener_call unit
| el_OnManualFlushScheduled (db : Z) (infos : list ManualFlushInfo) : listener_call unit
| el_OnTableFileDeleted (info : FileDeletionInfo) : listener_call unit
| el_OnCompactionBegin (db : Z) (ci : CompactionJobInfo) : listener_call unit
| el_OnCompactionCompleted (db : Z) (ci : CompactionJobInfo) : listener_call unit
| el_OnSubcompactionBegin (si : SubcompactionJobInfo) : listener_call unit
| el_OnSubcompactionCompleted (si : SubcompactionJobInfo) : listener_call unit
| el_OnTableFileCreated (info : TableFileCreationInfo) : listener_call unit
| el_OnTableFileCreationStarted (info : TableFileCreationBriefInfo) : listener_call unit
| el_OnMemTableSealed (info : MemTableInfo) : listener_call unit
| el_OnColumnFamilyHandleDeletionStarted (handle : Z) : listener_call unit
| el_OnExternalFileIngested (db : Z) (info : ExternalFileIngestionInfo) : listener_call unit
| el_OnBackgroundError (reason : BackgroundErrorReason) (bg_error : Status) : listener_call Status
| el_OnStallConditionsChanged (info : WriteStallInfo) : listener_call unit
| el_OnFileReadFinish (info : FileOperationInfo) : listener_call unit
| el_OnFileWriteFinish (info : FileOperationInfo) : listener_call unit
| el_OnFileFlushFinish (info : FileOperationInfo) : listener_call unit
| el_OnFileSyncFinish (info : FileOperationInfo) : listener_call unit
| el_OnFileRangeSyncFinish (info : FileOperationInfo) : listener_call unit
| el_OnFileTruncateFinish (info : FileOperationInfo) : listener_call unit
| el_OnFileCloseFinish (info : FileOperationInfo) : listener_call unit
| el_ShouldBeNotifiedOnFileIO : listener_call bool
| el_OnErrorRecoveryBegin (reason : BackgroundErrorReason) (bg_error : Status) (auto_recovery : bool) :
    listener_call bool
| el_OnErrorRecoveryCompleted (old_bg_error : Status) : listener_call unit
| el_OnErrorRecoveryEnd (info : BackgroundErrorRecoveryInfo) : listener_call unit
| el_OnBlobFileCreationStarted (info : BlobFileCreationBriefInfo) : listener_call unit
| el_OnBlobFileCreated (info : BlobFileCreationInfo) : listener_call unit
| el_OnBlobFileDeleted (info : FileDeletionInfo) : listener_call unit
| el_OnIOError (info : IOErrorInfo) : listener_call unit.

(** [PermitUncheckedError], which [OnErrorRecoveryCompleted] calls on its copy of the
    status, has no effect outside. *)
Definition EventListener_bodies (this : Z) (self : object listener_call St) : object listener_call St := λ R c,
  match c in listener_call T return M St T with
  | el_Name => ret []
  | el_OnFlushCompleted _ _ => ret tt
  | el_OnFlushBegin _ _ => ret tt
  | el_OnManualFlushScheduled _ _ => ret tt
  | el_OnTableFileDeleted _ => ret tt
  | el_OnCompactionBegin _ _ => ret tt
  | el_OnCompactionCompleted _ _ => ret tt
  | el_OnSubcompactionBegin _ => ret tt
  | el_OnSubcompactionCompleted _ => ret tt
  | el_OnTableFileCreated _ => ret tt
  | el_OnTableFileCreationStarted _ => ret tt
  | el_OnMemTableSealed _ => ret tt
  | el_OnColumnFamilyHandleDeletionStarted _ => ret tt
  | el_OnExternalFileIngested _ _ => ret tt
  | el_OnBackgroundError _ bg_error => ret bg_error
  | el_OnStallConditionsChanged _ => ret tt
  | el_OnFileReadFinish _ => ret tt
  | el_OnFileWriteFinish _ => ret tt
  | el_OnFileFlushFinish _ => ret tt
  | el_OnFileSyncFinish _ => ret tt
  | el_OnFileRangeSyncFinish _ => ret tt
  | el_OnFileTruncateFinish _ => ret tt
  | el_OnFileCloseFinish _ => ret tt
  | el_ShouldBeNotifiedOnFileIO => ret false
  | el_OnErrorRecoveryBegin _ _ auto_recovery => ret auto_recovery
  | el_OnErrorRecoveryCompleted _ => ret tt
  | el_OnErrorRecoveryEnd _ => ret tt
  | el_OnBlobFileCreationStarted _ => ret tt
  | el_OnBlobFileCreated _ => ret tt
  | el_OnBlobFileDeleted _ => ret tt
  | el_OnIOError _ => ret tt
  end.

(** What a call hands back when it is not overridden: the status and the flag as they
    were, no wish to hear of file operations. *)
Definition unchanged {R} (c : listener_call R) : R :=
  match c in listener_call T return T with
  | el_Name => []
  | el_OnBackgroundError _ bg_error => bg_error
  | el_ShouldBeNotifiedOnFileIO => false
  | el_OnErrorRecoveryBegin _ _ auto_recovery => auto_recovery
  | el_OnFlushCompleted _ _ | el_OnFlushBegin _ _ | el_OnManualFlushScheduled _ _ | el_OnTableFileDeleted _
  | el_OnCompactionBegin _ _ | el_OnCompactionCompleted _ _ | el_OnSubcompactionBegin _
  | el_OnSubcompactionCompleted _ | el_OnTableFileCreated _ | el_OnTableFileCreationStarted _
  | el_OnMemTableSealed _ | el_OnColumnFamilyHandleDeletionStarted _ | el_OnExternalFileIngested _ _
  | el_OnStallConditionsChanged _ | el_OnFileReadFinish _ | el_OnFileWriteFinish _ | el_OnFileFlushFinish _
  | el_OnFileSyncFinish _ | el_OnFileRangeSyncFinish _ | el_OnFileTruncateFinish _ | el_OnFileCloseFinish _
  | el_OnErrorRecoveryCompleted _ | el_OnErrorRecoveryEnd _ | el_OnBlobFileCreationStarted _
  | el_OnBlobFileCreated _ | el_OnBlobFileDeleted _ | el_OnIOError _ => tt
  end.

(** A call that a class does not override changes nothing. *)
Theorem silent_listener (ov : overrides listener_call St) this R (c : listener_call R) s n :
  ov R c = None → dispatch listener_call St EventListener_bodies (S n) this ov R c s = Some (unchanged c, s).
Proof. intros E. cbn [dispatch]. rewrite E. by destruct c. Qed.
End Listener.
