(* ===== verification/GoLib.v ===== *)
(** * The parts of the Go standard library the node uses

    A Go string and a byte slice are both a sequence of bytes, here a [string].
    This file models encoding/hex, the big-endian integers of encoding/binary,
    the verbs [%d] and [%s] of fmt, strings.TrimSpace and strings.Split. *)

From stdpp Require Import base list gmap strings pretty.
From Stdlib Require Import ZArith Lia Ascii.
From S2P Require Import Prelude.

Open Scope Z_scope.

Definition byte_at (c : ascii) : Z := Z.of_nat (nat_of_ascii c).
Definition to_byte (z : Z) : ascii := ascii_of_nat (Z.to_nat (z mod 256)).

Definition string_len (s : string) : Z := Z.of_nat (String.length s).

(** ** encoding/hex *)

Definition hex_digit (n : Z) : ascii := if n <? 10 then to_byte (48 + n) else to_byte (87 + n).

(** Both cases of the letters are decoded. *)
Definition hex_value (c : ascii) : option Z :=
  let v := byte_at c in
  if (48 <=? v) && (v <=? 57) then Some (v - 48)
  else if (97 <=? v) && (v <=? 102) then Some (v - 87)
  else if (65 <=? v) && (v <=? 70) then Some (v - 55)
  else None.

Fixpoint hex_EncodeToString (s : string) : string :=
  match s with
  | EmptyString => EmptyString
  | String c s' =>
      String (hex_digit (byte_at c / 16)) (String (hex_digit (byte_at c mod 16)) (hex_EncodeToString s'))
  end.

Fixpoint hex_DecodeString (s : string) : option string :=
  match s with
  | EmptyString => Some EmptyString
  | String a (String b s') =>
      match hex_value a, hex_value b, hex_DecodeString s' with
      | Some x, Some y, Some r => Some (String (to_byte (16 * x + y)) r)
      | _, _, _ => None
      end
  | String _ EmptyString => None
  end.

(** ** encoding/binary, big endian, 64 bits *)

Fixpoint be_bytes (n : nat) (v : Z) : string :=
  match n with
  | O => EmptyString
  | S n' => String (to_byte (v / 256 ^ Z.of_nat n')) (be_bytes n' v)
  end.

Definition PutUint64 (v : Z) : string := be_bytes 8 v.

Fixpoint be_value (acc : Z) (s : string) : Z :=
  match s with
  | EmptyString => acc
  | String c s' => be_value (256 * acc + byte_at c) s'
  end.

Definition Uint64 (s : string) : Z := be_value 0 s.

(** ** fmt *)

Definition fmt_d (n : Z) : string := pretty n.

(** ** strings *)

(** The number of bytes of the white space a string starts with: one of the
    ASCII spaces, or the UTF-8 encoding of another one. *)
Definition space_len (s : string) : nat :=
  match s with
  | EmptyString => 0%nat
  | String a s1 =>
      let x := byte_at a in
      if ((9 <=? x) && (x <=? 13)) || (x =? 32) then 1%nat
      else match s1 with
      | EmptyString => 0%nat
      | String b s2 =>
          let y := byte_at b in
          if (x =? 0xC2) && ((y =? 0x85) || (y =? 0xA0)) then 2%nat
          else match s2 with
          | EmptyString => 0%nat
          | String c _ =>
              let z := byte_at c in
              if (x =? 0xE1) && (y =? 0x9A) && (z =? 0x80) then 3%nat
              else if (x =? 0xE2) && (y =? 0x80) &&
                      (((0x80 <=? z) && (z <=? 0x8A)) || (z =? 0xA8) || (z =? 0xA9) || (z =? 0xAF))
              then 3%nat
              else if (x =? 0xE2) && (y =? 0x81) && (z =? 0x9F) then 3%nat
              else if (x =? 0xE3) && (y =? 0x80) && (z =? 0x80) then 3%nat
              else 0%nat
          end
      end
  end.

Definition string_drop (n : nat) (s : string) : string :=
  String.substring n (String.length s - n) s.

(** The string as white spaces and other bytes; [fuel] is its length. *)
Fixpoint space_chunks (fuel : nat) (s : string) : list (bool * string) :=
  match fuel, s with
  | S fuel', String c s' =>
      match space_len s with
      | O => (false, String c EmptyString) :: space_chunks fuel' s'
      | n => (true, String.substring 0 n s) :: space_chunks fuel' (string_drop n s)
      end
  | _, _ => []
  end.

Fixpoint drop_spaces (l : list (bool * string)) : list (bool * string) :=
  match l with (true, _) :: l' => drop_spaces l' | _ => l end.

Definition TrimSpace (s : string) : string :=
  let l := drop_spaces (space_chunks (String.length s) s) in
  foldr (λ p r, snd p +:+ r) EmptyString (reverse (drop_spaces (reverse l))).

(** [strings.Trim(s, cutset)]. *)
Fixpoint trim_left (cut : list ascii) (l : list ascii) : list ascii :=
  match l with
  | c :: l' => if bool_decide (c ∈ cut) then trim_left cut l' else l
  | [] => []
  end.

Definition Trim (s : string) (cut : list ascii) : string :=
  String.string_of_list_ascii
    (reverse (trim_left cut (reverse (trim_left cut (String.list_ascii_of_string s))))).

(** [strings.Split(s, sep)] for a separator of one byte. *)
Fixpoint Split (sep : ascii) (s : string) : list string :=
  match s with
  | EmptyString => [EmptyString]
  | String c s' =>
      if bool_decide (c = sep) then EmptyString :: Split sep s'
      else match Split sep s' with
           | [] => [String c EmptyString]
           | x :: r => String c x :: r
           end
  end.

(** ** Lemmas *)

Lemma byte_at_range c : 0 ≤ byte_at c < 256.
Proof. unfold byte_at. pose proof (nat_ascii_bounded c). lia. Qed.

Lemma to_byte_at c : to_byte (byte_at c) = c.
Proof.
  unfold to_byte. rewrite Z.mod_small by apply byte_at_range. unfold byte_at.
  rewrite Nat2Z.id. apply ascii_nat_embedding.
Qed.

Lemma byte_at_to z : byte_at (to_byte z) = z mod 256.
Proof.
  unfold byte_at, to_byte. pose proof (Z.mod_pos_bound z 256). rewrite nat_ascii_embedding; lia.
Qed.

Lemma hex_value_digit n : 0 ≤ n < 16 → hex_value (hex_digit n) = Some n.
Proof.
  intros Hn.
  assert (Hf : Forall (λ n, hex_value (hex_digit n) = Some n) (seqZ 0 16)) by repeat constructor.
  rewrite Forall_forall in Hf. apply Hf, elem_of_seqZ. lia.
Qed.

Lemma hex_roundtrip s : hex_DecodeString (hex_EncodeToString s) = Some s.
Proof.
  induction s as [|c s IH]; [done|]. pose proof (byte_at_range c).
  cbn [hex_EncodeToString hex_DecodeString].
  rewrite !hex_value_digit, IH; [|by apply Z.mod_pos_bound|].
  2: { split; [by apply Z.div_pos; lia | apply Z.div_lt_upper_bound; lia]. }
  rewrite <- (Z.div_mod (byte_at c) 16) by lia. by rewrite to_byte_at.
Qed.

Lemma be_value_bytes acc n v :
  be_value acc (be_bytes n v) = acc * 256 ^ Z.of_nat n + v mod 256 ^ Z.of_nat n.
Proof.
  revert acc. induction n as [|n IH]; intros acc; [simpl; rewrite Z.mod_1_r; lia|].
  cbn [be_bytes be_value]. rewrite byte_at_to, IH, Nat2Z.inj_succ, Z.pow_succ_r by lia.
  rewrite (Z.mul_comm 256 (256 ^ _)), Z.rem_mul_r by (pose proof (Z.pow_pos_nonneg 256 (Z.of_nat n)); lia).
  lia.
Qed.

Lemma Uint64_PutUint64 v : in_width 64 v → Uint64 (PutUint64 v) = v.
Proof.
  intros Hv. unfold Uint64, PutUint64. rewrite be_value_bytes. change (256 ^ Z.of_nat 8) with (2 ^ 64).
  by rewrite Z.mod_small.
Qed.

Lemma PutUint64_length v : String.length (PutUint64 v) = 8%nat.
Proof. done. Qed.

Lemma PutUint64_inj a b : in_width 64 a → in_width 64 b → PutUint64 a = PutUint64 b → a = b.
Proof. intros Ha Hb E. by rewrite <- (Uint64_PutUint64 a), E, Uint64_PutUint64. Qed.

(** Only the low 64 bits are written. *)
Lemma be_bytes_wrap n v : (n ≤ 8)%nat → be_bytes n (wrap 64 v) = be_bytes n v.
Proof.
  induction n as [|n IH]; intros Hn; [done|]. cbn [be_bytes]. rewrite IH by lia. f_equal.
  unfold to_byte, wrap. do 2 f_equal.
  assert (H64 : 2 ^ 64 = 256 ^ Z.of_nat n * (256 * 256 ^ (7 - Z.of_nat n))).
  { change (2 ^ 64) with (256 ^ 8). rewrite <- Z.pow_succ_r, <- Z.pow_add_r by lia. f_equal. lia. }
  pose proof (Z.pow_pos_nonneg 256 (Z.of_nat n) ltac:(lia) ltac:(lia)).
  pose proof (Z.pow_pos_nonneg 256 (7 - Z.of_nat n) ltac:(lia) ltac:(lia)).
  rewrite H64, Z.rem_mul_r by lia. rewrite Z.add_comm, Z.mul_comm, Z.div_add_l by lia.
  rewrite (Z.div_small (v mod _)) by (apply Z.mod_pos_bound; lia). rewrite Z.add_0_r.
  rewrite Z.rem_mul_r by lia. rewrite (Z.mul_comm 256), Z_mod_plus_full. apply Zmod_mod.
Qed.

Lemma app_cons_string x a b : String x a +:+ b = String x (a +:+ b).
Proof. done. Qed.

Lemma append_nil_r (s : string) : s +:+ "" = s.
Proof. induction s as [|c s IH]; [done|]. by rewrite app_cons_string, IH. Qed.

Lemma app_assoc_string a b c : (a +:+ b) +:+ c = a +:+ (b +:+ c).
Proof. induction a as [|x a IH]; [done|]. by rewrite !app_cons_string, IH. Qed.

Lemma app_inv_string a b c : a +:+ b = a +:+ c → b = c.
Proof. apply String.app_inj. Qed.

(** A byte does not occur in a string. *)
Fixpoint without (c : ascii) (s : string) : bool :=
  match s with
  | EmptyString => true
  | String x s' => negb (bool_decide (x = c)) && without c s'
  end.

(** The part before the first separator is determined by the whole. *)
Lemma without_split c s1 s2 r1 r2 :
  without c s1 = true → without c s2 = true →
  s1 +:+ String c r1 = s2 +:+ String c r2 → s1 = s2 ∧ r1 = r2.
Proof.
  revert s2. induction s1 as [|x s1 IH]; intros [|y s2]; simpl; intros H1 H2 E.
  - by injection E.
  - injection E as <- _. by rewrite bool_decide_true in H2.
  - injection E as -> _. by rewrite bool_decide_true in H1.
  - apply andb_prop in H1 as [_ H1]. apply andb_prop in H2 as [_ H2].
    injection E as -> E. by destruct (IH s2 H1 H2 E) as [-> ->].
Qed.

Lemma without_app c s1 s2 : without c (s1 +:+ s2) = without c s1 && without c s2.
Proof. induction s1 as [|x s1 IH]; [done|]. rewrite app_cons_string. simpl. by rewrite IH, andb_assoc. Qed.

(** A number is printed without the separator. *)
Lemma pretty_N_go_without x s : without "|" s = true → without "|" (pretty_N_go x s) = true.
Proof.
  revert s. induction (N.lt_wf_0 x) as [x _ IH]. intros s Hs.
  destruct (decide (x = 0)%N) as [->|Hx]; [by rewrite pretty_N_go_0|].
  rewrite pretty_N_go_step by lia. apply IH; [apply N.div_lt; lia|].
  cbn [without]. rewrite Hs, andb_true_r. unfold pretty_N_char.
  by repeat case_match.
Qed.

Lemma fmt_d_without n : without "|" (fmt_d n) = true.
Proof.
  unfold fmt_d, pretty, pretty_Z. destruct n; [done| |]; unfold pretty, pretty_positive, pretty, pretty_N.
  - rewrite decide_False by done. by apply pretty_N_go_without.
  - rewrite without_app. by apply pretty_N_go_without.
Qed.

Lemma fmt_d_inj a b : fmt_d a = fmt_d b → a = b.
Proof. apply pretty_Z_inj. Qed.
