(* ===== verification/Transaction.v ===== *)
(** * Transactions and their signatures (transaction/transaction.go,
    zkverify/verify.go, common/base58.go, the addresses of security/validation)

    A [Transaction] has the fields of the Go struct; a nil [Amount] is [None].
    The cryptography, base58, the JSON codec and the printing of 256-bit integers
    are not part of the repository and are the operations of [TxEnv]; the groth16
    verifier and the cache of its results are those of [ZkEnv]. *)

From stdpp Require Import base list gmap strings pretty.
From Stdlib Require Import ZArith Lia Ascii.
From S2P Require Import Prelude GoLib.

Open Scope string_scope.
Open Scope Z_scope.

(** ** Data *)

Definition TxTypeTransferByZk : Z := 0.
Definition TxTypeTransferByKey : Z := 1.
Definition TxTypeUserContent : Z := 2.

Record Transaction := mkTransaction {
  Type_ : Z; Sender : string; Recipient : string; Amount : option Z; Timestamp : Z;
  TextData : string; Nonce : Z; Signature : string; ExtraInfo : string; ZkProof : string;
  ZkPub : string;
}.

#[export] Instance Transaction_eq_dec : EqDecision Transaction.
Proof. solve_decision. Defined.

Record UserSig := mkUserSig { PubKey : string; Sig : string }.

Definition maxSignatureBase58Len : Z := 2048.
Definition maxSignatureDecodedLen : Z := 4096.
Definition maxZkProofLen : Z := 1024.
Definition maxZkPubLen : Z := 1024.

(** [ed25519.PublicKeySize] and [ed25519.SignatureSize]. *)
Definition PublicKeySize : Z := 32.
Definition SignatureSize : Z := 64.

(** ** Code outside the repository *)

Class TxEnv := {
  uint256_String : Z → string;
  base58_Decode : string → option string;
  base58_Encode : string → string;
  ed25519_Verify : string → string → string → bool;
  sha256_Sum256 : string → string;
  (** [new(edwards25519.Point).SetBytes] succeeds. *)
  edwards25519_SetBytes : string → bool;
  (** [jsonx.Marshal] of a transaction and [jsonx.Unmarshal] of a [UserSig]. *)
  json_of_tx : Transaction → option string;
  json_to_UserSig : string → option UserSig;
}.

Class ZkEnv := {
  Cache : Type;
  cache_Get : Cache → string → option string;
  cache_Set : Cache → string → string → Cache;
  Proof_ : Type;
  Witness_ : Type;
  base64_Decode : string → option string;
  (** [proof.ReadFrom], [pw.ReadFrom], [fmt.Sprintf("%v", pw.Vector())] and
      [groth16.Verify] with the verifying key. *)
  read_proof : string → option Proof_;
  read_witness : string → option Witness_;
  vector_string : Witness_ → string;
  groth16_Verify : Proof_ → Witness_ → bool;
  ScalarField : Z;
}.

(** The cache can lose entries and returns none that was not set. *)
Class ZkEnvOk (Z : ZkEnv) : Prop := {
  cache_Get_Set c k v k' w :
    cache_Get (cache_Set c k v) k' = Some w → (k' = k ∧ w = v) ∨ cache_Get c k' = Some w;
}.

(** ** common/base58.go and security/validation/utils.go *)

Section Addresses.
Context `{TxEnv}.

Definition EncodeBytesToBase58 (b : string) : string := base58_Encode b.
Definition DecodeBase58ToBytes (s : string) : option string := base58_Decode s.

Definition IsValidBase58 (s : string) : bool :=
  match base58_Decode s with Some d => 0 <? string_len d | None => false end.

(** [EncodeToBase58] and [DecodeFromBase58], between hex and base58. *)
Definition EncodeToBase58 (hexStr : string) : option string :=
  let hexStr :=
    if (2 <=? string_len hexStr) && bool_decide (String.substring 0 2 hexStr = "0x")
    then string_drop 2 hexStr else hexStr in
  match hex_DecodeString hexStr with
  | Some bytes => Some (base58_Encode bytes)
  | None => None
  end.

Definition DecodeFromBase58 (base58Str : string) : option string :=
  match base58_Decode base58Str with
  | Some bytes => if string_len bytes =? 0 then None else Some (hex_EncodeToString bytes)
  | None => None
  end.

Definition base58ToEd25519 (addr : string) : option string :=
  match DecodeBase58ToBytes addr with
  | Some b => if negb (string_len b =? PublicKeySize) then None else Some b
  | None => None
  end.

Definition ValidateTxAddress (addr : string) : bool :=
  match base58_Decode addr with
  | Some pubKey =>
      if negb (string_len pubKey =? PublicKeySize) then false else edwards25519_SetBytes pubKey
  | None => false
  end.

(** [getPublicKeyFromLeaderID] and [getPublicKeyFromVoterID]. *)
Definition public_key_of_id (id : string) : option string :=
  if bool_decide (id = "") then None
  else match DecodeBase58ToBytes id with
       | Some b => if negb (string_len b =? PublicKeySize) then None else Some b
       | None => None
       end.
End Addresses.

Definition ShouldValidateAddress (extraInfoType : string) : bool :=
  bool_decide (extraInfoType = "donation-campaign-feed").

(** ** zkverify/verify.go *)

Section ZkVerify.
Context `{ZkEnv}.

Definition makeCacheKey (sender pubKey proofB64 pubB64 : string) : string :=
  sender +:+ "|" +:+ pubKey +:+ "|" +:+ proofB64 +:+ "|" +:+ pubB64.

(** [encoding/json] on a boolean. *)
Definition json_of_bool (b : bool) : string := if b then "true" else "false".
Definition json_to_bool (s : string) : option bool :=
  let s := Trim s [" "; to_byte 9; to_byte 10; to_byte 13]%char in
  if bool_decide (s = "true") then Some true
  else if bool_decide (s = "false") then Some false else None.

Definition stringToBigIntBN254FromBytes (s : string) : Z := be_value 0 s mod ScalarField.

(** The public inputs: the printed vector without brackets, split at commas. *)
Definition public_inputs (pubString : string) : list string :=
  let trimmed := TrimSpace (Trim pubString ["["; "]"]%char) in
  if bool_decide (trimmed = "") then [] else TrimSpace <$> Split "," trimmed.

Definition verifyInternal (sender pubKey proofB64 pubB64 : string) : bool :=
  match base64_Decode proofB64 with
  | None => false
  | Some proofBytes =>
  match read_proof proofBytes with
  | None => false
  | Some proof =>
  match base64_Decode pubB64 with
  | None => false
  | Some pwBytes =>
  match read_witness pwBytes with
  | None => false
  | Some pw =>
      match public_inputs (vector_string pw) with
      | [_; _; p2; p3] =>
          if negb (bool_decide (p3 = fmt_d (stringToBigIntBN254FromBytes sender))) then false
          else if negb (bool_decide (p2 = fmt_d (stringToBigIntBN254FromBytes pubKey))) then false
          else groth16_Verify proof pw
      | _ => false
      end
  end end end end.

(** The result and the cache afterwards. *)
Definition Zk_Verify (c : Cache) (sender pubKey proofB64 pubB64 : string) : bool * Cache :=
  let cacheKey := makeCacheKey sender pubKey proofB64 pubB64 in
  let cached := match cache_Get c cacheKey with Some b => json_to_bool b | None => None end in
  match cached with
  | Some cacheResult => (cacheResult, c)
  | None =>
      let result := verifyInternal sender pubKey proofB64 pubB64 in
      (result, cache_Set c cacheKey (json_of_bool result))
  end.
End ZkVerify.

(** ** transaction/transaction.go *)

Section Tx.
Context `{TxEnv, ZkEnv}.

Definition uint256ToString (value : option Z) : string :=
  match value with None => "0" | Some v => uint256_String v end.

Definition Serialize (tx : Transaction) : string :=
  fmt_d (Type_ tx) +:+ "|" +:+ Sender tx +:+ "|" +:+ Recipient tx +:+ "|" +:+
  uint256ToString (Amount tx) +:+ "|" +:+ TextData tx +:+ "|" +:+ fmt_d (Nonce tx) +:+ "|" +:+
  ExtraInfo tx.

(** [zk] is nil or the cache of the verifier. *)
Definition Verify (zk : option Cache) (tx : Transaction) : bool * option Cache :=
  if bool_decide (Signature tx = "") then (false, zk)
  else if maxSignatureBase58Len <? string_len (Signature tx) then (false, zk)
  else match DecodeBase58ToBytes (Signature tx) with
  | None => (false, zk)
  | Some signature =>
  if maxSignatureDecodedLen <? string_len signature then (false, zk)
  else
    let serialized := Serialize tx in
    if Type_ tx =? TxTypeTransferByKey then
      match base58ToEd25519 (Sender tx) with
      | None => (false, zk)
      | Some pub => (ed25519_Verify pub serialized signature, zk)
      end
    else match zk with
    | None => (false, zk)
    | Some cache =>
      if bool_decide (ZkProof tx = "") || bool_decide (ZkPub tx = "") then (false, zk)
      else if (maxZkProofLen <? string_len (ZkProof tx)) || (maxZkPubLen <? string_len (ZkPub tx))
      then (false, zk)
      else match json_to_UserSig signature with
      | None => (false, zk)
      | Some userSig =>
        if (string_len (PubKey userSig) =? 0) || (string_len (Sig userSig) =? 0) then (false, zk)
        else if negb (string_len (PubKey userSig) =? PublicKeySize) then (false, zk)
        else
          let pubKey := EncodeBytesToBase58 (PubKey userSig) in
          if negb (ed25519_Verify (PubKey userSig) serialized (Sig userSig)) then (false, zk)
          else
            let '(ok, cache) := Zk_Verify cache (Sender tx) pubKey (ZkProof tx) (ZkPub tx) in
            (ok, Some cache)
      end
    end
  end.

(** The error of the marshaller is dropped. *)
Definition Bytes (tx : Transaction) : string := default "" (json_of_tx tx).
Definition Hash (tx : Transaction) : string := hex_EncodeToString (sha256_Sum256 (Bytes tx)).
Definition DedupHash (tx : Transaction) : string := base58_Encode (sha256_Sum256 (Serialize tx)).
End Tx.

(** ** The cache of proof verifications *)

Section CacheCorrect.
Context `{ZE : ZkEnv, ZO : !ZkEnvOk ZE}.

(** The arguments of a call: sender, public key, proof and public inputs. *)
Definition zk_args : Type := string * string * string * string.

(** The separator of the cache keys does not occur in the first three. *)
Definition zk_clean (a : zk_args) : Prop :=
  let '(s, k, p, _) := a in
  without "|" s = true ∧ without "|" k = true ∧ without "|" p = true.

Definition zk_key (a : zk_args) : string := let '(s, k, p, w) := a in makeCacheKey s k p w.
Definition zk_result (a : zk_args) : bool := let '(s, k, p, w) := a in verifyInternal s k p w.
Definition zk_call (c : Cache) (a : zk_args) : bool * Cache :=
  let '(s, k, p, w) := a in Zk_Verify c s k p w.

Lemma zk_key_inj a b : zk_clean a → zk_clean b → zk_key a = zk_key b → a = b.
Proof.
  destruct a as [[[s k] p] w], b as [[[s' k'] p'] w']. simpl.
  unfold makeCacheKey. intros (?&?&?) (?&?&?) E.
  apply without_split in E as [-> E]; [|done..].
  apply without_split in E as [-> E]; [|done..].
  by apply without_split in E as [-> ->].
Qed.

(** What is stored under the key of a call is its result. *)
Definition cache_sound (c : Cache) : Prop :=
  ∀ a v r, zk_clean a → cache_Get c (zk_key a) = Some v → json_to_bool v = Some r → r = zk_result a.

Lemma zk_call_sound c a : cache_sound c → zk_clean a →
  fst (zk_call c a) = zk_result a ∧ cache_sound (snd (zk_call c a)).
Proof.
  intros Hs Ha.
  assert (E : zk_call c a =
    match match cache_Get c (zk_key a) with Some b => json_to_bool b | None => None end with
    | Some r => (r, c)
    | None => (zk_result a, cache_Set c (zk_key a) (json_of_bool (zk_result a)))
    end) by by destruct a as [[[s k] p] w].
  rewrite E. clear E. destruct (cache_Get c (zk_key a)) as [v|] eqn:Ev; [|].
  1: destruct (json_to_bool v) as [r|] eqn:Er; [by rewrite (Hs a v r)|].
  all: split; [done|]; intros b v' r Hb Hv Hr; simpl in Hv;
    destruct (cache_Get_Set _ _ _ _ _ Hv) as [[Ek ->]|Hv']; [|by eapply Hs];
    apply zk_key_inj in Ek as ->; [|done..]; by destruct (zk_result a); injection Hr.
Qed.

(** The cache of the proof verifier is transparent: in a sequence of calls
    whose senders, keys and proofs do not contain the separator of the cache
    keys, starting from an empty cache, each call answers what the verification
    without the cache answers, whatever entries the cache drops meanwhile. *)
Theorem zk_cache_transparent (c : Cache) (calls : list zk_args) :
  (∀ k, cache_Get c k = None) → Forall zk_clean calls →
  fst (foldl (λ st a, let '(r, c) := zk_call (snd st) a in (fst st ++ [r], c))%list ([], c) calls)
  = zk_result <$> calls.
Proof.
  intros Hc Hcalls.
  assert (Hgen : ∀ acc c', cache_sound c' →
    fst (foldl (λ st a, let '(r, c) := zk_call (snd st) a in (fst st ++ [r], c))%list (acc, c') calls)
    = (acc ++ (zk_result <$> calls))%list).
  { induction Hcalls as [|a l Ha _ IH]; intros acc c' Hs; csimpl; [by rewrite app_nil_r|].
    destruct (zk_call_sound c' a Hs Ha) as [Hr Hs'].
    destruct (zk_call c' a) as [r c2]. simpl in *. subst r.
    rewrite IH by done. by rewrite <- app_assoc. }
  rewrite Hgen; [done|]. intros a v r _ Hv. by rewrite Hc in Hv.
Qed.
End CacheCorrect.

(** ** What is signed *)

(** What the printing of amounts gives. *)
Class TxEnvOk (E : TxEnv) : Prop := {
  uint256_String_inj a b :
    in_width 256 a → in_width 256 b → uint256_String a = uint256_String b → a = b;
  uint256_String_sep a : without "|" (uint256_String a) = true;
  base58_Encode_sep s : without "|" (base58_Encode s) = true;
}.

Section SerializeCorrect.
Context `{TE : TxEnv, ZE : ZkEnv}.

Definition separator_free (tx : Transaction) : Prop :=
  without "|" (Sender tx) = true ∧ without "|" (Recipient tx) = true ∧
  without "|" (TextData tx) = true.

Definition amount_in_width (tx : Transaction) : Prop :=
  match Amount tx with Some v => in_width 256 v | None => False end.

(** [C32] What a signature commits to: two transactions with amounts and without
    the separator in the sender, the recipient and the text have the same signed
    bytes only if they agree in type, sender, recipient, amount, text, nonce and
    extra information. *)
Theorem serialize_injective `{!TxEnvOk TE} (a b : Transaction) :
  separator_free a → separator_free b → amount_in_width a → amount_in_width b →
  Serialize a = Serialize b →
  Type_ a = Type_ b ∧ Sender a = Sender b ∧ Recipient a = Recipient b ∧ Amount a = Amount b ∧
  TextData a = TextData b ∧ Nonce a = Nonce b ∧ ExtraInfo a = ExtraInfo b.
Proof.
  unfold Serialize, amount_in_width. intros (?&?&?) (?&?&?) Ha Hb E.
  destruct (Amount a) as [va|], (Amount b) as [vb|]; try done. simpl in E.
  apply without_split in E as [E1 E]; [|apply fmt_d_without..].
  apply without_split in E as [E2 E]; [|done..].
  apply without_split in E as [E3 E]; [|done..].
  apply without_split in E as [E4 E]; [|apply uint256_String_sep..].
  apply without_split in E as [E5 E]; [|done..].
  apply without_split in E as [E6 E]; [|apply fmt_d_without..].
  apply fmt_d_inj in E1, E6. apply uint256_String_inj in E4 as ->; [|done..]. done.
Qed.

(** The same transaction read with another boundary between text, nonce and
    extra information. *)
Definition with_text (tx : Transaction) (text : string) (nonce : Z) (extra : string) : Transaction :=
  mkTransaction (Type_ tx) (Sender tx) (Recipient tx) (Amount tx) (Timestamp tx) text nonce
    (Signature tx) extra (ZkProof tx) (ZkPub tx).

(** The separator is not escaped: a transaction whose text contains a number
    between separators is verified, and deduplicated, exactly like one with that
    number as its nonce, the text before it, and the rest as extra information.
    So a signature is also one for another nonce. *)
Theorem signature_for_another_nonce (zk : option Cache) (tx : Transaction) (pre mid extra : string)
    (n m : Z) :
  let signed := with_text tx (pre +:+ "|" +:+ fmt_d n +:+ "|" +:+ mid) m extra in
  let other := with_text tx pre n (mid +:+ "|" +:+ fmt_d m +:+ "|" +:+ extra) in
  Serialize other = Serialize signed ∧ Verify zk other = Verify zk signed ∧
  DedupHash other = DedupHash signed.
Proof.
  intros signed other.
  assert (E : Serialize other = Serialize signed).
  { unfold Serialize, signed, other, with_text. simpl. by rewrite !app_assoc_string. }
  split; [done|]. split; [|unfold DedupHash; by rewrite E].
  unfold Verify. rewrite E. done.
Qed.

(** [C33] What an accepted transaction has: a base58 signature within the size
    limits; for a transfer by key, the ed25519 signature of the serialised
    transaction under the key that the sender's address encodes; otherwise a user
    signature of it, with a 32-byte key for which, with a sound cache, the proof
    verifies for that sender and key, and the cache stays sound. *)
Theorem verify_sound `{!TxEnvOk TE, !ZkEnvOk ZE} (zk zk' : option Cache) (tx : Transaction) :
  match zk with Some c => cache_sound c | None => True end →
  without "|" (Sender tx) = true → without "|" (ZkProof tx) = true →
  Verify zk tx = (true, zk') →
  ∃ signature, base58_Decode (Signature tx) = Some signature ∧
    0 < string_len (Signature tx) ≤ 2048 ∧ string_len signature ≤ 4096 ∧
    if Type_ tx =? TxTypeTransferByKey
    then ∃ pub, base58_Decode (Sender tx) = Some pub ∧ string_len pub = 32 ∧
           ed25519_Verify pub (Serialize tx) signature = true ∧ zk' = zk
    else ∃ us c', json_to_UserSig signature = Some us ∧ string_len (PubKey us) = 32 ∧
           ed25519_Verify (PubKey us) (Serialize tx) (Sig us) = true ∧
           verifyInternal (Sender tx) (base58_Encode (PubKey us)) (ZkProof tx) (ZkPub tx) = true ∧
           zk' = Some c' ∧ cache_sound c'.
Proof.
  unfold Verify, base58ToEd25519, DecodeBase58ToBytes, EncodeBytesToBase58.
  intros Hc HS HP HV.
  case_bool_decide as Es; [done|]. destruct (maxSignatureBase58Len <? _) eqn:E1; [done|].
  destruct (base58_Decode (Signature tx)) as [sg|] eqn:Ed; [|done].
  destruct (maxSignatureDecodedLen <? _) eqn:E2; [done|].
  exists sg. split; [done|].
  split; [unfold maxSignatureBase58Len in *; destruct (Signature tx); [done|]; cbn; unfold string_len in *; cbn in *; blia|].
  split; [unfold maxSignatureDecodedLen in *; blia|].
  destruct (Type_ tx =? TxTypeTransferByKey).
  { destruct (base58_Decode (Sender tx)) as [pub|]; [|done].
    destruct (string_len pub =? PublicKeySize) eqn:E3; [|done]. simpl in HV.
    injection HV as HV <-. exists pub. unfold PublicKeySize in *. by split_and!; [|blia|..]. }
  destruct zk as [c|]; [|done].
  destruct (bool_decide _ || _); [done|]. destruct (_ || _); [done|].
  destruct (json_to_UserSig sg) as [us|]; [|done]. destruct (_ || _); [done|].
  destruct (string_len (PubKey us) =? PublicKeySize) eqn:E3; [|done].
  destruct (ed25519_Verify (PubKey us) _ _) eqn:E4; [|done]. simpl in HV.
  destruct (zk_call_sound c (Sender tx, base58_Encode (PubKey us), ZkProof tx, ZkPub tx) Hc) as [Hr Hs];
    [by split_and!; [|apply base58_Encode_sep|]|].
  simpl in Hr, Hs. destruct (Zk_Verify c _ _ _ _) as [r c'] eqn:EZ. simpl in Hr, Hs.
  injection HV as -> <-. exists us, c'. unfold PublicKeySize in *. by split_and!; [|blia|..].
Qed.
End SerializeCorrect.

(** ** A concrete environment

    Base58 is replaced by hex, a signature is the key followed by the message,
    a hash is the length with the last bytes, and the public inputs are read as
    they are printed. *)
Definition example_tx_env : TxEnv := {|
  uint256_String := fmt_d;
  base58_Decode := hex_DecodeString;
  base58_Encode := hex_EncodeToString;
  ed25519_Verify pub m s := bool_decide (s = pub +:+ m);
  sha256_Sum256 s := fmt_d (string_len s) +:+ string_drop (String.length s - 8) s;
  edwards25519_SetBytes _ := true;
  json_of_tx tx := Some (fmt_d (Type_ tx) +:+ Sender tx +:+ Recipient tx +:+ fmt_d (Nonce tx));
  json_to_UserSig s :=
    Some (mkUserSig (String.substring 0 32 s) (string_drop 32 s));
|}.

Definition list_find_key (c : list (string * string)) (k : string) : option (string * string) :=
  head (filter (λ p, p.1 = k) c).

Definition example_zk_env : ZkEnv := {|
  Cache := list (string * string);
  cache_Get c k := snd <$> list_find_key c k;
  cache_Set c k v := (k, v) :: c;
  Proof_ := string;
  Witness_ := string;
  base64_Decode := Some;
  read_proof := Some;
  read_witness := Some;
  vector_string w := w;
  groth16_Verify p _ := bool_decide (p = "proof");
  ScalarField := 97;
|}.

Lemma hex_without s : without "|" (hex_EncodeToString s) = true.
Proof.
  assert (Hd : ∀ n, 0 ≤ n < 16 → hex_digit n ≠ "|"%char).
  { intros n Hn.
    assert (Hf : Forall (λ n, hex_digit n ≠ "|"%char) (seqZ 0 16)) by by repeat constructor.
    rewrite Forall_forall in Hf. apply Hf, elem_of_seqZ. lia. }
  induction s as [|c s IH]; [done|]. cbn [hex_EncodeToString without].
  pose proof (byte_at_range c).
  rewrite !bool_decide_false, IH; [done|apply Hd..].
  - by apply Z.mod_pos_bound.
  - split; [apply Z.div_pos; lia | apply Z.div_lt_upper_bound; lia].
Qed.

#[export] Instance example_tx_env_ok : TxEnvOk example_tx_env.
Proof.
  split; intros; simpl in *; [by apply fmt_d_inj | apply fmt_d_without | apply hex_without].
Qed.

#[export] Instance example_zk_env_ok : ZkEnvOk example_zk_env.
Proof. split. simpl. intros c k v k' w. unfold list_find_key. rewrite filter_cons. simpl.
  case_decide as E; simpl; [|by right]. intros. simplify_eq. by left.
Qed.

(** A key and its address. *)
Definition example_key : string := "0123456789abcdef0123456789abcdef".
Definition example_addr : string := hex_EncodeToString example_key.

Definition example_unsigned (ty amount nonce : Z) (recipient : string) : Transaction :=
  mkTransaction ty example_addr recipient (Some amount) 0 "hello" nonce "" "" "proof"
    ("[1, 2, " +:+ fmt_d (be_value 0 (hex_EncodeToString example_key) mod 97) +:+ ", "
       +:+ fmt_d (be_value 0 example_addr mod 97) +:+ "]").

Definition example_sign (tx : Transaction) : Transaction :=
  mkTransaction (Type_ tx) (Sender tx) (Recipient tx) (Amount tx) (Timestamp tx) (TextData tx)
    (Nonce tx) (hex_EncodeToString (example_key +:+
       (if Type_ tx =? TxTypeTransferByKey then "" else example_key) +:+ @Serialize example_tx_env tx))
    (ExtraInfo tx) (ZkProof tx) (ZkPub tx).

Lemma zk_cache_transparent_witness :
  fst (foldl (λ st a, let '(r, c) := @zk_call example_zk_env (snd st) a in (fst st ++ [r], c))%list
        ([], []) [("a", "k", "proof", "[1, 2, 10, 0]"); ("a", "k", "proof", "[1, 2, 10, 0]");
                 ("a", "k", "other", "[1, 2, 10, 0]")])
  = [true; true; false].
Proof.
  rewrite (@zk_cache_transparent example_zk_env _ []); [by vm_compute | done |].
  by repeat constructor.
Defined.

Lemma serialize_injective_witness :
  let a := example_sign (example_unsigned 1 5 3 "bob") in
  let b := mkTransaction (Type_ a) (Sender a) (Recipient a) (Amount a) 7 (TextData a) (Nonce a)
             "other" (ExtraInfo a) "" "" in
  Nonce a = Nonce b ∧ Amount a = Amount b.
Proof.
  intros a b.
  destruct (@serialize_injective example_tx_env _ a b) as (_ & _ & _ & HA & _ & HN & _);
    [by repeat split | by repeat split | by split | by split | by vm_compute |].
  by split.
Defined.

Lemma verify_sound_witness :
  let tx := example_sign (example_unsigned 1 5 3 "bob") in
  let zktx := example_sign (example_unsigned 0 5 3 "bob") in
  (∃ signature, hex_DecodeString (Signature tx) = Some signature ∧
     bool_decide (signature = example_key +:+ @Serialize example_tx_env tx) = true) ∧
  @verifyInternal example_zk_env example_addr (hex_EncodeToString example_key) (ZkProof zktx) (ZkPub zktx)
  = true.
Proof.
  intros tx zktx. split.
  - destruct (@verify_sound example_tx_env example_zk_env _ _ None None tx) as (sg & Hd & _ & _ & pub & Hp & _ & Hv & _);
      [done | by vm_compute | by vm_compute | by vm_compute |].
    exists sg. split; [done|]. vm_compute in Hp. injection Hp as <-. exact Hv.
  - assert (Hs : @cache_sound example_zk_env []).
    { by intros a v r _ Hv. }
    destruct (@verify_sound example_tx_env example_zk_env _ _ (Some [])
      (snd (@Verify example_tx_env example_zk_env (Some []) zktx)) zktx Hs eq_refl eq_refl)
      as (sg & Hd & _ & _ & us & c' & Hu & _ & _ & Hv & _); [vm_compute; reflexivity|].
    vm_compute in Hd. injection Hd as <-. vm_compute in Hu. injection Hu as <-. exact Hv.
Defined.
