(* ===== verification/Poh.v ===== *)
(** * Proof of history (the package poh)

    The hash clock [Poh], the recorder that mixes batches of transactions into
    it, the service that flushes entries at every tick, the verification of a
    list of entries, the entries of an empty slot and the queue of slot hashes.
    A hash is the string of its bytes; the hash function is [sha256_Sum256] of
    [TxEnv].  A pointer to a transaction can be nil ([None]).  Counters are
    64-bit unsigned integers that wrap around; a Go panic is [None]. *)

From stdpp Require Import base list gmap strings.
From Stdlib Require Import ZArith Lia.
From S2P Require Import Prelude GoLib Transaction.

Open Scope string_scope.
Open Scope list_scope.
Open Scope Z_scope.

(** ** constants.go and entry.go *)

Definition MaxNumHashes : Z := 100.
Definition MaxEntriesPerSlot : Z := 100.
Definition MaxTransactionsPerEntry : Z := 6000.
Definition MaxEntrySize : Z := 1024 * 1024.
Definition MaxSlotHashQueueSize : Z := 10000.

Record Entry := mkEntry {
  NumHashes : Z; EHash : string; Transactions : list (option Transaction); Tick : bool;
}.

Record PersistentEntry := mkPersistentEntry {
  PNumHashes : Z; PHash : string; TxHashes : list string; PTick : bool;
}.

Definition NewTickEntry (numHashes : Z) (hash : string) : Entry := mkEntry numHashes hash [] true.
Definition NewTxEntry (numHashes : Z) (hash : string) (txs : list (option Transaction)) : Entry :=
  mkEntry numHashes hash txs false.

Definition estimateEntrySize (e : Entry) : Z := 8 + 32 + 1 + Z.of_nat (length (Transactions e)) * 32.

Definition zero_hash : string := String.string_of_list_ascii (replicate 32 (to_byte 0)).

(** ** poh.go *)

Definition LowPowerMode : Z := 2 ^ 64 - 1.

Record Poh := mkPoh { PoH : string; pNumHashes : Z; HashesPerTick : Z; RemainingHashes : Z }.

Record PohEntry := mkPohEntry { peNumHashes : Z; peHash : string; peTick : bool }.

Section Clock.
Context `{TxEnv}.

(** [None] is the panic. *)
Definition NewPoh (seed : string) (hashesPerTickOpt : option Z) : option Poh :=
  let hashesPerTick := match hashesPerTickOpt with None => LowPowerMode | Some h => h end in
  if hashesPerTick <=? 1 then None
  else Some (mkPoh (sha256_Sum256 seed) 0 hashesPerTick hashesPerTick).

Definition poh_Reset (p : Poh) (seed : string) : Poh :=
  mkPoh seed 0 (HashesPerTick p) (HashesPerTick p).

Definition hashOnce (p : Poh) (hash : string) : Poh :=
  mkPoh (sha256_Sum256 hash) (u64_add (pNumHashes p) 1) (HashesPerTick p)
    (u64_sub (RemainingHashes p) 1).

Definition poh_Record (p : Poh) (mixin : string) : option PohEntry * Poh :=
  if RemainingHashes p <=? 1 then (None, p)
  else
    let p := hashOnce p (PoH p +:+ mixin) in
    let entry := mkPohEntry (pNumHashes p) (PoH p) false in
    (Some entry, mkPoh (PoH p) 0 (HashesPerTick p) (RemainingHashes p)).

Definition poh_Tick (p : Poh) : option PohEntry * Poh :=
  if negb (RemainingHashes p =? 1) then (None, p)
  else
    let p := hashOnce p (PoH p) in
    let entry := mkPohEntry (pNumHashes p) (PoH p) true in
    (Some entry, mkPoh (PoH p) 0 (HashesPerTick p) (HashesPerTick p)).

(** [n] applications of the hash function. *)
Definition hash_iter (n : Z) (h : string) : string := Nat.iter (Z.to_nat n) sha256_Sum256 h.

Definition TickFastForward (p : Poh) (seenHash : string) (fromTick toTick : Z) : string * Poh :=
  let numHashes := u64_mul (u64_sub toTick fromTick) (HashesPerTick p) in
  let h := hash_iter numHashes seenHash in
  (h, mkPoh h 0 (HashesPerTick p) (HashesPerTick p)).

(** One beat of the ticker of [AutoHash]. *)
Definition AutoHash_beat (p : Poh) : Poh :=
  if 1 <? RemainingHashes p then hashOnce p (PoH p) else p.

(** ** utils.go and verify.go *)

(** [tx.Bytes()] through a pointer; JSON prints nil as null. *)
Definition ptr_Bytes (tx : option Transaction) : string :=
  match tx with Some tx => Bytes tx | None => "null" end.

Definition HashTransactions (txs : list (option Transaction)) : string :=
  sha256_Sum256 (foldl (λ all tx, all +:+ ptr_Bytes tx) "" txs).

Fixpoint tick_entries (cur : string) (numEntries : nat) (hashesPerTick : Z) : list Entry :=
  match numEntries with
  | O => []
  | S n =>
      let cur := sha256_Sum256 (hash_iter (hashesPerTick - 1) cur) in
      NewTickEntry hashesPerTick cur :: tick_entries cur n hashesPerTick
  end.

Definition GenerateTickOnlyEntries (seed : string) (numEntries hashesPerTick : Z) : list Entry :=
  if (numEntries <=? 0) || (hashesPerTick =? 0) then []
  else tick_entries seed (Z.to_nat numEntries) hashesPerTick.

(** A transaction of an entry is well formed. *)
Definition entry_tx_ok (tx : option Transaction) : bool :=
  match tx with
  | None => false
  | Some t =>
      negb (bool_decide (Sender t = "")) && negb (bool_decide (Recipient t = "")) &&
      (string_len (Bytes t) <=? MaxEntrySize / MaxTransactionsPerEntry)
  end.

Definition ValidateEntry (e : Entry) : bool :=
  (NumHashes e <=? MaxNumHashes) &&
  (Z.of_nat (length (Transactions e)) <=? MaxTransactionsPerEntry) &&
  forallb entry_tx_ok (Transactions e) &&
  (estimateEntrySize e <=? MaxEntrySize).

(** The hash after an entry, from the hash before it; the bound of the loop is
    [e.NumHashes-1] on 64 bits. *)
Definition entry_hash (cur : string) (e : Entry) : string :=
  let cur := hash_iter (u64_sub (NumHashes e) 1) cur in
  match Transactions e with
  | [] => sha256_Sum256 cur
  | txs => sha256_Sum256 (cur +:+ HashTransactions txs)
  end.

Inductive VerifyError := TooManyEntries | InvalidEntry (i : nat) | PohMismatch (i : nat).

Fixpoint verify_loop (i : nat) (cur : string) (es : list Entry) : option VerifyError :=
  match es with
  | [] => None
  | e :: es' =>
      if negb (ValidateEntry e) then Some (InvalidEntry i)
      else
        let cur := entry_hash cur e in
        if negb (bool_decide (cur = EHash e)) then Some (PohMismatch i)
        else verify_loop (S i) cur es'
  end.

(** [None] is the nil error. *)
Definition VerifyEntries (prev : string) (entries : list Entry) : option VerifyError :=
  if MaxEntriesPerSlot <? Z.of_nat (length entries) then Some TooManyEntries
  else verify_loop 0 prev entries.

(** ** slot_hash_queue.go *)

Record SlotHashQueue := mkQueue { slotMap : gmap Z string; maxSize : Z }.

Definition NewSlotHashQueue : SlotHashQueue := mkQueue {[ 0 := zero_hash ]} MaxSlotHashQueueSize.

Definition queue_Put (q : SlotHashQueue) (slot : Z) (hash : string) : SlotHashQueue :=
  match slotMap q !! slot with
  | Some _ => mkQueue (<[slot := hash]> (slotMap q)) (maxSize q)
  | None =>
      let m := <[slot := hash]> (slotMap q) in
      let m := if maxSize q <? Z.of_nat (size m) then delete (u64_sub slot (maxSize q)) m else m in
      mkQueue m (maxSize q)
  end.

Definition queue_Get (q : SlotHashQueue) (slot : Z) : option string := slotMap q !! slot.

(** ** poh_recorder.go *)

Record PohRecorder := mkRecorder {
  poh : Poh; ticksPerSlot : Z; tickHeight : Z; entries : list Entry; slotHashQueue : SlotHashQueue;
}.

Definition NewPohRecorder (p : Poh) (ticksPerSlot latestSlot : Z) : PohRecorder :=
  mkRecorder p ticksPerSlot (u64_mul latestSlot ticksPerSlot) [] NewSlotHashQueue.

Definition recorder_Reset (r : PohRecorder) (lastHash : string) (slot : Z) : PohRecorder :=
  mkRecorder (poh_Reset (poh r) lastHash) (ticksPerSlot r) (u64_mul slot (ticksPerSlot r)) []
    (queue_Put (slotHashQueue r) slot lastHash).

Definition FastForward (r : PohRecorder) (seenHash : string) (fromSlot toSlot : Z)
    : string * PohRecorder :=
  let '(h, p) := TickFastForward (poh r) seenHash (u64_mul fromSlot (ticksPerSlot r))
                   (u64_mul toSlot (ticksPerSlot r)) in
  (PoH p, mkRecorder p (ticksPerSlot r) (tickHeight r) (entries r) (slotHashQueue r)).

Inductive RecordError :=
| TooManyTransactions | SlotFull | TickRequired | NumHashesTooLarge | EntryTooLarge.

Definition with_poh (r : PohRecorder) (p : Poh) : PohRecorder :=
  mkRecorder p (ticksPerSlot r) (tickHeight r) (entries r) (slotHashQueue r).

Definition RecordTxs (r : PohRecorder) (txs : list (option Transaction))
    : result RecordError Entry * PohRecorder :=
  if MaxTransactionsPerEntry <? Z.of_nat (length txs) then (Err TooManyTransactions, r)
  else
    let mixin := HashTransactions txs in
    if MaxEntriesPerSlot <=? Z.of_nat (length (entries r)) then (Err SlotFull, r)
    else
      let '(pohEntry, p) := poh_Record (poh r) mixin in
      let r := with_poh r p in
      match pohEntry with
      | None => (Err TickRequired, r)
      | Some pe =>
          if MaxNumHashes <? peNumHashes pe then (Err NumHashesTooLarge, r)
          else
            let entry := NewTxEntry (peNumHashes pe) (peHash pe) txs in
            if MaxEntrySize <? estimateEntrySize entry then (Err EntryTooLarge, r)
            else
              (Ok entry, mkRecorder (poh r) (ticksPerSlot r) (tickHeight r) (entries r ++ [entry])
                           (slotHashQueue r))
      end.

(** Go's division panics on zero. *)
Definition IsLastTickOfSlot (r : PohRecorder) : option bool :=
  if ticksPerSlot r =? 0 then None else Some (tickHeight r mod ticksPerSlot r =? 0).

Definition recorder_Tick (r : PohRecorder) : option (option Entry * PohRecorder) :=
  let '(pohEntry, p) := poh_Tick (poh r) in
  let r := with_poh r p in
  match pohEntry with
  | None => Some (None, r)
  | Some pe =>
      if MaxNumHashes <? peNumHashes pe then Some (None, r)
      else
        let entry := NewTickEntry (peNumHashes pe) (peHash pe) in
        let r := mkRecorder (poh r) (ticksPerSlot r) (u64_add (tickHeight r) 1) (entries r)
                   (slotHashQueue r) in
        match IsLastTickOfSlot r with
        | None => None
        | Some last =>
            let q := if last then queue_Put (slotHashQueue r) (tickHeight r / ticksPerSlot r) (EHash entry)
                     else slotHashQueue r in
            Some (Some entry, mkRecorder (poh r) (ticksPerSlot r) (tickHeight r) (entries r) q)
        end
  end.

Definition DrainEntries (r : PohRecorder) : list Entry * PohRecorder :=
  (entries r, mkRecorder (poh r) (ticksPerSlot r) (tickHeight r) [] (slotHashQueue r)).

Definition CurrentPassedSlot (r : PohRecorder) : option Z :=
  if ticksPerSlot r =? 0 then None else Some (tickHeight r / ticksPerSlot r).
Definition CurrentSlot (r : PohRecorder) : option Z :=
  if ticksPerSlot r =? 0 then None else Some (u64_add (tickHeight r / ticksPerSlot r) 1).

Definition GetSlotHash (r : PohRecorder) (slot : Z) : string :=
  default zero_hash (queue_Get (slotHashQueue r) slot).
Definition GetSlotHashFromQueue (r : PohRecorder) (slot : Z) : option string :=
  queue_Get (slotHashQueue r) slot.

(** ** poh_service.go

    The recorder's lock protects each operation by itself: between the drain and
    the tick of [tickAndFlush] other operations can run.  The state has the
    recorder, the entries the service has drained and not yet passed on, and the
    entries passed to [OnEntry]. *)
Record Service := mkService { recorder : PohRecorder; drained : option (list Entry); emitted : list Entry }.

Inductive action := ActAutoHash | ActRecord (txs : list (option Transaction)) | ActDrain | ActTick.

Definition service_step (s : Service) (a : action) : option Service :=
  match a with
  | ActAutoHash =>
      Some (mkService (with_poh (recorder s) (AutoHash_beat (poh (recorder s)))) (drained s) (emitted s))
  | ActRecord txs => Some (mkService (snd (RecordTxs (recorder s) txs)) (drained s) (emitted s))
  | ActDrain =>
      match drained s with
      | Some _ => None
      | None => let '(es, r) := DrainEntries (recorder s) in Some (mkService r (Some es) (emitted s))
      end
  | ActTick =>
      match drained s with
      | None => None
      | Some es =>
          match recorder_Tick (recorder s) with
          | None => None
          | Some (t, r) =>
              let es := match t with Some t => es ++ [t] | None => es end in
              Some (mkService r None (emitted s ++ es))
          end
      end
  end.

Fixpoint service_run (s : Service) (l : list action) : option Service :=
  match l with
  | [] => Some s
  | a :: l' => match service_step s a with Some s' => service_run s' l' | None => None end
  end.

End Clock.

(** ** Correctness *)

Section PohCorrect.
Context `{TE : TxEnv}.

(** The hash after a list of entries, if each has the hash it should have. *)
Fixpoint replay (cur : string) (es : list Entry) : option string :=
  match es with
  | [] => Some cur
  | e :: es' => if bool_decide (entry_hash cur e = EHash e) then replay (EHash e) es' else None
  end.

Lemma replay_app cur es1 es2 :
  replay cur (es1 ++ es2) = match replay cur es1 with Some h => replay h es2 | None => None end.
Proof.
  revert cur. induction es1 as [|e es1 IH]; intros cur; simpl; [done|]. by case_bool_decide.
Qed.

Lemma verify_loop_replay i cur es h :
  Forall (λ e, ValidateEntry e = true) es → replay cur es = Some h → verify_loop i cur es = None.
Proof.
  intros Hv. revert i cur. induction Hv as [|e es He _ IH]; intros i cur; simpl; [done|].
  rewrite He. simpl. case_bool_decide as E; simpl; [|done]. rewrite E. apply IH.
Qed.

Lemma hash_iter_S n h : 0 ≤ n → hash_iter (n + 1) h = sha256_Sum256 (hash_iter n h).
Proof. intros Hn. unfold hash_iter. by rewrite Z.add_1_r, Z2Nat.inj_succ. Qed.

Lemma u64_pred_succ n : 0 ≤ n ≤ MaxNumHashes → u64_sub (u64_add n 1) 1 = n ∧ u64_add n 1 = n + 1.
Proof.
  unfold MaxNumHashes, u64_sub, u64_add, wrap. intros Hn.
  rewrite !(Z.mod_small (n + 1)) by lia. rewrite Z.mod_small; lia.
Qed.

(** The clock after [pNumHashes] hashes from [h]. *)
Record clock_at (p : Poh) (h : string) : Prop := {
  clock_hpt : 1 < HashesPerTick p ≤ MaxNumHashes;
  clock_counts : 0 ≤ pNumHashes p ∧ 1 ≤ RemainingHashes p ∧
                 pNumHashes p + RemainingHashes p ≤ HashesPerTick p;
  clock_hash : PoH p = hash_iter (pNumHashes p) h;
}.

Lemma clock_autohash p h : clock_at p h → clock_at (AutoHash_beat p) h.
Proof.
  intros [Hh Hc HH]. unfold AutoHash_beat. destruct (1 <? RemainingHashes p) eqn:E; [|done].
  unfold MaxNumHashes in *.
  destruct (u64_pred_succ (pNumHashes p)) as [_ E1]; [unfold MaxNumHashes; lia|].
  split; simpl; [done| |by rewrite E1, hash_iter_S, HH by lia].
  rewrite E1. unfold u64_sub, wrap. rewrite Z.mod_small by blia. blia.
Qed.

Lemma clock_record p h mixin pe p' : clock_at p h → poh_Record p mixin = (Some pe, p') →
  peNumHashes pe = pNumHashes p + 1 ∧ 1 ≤ peNumHashes pe ≤ MaxNumHashes ∧
  peHash pe = sha256_Sum256 (PoH p +:+ mixin) ∧ clock_at p' (peHash pe).
Proof.
  intros [Hh Hc HH]. unfold poh_Record. destruct (RemainingHashes p <=? 1) eqn:E; [done|].
  intros [= <- <-]. simpl. unfold MaxNumHashes in *.
  destruct (u64_pred_succ (pNumHashes p)) as [_ E1]; [unfold MaxNumHashes; lia|].
  rewrite E1. split_and!; [done|blia|blia|done|].
  split; simpl; [done| |done].
  unfold u64_sub, wrap. rewrite Z.mod_small by blia. blia.
Qed.

Lemma clock_tick p h pe p' : clock_at p h → poh_Tick p = (Some pe, p') →
  peNumHashes pe = pNumHashes p + 1 ∧ 1 ≤ peNumHashes pe ≤ MaxNumHashes ∧
  peHash pe = sha256_Sum256 (PoH p) ∧ clock_at p' (peHash pe).
Proof.
  intros [Hh Hc HH]. unfold poh_Tick. destruct (RemainingHashes p =? 1) eqn:E; [|done].
  intros [= <- <-]. simpl. unfold MaxNumHashes in *.
  destruct (u64_pred_succ (pNumHashes p)) as [_ E1]; [unfold MaxNumHashes; lia|].
  rewrite E1. split_and!; [done|blia|blia|done|]. split; simpl; [done|blia|done].
Qed.

Lemma entry_hash_tick p h : clock_at p h →
  entry_hash h (NewTickEntry (pNumHashes p + 1) (sha256_Sum256 (PoH p))) = sha256_Sum256 (PoH p).
Proof.
  intros [Hh Hc HH]. unfold entry_hash. simpl. unfold MaxNumHashes in *.
  destruct (u64_pred_succ (pNumHashes p)) as [E1 E2]; [unfold MaxNumHashes; lia|].
  by rewrite <- E2, E1, HH.
Qed.

Lemma entry_hash_txs p h txs : clock_at p h → txs ≠ [] →
  entry_hash h (NewTxEntry (pNumHashes p + 1) (sha256_Sum256 (PoH p +:+ HashTransactions txs)) txs)
  = sha256_Sum256 (PoH p +:+ HashTransactions txs).
Proof.
  intros [Hh Hc HH] Ht. unfold entry_hash. simpl. unfold MaxNumHashes in *.
  destruct (u64_pred_succ (pNumHashes p)) as [E1 E2]; [unfold MaxNumHashes; lia|].
  rewrite <- E2, E1, HH. by destruct txs.
Qed.

(** All entries of the service, in the order they are passed on. *)
Definition all_entries (s : Service) : list Entry :=
  emitted s ++ default [] (drained s) ++ entries (recorder s).

(** The entries replay from the seed to a hash from which the clock runs on. *)
Definition in_step (seed : string) (s : Service) : Prop :=
  (∀ es, drained s = Some es → entries (recorder s) = []) ∧
  Forall (λ e, 1 ≤ NumHashes e ≤ MaxNumHashes ∧
               Z.of_nat (length (Transactions e)) ≤ MaxTransactionsPerEntry) (all_entries s) ∧
  ∃ h, replay seed (all_entries s) = Some h ∧ clock_at (poh (recorder s)) h.

(** Batches are not empty and none is recorded between a drain and its tick. *)
Definition orderly (s : Service) (a : action) : Prop :=
  match a with ActRecord txs => drained s = None ∧ txs ≠ [] | _ => True end.

Inductive reaches (s0 : Service) : Service → Prop :=
| reaches_refl : reaches s0 s0
| reaches_step s a s' : reaches s0 s → orderly s a → service_step s a = Some s' → reaches s0 s'.

Lemma all_entries_snoc s r e : drained s = None →
  all_entries (mkService (mkRecorder (poh r) (ticksPerSlot r) (tickHeight r) (entries (recorder s) ++ [e])
                            (slotHashQueue r)) (drained s) (emitted s))
  = all_entries s ++ [e].
Proof. intros Hd. unfold all_entries. simpl. rewrite Hd. simpl. by rewrite app_assoc. Qed.

Lemma replay_snoc seed es h e : replay seed es = Some h → entry_hash h e = EHash e →
  replay seed (es ++ [e]) = Some (EHash e).
Proof. intros Hr He. rewrite replay_app, Hr. simpl. by rewrite bool_decide_true. Qed.

Lemma in_step_record seed s txs : in_step seed s → drained s = None → txs ≠ [] →
  in_step seed (mkService (snd (RecordTxs (recorder s) txs)) (drained s) (emitted s)).
Proof.
  intros (Hd & Hb & h & Hr & Hc) Hn Ht. unfold RecordTxs.
  destruct (MaxTransactionsPerEntry <? _) eqn:El; [by split; [|split; [|exists h]]|].
  destruct (MaxEntriesPerSlot <=? _); [by split; [|split; [|exists h]]|].
  destruct (poh_Record (poh (recorder s)) (HashTransactions txs)) as [[pe|] p'] eqn:ER.
  2: { unfold poh_Record in ER. destruct (_ <=? 1); [|done]. injection ER as <-.
       split; [done|]. split; [done|]. by exists h. }
  destruct (clock_record _ _ _ _ _ Hc ER) as (En & Hn1 & Eh & Hc').
  rewrite (proj2 (Z.ltb_ge MaxNumHashes (peNumHashes pe))) by lia.
  unfold estimateEntrySize. cbn [Transactions NewTxEntry].
  rewrite (proj2 (Z.ltb_ge MaxEntrySize _))
    by (unfold MaxEntrySize, MaxTransactionsPerEntry in *; blia).
  cbn [snd]. split; [by rewrite Hn|]. rewrite (all_entries_snoc s (with_poh (recorder s) p')) by done.
  split.
  - apply Forall_app. split; [done|]. constructor; [|done]. simpl. blia.
  - exists (peHash pe). split; [|done]. apply (replay_snoc _ _ h); [done|].
    simpl. rewrite En, Eh. by apply entry_hash_txs.
Qed.

Lemma in_step_tick seed s es t r : in_step seed s → drained s = Some es →
  recorder_Tick (recorder s) = Some (t, r) →
  in_step seed (mkService r None (emitted s ++ match t with Some t => es ++ [t] | None => es end)).
Proof.
  intros (Hd & Hb & h & Hr & Hc) Hs. pose proof (Hd _ Hs) as He. unfold recorder_Tick.
  unfold in_step, all_entries in *. rewrite Hs, He in *. simpl in *. rewrite app_nil_r in *.
  destruct (poh_Tick (poh (recorder s))) as [[pe|] p'] eqn:ET.
  2: { unfold poh_Tick in ET. destruct (_ =? 1); [done|]. injection ET as <-.
       intros [= <- <-]. simpl. rewrite He, app_nil_r. split; [done|]. split; [done|]. by exists h. }
  destruct (clock_tick _ _ _ _ Hc ET) as (En & Hn1 & Eh & Hc').
  rewrite (proj2 (Z.ltb_ge MaxNumHashes (peNumHashes pe))) by lia.
  destruct (IsLastTickOfSlot _); [|done]. intros [= <- <-]. simpl.
  rewrite He, !app_nil_r, app_assoc. split; [done|]. split.
  - apply Forall_app. split; [done|]. constructor; [|done]. simpl. unfold MaxTransactionsPerEntry. lia.
  - exists (peHash pe). split; [|done]. apply (replay_snoc _ _ h); [done|].
    simpl. rewrite En, Eh. by apply entry_hash_tick.
Qed.

Lemma in_step_preserved seed s a s' :
  in_step seed s → orderly s a → service_step s a = Some s' → in_step seed s'.
Proof.
  intros Hi Ho Hs. destruct a as [|txs| |]; simpl in Hs.
  - injection Hs as <-. destruct Hi as (Hd & Hb & h & Hr & Hc).
    split; [done|]. split; [done|]. exists h. split; [done|]. by apply clock_autohash.
  - injection Hs as <-. destruct Ho. by apply in_step_record.
  - destruct (drained s) as [|] eqn:Ed; [done|]. injection Hs as <-.
    destruct Hi as (Hd & Hb & h & Hr & Hc). unfold in_step, all_entries in *. rewrite Ed in *.
    simpl in *. rewrite app_nil_r. split; [done|]. split; [done|]. by exists h.
  - destruct (drained s) as [es|] eqn:Ed; [|done].
    destruct (recorder_Tick (recorder s)) as [[t r]|] eqn:ET; [|done]. injection Hs as <-.
    by apply in_step_tick.
Qed.

Lemma in_step_init seed r slot : 1 < HashesPerTick (poh r) ≤ MaxNumHashes →
  in_step seed (mkService (recorder_Reset r seed slot) None []).
Proof.
  intros Hh. split; [done|]. split; [constructor|]. exists seed. split; [done|].
  split; simpl; [done|lia|done].
Qed.

(** The entries the service passes on verify: after a reset to a seed, any
    interleaving of hashing, recording and flushing, in which batches are not
    empty and no batch is recorded between the drain and the tick of a flush,
    emits entries that [VerifyEntries] accepts from that seed, if there are at
    most as many as a slot may have and their transactions are well formed.  It
    holds for at most [MaxNumHashes] hashes per tick. *)
Theorem emitted_entries_verify (r : PohRecorder) (seed : string) (slot : Z) (s : Service) :
  1 < HashesPerTick (poh r) ≤ MaxNumHashes →
  reaches (mkService (recorder_Reset r seed slot) None []) s →
  Z.of_nat (length (emitted s)) ≤ MaxEntriesPerSlot →
  Forall (λ e, forallb entry_tx_ok (Transactions e) = true) (emitted s) →
  VerifyEntries seed (emitted s) = None.
Proof.
  intros Hh Hs Hl Ht.
  assert (Hi : in_step seed s).
  { clear Hl Ht. induction Hs as [|s a s' _ IH Ho Hs]; [by apply in_step_init|].
    by apply (in_step_preserved seed s a). }
  destruct Hi as (_ & Hb & h & Hr & _). unfold all_entries in *.
  apply Forall_app in Hb as [Hb _]. rewrite replay_app in Hr.
  destruct (replay seed (emitted s)) as [h'|] eqn:Eh; [|done].
  unfold VerifyEntries. rewrite (proj2 (Z.ltb_ge _ _)) by done.
  apply (verify_loop_replay _ _ _ h'); [|done].
  rewrite Forall_forall in Hb, Ht |- *. intros e He.
  specialize (Hb e He) as [Hn Hc]. specialize (Ht e He).
  unfold ValidateEntry. rewrite Ht, !(proj2 (Z.leb_le _ _)); [done| | |]; try done; try lia.
  unfold estimateEntrySize, MaxEntrySize, MaxTransactionsPerEntry in *. lia.
Qed.

(** The drain and the tick of a flush are two critical sections: a batch
    recorded between them is in the clock before the tick and in the entries after
    it.  With two hashes per tick the entry emitted first is then a tick that does
    not verify from the seed, unless the hash function collides. *)
Theorem flush_race (r : PohRecorder) (seed : string) (slot : Z) (txs : list (option Transaction)) :
  HashesPerTick (poh r) = 2 → 0 < ticksPerSlot r →
  Z.of_nat (length txs) ≤ MaxTransactionsPerEntry →
  sha256_Sum256 seed ≠ sha256_Sum256 (sha256_Sum256 (seed +:+ HashTransactions txs)) →
  ∃ s, service_run (mkService (recorder_Reset r seed slot) None []) [ActDrain; ActRecord txs; ActTick] = Some s
    ∧ length (emitted s) = 1%nat ∧ length (entries (recorder s)) = 1%nat
    ∧ VerifyEntries seed (emitted s) = Some (PohMismatch 0).
Proof.
  intros Hh Ht Hl Hne. cbn -[RecordTxs recorder_Tick].
  unfold RecordTxs. rewrite (proj2 (Z.ltb_ge _ _)) by done.
  unfold recorder_Reset, poh_Reset. cbn. rewrite Hh. cbn.
  rewrite (proj2 (Z.ltb_ge MaxEntrySize _))
    by (unfold estimateEntrySize, MaxEntrySize, MaxTransactionsPerEntry in *; cbn; lia).
  unfold recorder_Tick, IsLastTickOfSlot. change (MaxEntriesPerSlot <=? Z.of_nat 0) with false.
  change (MaxNumHashes <? u64_add 0 1) with false. change (u64_sub 2 1) with 1.
  cbn -[Z.eqb Z.modulo Z.div]. change (1 =? 1) with true. cbn -[Z.eqb Z.modulo Z.div].
  change (MaxNumHashes <? u64_add 0 1) with false. cbn -[Z.eqb Z.modulo Z.div].
  rewrite (proj2 (Z.eqb_neq (ticksPerSlot r) 0)) by lia. cbn. eexists. split; [reflexivity|].
  split; [done|]. split; [done|]. unfold VerifyEntries, entry_hash. cbn.
  by rewrite bool_decide_false.
Qed.

Lemma tick_entries_replay n hpt seed : 1 ≤ hpt ≤ MaxNumHashes →
  is_Some (replay seed (tick_entries seed n hpt)).
Proof.
  intros Hh. revert seed. induction n as [|n IH]; intros seed; simpl; [by eexists|].
  rewrite bool_decide_true; [apply IH|]. unfold entry_hash, u64_sub, wrap. simpl.
  unfold MaxNumHashes in *. by rewrite Z.mod_small by lia.
Qed.

Lemma tick_entries_length n hpt seed : length (tick_entries seed n hpt) = n.
Proof. revert seed. induction n as [|n IH]; intros seed; simpl; [done|]. by rewrite IH. Qed.

Lemma tick_entries_valid n hpt seed : 
  Forall (λ e, ValidateEntry e = (hpt <=? MaxNumHashes)) (tick_entries seed n hpt).
Proof.
  revert seed. induction n as [|n IH]; intros seed; simpl; constructor; [|apply IH].
  unfold ValidateEntry. simpl. by rewrite !andb_true_r.
Qed.

(** The entries generated for an empty slot are accepted exactly if the
    configured number of hashes per tick is at most [MaxNumHashes]: then they
    verify from their seed, and otherwise the first is refused. *)
Theorem tick_only_entries_verify (seed : string) (numEntries hashesPerTick : Z) :
  0 < numEntries ≤ MaxEntriesPerSlot → 1 ≤ hashesPerTick →
  VerifyEntries seed (GenerateTickOnlyEntries seed numEntries hashesPerTick)
  = if hashesPerTick <=? MaxNumHashes then None else Some (InvalidEntry 0).
Proof.
  intros Hn Hh. unfold GenerateTickOnlyEntries, VerifyEntries.
  rewrite (proj2 (Z.leb_gt numEntries 0)), (proj2 (Z.eqb_neq hashesPerTick 0)) by lia. simpl.
  rewrite tick_entries_length, Z2Nat.id, (proj2 (Z.ltb_ge _ _)) by lia.
  pose proof (tick_entries_valid (Z.to_nat numEntries) hashesPerTick seed) as Hv.
  destruct (hashesPerTick <=? MaxNumHashes) eqn:E.
  - destruct (tick_entries_replay (Z.to_nat numEntries) hashesPerTick seed) as [h Hr]; [blia|].
    by apply (verify_loop_replay _ _ _ h).
  - destruct (Z.to_nat numEntries) eqn:En; [lia|]. cbn [tick_entries] in *.
    inversion Hv as [|e es He _]. cbn [verify_loop]. by rewrite He.
Qed.

(** How many times the verifier hashes for an entry that passes the checks
    on it: at most [MaxNumHashes] times, except for an entry that claims zero
    hashes, whose loop bound wraps around to 2^64-1. *)
Theorem verify_hash_count (e : Entry) (cur : string) :
  ValidateEntry e = true → 0 ≤ NumHashes e →
  ∃ n, hash_iter n cur = hash_iter (u64_sub (NumHashes e) 1) cur ∧
    entry_hash cur e = sha256_Sum256 (hash_iter n cur +:+
                         match Transactions e with [] => "" | txs => HashTransactions txs end) ∧
    if NumHashes e =? 0 then n = 2 ^ 64 - 1 else 0 ≤ n ∧ n + 1 ≤ MaxNumHashes.
Proof.
  intros Hv Hn. unfold ValidateEntry in Hv. rewrite !andb_true_iff in Hv.
  destruct Hv as [[[Hv _] _] _]. apply Z.leb_le in Hv. unfold MaxNumHashes in *.
  exists (u64_sub (NumHashes e) 1). split; [done|]. split.
  - unfold entry_hash. destruct (Transactions e); [|done]. f_equal.
    induction (hash_iter _ cur) as [|c t IH]; [done|]. rewrite app_cons_string. by f_equal.
  - destruct (NumHashes e =? 0) eqn:E.
    + apply Z.eqb_eq in E. by rewrite E.
    + unfold u64_sub, wrap. rewrite Z.mod_small by blia. blia.
Qed.

(** ** The queue of slot hashes *)

(** The queue of slot hashes: what is put can be read back; the other slots
    keep their hashes except the one [maxSize] before, which is dropped when a new
    slot makes the queue too large; and the queue grows by one only if that slot
    is not in it, which gaps in the slots allow without bound. *)
Theorem slot_queue_put (q : SlotHashQueue) (slot slot' : Z) (hash : string) :
  0 < maxSize q < 2 ^ 64 → in_width 64 slot →
  let old := u64_sub slot (maxSize q) in
  queue_Get (queue_Put q slot hash) slot = Some hash ∧
  (slot' ≠ slot → slot' ≠ old → queue_Get (queue_Put q slot hash) slot' = queue_Get q slot') ∧
  (size (slotMap (queue_Put q slot hash)) =
   if bool_decide (is_Some (slotMap q !! slot)) then size (slotMap q)
   else if (maxSize q <=? Z.of_nat (size (slotMap q))) && bool_decide (is_Some (slotMap q !! old))
        then size (slotMap q) else S (size (slotMap q))).
Proof.
  intros Hm Hs old.
  assert (Hne : old ≠ slot).
  { unfold old, u64_sub, wrap. intros E.
    assert (Hz : (slot - maxSize q) mod 2 ^ 64 = slot mod 2 ^ 64) by (rewrite E; by rewrite Z.mod_small).
    destruct (Z.mod_divide (slot - (slot - maxSize q)) (2 ^ 64)) as [Hd _]; [lia|].
    destruct Hd as [k Hk]; [rewrite Zminus_mod, Hz, Z.sub_diag; done|].
    assert (k = 0 ∨ k ≤ -1 ∨ 1 ≤ k) as [->|[?|?]] by lia; nia. }
  unfold queue_Put, queue_Get. destruct (slotMap q !! slot) as [h|] eqn:E; cbn [slotMap maxSize].
  - rewrite bool_decide_true by eauto. split_and!; [by rewrite lookup_insert_eq| |].
    + intros. by rewrite lookup_insert_ne.
    + rewrite map_size_insert_Some; [done|by rewrite E].
  - rewrite (bool_decide_false (is_Some None)) by by intros [? ?].
    rewrite map_size_insert_None by done.
    destruct (maxSize q <? Z.of_nat (S (size (slotMap q)))) eqn:El;
      fold old; [rewrite (proj2 (Z.leb_le _ _)) by blia | rewrite (proj2 (Z.leb_gt _ _)) by blia]; simpl.
    + rewrite lookup_delete_ne, lookup_insert_eq by done. split; [done|]. split.
      { intros. by rewrite lookup_delete_ne, lookup_insert_ne. }
      rewrite map_size_delete, lookup_insert_ne by done.
      destruct (slotMap q !! old); [rewrite bool_decide_true by eauto|rewrite bool_decide_false by by intros [??]];
        by rewrite map_size_insert_None.
    + rewrite lookup_insert_eq. split; [done|].
      split; [intros; by rewrite lookup_insert_ne|]. by rewrite map_size_insert_None.
Qed.

(** A run that is orderly at each of its actions. *)
Fixpoint orderly_run (s : Service) (l : list action) : Prop :=
  match l with
  | [] => True
  | a :: l' =>
      orderly s a ∧ match service_step s a with Some s' => orderly_run s' l' | None => False end
  end.

Lemma reaches_run s0 s l s' : reaches s0 s → orderly_run s l → service_run s l = Some s' → reaches s0 s'.
Proof.
  revert s. induction l as [|a l IH]; intros s Hr Ho; simpl in *; [by intros [= <-]|].
  destruct Ho as [Ho Hl]. destruct (service_step s a) as [s1|] eqn:E; [|done].
  apply IH; [by eapply reaches_step | done].
Qed.

End PohCorrect.

(** ** Concrete runs *)

Definition example_recorder (hashesPerTick : Z) : PohRecorder :=
  mkRecorder (mkPoh "seed" 0 hashesPerTick hashesPerTick) 4 0 [] NewSlotHashQueue.

Definition example_tx : Transaction := example_sign (example_unsigned 1 5 3 "bob").

Definition example_run : option Service :=
  @service_run example_tx_env
    (mkService (recorder_Reset (example_recorder 3) "seed" 0) None [])
    [ActAutoHash; ActRecord [Some example_tx]; ActDrain; ActTick].

Lemma emitted_entries_verify_witness :
  ∃ s, example_run = Some s ∧ length (emitted s) = 2%nat ∧
       @VerifyEntries example_tx_env "seed" (emitted s) = None.
Proof.
  destruct example_run as [s|] eqn:E; [|by vm_compute in E].
  exists s. split; [done|].
  assert (Hr : @reaches example_tx_env (mkService (recorder_Reset (example_recorder 3) "seed" 0) None []) s).
  { refine (@reaches_run example_tx_env _ _ _ s (reaches_refl _) _ E). by vm_compute. }
  vm_compute in E. injection E as <-. split; [done|].
  refine (@emitted_entries_verify example_tx_env (example_recorder 3) "seed" 0 _ _ Hr _ _);
    [done | done | by repeat constructor].
Defined.

Lemma flush_race_witness :
  ∃ s, @service_run example_tx_env
         (mkService (recorder_Reset (example_recorder 2) "seed" 0) None [])
         [ActDrain; ActRecord [Some example_tx]; ActTick] = Some s
    ∧ length (emitted s) = 1%nat ∧ length (entries (recorder s)) = 1%nat
    ∧ @VerifyEntries example_tx_env "seed" (emitted s) = Some (PohMismatch 0).
Proof. by apply (@flush_race example_tx_env (example_recorder 2) "seed" 0 [Some example_tx]). Defined.

Lemma tick_only_entries_verify_witness :
  @VerifyEntries example_tx_env "seed" (@GenerateTickOnlyEntries example_tx_env "seed" 4 5) = None ∧
  @VerifyEntries example_tx_env "seed" (@GenerateTickOnlyEntries example_tx_env "seed" 4 101)
  = Some (InvalidEntry 0).
Proof.
  split; [apply (@tick_only_entries_verify example_tx_env "seed" 4 5)
         |apply (@tick_only_entries_verify example_tx_env "seed" 4 101)]; done.
Defined.

Lemma verify_hash_count_witness :
  ∃ n, @hash_iter example_tx_env n "seed" = @hash_iter example_tx_env (u64_sub 0 1) "seed" ∧ n = 2 ^ 64 - 1.
Proof.
  destruct (@verify_hash_count example_tx_env (NewTickEntry 0 "h") "seed") as (n & H1 & _ & H2);
    [done | done |]. exists n. split; [exact H1 | exact H2].
Defined.

Lemma slot_queue_put_witness :
  queue_Get (queue_Put NewSlotHashQueue 7 "h") 7 = Some "h" ∧
  queue_Get (queue_Put NewSlotHashQueue 7 "h") 0 = queue_Get NewSlotHashQueue 0.
Proof.
  destruct (slot_queue_put NewSlotHashQueue 7 0 "h") as (H1 & H2 & _); [done | done |].
  split; [exact H1 | by apply H2].
Defined.
