(* ===== verification/Schedule.v ===== *)
(** * The leader schedule (poh/lead_schedule.go)

    A schedule is a list of slot ranges with their leaders, sorted by their
    first slot; it repeats with the last slot as its period.  [sort.Search] is
    the binary search of the standard library; [sort.Slice] is not stable, so it
    is any function with the properties of [SliceSort].  A Go panic is [None]. *)

From stdpp Require Import base list strings sorting.
From Stdlib Require Import ZArith Lia.
From S2P Require Import Prelude.

Open Scope string_scope.
Open Scope list_scope.
Open Scope Z_scope.

Record LeaderScheduleEntry := mkSchedule { StartSlot : Z; EndSlot : Z; Leader : string }.

Record LeaderSchedule := mkLeaderSchedule { sentries : list LeaderScheduleEntry; maxSlot : Z }.

Definition start_le (a b : LeaderScheduleEntry) : Prop := StartSlot a ≤ StartSlot b.
#[export] Instance start_le_dec : RelDecision start_le.
Proof. intros a b. unfold start_le. apply _. Defined.

(** [sort.Slice] by the first slot. *)
Class SliceSort := {
  sort_Slice : list LeaderScheduleEntry → list LeaderScheduleEntry;
  sort_Slice_perm l : sort_Slice l ≡ₚ l;
  sort_Slice_sorted l : StronglySorted start_le (sort_Slice l);
}.

(** [sort.Search(n, f)] from [i] to [j]; the interval halves, so that [j - i]
    steps are enough. *)
Fixpoint search_loop (fuel : nat) (f : Z → bool) (i j : Z) : Z :=
  match fuel with
  | O => i
  | S fuel' =>
      if i <? j then
        let h := (i + j) / 2 in
        if negb (f h) then search_loop fuel' f (h + 1) j else search_loop fuel' f i h
      else i
  end.

Definition sort_Search (n : Z) (f : Z → bool) : Z := search_loop (Z.to_nat n) f 0 n.

Section Schedule.
Context `{SliceSort}.

Fixpoint overlapping (l : list LeaderScheduleEntry) : bool :=
  match l with
  | prev :: (curr :: _) as l' => (StartSlot curr <=? EndSlot prev) || overlapping l'
  | _ => false
  end.

(** The entries after sorting, and whether they are accepted. *)
Definition Validate (ls : LeaderSchedule) : bool * LeaderSchedule :=
  match sentries ls with
  | [] => (true, ls)
  | es =>
      let es := sort_Slice es in
      (negb (overlapping es), mkLeaderSchedule es (maxSlot ls))
  end.

(** The outer [None] is the panic on the last entry of an empty list, the inner
    one the error. *)
Definition NewLeaderSchedule (es : list LeaderScheduleEntry) : option (option LeaderSchedule) :=
  let '(valid, ls) := Validate (mkLeaderSchedule es 0) in
  if negb valid then Some None
  else match last (sentries ls) with
       | None => None
       | Some e => Some (Some (mkLeaderSchedule (sentries ls) (EndSlot e)))
       end.

(** The outer [None] is the panic of the remainder by zero. *)
Definition LeaderAt (ls : LeaderSchedule) (slot : Z) : option (option string) :=
  if maxSlot ls =? 0 then None
  else
    let slot := slot mod maxSlot ls in
    let slot := if slot =? 0 then maxSlot ls else slot in
    let i := sort_Search (Z.of_nat (length (sentries ls)))
               (λ i, match sentries ls !! Z.to_nat i with
                     | Some e => slot <? StartSlot e
                     | None => false
                     end) in
    if 0 <? i then
      match sentries ls !! Z.to_nat (i - 1) with
      | Some e =>
          if (StartSlot e <=? slot) && (slot <=? EndSlot e) then Some (Some (Leader e)) else Some None
      | None => None
      end
    else Some None.

Definition LeadersInRange (ls : LeaderSchedule) (startSlot endSlot : Z) : list LeaderScheduleEntry :=
  filter (λ e, negb ((EndSlot e <? startSlot) || (endSlot <? StartSlot e)) = true) (sentries ls).

Definition AddEntry (ls : LeaderSchedule) (e : LeaderScheduleEntry) : LeaderSchedule :=
  mkLeaderSchedule (sort_Slice (sentries ls ++ [e])) (maxSlot ls).

Definition schedule_Len (ls : LeaderSchedule) : Z := Z.of_nat (length (sentries ls)).

Definition IsLeaderAt (ls : LeaderSchedule) (slot : Z) (leaderID : string) : option bool :=
  match LeaderAt ls slot with
  | None => None
  | Some (Some leader) => Some (bool_decide (leader = leaderID))
  | Some None => Some false
  end.

(** ** Correctness *)

(** The binary search returns the first index at which a monotone predicate
    holds. *)
Lemma search_loop_spec fuel f i j :
  (Z.to_nat (j - i) ≤ fuel)%nat → i ≤ j →
  (∀ a b, i ≤ a ≤ b → b < j → f a = true → f b = true) →
  let k := search_loop fuel f i j in
  i ≤ k ≤ j ∧ (∀ a, i ≤ a < k → f a = false) ∧ (∀ a, k ≤ a < j → f a = true).
Proof.
  revert i j. induction fuel as [|fuel IH]; intros i j Hf Hij Hm.
  { simpl. assert (i = j) by lia. subst. split_and!; intros; lia. }
  cbn [search_loop]. destruct (i <? j) eqn:E; zify_bool.
  2: { assert (i = j) by lia. subst. simpl. split_and!; intros; lia. }
  assert (Hh : i ≤ (i + j) / 2 < j).
  { split; [apply Z.div_le_lower_bound; lia | apply Z.div_lt_upper_bound; lia]. }
  set (h := (i + j) / 2) in *. destruct (f h) eqn:Eh; simpl.
  - destruct (IH i h) as (H1 & H2 & H3); [lia|lia|intros a b ???; apply (Hm a b); [lia|lia|done]|].
    split_and!; [lia|lia|done|]. intros a Ha.
    destruct (decide (a < h)); [apply H3; lia|]. apply (Hm h a); [lia|lia|done].
  - destruct (IH (h + 1) j) as (H1 & H2 & H3); [lia|lia|intros a b ???; apply (Hm a b); [lia|lia|done]|].
    split_and!; [lia|lia| |done]. intros a Ha.
    destruct (decide (h < a)); [apply H2; lia|].
    destruct (f a) eqn:Ea; [|done]. rewrite (Hm a h) in Eh; [done|lia|lia|done].
Qed.

(** Sorted by the first slot, and each entry ends before the next starts. *)
Definition in_order (es : list LeaderScheduleEntry) : Prop :=
  StronglySorted start_le es ∧ overlapping es = false.

Lemma search_loop_bounds fuel f i j : i ≤ j → i ≤ search_loop fuel f i j ≤ j.
Proof.
  revert i j. induction fuel as [|fuel IH]; intros i j Hij; simpl; [lia|].
  destruct (Z.ltb_spec i j); [|lia].
  assert (i ≤ (i + j) / 2 < j) by (split; [apply Z.div_le_lower_bound|apply Z.div_lt_upper_bound]; lia).
  destruct (negb _); [specialize (IH ((i + j) / 2 + 1) j)|specialize (IH i ((i + j) / 2))]; lia.
Qed.

(** Only the remainder by zero panics. *)
Lemma LeaderAt_total ls slot : maxSlot ls ≠ 0 → LeaderAt ls slot ≠ None.
Proof.
  intros Hm. unfold LeaderAt. rewrite (proj2 (Z.eqb_neq _ 0)) by done. cbn zeta.
  set (i := sort_Search _ _). assert (Hi : 0 ≤ i ≤ Z.of_nat (length (sentries ls))).
  { unfold i, sort_Search. apply search_loop_bounds. lia. }
  destruct (Z.ltb_spec 0 i); [|done].
  destruct (lookup_lt_is_Some_2 (sentries ls) (Z.to_nat (i - 1))) as [e ->]; [lia|].
  by destruct (_ && _).
Qed.

Lemma overlapping_app l1 l2 : overlapping (l1 ++ l2) = false → overlapping l2 = false.
Proof.
  induction l1 as [|a l1 IH]; [done|]. intros Hl. apply IH. simpl in Hl.
  destruct (l1 ++ l2) as [|b l]; [done|]. by apply orb_false_elim in Hl as [_ ?].
Qed.

Lemma sorted_lookup (es : list LeaderScheduleEntry) i j a b : StronglySorted start_le es →
  es !! i = Some a → es !! j = Some b → (i < j)%nat → start_le a b.
Proof.
  intros Hs Ha Hb Hij. rewrite <- (take_drop j es) in Hs.
  apply (StronglySorted_app_1_elem_of _ _ _ _ _ Hs).
  - apply list_elem_of_lookup_2 with i. by rewrite lookup_take_lt.
  - apply list_elem_of_lookup_2 with 0%nat. by rewrite lookup_drop, Nat.add_0_r.
Qed.

(** In order, an entry ends before every later one starts. *)
Lemma in_order_later es i j a b : in_order es →
  es !! i = Some a → es !! j = Some b → (i < j)%nat → EndSlot a < StartSlot b.
Proof.
  intros [Hs Ho] Ha Hb Hij. rewrite <- (take_drop_middle es i a Ha) in Ho.
  apply overlapping_app in Ho.
  destruct (lookup_lt_is_Some_2 es (S i)) as [c Hc]; [apply lookup_lt_Some in Hb; lia|].
  rewrite <- (take_drop_middle es (S i) c Hc), drop_app_ge in Ho
    by (rewrite length_take; lia).
  assert (El : length (take (S i) es) = S i) by (apply length_take_le; apply lookup_lt_Some in Hc; lia).
  rewrite El, Nat.sub_diag in Ho. simpl in Ho. apply orb_false_elim in Ho as [Ho _]. zify_bool.
  destruct (decide (j = S i)) as [->|]; [by simplify_eq|].
  pose proof (sorted_lookup es (S i) j c b Hs Hc Hb ltac:(lia)) as Hcb. unfold start_le in Hcb. lia.
Qed.

(** The slot within one period of the schedule. *)
Definition slot_in_period (ls : LeaderSchedule) (slot : Z) : Z :=
  if slot mod maxSlot ls =? 0 then maxSlot ls else slot mod maxSlot ls.

Definition covers (s : Z) (e : LeaderScheduleEntry) : Prop := StartSlot e ≤ s ≤ EndSlot e.

(** The binary search on the entries splits them at the slot. *)
Lemma search_entries es s : StronglySorted start_le es →
  let i := sort_Search (Z.of_nat (length es))
             (λ i, match es !! Z.to_nat i with Some e => s <? StartSlot e | None => false end) in
  0 ≤ i ≤ Z.of_nat (length es) ∧
  ∀ k e, es !! k = Some e → (StartSlot e ≤ s ↔ (Z.of_nat k < i)).
Proof.
  intros Hs i.
  destruct (search_loop_spec (Z.to_nat (Z.of_nat (length es)))
    (λ i, match es !! Z.to_nat i with Some e => s <? StartSlot e | None => false end)
    0 (Z.of_nat (length es))) as (H1 & H2 & H3); [lia|lia| |].
  - intros a b Hab Hb. destruct (es !! Z.to_nat a) as [ea|] eqn:Ea; [|done].
    destruct (lookup_lt_is_Some_2 es (Z.to_nat b)) as [eb Eb]; [lia|]. rewrite Eb.
    intros Hlt. apply Z.ltb_lt in Hlt. apply Z.ltb_lt.
    destruct (decide (a = b)) as [->|]; [by simplify_eq|].
    pose proof (sorted_lookup es _ _ _ _ Hs Ea Eb ltac:(lia)) as Hle. unfold start_le in Hle. lia.
  - change (search_loop _ _ 0 _) with i in H1, H2, H3. split; [done|]. intros k e Hk.
    pose proof (lookup_lt_Some _ _ _ Hk) as Hlt. split.
    + intros Hse. destruct (decide (Z.of_nat k < i)) as [|Hn]; [done|].
      specialize (H3 (Z.of_nat k) ltac:(lia)). simpl in H3. rewrite Nat2Z.id, Hk in H3. blia.
    + intros Hki. specialize (H2 (Z.of_nat k) ltac:(lia)). simpl in H2.
      rewrite Nat2Z.id, Hk in H2. blia.
Qed.

Lemma NewLeaderSchedule_ok es ls : NewLeaderSchedule es = Some (Some ls) →
  in_order (sentries ls) ∧ sentries ls ≡ₚ es ∧
  ∃ e, last (sentries ls) = Some e ∧ maxSlot ls = EndSlot e.
Proof.
  unfold NewLeaderSchedule, Validate. simpl. destruct es as [|e0 es]; [done|].
  destruct (overlapping (sort_Slice (e0 :: es))) eqn:Eo; simpl; [done|].
  destruct (last (sort_Slice (e0 :: es))) as [e|] eqn:El; [|done]. intros [= <-]. simpl.
  split_and!; [split; [apply sort_Slice_sorted|done] | apply sort_Slice_perm |]. by exists e.
Qed.

(** [C30] The leader of a slot.  On a schedule that was accepted, looking up a
    slot panics exactly if the last range ends at slot zero; otherwise it answers
    the leader of the range of the given entries that contains the slot, taken
    within the period of the schedule, and none exactly if no range contains it.
    The binary search thus agrees with a search through all the ranges. *)
Theorem leader_at_spec (es : list LeaderScheduleEntry) (ls : LeaderSchedule) (slot : Z) :
  NewLeaderSchedule es = Some (Some ls) →
  match LeaderAt ls slot with
  | None => maxSlot ls = 0
  | Some (Some leader) =>
      maxSlot ls ≠ 0 ∧ ∃ e, e ∈ es ∧ covers (slot_in_period ls slot) e ∧ Leader e = leader ∧
                            ∀ e', e' ∈ es → covers (slot_in_period ls slot) e' → Leader e' = leader
  | Some None => maxSlot ls ≠ 0 ∧ ∀ e, e ∈ es → ¬ covers (slot_in_period ls slot) e
  end.
Proof.
  intros (Hin & Hp & _)%NewLeaderSchedule_ok. unfold LeaderAt.
  destruct (maxSlot ls =? 0) eqn:E0; zify_bool; [done|].
  fold (slot_in_period ls slot). set (s := slot_in_period ls slot).
  destruct (search_entries (sentries ls) s (proj1 Hin)) as [Hi Hk].
  set (i := sort_Search _ _) in *.
  (** Any entry that contains the slot is the one before index [i]. *)
  assert (Hcov : ∀ e, e ∈ es → covers s e → 0 < i ∧ sentries ls !! Z.to_nat (i - 1) = Some e).
  { intros e He [Hc1 Hc2]. rewrite <- Hp in He. apply list_elem_of_lookup_1 in He as [k Hke].
    pose proof (proj1 (Hk k e Hke) Hc1) as Hki. split; [lia|].
    destruct (decide (Z.of_nat k = i - 1)) as [Ek|Hne]; [by rewrite <- Ek, Nat2Z.id|].
    destruct (lookup_lt_is_Some_2 (sentries ls) (Z.to_nat (i - 1))) as [e2 E2]; [lia|].
    pose proof (in_order_later _ _ _ _ _ Hin Hke E2 ltac:(lia)) as Hl.
    pose proof (proj2 (Hk _ _ E2) ltac:(lia)). lia. }
  destruct (0 <? i) eqn:Ei; zify_bool.
  2: { split; [done|]. intros e He Hc. destruct (Hcov e He Hc). lia. }
  destruct (lookup_lt_is_Some_2 (sentries ls) (Z.to_nat (i - 1))) as [e Ee]; [lia|].
  rewrite Ee.
  destruct ((StartSlot e <=? s) && (s <=? EndSlot e)) eqn:Ec.
  - apply andb_prop in Ec as [Ec1 Ec2]. zify_bool. split; [done|]. exists e. split_and!; [|done|done|].
    + rewrite <- Hp. by eapply list_elem_of_lookup_2.
    + intros e' He' Hc'. destruct (Hcov e' He' Hc') as [_ He2]. rewrite Ee in He2. by simplify_eq.
  - split; [done|]. intros e' He' Hc'. destruct (Hcov e' He' Hc') as [_ He2].
    rewrite Ee in He2. simplify_eq. destruct Hc'. apply andb_false_iff in Ec as [Ec|Ec]; blia.
Qed.

(** Which lists of ranges are accepted: the empty list makes the
    constructor panic; otherwise the schedule consists of the given ranges in the
    order of their first slots, and it is refused exactly if one of them starts
    at or before the end of its predecessor in that order. *)
Theorem new_schedule_spec (es : list LeaderScheduleEntry) :
  match NewLeaderSchedule es with
  | None => es = []
  | Some None => ∃ i a b, sort_Slice es !! i = Some a ∧ sort_Slice es !! S i = Some b ∧
                          StartSlot b ≤ EndSlot a
  | Some (Some ls) =>
      sentries ls ≡ₚ es ∧ StronglySorted start_le (sentries ls) ∧
      (∀ i j a b, sentries ls !! i = Some a → sentries ls !! j = Some b → (i < j)%nat →
                  EndSlot a < StartSlot b) ∧
      ∃ e, last (sentries ls) = Some e ∧ maxSlot ls = EndSlot e
  end.
Proof.
  destruct (NewLeaderSchedule es) as [[ls|]|] eqn:E.
  - destruct (NewLeaderSchedule_ok _ _ E) as (Hin & Hp & Hl). split_and!; [done|apply Hin| |done].
    intros i j a b ???. by eapply in_order_later.
  - unfold NewLeaderSchedule, Validate in E. simpl in E. destruct es as [|e0 es]; [done|].
    destruct (overlapping (sort_Slice (e0 :: es))) eqn:Eo; simpl in E; [|by destruct (last _)].
    clear E. induction (sort_Slice (e0 :: es)) as [|a l IH]; [done|].
    destruct l as [|b l]; [done|]. cbn [overlapping] in Eo. apply orb_prop in Eo as [Eo|Eo].
    + exists 0%nat, a, b. zify_bool. done.
    + destruct (IH Eo) as (i & x & y & H1 & H2 & H3). by exists (S i), x, y.
  - unfold NewLeaderSchedule, Validate in E. simpl in E. destruct es as [|e0 es]; [done|].
    destruct (overlapping (sort_Slice (e0 :: es))); simpl in E; [done|].
    destruct (last (sort_Slice (e0 :: es))) eqn:El; [done|]. apply last_None in El.
    pose proof (sort_Slice_perm (e0 :: es)) as Hp. rewrite El in Hp.
    by apply Permutation_nil_l in Hp.
Qed.

End Schedule.

(** ** A concrete sort and schedule *)

#[export] Instance start_le_trans : Transitive start_le.
Proof. intros a b c. unfold start_le. lia. Qed.
#[export] Instance start_le_total : Total start_le.
Proof. intros a b. unfold start_le. lia. Qed.

#[export] Instance merge_SliceSort : SliceSort := {|
  sort_Slice := merge_sort start_le;
  sort_Slice_perm := merge_sort_Permutation start_le;
  sort_Slice_sorted := StronglySorted_merge_sort start_le;
|}.

Definition example_schedule : list LeaderScheduleEntry :=
  [mkSchedule 5 8 "b"; mkSchedule 1 3 "a"; mkSchedule 9 12 "c"].

Lemma leader_at_spec_witness :
  ∃ ls, NewLeaderSchedule example_schedule = Some (Some ls) ∧
    (∃ e, e ∈ example_schedule ∧ covers 7 e ∧ Leader e = "b") ∧
    ∀ e, e ∈ example_schedule → ¬ covers 4 e.
Proof.
  destruct (NewLeaderSchedule example_schedule) as [[ls|]|] eqn:E; [|by vm_compute in E..].
  exists ls. split; [done|].
  pose proof (leader_at_spec example_schedule ls 19 E) as H1.
  pose proof (leader_at_spec example_schedule ls 4 E) as H2.
  vm_compute in E. injection E as <-. split.
  - destruct H1 as (_ & e & He & Hc & Hl & _). by exists e.
  - exact (proj2 H2).
Defined.
