(* ===== verification/Consensus.v ===== *)
(** * Votes and their collection (the package consensus)

    A vote is signed over its slot, block hash and voter; the collector counts
    the votes of a slot and reports when the threshold is reached.  The JSON
    encoding of the signed part is [VoteEnv]; the votes of the collector are maps
    from slots to maps from voters.  The periodic cleanup is modelled by the
    operation it calls. *)

From stdpp Require Import base list gmap strings.
From Stdlib Require Import ZArith Lia.
From S2P Require Import Prelude GoLib Transaction.

Open Scope string_scope.
Open Scope list_scope.
Open Scope Z_scope.

Definition DefaultVoteRetentionSlots : Z := 1500.

Record Vote := mkVote { Slot : Z; BlockHash : string; VoterID : string; VSignature : string }.

Record Collector := mkCollector {
  votes : gmap Z (gmap string Vote); total : Z; threshold : Z; cMaxSlot : Z;
}.

(** The encoding of slot, block hash and voter; the error is dropped. *)
Class VoteEnv := { json_of_vote : Z → string → string → string; ed25519_Sign : string → string → string }.

Inductive VoteError :=
| BadVoterID | MissingSignature | BadSignatureSize | BadSignature | DuplicateVote.

Section Consensus.
Context `{TxEnv, VoteEnv}.

Definition serializeVote (v : Vote) : string := json_of_vote (Slot v) (BlockHash v) (VoterID v).

Definition vote_Sign (v : Vote) (priv : string) : Vote :=
  mkVote (Slot v) (BlockHash v) (VoterID v) (ed25519_Sign priv (serializeVote v)).

Definition getPublicKeyFromVoterID (voterID : string) : option string := public_key_of_id voterID.

(** [None] is the nil error. *)
Definition vote_Validate (v : Vote) : option VoteError :=
  match getPublicKeyFromVoterID (VoterID v) with
  | None => Some BadVoterID
  | Some pubKey =>
      if string_len (VSignature v) =? 0 then Some MissingSignature
      else if negb (string_len (VSignature v) =? SignatureSize) then Some BadSignatureSize
      else if negb (ed25519_Verify pubKey (serializeVote v) (VSignature v)) then Some BadSignature
      else None
  end.

Definition NewCollector (n : Z) : Collector :=
  let f := n / 3 in
  let q := Z.max (2 * f) 1 in
  mkCollector ∅ n q 0.

(** Whether the slot is committed, whether the block should be applied, or the
    error; and the collector afterwards. *)
Definition AddVote (c : Collector) (v : Vote) : result VoteError (bool * bool) * Collector :=
  match vote_Validate v with
  | Some e => (Err e, c)
  | None =>
      let slotVotes := default ∅ (votes c !! Slot v) in
      let c := mkCollector (<[Slot v := slotVotes]> (votes c)) (total c) (threshold c) (cMaxSlot c) in
      match slotVotes !! VoterID v with
      | Some _ => (Err DuplicateVote, c)
      | None =>
          let slotVotes := <[VoterID v := v]> slotVotes in
          let maxSlot := if cMaxSlot c <? Slot v then Slot v else cMaxSlot c in
          let c := mkCollector (<[Slot v := slotVotes]> (votes c)) (total c) (threshold c) maxSlot in
          let count := Z.of_nat (size slotVotes) in
          if threshold c <=? count then (Ok (true, true), c) else (Ok (false, false), c)
      end
  end.

Definition VotesForSlot (c : Collector) (slot : Z) : gmap string Vote := default ∅ (votes c !! slot).

Definition CleanupOldVotes (c : Collector) (currentSlot keepRecentSlots : Z) : Collector :=
  if currentSlot <? keepRecentSlots then c
  else
    let cleanupThreshold := currentSlot - keepRecentSlots in
    mkCollector (filter (λ p, ¬ (p.1 < cleanupThreshold)) (votes c)) (total c) (threshold c) (cMaxSlot c).

(** One beat of the ticker of [StartPeriodicCleanup]. *)
Definition cleanup_beat (c : Collector) (keepRecentSlots : Z) : Collector :=
  if 0 <? cMaxSlot c then CleanupOldVotes c (cMaxSlot c) keepRecentSlots else c.

(** ** Correctness *)

(** The votes are kept under their own slot and voter, they are valid, and no
    slot is above the maximum. *)
Definition collector_wf (c : Collector) : Prop :=
  ∀ slot m id v, votes c !! slot = Some m → m !! id = Some v →
    Slot v = slot ∧ VoterID v = id ∧ vote_Validate v = None ∧ slot ≤ cMaxSlot c.

(** The operations of the collector. *)
Inductive op := OpVote (v : Vote) | OpCleanup (keep : Z).

Definition collector_step (c : Collector) (o : op) : Collector :=
  match o with OpVote v => snd (AddVote c v) | OpCleanup keep => cleanup_beat c keep end.

Lemma AddVote_votes c v slot m : 
  votes (snd (AddVote c v)) !! slot = Some m →
  (m = ∅ ∨ votes c !! slot = Some m) ∨
  (vote_Validate v = None ∧ slot = Slot v ∧ m = <[VoterID v := v]> (default ∅ (votes c !! Slot v))
   ∧ Slot v ≤ cMaxSlot (snd (AddVote c v))).
Proof.
  unfold AddVote. destruct (vote_Validate v); [by eauto|].
  destruct (default ∅ (votes c !! Slot v) !! VoterID v) eqn:E; simpl.
  - intros [[<- <-]|[? ?]]%lookup_insert_Some; [|by eauto].
    left. destruct (votes c !! Slot v) eqn:Es; [by right|by left].
  - destruct (threshold c <=? _); simpl;
      intros [[<- <-]|[? [[<- <-]|[? ?]]%lookup_insert_Some]]%lookup_insert_Some; try done; try by eauto.
    all: right; split_and!; try done; destruct (cMaxSlot c <? Slot v) eqn:El; blia.
Qed.

Lemma AddVote_max c v : cMaxSlot c ≤ cMaxSlot (snd (AddVote c v)).
Proof.
  unfold AddVote. destruct (vote_Validate v); [done|].
  destruct (default ∅ _ !! _); [done|]. destruct (_ <=? _); simpl; destruct (_ <? _) eqn:E; blia.
Qed.

Lemma collector_wf_new n : collector_wf (NewCollector n).
Proof. by intros slot m id v Hm. Qed.

Lemma collector_wf_step c o : collector_wf c → collector_wf (collector_step c o).
Proof.
  intros Hwf slot m id v Hm Hv. destruct o as [v'|keep]; simpl in *.
  - pose proof (AddVote_max c v'). apply AddVote_votes in Hm as [[->|Hm]|(Hok & -> & -> & Hle)]; [done| |].
    + destruct (Hwf _ _ _ _ Hm Hv) as (? & ? & ? & ?). split_and!; try done. lia.
    + apply lookup_insert_Some in Hv as [[<- <-]|[_ Hv]]; [done|].
      destruct (votes c !! Slot v') as [m|] eqn:Es; [|done].
      destruct (Hwf _ _ _ _ Es Hv) as (? & ? & ? & ?). by split_and!.
  - unfold cleanup_beat, CleanupOldVotes in *. destruct (0 <? cMaxSlot c); [|by eapply Hwf].
    destruct (cMaxSlot c <? keep); [by eapply Hwf|]. simpl in *.
    apply map_lookup_filter_Some in Hm as [Hm _]. by eapply Hwf.
Qed.

(** [C31] The collector keeps only votes that were signed by their voter, each
    under its slot and voter, and no slot is above the recorded maximum, whatever
    sequence of votes and cleanups it receives. *)
Theorem collector_invariant (n : Z) (ops : list op) :
  collector_wf (foldl collector_step (NewCollector n) ops).
Proof.
  cut (∀ c, collector_wf c → collector_wf (foldl collector_step c ops)).
  { intros Hc. apply Hc, collector_wf_new. }
  induction ops as [|o ops IH]; intros c Hc; simpl; [done|]. by apply IH, collector_wf_step.
Qed.

(** The voters of a slot among the valid votes of a list. *)
Definition voters (slot : Z) (vs : list Vote) : gset string :=
  list_to_set (VoterID <$> filter (λ v, Slot v = slot ∧ vote_Validate v = None) vs).

Lemma voters_snoc slot vs v :
  voters slot (vs ++ [v]) =
  if bool_decide (Slot v = slot ∧ vote_Validate v = None) then voters slot vs ∪ {[ VoterID v ]}
  else voters slot vs.
Proof.
  unfold voters. rewrite filter_app, fmap_app, list_to_set_app_L. case_bool_decide as E.
  - rewrite filter_cons_True by done. simpl. set_solver.
  - rewrite filter_cons_False by done. simpl. set_solver.
Qed.

Lemma AddVote_threshold c v : threshold (snd (AddVote c v)) = threshold c.
Proof.
  unfold AddVote. destruct (vote_Validate v); [done|]. destruct (default ∅ _ !! _); [done|].
  by destruct (_ <=? _).
Qed.

(** The voters recorded for a slot, after one vote. *)
Lemma AddVote_dom c v slot :
  dom (VotesForSlot (snd (AddVote c v)) slot) =
  if bool_decide (Slot v = slot ∧ vote_Validate v = None)
  then dom (VotesForSlot c slot) ∪ {[ VoterID v ]} else dom (VotesForSlot c slot).
Proof.
  unfold VotesForSlot, AddVote. destruct (vote_Validate v) eqn:Ev.
  { rewrite bool_decide_false by naive_solver. done. }
  destruct (decide (Slot v = slot)) as [<-|Hne].
  - rewrite bool_decide_true by done.
    destruct (default ∅ (votes c !! Slot v) !! VoterID v) as [w|] eqn:E; simpl.
    + rewrite lookup_insert_eq. simpl. apply elem_of_dom_2 in E. set_solver.
    + destruct (threshold c <=? _); simpl; rewrite lookup_insert_eq; simpl;
        rewrite dom_insert_L; set_solver.
  - rewrite bool_decide_false by naive_solver.
    destruct (default ∅ (votes c !! Slot v) !! VoterID v) as [w|]; simpl;
      [by rewrite lookup_insert_ne|].
    destruct (threshold c <=? _); simpl; by rewrite !lookup_insert_ne.
Qed.

Lemma collected_voters n vs slot :
  dom (VotesForSlot (foldl (λ c v, snd (AddVote c v)) (NewCollector n) vs) slot) = voters slot vs.
Proof.
  induction vs as [|v vs IH] using rev_ind; [done|].
  rewrite foldl_snoc, AddVote_dom, voters_snoc, IH. done.
Qed.

(** When a vote commits its slot: after a list of votes, a valid vote of a
    voter not seen for that slot is accepted, and it commits the slot and asks to
    apply the block exactly if the distinct voters with valid votes for that slot,
    whatever block hashes they voted for, reach the threshold; a second vote of a
    voter and an invalid vote are errors. *)
Theorem vote_commits (n : Z) (vs : list Vote) (v : Vote) :
  let c := foldl (λ c v, snd (AddVote c v)) (NewCollector n) vs in
  fst (AddVote c v) =
  match vote_Validate v with
  | Some e => Err e
  | None =>
      if bool_decide (VoterID v ∈ voters (Slot v) vs) then Err DuplicateVote
      else let commit := Z.max (2 * (n / 3)) 1 <=? Z.of_nat (size (voters (Slot v) (vs ++ [v]))) in
           Ok (commit, commit)
  end.
Proof.
  intros c. pose proof (collected_voters n vs (Slot v)) as Hd. fold c in Hd.
  pose proof (collected_voters n (vs ++ [v]) (Slot v)) as Hd'. rewrite foldl_snoc in Hd'. fold c in Hd'.
  assert (Ht : threshold c = Z.max (2 * (n / 3)) 1).
  { unfold c. clear. induction vs as [|v vs IH] using rev_ind; [done|].
    by rewrite foldl_snoc, AddVote_threshold. }
  rewrite <- Ht, <- Hd, <- Hd', size_dom.
  unfold AddVote, VotesForSlot. destruct (vote_Validate v); [done|].
  destruct (default ∅ (votes c !! Slot v) !! VoterID v) as [w|] eqn:E; simpl.
  - rewrite bool_decide_true by by eapply elem_of_dom_2. done.
  - rewrite bool_decide_false by by apply not_elem_of_dom_2.
    destruct (threshold c <=? _) eqn:El; simpl; by rewrite lookup_insert_eq; simpl; rewrite El.
Qed.

(** The overlap of two committing sets of voters among [n] validators is at
    least twice the threshold minus [n], and that is more than the number of
    faulty validators that [n] tolerate exactly if [n] is a multiple of three:
    with 3f+1 validators the threshold is 2f, and two sets that reach it can have
    f-1 voters in common. *)
Theorem quorum_overlap (n : Z) (validators a b : gset string) :
  3 ≤ n → Z.of_nat (size validators) = n → a ⊆ validators → b ⊆ validators →
  threshold (NewCollector n) ≤ Z.of_nat (size a) → threshold (NewCollector n) ≤ Z.of_nat (size b) →
  2 * threshold (NewCollector n) - n ≤ Z.of_nat (size (a ∩ b)) ∧
  ((n - 1) / 3 < 2 * threshold (NewCollector n) - n ↔ n mod 3 = 0).
Proof.
  unfold NewCollector. simpl. intros Hn Hv Ha Hb Hqa Hqb.
  assert (Hu : (size (a ∪ b) ≤ size validators)%nat) by (apply subseteq_size; set_solver).
  assert (Hs : (size a + size b = size (a ∪ b) + size (a ∩ b))%nat).
  { assert (E1 : size (a ∪ b) = (size a + size (b ∖ a))%nat) by apply size_union_alt.
    assert (E2 : size b = (size (b ∖ a) + size (a ∩ b))%nat).
    { rewrite <- size_union by set_solver. f_equal. apply set_eq. intros x.
      destruct (decide (x ∈ a)); set_solver. }
    lia. }
  pose proof (Z.div_mod n 3). pose proof (Z.mod_pos_bound n 3).
  pose proof (Z.div_mod (n - 1) 3). pose proof (Z.mod_pos_bound (n - 1) 3).
  split; lia.
Qed.

End Consensus.

Lemma quorum_overlap_witness :
  0 ≤ Z.of_nat (size ({[ "a"; "b" ]} ∩ {[ "c"; "d" ]} : gset string)) ∧
  ((4 - 1) / 3 < 2 * threshold (NewCollector 4) - 4 ↔ 4 mod 3 = 0).
Proof.
  apply (quorum_overlap 4 {[ "a"; "b"; "c"; "d" ]} {[ "a"; "b" ]} {[ "c"; "d" ]});
    [done | by vm_compute | set_solver | set_solver | by vm_compute | by vm_compute].
Defined.
