(* ===== verification/Block.v ===== *)
(** * Blocks (block/block.go and the conversion of utils/convert.go)

    A block has a core and entries: the broadcast form carries the
    transactions, the stored form their hashes.  A hash is the string of its
    bytes; the time of assembly is an argument. *)

From stdpp Require Import base list gmap strings.
From Stdlib Require Import ZArith Lia.
From S2P Require Import Prelude GoLib Transaction Poh.

Open Scope string_scope.
Open Scope list_scope.
Open Scope Z_scope.

Inductive BlockStatus := BlockPending | BlockFinalized.

Record BlockCore := mkCore {
  bSlot : Z; PrevHash : string; LeaderID : string; bTimestamp : Z; bHash : string;
  bSignature : string; Status : BlockStatus; InvalidPoH : bool;
}.

Record Block := mkBlock { blk_core : BlockCore; blk_Entries : list PersistentEntry }.
Record BroadcastedBlock := mkBroadcasted { bb_core : BlockCore; bb_Entries : list Entry }.

Definition block_LastEntryHash (b : Block) : string :=
  match last (blk_Entries b) with None => zero_hash | Some e => PHash e end.

Definition bb_LastEntryHash (b : BroadcastedBlock) : string :=
  match last (bb_Entries b) with None => zero_hash | Some e => EHash e end.

Definition HashString (b : BlockCore) : string := hex_EncodeToString (bHash b).
Definition PrevHashString (b : BlockCore) : string := hex_EncodeToString (PrevHash b).

Section Blocks.
Context `{TxEnv}.

Definition hash_input (b : BroadcastedBlock) : string :=
  PutUint64 (bSlot (bb_core b)) +:+ PrevHash (bb_core b) +:+ LeaderID (bb_core b) +:+
  PutUint64 (bTimestamp (bb_core b)) +:+
  foldr (λ e r, PutUint64 (NumHashes e) +:+ EHash e +:+ r) "" (bb_Entries b).

Definition computeHash (b : BroadcastedBlock) : string := sha256_Sum256 (hash_input b).

Definition with_hash (c : BlockCore) (h : string) : BlockCore :=
  mkCore (bSlot c) (PrevHash c) (LeaderID c) (bTimestamp c) h (bSignature c) (Status c) (InvalidPoH c).

Definition AssembleBlock (slot : Z) (prevHash leaderID : string) (es : list Entry) (now : Z)
    : BroadcastedBlock :=
  let b := mkBroadcasted (mkCore slot prevHash leaderID now zero_hash "" BlockPending false) es in
  mkBroadcasted (with_hash (bb_core b) (computeHash b)) es.

Definition getPublicKeyFromLeaderID (leaderID : string) : option string := public_key_of_id leaderID.

(** [sign priv m] is [ed25519.Sign]. *)
Definition bb_Sign (sign : string → string → string) (b : BroadcastedBlock) (priv : string)
    : BroadcastedBlock :=
  let c := bb_core b in
  mkBroadcasted (mkCore (bSlot c) (PrevHash c) (LeaderID c) (bTimestamp c) (bHash c)
                   (sign priv (bHash c)) (Status c) (InvalidPoH c)) (bb_Entries b).

Definition VerifySignature (b : BroadcastedBlock) : bool :=
  match getPublicKeyFromLeaderID (LeaderID (bb_core b)) with
  | None => false
  | Some pubKey =>
      if negb (string_len (bSignature (bb_core b)) =? SignatureSize) then false
      else ed25519_Verify pubKey (bHash (bb_core b)) (bSignature (bb_core b))
  end.

Definition VerifyPoH (b : BroadcastedBlock) : option VerifyError :=
  VerifyEntries (PrevHash (bb_core b)) (bb_Entries b).

(** [tx.Hash()] through a pointer. *)
Definition ptr_Hash (tx : option Transaction) : string :=
  hex_EncodeToString (sha256_Sum256 (ptr_Bytes tx)).

Definition persistent_entry (e : Entry) : PersistentEntry :=
  mkPersistentEntry (NumHashes e) (EHash e) (ptr_Hash <$> Transactions e) (Tick e).

Definition BroadcastedBlockToBlock (b : BroadcastedBlock) : Block :=
  let c := bb_core b in
  mkBlock (mkCore (bSlot c) (PrevHash c) (LeaderID c) (bTimestamp c) (bHash c) (bSignature c)
             BlockPending (InvalidPoH c))
    (persistent_entry <$> bb_Entries b).

(** ** Correctness *)

Lemma app_inv_len (a b c d : string) :
  String.length a = String.length b → a +:+ c = b +:+ d → a = b ∧ c = d.
Proof.
  revert b. induction a as [|x a IH]; intros [|y b]; intros Hl E; try done.
  simpl in Hl. injection Hl as Hl. injection E as -> E. by destruct (IH b Hl E) as [-> ->].
Qed.

Lemma entries_input_inj (l1 l2 : list Entry) :
  Forall (λ e, in_width 64 (NumHashes e) ∧ String.length (EHash e) = 32%nat) (l1 ++ l2) →
  foldr (λ e r, PutUint64 (NumHashes e) +:+ EHash e +:+ r) "" l1
  = foldr (λ e r, PutUint64 (NumHashes e) +:+ EHash e +:+ r) "" l2 →
  (λ e, (NumHashes e, EHash e)) <$> l1 = (λ e, (NumHashes e, EHash e)) <$> l2.
Proof.
  revert l2. induction l1 as [|e1 l1 IH]; intros [|e2 l2] Hw E; [done..|].
  apply Forall_app in Hw as [[[Hn1 Hh1] Hw1]%Forall_cons [[Hn2 Hh2] Hw2]%Forall_cons].
  cbn [foldr] in E. apply app_inv_len in E as [E1 E]; [|done].
  apply app_inv_len in E as [E2 E]; [|by rewrite Hh1, Hh2].
  apply PutUint64_inj in E1; [|done..]. csimpl. rewrite E1, E2. f_equal.
  apply IH; [by apply Forall_app|done].
Qed.

(** What the hash of a block commits to: blocks whose leader identifiers
    have the same length and whose hashes have 32 bytes are hashed from the same
    bytes only if they agree in slot, previous hash, leader, time, and the hash
    counts and hashes of all their entries. *)
Theorem block_hash_input_injective (a b : BroadcastedBlock) :
  String.length (LeaderID (bb_core a)) = String.length (LeaderID (bb_core b)) →
  String.length (PrevHash (bb_core a)) = 32%nat → String.length (PrevHash (bb_core b)) = 32%nat →
  in_width 64 (bSlot (bb_core a)) → in_width 64 (bSlot (bb_core b)) →
  in_width 64 (bTimestamp (bb_core a)) → in_width 64 (bTimestamp (bb_core b)) →
  Forall (λ e, in_width 64 (NumHashes e) ∧ String.length (EHash e) = 32%nat)
    (bb_Entries a ++ bb_Entries b) →
  hash_input a = hash_input b →
  bSlot (bb_core a) = bSlot (bb_core b) ∧ PrevHash (bb_core a) = PrevHash (bb_core b) ∧
  LeaderID (bb_core a) = LeaderID (bb_core b) ∧ bTimestamp (bb_core a) = bTimestamp (bb_core b) ∧
  (λ e, (NumHashes e, EHash e)) <$> bb_Entries a = (λ e, (NumHashes e, EHash e)) <$> bb_Entries b.
Proof.
  unfold hash_input. intros Hl Hp1 Hp2 Hs1 Hs2 Ht1 Ht2 Hw E.
  apply app_inv_len in E as [E1 E]; [|done]. apply app_inv_len in E as [E2 E]; [|by rewrite Hp1, Hp2].
  apply app_inv_len in E as [E3 E]; [|done]. apply app_inv_len in E as [E4 E]; [|done].
  split_and!; [by apply PutUint64_inj|done|done|by apply PutUint64_inj|by apply entries_input_inj].
Qed.

(** The signature check reads the hash, the leader and the signature of a
    block and nothing else: a block with the slot, the previous hash, the time and
    the entries of another one, under the same three fields, passes exactly if the
    original does, also when its hash is not the one [computeHash] gives. *)
Theorem signature_ignores_contents (a b : BroadcastedBlock) :
  let c := bb_core b in
  VerifySignature (mkBroadcasted
    (mkCore (bSlot c) (PrevHash c) (LeaderID (bb_core a)) (bTimestamp c) (bHash (bb_core a))
       (bSignature (bb_core a)) (Status c) (InvalidPoH c)) (bb_Entries b))
  = VerifySignature a.
Proof. done. Qed.

(** The stored form of a block keeps its slot, hashes, leader, time and
    signature, is pending, has the same last entry hash, and lists exactly the
    hashes of its transactions, entry by entry. *)
Theorem stored_block_agrees (b : BroadcastedBlock) :
  let s := BroadcastedBlockToBlock b in
  block_LastEntryHash s = bb_LastEntryHash b ∧ Status (blk_core s) = BlockPending ∧
  HashString (blk_core s) = HashString (bb_core b) ∧ bSlot (blk_core s) = bSlot (bb_core b) ∧
  TxHashes <$> blk_Entries s = fmap ptr_Hash ∘ Transactions <$> bb_Entries b.
Proof.
  intros s. split_and!; try done.
  - unfold block_LastEntryHash, bb_LastEntryHash, s, BroadcastedBlockToBlock. simpl.
    rewrite fmap_last. by destruct (last (bb_Entries b)).
  - unfold s, BroadcastedBlockToBlock. simpl. by rewrite <- list_fmap_compose.
Qed.

End Blocks.

Lemma block_hash_input_injective_witness :
  let a := @AssembleBlock example_tx_env 3 zero_hash "leader" [NewTickEntry 5 zero_hash] 9 in
  let b := mkBroadcasted (mkCore 3 zero_hash "leader" 9 "other" "sig" BlockPending true)
             [mkEntry 5 zero_hash [None] false] in
  bSlot (bb_core a) = bSlot (bb_core b) ∧ bTimestamp (bb_core a) = bTimestamp (bb_core b).
Proof.
  intros a b.
  destruct (@block_hash_input_injective a b) as (H1 & _ & _ & H2 & _);
    [done.. | by repeat constructor | done |]. by split.
Defined.
