(* ===== verification/Store.v ===== *)
(** * The stores (the package store)

    The account, transaction, transaction-meta and block stores share one
    database.  [Storage] has its contents, a script of which of the next database
    operations fail, and the two counters the block store keeps in memory.  The
    operations are in a state-and-error monad over it.  The JSON codec is
    [StoreCodec]; the contents of a batch are written together or not at all.
    The locks and the goroutine that drops old ones are not modelled: operations
    are atomic steps, as the lock of a slot makes them for one slot. *)

From stdpp Require Import base list gmap strings.
From Stdlib Require Import ZArith Lia.
From S2P Require Import Prelude GoLib Transaction Poh Block.

Open Scope string_scope.
Open Scope list_scope.
Open Scope Z_scope.

(** ** types *)

Record Account := mkAccount { Address : string; Balance : Z; aNonce : Z }.

Definition TxStatusFailed : Z := 0.
Definition TxStatusSuccess : Z := 1.
Definition TxStatusProcessed : Z := 2.

Record TransactionMeta := mkMeta {
  TxHash : string; mSlot : Z; mBlockHash : string; mStatus : Z; mError : string;
}.

Record SlotBoundary := mkBoundary { sbSlot : Z; sbHash : string }.

(** ** The database *)

Record Storage := mkStorage {
  data : gmap string string; faults : list bool; latestFinalized : Z; latestStore : Z;
}.

Inductive StoreError :=
| NilBlock | DbError | MarshalError | BlockExists | BlockMissing | BadMetadata | BadHex
| AccountExisted.

Definition ST (A : Type) : Type := Storage → result StoreError A * Storage.

#[export] Instance st_ret : MRet ST := λ A a s, (Ok a, s).
#[export] Instance st_bind : MBind ST := λ A B k m s,
  match m s with
  | (Ok a, s') => k a s'
  | (Err e, s') => (Err e, s')
  end.
Definition st_throw {A} (e : StoreError) : ST A := λ s, (Err e, s).
Definition st_get : ST Storage := λ s, (Ok s, s).

(** A step of the database that can fail. *)
Definition db_step {A} (f : gmap string string → A * gmap string string) : ST A := λ s,
  match faults s with
  | true :: fs => (Err DbError, mkStorage (data s) fs (latestFinalized s) (latestStore s))
  | _ =>
      let '(a, d) := f (data s) in
      (Ok a, mkStorage d (tail (faults s)) (latestFinalized s) (latestStore s))
  end.

Definition db_Get (key : string) : ST (option string) := db_step (λ d, (d !! key, d)).
Definition db_Has (key : string) : ST bool := db_step (λ d, (bool_decide (is_Some (d !! key)), d)).
Definition db_Put (key value : string) : ST unit := db_step (λ d, (tt, <[key := value]> d)).
(** The keys that are present, with their values. *)
Definition db_GetBatch (keys : list string) : ST (gmap string string) :=
  db_step (λ d, (filter (λ p, p.1 ∈ keys) d, d)).

(** A batch of insertions, in order. *)
Definition batch : Type := list (string * string).
Definition batch_apply (b : batch) (d : gmap string string) : gmap string string :=
  foldl (λ d p, <[p.1 := p.2]> d) d b.
Definition batch_Write (b : batch) : ST unit := db_step (λ d, (tt, batch_apply b d)).

Definition set_latestFinalized (slot : Z) : ST unit := λ s,
  (Ok tt, mkStorage (data s) (faults s) slot (latestStore s)).
Definition set_latestStore (slot : Z) : ST unit := λ s,
  (Ok tt, mkStorage (data s) (faults s) (latestFinalized s) slot).

(** The value, or an error when it is absent. *)
Definition st_some {A} (e : StoreError) (o : option A) : ST A :=
  match o with Some a => mret a | None => st_throw e end.

Class StoreCodec := {
  json_to_tx : string → option Transaction;
  json_of_account : Account → option string;
  json_to_account : string → option Account;
  json_of_block : Block → option string;
  json_to_block : string → option Block;
  json_of_meta : TransactionMeta → option string;
  json_to_meta : string → option TransactionMeta;
}.

(** ** key_prefix.go *)

Definition PrefixAccount : string := "account:".
Definition PrefixBlockMeta : string := "blk_meta:".
Definition PrefixBlock : string := "blk:".
Definition PrefixBlockFinalized : string := "blk_finalized:".
Definition BlockMetaKeyLatestFinalized : string := "latest_finalized".
Definition BlockMetaKeyLatestStore : string := "latest_store".
Definition PrefixTx : string := "tx:".
Definition PrefixTxMeta : string := "tx_meta:".
Definition PrefixLatestVersionContent : string := "latest_version_content:".

Definition account_GetDBKey (addr : string) : string := PrefixAccount +:+ addr.
Definition tx_GetDBKey (txHash : string) : string := PrefixTx +:+ txHash.
Definition meta_GetDBKey (txHash : string) : string := PrefixTxMeta +:+ txHash.
Definition GetLatestVersionContentKey (rootHash : string) : string :=
  PrefixLatestVersionContent +:+ rootHash.
Definition slotToBlockKey (slot : Z) : string := PrefixBlock +:+ PutUint64 slot.
Definition slotToFinalizedKey (slot : Z) : string := PrefixBlockFinalized +:+ PutUint64 slot.
Definition latest_finalized_key : string := PrefixBlockMeta +:+ BlockMetaKeyLatestFinalized.
Definition latest_store_key : string := PrefixBlockMeta +:+ BlockMetaKeyLatestStore.

Section Stores.
Context `{TxEnv, StoreCodec}.

(** [types.NewTxMeta]; a nil transaction has a hash too. *)
Definition NewTxMeta (tx : option Transaction) (slot : Z) (blockHash : string) (status : Z)
    (err : string) : TransactionMeta := mkMeta (ptr_Hash tx) slot blockHash status err.

(** ** account_store.go *)

Definition account_Store (account : Account) : ST unit :=
  accountData ← st_some MarshalError (json_of_account account);
  db_Put (account_GetDBKey (Address account)) accountData.

(** Marshals every value into a batch, and stops at the first failure. *)
Definition batch_of {A} (key : A → string) (marshal : A → option string) (l : list A) : ST batch :=
  st_some MarshalError (mapM (λ a, v ← marshal a; Some (key a, v)) l).

Definition account_StoreBatch (accounts : list Account) : ST unit :=
  b ← batch_of (account_GetDBKey ∘ Address) json_of_account accounts;
  batch_Write b.

Definition account_GetByAddr (addr : string) : ST (option Account) :=
  d ← db_Get (account_GetDBKey addr);
  match d with
  | None => mret None
  | Some v => acc ← st_some DbError (json_to_account v); mret (Some acc)
  end.

(** Addresses without an account, or with one that does not decode, are left
    out. *)
Definition account_GetBatch (addrs : list string) : ST (gmap string Account) :=
  if bool_decide (addrs = []) then mret ∅
  else
    dataMap ← db_GetBatch (account_GetDBKey <$> addrs);
    mret (list_to_map (omap (λ addr,
            v ← dataMap !! account_GetDBKey addr; acc ← json_to_account v; Some (addr, acc)) addrs)).

Definition account_ExistsByAddr (addr : string) : ST bool := db_Has (account_GetDBKey addr).

(** ** tx_store.go *)

Definition tx_StoreBatch (txs : list Transaction) : ST unit :=
  if bool_decide (txs = []) then mret tt
  else
    b ← batch_of (tx_GetDBKey ∘ Hash) json_of_tx txs;
    batch_Write b.

Definition tx_Store (tx : Transaction) : ST unit := tx_StoreBatch [tx].

(** A missing value is decoded as the empty one. *)
Definition tx_GetByHash (txHash : string) : ST Transaction :=
  d ← db_Get (tx_GetDBKey txHash);
  st_some MarshalError (json_to_tx (default "" d)).

Definition tx_GetBatch (txHashes : list string) : ST (list Transaction) :=
  if bool_decide (txHashes = []) then mret []
  else
    dataMap ← db_GetBatch (tx_GetDBKey <$> txHashes);
    mret (omap (λ h, v ← dataMap !! tx_GetDBKey h; json_to_tx v) txHashes).

Definition GetLatestVersionContentHash (rootHash : string) : ST string :=
  d ← db_Get (GetLatestVersionContentKey rootHash);
  mret (hex_EncodeToString (default "" d)).

Definition GetBatchLatestVersionContentHash (rootHashes : list string) : ST (gmap string string) :=
  if bool_decide (rootHashes = []) then mret ∅
  else
    dataMap ← db_GetBatch (GetLatestVersionContentKey <$> rootHashes);
    mret (list_to_map (omap (λ h,
            v ← dataMap !! GetLatestVersionContentKey h; Some (h, hex_EncodeToString v)) rootHashes)).

(** ** tx_meta_store.go *)

Definition meta_StoreBatch (txMetas : list TransactionMeta) : ST unit :=
  if bool_decide (txMetas = []) then mret tt
  else
    b ← batch_of (meta_GetDBKey ∘ TxHash) json_of_meta txMetas;
    batch_Write b.

Definition meta_Store (txMeta : TransactionMeta) : ST unit := meta_StoreBatch [txMeta].

Definition meta_GetByHash (txHash : string) : ST TransactionMeta :=
  d ← db_Get (meta_GetDBKey txHash);
  st_some MarshalError (json_to_meta (default "" d)).

Definition meta_GetBatch (txHashes : list string) : ST (gmap string TransactionMeta) :=
  if bool_decide (txHashes = []) then mret ∅
  else
    dataMap ← db_GetBatch (meta_GetDBKey <$> txHashes);
    mret (list_to_map (omap (λ h,
            v ← dataMap !! meta_GetDBKey h; m ← json_to_meta v; Some (h, m)) txHashes)).

End Stores.

(** ** Batches and the monad *)

Lemma batch_apply_app b1 b2 d : batch_apply (b1 ++ b2) d = batch_apply b2 (batch_apply b1 d).
Proof. apply foldl_app. Qed.

Lemma batch_apply_ne b d k : k ∉ b.*1 → batch_apply b d !! k = d !! k.
Proof.
  induction b as [|[k' v] b IH] using rev_ind; [done|]. rewrite fmap_app, batch_apply_app.
  intros Hk. simpl in *. rewrite lookup_insert_ne by set_solver. apply IH. set_solver.
Qed.

Lemma batch_apply_in b d k v :
  (k, v) ∈ b → (∀ v', (k, v') ∈ b → v' = v) → batch_apply b d !! k = Some v.
Proof.
  induction b as [|[k' v'] b IH] using rev_ind; [by intros ?%elem_of_nil|].
  intros Hin Hu. rewrite batch_apply_app. simpl.
  destruct (decide (k' = k)) as [->|Hne].
  - rewrite lookup_insert_eq. f_equal. apply Hu. set_solver.
  - rewrite lookup_insert_ne by done. apply IH; [set_solver|]. intros w Hw. apply Hu. set_solver.
Qed.

Lemma st_bind_eq {A B} (m : ST A) (k : A → ST B) s :
  (m ≫= k) s = match m s with (Ok a, s') => k a s' | (Err e, s') => (Err e, s') end.
Proof. done. Qed.

(** Runs the monad as far as it is not stuck on a database operation. *)
Ltac st_run :=
  repeat first
    [ rewrite st_bind_eq
    | progress (cbv beta iota zeta delta
        [mret st_ret st_some st_throw st_get set_latestStore set_latestFinalized negb]) ].

(** A computation that leaves the data and the counters alone. *)
Definition quiet {A} (m : ST A) : Prop :=
  ∀ s, data (snd (m s)) = data s ∧ latestFinalized (snd (m s)) = latestFinalized s ∧
       latestStore (snd (m s)) = latestStore s.

Lemma quiet_step {A} (f : gmap string string → A) : quiet (db_step (λ d, (f d, d))).
Proof. intros s. unfold db_step. by destruct (faults s) as [|[|] fs]. Qed.

Lemma quiet_some {A} e (o : option A) : quiet (st_some e o).
Proof. intros s. by destruct o. Qed.

Lemma db_Has_ok key s b s' : db_Has key s = (Ok b, s') → b = bool_decide (is_Some (data s !! key)).
Proof. unfold db_Has, db_step. destruct (faults s) as [|[|] fs]; intros; by simplify_eq. Qed.

Lemma batch_Write_cases b s :
  (∃ s', batch_Write b s = (Err DbError, s') ∧ data s' = data s ∧
         latestFinalized s' = latestFinalized s ∧ latestStore s' = latestStore s) ∨
  (∃ s', batch_Write b s = (Ok tt, s') ∧ data s' = batch_apply b (data s) ∧
         latestFinalized s' = latestFinalized s ∧ latestStore s' = latestStore s).
Proof.
  unfold batch_Write, db_step. destruct (faults s) as [|[|] fs]; [right|left|right]; by eexists.
Qed.
