(* ===== verification/BlockStore.v ===== *)
(** * The block store (store/blockstore.go)

    Pending and finalized blocks, the marker of applied slots, and the two
    counters of the latest finalized and the latest stored slot, in memory and in
    the database.  A range over a Go map has no specified order; here it is that
    of the list of its entries, which matters only for entries with the same
    database key. *)

From stdpp Require Import base list gmap strings.
From Stdlib Require Import ZArith Lia.
From S2P Require Import Prelude GoLib Transaction Poh Block Store.

Open Scope string_scope.
Open Scope list_scope.
Open Scope Z_scope.

Section BlockStore.
Context `{TxEnv, StoreCodec}.

(** A persisted counter: absent, or eight bytes. *)
Definition read_counter (key : string) : ST (option Z) :=
  d ← db_Get key;
  match d with
  | None => mret None
  | Some v => if negb (string_len v =? 8) then st_throw BadMetadata else mret (Some (Uint64 v))
  end.

Definition loadLatestFinalized : ST unit :=
  v ← read_counter latest_finalized_key;
  match v with
  | None => set_latestFinalized 0
  | Some n =>
      _ ← set_latestFinalized n;
      w ← read_counter latest_store_key;
      match w with
      | None => set_latestStore 0
      | Some m => set_latestStore m
      end
  end.

(** The store over a database: the counters start at zero and are loaded. *)
Definition NewGenericBlockStore (d : gmap string string) (fs : list bool)
    : result StoreError unit * Storage := loadLatestFinalized (mkStorage d fs 0 0).

(** Errors are logged and answered with no block. *)
Definition store_Block (slot : Z) : ST (option Block) := λ s,
  match db_Get (slotToBlockKey slot) s with
  | (Ok (Some v), s') => (Ok (json_to_block v), s')
  | (_, s') => (Ok None, s')
  end.

Definition block_GetBatch (slots : list Z) : ST (gmap Z Block) :=
  if bool_decide (slots = []) then mret ∅
  else
    dataMap ← db_GetBatch (slotToBlockKey <$> slots);
    mret (list_to_map (omap (λ slot,
            v ← dataMap !! slotToBlockKey slot; b ← json_to_block v; Some (slot, b)) slots)).

Definition or_false (m : ST bool) : ST bool := λ s,
  match m s with (Ok b, s') => (Ok b, s') | (Err _, s') => (Ok false, s') end.

Definition HasCompleteBlock (slot : Z) : ST bool := or_false (db_Has (slotToBlockKey slot)).
Definition IsApplied (slot : Z) : ST bool := or_false (db_Has (slotToFinalizedKey slot)).

Definition GetLatestFinalizedSlot (s : Storage) : Z := latestFinalized s.
Definition GetLatestStoreSlot (s : Storage) : Z := latestStore s.

Definition LastEntryInfoAtSlot (slot : Z) : ST (option SlotBoundary) :=
  b ← store_Block slot;
  mret (blk ← b; Some (mkBoundary slot (block_LastEntryHash blk))).

(** The transactions of the entries that are not ticks. *)
Definition block_txs (b : BroadcastedBlock) : list (option Transaction) :=
  concat (Transactions <$> filter (λ e, Tick e = false) (bb_Entries b)).

(** JSON prints a nil pointer as null. *)
Definition ptr_json (tx : option Transaction) : option string :=
  match tx with Some tx => json_of_tx tx | None => Some "null" end.

(** The two insertions for a transaction of a pending block. *)
Definition tx_puts (slot : Z) (blockHash : string) (tx : option Transaction) : option batch :=
  txData ← ptr_json tx;
  data ← json_of_meta (NewTxMeta tx slot blockHash TxStatusProcessed "");
  Some [(tx_GetDBKey (ptr_Hash tx), txData); (meta_GetDBKey (ptr_Hash tx), data)].

Definition AddBlockPending (b : option BroadcastedBlock) : ST unit :=
  match b with
  | None => st_throw NilBlock
  | Some b =>
      let slot := bSlot (bb_core b) in
      let key := slotToBlockKey slot in
      exists_ ← db_Has key;
      if (exists_ : bool) then st_throw BlockExists
      else
        value ← st_some MarshalError (json_of_block (BroadcastedBlockToBlock b));
        s ← st_get;
        metaPuts ← (if latestStore s <? slot
                    then (_ ← set_latestStore slot; mret [(latest_store_key, PutUint64 slot)])
                    else mret ([] : batch));
        puts ← st_some MarshalError (mapM (tx_puts slot (HashString (bb_core b))) (block_txs b));
        batch_Write ([(key, value)] ++ metaPuts ++ concat puts)
  end.

Definition finalized_block (blk : Block) : Block :=
  let c := blk_core blk in
  mkBlock (mkCore (bSlot c) (PrevHash c) (LeaderID c) (bTimestamp c) (bHash c) (bSignature c)
             BlockFinalized (InvalidPoH c)) (blk_Entries blk).

(** [hex.DecodeString] of the latest versions. *)
Definition version_puts (latest : gmap string string) : option batch :=
  mapM (λ p : string * string, d ← hex_DecodeString p.2; Some (GetLatestVersionContentKey p.1, d))
    (map_to_list latest).

Definition store_FinalizeBlock (blk : Block) (txMetas : gmap string TransactionMeta)
    (addrAccount : gmap string Account) (latest : gmap string string) : ST unit :=
  let slot := bSlot (blk_core blk) in
  has ← HasCompleteBlock slot;
  if negb has then st_throw BlockMissing
  else
    blkValue ← st_some MarshalError (json_of_block (finalized_block blk));
    metas ← batch_of (meta_GetDBKey ∘ TxHash) json_of_meta (snd <$> map_to_list txMetas);
    accs ← batch_of (account_GetDBKey ∘ Address) json_of_account (snd <$> map_to_list addrAccount);
    versions ← st_some BadHex (version_puts latest);
    s ← st_get;
    let metaPut := if latestFinalized s <? slot then [(latest_finalized_key, PutUint64 slot)] else [] in
    _ ← batch_Write ([(slotToBlockKey slot, blkValue)] ++ metas ++ accs ++ versions ++
                     [(slotToFinalizedKey slot, String (to_byte 1) "")] ++ metaPut);
    set_latestFinalized slot.

Definition GetConfirmations (s : Storage) (blockSlot : Z) : Z :=
  let latest := latestFinalized s in
  if blockSlot <=? latest then u64_add (u64_sub latest blockSlot) 1 else 1.

(** ** The keys of the database *)

Inductive dbkey :=
| KAccount (addr : string) | KTx (h : string) | KMeta (h : string) | KVersion (h : string)
| KBlock (slot : Z) | KFinalized (slot : Z) | KLatestFinalized | KLatestStore.

Definition key_of (k : dbkey) : string :=
  match k with
  | KAccount a => account_GetDBKey a
  | KTx h => tx_GetDBKey h
  | KMeta h => meta_GetDBKey h
  | KVersion h => GetLatestVersionContentKey h
  | KBlock s => slotToBlockKey s
  | KFinalized s => slotToFinalizedKey s
  | KLatestFinalized => latest_finalized_key
  | KLatestStore => latest_store_key
  end.

Definition key_ok (k : dbkey) : Prop :=
  match k with KBlock s | KFinalized s => in_width 64 s | _ => True end.

Lemma key_of_inj (k1 k2 : dbkey) : key_ok k1 → key_ok k2 → key_of k1 = key_of k2 → k1 = k2.
Proof.
  destruct k1, k2; intros H1 H2 E; try done; unfold key_of in E;
    try (unfold slotToBlockKey, slotToFinalizedKey in E; discriminate E);
    try (apply String.app_inj in E; by subst).
  all: apply String.app_inj in E; apply PutUint64_inj in E; by subst.
Qed.

(** Different objects have different database keys: accounts, transactions,
    their metas, content versions, blocks, applied slots and the two counters never
    share a key, and neither do two objects of one kind. *)
Theorem database_keys_injective (k1 k2 : dbkey) :
  key_ok k1 → key_ok k2 → key_of k1 = key_of k2 → k1 = k2.
Proof. apply key_of_inj. Qed.

(** ** Adding a pending block *)

(** The insertions for the transactions of a block. *)
Lemma tx_puts_keys slot bh txs puts k v :
  mapM (tx_puts slot bh) txs = Some puts → (k, v) ∈ concat puts →
  ∃ tx, tx ∈ txs ∧
    ((k = tx_GetDBKey (ptr_Hash tx) ∧ ptr_json tx = Some v) ∨
     (k = meta_GetDBKey (ptr_Hash tx) ∧
      json_of_meta (NewTxMeta tx slot bh TxStatusProcessed "") = Some v)).
Proof.
  intros Hm%mapM_Some Hin. revert Hin. induction Hm as [|tx p txs puts Hp _ IH]; simpl.
  { by intros ?%elem_of_nil. }
  intros [Hin|Hin]%elem_of_app.
  - exists tx. split; [set_solver|]. unfold tx_puts in Hp.
    destruct (ptr_json tx) as [d|] eqn:Ed; [|done]. simpl in Hp.
    destruct (json_of_meta _) as [d'|] eqn:Ed'; [|done]. simpl in Hp. simplify_eq.
    apply elem_of_cons in Hin as [[= -> ->]|Hin]; [by left|].
    apply list_elem_of_singleton in Hin as [= -> ->]. by right.
  - destruct (IH Hin) as (tx' & Htx & Hk). exists tx'. split; [set_solver|done].
Qed.

Lemma tx_puts_in slot bh txs puts tx :
  mapM (tx_puts slot bh) txs = Some puts → tx ∈ txs →
  (∃ v, ptr_json tx = Some v ∧ (tx_GetDBKey (ptr_Hash tx), v) ∈ concat puts) ∧
  (∃ v, json_of_meta (NewTxMeta tx slot bh TxStatusProcessed "") = Some v ∧
        (meta_GetDBKey (ptr_Hash tx), v) ∈ concat puts).
Proof.
  intros Hm%mapM_Some Hin. induction Hm as [|tx' p txs puts Hp _ IH]; [by apply elem_of_nil in Hin|].
  apply elem_of_cons in Hin as [->|Hin]; simpl.
  - unfold tx_puts in Hp. destruct (ptr_json tx') as [d|] eqn:Ed; [|done]. simpl in Hp.
    destruct (json_of_meta _) as [d'|] eqn:Ed'; [|done]. simpl in Hp. simplify_eq.
    split; [exists d|exists d']; set_solver.
  - destruct (IH Hin) as [(v & Hv & Hi) (v' & Hv' & Hi')].
    split; [exists v|exists v']; set_solver.
Qed.

(** What a pending block writes. *)
Definition pending_batch (b : BroadcastedBlock) (latest : Z) (value : string) (puts : list batch) : batch :=
  let slot := bSlot (bb_core b) in
  [(slotToBlockKey slot, value)] ++
  (if latest <? slot then [(latest_store_key, PutUint64 slot)] else []) ++ concat puts.

(** On failure the data are unchanged; on success they are those of the batch. *)
Lemma AddBlockPending_cases b s :
  let slot := bSlot (bb_core b) in
  match AddBlockPending (Some b) s with
  | (Err _, s') => data s' = data s ∧ latestFinalized s' = latestFinalized s
  | (Ok _, s') =>
      data s !! slotToBlockKey slot = None ∧
      ∃ value puts, json_of_block (BroadcastedBlockToBlock b) = Some value ∧
        mapM (tx_puts slot (HashString (bb_core b))) (block_txs b) = Some puts ∧
        data s' = batch_apply (pending_batch b (latestStore s) value puts) (data s) ∧
        latestFinalized s' = latestFinalized s ∧ latestStore s' = Z.max (latestStore s) slot
  end.
Proof.
  intros slot. unfold AddBlockPending. fold slot. rewrite st_bind_eq.
  pose proof (quiet_step (λ d, bool_decide (is_Some (d !! slotToBlockKey slot))) s) as (Q1 & Q2 & Q3).
  fold (db_Has (slotToBlockKey slot)) in Q1, Q2, Q3.
  destruct (db_Has (slotToBlockKey slot) s) as [[ex|e] s1] eqn:Eh; simpl in Q1, Q2, Q3; [|done].
  apply db_Has_ok in Eh. destruct ex; [done|].
  symmetry in Eh. apply bool_decide_eq_false, eq_None_not_Some in Eh.
  destruct (json_of_block (BroadcastedBlockToBlock b)) as [value|]; st_run; [|done].
  rewrite Q3.
  assert (Hfin : ∀ ms puts s2,
    mapM (tx_puts slot (HashString (bb_core b))) (block_txs b) = Some puts →
    data s2 = data s → latestFinalized s2 = latestFinalized s →
    ms = (if latestStore s <? slot then [(latest_store_key, PutUint64 slot)] else []) →
    latestStore s2 = Z.max (latestStore s) slot →
    match batch_Write ([(slotToBlockKey slot, value)] ++ ms ++ concat puts) s2 with
    | (Err _, s') => data s' = data s ∧ latestFinalized s' = latestFinalized s
    | (Ok _, s') => data s !! slotToBlockKey slot = None ∧
      ∃ value0 puts0, Some value = Some value0 ∧
        mapM (tx_puts slot (HashString (bb_core b))) (block_txs b) = Some puts0 ∧
        data s' = batch_apply (pending_batch b (latestStore s) value0 puts0) (data s) ∧
        latestFinalized s' = latestFinalized s ∧ latestStore s' = Z.max (latestStore s) slot
    end).
  { intros ms puts s2 Hp Hd Hf -> Hl.
    match goal with |- context [batch_Write ?bb ?ss] =>
      destruct (batch_Write_cases bb ss) as [(s' & -> & -> & -> & _)|(s' & -> & -> & -> & ->)] end;
      [by rewrite Hd, Hf|].
    split; [done|]. exists value, puts. rewrite Hd. by split_and!. }
  destruct (latestStore s <? slot) eqn:El; st_run;
    destruct (mapM (tx_puts slot (HashString (bb_core b))) (block_txs b)) as [puts|] eqn:Ep;
    st_run; try done; apply Hfin; simpl; try done; blia.
Qed.

(** Every insertion of a pending block has the key of the block, the counter, a
    transaction or a meta. *)
Lemma pending_batch_keys b latest value puts k v :
  mapM (tx_puts (bSlot (bb_core b)) (HashString (bb_core b))) (block_txs b) = Some puts →
  (k, v) ∈ pending_batch b latest value puts →
  (k = key_of (KBlock (bSlot (bb_core b))) ∧ v = value) ∨
  (k = key_of KLatestStore ∧ v = PutUint64 (bSlot (bb_core b)) ∧ latest < bSlot (bb_core b)) ∨
  ∃ tx, tx ∈ block_txs b ∧
    ((k = key_of (KTx (ptr_Hash tx)) ∧ ptr_json tx = Some v) ∨
     (k = key_of (KMeta (ptr_Hash tx)) ∧
      json_of_meta (NewTxMeta tx (bSlot (bb_core b)) (HashString (bb_core b)) TxStatusProcessed "") = Some v)).
Proof.
  intros Hp. unfold pending_batch. intros [Hin|[Hin|Hin]%elem_of_app]%elem_of_app.
  - apply list_elem_of_singleton in Hin as [= -> ->]. by left.
  - destruct (latest <? _) eqn:El; [|by apply elem_of_nil in Hin].
    apply list_elem_of_singleton in Hin as [= -> ->]. right. left. split_and!; [done|done|blia].
  - right. right. by eapply tx_puts_keys.
Qed.

(** So no key of the batch is of another kind. *)
Lemma pending_batch_kinds b latest value puts k v :
  let slot := bSlot (bb_core b) in
  in_width 64 slot →
  mapM (tx_puts slot (HashString (bb_core b))) (block_txs b) = Some puts →
  key_ok k → (key_of k, v) ∈ pending_batch b latest value puts →
  (k = KBlock slot ∧ v = value) ∨ (k = KLatestStore ∧ v = PutUint64 slot ∧ latest < slot) ∨
  ∃ tx, tx ∈ block_txs b ∧ ((k = KTx (ptr_Hash tx) ∧ ptr_json tx = Some v) ∨
    (k = KMeta (ptr_Hash tx) ∧
     json_of_meta (NewTxMeta tx slot (HashString (bb_core b)) TxStatusProcessed "") = Some v)).
Proof.
  intros slot Hs Hp Hok Hin.
  destruct (pending_batch_keys _ _ _ _ _ _ Hp Hin) as [[Ek ?]|[[Ek ?]|(tx & Htx & [[Ek ?]|[Ek ?]])]];
    apply key_of_inj in Ek; try done; subst; eauto 8.
Qed.

(** A block that was added is found, in its pending form. *)
Lemma pending_block_found b s u s' : let slot := bSlot (bb_core b) in
  in_width 64 slot → AddBlockPending (Some b) s = (Ok u, s') →
  data s' !! key_of (KBlock slot) = json_of_block (BroadcastedBlockToBlock b).
Proof.
  intros slot Hs E. pose proof (AddBlockPending_cases b s) as HA. rewrite E in HA.
  destruct HA as (_ & value & puts & Hv & Hp & Hd & _). rewrite Hd, Hv. fold slot in Hp.
  apply batch_apply_in; [unfold pending_batch; fold slot; left|]. intros v' Hin.
  by destruct (pending_batch_kinds b (latestStore s) value puts (KBlock slot) v' Hs Hp Hs Hin)
    as [[_ ?]|[[? _]|(tx & _ & [[? _]|[? _]])]].
Qed.

(** And so are its transactions and their metas. *)
Lemma pending_txs_found b s u s' tx : let slot := bSlot (bb_core b) in
  in_width 64 slot →
  (∀ t1 t2, t1 ∈ block_txs b → t2 ∈ block_txs b → ptr_Hash t1 = ptr_Hash t2 → t1 = t2) →
  AddBlockPending (Some b) s = (Ok u, s') → tx ∈ block_txs b →
  data s' !! key_of (KTx (ptr_Hash tx)) = ptr_json tx ∧
  data s' !! key_of (KMeta (ptr_Hash tx)) =
    json_of_meta (NewTxMeta tx slot (HashString (bb_core b)) TxStatusProcessed "").
Proof.
  intros slot Hs Hh E Htx. pose proof (AddBlockPending_cases b s) as HA. rewrite E in HA.
  destruct HA as (_ & value & puts & _ & Hp & Hd & _). rewrite Hd. fold slot in Hp.
  pose proof (λ k v, pending_batch_kinds b (latestStore s) value puts k v Hs Hp) as Hne. fold slot in Hne.
  destruct (tx_puts_in _ _ _ _ _ Hp Htx) as [(v1 & E1 & I1) (v2 & E2 & I2)].
  rewrite E1, E2. split; apply batch_apply_in;
    try (unfold pending_batch; apply elem_of_app; right; apply elem_of_app; by right).
  - intros v' Hin. destruct (Hne (KTx (ptr_Hash tx)) v' I Hin) as [[? _]|[[? _]|(tx' & Ht & [[Eh Ej]|[? _]])]];
      try done. injection Eh as Eh. rewrite (Hh tx' tx Ht Htx) in Ej by done. congruence.
  - intros v' Hin. destruct (Hne (KMeta (ptr_Hash tx)) v' I Hin) as [[? _]|[[? _]|(tx' & Ht & [[? _]|[Eh Ej]])]];
      try done. injection Eh as Eh. rewrite (Hh tx' tx Ht Htx) in Ej by done. congruence.
Qed.

(** Adding a pending block.  If it fails, whatever the database does, the
    stored data are unchanged.  If it succeeds, there was no block at the slot,
    and afterwards the block is stored in its pending form, each of its
    transactions and a processed meta for it are stored under its hash (where
    transactions of the block with the same hash are the same), the counter of the
    latest slot is the maximum, in memory and, if it grew, in the database, and
    everything else is as before. *)
Theorem pending_block_stored (b : BroadcastedBlock) (s s' : Storage) (r : result StoreError unit) :
  let slot := bSlot (bb_core b) in
  in_width 64 slot →
  (∀ t1 t2, t1 ∈ block_txs b → t2 ∈ block_txs b → ptr_Hash t1 = ptr_Hash t2 → t1 = t2) →
  AddBlockPending (Some b) s = (r, s') →
  match r with
  | Err _ => data s' = data s
  | Ok _ =>
      data s !! key_of (KBlock slot) = None ∧
      data s' !! key_of (KBlock slot) = json_of_block (BroadcastedBlockToBlock b) ∧
      (∀ tx, tx ∈ block_txs b →
         data s' !! key_of (KTx (ptr_Hash tx)) = ptr_json tx ∧
         data s' !! key_of (KMeta (ptr_Hash tx)) =
           json_of_meta (NewTxMeta tx slot (HashString (bb_core b)) TxStatusProcessed "")) ∧
      latestStore s' = Z.max (latestStore s) slot ∧
      data s' !! key_of KLatestStore =
        (if latestStore s <? slot then Some (PutUint64 slot) else data s !! key_of KLatestStore) ∧
      ∀ k, key_ok k → k ≠ KBlock slot → k ≠ KLatestStore →
        (∀ tx, tx ∈ block_txs b → k ≠ KTx (ptr_Hash tx) ∧ k ≠ KMeta (ptr_Hash tx)) →
        data s' !! key_of k = data s !! key_of k
  end.
Proof.
  intros slot Hs Hh E. pose proof (AddBlockPending_cases b s) as HA. rewrite E in HA.
  destruct r as [u|e]; [|by destruct HA].
  pose proof (pending_block_found b s u s' Hs E) as Hb. fold slot in Hb.
  pose proof (λ tx, pending_txs_found b s u s' tx Hs Hh E) as Htxs. fold slot in Htxs.
  destruct HA as (Hno & value & puts & Hv & Hp & Hd & _ & Hl). fold slot in Hp, Hl, Hno.
  pose proof (λ k v, pending_batch_kinds b (latestStore s) value puts k v Hs Hp) as Hne. fold slot in Hne.
  split_and!; [done|done|done|done| |]; rewrite Hd.
  - destruct (latestStore s <? slot) eqn:El.
    + apply batch_apply_in; [unfold pending_batch; fold slot; rewrite El; right; left|].
      intros v' Hin. destruct (Hne KLatestStore v' I Hin) as [[? _]|[[_ [? _]]|(tx & _ & [[? _]|[? _]])]]; done.
    + apply batch_apply_ne. intros ([k v] & Ek & Hin)%list_elem_of_fmap. simpl in Ek. subst k.
      destruct (Hne KLatestStore v I Hin) as [[? _]|[[_ [_ ?]]|(tx & _ & [[? _]|[? _]])]]; try done. blia.
  - intros k Hok H1 H2 H3. apply batch_apply_ne.
    intros ([k' v] & Ek & Hin)%list_elem_of_fmap. simpl in Ek. subst k'.
    destruct (Hne k v Hok Hin) as [[? _]|[[? _]|(tx & Htx & [[? _]|[? _]])]]; try done;
      destruct (H3 tx Htx); done.
Qed.

(** ** Finalizing a block *)

(** A batch given by objects instead of keys. *)
Definition keyed (kb : list (dbkey * string)) : batch := prod_map key_of id <$> kb.

Lemma nodup_fst_unique {A B} (l : list (A * B)) k v w :
  NoDup l.*1 → (k, v) ∈ l → (k, w) ∈ l → v = w.
Proof.
  induction l as [|[k' u] l IH]; [by intros _ ?%elem_of_nil|].
  csimpl. intros [Hn Hnd]%NoDup_cons [[= -> ->]|H1]%elem_of_cons [[= ->]|H2]%elem_of_cons; try done.
  - by destruct (Hn (list_elem_of_fmap_2 fst _ _ H2)).
  - subst. by destruct (Hn (list_elem_of_fmap_2 fst _ _ H1)).
  - by apply IH.
Qed.

Lemma keyed_lookup kb d : Forall key_ok kb.*1 → NoDup kb.*1 →
  (∀ k v, (k, v) ∈ kb → batch_apply (keyed kb) d !! key_of k = Some v) ∧
  (∀ k, key_ok k → k ∉ kb.*1 → batch_apply (keyed kb) d !! key_of k = d !! key_of k).
Proof.
  intros Hok Hnd. rewrite Forall_forall in Hok.
  assert (Hmem : ∀ k v, key_ok k → (key_of k, v) ∈ keyed kb → (k, v) ∈ kb).
  { intros k v Hk ([k' w] & E & Hin)%list_elem_of_fmap. simpl in E. injection E as E ->.
    apply key_of_inj in E as ->; [done|done|]. apply Hok. by apply (list_elem_of_fmap_2 fst _ _ Hin). }
  split.
  - intros k v Hin. pose proof (Hok k (list_elem_of_fmap_2 fst _ _ Hin)) as Hk.
    apply batch_apply_in; [by apply (list_elem_of_fmap_2 (prod_map key_of id) _ _ Hin)|].
    intros v' Hin'%Hmem; [|done]. by eapply nodup_fst_unique.
  - intros k Hk Hn. apply batch_apply_ne. intros ([k' v] & E & Hin)%list_elem_of_fmap.
    simpl in E. subst k'. apply Hn. by apply (list_elem_of_fmap_2 fst _ _ (Hmem _ _ Hk Hin)).
Qed.

(** Slots count in keys modulo 2^64. *)
Definition norm_key (k : dbkey) : dbkey :=
  match k with KBlock s => KBlock (wrap 64 s) | KFinalized s => KFinalized (wrap 64 s) | k => k end.

Lemma norm_key_ok k : key_of (norm_key k) = key_of k ∧ key_ok (norm_key k).
Proof.
  destruct k; simpl; try done; unfold slotToBlockKey, slotToFinalizedKey, PutUint64;
    (split; [by rewrite be_bytes_wrap|by apply wrap_range]).
Qed.

Lemma keyed_lookup_norm kb d : NoDup (norm_key <$> kb.*1) →
  (∀ k v, (k, v) ∈ kb → batch_apply (keyed kb) d !! key_of k = Some v) ∧
  (∀ k, norm_key k ∉ norm_key <$> kb.*1 → batch_apply (keyed kb) d !! key_of k = d !! key_of k).
Proof.
  intros Hnd. set (kb' := prod_map norm_key id <$> kb).
  assert (Hk : kb'.*1 = norm_key <$> kb.*1) by (unfold kb'; rewrite <- !list_fmap_compose; done).
  assert (E : keyed kb = keyed kb').
  { unfold keyed, kb'. rewrite <- list_fmap_compose. apply list_fmap_ext. intros _ [k v] _. simpl.
    by rewrite (proj1 (norm_key_ok k)). }
  rewrite E. destruct (keyed_lookup kb' d) as [Hin Hout].
  - rewrite Hk. apply Forall_fmap, Forall_true. intros k. apply norm_key_ok.
  - by rewrite Hk.
  - split.
    + intros k v Hkv. rewrite <- (proj1 (norm_key_ok k)). apply Hin.
      by apply (list_elem_of_fmap_2 (prod_map norm_key id) _ _ Hkv).
    + intros k Hn. rewrite <- (proj1 (norm_key_ok k)). apply Hout; [apply norm_key_ok|by rewrite Hk].
Qed.

Lemma pairs_keyed {A} (K : string → dbkey) (g : string * A → option (string * string)) l b :
  (∀ p q, p ∈ l → g p = Some q → q.1 = key_of (K p.1)) → mapM g l = Some b →
  ∃ kb, b = keyed kb ∧ kb.*1 = K <$> l.*1 ∧ ∀ p, p ∈ l → ∃ q, g p = Some q ∧ (K p.1, q.2) ∈ kb.
Proof.
  intros Hg Hm%mapM_Some. induction Hm as [|p q l b Hp Hm IH].
  - exists []. split_and!; [done|done|]. by intros p ?%elem_of_nil.
  - destruct IH as (kb & -> & Hk & Hin); [intros; eapply Hg; [by right|done]|].
    exists ((K p.1, q.2) :: kb). split_and!.
    + unfold keyed. csimpl. rewrite <- (Hg p q) by (done || left). by destruct q.
    + csimpl. by rewrite Hk.
    + intros p' [->|Hp']%elem_of_cons; [exists q; split; [done|left]|].
      destruct (Hin p' Hp') as (q' & ? & ?). exists q'. split; [done|by right].
Qed.
(** Accounts and metas are kept under their own address and hash. *)
Definition accounts_keyed (accs : gmap string Account) : Prop :=
  ∀ a acc, accs !! a = Some acc → Address acc = a.
Definition metas_keyed (metas : gmap string TransactionMeta) : Prop :=
  ∀ h m, metas !! h = Some m → TxHash m = h.

(** The batch of a map of values that know their keys. *)
Lemma map_keyed {A} (K : string → dbkey) (key : A → string) (marshal : A → option string)
    (m : gmap string A) b :
  (∀ i a, m !! i = Some a → key a = key_of (K i)) →
  mapM (λ a, v ← marshal a; Some (key a, v)) (snd <$> map_to_list m) = Some b →
  ∃ kb, b = keyed kb ∧ kb.*1 = K <$> (map_to_list m).*1 ∧
    ∀ i a, m !! i = Some a → ∃ v, marshal a = Some v ∧ (K i, v) ∈ kb.
Proof.
  intros Hk Hm.
  assert (Hm' : mapM (λ p : string * A, v ← marshal p.2; Some (key p.2, v)) (map_to_list m) = Some b).
  { rewrite <- Hm. clear. induction (map_to_list m) as [|p l IH]; [done|]. simpl. by rewrite IH. }
  apply (pairs_keyed K) in Hm' as (kb & -> & Hf & Hin).
  - exists kb. split_and!; [done|done|]. intros i a Hi%elem_of_map_to_list.
    destruct (Hin _ Hi) as (q & Hq & Hi'). simpl in Hq.
    destruct (marshal a) as [v|] eqn:Ea; [|done]. simpl in Hq. simplify_eq. by exists v.
  - intros [i a] q Hi%elem_of_map_to_list Hq. simpl in *.
    destruct (marshal a); [|done]. simpl in Hq. simplify_eq. by apply Hk.
Qed.

Lemma versions_keyed latest b : version_puts latest = Some b →
  ∃ kb, b = keyed kb ∧ kb.*1 = KVersion <$> (map_to_list latest).*1 ∧
    ∀ root h, latest !! root = Some h → ∃ v, hex_DecodeString h = Some v ∧ (KVersion root, v) ∈ kb.
Proof.
  intros Hm. apply (pairs_keyed KVersion) in Hm as (kb & -> & Hf & Hin).
  - exists kb. split_and!; [done|done|]. intros i a Hi%elem_of_map_to_list.
    destruct (Hin _ Hi) as (q & Hq & Hi'). simpl in Hq.
    destruct (hex_DecodeString a) as [v|]; [|done]. simpl in Hq. simplify_eq. by exists v.
  - intros [i a] q Hi Hq. simpl in *. destruct (hex_DecodeString a); [|done]. simpl in Hq. by simplify_eq.
Qed.

(** The objects a finalized block writes. *)
Definition finalize_keys (slot latest : Z) (metas : gmap string TransactionMeta)
    (accs : gmap string Account) (versions : gmap string string) : list dbkey :=
  KBlock slot :: (KMeta <$> (map_to_list metas).*1) ++ (KAccount <$> (map_to_list accs).*1) ++
  (KVersion <$> (map_to_list versions).*1) ++
  KFinalized slot :: (if latest <? slot then [KLatestFinalized] else []).

Lemma finalize_keys_nodup slot latest metas accs versions : in_width 64 slot →
  NoDup (finalize_keys slot latest metas accs versions) ∧
  Forall key_ok (finalize_keys slot latest metas accs versions).
Proof.
  intros Hs. unfold finalize_keys.
  assert (Hn : ∀ A (K : string → dbkey) (m : gmap string A), Inj (=) (=) K →
    NoDup (K <$> (map_to_list m).*1)) by (intros; apply NoDup_fmap_2, NoDup_fst_map_to_list; done).
  split.
  - repeat first [ apply NoDup_cons; split | apply NoDup_app; split_and! | apply Hn | apply NoDup_nil_2
                 | case_match ]; try (by intros ?? [= ?]);
      try (intros x Hx; apply list_elem_of_fmap in Hx as (y & -> & _));
      rewrite ?elem_of_app, ?elem_of_cons, ?list_elem_of_fmap, ?elem_of_nil; naive_solver.
  - apply Forall_forall. intros k.
    rewrite elem_of_cons, !elem_of_app, elem_of_cons, !list_elem_of_fmap.
    destruct (latest <? slot); rewrite ?list_elem_of_singleton, ?elem_of_nil; naive_solver.
Qed.

(** Whatever the slot, a finalized block writes no key twice. *)
Lemma finalize_norm_nodup slot latest metas accs versions :
  NoDup (norm_key <$> finalize_keys slot latest metas accs versions).
Proof.
  set (l := if latest <? slot then -1 else wrap 64 slot).
  pose proof (wrap_range 64 slot ltac:(lia)) as Hw.
  assert (E : norm_key <$> finalize_keys slot latest metas accs versions =
    finalize_keys (wrap 64 slot) l metas accs versions).
  { unfold finalize_keys, l. csimpl. rewrite !fmap_app. csimpl. rewrite <- !list_fmap_compose.
    do 5 f_equal. destruct (latest <? slot); [rewrite (proj2 (Z.ltb_lt _ _)) by (unfold in_width in Hw; lia)
      |rewrite (proj2 (Z.ltb_ge _ _)) by lia]; done. }
  rewrite E. by apply finalize_keys_nodup.
Qed.

(** On failure nothing changes; on success the objects are written. *)
Lemma FinalizeBlock_cases blk metas accs latest s :
  let slot := bSlot (blk_core blk) in
  metas_keyed metas → accounts_keyed accs →
  match store_FinalizeBlock blk metas accs latest s with
  | (Err _, s') => data s' = data s ∧ latestFinalized s' = latestFinalized s ∧ latestStore s' = latestStore s
  | (Ok _, s') =>
      is_Some (data s !! key_of (KBlock slot)) ∧ latestFinalized s' = slot ∧ latestStore s' = latestStore s ∧
      ∃ kb bv, data s' = batch_apply (keyed kb) (data s) ∧
        kb.*1 = finalize_keys slot (latestFinalized s) metas accs latest ∧
        json_of_block (finalized_block blk) = Some bv ∧ (KBlock slot, bv) ∈ kb ∧
        (∀ h m, metas !! h = Some m → ∃ v, json_of_meta m = Some v ∧ (KMeta h, v) ∈ kb) ∧
        (∀ a acc, accs !! a = Some acc → ∃ v, json_of_account acc = Some v ∧ (KAccount a, v) ∈ kb) ∧
        (∀ root h, latest !! root = Some h → ∃ v, hex_DecodeString h = Some v ∧ (KVersion root, v) ∈ kb) ∧
        (KFinalized slot, String (to_byte 1) "") ∈ kb ∧
        (latestFinalized s < slot → (KLatestFinalized, PutUint64 slot) ∈ kb)
  end.
Proof.
  intros slot Hm Ha. unfold store_FinalizeBlock, HasCompleteBlock. fold slot. rewrite st_bind_eq.
  unfold or_false.
  pose proof (quiet_step (λ d, bool_decide (is_Some (d !! slotToBlockKey slot))) s) as (Q1 & Q2 & Q3).
  fold (db_Has (slotToBlockKey slot)) in Q1, Q2, Q3.
  destruct (db_Has (slotToBlockKey slot) s) as [[ex|e] s1] eqn:Eh; simpl in Q1, Q2, Q3; [|done].
  apply db_Has_ok in Eh. destruct ex; [|done]. symmetry in Eh. apply bool_decide_eq_true in Eh.
  unfold batch_of.
  destruct (json_of_block (finalized_block blk)) as [bv|] eqn:Eb; st_run; [|done].
  destruct (mapM _ (snd <$> map_to_list metas)) as [mb|] eqn:Em; st_run; [|done].
  destruct (mapM _ (snd <$> map_to_list accs)) as [ab|] eqn:Ea; st_run; [|done].
  destruct (version_puts latest) as [vb|] eqn:Ev; st_run; [|done].
  apply (map_keyed KMeta) in Em as (mk & -> & Emk & Hmk); [|intros i m Hi; simpl; by rewrite (Hm i m)].
  apply (map_keyed KAccount) in Ea as (ak & -> & Eak & Hak); [|intros i a Hi; simpl; by rewrite (Ha i a)].
  apply versions_keyed in Ev as (vk & -> & Evk & Hvk).
  match goal with |- context [batch_Write ?bb ?ss] =>
    destruct (batch_Write_cases bb ss) as [(s' & -> & -> & -> & ->)|(s' & -> & -> & Ef & Es)] end;
    cbn [data latestFinalized latestStore]; [done|].
  split_and!; [done|done|by rewrite Es|].
  set (lk := if latestFinalized s <? slot then [(KLatestFinalized, PutUint64 slot)] else []).
  exists ((KBlock slot, bv) :: mk ++ ak ++ vk ++ (KFinalized slot, String (to_byte 1) "") :: lk), bv.
  split_and!.
  - rewrite Q1. f_equal. unfold keyed. csimpl. rewrite !fmap_app. csimpl. rewrite Q2. unfold lk.
    by destruct (latestFinalized s <? slot).
  - unfold finalize_keys. csimpl. rewrite !fmap_app. csimpl. rewrite Emk, Eak, Evk. unfold lk.
    by destruct (latestFinalized s <? slot).
  - done.
  - left.
  - intros h m Hi. destruct (Hmk h m Hi) as (v & ? & ?). exists v. split; [done|]. set_solver.
  - intros a acc Hi. destruct (Hak a acc Hi) as (v & ? & ?). exists v. split; [done|]. set_solver.
  - intros root h Hi. destruct (Hvk root h Hi) as (v & ? & ?). exists v. split; [done|]. set_solver.
  - set_solver.
  - intros Hlt. unfold lk. rewrite (proj2 (Z.ltb_lt _ _)) by done. set_solver.
Qed.

(** [C5] Finalizing a block.  If it fails, whatever the database does, neither
    the stored data nor the counters change.  If it succeeds, the block was stored
    before; afterwards it is stored as finalized, its slot is marked as applied,
    every given account, meta and content version is stored, the counter in the
    database is the slot if that is larger than the one in memory, and everything
    else is as before. *)
Theorem finalize_atomic (blk : Block) (metas : gmap string TransactionMeta)
    (accs : gmap string Account) (latest : gmap string string) (s s' : Storage)
    (r : result StoreError unit) :
  let slot := bSlot (blk_core blk) in
  in_width 64 slot → metas_keyed metas → accounts_keyed accs →
  store_FinalizeBlock blk metas accs latest s = (r, s') →
  match r with
  | Err _ => data s' = data s ∧ latestFinalized s' = latestFinalized s ∧ latestStore s' = latestStore s
  | Ok _ =>
      is_Some (data s !! key_of (KBlock slot)) ∧
      data s' !! key_of (KBlock slot) = json_of_block (finalized_block blk) ∧
      is_Some (data s' !! key_of (KFinalized slot)) ∧
      (∀ a acc, accs !! a = Some acc → data s' !! key_of (KAccount a) = json_of_account acc) ∧
      (∀ h m, metas !! h = Some m → data s' !! key_of (KMeta h) = json_of_meta m) ∧
      (∀ root h, latest !! root = Some h → data s' !! key_of (KVersion root) = hex_DecodeString h) ∧
      data s' !! key_of KLatestFinalized =
        (if latestFinalized s <? slot then Some (PutUint64 slot) else data s !! key_of KLatestFinalized) ∧
      latestFinalized s' = slot ∧
      ∀ k, key_ok k → k ∉ finalize_keys slot (latestFinalized s) metas accs latest →
        data s' !! key_of k = data s !! key_of k
  end.
Proof.
  intros slot Hs Hm Ha E. pose proof (FinalizeBlock_cases blk metas accs latest s Hm Ha) as HC.
  rewrite E in HC. destruct r as [u|e]; [|done]. fold slot in HC.
  destruct HC as (Hb & Hf & _ & kb & bv & -> & Hk & Hbv & Hib & Hmk & Hak & Hvk & Hfk & Hlk).
  destruct (finalize_keys_nodup slot (latestFinalized s) metas accs latest Hs) as [Hnd Hok].
  rewrite <- Hk in Hnd, Hok. destruct (keyed_lookup kb (data s) Hok Hnd) as [Hin Hout].
  rewrite Hk in Hout. split_and!; try done.
  - by rewrite Hbv, (Hin _ _ Hib).
  - by rewrite (Hin _ _ Hfk).
  - intros a acc (v & -> & Hv)%Hak. by rewrite (Hin _ _ Hv).
  - intros h m (v & -> & Hv)%Hmk. by rewrite (Hin _ _ Hv).
  - intros root h (v & -> & Hv)%Hvk. by rewrite (Hin _ _ Hv).
  - destruct (latestFinalized s <? slot) eqn:El; [by rewrite (Hin _ _ (Hlk ltac:(blia)))|].
    apply Hout; [done|]. unfold finalize_keys. rewrite El.
    rewrite elem_of_cons, !elem_of_app, elem_of_cons, !list_elem_of_fmap, elem_of_nil. naive_solver.
Qed.

(** The counter of the latest finalized slot in the database is the one in
    memory; it is absent before the first block. *)
Definition counter_persisted (s : Storage) : Prop :=
  in_width 64 (latestFinalized s) ∧
  (data s !! key_of KLatestFinalized = Some (PutUint64 (latestFinalized s)) ∨
   (data s !! key_of KLatestFinalized = None ∧ latestFinalized s = 0)).

Lemma load_counter d :
  latestFinalized (snd (NewGenericBlockStore d [])) =
    match d !! key_of KLatestFinalized with
    | Some v => if string_len v =? 8 then Uint64 v else 0
    | None => 0
    end ∧
  (d !! key_of KLatestFinalized = None → latestStore (snd (NewGenericBlockStore d [])) = 0).
Proof.
  unfold NewGenericBlockStore, loadLatestFinalized, read_counter, db_Get, db_step. st_run. simpl.
  change latest_finalized_key with (key_of KLatestFinalized).
  destruct (d !! key_of KLatestFinalized) as [v|]; [|done]. st_run.
  destruct (string_len v =? 8); st_run; [|done]. split; [|done]. simpl.
  destruct (d !! latest_store_key) as [w|]; st_run; [|done]. by destruct (string_len w =? 8).
Qed.

(** The counters across a restart.  After a block is finalized the counter
    in memory is its slot, also when a later slot was finalized before, while a
    restart reads the largest slot: the two agree exactly if the slot is not older
    than the latest one.  And a store in which nothing is finalized loads zero as
    its latest stored slot, whatever was stored. *)
Theorem restart_counters (blk : Block) (metas : gmap string TransactionMeta)
    (accs : gmap string Account) (latest : gmap string string) (s s' : Storage) :
  let slot := bSlot (blk_core blk) in
  in_width 64 slot → metas_keyed metas → accounts_keyed accs → counter_persisted s →
  store_FinalizeBlock blk metas accs latest s = (Ok tt, s') →
  let restarted := snd (NewGenericBlockStore (data s') []) in
  latestFinalized s' = slot ∧ latestFinalized restarted = Z.max (latestFinalized s) slot ∧
  (latestFinalized restarted = latestFinalized s' ↔ latestFinalized s ≤ slot) ∧
  (data s !! key_of KLatestFinalized = None → latestStore (snd (NewGenericBlockStore (data s) [])) = 0).
Proof.
  intros slot Hs Hm Ha [Hw Hp] E. pose proof (FinalizeBlock_cases blk metas accs latest s Hm Ha) as HC.
  rewrite E in HC. fold slot in HC.
  destruct HC as (_ & Hf & _ & kb & bv & Hd & Hk & _ & _ & _ & _ & _ & _ & Hlk).
  destruct (finalize_keys_nodup slot (latestFinalized s) metas accs latest Hs) as [Hnd Hok].
  rewrite <- Hk in Hnd, Hok. destruct (keyed_lookup kb (data s) Hok Hnd) as [Hin Hout].
  assert (Hmax : latestFinalized (snd (NewGenericBlockStore (data s') [])) = Z.max (latestFinalized s) slot).
  { rewrite (proj1 (load_counter (data s'))), Hd.
    destruct (latestFinalized s <? slot) eqn:El.
    - rewrite (Hin _ _ (Hlk ltac:(blia))). change (string_len (PutUint64 slot) =? 8) with true.
      simpl. rewrite Uint64_PutUint64 by done. blia.
    - rewrite Hout; [|done|].
      + destruct Hp as [->|[-> Hz]]; [|simpl; unfold in_width in *; blia].
        change (string_len (PutUint64 (latestFinalized s)) =? 8) with true. simpl.
        rewrite Uint64_PutUint64 by done. blia.
      + rewrite Hk. unfold finalize_keys. rewrite El.
        rewrite elem_of_cons, !elem_of_app, elem_of_cons, !list_elem_of_fmap, elem_of_nil. naive_solver. }
  split_and!; [done|done|rewrite Hmax, Hf; lia|apply load_counter].
Qed.

End BlockStore.

(** ** A concrete codec and store *)

(** Decimal numbers, without a sign. *)
Fixpoint parse_digits (acc : Z) (s : string) : option Z :=
  match s with
  | EmptyString => Some acc
  | String c s' =>
      let v := byte_at c in
      if (48 <=? v) && (v <=? 57) then parse_digits (10 * acc + (v - 48)) s' else None
  end.

Definition example_txs : list Transaction :=
  [example_tx; example_sign (example_unsigned 1 7 4 "carol")].

(** Accounts are printed field by field; a transaction is decoded by finding it
    among the examples. *)
Definition example_codec : StoreCodec := {|
  json_to_tx v := head (filter (λ t, @json_of_tx example_tx_env t = Some v) example_txs);
  json_of_account a := Some (Address a +:+ "|" +:+ fmt_d (Balance a) +:+ "|" +:+ fmt_d (aNonce a));
  json_to_account v :=
    match Split (to_byte 124) v with
    | [a; b; n] => b ← parse_digits 0 b; n ← parse_digits 0 n; Some (mkAccount a b n)
    | _ => None
    end;
  json_of_block b := Some ("block" +:+ fmt_d (bSlot (blk_core b)));
  json_to_block _ := None;
  json_of_meta m := Some (fmt_d (mStatus m) +:+ TxHash m);
  json_to_meta _ := None;
|}.

Definition example_block (slot : Z) : BroadcastedBlock :=
  @AssembleBlock example_tx_env slot zero_hash example_addr
    [NewTxEntry 1 zero_hash [Some example_tx]; NewTickEntry 5 zero_hash] 9.

Definition empty_storage : Storage := mkStorage ∅ [] 0 0.

(** The store after the block of slot 5 was added. *)
Definition example_pending : Storage :=
  snd (@AddBlockPending example_tx_env example_codec (Some (example_block 5)) empty_storage).

Lemma example_block_txs slot t1 t2 :
  t1 ∈ block_txs (example_block slot) → t2 ∈ block_txs (example_block slot) → t1 = t2.
Proof. intros H1 H2. apply list_elem_of_singleton in H1, H2. by subst. Qed.

Lemma pending_block_stored_witness :
  data example_pending !! key_of (KBlock 5) = Some "block5" ∧ latestStore example_pending = 5 ∧
  latestStore (snd (@AddBlockPending example_tx_env example_codec (Some (example_block 5))
                      (mkStorage ∅ [false; true] 0 0))) = 5.
Proof.
  assert (E : @AddBlockPending example_tx_env example_codec (Some (example_block 5)) empty_storage
              = (Ok tt, example_pending)) by (vm_compute; reflexivity).
  destruct (@pending_block_stored example_tx_env example_codec (example_block 5) empty_storage
    example_pending (Ok tt) ltac:(done) (λ t1 t2 H1 H2 _, example_block_txs 5 t1 t2 H1 H2) E)
    as (_ & Hb & _ & Hl & _).
  split; [exact Hb|]. split; [exact Hl | vm_compute; reflexivity].
Defined.

Definition example_accounts : gmap string Account := {[ "bob" := mkAccount "bob" 12 0 ]}.

Lemma example_accounts_keyed : accounts_keyed example_accounts.
Proof. intros a acc. unfold example_accounts. by intros [<- <-]%lookup_singleton_Some. Qed.

Lemma metas_keyed_empty : metas_keyed ∅.
Proof. by intros h m Hm. Qed.

Lemma example_slot_ok : in_width 64 5.
Proof. done. Qed.

Definition example_finalize (s : Storage) : result StoreError unit * Storage :=
  @store_FinalizeBlock example_codec (@BroadcastedBlockToBlock example_tx_env (example_block 5)) ∅
    example_accounts ∅ s.

Lemma finalize_atomic_witness :
  data (snd (example_finalize example_pending)) !! key_of (KAccount "bob") = Some "bob|12|0" ∧
  latestFinalized (snd (example_finalize example_pending)) = 5.
Proof.
  assert (E : example_finalize example_pending = (Ok tt, snd (example_finalize example_pending)))
    by (vm_compute; reflexivity).
  destruct (@finalize_atomic example_codec (@BroadcastedBlockToBlock example_tx_env (example_block 5)) ∅
    example_accounts ∅ example_pending (snd (example_finalize example_pending)) (Ok tt)
    example_slot_ok metas_keyed_empty example_accounts_keyed E) as (_ & _ & _ & Ha & _ & _ & _ & Hl & _).
  split; [exact (Ha "bob" (mkAccount "bob" 12 0) eq_refl) | exact Hl].
Defined.

(** The block of slot 5 is finalized after slot 9. *)
Definition example_late : Storage :=
  mkStorage (<[key_of KLatestFinalized := PutUint64 9]> (data example_pending)) [] 9 5.

Lemma example_late_persisted : counter_persisted example_late.
Proof.
  unfold counter_persisted, example_late. cbn [latestFinalized data].
  split; [done|]. left. apply lookup_insert_eq.
Qed.

Lemma restart_counters_witness :
  latestFinalized (snd (example_finalize example_late)) = 5 ∧
  latestFinalized (snd (NewGenericBlockStore (data (snd (example_finalize example_late))) [])) = 9.
Proof.
  assert (E : example_finalize example_late = (Ok tt, snd (example_finalize example_late)))
    by (vm_compute; reflexivity).
  destruct (@restart_counters example_codec (@BroadcastedBlockToBlock example_tx_env (example_block 5)) ∅
    example_accounts ∅ example_late (snd (example_finalize example_late))
    example_slot_ok metas_keyed_empty example_accounts_keyed example_late_persisted E) as (H1 & H2 & _).
  split; [exact H1 | exact H2].
Defined.

Lemma database_keys_injective_witness : key_of (KBlock 5) ≠ key_of (KFinalized 5).
Proof.
  intros E. assert (Hk : KBlock 5 = KFinalized 5); [|discriminate Hk].
  apply (database_keys_injective (KBlock 5) (KFinalized 5)); [by split|by split|exact E].
Defined.
