(* ===== verification/Locks.v ===== *)
(** * The locks of the slots (store/blockstore.go)

    Goroutines that store or finalize the block of a slot take a lock of that slot, which
    is made when it is first needed and thrown away when the slot is old.  The state has the
    table of locks, their owners, the latest finalized slot, the stored blocks and the
    goroutines; one step is one atomic operation of one of them, so a run is any
    interleaving.  The batch a goroutine writes is its block. *)

From stdpp Require Import base gmap strings relations.
From Stdlib Require Import ZArith Lia.
From S2P Require Import Prelude.

Open Scope string_scope.
Open Scope Z_scope.

(** [StartPeriodicCleanup] is started with this number of slots. *)
Definition keepRecentSlots : Z := 1000.

(** Where a goroutine is: before [Load], before [LoadOrStore], before [Lock] of a lock,
    before the check for a block, before the write, before [Unlock], or done, with or without
    having written. *)
Inductive pc :=
| AtLoad | AtStore | AtLock (l : nat) | AtCheck (l : nat) | AtWrite (l : nat) | AtUnlock (l : nat) (wrote : bool)
| AtEnd (wrote : bool).

(** [AddBlockPending] or [FinalizeBlock] of a block. *)
Record thread := mkThread { th_slot : Z; th_block : string; th_final : bool; th_pc : pc }.
Definition at_pc (t : thread) (p : pc) : thread := mkThread (th_slot t) (th_block t) (th_final t) p.

Record Slots := mkSlots {
  slotLocks : gmap Z nat; owner : gmap nat nat; fresh : nat; latest : Z; stored : gmap Z string;
  threads : gmap nat thread;
}.

Definition moved (i : nat) (t : thread) (p : pc) (s : Slots) : Slots :=
  mkSlots (slotLocks s) (owner s) (fresh s) (latest s) (stored s) (<[i := at_pc t p]> (threads s)).
Definition with_locks (m : gmap Z nat) (f : nat) (s : Slots) : Slots :=
  mkSlots m (owner s) f (latest s) (stored s) (threads s).
Definition with_owner (m : gmap nat nat) (s : Slots) : Slots :=
  mkSlots (slotLocks s) m (fresh s) (latest s) (stored s) (threads s).
Definition with_stored (m : gmap Z string) (s : Slots) : Slots :=
  mkSlots (slotLocks s) (owner s) (fresh s) (latest s) m (threads s).

(** [AddBlockPending] checks for a block under the lock; [FinalizeBlock] has checked before. *)
Definition locked_pc (t : thread) (l : nat) : pc := if th_final t then AtWrite l else AtCheck l.

(** The next operation of goroutine [i]; [None] when it is done or waits for a lock. *)
Definition run_thread (i : nat) (s : Slots) : option Slots :=
  t ← threads s !! i;
  match th_pc t with
  | AtLoad =>
      Some (match slotLocks s !! th_slot t with
            | Some l => moved i t (AtLock l) s
            | None => moved i t AtStore s
            end)
  | AtStore =>
      Some (match slotLocks s !! th_slot t with
            | Some l => moved i t (AtLock l) s
            | None =>
                moved i t (AtLock (fresh s)) (with_locks (<[th_slot t := fresh s]> (slotLocks s)) (S (fresh s)) s)
            end)
  | AtLock l =>
      match owner s !! l with
      | Some _ => None
      | None => Some (moved i t (locked_pc t l) (with_owner (<[l := i]> (owner s)) s))
      end
  | AtCheck l =>
      Some (match stored s !! th_slot t with
            | Some _ => moved i t (AtUnlock l false) s
            | None => moved i t (AtWrite l) s
            end)
  | AtWrite l => Some (moved i t (AtUnlock l true) (with_stored (<[th_slot t := th_block t]> (stored s)) s))
  | AtUnlock l w => Some (moved i t (AtEnd w) (with_owner (delete l (owner s)) s))
  | AtEnd _ => None
  end.

(** [CleanupOldSlotLocks] deletes the lock of an old slot.  The latest slot it has read is
    not later than the current one. *)
Definition cleanup_slot (keep slot : Z) (s : Slots) : Slots :=
  if (keep <=? latest s) && (slot <? latest s - keep) then with_locks (delete slot (slotLocks s)) (fresh s) s else s.

Definition finalized (slot : Z) (s : Slots) : Slots :=
  mkSlots (slotLocks s) (owner s) (fresh s) (Z.max (latest s) slot) (stored s) (threads s).
Definition started (i : nat) (t : thread) (s : Slots) : Slots :=
  mkSlots (slotLocks s) (owner s) (fresh s) (latest s) (stored s) (<[i := at_pc t AtLoad]> (threads s)).

Inductive step : relation Slots :=
| step_thread i s s' : run_thread i s = Some s' → step s s'
| step_start i t s : threads s !! i = None → step s (started i t s)
| step_finalized slot s : step s (finalized slot s)
| step_cleanup slot s : step s (cleanup_slot keepRecentSlots slot s).

(** Goroutines work on slots that are not older than the locks that are kept. *)
Definition running (p : pc) : bool := match p with AtEnd _ => false | _ => true end.
Definition recent (s : Slots) : Prop :=
  ∀ i t, threads s !! i = Some t → running (th_pc t) = true → latest s - keepRecentSlots ≤ th_slot t.
Definition recent_step (s s' : Slots) : Prop := recent s ∧ step s s'.

Definition empty_store (latest : Z) (stored : gmap Z string) : Slots := mkSlots ∅ ∅ 0 latest stored ∅.

(** ** Exclusion *)

(** The lock a goroutine works with, and whether it has it. *)
Definition uses (p : pc) : option nat :=
  match p with AtLock l | AtCheck l | AtWrite l | AtUnlock l _ => Some l | _ => None end.
Definition critical (p : pc) : option nat :=
  match p with AtCheck l | AtWrite l | AtUnlock l _ => Some l | _ => None end.

Record locks_ok (s : Slots) : Prop := {
  lk_registered i t l : threads s !! i = Some t → uses (th_pc t) = Some l → slotLocks s !! th_slot t = Some l;
  lk_owner i t l : threads s !! i = Some t → critical (th_pc t) = Some l → owner s !! l = Some i;
  lk_absent i t l : threads s !! i = Some t → th_pc t = AtWrite l → th_final t = false → stored s !! th_slot t = None;
}.

Lemma critical_uses p l : critical p = Some l → uses p = Some l.
Proof. by destruct p. Qed.

(** Two goroutines of one slot do not have its lock at the same time. *)
Lemma exclusive s i j ti tj li lj : locks_ok s → threads s !! i = Some ti → threads s !! j = Some tj →
  critical (th_pc ti) = Some li → critical (th_pc tj) = Some lj → th_slot ti = th_slot tj → i = j.
Proof.
  intros Hs Hi Hj Ci Cj He. pose proof (lk_registered s Hs i ti li Hi (critical_uses _ _ Ci)) as Ri.
  pose proof (lk_registered s Hs j tj lj Hj (critical_uses _ _ Cj)) as Rj. rewrite He, Rj in Ri. simplify_eq.
  pose proof (lk_owner s Hs i ti li Hi Ci). pose proof (lk_owner s Hs j tj li Hj Cj). congruence.
Qed.

Lemma moved_lookup i t p s j t' : threads (moved i t p s) !! j = Some t' →
  (j = i ∧ t' = at_pc t p) ∨ (j ≠ i ∧ threads s !! j = Some t').
Proof.
  cbn [moved threads]. intros [[<- <-]|[Hn H]]%lookup_insert_Some; [by left|]. right. by split.
Qed.

(** A goroutine moves without touching anything else. *)
Lemma locks_ok_moved i t p s : locks_ok s → threads s !! i = Some t →
  (∀ l, uses p = Some l → slotLocks s !! th_slot t = Some l) →
  (∀ l, critical p = Some l → owner s !! l = Some i) →
  (∀ l, p = AtWrite l → th_final t = false → stored s !! th_slot t = None) → locks_ok (moved i t p s).
Proof.
  intros Hs Hi H1 H2 H3. split.
  - intros j t' l [[-> ->]|[Hn Hj]]%moved_lookup; [apply H1|by apply (lk_registered s Hs j)].
  - intros j t' l [[-> ->]|[Hn Hj]]%moved_lookup; [apply H2|by apply (lk_owner s Hs j)].
  - intros j t' l [[-> ->]|[Hn Hj]]%moved_lookup; [apply H3|by apply (lk_absent s Hs j)].
Qed.

(** The lock of a slot is made. *)
Lemma locks_ok_new i t s : locks_ok s → threads s !! i = Some t → slotLocks s !! th_slot t = None →
  locks_ok (moved i t (AtLock (fresh s)) (with_locks (<[th_slot t := fresh s]> (slotLocks s)) (S (fresh s)) s)).
Proof.
  intros Hs Hi Hn. apply locks_ok_moved; [|done| |done|done].
  - split; [|apply (lk_owner s Hs)|apply (lk_absent s Hs)]. intros j t' l Hj Hu. cbn [slotLocks with_locks].
    pose proof (lk_registered s Hs j t' l Hj Hu). rewrite lookup_insert_ne; [done|]. intros E. rewrite E in Hn. congruence.
  - intros l [= <-]. cbn [slotLocks with_locks]. by rewrite lookup_insert_eq.
Qed.

(** A lock is taken. *)
Lemma locks_ok_taken i t l s : locks_ok s → threads s !! i = Some t → th_pc t = AtLock l → owner s !! l = None →
  locks_ok (moved i t (locked_pc t l) (with_owner (<[l := i]> (owner s)) s)).
Proof.
  intros Hs Hi Hp Ho. pose proof (lk_registered s Hs i t l Hi) as Hr. rewrite Hp in Hr. specialize (Hr eq_refl).
  assert (∀ x, uses (locked_pc t l) = Some x → x = l) as Hx by (unfold locked_pc; destruct (th_final t); by intros x [= <-]).
  apply locks_ok_moved; [|done| | |].
  - split; [apply (lk_registered s Hs)| |apply (lk_absent s Hs)]. intros j t' l' Hj Hc. cbn [owner with_owner].
    pose proof (lk_owner s Hs j t' l' Hj Hc). rewrite lookup_insert_ne; [done|]. intros ->. congruence.
  - intros x ->%Hx. done.
  - intros x ->%critical_uses%Hx. cbn [owner with_owner]. by rewrite lookup_insert_eq.
  - intros x Hw Hf. unfold locked_pc in Hw. by rewrite Hf in Hw.
Qed.

(** A block is written under the lock. *)
Lemma locks_ok_written i t l s : locks_ok s → threads s !! i = Some t → th_pc t = AtWrite l →
  locks_ok (moved i t (AtUnlock l true) (with_stored (<[th_slot t := th_block t]> (stored s)) s)).
Proof.
  intros Hs Hi Hp. assert (critical (th_pc t) = Some l) as Hc by by rewrite Hp.
  split.
  - intros j t' l' [[-> ->]|[Hn Hj]]%moved_lookup; [|by apply (lk_registered s Hs j)].
    intros [= <-]. exact (lk_registered s Hs i t l Hi (critical_uses _ _ Hc)).
  - intros j t' l' [[-> ->]|[Hn Hj]]%moved_lookup; [|by apply (lk_owner s Hs j)].
    intros [= <-]. exact (lk_owner s Hs i t l Hi Hc).
  - intros j t' l' [[-> ->]|[Hn Hj]]%moved_lookup; [done|]. intros Hw Hf. cbn [stored moved with_stored].
    rewrite lookup_insert_ne; [by eapply (lk_absent s Hs j)|]. intros E. apply Hn.
    apply (exclusive s j i t' t l' l); try done. by rewrite Hw.
Qed.

(** A lock is released. *)
Lemma locks_ok_released i t l w s : locks_ok s → threads s !! i = Some t → th_pc t = AtUnlock l w →
  locks_ok (moved i t (AtEnd w) (with_owner (delete l (owner s)) s)).
Proof.
  intros Hs Hi Hp. assert (owner s !! l = Some i) as Ho by (apply (lk_owner s Hs i t l Hi); by rewrite Hp). split.
  - intros j t' l' [[-> ->]|[Hn Hj]]%moved_lookup; [done|by apply (lk_registered s Hs j)].
  - intros j t' l' [[-> ->]|[Hn Hj]]%moved_lookup; [done|]. intros Hc. cbn [owner moved with_owner].
    pose proof (lk_owner s Hs j t' l' Hj Hc). rewrite lookup_delete_ne; [done|]. intros ->. congruence.
  - intros j t' l' [[-> ->]|[Hn Hj]]%moved_lookup; [done|by apply (lk_absent s Hs j)].
Qed.

Lemma run_thread_ok i s s' : locks_ok s → run_thread i s = Some s' → locks_ok s'.
Proof.
  intros Hs. unfold run_thread. destruct (threads s !! i) as [t|] eqn:Hi; [|done]. cbn [mbind option_bind].
  assert (∀ l, slotLocks s !! th_slot t = Some l → locks_ok (moved i t (AtLock l) s)) as Hhit.
  { intros l Hl. apply locks_ok_moved; try done. by intros x [= <-]. }
  destruct (th_pc t) as [| |l|l|l|l w|w] eqn:Hp.
  - destruct (slotLocks s !! th_slot t) as [l|] eqn:El; intros [= <-]; [by apply Hhit|]. by apply locks_ok_moved.
  - destruct (slotLocks s !! th_slot t) as [l|] eqn:El; intros [= <-]; [by apply Hhit|]. by apply locks_ok_new.
  - destruct (owner s !! l) as [o|] eqn:Eo; [done|]. intros [= <-]. by apply locks_ok_taken.
  - assert (critical (th_pc t) = Some l) as Hc by by rewrite Hp.
    pose proof (lk_registered s Hs i t l Hi (critical_uses _ _ Hc)) as Hr. pose proof (lk_owner s Hs i t l Hi Hc) as Ho.
    destruct (stored s !! th_slot t) as [b|] eqn:Eb; intros [= <-]; apply locks_ok_moved; try done;
      by intros x [= <-].
  - intros [= <-]. by apply locks_ok_written.
  - intros [= <-]. by apply locks_ok_released.
  - done.
Qed.

Lemma step_ok s s' : recent s → locks_ok s → step s s' → locks_ok s'.
Proof.
  intros Hr Hs. destruct 1 as [i s s' H|i t s Hn|slot s|slot s].
  - by eapply run_thread_ok.
  - split; intros j t' l; cbn [started threads slotLocks owner stored]; intros [[<- <-]|[_ Hj]]%lookup_insert_Some;
      [done|by apply (lk_registered s Hs j)|done|by apply (lk_owner s Hs j)|done|by apply (lk_absent s Hs j)].
  - split; [apply (lk_registered s Hs)|apply (lk_owner s Hs)|apply (lk_absent s Hs)].
  - unfold cleanup_slot. destruct (_ && _) eqn:E; [|done]. apply andb_true_iff in E as [_ E%Z.ltb_lt].
    split; [|apply (lk_owner s Hs)|apply (lk_absent s Hs)]. intros j t l Hj Hu. cbn [slotLocks with_locks].
    rewrite lookup_delete_ne; [by apply (lk_registered s Hs j t l)|]. intros Hx.
    assert (running (th_pc t) = true) as Hrun by by destruct (th_pc t). pose proof (Hr j t Hj Hrun). lia.
Qed.

(** [C6] The locks of the slots exclude, and a stored block is not replaced.  In every run
    from a store without goroutines, in any interleaving of goroutines that store and
    finalize blocks, of the finalizing of slots and of the periodic cleanup, as long as no
    goroutine works on a slot more than [keepRecentSlots] behind the latest one: no two
    goroutines are between [Lock] and [Unlock] for the same slot, and a step that changes the
    block of a slot that has one is the write of [FinalizeBlock]. *)
Theorem slot_locks_exclude (l0 : Z) (m0 : gmap Z string) (s s' : Slots) :
  rtc recent_step (empty_store l0 m0) s → recent_step s s' →
  (∀ i j ti tj li lj, threads s !! i = Some ti → threads s !! j = Some tj → critical (th_pc ti) = Some li →
     critical (th_pc tj) = Some lj → th_slot ti = th_slot tj → i = j) ∧
  (∀ slot b, stored s !! slot = Some b → stored s' !! slot ≠ Some b →
     ∃ i t l, threads s !! i = Some t ∧ th_pc t = AtWrite l ∧ th_final t = true ∧ th_slot t = slot).
Proof.
  intros Hrun [Hr Hstep].
  assert (locks_ok s) as Hs.
  { assert (locks_ok (empty_store l0 m0)) as H0 by by split. clear Hr Hstep.
    induction Hrun as [|s1 s2 s3 [Hr Hst] _ IH]; [done|]. apply IH. by eapply step_ok. }
  split; [intros i j ti tj li lj; by apply exclusive|]. intros slot b Hb Hne.
  destruct Hstep as [i s s' H|i t s Hn|sl s|sl s]; [|done|done|unfold cleanup_slot in Hne; by destruct (_ && _)].
  revert H. unfold run_thread. destruct (threads s !! i) as [t|] eqn:Hi; [|done]. cbn [mbind option_bind].
  destruct (th_pc t) as [| |l|l|l|l w|w] eqn:Hp; try (intros [= <-]; repeat case_match; done).
  - case_match; [done|]. by intros [= <-].
  - intros [= <-]. cbn [stored moved with_stored] in Hne. exists i, t, l.
    destruct (decide (slot = th_slot t)) as [->|Hd]; [|by rewrite lookup_insert_ne in Hne].
    split_and!; try done. destruct (th_final t) eqn:Hf; [done|].
    pose proof (lk_absent s Hs i t l Hi Hp Hf). congruence.
Qed.

(** ** Concrete runs *)

Inductive action := Run (i : nat) | Start (i : nat) (t : thread) | Finalized (slot : Z) | Cleanup (slot : Z).
Definition act (a : action) (s : Slots) : option Slots :=
  match a with
  | Run i => run_thread i s
  | Start i t => match threads s !! i with Some _ => None | None => Some (started i t s) end
  | Finalized slot => Some (finalized slot s)
  | Cleanup slot => Some (cleanup_slot keepRecentSlots slot s)
  end.
Fixpoint acts (l : list action) (s : Slots) : option Slots :=
  match l with [] => Some s | a :: l' => act a s ≫= acts l' end.

Lemma act_step a s s' : act a s = Some s' → step s s'.
Proof.
  destruct a as [i|i t|slot|slot]; simpl; [by apply step_thread| |intros [= <-]; constructor..].
  destruct (threads s !! i) eqn:E; [done|]. intros [= <-]. by constructor.
Qed.

#[export] Instance recent_dec s : Decision (recent s).
Proof.
  refine (cast_if (decide (map_Forall (λ _ t, running (th_pc t) = true → latest s - keepRecentSlots ≤ th_slot t) (threads s))));
    abstract (unfold recent, map_Forall in *; naive_solver).
Defined.

(** The run with all its states recent. *)
Fixpoint recent_acts (l : list action) (s : Slots) : option Slots :=
  if decide (recent s) then match l with [] => Some s | a :: l' => act a s ≫= recent_acts l' end else None.

Lemma recent_acts_run l s s' : recent_acts l s = Some s' → rtc recent_step s s' ∧ recent s'.
Proof.
  revert s. induction l as [|a l IH]; intros s; simpl; destruct (decide (recent s)) as [Hr|]; try done.
  { by intros [= <-]. }
  destruct (act a s) as [s1|] eqn:E; simpl; [|done]. intros [H1 H2]%IH. split; [|done].
  eapply rtc_l; [|done]. split; [done|by eapply act_step].
Qed.

Definition storing (slot : Z) (b : string) : thread := mkThread slot b false AtLoad.

(** Two goroutines with a block for slot 5, the second waiting for the first, which has
    found nothing there. *)
Definition contended : list action :=
  [Start 1 (storing 5 "a"); Run 1; Run 1; Run 1; Run 1; Start 2 (storing 5 "b"); Run 2].

Lemma slot_locks_exclude_witness :
  ∃ s s', recent_acts contended (empty_store 9 ∅) = Some s ∧ run_thread 1 s = Some s' ∧ run_thread 2 s = None ∧
    ∀ i j ti tj li lj, threads s !! i = Some ti → threads s !! j = Some tj → critical (th_pc ti) = Some li →
      critical (th_pc tj) = Some lj → th_slot ti = th_slot tj → i = j.
Proof.
  destruct (recent_acts contended (empty_store 9 ∅)) as [s|] eqn:E.
  2: { exfalso. apply (f_equal (λ o, bool_decide (is_Some o))) in E. vm_compute in E. discriminate E. }
  destruct (run_thread 1 s) as [s'|] eqn:E1.
  2: { exfalso. assert (Hc : recent_acts contended (empty_store 9 ∅) ≫= run_thread 1 = None) by (rewrite E; exact E1).
       apply (f_equal (λ o, bool_decide (is_Some o))) in Hc. vm_compute in Hc. discriminate Hc. }
  destruct (run_thread 2 s) as [s2|] eqn:E2.
  { exfalso. assert (Hc : recent_acts contended (empty_store 9 ∅) ≫= run_thread 2 = Some s2) by (rewrite E; exact E2).
    apply (f_equal (λ o, bool_decide (is_Some o))) in Hc. vm_compute in Hc. discriminate Hc. }
  destruct (recent_acts_run _ _ _ E) as [Hrun Hr].
  exists s, s'. split; [reflexivity|]. split; [exact E1|]. split; [exact E2|].
  exact (proj1 (slot_locks_exclude 9 ∅ s s' Hrun (conj Hr (step_thread 1 s s' E1)))).
Defined.

(** A slot that is old: the cleanup deletes the lock that the first goroutine holds, so the
    second one makes another, and both store their block and report success; the second
    block is overwritten although the check for a block found none. *)
Definition overtaken : list action :=
  [Start 1 (storing 5 "a"); Run 1; Run 1; Run 1; Run 1; Cleanup 5;
   Start 2 (storing 5 "b"); Run 2; Run 2; Run 2; Run 2; Run 2; Run 2].
Theorem old_slot_stored_twice :
  (λ s, stored s !! 5) <$> acts overtaken (empty_store 2000 ∅) = Some (Some "b") ∧
  (λ s, (stored s !! 5, th_pc <$> threads s !! 1%nat, th_pc <$> threads s !! 2%nat)) <$>
    acts (overtaken ++ [Run 1; Run 1]) (empty_store 2000 ∅) =
    Some (Some "a", Some (AtEnd true), Some (AtEnd true)).
Proof. split; vm_compute; reflexivity. Qed.
