(* ===== verification/Providers.v ===== *)
(** * The database providers (the package db, store/factory.go)

    The stores reach their database through [DatabaseProvider].  The providers for
    LevelDB, RocksDB and Redis are modelled over their client libraries, which are
    classes; the laws of a library are about [contents], the map it holds, and let
    every operation fail.

    [ProviderLaws] has what a provider promises to the stores and [AtomicBatch] that
    a failed batch writes nothing.  The theorems prove the promises for the three
    providers from the laws of their libraries, and that the operations of the
    stores, proved correct in Store.v and BlockStore.v over a map with scripted
    faults, behave the same over every provider with these promises. *)

From stdpp Require Import base list gmap strings sorting.
From Stdlib Require Import ZArith Lia Ascii.
From S2P Require Import Prelude GoLib Transaction Poh Block Store BlockStore.

Open Scope string_scope.
Open Scope list_scope.
Open Scope Z_scope.

(** ** Operations of a library or provider *)

(** An error of a client library: its value for an absent key ([leveldb.ErrNotFound],
    [redis.Nil]), or another one. *)
Inductive lib_error := Absent | Failure (msg : string).

Definition Op (S A : Type) : Type := S → result lib_error A * S.

Definition op_map {S A B} (f : A → B) (m : Op S A) : Op S B := λ s,
  match m s with (Ok a, s') => (Ok (f a), s') | (Err e, s') => (Err e, s') end.

(** An operation of a field of the state. *)
Definition op_on {S T A} (get : T → S) (set : S → T → T) (m : Op S A) : Op T A := λ t,
  let '(r, s) := m (get t) in (r, set s t).

(** A record of a batch: an insertion or a deletion. *)
Abbreviation batch_op := (string * option string)%type.

Definition ops_apply (b : list batch_op) (d : gmap string string) : gmap string string :=
  foldl (λ d o, match o.2 with Some v => <[o.1 := v]> d | None => delete o.1 d end) d b.

(** ** What an operation does to the contents *)

Section Specs.
Context {S : Type} (con : S → gmap string string).

Definition reads {A} (m : Op S A) (post : gmap string string → A → Prop) : Prop := ∀ s,
  con (snd (m s)) = con s ∧ match fst (m s) with Ok a => post (con s) a | Err _ => True end.

Definition writes {A} (m : Op S A) (f : gmap string string → gmap string string) : Prop := ∀ s,
  con (snd (m s)) = match fst (m s) with Ok _ => f (con s) | Err _ => con s end.

(** A read of one key, where the library answers an absent key with an error. *)
Definition reads_key (m : Op S string) (key : string) : Prop := ∀ s,
  con (snd (m s)) = con s ∧
  match fst (m s) with
  | Ok v => con s !! key = Some v
  | Err Absent => con s !! key = None
  | Err _ => True
  end.
End Specs.

(** ** provider.go *)

(** [Get] answers [None] for nil.  A batch that [Close] leaves usable is returned. *)
Class DatabaseProvider (P : Type) := {
  Batch_t : Type;
  p_Get : string → Op P (option string);
  p_GetBatch : list string → Op P (gmap string string);
  p_Put : string → string → Op P unit;
  p_Delete : string → Op P unit;
  p_Has : string → Op P bool;
  p_Close : Op P unit;
  p_Batch : Batch_t;
  b_Put : string → string → Batch_t → Batch_t;
  b_Delete : string → Batch_t → Batch_t;
  b_Write : Batch_t → P → (result lib_error unit * P) * Batch_t;
  b_Reset : Batch_t → Batch_t;
  b_Close : Batch_t → option Batch_t;
}.

(** The promises, for the keys that a provider stores as they are. *)
Class ProviderLaws (P : Type) `{DatabaseProvider P} := {
  contents : P → gmap string string;
  key_plain : string → Prop;
  batch_ops : Batch_t → list batch_op;
  Get_law k : key_plain k → reads contents (p_Get k) (λ d v, v = d !! k);
  GetBatch_law ks : Forall key_plain ks →
    reads contents (p_GetBatch ks) (λ d m, m = filter (λ p, p.1 ∈ ks) d);
  Put_law k v : key_plain k → writes contents (p_Put k v) <[k := v]>;
  Delete_law k : key_plain k → writes contents (p_Delete k) (delete k);
  Has_law k : key_plain k → reads contents (p_Has k) (λ d b, b = bool_decide (is_Some (d !! k)));
  Batch_law : batch_ops p_Batch = [];
  b_Put_law k v b : key_plain k → batch_ops (b_Put k v b) = batch_ops b ++ [(k, Some v)];
  b_Delete_law k b : key_plain k → batch_ops (b_Delete k b) = batch_ops b ++ [(k, None)];
  b_Reset_law b : batch_ops (b_Reset b) = [];
  b_Write_law b p : fst (fst (b_Write b p)) = Ok tt →
    contents (snd (fst (b_Write b p))) = ops_apply (batch_ops b) (contents p);
}.

Class AtomicBatch (P : Type) `{ProviderLaws P} := {
  b_Write_atomic b p e : fst (fst (b_Write b p)) = Err e →
    contents (snd (fst (b_Write b p))) = contents p;
}.

(** [IteratePrefix], the operation that an [IterableProvider] adds; the callback has
    a state of its own. *)
Class IterableProvider (P : Type) := {
  p_IteratePrefix : ∀ {S}, string → (string → string → S → bool * S) → P → S → result lib_error unit * S;
}.

(** ** Iterators *)

(** What a library iterator yields: the entries in the order of the keys, up to where
    it stops, and the error it stopped with. *)
Record iteration := mkIteration { entries : list (string * string); iter_Err : option lib_error }.

Fixpoint key_le (a b : string) : bool :=
  match a, b with
  | EmptyString, _ => true
  | String _ _, EmptyString => false
  | String x a', String y b' =>
      if byte_at x <? byte_at y then true else if byte_at y <? byte_at x then false else key_le a' b'
  end.

(** [Seek]: the entries from the first key that is not before. *)
Fixpoint seek (prefix : string) (l : list (string * string)) : list (string * string) :=
  match l with
  | [] => []
  | (k, v) :: l' => if key_le prefix k then l else seek prefix l'
  end.

(** [bytes.HasPrefix]. *)
Definition HasPrefix (s prefix : string) : bool := String.prefix prefix s.

(** The loop of [IteratePrefix] from the current entry. *)
Fixpoint iterate {S} (prefix : string) (callback : string → string → S → bool * S)
    (l : list (string * string)) (s : S) : S :=
  match l with
  | [] => s
  | (key, value) :: l' =>
      if (string_len key <? string_len prefix) || negb (HasPrefix key prefix) then s
      else
        let '(go, s') := callback key value s in
        if go then iterate prefix callback l' s' else s'
  end.

Definition iterate_prefix {S} (prefix : string) (callback : string → string → S → bool * S)
    (it : iteration) (s : S) : result lib_error unit * S :=
  (match iter_Err it with Some e => Err e | None => Ok tt end,
   iterate prefix callback (seek prefix (entries it)) s).

(** ** leveldb_provider.go *)

(** The package goleveldb. *)
Class LevelDB := {
  ldb : Type;
  ldb_OpenFile : string → result string ldb;
  ldb_Get : string → Op ldb string;
  ldb_Put : string → string → Op ldb unit;
  ldb_Delete : string → Op ldb unit;
  ldb_Has : string → Op ldb bool;
  ldb_Write : list batch_op → Op ldb unit;
  ldb_Close : Op ldb unit;
  ldb_NewIterator : ldb → iteration;
}.

Class LevelDBLaws `{LevelDB} := {
  ldb_contents : ldb → gmap string string;
  ldb_Get_law k : reads_key ldb_contents (ldb_Get k) k;
  ldb_Put_law k v : writes ldb_contents (ldb_Put k v) <[k := v]>;
  ldb_Delete_law k : writes ldb_contents (ldb_Delete k) (delete k);
  ldb_Has_law k : reads ldb_contents (ldb_Has k) (λ d b, b = bool_decide (is_Some (d !! k)));
  ldb_Write_law b : writes ldb_contents (ldb_Write b) (ops_apply b);
}.

Section LevelDBProvider.
Context `{LevelDB}.

Record LevelDBProvider := mkLevel { lvl_once : bool; lvl_db : ldb }.

Definition on_ldb {A} : Op ldb A → Op LevelDBProvider A :=
  op_on lvl_db (λ d p, mkLevel (lvl_once p) d).

Definition NewLevelDBProvider (directory : string) : result string LevelDBProvider :=
  match ldb_OpenFile directory with
  | Ok d => Ok (mkLevel false d)
  | Err msg => Err ("failed to open LevelDB: " +:+ msg)
  end.

Definition level_Get (key : string) : Op LevelDBProvider (option string) := λ p,
  match on_ldb (ldb_Get key) p with
  | (Ok value, p') => (Ok (Some value), p')
  | (Err Absent, p') => (Ok None, p')
  | (Err e, p') => (Err e, p')
  end.

Fixpoint level_GetBatch_loop (keys : list string) (result : gmap string string)
    : Op LevelDBProvider (gmap string string) := λ p,
  match keys with
  | [] => (Ok result, p)
  | key :: keys' =>
      match on_ldb (ldb_Get key) p with
      | (Ok value, p') => level_GetBatch_loop keys' (<[key := value]> result) p'
      | (Err Absent, p') => level_GetBatch_loop keys' result p'
      | (Err e, p') => (Err e, p')
      end
  end.

Definition level_GetBatch (keys : list string) : Op LevelDBProvider (gmap string string) :=
  if bool_decide (keys = []) then λ p, (Ok ∅, p) else level_GetBatch_loop keys ∅.

(** [sync.Once]: only the first call closes the database. *)
Definition level_Close : Op LevelDBProvider unit := λ p,
  if lvl_once p then (Ok tt, p)
  else let '(r, d) := ldb_Close (lvl_db p) in (r, mkLevel true d).

Definition level_IteratePrefix {S} (prefix : string) (callback : string → string → S → bool * S)
    (p : LevelDBProvider) (s : S) : result lib_error unit * S :=
  iterate_prefix prefix callback (ldb_NewIterator (lvl_db p)) s.

(** The batch keeps its records when it has been written. *)
#[export] Instance LevelDBProvider_provider : DatabaseProvider LevelDBProvider := {
  Batch_t := list batch_op;
  p_Get := level_Get;
  p_GetBatch := level_GetBatch;
  p_Put key value := on_ldb (ldb_Put key value);
  p_Delete key := on_ldb (ldb_Delete key);
  p_Has key := on_ldb (ldb_Has key);
  p_Close := level_Close;
  p_Batch := [];
  b_Put key value b := b ++ [(key, Some value)];
  b_Delete key b := b ++ [(key, None)];
  b_Write b p := (on_ldb (ldb_Write b) p, b);
  b_Reset _ := [];
  b_Close b := Some b;
}.
#[export] Instance LevelDBProvider_iterable : IterableProvider LevelDBProvider :=
  { p_IteratePrefix S := level_IteratePrefix }.
End LevelDBProvider.

(** ** rocksdb_provider.go *)

(** The package grocksdb; a slice of a result is its data, [None] when it does not
    exist.  The reads and writes are those with the default options, which the
    providers keep in [ro] and [wo]; the setters return the options they change. *)
Class RocksDB := {
  rdb : Type;
  rdb_options : Type;
  rdb_table_options : Type;
  rdb_cache : Type;
  rdb_NewDefaultOptions : rdb_options;
  rdb_SetCreateIfMissing : bool → rdb_options → rdb_options;
  rdb_SetMaxBackgroundCompactions : Z → rdb_options → rdb_options;
  rdb_SetMaxBackgroundFlushes : Z → rdb_options → rdb_options;
  rdb_SetWriteBufferSize : Z → rdb_options → rdb_options;
  rdb_NewDefaultBlockBasedTableOptions : rdb_table_options;
  rdb_NewLRUCache : Z → rdb_cache;
  rdb_SetBlockCache : rdb_cache → rdb_table_options → rdb_table_options;
  rdb_SetBlockBasedTableFactory : rdb_table_options → rdb_options → rdb_options;
  rdb_SnappyCompression : Z;
  rdb_SetCompression : Z → rdb_options → rdb_options;
  rdb_SetMaxOpenFiles : Z → rdb_options → rdb_options;
  rdb_OpenDb : rdb_options → string → result string rdb;
  rdb_Get : string → Op rdb (option string);
  rdb_MultiGet : list string → Op rdb (list (option string));
  rdb_Put : string → string → Op rdb unit;
  rdb_Delete : string → Op rdb unit;
  rdb_Write : list batch_op → Op rdb unit;
  rdb_Close : rdb → rdb;
  rdb_NewIterator : rdb → iteration;
}.

Class RocksDBLaws `{RocksDB} := {
  rdb_contents : rdb → gmap string string;
  rdb_Get_law k : reads rdb_contents (rdb_Get k) (λ d v, v = d !! k);
  rdb_MultiGet_law ks : reads rdb_contents (rdb_MultiGet ks) (λ d vs, vs = (λ k, d !! k) <$> ks);
  rdb_Put_law k v : writes rdb_contents (rdb_Put k v) <[k := v]>;
  rdb_Delete_law k : writes rdb_contents (rdb_Delete k) (delete k);
  rdb_Write_law b : writes rdb_contents (rdb_Write b) (ops_apply b);
}.

Section RocksDBProvider.
Context `{RocksDB}.

Record RocksDBProvider := mkRocks { rocks_once : bool; rocks_db : rdb }.

Definition on_rdb {A} : Op rdb A → Op RocksDBProvider A :=
  op_on rocks_db (λ d p, mkRocks (rocks_once p) d).

Definition open_rocks (opts : rdb_options) (directory : string) : result string RocksDBProvider :=
  match rdb_OpenDb opts directory with
  | Ok d => Ok (mkRocks false d)
  | Err msg => Err ("failed to open RocksDB: " +:+ msg)
  end.

Definition plain_options : rdb_options :=
  let opts := rdb_NewDefaultOptions in
  rdb_SetCreateIfMissing true opts.
Definition NewRocksDBProvider : string → result string RocksDBProvider := open_rocks plain_options.

Definition optimized_options : rdb_options :=
  let opts := rdb_NewDefaultOptions in
  let opts := rdb_SetCreateIfMissing true opts in
  let opts := rdb_SetMaxBackgroundCompactions 4 opts in
  let opts := rdb_SetMaxBackgroundFlushes 2 opts in
  let opts := rdb_SetWriteBufferSize (64 * 1024 * 1024) opts in
  let bbto := rdb_NewDefaultBlockBasedTableOptions in
  let blockCache := rdb_NewLRUCache (128 * 1024 * 1024) in
  let bbto := rdb_SetBlockCache blockCache bbto in
  let opts := rdb_SetBlockBasedTableFactory bbto opts in
  let opts := rdb_SetCompression rdb_SnappyCompression opts in
  rdb_SetMaxOpenFiles 1000 opts.
Definition NewOptimizedRocksDBProvider : string → result string RocksDBProvider := open_rocks optimized_options.

Definition rocks_Get (key : string) : Op RocksDBProvider (option string) := on_rdb (rdb_Get key).

(** The values with the keys at their positions; the loop stops with a panic if there
    are more values than keys, which [MultiGet] does not return. *)
Fixpoint collect (keys : list string) (values : list (option string)) (result : gmap string string)
    : gmap string string :=
  match keys, values with
  | key :: keys', Some data :: values' => collect keys' values' (<[key := data]> result)
  | _ :: keys', None :: values' => collect keys' values' result
  | _, _ => result
  end.

Definition rocks_GetBatch (keys : list string) : Op RocksDBProvider (gmap string string) :=
  if bool_decide (keys = []) then λ p, (Ok ∅, p)
  else op_map (λ values, collect keys values ∅) (on_rdb (rdb_MultiGet keys)).

Definition rocks_Has (key : string) : Op RocksDBProvider bool :=
  op_map (λ value, bool_decide (is_Some value)) (on_rdb (rdb_Get key)).

(** The options are destroyed with the database: a closed provider is not usable. *)
Definition rocks_Close : Op RocksDBProvider unit := λ p,
  if rocks_once p then (Ok tt, p) else (Ok tt, mkRocks true (rdb_Close (rocks_db p))).

Definition rocks_IteratePrefix {S} (prefix : string) (callback : string → string → S → bool * S)
    (p : RocksDBProvider) (s : S) : result lib_error unit * S :=
  iterate_prefix prefix callback (rdb_NewIterator (rocks_db p)) s.

(** [Close] destroys the batch. *)
#[export] Instance RocksDBProvider_provider : DatabaseProvider RocksDBProvider := {
  Batch_t := list batch_op;
  p_Get := rocks_Get;
  p_GetBatch := rocks_GetBatch;
  p_Put key value := on_rdb (rdb_Put key value);
  p_Delete key := on_rdb (rdb_Delete key);
  p_Has := rocks_Has;
  p_Close := rocks_Close;
  p_Batch := [];
  b_Put key value b := b ++ [(key, Some value)];
  b_Delete key b := b ++ [(key, None)];
  b_Write b p := (on_rdb (rdb_Write b) p, b);
  b_Reset _ := [];
  b_Close _ := None;
}.
#[export] Instance RocksDBProvider_iterable : IterableProvider RocksDBProvider :=
  { p_IteratePrefix S := rocks_IteratePrefix }.
End RocksDBProvider.

(** ** redis_provider.go *)

Inductive redis_cmd := RSet (key value : string) | RDel (key : string).

Definition cmd_op (c : redis_cmd) : batch_op :=
  match c with RSet k v => (k, Some v) | RDel k => (k, None) end.

(** The package go-redis; [redis.Nil] is the error of an absent key. *)
Class Redis := {
  rds : Type;
  rds_NewClient : string → rds;
  rds_Ping : rds → result string unit;
  rds_Get : string → Op rds string;
  rds_MGet : list string → Op rds (list (option string));
  rds_Set : string → string → Op rds unit;
  rds_Del : string → Op rds unit;
  rds_Exists : string → Op rds Z;
  rds_Close : Op rds unit;
  rds_Exec : list redis_cmd → Op rds unit;
}.

(** A pipeline is no transaction: when it fails, some of its commands may have been
    executed. *)
Class RedisLaws `{Redis} := {
  rds_contents : rds → gmap string string;
  rds_Get_law k : reads_key rds_contents (rds_Get k) k;
  rds_MGet_law ks : reads rds_contents (rds_MGet ks) (λ d vs, vs = (λ k, d !! k) <$> ks);
  rds_Set_law k v : writes rds_contents (rds_Set k v) <[k := v]>;
  rds_Del_law k : writes rds_contents (rds_Del k) (delete k);
  rds_Exists_law k : reads rds_contents (rds_Exists k) (λ d n, n = if d !! k is Some _ then 1 else 0);
  rds_Exec_law cs s : ∃ done, sublist done cs ∧
    rds_contents (snd (rds_Exec cs s)) = ops_apply (cmd_op <$> done) (rds_contents s) ∧
    (fst (rds_Exec cs s) = Ok tt → done = cs);
}.

Definition blocks_prefix : string := "blocks:".

(** A block key is the prefix and the slot in eight bytes. *)
Definition convertKeyToHumanReadable (key : string) : string :=
  if HasPrefix key blocks_prefix && (string_len blocks_prefix + 8 <=? string_len key) then
    let binaryPart := string_drop (String.length blocks_prefix) key in
    if string_len binaryPart =? 8 then blocks_prefix +:+ fmt_d (Uint64 binaryPart) else key
  else key.

Section RedisProvider.
Context `{Redis}.

Record RedisProvider := mkRedis { redis_client : rds }.

Definition on_rds {A} : Op rds A → Op RedisProvider A := op_on redis_client (λ d _, mkRedis d).

Definition NewRedisProvider (address : string) : result string RedisProvider :=
  let client := rds_NewClient address in
  match rds_Ping client with
  | Ok _ => Ok (mkRedis client)
  | Err msg => Err ("failed to connect to Redis: " +:+ msg)
  end.

Definition redis_Get (key : string) : Op RedisProvider (option string) := λ p,
  match on_rds (rds_Get (convertKeyToHumanReadable key)) p with
  | (Ok value, p') => (Ok (Some value), p')
  | (Err Absent, p') => (Ok None, p')
  | (Err e, p') => (Err e, p')
  end.

(** [keyMapping]: the last key for each converted key. *)
Definition keyMapping (keys : list string) : gmap string string :=
  foldl (λ m key, <[convertKeyToHumanReadable key := key]> m) ∅ keys.

(** Back to the keys of the caller; a missing mapping is the empty key. *)
Definition redis_GetBatch (keys : list string) : Op RedisProvider (gmap string string) :=
  if bool_decide (keys = []) then λ p, (Ok ∅, p)
  else
    let redisKeys := convertKeyToHumanReadable <$> keys in
    let originals := (λ k, default "" (keyMapping keys !! k)) <$> redisKeys in
    op_map (λ values, collect originals values ∅) (on_rds (rds_MGet redisKeys)).

Definition redis_Has (key : string) : Op RedisProvider bool :=
  op_map (λ count, 0 <? count) (on_rds (rds_Exists (convertKeyToHumanReadable key))).

Definition redis_IteratePrefix {S} (prefix : string) (callback : string → string → S → bool * S)
    (p : RedisProvider) (s : S) : result lib_error unit * S := (Ok tt, s).

(** A batch is a pipeline, which [Exec] empties. *)
#[export] Instance RedisProvider_provider : DatabaseProvider RedisProvider := {
  Batch_t := list redis_cmd;
  p_Get := redis_Get;
  p_GetBatch := redis_GetBatch;
  p_Put key value := on_rds (rds_Set (convertKeyToHumanReadable key) value);
  p_Delete key := on_rds (rds_Del (convertKeyToHumanReadable key));
  p_Has := redis_Has;
  p_Close := on_rds rds_Close;
  p_Batch := [];
  b_Put key value b := b ++ [RSet (convertKeyToHumanReadable key) value];
  b_Delete key b := b ++ [RDel (convertKeyToHumanReadable key)];
  b_Write b p := (on_rds (rds_Exec b) p, []);
  b_Reset _ := [];
  b_Close _ := Some [];
}.
#[export] Instance RedisProvider_iterable : IterableProvider RedisProvider :=
  { p_IteratePrefix S := redis_IteratePrefix }.
End RedisProvider.

(** ** store/factory.go *)

Definition LevelDBStoreType : string := "leveldb".
Definition RocksDBStoreType : string := "rocksdb".
Definition RedisStoreType : string := "redis".

Record StoreConfig := mkStoreConfig { scType : string; Directory : string }.

Definition storeconfig_Validate (sc : StoreConfig) : result string unit :=
  if bool_decide (scType sc = "") then Err "store type cannot be empty"
  else if bool_decide (Directory sc = "") then Err "directory cannot be empty"
  else if bool_decide (scType sc ∈ [LevelDBStoreType; RocksDBStoreType; RedisStoreType]) then Ok tt
  else Err ("unsupported store type: " +:+ scType sc).

Section Factory.
Context `{LevelDB, RocksDB, Redis}.

Inductive any_provider := ALevel (p : LevelDBProvider) | ARocks (p : RocksDBProvider) | ARedis (p : RedisProvider).

Definition rocksdb_stub {A} : result string A :=
  Err "RocksDB support not compiled in. Build with -tags rocksdb to enable RocksDB support".

Definition wrap_provider {P} (c : P → any_provider) (r : result string P) : result string any_provider :=
  match r with Ok p => Ok (c p) | Err e => Err e end.

(** [rocksdb] is the build tag. *)
Definition CreateProvider (rocksdb : bool) (config : option StoreConfig) : result string any_provider :=
  match config with
  | None => Err "config cannot be nil"
  | Some config =>
      match storeconfig_Validate config with
      | Err e => Err ("invalid config: " +:+ e)
      | Ok _ =>
          if bool_decide (scType config = LevelDBStoreType) then
            wrap_provider ALevel (NewLevelDBProvider (Directory config))
          else if bool_decide (scType config = RocksDBStoreType) then
            wrap_provider ARocks
              (if rocksdb then NewOptimizedRocksDBProvider (Directory config) else rocksdb_stub)
          else if bool_decide (scType config = RedisStoreType) then
            wrap_provider ARedis (NewRedisProvider "localhost:6379")
          else Err ("unsupported store type: " +:+ scType config)
      end
  end.
End Factory.

(** ** Lemmas on specifications *)

Section OpOn.
Context {S T : Type} (con : S → gmap string string) (get : T → S) (set : S → T → T).
Hypothesis get_set : ∀ s t, get (set s t) = s.

Lemma op_on_eq {A} (m : Op S A) t :
  fst (op_on get set m t) = fst (m (get t)) ∧ get (snd (op_on get set m t)) = snd (m (get t)).
Proof using get_set. unfold op_on. destruct (m (get t)) as [r s]. simpl. auto. Qed.

Lemma op_on_reads {A} (m : Op S A) post : reads con m post → reads (con ∘ get) (op_on get set m) post.
Proof using get_set.
  intros Hm t. destruct (op_on_eq m t) as [E1 E2]. unfold compose. rewrite E1, E2. apply Hm.
Qed.

Lemma op_on_writes {A} (m : Op S A) f : writes con m f → writes (con ∘ get) (op_on get set m) f.
Proof using get_set.
  intros Hm t. destruct (op_on_eq m t) as [E1 E2]. unfold compose. rewrite E1, E2. apply Hm.
Qed.

Lemma op_on_reads_key (m : Op S string) k : reads_key con m k → reads_key (con ∘ get) (op_on get set m) k.
Proof using get_set.
  intros Hm t. destruct (op_on_eq m t) as [E1 E2]. unfold compose. rewrite E1, E2. apply Hm.
Qed.
End OpOn.

Section SpecLemmas.
Context {S : Type} (con : S → gmap string string).

Lemma reads_map {A B} (f : A → B) (m : Op S A) (post : gmap string string → A → Prop)
    (post' : gmap string string → B → Prop) :
  reads con m post → (∀ d a, post d a → post' d (f a)) → reads con (op_map f m) post'.
Proof.
  intros Hm Hf s. destruct (Hm s) as [H1 H2]. unfold op_map. destruct (m s) as [[a|e] s']; simpl in *; auto.
Qed.

Lemma reads_ret {A} (a : A) (post : gmap string string → A → Prop) :
  (∀ d, post d a) → reads con (λ s, (Ok a, s)) post.
Proof. intros Hp s. split; [done|apply Hp]. Qed.

Lemma writes_ok {A} (m : Op S A) f : writes con m f → ∀ s a, fst (m s) = Ok a → con (snd (m s)) = f (con s).
Proof. intros Hm s a E. by rewrite (Hm s), E. Qed.

Lemma writes_err {A} (m : Op S A) f : writes con m f → ∀ s e, fst (m s) = Err e → con (snd (m s)) = con s.
Proof. intros Hm s a E. by rewrite (Hm s), E. Qed.

Lemma reads_absent (m : Op S string) key :
  reads_key con m key →
  reads con (λ s, match m s with
                  | (Ok value, s') => (Ok (Some value), s')
                  | (Err Absent, s') => (Ok None, s')
                  | (Err e, s') => (Err e, s')
                  end) (λ d v, v = d !! key).
Proof. intros Hm s. destruct (Hm s) as [H1 H2]. destruct (m s) as [[v|[|msg]] s']; simpl in *; auto. Qed.
End SpecLemmas.

(** The entry of a key that is read, or what was there before. *)
Definition read_over (ks : list string) (d acc : gmap string string) : gmap string string :=
  filter (λ p, p.1 ∈ ks) d ∪ acc.

Lemma read_over_empty ks d : read_over ks d ∅ = filter (λ p, p.1 ∈ ks) d.
Proof. apply (right_id_L ∅ (∪)). Qed.

Lemma read_over_lookup ks d acc i :
  read_over ks d acc !! i = if decide (i ∈ ks) then union (d !! i) (acc !! i) else acc !! i.
Proof.
  unfold read_over. rewrite lookup_union, map_lookup_filter. simpl.
  destruct (d !! i) as [v|]; simpl; case_decide; try case_guard; simpl; try done;
    by rewrite (left_id_L None (∪)).
Qed.

Lemma read_over_nil d acc : read_over [] d acc = acc.
Proof. apply map_eq. intros i. rewrite read_over_lookup. case_decide; [set_solver|done]. Qed.

(** Reading a key after the ones before it. *)
Lemma read_over_cons k ks d acc : (∀ i v, acc !! i = Some v → d !! i = Some v) →
  read_over (k :: ks) d acc =
  read_over ks d (match d !! k with Some v => <[k := v]> acc | None => acc end).
Proof.
  intros Hacc. apply map_eq. intros i. rewrite !read_over_lookup.
  destruct (decide (i = k)) as [->|Hne].
  - rewrite decide_True by set_solver. specialize (Hacc k).
    destruct (d !! k) as [v|]; simplify_map_eq; [case_decide; by destruct (acc !! k)|].
    destruct (acc !! k) as [w|]; [by discriminate (Hacc w)|by case_decide].
  - replace ((match d !! k with Some v => <[k := v]> acc | None => acc end) !! i) with (acc !! i)
      by (destruct (d !! k); by simplify_map_eq).
    destruct (decide (i ∈ ks)), (decide (i ∈ k :: ks)); set_solver.
Qed.

Lemma insert_agrees k v (d acc : gmap string string) :
  d !! k = Some v → (∀ i w, acc !! i = Some w → d !! i = Some w) →
  ∀ i w, <[k := v]> acc !! i = Some w → d !! i = Some w.
Proof. intros Hk Hacc i w [[<- <-]|[? ?]]%lookup_insert_Some; auto. Qed.

Lemma collect_reads ks (d acc : gmap string string) :
  (∀ i v, acc !! i = Some v → d !! i = Some v) →
  collect ks ((λ k, d !! k) <$> ks) acc = read_over ks d acc.
Proof.
  revert acc. induction ks as [|k ks IH]; intros acc Hacc; [by rewrite read_over_nil|].
  rewrite read_over_cons by done. simpl. destruct (d !! k) eqn:E; [|by apply IH].
  apply IH. by apply insert_agrees.
Qed.

(** ** The promises of the providers *)

Section LevelDBPromises.
Context `{LL : LevelDBLaws}.

Definition level_contents : LevelDBProvider → gmap string string := ldb_contents ∘ lvl_db.

Lemma on_ldb_reads {A} (m : Op ldb A) post : reads ldb_contents m post → reads level_contents (on_ldb m) post.
Proof. by apply op_on_reads. Qed.

Lemma on_ldb_writes {A} (m : Op ldb A) f : writes ldb_contents m f → writes level_contents (on_ldb m) f.
Proof. by apply op_on_writes. Qed.

Lemma level_reads_key k : reads_key level_contents (on_ldb (ldb_Get k)) k.
Proof. apply op_on_reads_key; [done|apply ldb_Get_law]. Qed.

Lemma level_loop_reads ks acc p : (∀ i v, acc !! i = Some v → level_contents p !! i = Some v) →
  level_contents (snd (level_GetBatch_loop ks acc p)) = level_contents p ∧
  match fst (level_GetBatch_loop ks acc p) with
  | Ok m => m = read_over ks (level_contents p) acc
  | Err _ => True
  end.
Proof.
  revert acc p. induction ks as [|k ks IH]; intros acc p Hacc; [by rewrite read_over_nil|].
  rewrite read_over_cons by done. simpl. destruct (level_reads_key k p) as [H1 H2].
  destruct (on_ldb (ldb_Get k) p) as [[v|[|msg]] p']; simpl in *; [| |done]; rewrite H2, <- H1.
  - apply IH. rewrite H1. by apply insert_agrees.
  - apply IH. by rewrite H1.
Qed.

Lemma level_GetBatch_reads ks :
  reads level_contents (level_GetBatch ks) (λ d m, m = filter (λ p, p.1 ∈ ks) d).
Proof.
  unfold level_GetBatch. case_bool_decide as E.
  - subst. apply reads_ret. intros d. by rewrite <- read_over_empty, read_over_nil.
  - intros p. rewrite <- read_over_empty. apply level_loop_reads. intros i v ?. by simplify_map_eq.
Qed.

#[export] Instance LevelDBProvider_laws : ProviderLaws LevelDBProvider := {
  contents := level_contents;
  key_plain _ := True;
  batch_ops b := b;
  Get_law k _ := reads_absent _ _ _ (level_reads_key k);
  GetBatch_law ks _ := level_GetBatch_reads ks;
  Put_law k v _ := on_ldb_writes _ _ (ldb_Put_law k v);
  Delete_law k _ := on_ldb_writes _ _ (ldb_Delete_law k);
  Has_law k _ := on_ldb_reads _ _ (ldb_Has_law k);
  Batch_law := eq_refl;
  b_Put_law k v b _ := eq_refl;
  b_Delete_law k b _ := eq_refl;
  b_Reset_law b := eq_refl;
  b_Write_law b p := writes_ok _ _ _ (on_ldb_writes _ _ (ldb_Write_law b)) p tt;
}.

#[export] Instance LevelDBProvider_atomic : AtomicBatch LevelDBProvider := {
  b_Write_atomic b p e := writes_err _ _ _ (on_ldb_writes _ _ (ldb_Write_law b)) p e;
}.
End LevelDBPromises.

Section RocksDBPromises.
Context `{RL : RocksDBLaws}.

Definition rocks_contents : RocksDBProvider → gmap string string := rdb_contents ∘ rocks_db.

Lemma on_rdb_reads {A} (m : Op rdb A) post : reads rdb_contents m post → reads rocks_contents (on_rdb m) post.
Proof. by apply op_on_reads. Qed.

Lemma on_rdb_writes {A} (m : Op rdb A) f : writes rdb_contents m f → writes rocks_contents (on_rdb m) f.
Proof. by apply op_on_writes. Qed.

Lemma rocks_GetBatch_reads ks :
  reads rocks_contents (rocks_GetBatch ks) (λ d m, m = filter (λ p, p.1 ∈ ks) d).
Proof.
  unfold rocks_GetBatch. case_bool_decide as E.
  - subst. apply reads_ret. intros d. by rewrite <- read_over_empty, read_over_nil.
  - eapply reads_map; [apply on_rdb_reads, rdb_MultiGet_law|]. intros d vs ->. simpl.
    rewrite <- read_over_empty. apply collect_reads. intros i v ?. by simplify_map_eq.
Qed.

Lemma rocks_Has_reads k :
  reads rocks_contents (rocks_Has k) (λ d b, b = bool_decide (is_Some (d !! k))).
Proof. eapply reads_map; [apply on_rdb_reads, rdb_Get_law|]. by intros d v ->. Qed.

#[export] Instance RocksDBProvider_laws : ProviderLaws RocksDBProvider := {
  contents := rocks_contents;
  key_plain _ := True;
  batch_ops b := b;
  Get_law k _ := on_rdb_reads _ _ (rdb_Get_law k);
  GetBatch_law ks _ := rocks_GetBatch_reads ks;
  Put_law k v _ := on_rdb_writes _ _ (rdb_Put_law k v);
  Delete_law k _ := on_rdb_writes _ _ (rdb_Delete_law k);
  Has_law k _ := rocks_Has_reads k;
  Batch_law := eq_refl;
  b_Put_law k v b _ := eq_refl;
  b_Delete_law k b _ := eq_refl;
  b_Reset_law b := eq_refl;
  b_Write_law b p := writes_ok _ _ _ (on_rdb_writes _ _ (rdb_Write_law b)) p tt;
}.

#[export] Instance RocksDBProvider_atomic : AtomicBatch RocksDBProvider := {
  b_Write_atomic b p e := writes_err _ _ _ (on_rdb_writes _ _ (rdb_Write_law b)) p e;
}.
End RocksDBPromises.

(** [key_plain]: a key that is stored as it is. *)
Section RedisPromises.
Context `{RL : RedisLaws}.

Definition redis_contents : RedisProvider → gmap string string := rds_contents ∘ redis_client.
Definition plain_key (k : string) : Prop := convertKeyToHumanReadable k = k.

Lemma on_rds_reads {A} (m : Op rds A) post : reads rds_contents m post → reads redis_contents (on_rds m) post.
Proof. by apply op_on_reads. Qed.

Lemma on_rds_writes {A} (m : Op rds A) f : writes rds_contents m f → writes redis_contents (on_rds m) f.
Proof. by apply op_on_writes. Qed.

Lemma redis_Get_reads k : plain_key k → reads redis_contents (redis_Get k) (λ d v, v = d !! k).
Proof.
  intros Hk. unfold redis_Get. rewrite Hk. apply reads_absent, op_on_reads_key; [done|apply rds_Get_law].
Qed.

Lemma plain_keys_converted ks : Forall plain_key ks → convertKeyToHumanReadable <$> ks = ks.
Proof. induction 1 as [|k ks Hk _ IH]; [done|]. rewrite fmap_cons. unfold plain_key in Hk. by rewrite Hk, IH. Qed.

Lemma keyMapping_plain ks k : Forall plain_key ks → k ∈ ks → keyMapping ks !! k = Some k.
Proof.
  intros Hks. unfold keyMapping. induction ks as [|k' ks IH] using rev_ind; [by intros ?%elem_of_nil|].
  apply Forall_app in Hks as [Hks Hk']. rewrite Forall_singleton in Hk'. unfold plain_key in Hk'.
  rewrite foldl_app, elem_of_app, list_elem_of_singleton. cbn [foldl]. rewrite Hk'.
  destruct (decide (k = k')) as [->|Hne]; simplify_map_eq; naive_solver.
Qed.

Lemma redis_GetBatch_reads ks : Forall plain_key ks →
  reads redis_contents (redis_GetBatch ks) (λ d m, m = filter (λ p, p.1 ∈ ks) d).
Proof.
  intros Hks. unfold redis_GetBatch. case_bool_decide as E.
  - subst. apply reads_ret. intros d. by rewrite <- read_over_empty, read_over_nil.
  - cbv zeta. rewrite plain_keys_converted by done.
    replace ((λ k, default "" (keyMapping ks !! k)) <$> ks) with ks.
    + eapply reads_map; [apply on_rds_reads, rds_MGet_law|]. intros d vs ->. simpl.
      rewrite <- read_over_empty. apply collect_reads. intros i v ?. by simplify_map_eq.
    + symmetry. transitivity (id <$> ks); [|apply list_fmap_id]. apply list_fmap_ext. intros i k Hk.
      by rewrite keyMapping_plain by eauto using list_elem_of_lookup_2.
Qed.

Lemma redis_Has_reads k : plain_key k →
  reads redis_contents (redis_Has k) (λ d b, b = bool_decide (is_Some (d !! k))).
Proof.
  intros Hk. unfold redis_Has. rewrite Hk.
  eapply reads_map; [apply on_rds_reads, rds_Exists_law|]. intros d n ->. by destruct (d !! k).
Qed.

Lemma redis_Write_reads (b : list redis_cmd) p : fst (on_rds (rds_Exec b) p) = Ok tt →
  redis_contents (snd (on_rds (rds_Exec b) p)) = ops_apply (cmd_op <$> b) (redis_contents p).
Proof.
  unfold redis_contents. destruct (op_on_eq redis_client (λ d _, mkRedis d) (λ _ _, eq_refl) (rds_Exec b) p) as [E1 E2].
  unfold on_rds, compose. rewrite E1, E2. intros Hok.
  destruct (rds_Exec_law b (redis_client p)) as (done & _ & -> & Hd). by rewrite (Hd Hok).
Qed.

Lemma redis_Put_writes k v : plain_key k →
  writes redis_contents (on_rds (rds_Set (convertKeyToHumanReadable k) v)) <[k := v]>.
Proof. intros Hk. rewrite Hk. apply on_rds_writes, rds_Set_law. Qed.

Lemma redis_Delete_writes k : plain_key k →
  writes redis_contents (on_rds (rds_Del (convertKeyToHumanReadable k))) (delete k).
Proof. intros Hk. rewrite Hk. apply on_rds_writes, rds_Del_law. Qed.

Lemma redis_b_Put k v b : plain_key k →
  cmd_op <$> (b ++ [RSet (convertKeyToHumanReadable k) v]) = (cmd_op <$> b) ++ [(k, Some v)].
Proof. intros Hk. by rewrite fmap_app, Hk. Qed.

Lemma redis_b_Delete k b : plain_key k →
  cmd_op <$> (b ++ [RDel (convertKeyToHumanReadable k)]) = (cmd_op <$> b) ++ [(k, None)].
Proof. intros Hk. by rewrite fmap_app, Hk. Qed.

#[export] Instance RedisProvider_laws : ProviderLaws RedisProvider := {
  contents := redis_contents;
  key_plain := plain_key;
  batch_ops b := cmd_op <$> b;
  Get_law := redis_Get_reads;
  GetBatch_law := redis_GetBatch_reads;
  Put_law := redis_Put_writes;
  Delete_law := redis_Delete_writes;
  Has_law := redis_Has_reads;
  Batch_law := eq_refl;
  b_Put_law := redis_b_Put;
  b_Delete_law := redis_b_Delete;
  b_Reset_law b := eq_refl;
  b_Write_law := redis_Write_reads;
}.
End RedisPromises.

(** ** The operations of the stores as programs over a provider *)

(** A program calls the provider, and reads and sets the two counters of the block
    store; a continuation gets [None] when the call returned an error. *)
Inductive dbprog (A : Type) : Type :=
| pDone (r : result StoreError A)
| pGet (key : string) (k : option (option string) → dbprog A)
| pHas (key : string) (k : option bool → dbprog A)
| pPut (key value : string) (k : option unit → dbprog A)
| pGetBatch (keys : list string) (k : option (gmap string string) → dbprog A)
| pWrite (b : batch) (k : option unit → dbprog A)
| pReadFinalized (k : Z → dbprog A)
| pReadStore (k : Z → dbprog A)
| pSetFinalized (slot : Z) (k : dbprog A)
| pSetStore (slot : Z) (k : dbprog A).
Arguments pDone {A}. Arguments pGet {A}. Arguments pHas {A}. Arguments pPut {A}. Arguments pGetBatch {A}.
Arguments pWrite {A}. Arguments pReadFinalized {A}. Arguments pReadStore {A}.
Arguments pSetFinalized {A}. Arguments pSetStore {A}.

Definition answer {E A} (r : result E A) : option A := match r with Ok a => Some a | Err _ => None end.

(** Over the map with scripted faults of Store.v. *)
Fixpoint run_st {A} (m : dbprog A) (s : Storage) : result StoreError A * Storage :=
  match m with
  | pDone r => (r, s)
  | pGet key k => let '(r, s') := db_Get key s in run_st (k (answer r)) s'
  | pHas key k => let '(r, s') := db_Has key s in run_st (k (answer r)) s'
  | pPut key value k => let '(r, s') := db_Put key value s in run_st (k (answer r)) s'
  | pGetBatch keys k => let '(r, s') := db_GetBatch keys s in run_st (k (answer r)) s'
  | pWrite b k => let '(r, s') := batch_Write b s in run_st (k (answer r)) s'
  | pReadFinalized k => run_st (k (latestFinalized s)) s
  | pReadStore k => run_st (k (latestStore s)) s
  | pSetFinalized slot k => run_st k (mkStorage (data s) (faults s) slot (latestStore s))
  | pSetStore slot k => run_st k (mkStorage (data s) (faults s) (latestFinalized s) slot)
  end.

(** The keys that a program uses. *)
Fixpoint uses {A} (ok : string → Prop) (m : dbprog A) : Prop :=
  match m with
  | pDone _ => True
  | pGet key k => ok key ∧ ∀ r, uses ok (k r)
  | pHas key k => ok key ∧ ∀ r, uses ok (k r)
  | pPut key _ k => ok key ∧ ∀ r, uses ok (k r)
  | pGetBatch keys k => Forall ok keys ∧ ∀ r, uses ok (k r)
  | pWrite b k => Forall (λ p, ok p.1) b ∧ ∀ r, uses ok (k r)
  | pReadFinalized k | pReadStore k => ∀ z, uses ok (k z)
  | pSetFinalized _ k | pSetStore _ k => uses ok k
  end.

Fixpoint prog_bind {A B} (m : dbprog A) (f : result StoreError A → dbprog B) : dbprog B :=
  match m with
  | pDone r => f r
  | pGet key k => pGet key (λ r, prog_bind (k r) f)
  | pHas key k => pHas key (λ r, prog_bind (k r) f)
  | pPut key value k => pPut key value (λ r, prog_bind (k r) f)
  | pGetBatch keys k => pGetBatch keys (λ r, prog_bind (k r) f)
  | pWrite b k => pWrite b (λ r, prog_bind (k r) f)
  | pReadFinalized k => pReadFinalized (λ z, prog_bind (k z) f)
  | pReadStore k => pReadStore (λ z, prog_bind (k z) f)
  | pSetFinalized slot k => pSetFinalized slot (prog_bind k f)
  | pSetStore slot k => pSetStore slot (prog_bind k f)
  end.

Lemma run_bind {A B} (m : dbprog A) (f : result StoreError A → dbprog B) s :
  run_st (prog_bind m f) s = run_st (f (fst (run_st m s))) (snd (run_st m s)).
Proof.
  revert s. induction m; intros s; simpl; try done;
    match goal with |- context [let '(_, _) := ?t in _] => by destruct t | _ => auto end.
Qed.

Lemma uses_bind {A B} ok (m : dbprog A) (f : result StoreError A → dbprog B) :
  uses ok m → (∀ r, uses ok (f r)) → uses ok (prog_bind m f).
Proof. intros Hm Hf. induction m; simpl in *; naive_solver. Qed.

(** The keys of the stores. *)
Definition is_key (k : string) : Prop := ∃ dk, k = key_of dk.

(** A computation over the storage that is a program on the keys of the stores. *)
Class Program {A} (m : ST A) := {
  code : dbprog A;
  code_keys : uses is_key code;
  code_run s : run_st code s = m s;
}.

(** ** Running over a provider *)

Section Provider.
Context `{PL : ProviderLaws P}.

Record node_db := mkNodeDb { prov : P; mem_finalized : Z; mem_store : Z }.

(** [Batch], [Put] of every record, [Write], and the deferred [Close]. *)
Definition p_WriteBatch (b : batch) : Op P unit :=
  λ p, fst (b_Write (foldl (λ bt o, b_Put o.1 o.2 bt) p_Batch b) p).

Definition on_prov {A B} (n : node_db) (m : Op P A) (k : option A → node_db → B) : B :=
  let '(r, p) := m (prov n) in k (answer r) (mkNodeDb p (mem_finalized n) (mem_store n)).

Fixpoint run_p {A} (m : dbprog A) (n : node_db) : result StoreError A * node_db :=
  match m with
  | pDone r => (r, n)
  | pGet key k => on_prov n (p_Get key) (λ r, run_p (k r))
  | pHas key k => on_prov n (p_Has key) (λ r, run_p (k r))
  | pPut key value k => on_prov n (p_Put key value) (λ r, run_p (k r))
  | pGetBatch keys k => on_prov n (p_GetBatch keys) (λ r, run_p (k r))
  | pWrite b k => on_prov n (p_WriteBatch b) (λ r, run_p (k r))
  | pReadFinalized k => run_p (k (mem_finalized n)) n
  | pReadStore k => run_p (k (mem_store n)) n
  | pSetFinalized slot k => run_p k (mkNodeDb (prov n) slot (mem_store n))
  | pSetStore slot k => run_p k (mkNodeDb (prov n) (mem_finalized n) slot)
  end.

(** The storage that a provider and its counters represent. *)
Definition storage_of (n : node_db) (fs : list bool) : Storage :=
  mkStorage (contents (prov n)) fs (mem_finalized n) (mem_store n).

Lemma batch_built (b : batch) bt : Forall (λ p, key_plain p.1) b →
  batch_ops (foldl (λ bt o, b_Put o.1 o.2 bt) bt b) = batch_ops bt ++ ((λ p, (p.1, Some p.2)) <$> b).
Proof.
  intros Hb. revert bt. induction Hb as [|[k v] b Hk _ IH]; intros bt; simpl; [by rewrite app_nil_r|].
  rewrite IH, b_Put_law by done. by rewrite <- (assoc_L (++)).
Qed.

Lemma ops_apply_puts (b : batch) d : ops_apply ((λ p, (p.1, Some p.2)) <$> b) d = batch_apply b d.
Proof. revert d. induction b as [|[k v] b IH]; intros d; [done|]. apply IH. Qed.

Lemma p_WriteBatch_writes `{!AtomicBatch P} (b : batch) : Forall (λ p, key_plain p.1) b →
  writes contents (p_WriteBatch b) (batch_apply b).
Proof.
  intros Hb p. unfold p_WriteBatch. destruct (fst (fst (b_Write _ p))) as [[]|e] eqn:E.
  - rewrite b_Write_law, batch_built, Batch_law by done. apply ops_apply_puts.
  - by apply (b_Write_atomic _ _ e).
Qed.
Definition db_result {A} (r : result lib_error A) : result StoreError A :=
  match r with Ok a => Ok a | Err _ => Err DbError end.

Definition with_prov (n : node_db) (p : P) : node_db := mkNodeDb p (mem_finalized n) (mem_store n).

(** One call of the provider is one step of the map, with a fault when it fails. *)
Lemma step_read {A} (m : Op P A) (f : gmap string string → A) n :
  reads contents m (λ d a, a = f d) →
  ∃ fl, ∀ rest, db_step (λ d, (f d, d)) (storage_of n (fl :: rest)) =
    (db_result (fst (m (prov n))), storage_of (with_prov n (snd (m (prov n)))) rest).
Proof.
  intros Hm. destruct (Hm (prov n)) as [Hc Hr]. destruct (fst (m (prov n))) as [a|e];
    [exists false|exists true]; intros rest; unfold storage_of; simpl; by rewrite Hc, ?Hr.
Qed.

Lemma step_write (m : Op P unit) (f : gmap string string → gmap string string) n :
  writes contents m f →
  ∃ fl, ∀ rest, db_step (λ d, (tt, f d)) (storage_of n (fl :: rest)) =
    (db_result (fst (m (prov n))), storage_of (with_prov n (snd (m (prov n)))) rest).
Proof.
  intros Hm. pose proof (Hm (prov n)) as Hc. destruct (fst (m (prov n))) as [[]|e];
    [exists false|exists true]; intros rest; unfold storage_of; simpl; by rewrite Hc.
Qed.

(** A call of the provider followed by a program that is simulated. *)
Lemma step_then {A B} (m : Op P A) (step : ST A) (k : option A → dbprog B) n :
  (∃ fl, ∀ rest, step (storage_of n (fl :: rest)) =
     (db_result (fst (m (prov n))), storage_of (with_prov n (snd (m (prov n)))) rest)) →
  (∀ r n, ∃ fs, ∀ rest, run_st (k r) (storage_of n (fs ++ rest)) =
     (fst (run_p (k r) n), storage_of (snd (run_p (k r) n)) rest)) →
  ∃ fs, ∀ rest,
    (let '(r, s') := step (storage_of n (fs ++ rest)) in run_st (k (answer r)) s') =
    (fst (on_prov n m (λ r, run_p (k r))), storage_of (snd (on_prov n m (λ r, run_p (k r)))) rest).
Proof.
  intros [fl Hs] Hk. unfold on_prov. destruct (m (prov n)) as [r p]. simpl in Hs.
  destruct (Hk (answer r) (with_prov n p)) as [fs Hfs]. exists (fl :: fs). intros rest. simpl. rewrite Hs.
  replace (answer (db_result r)) with (answer r) by by destruct r. apply Hfs.
Qed.

Lemma run_p_simulated `{!AtomicBatch P} {A} (m : dbprog A) : uses key_plain m →
  ∀ n, ∃ fs, ∀ rest, run_st m (storage_of n (fs ++ rest)) =
    (fst (run_p m n), storage_of (snd (run_p m n)) rest).
Proof.
  induction m as [r|key k IH|key k IH|key v k IH|keys k IH|b k IH|k IH|k IH|slot k IH|slot k IH];
    intros Hu n; simpl in Hu |- *.
  - by exists [].
  - destruct Hu. apply step_then; [apply step_read, Get_law|]; auto.
  - destruct Hu. apply step_then; [apply step_read, Has_law|]; auto.
  - destruct Hu. apply step_then; [apply step_write, Put_law|]; auto.
  - destruct Hu. apply step_then; [apply step_read, GetBatch_law|]; auto.
  - destruct Hu. apply step_then; [apply step_write, p_WriteBatch_writes|]; auto.
  - by apply IH.
  - by apply IH.
  - by apply (IH Hu (mkNodeDb _ _ _)).
  - by apply (IH Hu (mkNodeDb _ _ _)).
Qed.
End Provider.
Arguments node_db P : clear implicits.

(** ** The stores are programs *)

Section Programs.
Context `{TxEnv, StoreCodec}.

Definition program_ret {A} (r : result StoreError A) : Program (λ s, (r, s)) :=
  Build_Program _ _ (pDone r) I (λ _, eq_refl).

Definition bind_code {A B} (m : dbprog A) (k : A → dbprog B) : dbprog B :=
  prog_bind m (λ r, match r with Ok a => k a | Err e => pDone (Err e) end).

Lemma bind_code_keys {A B} ok (m : dbprog A) (k : A → dbprog B) :
  uses ok m → (∀ a, uses ok (k a)) → uses ok (bind_code m k).
Proof. intros Hm Hk. apply uses_bind; [done|]. by intros []. Qed.

Lemma bind_code_run {A B} (m : ST A) (k : A → ST B) (Pm : Program m) (Pk : ∀ a, Program (k a)) s :
  run_st (bind_code (@code _ _ Pm) (λ a, @code _ _ (Pk a))) s = (m ≫= k) s.
Proof.
  unfold bind_code. rewrite run_bind, code_run, st_bind_eq. destruct (m s) as [[a|e] s']; simpl; [|done].
  apply code_run.
Qed.

Definition program_bind {A B} (m : ST A) (k : A → ST B) (Pm : Program m) (Pk : ∀ a, Program (k a)) :
    Program (m ≫= k) :=
  Build_Program _ _ (bind_code (@code _ _ Pm) (λ a, @code _ _ (Pk a)))
    (bind_code_keys _ _ _ (@code_keys _ _ Pm) (λ a, @code_keys _ _ (Pk a))) (bind_code_run m k Pm Pk).

(** The result of a call, or the error of the database. *)
Definition or_db_error {A} (r : option A) : dbprog A :=
  pDone (match r with Some a => Ok a | None => Err DbError end).

Lemma db_step_errors {A} (f : gmap string string → A * gmap string string) s :
  (let '(r, s') := db_step f s in run_st (or_db_error (answer r)) s') = db_step f s.
Proof. unfold db_step. destruct (faults s) as [|[|] fs]; [| |]; try done; by destruct (f (data s)). Qed.

Definition program_Get (key : string) (Hk : is_key key) : Program (db_Get key) :=
  Build_Program _ _ (pGet key or_db_error) (conj Hk (λ _, I)) (db_step_errors _).
Definition program_Has (key : string) (Hk : is_key key) : Program (db_Has key) :=
  Build_Program _ _ (pHas key or_db_error) (conj Hk (λ _, I)) (db_step_errors _).
Definition program_Put (key value : string) (Hk : is_key key) : Program (db_Put key value) :=
  Build_Program _ _ (pPut key value or_db_error) (conj Hk (λ _, I)) (db_step_errors _).
Definition program_GetBatch (keys : list string) (Hk : Forall is_key keys) : Program (db_GetBatch keys) :=
  Build_Program _ _ (pGetBatch keys or_db_error) (conj Hk (λ _, I)) (db_step_errors _).
Definition program_Write (b : batch) (Hk : Forall (λ p, is_key p.1) b) : Program (batch_Write b) :=
  Build_Program _ _ (pWrite b or_db_error) (conj Hk (λ _, I)) (db_step_errors _).
Definition program_setFinalized (slot : Z) : Program (set_latestFinalized slot) :=
  Build_Program _ (set_latestFinalized slot) (pSetFinalized slot (pDone (Ok tt))) I (λ _, eq_refl).
Definition program_setStore (slot : Z) : Program (set_latestStore slot) :=
  Build_Program _ (set_latestStore slot) (pSetStore slot (pDone (Ok tt))) I (λ _, eq_refl).

(** A read of a counter. *)
Definition program_getFinalized {B} (k : Z → ST B) (Pk : ∀ z, Program (k z)) :
    Program (st_get ≫= λ s, k (latestFinalized s)) :=
  Build_Program _ (st_get ≫= λ s, k (latestFinalized s)) (pReadFinalized (λ z, @code _ _ (Pk z)))
    (λ z, @code_keys _ _ (Pk z)) (λ s, @code_run _ _ (Pk _) s).
Definition program_getStore {B} (k : Z → ST B) (Pk : ∀ z, Program (k z)) :
    Program (st_get ≫= λ s, k (latestStore s)) :=
  Build_Program _ (st_get ≫= λ s, k (latestStore s)) (pReadStore (λ z, @code _ _ (Pk z)))
    (λ z, @code_keys _ _ (Pk z)) (λ s, @code_run _ _ (Pk _) s).

(** A value that has to be there, which the rest may rely on. *)
Definition program_some {A B} (e : StoreError) (o : option A) (k : A → ST B) :
    (∀ a, o = Some a → Program (k a)) → Program (st_some e o ≫= k) :=
  match o with
  | Some a => λ Pk, Build_Program _ (st_some e (Some a) ≫= k) (@code _ _ (Pk a eq_refl))
                      (@code_keys _ _ (Pk a eq_refl)) (@code_run _ _ (Pk a eq_refl))
  | None => λ _, Build_Program _ (st_some e None ≫= k) (pDone (Err e)) I (λ _, eq_refl)
  end.

Definition catch_code {A} (a : A) (m : dbprog A) : dbprog A :=
  prog_bind m (λ r, pDone (Ok (default a (answer r)))).

Lemma catch_code_keys {A} ok (a : A) (m : dbprog A) : uses ok m → uses ok (catch_code a m).
Proof. intros Hm. by apply uses_bind. Qed.

Lemma or_false_run (m : ST bool) (Pm : Program m) s :
  run_st (catch_code false (@code _ _ Pm)) s = or_false m s.
Proof.
  unfold catch_code, or_false. rewrite run_bind, code_run. by destruct (m s) as [[b|e] s'].
Qed.

Definition program_or_false (m : ST bool) (Pm : Program m) : Program (or_false m) :=
  Build_Program _ (or_false m) (catch_code false (@code _ _ Pm))
    (catch_code_keys _ _ _ (@code_keys _ _ Pm)) (or_false_run m Pm).

Lemma key_of_is dk : is_key (key_of dk).
Proof. by exists dk. Qed.

Lemma keys_are {A} (f : A → dbkey) (l : list A) : Forall is_key ((key_of ∘ f) <$> l).
Proof. apply Forall_fmap, Forall_forall. intros a _. apply key_of_is. Qed.

(** The records that a list of values is marshalled to. *)
Lemma mapM_keys {A} (f : A → dbkey) (marshal : A → option string) l b :
  mapM (λ a, v ← marshal a; Some (key_of (f a), v)) l = Some b → Forall (λ p, is_key p.1) b.
Proof.
  intros Hb%mapM_Some. induction Hb as [|a p l b Hp _ IH]; constructor; [|done].
  destruct (marshal a); simplify_option_eq. apply key_of_is.
Qed.

(** A batch of marshalled values, then the rest. *)
Definition program_batch {A B} (f : A → dbkey) (marshal : A → option string) (l : list A) (k : batch → ST B)
    (Pk : ∀ b, Forall (λ p, is_key p.1) b → Program (k b)) : Program (batch_of (key_of ∘ f) marshal l ≫= k) :=
  program_some _ _ _ (λ b E, Pk b (mapM_keys f marshal l b E)).

(** Follows the structure of a computation; the keys are left. *)
Ltac program :=
  repeat (cbv zeta; lazymatch goal with
  | |- ∀ _, _ => intro
  | |- Program (if ?b then _ else _) => destruct b
  | |- Program (match ?o with Some _ => _ | None => _ end) => destruct o
  | |- Program (mret _) => apply program_ret
  | |- Program (st_throw _) => apply program_ret
  | |- Program (set_latestFinalized _) => apply program_setFinalized
  | |- Program (set_latestStore _) => apply program_setStore
  | |- Program (st_some _ _ ≫= _) => apply program_some
  | |- Program (st_get ≫= _) => fail
  | |- Program (_ ≫= _) => apply program_bind
  | |- Program (or_false _) => apply program_or_false
  | |- Program (db_Get _) => apply program_Get
  | |- Program (db_Has _) => apply program_Has
  | |- Program (db_Put _ _) => apply program_Put
  | |- Program (db_GetBatch _) => apply program_GetBatch
  | |- Program (batch_Write _) => apply program_Write
  end).

Definition account_Store_program a : Program (account_Store a).
Proof. unfold account_Store. program. apply (key_of_is (KAccount (Address a))). Defined.

Definition account_StoreBatch_program l : Program (account_StoreBatch l).
Proof. apply (program_batch (KAccount ∘ Address)). intros b Hb. by apply program_Write. Defined.

Definition account_GetByAddr_program a : Program (account_GetByAddr a).
Proof. unfold account_GetByAddr. program. apply (key_of_is (KAccount a)). Defined.

Definition account_GetBatch_program addrs : Program (account_GetBatch addrs).
Proof. unfold account_GetBatch. program. apply (keys_are KAccount). Defined.

Definition account_ExistsByAddr_program a : Program (account_ExistsByAddr a).
Proof. unfold account_ExistsByAddr. program. apply (key_of_is (KAccount a)). Defined.

Definition tx_StoreBatch_program l : Program (tx_StoreBatch l).
Proof.
  unfold tx_StoreBatch. destruct (bool_decide _); [apply program_ret|].
  apply (program_batch (KTx ∘ Hash)). intros b Hb. by apply program_Write.
Defined.

Definition tx_GetByHash_program h : Program (tx_GetByHash h).
Proof.
  unfold tx_GetByHash. program; [apply (key_of_is (KTx h))|]. destruct (json_to_tx _); apply program_ret.
Defined.

Definition tx_GetBatch_program hs : Program (tx_GetBatch hs).
Proof. unfold tx_GetBatch. program. apply (keys_are KTx). Defined.

Definition GetLatestVersionContentHash_program h : Program (GetLatestVersionContentHash h).
Proof. unfold GetLatestVersionContentHash. program. apply (key_of_is (KVersion h)). Defined.

Definition GetBatchLatestVersionContentHash_program hs : Program (GetBatchLatestVersionContentHash hs).
Proof. unfold GetBatchLatestVersionContentHash. program. apply (keys_are KVersion). Defined.

Definition meta_StoreBatch_program l : Program (meta_StoreBatch l).
Proof.
  unfold meta_StoreBatch. destruct (bool_decide _); [apply program_ret|].
  apply (program_batch (KMeta ∘ TxHash)). intros b Hb. by apply program_Write.
Defined.

Definition meta_GetByHash_program h : Program (meta_GetByHash h).
Proof.
  unfold meta_GetByHash. program; [apply (key_of_is (KMeta h))|]. destruct (json_to_meta _); apply program_ret.
Defined.

Definition meta_GetBatch_program hs : Program (meta_GetBatch hs).
Proof. unfold meta_GetBatch. program. apply (keys_are KMeta). Defined.

Definition read_counter_program dk : Program (read_counter (key_of dk)).
Proof. unfold read_counter. program. apply key_of_is. Defined.

Definition loadLatestFinalized_program : Program loadLatestFinalized.
Proof.
  unfold loadLatestFinalized. program; [apply (read_counter_program KLatestFinalized)|].
  apply (read_counter_program KLatestStore).
Defined.

Definition block_GetBatch_program slots : Program (block_GetBatch slots).
Proof. unfold block_GetBatch. program. apply (keys_are KBlock). Defined.

Definition HasCompleteBlock_program slot : Program (HasCompleteBlock slot).
Proof. unfold HasCompleteBlock. program. apply (key_of_is (KBlock slot)). Defined.

Definition IsApplied_program slot : Program (IsApplied slot).
Proof. unfold IsApplied. program. apply (key_of_is (KFinalized slot)). Defined.

(** The block of an answer. *)
Definition block_code (r : option (option string)) : dbprog (option Block) :=
  pDone (Ok (v ← r; d ← v; json_to_block d)).

Lemma store_Block_run slot s : run_st (pGet (slotToBlockKey slot) block_code) s = store_Block slot s.
Proof. unfold store_Block. simpl. by destruct (db_Get _ s) as [[[v|]|e] s']. Qed.

Definition store_Block_program slot : Program (store_Block slot) :=
  Build_Program _ (store_Block slot) (pGet (slotToBlockKey slot) block_code)
    (conj (key_of_is (KBlock slot)) (λ _, I)) (store_Block_run slot).

Definition LastEntryInfoAtSlot_program slot : Program (LastEntryInfoAtSlot slot).
Proof. unfold LastEntryInfoAtSlot. apply program_bind; [apply store_Block_program|]. intros b. apply program_ret. Defined.

Lemma pending_puts_keys slot blockHash l puts :
  mapM (tx_puts slot blockHash) l = Some puts → Forall (λ p, is_key p.1) (concat puts).
Proof.
  intros Hp%mapM_Some. induction Hp as [|tx b l puts Hb _ IH]; [constructor|]. simpl.
  apply Forall_app. split; [|done]. unfold tx_puts in Hb. simplify_option_eq.
  repeat constructor; [apply (key_of_is (KTx _))|apply (key_of_is (KMeta _))].
Qed.

Lemma version_puts_keys latest b : version_puts latest = Some b → Forall (λ p, is_key p.1) b.
Proof. apply (mapM_keys (λ p : string * string, KVersion p.1) (λ p, hex_DecodeString p.2)). Qed.

Lemma program_ext_run {A} (m m' : ST A) (Hm : ∀ s, m' s = m s) (Pm : Program m') s :
  run_st (@code _ _ Pm) s = m s.
Proof. by rewrite code_run. Qed.

Definition program_ext {A} (m m' : ST A) (Hm : ∀ s, m' s = m s) (Pm : Program m') : Program m :=
  Build_Program _ m (@code _ _ Pm) (@code_keys _ _ Pm) (program_ext_run m m' Hm Pm).

(** What [AddBlockPending] does after the block is known to be new. *)
Definition add_rest (b : BroadcastedBlock) (value : string) (metaPuts : batch) : ST unit :=
  let slot := bSlot (bb_core b) in
  puts ← st_some MarshalError (mapM (tx_puts slot (HashString (bb_core b))) (block_txs b));
  batch_Write ([(slotToBlockKey slot, value)] ++ metaPuts ++ concat puts).

Definition add_rest_program b value metaPuts :
  Forall (λ p, is_key p.1) metaPuts → Program (add_rest b value metaPuts).
Proof.
  intros Hm. unfold add_rest. cbv zeta. apply program_some. intros puts Hp. apply program_Write.
  constructor; [apply (key_of_is (KBlock _))|]. apply Forall_app. split; [done|]. by eapply pending_puts_keys.
Defined.

Definition AddBlockPending_program b : Program (AddBlockPending b).
Proof.
  unfold AddBlockPending. destruct b as [b|]; [|apply program_ret]. cbv zeta.
  apply program_bind; [apply program_Has, (key_of_is (KBlock _))|]. intros [|]; [apply program_ret|].
  apply program_some. intros value _. set (slot := bSlot (bb_core b)).
  apply (program_getStore (λ z,
    (if z <? slot then (_ ← set_latestStore slot; mret [(latest_store_key, PutUint64 slot)])
     else mret ([] : batch)) ≫= add_rest b value)).
  intros z. destruct (z <? slot).
  - apply (program_ext _ (_ ← set_latestStore slot; add_rest b value [(latest_store_key, PutUint64 slot)]));
      [done|].
    apply program_bind; [apply program_setStore|]. intros _. apply add_rest_program.
    repeat constructor. apply (key_of_is KLatestStore).
  - by apply add_rest_program.
Defined.

(** The batch of [FinalizeBlock]. *)
Lemma finalize_batch_keys slot (blkValue : string) (metas accs versions : batch) (b : bool) :
  Forall (λ p, is_key p.1) metas → Forall (λ p, is_key p.1) accs → Forall (λ p, is_key p.1) versions →
  Forall (λ p, is_key p.1) ([(slotToBlockKey slot, blkValue)] ++ metas ++ accs ++ versions ++
    [(slotToFinalizedKey slot, String (to_byte 1) "")] ++
    (if b then [(latest_finalized_key, PutUint64 slot)] else [])).
Proof.
  intros Hm Ha Hv. rewrite !Forall_app, !Forall_singleton.
  split_and!; try done; [apply (key_of_is (KBlock _))|apply (key_of_is (KFinalized _))|].
  destruct b; repeat constructor. apply (key_of_is KLatestFinalized).
Qed.

Definition store_FinalizeBlock_program blk metas accounts latest :
  Program (store_FinalizeBlock blk metas accounts latest).
Proof.
  unfold store_FinalizeBlock. cbv zeta.
  apply program_bind; [apply HasCompleteBlock_program|]. intros [|]; [|apply program_ret]. cbn [negb].
  apply program_some. intros blkValue _.
  apply (program_batch (KMeta ∘ TxHash)). intros ms Hms.
  apply (program_batch (KAccount ∘ Address)). intros accs Haccs.
  apply program_some. intros versions Hv%version_puts_keys.
  set (slot := bSlot (blk_core blk)).
  apply (program_getFinalized (λ z,
    _ ← batch_Write ([(slotToBlockKey slot, blkValue)] ++ ms ++ accs ++ versions ++
          [(slotToFinalizedKey slot, String (to_byte 1) "")] ++
          (if z <? slot then [(latest_finalized_key, PutUint64 slot)] else []));
    set_latestFinalized slot)).
  intros z. apply program_bind; [|intros _; apply program_setFinalized].
  apply program_Write. by apply finalize_batch_keys.
Defined.

(** ** Sessions of store operations *)

Inductive store_call : Type → Type :=
| CallAccountStore (a : Account) : store_call unit
| CallAccountStoreBatch (l : list Account) : store_call unit
| CallGetByAddr (addr : string) : store_call (option Account)
| CallAccountGetBatch (addrs : list string) : store_call (gmap string Account)
| CallExistsByAddr (addr : string) : store_call bool
| CallTxStoreBatch (l : list Transaction) : store_call unit
| CallTxGetByHash (h : string) : store_call Transaction
| CallTxGetBatch (hs : list string) : store_call (list Transaction)
| CallLatestVersion (h : string) : store_call string
| CallLatestVersions (hs : list string) : store_call (gmap string string)
| CallMetaStoreBatch (l : list TransactionMeta) : store_call unit
| CallMetaGetByHash (h : string) : store_call TransactionMeta
| CallMetaGetBatch (hs : list string) : store_call (gmap string TransactionMeta)
| CallLoad : store_call unit
| CallBlock (slot : Z) : store_call (option Block)
| CallBlockGetBatch (slots : list Z) : store_call (gmap Z Block)
| CallHasCompleteBlock (slot : Z) : store_call bool
| CallIsApplied (slot : Z) : store_call bool
| CallLastEntryInfo (slot : Z) : store_call (option SlotBoundary)
| CallAddBlockPending (b : option BroadcastedBlock) : store_call unit
| CallFinalizeBlock (blk : Block) (metas : gmap string TransactionMeta)
    (accounts : gmap string Account) (latest : gmap string string) : store_call unit.

Definition store_run {R} (c : store_call R) : ST R :=
  match c in store_call T return ST T with
  | CallAccountStore a => account_Store a
  | CallAccountStoreBatch l => account_StoreBatch l
  | CallGetByAddr addr => account_GetByAddr addr
  | CallAccountGetBatch addrs => account_GetBatch addrs
  | CallExistsByAddr addr => account_ExistsByAddr addr
  | CallTxStoreBatch l => tx_StoreBatch l
  | CallTxGetByHash h => tx_GetByHash h
  | CallTxGetBatch hs => tx_GetBatch hs
  | CallLatestVersion h => GetLatestVersionContentHash h
  | CallLatestVersions hs => GetBatchLatestVersionContentHash hs
  | CallMetaStoreBatch l => meta_StoreBatch l
  | CallMetaGetByHash h => meta_GetByHash h
  | CallMetaGetBatch hs => meta_GetBatch hs
  | CallLoad => loadLatestFinalized
  | CallBlock slot => store_Block slot
  | CallBlockGetBatch slots => block_GetBatch slots
  | CallHasCompleteBlock slot => HasCompleteBlock slot
  | CallIsApplied slot => IsApplied slot
  | CallLastEntryInfo slot => LastEntryInfoAtSlot slot
  | CallAddBlockPending b => AddBlockPending b
  | CallFinalizeBlock blk metas accounts latest => store_FinalizeBlock blk metas accounts latest
  end.

(** The calls that an operation makes to its provider. *)
Definition store_program {R} (c : store_call R) : Program (store_run c) :=
  match c as c' in store_call T return Program (@store_run T c') with
  | CallAccountStore a => account_Store_program a
  | CallAccountStoreBatch l => account_StoreBatch_program l
  | CallGetByAddr addr => account_GetByAddr_program addr
  | CallAccountGetBatch addrs => account_GetBatch_program addrs
  | CallExistsByAddr addr => account_ExistsByAddr_program addr
  | CallTxStoreBatch l => tx_StoreBatch_program l
  | CallTxGetByHash h => tx_GetByHash_program h
  | CallTxGetBatch hs => tx_GetBatch_program hs
  | CallLatestVersion h => GetLatestVersionContentHash_program h
  | CallLatestVersions hs => GetBatchLatestVersionContentHash_program hs
  | CallMetaStoreBatch l => meta_StoreBatch_program l
  | CallMetaGetByHash h => meta_GetByHash_program h
  | CallMetaGetBatch hs => meta_GetBatch_program hs
  | CallLoad => loadLatestFinalized_program
  | CallBlock slot => store_Block_program slot
  | CallBlockGetBatch slots => block_GetBatch_program slots
  | CallHasCompleteBlock slot => HasCompleteBlock_program slot
  | CallIsApplied slot => IsApplied_program slot
  | CallLastEntryInfo slot => LastEntryInfoAtSlot_program slot
  | CallAddBlockPending b => AddBlockPending_program b
  | CallFinalizeBlock blk metas accounts latest => store_FinalizeBlock_program blk metas accounts latest
  end.

Definition any_call : Type := {R : Type & store_call R}.
Definition any_result : Type := {R : Type & result StoreError R}.
Definition call {R : Type} (c : store_call R) : any_call := existT R c.
Definition res {R : Type} (r : result StoreError R) : any_result := existT R r.

(** Operations one after the other, with their results; an error does not end the
    session. *)
Fixpoint session_st (l : list any_call) (s : Storage)
    : list any_result * Storage :=
  match l with
  | [] => ([], s)
  | existT R c :: l' =>
      let '(r, s') := store_run c s in
      let '(rs, s'') := session_st l' s' in (res r :: rs, s'')
  end.

Fixpoint session_p `{DatabaseProvider P} (l : list any_call) (n : node_db P)
    : list any_result * node_db P :=
  match l with
  | [] => ([], n)
  | existT R c :: l' =>
      let '(r, n') := run_p (@code _ _ (store_program c)) n in
      let '(rs, n'') := session_p l' n' in (res r :: rs, n'')
  end.

Lemma uses_impl {A} (ok ok' : string → Prop) (m : dbprog A) :
  (∀ k, ok k → ok' k) → uses ok m → uses ok' m.
Proof. intros Hi. induction m; simpl; intros Hu; try naive_solver eauto using Forall_impl. Qed.

Lemma session_simulated `{PL : ProviderLaws P, !AtomicBatch P} l n :
  (∀ dk, key_plain (key_of dk)) →
  ∃ fs, ∀ rest, session_st l (storage_of n (fs ++ rest)) =
    (fst (session_p l n), storage_of (snd (session_p l n)) rest).
Proof.
  intros Hk. revert n. induction l as [|[R c] l IH]; intros n; [by exists []|]. simpl.
  destruct (run_p_simulated (@code _ _ (store_program c))
              (uses_impl _ _ _ (λ k '(ex_intro _ dk E), eq_ind_r key_plain (Hk dk) E) (@code_keys _ _ (store_program c))) n)
    as [fs1 E1].
  destruct (run_p (@code _ _ (store_program c)) n) as [r n'] eqn:Er. destruct (IH n') as [fs2 E2].
  exists (fs1 ++ fs2). intros rest. rewrite <- (assoc_L (++)), <- (@code_run _ _ (store_program c)), E1. simpl. rewrite E2.
  by destruct (session_p l n').
Qed.
End Programs.

(** ** Theorems *)

Section Theorems.
Context `{TxEnv, StoreCodec}.

(** [C7] A session of store operations over a provider with the promises and atomic
    batches, LevelDB or RocksDB with the laws of their libraries, gives the results
    that it gives over the map of Store.v under some script of failing operations,
    and the contents of the provider and the counters in memory are those of that
    run.  What is proved of the stores, for every script, so holds over the
    providers. *)
Theorem stores_refine_provider `{PL : ProviderLaws P, !AtomicBatch P} (l : list any_call)
    (n : node_db P) (Hk : ∀ dk, key_plain (key_of dk)) :
  ∃ fs, session_st l (storage_of n fs) = (fst (session_p l n), storage_of (snd (session_p l n)) []).
Proof.
  destruct (session_simulated l n Hk) as [fs Hfs]. exists fs. by rewrite <- (Hfs []), app_nil_r.
Qed.
End Theorems.

(** The keys of the stores are stored as they are in Redis: none of them has the
    prefix that is converted. *)
Theorem store_keys_plain (dk : dbkey) : plain_key (key_of dk).
Proof. by destruct dk. Qed.

(** ** Iteration over a prefix *)

Lemma prefix_key_le p k : HasPrefix k p = true → key_le p k = true.
Proof.
  revert k. induction p as [|c p IH]; intros [|c' k]; try done. simpl.
  destruct (ascii_dec c c') as [->|]; [|done]. intros Hp. rewrite Z.ltb_irrefl. by apply IH.
Qed.

(** A key after one that is past the prefix is past it too. *)
Lemma past_prefix p k k' :
  key_le p k = true → HasPrefix k p = false → key_le k k' = true → HasPrefix k' p = false.
Proof.
  revert k k'. induction p as [|c p IH]; intros [|c1 k] [|c2 k'] Hle Hp Hk; try done. simpl in *.
  destruct (ascii_dec c c2) as [->|Hc2]; [|done]. destruct (ascii_dec c2 c1) as [->|Hc1].
  - rewrite Z.ltb_irrefl in *. by apply (IH k).
  - destruct (byte_at c2 <? byte_at c1) eqn:E; [destruct (byte_at c1 <? byte_at c2) eqn:E'; [lia|done]|].
    destruct (byte_at c1 <? byte_at c2) eqn:E'; [done|]. destruct Hc1.
    rewrite <- (to_byte_at c1), <- (to_byte_at c2). f_equal. lia.
Qed.

Lemma prefix_len p k : HasPrefix k p = true → string_len p ≤ string_len k.
Proof.
  unfold string_len. revert k. induction p as [|c p IH]; intros [|c' k]; simpl; try done.
  destruct (ascii_dec c c'); [|done]. intros ?%IH. lia.
Qed.

Lemma loop_guard p k :
  ((string_len k <? string_len p) || negb (HasPrefix k p)) = negb (HasPrefix k p).
Proof.
  destruct (HasPrefix k p) eqn:E; [|apply orb_true_r]. apply prefix_len in E. simpl. rewrite orb_false_r. lia.
Qed.

(** The callback on the entries in order, as long as it returns true. *)
Fixpoint visit {S} (callback : string → string → S → bool * S) (l : list (string * string)) (s : S) : S :=
  match l with
  | [] => s
  | (k, v) :: l' => let '(go, s') := callback k v s in if go then visit callback l' s' else s'
  end.

#[local] Abbreviation with_prefix p l := (filter (λ kv : string * string, HasPrefix kv.1 p = true) l).
#[local] Abbreviation in_key_order l :=
  (StronglySorted (λ a b : string * string, key_le a.1 b.1 = true) l).

Lemma with_prefix_past p k l : key_le p k = true → HasPrefix k p = false →
  Forall (λ b : string * string, key_le k b.1 = true) l → with_prefix p l = [].
Proof.
  intros Hk Hp. induction 1 as [|[k' v] l Hb _ IH]; [done|]. simpl in Hb.
  rewrite filter_cons_False; [done|]. simpl. by rewrite (past_prefix p k k').
Qed.

Lemma iterate_sorted {S} p (callback : string → string → S → bool * S) l s :
  in_key_order l → Forall (λ kv : string * string, key_le p kv.1 = true) l →
  iterate p callback l s = visit callback (with_prefix p l) s.
Proof.
  intros Hs. revert s. induction Hs as [|[k v] l _ IH Hk]; intros s Hp; [done|].
  apply Forall_cons in Hp as [Hpk Hp]. simpl in *. rewrite loop_guard.
  destruct (HasPrefix k p) eqn:E; cbn [negb].
  - rewrite filter_cons_True by done. simpl. destruct (callback k v s) as [[|] s']; [by apply IH|done].
  - rewrite filter_cons_False by (simpl; congruence). by rewrite (with_prefix_past p k).
Qed.

Lemma key_le_trans a b c : key_le a b = true → key_le b c = true → key_le a c = true.
Proof.
  revert b c. induction a as [|x a IH]; intros [|y b] [|z c] H1 H2; try done. simpl in *.
  destruct (byte_at x <? byte_at y) eqn:E1, (byte_at y <? byte_at z) eqn:E2,
    (byte_at y <? byte_at x) eqn:E3, (byte_at z <? byte_at y) eqn:E4,
    (byte_at x <? byte_at z) eqn:E5, (byte_at z <? byte_at x) eqn:E6; try done; try lia. by apply (IH b).
Qed.

Lemma seek_sorted p l : in_key_order l →
  in_key_order (seek p l) ∧ Forall (λ kv : string * string, key_le p kv.1 = true) (seek p l) ∧
  with_prefix p (seek p l) = with_prefix p l.
Proof.
  induction 1 as [|[k v] l Hl IH Hk]; [split_and!; constructor|]. simpl. destruct (key_le p k) eqn:E.
  - split; [by constructor|]. split; [|done]. constructor; [done|]. eapply Forall_impl; [exact Hk|].
    intros b Hb. by eapply key_le_trans.
  - destruct IH as (? & ? & IH). split_and!; [done..|]. rewrite IH, filter_cons_False; [done|].
    simpl. intros Hp%prefix_key_le. congruence.
Qed.

(** [IteratePrefix] of the LevelDB and RocksDB providers: when the iterator yields its
    entries in the order of their keys, the callback is called with exactly those
    whose key has the prefix, in order, until it returns false, and the error is the
    one of the iterator. *)
Theorem iterate_prefix_visits {S} p (callback : string → string → S → bool * S) (it : iteration) s :
  StronglySorted (λ a b : string * string, key_le a.1 b.1 = true) (entries it) →
  iterate_prefix p callback it s =
    (match iter_Err it with Some e => Err e | None => Ok tt end,
     visit callback (filter (λ kv : string * string, HasPrefix kv.1 p = true) (entries it)) s).
Proof.
  intros Hs. unfold iterate_prefix. f_equal. destruct (seek_sorted p _ Hs) as (H1 & H2 & <-).
  by apply iterate_sorted.
Qed.

(** ** Closing, Redis and the factory *)

(** However often a LevelDB or RocksDB provider is closed, its database is closed once,
    and only the first [Close] can return an error. *)
Theorem closed_once `{LevelDB, RocksDB} (p : LevelDBProvider) (q : RocksDBProvider) :
  level_Close (snd (level_Close p)) = (Ok tt, snd (level_Close p)) ∧
  rocks_Close (snd (rocks_Close q)) = (Ok tt, snd (rocks_Close q)).
Proof.
  unfold level_Close, rocks_Close.
  destruct p as [[|] d], q as [[|] e]; simpl; try done; by destruct (ldb_Close d).
Qed.

(** Every configuration that is not for one of the three stores, or has no directory,
    is refused; without the build tag so is RocksDB; otherwise the provider of the
    type is returned, or the error of its library. *)
Theorem create_provider_outcomes `{LevelDB, RocksDB, Redis} (tag : bool) (c : StoreConfig) :
  match CreateProvider tag (Some c) with
  | Ok (ALevel p) => scType c = "leveldb" ∧ Directory c ≠ "" ∧ ldb_OpenFile (Directory c) = Ok (lvl_db p) ∧ lvl_once p = false
  | Ok (ARocks p) => scType c = "rocksdb" ∧ Directory c ≠ "" ∧ tag = true ∧
                     rdb_OpenDb optimized_options (Directory c) = Ok (rocks_db p) ∧ rocks_once p = false
  | Ok (ARedis p) => scType c = "redis" ∧ Directory c ≠ "" ∧ redis_client p = rds_NewClient "localhost:6379" ∧
                     rds_Ping (redis_client p) = Ok tt
  | Err _ =>
      scType c ∉ ["leveldb"; "rocksdb"; "redis"] ∨ Directory c = "" ∨
      (scType c = "rocksdb" ∧ tag = false) ∨
      (scType c = "leveldb" ∧ ∃ e, ldb_OpenFile (Directory c) = Err e) ∨
      (scType c = "rocksdb" ∧ ∃ e, rdb_OpenDb optimized_options (Directory c) = Err e) ∨
      (scType c = "redis" ∧ ∃ e, rds_Ping (rds_NewClient "localhost:6379") = Err e)
  end.
Proof.
  destruct c as [t dir]. unfold CreateProvider, storeconfig_Validate. simpl.
  case_bool_decide as Ht; [subst; left; set_solver|].
  case_bool_decide as Hd; [by right; left|].
  case_bool_decide as Hin; [|by left].
  unfold NewLevelDBProvider, NewOptimizedRocksDBProvider, open_rocks, NewRedisProvider.
  case_bool_decide; [destruct (ldb_OpenFile dir); naive_solver|].
  case_bool_decide; [destruct tag; [destruct (rdb_OpenDb optimized_options dir)|]; naive_solver|].
  case_bool_decide; [destruct (rds_Ping _) as [[]|] eqn:E; naive_solver|].
  unfold LevelDBStoreType, RocksDBStoreType, RedisStoreType in *. set_solver.
Qed.

(** ** Libraries with scripted failures *)

Module Examples.

Definition scripted : Type := gmap string string * list bool.

Definition script {A} (f : gmap string string → result lib_error A * gmap string string) : Op scripted A :=
  λ '(d, fs), if head fs is Some true then (Err (Failure "io"), (d, tail fs))
              else let '(r, d') := f d in (r, (d', tail fs)).

Definition script_key (k : string) : Op scripted string :=
  script (λ d, (match d !! k with Some v => Ok v | None => Err Absent end, d)).

Lemma script_reads {A} (f : gmap string string → A) : reads fst (script (λ d, (Ok (f d), d))) (λ d a, a = f d).
Proof. intros [d [|[|] fs]]; done. Qed.

Lemma script_writes {A} (a : A) f : writes fst (script (λ d, (Ok a, f d))) f.
Proof. intros [d [|[|] fs]]; done. Qed.

Lemma script_reads_key k : reads_key fst (script_key k) k.
Proof.
  intros [d fs]. unfold script_key, script.
  destruct (head fs) as [[|]|]; simpl; [done|..]; by destruct (d !! k) eqn:E.
Qed.

Definition example_ldb : LevelDB := {|
  ldb := scripted;
  ldb_OpenFile _ := Ok (∅, []);
  ldb_Get := script_key;
  ldb_Put k v := script (λ d, (Ok tt, <[k := v]> d));
  ldb_Delete k := script (λ d, (Ok tt, delete k d));
  ldb_Has k := script (λ d, (Ok (bool_decide (is_Some (d !! k))), d));
  ldb_Write b := script (λ d, (Ok tt, ops_apply b d));
  ldb_Close s := (Ok tt, s);
  ldb_NewIterator s := mkIteration (map_to_list s.1) None;
|}.

#[export] Instance example_ldb_laws : @LevelDBLaws example_ldb := {
  ldb_contents := (fst : @ldb example_ldb → gmap string string);
  ldb_Get_law := script_reads_key;
  ldb_Put_law k v := script_writes tt _;
  ldb_Delete_law k := script_writes tt _;
  ldb_Has_law k := script_reads _;
  ldb_Write_law b := script_writes tt _;
}.

(** Every command of a pipeline has a failure of its own. *)
Fixpoint exec_cmds (cs : list redis_cmd) (s : scripted) : scripted :=
  match cs with
  | [] => s
  | c :: cs' => exec_cmds cs' (snd (script (λ d, (Ok tt, ops_apply [cmd_op c] d)) s))
  end.

Definition example_redis : Redis := {|
  rds := scripted;
  rds_NewClient _ := (∅, []);
  rds_Ping _ := Ok tt;
  rds_Get := script_key;
  rds_MGet ks := script (λ d, (Ok ((λ k, d !! k) <$> ks), d));
  rds_Set k v := script (λ d, (Ok tt, <[k := v]> d));
  rds_Del k := script (λ d, (Ok tt, delete k d));
  rds_Exists k := script (λ d, (Ok (if d !! k is Some _ then 1 else 0), d));
  rds_Close s := (Ok tt, s);
  rds_Exec cs s := (if existsb id (take (length cs) s.2) then Err (Failure "io") else Ok tt, exec_cmds cs s);
|}.

Lemma exec_cmds_some cs s : ∃ dn, sublist dn cs ∧
  fst (exec_cmds cs s) = ops_apply (cmd_op <$> dn) (fst s) ∧
  (existsb id (take (length cs) s.2) = false → dn = cs).
Proof.
  revert s. induction cs as [|c cs IH]; intros [d fs]; [by exists []|]. simpl.
  destruct fs as [|[|] fs]; simpl.
  - destruct (IH (ops_apply [cmd_op c] d, [])) as (dn & Hs & E & Ha). exists (c :: dn).
    split; [by constructor|]. split; [done|]. intros _. f_equal. apply Ha. by destruct cs.
  - destruct (IH (d, fs)) as (dn & Hs & E & Ha). exists dn. split; [by constructor|]. done.
  - destruct (IH (ops_apply [cmd_op c] d, fs)) as (dn & Hs & E & Ha). exists (c :: dn).
    split; [by constructor|]. split; [done|]. intros Hf. f_equal. by apply Ha.
Qed.

Lemma exec_law cs (s : @rds example_redis) : ∃ dn, sublist dn cs ∧
  fst (snd (@rds_Exec example_redis cs s)) = ops_apply (cmd_op <$> dn) (fst s) ∧
  (fst (@rds_Exec example_redis cs s) = Ok tt → dn = cs).
Proof.
  destruct (exec_cmds_some cs s) as (dn & Hs & E & Ha). exists dn. split_and!; [done..|]. simpl.
  by destruct (existsb id _); [|intros _; apply Ha].
Qed.

#[export] Instance example_redis_laws : @RedisLaws example_redis := {
  rds_contents := (fst : @rds example_redis → gmap string string);
  rds_Get_law := script_reads_key;
  rds_MGet_law ks := script_reads _;
  rds_Set_law k v := script_writes tt _;
  rds_Del_law k := script_writes tt _;
  rds_Exists_law k := script_reads _;
  rds_Exec_law := exec_law;
}.

#[local] Existing Instance example_redis.

(** A batch that fails in Redis can leave a part of it written, here the second of two
    insertions; a batch of the other providers is written as a whole or not at all. *)
Theorem redis_batch_not_atomic :
  let p := mkRedis ((∅, [true]) : @rds example_redis) in
  let b := b_Put "tx:b" "2" (b_Put "tx:a" "1" p_Batch) in
  is_ok (fst (fst (b_Write b p))) = false ∧ contents (snd (fst (b_Write b p))) = {[ "tx:b" := "2" ]}.
Proof. done. Qed.

(** Two keys of which one is the converted form of the other share a value in Redis. *)
Theorem redis_keys_collide :
  let p := mkRedis ((∅, []) : @rds example_redis) in
  let p' := snd (p_Put "blocks:5" "x" p) in
  "blocks:5" ≠ "blocks:" +:+ PutUint64 5 ∧ fst (p_Get ("blocks:" +:+ PutUint64 5) p') = Ok (Some "x").
Proof. by split; [|vm_compute]. Qed.

#[local] Existing Instance example_ldb.

(** The two clauses of a session over LevelDB: a block is looked up, and a failing
    insertion leaves the database empty. *)
Lemma stores_refine_provider_witness :
  ∃ fs, @session_st example_tx_env example_codec [call (CallAccountStore (mkAccount "a" 1 0));
                                    call (CallExistsByAddr "a")]
          (storage_of (mkNodeDb (mkLevel false ((∅, [true]) : @ldb example_ldb)) 0 0) fs) =
    ([@res unit (Err DbError); @res bool (Ok false)],
     storage_of (mkNodeDb (mkLevel false ((∅, []) : @ldb example_ldb)) 0 0) []).
Proof.
  destruct (@stores_refine_provider example_tx_env example_codec LevelDBProvider LevelDBProvider_provider
           LevelDBProvider_laws LevelDBProvider_atomic
           [call (CallAccountStore (mkAccount "a" 1 0)); call (CallExistsByAddr "a")]
           (mkNodeDb (mkLevel false ((∅, [true]) : @ldb example_ldb)) 0 0) (λ _, I))
    as [fs Hfs].
  exists fs. rewrite Hfs. reflexivity.
Defined.

Lemma iterate_prefix_visits_witness :
  iterate_prefix "tx:" (λ k v (s : list string), (bool_decide (length s < 1)%nat, s ++ [v]))
    (mkIteration [("blk:", "0"); ("tx:1", "a"); ("tx:2", "b"); ("tx:3", "c"); ("ty", "d")] None) [] = (Ok tt, ["a"; "b"]).
Proof.
  rewrite (iterate_prefix_visits "tx:"); [done|]. repeat constructor.
Defined.
End Examples.
