(* ===== verification/Tuning.v ===== *)
(** * The options of the RocksDB provider (db/rocksdb_provider.go)

    The constructors of the provider (Providers.v) set options of grocksdb, the Go
    package that wraps the C interface of RocksDB.  Here they are read as the
    option structs of the headers (Options.v): [OptionsLaws] has what the package
    documents, that new options are the defaults of the structs and that a setter
    assigns one member.  The theorems give the options each constructor opens its
    database with. *)

From stdpp Require Import base list gmap strings.
From Stdlib Require Import ZArith Lia.
From S2P Require Import Prelude Env GoLib Store Options Providers.

Open Scope string_scope.
Open Scope list_scope.
Open Scope Z_scope.

(** ** What grocksdb documents *)

Class OptionsLaws `{RocksDB, Library} := {
  options_of : rdb_options → Options;
  table_of : rdb_table_options → Table.BlockBasedTableOptions;
  cache_of : rdb_cache → Z;
  factory_of : Table.BlockBasedTableOptions → Z; (* NewBlockBasedTableFactory *)
  NewDefaultOptions_law : options_of rdb_NewDefaultOptions = Options_default;
  SetCreateIfMissing_law b o :
    options_of (rdb_SetCreateIfMissing b o) = set_create_if_missing b (options_of o);
  SetMaxBackgroundCompactions_law n o :
    options_of (rdb_SetMaxBackgroundCompactions n o) = set_max_background_compactions n (options_of o);
  SetMaxBackgroundFlushes_law n o :
    options_of (rdb_SetMaxBackgroundFlushes n o) = set_max_background_flushes n (options_of o);
  SetWriteBufferSize_law n o : options_of (rdb_SetWriteBufferSize n o) = set_write_buffer_size n (options_of o);
  SetMaxOpenFiles_law n o : options_of (rdb_SetMaxOpenFiles n o) = set_max_open_files n (options_of o);
  SetCompression_law c t o :
    CompressionType_of c = Some t → options_of (rdb_SetCompression c o) = set_compression t (options_of o);
  SnappyCompression_law :
    ∃ cpp, ("rocksdb_snappy_compression", rdb_SnappyCompression, cpp) ∈ c_compressions;
  NewTableOptions_law : table_of rdb_NewDefaultBlockBasedTableOptions = Table.BlockBasedTableOptions_default;
  SetBlockCache_law c t : table_of (rdb_SetBlockCache c t) = set_block_cache (Some (cache_of c)) (table_of t);
  SetTableFactory_law t o :
    options_of (rdb_SetBlockBasedTableFactory t o) = set_table_factory (Some (factory_of (table_of t))) (options_of o);
}.

Section Tuning.
Context `{OptionsLaws}.

(** ** Assignments *)

(** A setter changes the member it is named after and no other. *)
Ltac other_member :=
  intros Hn; unfold Options_members, ColumnFamilyOptions_members; cbn -[String.eqb];
  match type of Hn with _ ≠ ?s => rewrite ?(proj2 (String.eqb_neq s _)) by congruence end; reflexivity.

Lemma set_create_if_missing_other n v o : n ≠ "create_if_missing" →
  member n (Options_members (set_create_if_missing v o)) = member n (Options_members o).
Proof. other_member. Qed.
Lemma set_max_open_files_other n v o : n ≠ "max_open_files" →
  member n (Options_members (set_max_open_files v o)) = member n (Options_members o).
Proof. other_member. Qed.
Lemma set_max_background_compactions_other n v o : n ≠ "max_background_compactions" →
  member n (Options_members (set_max_background_compactions v o)) = member n (Options_members o).
Proof. other_member. Qed.
Lemma set_max_background_flushes_other n v o : n ≠ "max_background_flushes" →
  member n (Options_members (set_max_background_flushes v o)) = member n (Options_members o).
Proof. other_member. Qed.
Lemma set_write_buffer_size_other n v o : n ≠ "write_buffer_size" →
  member n (Options_members (set_write_buffer_size v o)) = member n (Options_members o).
Proof. other_member. Qed.
Lemma set_compression_other n v o : n ≠ "compression" →
  member n (Options_members (set_compression v o)) = member n (Options_members o).
Proof. other_member. Qed.
Lemma set_table_factory_other n v o : n ≠ "table_factory" →
  member n (Options_members (set_table_factory v o)) = member n (Options_members o).
Proof. other_member. Qed.

(** ** The options of the constructors *)

Lemma snappy_value : CompressionType_of rdb_SnappyCompression = Some kSnappyCompression.
Proof.
  destruct SnappyCompression_law as [cpp Hin]. unfold c_compressions in Hin.
  rewrite !elem_of_cons in Hin. destruct_or!; try by apply elem_of_nil in Hin.
  all: try (exfalso; congruence). injection Hin as -> _. reflexivity.
Qed.

(** The table options the optimized provider makes its table factory from. *)
Definition optimized_table : Table.BlockBasedTableOptions :=
  set_block_cache (Some (cache_of (rdb_NewLRUCache (128 * 1024 * 1024)))) Table.BlockBasedTableOptions_default.

Lemma plain_options_of : options_of plain_options = set_create_if_missing true Options_default.
Proof. unfold plain_options. by rewrite SetCreateIfMissing_law, NewDefaultOptions_law. Qed.

Lemma optimized_options_of : options_of optimized_options =
  set_max_open_files 1000 (set_compression kSnappyCompression
    (set_table_factory (Some (factory_of optimized_table)) (set_write_buffer_size (64 * 1024 * 1024)
      (set_max_background_flushes 2 (set_max_background_compactions 4
        (set_create_if_missing true Options_default)))))).
Proof.
  unfold optimized_options. rewrite SetMaxOpenFiles_law, (SetCompression_law _ _ _ snappy_value).
  rewrite SetTableFactory_law, SetBlockCache_law, NewTableOptions_law, SetWriteBufferSize_law.
  by rewrite SetMaxBackgroundFlushes_law, SetMaxBackgroundCompactions_law, SetCreateIfMissing_law,
    NewDefaultOptions_law.
Qed.

End Tuning.

(** ** A package that keeps these laws *)

Module TuningExamples.

#[local] Instance library : Library := {|
  Env_Default := 1; BytewiseComparator := 2; new_SkipListFactory := 3;
  kHostnameForDbHostId := lit "__hostname__"; kDefaultLogLevel := INFO_LEVEL; kUnknownColumnFamily := 2 ^ 31 - 1;
  constructor_compression := kSnappyCompression; constructor_table_factory := Some 4;
|}.

(** A database that is its contents, with the options as the structs themselves. *)
#[local] Instance package : RocksDB := {|
  rdb := gmap string string;
  rdb_options := Options;
  rdb_table_options := Table.BlockBasedTableOptions;
  rdb_cache := Z;
  rdb_NewDefaultOptions := Options_default;
  rdb_SetCreateIfMissing := set_create_if_missing;
  rdb_SetMaxBackgroundCompactions := set_max_background_compactions;
  rdb_SetMaxBackgroundFlushes := set_max_background_flushes;
  rdb_SetWriteBufferSize := set_write_buffer_size;
  rdb_NewDefaultBlockBasedTableOptions := Table.BlockBasedTableOptions_default;
  rdb_NewLRUCache n := n;
  rdb_SetBlockCache c := set_block_cache (Some c);
  rdb_SetBlockBasedTableFactory t := set_table_factory (Some (Table.block_size (Table.blocks_ t)));
  rdb_SnappyCompression := 1;
  rdb_SetCompression c o := match CompressionType_of c with Some t => set_compression t o | None => o end;
  rdb_SetMaxOpenFiles := set_max_open_files;
  rdb_OpenDb o _ := if DB.create_if_missing (DB.checks_ (db_options o)) then Ok ∅ else Err "does not exist";
  rdb_Get k d := (Ok (d !! k), d);
  rdb_MultiGet ks d := (Ok ((λ k, d !! k) <$> ks), d);
  rdb_Put k v d := (Ok tt, <[k := v]> d);
  rdb_Delete k d := (Ok tt, delete k d);
  rdb_Write b d := (Ok tt, ops_apply b d);
  rdb_Close d := d;
  rdb_NewIterator d := mkIteration (map_to_list d) None;
|}.

#[local] Instance package_laws : OptionsLaws.
Proof.
  refine {| options_of := λ o : rdb_options (RocksDB := package), o;
            table_of := λ t : rdb_table_options (RocksDB := package), t;
            cache_of := λ c : rdb_cache (RocksDB := package), c;
            factory_of := λ t, Table.block_size (Table.blocks_ t) |}; try done.
  - intros c t o Ht. simpl. by rewrite Ht.
  - exists 1. right. left.
Defined.

End TuningExamples.
