(* ===== verification/Ledger.v ===== *)
(** * The ledger (ledger/ledger.go)

    A finalized block is applied to the accounts it touches: the transfers in
    the order of the block, then the user contents, whose versions form chains.
    The new accounts, metas and versions are written by the block store in one
    batch.  The result has what the ledger tells the transaction tracker and the
    event router besides.  The JSON decoder of user contents is [ContentCodec].
    The lock makes each operation atomic. *)

From stdpp Require Import base list gmap strings.
From Stdlib Require Import ZArith Lia.
From S2P Require Import Prelude GoLib Transaction Poh Block Store BlockStore.

Open Scope string_scope.
Open Scope list_scope.
Open Scope Z_scope.

Record UserContent := mkContent {
  cType : string; cTitle : string; cDescription : string; ImageCIDs : list string;
  ParentHash : string; RootHash : string; ReferenceTxHashes : list string;
}.

Definition empty_content : UserContent := mkContent "" "" "" [] "" "" [].

Class ContentCodec := { json_to_content : string → option UserContent }.

Definition MaxReferenceTxs : Z := 10.

(** An address and amount of the genesis configuration. *)
Record GenesisAddress := mkGenesis { gAddress : string; gAmount : Z }.

Section Ledger.
Context `{TE : TxEnv, SC : StoreCodec, CC : ContentCodec}.

(** ** Accounts *)

Definition createAccountWithoutLocking (addr : string) (balance : Z) : ST Account :=
  existed ← account_ExistsByAddr addr;
  if (existed : bool) then st_throw AccountExisted
  else
    let account := mkAccount addr balance 0 in
    _ ← account_Store account;
    mret account.

Fixpoint CreateAccountsFromGenesis (addrs : list GenesisAddress) : ST unit :=
  match addrs with
  | [] => mret tt
  | a :: addrs' =>
      _ ← createAccountWithoutLocking (gAddress a) (gAmount a);
      CreateAccountsFromGenesis addrs'
  end.

Definition AccountExists (addr : string) : ST bool := account_ExistsByAddr addr.

(** A missing account is a nil pointer, whose balance panics: [None]. *)
Definition ledger_Balance (addr : string) (s : Storage) : option (result StoreError Z) * Storage :=
  match account_GetByAddr addr s with
  | (Ok (Some acc), s') => (Some (Ok (Balance acc)), s')
  | (Ok None, s') => (None, s')
  | (Err e, s') => (Some (Err e), s')
  end.

Definition GetAccount (addr : string) : ST (option Account) := account_GetByAddr addr.
Definition GetAccountBatch (addrs : list string) : ST (gmap string Account) := account_GetBatch addrs.

(** ** Transfers *)

Definition ensure_account (state : gmap string Account) (addr : string) : gmap string Account :=
  match state !! addr with
  | Some _ => state
  | None => <[addr := mkAccount addr 0 0]> state
  end.

Definition set_balance (b : Z) (a : Account) : Account := mkAccount (Address a) b (aNonce a).
Definition set_nonce (n : Z) (a : Account) : Account := mkAccount (Address a) (Balance a) n.

(** Sender and recipient are pointers into the state, so a transfer to oneself
    updates one account twice. *)
Definition applyTx (state : gmap string Account) (tx : option Transaction)
    : result string unit * gmap string Account :=
  match tx with
  | None => (Err "transaction cannot be nil", state)
  | Some tx =>
      match Amount tx with
      | None => (Err "transaction amount cannot be nil", state)
      | Some amount =>
          let state := ensure_account state (Sender tx) in
          let state := ensure_account state (Recipient tx) in
          match state !! Sender tx with
          | None => (Err "", state) (* the account was just ensured *)
          | Some sender =>
              if Balance sender <? amount then (Err "insufficient balance", state)
              else
                let state := alter (λ a, set_balance (u256_sub (Balance a) amount) a) (Sender tx) state in
                let state := alter (λ a, set_balance (u256_add (Balance a) amount) a) (Recipient tx) state in
                let state := alter (set_nonce (Nonce tx)) (Sender tx) state in
                (Ok tt, state)
          end
      end
  end.

(** ** User contents *)

Definition blank (s : string) : bool := bool_decide (TrimSpace s = "").

(** The error, if any, and the latest versions afterwards. *)
Definition validateUserContent (tx : Transaction) (related : gmap string Transaction)
    (latest : gmap string string) : option string * gmap string string :=
  let content := default empty_content (json_to_content (ExtraInfo tx)) in
  if blank (cType content) || blank (cTitle content) || blank (cDescription content)
  then (Some "user content required fields are missing", latest)
  else if ShouldValidateAddress (cType content) && negb (ValidateTxAddress (Recipient tx))
  then (Some "transaction address is invalid", latest)
  else if MaxReferenceTxs <? Z.of_nat (length (ReferenceTxHashes content))
  then (Some "user content data is invalid", latest)
  else if negb (forallb (λ h, bool_decide (is_Some (related !! h))) (ReferenceTxHashes content))
  then (Some "user content data is invalid", latest)
  else if bool_decide (ParentHash content = "") && bool_decide (RootHash content = "")
  then (None, <[Hash tx := Hash tx]> latest)
  else if bool_decide (ParentHash content = "") || bool_decide (RootHash content = "")
  then (Some "user content data is invalid", latest)
  else match related !! ParentHash content with
  | None => (Some "parent user content not found", latest)
  | Some parent =>
      if negb (Type_ parent =? TxTypeUserContent) || negb (bool_decide (Sender parent = Sender tx)) ||
         negb (bool_decide (Recipient parent = Recipient tx))
      then (Some "user content data is invalid", latest)
      else match latest !! RootHash content with
      | None => (Some "latest version user content not found", latest)
      | Some h =>
          if negb (bool_decide (h = ParentHash content))
          then (Some "parent user content is not the latest version", latest)
          else (None, <[RootHash content := Hash tx]> latest)
      end
  end.

(** ** Applying a block *)

(** The hashes of the transactions of the entries that are not ticks. *)
Definition block_tx_hashes (b : Block) : list string :=
  concat (TxHashes <$> filter (λ e, PTick e = false) (blk_Entries b)).

(** Appends the strings that are not in the list yet, in order. *)
Definition add_new (l : list string) (xs : list string) : list string :=
  foldl (λ l x, if bool_decide (x ∈ l) then l else l ++ [x]) l xs.

(** The addresses of the transfers. *)
Definition add_addrs (l : list string) (tx : Transaction) : list string :=
  if Type_ tx =? TxTypeUserContent then l else add_new l [Sender tx; Recipient tx].
Definition block_addrs (txs : list Transaction) : list string := foldl add_addrs [] txs.

Record Progress := mkProgress {
  accounts : gmap string Account; metas : gmap string TransactionMeta;
  contents : list Transaction; relatedHashes : list string; rootHashes : list string;
  removed : list string;
}.

Definition tx_meta (b : Block) (tx : Transaction) (err : option string) : TransactionMeta :=
  NewTxMeta (Some tx) (bSlot (blk_core b)) (HashString (blk_core b))
    (match err with Some _ => TxStatusFailed | None => TxStatusSuccess end) (default "" err).

Definition add_meta (b : Block) (tx : Transaction) (err : option string)
    (m : gmap string TransactionMeta) : gmap string TransactionMeta :=
  <[Hash tx := tx_meta b tx err]> m.

(** One transaction of the block; [tracked] if the tracker is told. *)
Definition process_tx (b : Block) (tracked : bool) (p : Progress) (tx : Transaction) : Progress :=
  let removed := if tracked then removed p ++ [Hash tx] else removed p in
  if Type_ tx =? TxTypeUserContent then
    match json_to_content (ExtraInfo tx) with
    | None =>
        mkProgress (accounts p) (add_meta b tx (Some "User content data is invalid") (metas p))
          (contents p) (relatedHashes p) (rootHashes p) removed
    | Some c =>
        let related := if bool_decide (ParentHash c = "") then relatedHashes p
                       else add_new (relatedHashes p) [ParentHash c] in
        let roots := if bool_decide (RootHash c = "") then rootHashes p
                     else add_new (rootHashes p) [RootHash c] in
        let related := add_new related (ReferenceTxHashes c) in
        mkProgress (accounts p) (metas p) (contents p ++ [tx]) related roots removed
    end
  else
    let '(r, state) := applyTx (accounts p) (Some tx) in
    let err := match r with Ok _ => None | Err e => Some e end in
    mkProgress state (add_meta b tx err (metas p)) (contents p) (relatedHashes p) (rootHashes p) removed.

(** One user content of the block. *)
Definition process_content (b : Block) (related : gmap string Transaction)
    (st : gmap string TransactionMeta * gmap string string) (tx : Transaction)
    : gmap string TransactionMeta * gmap string string :=
  let '(err, latest) := validateUserContent tx related (snd st) in
  (add_meta b tx err (fst st), latest).

Inductive TxEvent :=
| EvWriteFailed (tx : Transaction) (e : StoreError)
| EvFailed (tx : Transaction) (err : string)
| EvFinalized (tx : Transaction) (slot : Z) (blockHash : string).

(** What the ledger tells the tracker and the event router. *)
Record Outputs := mkOutputs { toTracker : list string; toEvents : list TxEvent }.

Definition finalized_event (b : Block) (metas : gmap string TransactionMeta) (tx : Transaction) : TxEvent :=
  match metas !! Hash tx with
  | Some meta =>
      if mStatus meta =? TxStatusFailed
      then EvFailed tx ("transaction application failed: " +:+ mError meta)
      else EvFinalized tx (bSlot (blk_core b)) (HashString (blk_core b))
  | None => EvFinalized tx (bSlot (blk_core b)) (HashString (blk_core b))
  end.

(** [hasTracker] and [hasRouter]: the tracker and the event router are not nil. *)
Definition ledger_FinalizeBlock (hasTracker hasRouter : bool) (b : Block) (isListener : bool)
    (s : Storage) : result StoreError unit * Storage * Outputs :=
  if InvalidPoH (blk_core b) then (Ok tt, s, mkOutputs [] [])
  else
    match tx_GetBatch (block_tx_hashes b) s with
    | (Err e, s) => (Err e, s, mkOutputs [] [])
    | (Ok txs, s) =>
    match account_GetBatch (block_addrs txs) s with
    | (Err e, s) => (Err e, s, mkOutputs [] [])
    | (Ok state, s) =>
    let p := foldl (process_tx b (hasTracker && negb isListener)) (mkProgress state ∅ [] [] [] []) txs in
    let out := mkOutputs (removed p) [] in
    match tx_GetBatch (relatedHashes p) s with
    | (Err e, s) => (Err e, s, out)
    | (Ok relatedTxs, s) =>
    let related := foldl (λ m tx, <[Hash tx := tx]> m) ∅ relatedTxs in
    match GetBatchLatestVersionContentHash (rootHashes p) s with
    | (Err e, s) => (Err e, s, out)
    | (Ok latest, s) =>
    let '(metas, latest) := foldl (process_content b related) (metas p, latest) (contents p) in
    match store_FinalizeBlock b metas (accounts p) latest s with
    | (Err e, s) =>
        (Err e, s, mkOutputs (removed p) (if hasRouter then (λ tx, EvWriteFailed tx e) <$> txs else []))
    | (Ok _, s) =>
        (Ok tt, s, mkOutputs (removed p) (if hasRouter then finalized_event b metas <$> txs else []))
    end end end end end.

(** ** Transfers conserve the balances *)

(** The balance of an address in a state; none is zero. *)
Definition balance_in (state : gmap string Account) (a : string) : Z :=
  match state !! a with Some acc => Balance acc | None => 0 end.

Lemma ensure_account_lookup state addr a :
  ensure_account state addr !! a =
  if bool_decide (a = addr) then Some (default (mkAccount addr 0 0) (state !! addr)) else state !! a.
Proof.
  unfold ensure_account. destruct (state !! addr) as [acc|] eqn:E; case_bool_decide as Ea; subst.
  - by rewrite E.
  - done.
  - by rewrite lookup_insert_eq.
  - by rewrite lookup_insert_ne.
Qed.

Lemma ensure_account_balance state addr a :
  balance_in (ensure_account state addr) a = balance_in state a.
Proof.
  unfold balance_in. rewrite ensure_account_lookup. case_bool_decide as E; [subst|done].
  by destruct (state !! addr).
Qed.

Lemma ensure_both_lookup state s r a :
  ensure_account (ensure_account state s) r !! a =
  if bool_decide (a = s ∨ a = r) then Some (default (mkAccount a 0 0) (state !! a)) else state !! a.
Proof.
  rewrite !ensure_account_lookup.
  destruct (decide (a = r)) as [->|Hr]; [|destruct (decide (a = s)) as [->|Hs]].
  - rewrite (bool_decide_true (r = r)), (bool_decide_true (_ ∨ _)) by tauto.
    destruct (decide (r = s)) as [->|]; [by rewrite bool_decide_true|by rewrite bool_decide_false].
  - by rewrite (bool_decide_false (s = r)), !bool_decide_true by tauto.
  - by rewrite !bool_decide_false by tauto.
Qed.

Lemma lookup_alter_if (f : Account → Account) (st : gmap string Account) i a :
  alter f i st !! a = (λ acc, if bool_decide (a = i) then f acc else acc) <$> (st !! a).
Proof.
  destruct (decide (a = i)) as [->|Hne].
  - rewrite lookup_alter_eq. by rewrite bool_decide_true.
  - rewrite lookup_alter_ne by done. rewrite bool_decide_false by done. by destruct (st !! a).
Qed.

(** What the state holds after a transfer, account by account. *)
Lemma applyTx_lookup state tx amount r state' a :
  Amount tx = Some amount → applyTx state (Some tx) = (r, state') →
  let base := if bool_decide (a = Sender tx ∨ a = Recipient tx)
              then Some (default (mkAccount a 0 0) (state !! a)) else state !! a in
  (r = Ok tt ↔ amount ≤ balance_in state (Sender tx)) ∧
  state' !! a =
  match r with
  | Err _ => base
  | Ok _ =>
      (λ acc,
        let acc := if bool_decide (a = Sender tx) then set_balance (u256_sub (Balance acc) amount) acc else acc in
        let acc := if bool_decide (a = Recipient tx) then set_balance (u256_add (Balance acc) amount) acc else acc in
        if bool_decide (a = Sender tx) then set_nonce (Nonce tx) acc else acc) <$> base
  end.
Proof.
  intros Ha. unfold applyTx. rewrite Ha.
  rewrite (ensure_both_lookup state (Sender tx) (Recipient tx) (Sender tx)), bool_decide_true by by left.
  unfold balance_in. replace (match state !! Sender tx with Some acc => Balance acc | None => 0 end)
    with (Balance (default (mkAccount (Sender tx) 0 0) (state !! Sender tx))) by by destruct (state !! Sender tx).
  destruct (Balance _ <? amount) eqn:E; intros [= <- <-]; simpl.
  - split; [split; [done|blia]|]. apply ensure_both_lookup.
  - split; [split; [blia|done]|]. rewrite !lookup_alter_if, ensure_both_lookup.
    destruct (if bool_decide (a = Sender tx ∨ a = Recipient tx) then _ else _); [|done]. simpl.
    by repeat case_bool_decide.
Qed.

(** The balances after a transfer. *)
Definition moved (tx : Transaction) (amount : Z) (f : string → Z) (a : string) : Z :=
  if bool_decide (Sender tx = Recipient tx) then f a
  else if bool_decide (a = Sender tx) then f a - amount
  else if bool_decide (a = Recipient tx) then wrap 256 (f a + amount)
  else f a.

Lemma applyTx_balance state tx amount r state' a :
  (∀ a, in_width 256 (balance_in state a)) → in_width 256 amount →
  Amount tx = Some amount → applyTx state (Some tx) = (r, state') →
  balance_in state' a =
  match r with Err _ => balance_in state a | Ok _ => moved tx amount (balance_in state) a end.
Proof.
  intros Hw Hv Ea E. destruct (applyTx_lookup state tx amount r state' a Ea E) as [Hok Hl]. clear E.
  destruct r as [[]|e].
  2: { unfold balance_in. rewrite Hl. case_bool_decide; [|done]. by destruct (state !! a). }
  pose proof (proj1 Hok eq_refl) as Hle. pose proof (Hw a) as Hwa. pose proof (Hw (Sender tx)) as Hws.
  clear Hw Hok. unfold moved, in_width, balance_in, u256_sub, u256_add in *. rewrite Hl. clear Hl.
  destruct (decide (a = Sender tx)) as [->|Hns]; [|destruct (decide (a = Recipient tx)) as [->|Hnr]].
  - rewrite (bool_decide_true (_ ∨ _)), !(bool_decide_true (Sender tx = Sender tx)) by tauto.
    destruct (decide (Sender tx = Recipient tx)) as [Esr|Esr];
      [rewrite !(bool_decide_true (Sender tx = Recipient tx)) by done
      |rewrite !(bool_decide_false (Sender tx = Recipient tx)) by done];
      destruct (state !! Sender tx) as [acc|]; simpl in *.
    all: rewrite ?wrap_add_l, ?Z.sub_add; apply wrap_small; unfold in_width; lia.
  - rewrite (bool_decide_true (_ ∨ _)), (bool_decide_false (Recipient tx = Sender tx)) by (tauto || done).
    rewrite (bool_decide_false (Sender tx = Recipient tx)) by congruence.
    rewrite (bool_decide_true (Recipient tx = Recipient tx)) by done.
    by destruct (state !! Recipient tx).
  - rewrite (bool_decide_false (_ ∨ _)), !(bool_decide_false (a = _)) by tauto.
    destruct (state !! a); simpl; by repeat case_bool_decide.
Qed.

(** [C28] A transfer.  It succeeds exactly if the sender's balance covers the
    amount.  Then the amount moves from the sender to the recipient, no other
    balance changes, a transfer to oneself changes no balance, and the sender's
    nonce becomes the transaction's; the recipient's balance wraps around only if
    it exceeds 256 bits.  If it fails no balance and no nonce changes, though
    empty accounts may appear; without an amount not even that. *)
Theorem transfer_spec (state state' : gmap string Account) (tx : Transaction) (r : result string unit) :
  (∀ a, in_width 256 (balance_in state a)) →
  match Amount tx with Some v => in_width 256 v | None => True end →
  applyTx state (Some tx) = (r, state') →
  match Amount tx with
  | None => r = Err "transaction amount cannot be nil" ∧ state' = state
  | Some amount =>
      (r = Ok tt ↔ amount ≤ balance_in state (Sender tx)) ∧
      (r ≠ Ok tt → r = Err "insufficient balance" ∧
        ∀ a, balance_in state' a = balance_in state a ∧
             (∀ acc, state !! a = Some acc → state' !! a = Some acc)) ∧
      (r = Ok tt →
        (∀ a, balance_in state' a = moved tx amount (balance_in state) a) ∧
        aNonce <$> state' !! Sender tx = Some (Nonce tx))
  end.
Proof.
  intros Hw Hv E. destruct (Amount tx) as [amount|] eqn:Ea.
  2: { unfold applyTx in E. rewrite Ea in E. by simplify_eq. }
  pose proof (λ a, applyTx_lookup state tx amount r state' a Ea E) as HL.
  split; [apply (HL "")|]. split.
  - intros Hr. split.
    { unfold applyTx in E. rewrite Ea in E. destruct (_ !! Sender tx) eqn:Es; [|].
      - destruct (_ <? _); by simplify_eq.
      - rewrite ensure_both_lookup, bool_decide_true in Es by by left. done. }
    intros a. destruct (HL a) as [_ Hl]. destruct r as [[]|e]; [done|]. unfold balance_in. rewrite Hl.
    split; [|intros acc ->; by case_bool_decide].
    case_bool_decide; [|done]. by destruct (state !! a).
  - intros ->. split; [intros a; by apply (applyTx_balance _ _ _ _ _ _ Hw Hv Ea E)|].
    destruct (HL (Sender tx)) as [_ ->]. rewrite !(bool_decide_true (_ ∨ _)) by tauto. simpl.
    by rewrite (bool_decide_true (Sender tx = Sender tx)).
Qed.

(** ** The total of the stored balances *)

(** What the codec guarantees: decoded integers have their width, decoded
    strings are printable, and an account with a printable address is decoded to
    itself. *)
Class StoreCodecOk (printable : string → Prop) : Prop := {
  json_to_tx_ok v tx : json_to_tx v = Some tx →
    printable (Sender tx) ∧ printable (Recipient tx) ∧ in_width 64 (Nonce tx) ∧
    match Amount tx with Some a => in_width 256 a | None => True end;
  json_to_account_ok v acc : json_to_account v = Some acc →
    printable (Address acc) ∧ in_width 256 (Balance acc) ∧ in_width 64 (aNonce acc);
  json_account_roundtrip acc v :
    printable (Address acc) → in_width 256 (Balance acc) → in_width 64 (aNonce acc) →
    json_of_account acc = Some v → json_to_account v = Some acc;
}.

Definition sum_over (A : list string) (f : string → Z) : Z := foldr (λ a z, f a + z) 0 A.

Lemma sum_ext A f g : (∀ a, a ∈ A → f a = g a) → sum_over A f = sum_over A g.
Proof.
  induction A as [|a A IH]; intros Hf; simpl; [done|].
  rewrite IH by (intros; apply Hf; by right). rewrite Hf by left. done.
Qed.

Lemma sum_ge A f a : (∀ a, 0 ≤ f a) → a ∈ A → f a ≤ sum_over A f.
Proof.
  intros Hf. assert (Hs : ∀ A, 0 ≤ sum_over A f).
  { induction A0 as [|b A0 IH]; simpl; [done|]. pose proof (Hf b). lia. }
  induction A as [|b A IH]; [by intros ?%elem_of_nil|].
  intros [->|Ha]%elem_of_cons; simpl; [pose proof (Hs A); lia|].
  pose proof (Hf b). pose proof (IH Ha). lia.
Qed.

(** Changing the value at one address. *)
Lemma sum_change A f g a x : NoDup A → a ∈ A → g a = f a + x → (∀ b, b ≠ a → g b = f b) →
  sum_over A g = sum_over A f + x.
Proof.
  induction A as [|b A IH]; [by intros _ ?%elem_of_nil|].
  intros [Hb Hnd]%NoDup_cons [->|Ha]%elem_of_cons Hg Ho; simpl.
  - rewrite Hg, (sum_ext A g f); [lia|]. intros c Hc. apply Ho. intros ->. done.
  - rewrite IH by done. rewrite (Ho b); [lia|]. intros ->. done.
Qed.

Lemma sum_moved A f tx amount : NoDup A → Sender tx ∈ A → Recipient tx ∈ A →
  (∀ a, 0 ≤ f a) → sum_over A f < 2 ^ 256 → 0 ≤ amount ≤ f (Sender tx) →
  sum_over A (moved tx amount f) = sum_over A f ∧ (∀ a, 0 ≤ moved tx amount f a).
Proof.
  intros Hnd Hs Hr Hf Hlt Ham. unfold moved.
  destruct (decide (Sender tx = Recipient tx)) as [E|Hne].
  { rewrite bool_decide_true by done. done. }
  rewrite bool_decide_false by done.
  set (g1 := λ a, if bool_decide (a = Sender tx) then f a - amount else f a).
  assert (H1 : sum_over A g1 = sum_over A f + - amount).
  { apply (sum_change A f g1 (Sender tx)); [done|done| |].
    - unfold g1. rewrite bool_decide_true by done. lia.
    - intros b Hb. unfold g1. by rewrite bool_decide_false. }
  assert (Hg1 : ∀ a, 0 ≤ g1 a) by (intros a; unfold g1; case_bool_decide; subst; [lia|apply Hf]).
  assert (Hrs : g1 (Recipient tx) = f (Recipient tx)) by (unfold g1; by rewrite bool_decide_false).
  pose proof (sum_ge A g1 (Recipient tx) Hg1 Hr) as Hle.
  assert (Hw : wrap 256 (f (Recipient tx) + amount) = f (Recipient tx) + amount).
  { apply wrap_small. split; [pose proof (Hf (Recipient tx)); lia|]. rewrite Hrs, H1 in Hle. lia. }
  split.
  - rewrite (sum_change A g1 _ (Recipient tx) amount); [lia|done|done| |].
    + rewrite bool_decide_false, bool_decide_true by done. rewrite Hw, Hrs. done.
    + intros b Hb. unfold g1. rewrite (bool_decide_false (b = Recipient tx)) by done. done.
  - intros a. case_bool_decide; [subst; lia|]. case_bool_decide; [subst; rewrite Hw; pose proof (Hf (Recipient tx)); lia|].
    apply Hf.
Qed.

(** The stored account of an address, and its balance. *)
Definition stored (d : gmap string string) (a : string) : option Account :=
  d !! key_of (KAccount a) ≫= json_to_account.
Definition stored_balance (d : gmap string string) (a : string) : Z :=
  match stored d a with Some acc => Balance acc | None => 0 end.

(** Every stored account decodes and is stored under its address. *)
Definition accounts_stored (d : gmap string string) : Prop :=
  ∀ a v, d !! key_of (KAccount a) = Some v → ∃ acc, json_to_account v = Some acc ∧ Address acc = a.

Lemma db_GetBatch_ok keys s m s' : db_GetBatch keys s = (Ok m, s') →
  data s' = data s ∧ ∀ k, k ∈ keys → m !! k = data s !! k.
Proof.
  unfold db_GetBatch, db_step. destruct (faults s) as [|[|] fs]; intros; simplify_eq; simpl;
    (split; [done|]); intros k Hk.
  all: destruct (data s !! k) as [v|] eqn:E;
    [by apply map_lookup_filter_Some|apply map_lookup_filter_None; by left].
Qed.

Lemma account_GetBatch_ok addrs s state s' : account_GetBatch addrs s = (Ok state, s') →
  data s' = data s ∧
  ∀ a, state !! a = if bool_decide (a ∈ addrs) then stored (data s) a else None.
Proof.
  unfold account_GetBatch. case_bool_decide as En.
  { intros [= <- <-]. split; [done|]. intros a. rewrite bool_decide_false; [done|]. subst. apply not_elem_of_nil. }
  st_run. destruct (db_GetBatch _ s) as [[m|e] s1] eqn:E; [|done]. intros [= <- <-].
  destruct (db_GetBatch_ok _ _ _ _ E) as [-> Hm]. split; [done|]. intros a.
  set (l := omap _ addrs).
  assert (Hl : ∀ acc, (a, acc) ∈ l ↔ a ∈ addrs ∧ stored (data s) a = Some acc).
  { intros acc. unfold l. rewrite list_elem_of_omap. unfold stored. split.
    - intros (a' & Ha' & Hs). rewrite Hm in Hs by by apply list_elem_of_fmap_2.
      change (account_GetDBKey a') with (key_of (KAccount a')) in Hs.
      destruct (data s !! key_of (KAccount a')) as [v|] eqn:Ev; [|done]. simpl in Hs.
      destruct (json_to_account v) as [acc'|] eqn:Ea; [|done]. simpl in Hs. simplify_eq.
      by rewrite Ev.
    - intros [Ha Hs]. exists a. split; [done|]. rewrite Hm by by apply list_elem_of_fmap_2.
      change (account_GetDBKey a) with (key_of (KAccount a)).
      destruct (data s !! key_of (KAccount a)) as [v|]; [|done]. simpl in *. by rewrite Hs. }
  case_bool_decide as Ha.
  - destruct (stored (data s) a) as [acc|] eqn:Es.
    + apply elem_of_list_to_map_1'; [|by apply Hl]. intros y [_ Hy]%Hl. congruence.
    + apply not_elem_of_list_to_map_1. intros ([a' acc] & -> & Hin)%list_elem_of_fmap. simpl in *.
      apply Hl in Hin as [_ Hin]. congruence.
  - apply not_elem_of_list_to_map_1. intros ([a' acc] & -> & Hin)%list_elem_of_fmap. simpl in *.
    by apply Hl in Hin as [Hin _].
Qed.

Lemma elem_of_add_new x l xs : x ∈ add_new l xs ↔ x ∈ l ∨ x ∈ xs.
Proof.
  unfold add_new. revert l. induction xs as [|y xs IH]; intros l; simpl.
  - rewrite elem_of_nil. tauto.
  - rewrite IH, elem_of_cons. case_bool_decide; [set_solver|]. rewrite elem_of_app, list_elem_of_singleton. tauto.
Qed.

Lemma block_addrs_elem txs tx a : tx ∈ txs → (Type_ tx =? TxTypeUserContent) = false →
  a = Sender tx ∨ a = Recipient tx → a ∈ block_addrs txs.
Proof.
  intros Hin Ht Ha. unfold block_addrs.
  assert (Hmono : ∀ txs l, a ∈ l → a ∈ foldl add_addrs l txs).
  { induction txs0 as [|t txs0 IH]; intros l Hl; cbn [foldl]; [done|]. apply IH.
    unfold add_addrs. destruct (Type_ t =? TxTypeUserContent); [done|].
    apply elem_of_add_new. by left. }
  generalize (@nil string) as l.
  induction txs as [|t txs IH]; [by apply elem_of_nil in Hin|]. intros l. cbn [foldl].
  apply elem_of_cons in Hin as [<-|Hin]; [|by apply IH]. apply Hmono. unfold add_addrs. rewrite Ht.
  apply elem_of_add_new. right. set_solver.
Qed.

Section Conservation.
Context (printable : string → Prop) `{SO : !StoreCodecOk printable}.
(** The data before the block, the addresses of its transfers, and a set of
    addresses that contains them. *)
Context (d : gmap string string) (addrs A : list string).
Context (HA : NoDup A) (Hsub : ∀ a, a ∈ addrs → a ∈ A).
Context (Hsum : sum_over A (stored_balance d) < 2 ^ 256).

(** The balances as the state has them, and the stored ones elsewhere. *)
Definition view (st : gmap string Account) (a : string) : Z :=
  if bool_decide (a ∈ addrs) then balance_in st a else stored_balance d a.

Record state_ok (st : gmap string Account) : Prop := {
  st_keyed a acc : st !! a = Some acc →
    Address acc = a ∧ a ∈ addrs ∧ printable a ∧ in_width 64 (aNonce acc);
  st_none a : a ∈ addrs → st !! a = None → stored d a = None;
  st_view a : 0 ≤ view st a;
  st_sum : sum_over A (view st) = sum_over A (stored_balance d);
}.

Lemma state_ok_width st a : state_ok st → in_width 256 (balance_in st a).
Proof.
  intros Hst. destruct (decide (a ∈ addrs)) as [Ha|Hn].
  - pose proof (st_view st Hst a) as H0. pose proof (sum_ge A (view st) a (st_view st Hst) (Hsub a Ha)) as Hle.
    rewrite (st_sum st Hst) in Hle. unfold view in *. rewrite bool_decide_true in * by done. split; lia.
  - unfold balance_in. destruct (st !! a) as [acc|] eqn:E; [|done].
    by destruct (st_keyed st Hst a acc E) as (_ & ? & _).
Qed.

Lemma applyTx_state_ok st tx r st' :
  state_ok st → Sender tx ∈ addrs → Recipient tx ∈ addrs →
  printable (Sender tx) → printable (Recipient tx) → in_width 64 (Nonce tx) →
  match Amount tx with Some a => in_width 256 a | None => True end →
  applyTx st (Some tx) = (r, st') → state_ok st'.
Proof.
  intros Hst Hs Hr Hps Hpr Hn Ha E. destruct (Amount tx) as [amount|] eqn:Ea.
  2: { unfold applyTx in E. rewrite Ea in E. by simplify_eq. }
  pose proof (λ a, applyTx_lookup st tx amount r st' a Ea E) as HL.
  pose proof (λ a, applyTx_balance st tx amount r st' a (λ a, state_ok_width st a Hst) Ha Ea E) as HB.
  (** The view moves with the balances, which only change at listed addresses. *)
  assert (Hview : ∀ a, view st' a = match r with Ok _ => moved tx amount (view st) a | Err _ => view st a end).
  { intros a. unfold view at 1. rewrite HB. destruct (decide (a ∈ addrs)) as [Hin|Hout].
    - rewrite bool_decide_true by done. destruct r; unfold moved, view;
        by rewrite !(bool_decide_true (a ∈ addrs)) by done.
    - rewrite bool_decide_false by done. destruct r; unfold moved, view; rewrite !(bool_decide_false (a ∈ addrs)) by done;
        [|done]. rewrite (bool_decide_false (a = Sender tx)), (bool_decide_false (a = Recipient tx)) by congruence.
      by case_bool_decide. }
  assert (Hmv : (∀ a, 0 ≤ view st' a) ∧ sum_over A (view st') = sum_over A (stored_balance d)).
  { rewrite <- (st_sum st Hst). destruct r as [[]|e].
    - destruct (sum_moved A (view st) tx amount HA (Hsub _ Hs) (Hsub _ Hr) (st_view st Hst)) as [H1 H2].
      + rewrite (st_sum st Hst). done.
      + pose proof (proj1 (proj1 (HL "")) eq_refl). unfold view. rewrite bool_decide_true by done.
        unfold in_width in Ha. lia.
      + split; [intros a; by rewrite Hview|]. rewrite <- H1. by apply sum_ext.
    - split; [intros a; rewrite Hview; apply (st_view st Hst)|]. by apply sum_ext. }
  destruct Hmv as [Hnn Hsm]. split; [| |done|done].
  - intros a acc Hacc. destruct (HL a) as [_ Hl]. rewrite Hl in Hacc. clear Hl HL HB.
    assert (Hbase : ∀ acc0, (if bool_decide (a = Sender tx ∨ a = Recipient tx)
        then Some (default (mkAccount a 0 0) (st !! a)) else st !! a) = Some acc0 →
        Address acc0 = a ∧ a ∈ addrs ∧ printable a ∧ in_width 64 (aNonce acc0)).
    { clear Hacc Hview. intros acc0. case_bool_decide as Eb.
      - destruct (st !! a) as [acc1|] eqn:E1; simpl; intros E0; injection E0 as <-;
          [by apply (st_keyed st Hst)|]. destruct Eb as [-> | ->]; by split_and!.
      - apply (st_keyed st Hst). }
    destruct r as [[]|e]; [|by apply Hbase].
    apply fmap_Some in Hacc as (acc0 & H0 & ->). destruct (Hbase acc0 H0) as (? & ? & ? & ?).
    clear Hbase H0. by repeat case_bool_decide; simpl.
  - intros a Hin Hnone. destruct (HL a) as [_ Hl]. rewrite Hnone in Hl.
    apply (st_none st Hst a Hin). clear HL HB Hview. destruct (st !! a); [|done].
    destruct r, (bool_decide (a = Sender tx ∨ a = Recipient tx)); done.
Qed.
End Conservation.

(** The transactions a list of hashes loads. *)
Definition loaded (d : gmap string string) (hashes : list string) : list Transaction :=
  omap (λ h, d !! key_of (KTx h) ≫= json_to_tx) hashes.

Lemma tx_GetBatch_ok hashes s r s' : tx_GetBatch hashes s = (r, s') →
  data s' = data s ∧ match r with Ok txs => txs = loaded (data s) hashes | Err _ => True end.
Proof.
  unfold tx_GetBatch. case_bool_decide as En; [intros [= <- <-]; by subst|].
  st_run. destruct (db_GetBatch _ s) as [[m|e] s1] eqn:E; intros [= <- <-].
  - destruct (db_GetBatch_ok _ _ _ _ E) as [-> Hm]. split; [done|]. unfold loaded.
    apply list_omap_ext. apply Forall_Forall2_diag, Forall_forall. intros h Hh.
    by rewrite Hm by by apply list_elem_of_fmap_2.
  - split; [|done]. pose proof (quiet_step (λ d, filter (λ p, p.1 ∈ tx_GetDBKey <$> hashes) d) s) as (Q & _).
    fold (db_GetBatch (tx_GetDBKey <$> hashes)) in Q. by rewrite E in Q.
Qed.

Lemma account_GetBatch_err addrs s e s' : account_GetBatch addrs s = (Err e, s') → data s' = data s.
Proof.
  unfold account_GetBatch. case_bool_decide; [done|]. st_run.
  destruct (db_GetBatch _ s) as [[m|e'] s1] eqn:E; intros [= <- <-].
  pose proof (quiet_step (λ d, filter (λ p, p.1 ∈ account_GetDBKey <$> addrs) d) s) as (Q & _).
  fold (db_GetBatch (account_GetDBKey <$> addrs)) in Q. by rewrite E in Q.
Qed.

Lemma versions_quiet roots s : data (snd (GetBatchLatestVersionContentHash roots s)) = data s.
Proof.
  unfold GetBatchLatestVersionContentHash. case_bool_decide; [done|]. st_run.
  pose proof (quiet_step (λ d, filter (λ p, p.1 ∈ GetLatestVersionContentKey <$> roots) d) s) as (Q & _).
  fold (db_GetBatch (GetLatestVersionContentKey <$> roots)) in Q.
  by destruct (db_GetBatch _ s) as [[m|e'] s1].
Qed.

Lemma add_meta_keyed b tx err m : metas_keyed m → metas_keyed (add_meta b tx err m).
Proof. intros Hm h x. unfold add_meta. intros [[<- <-]|[_ Hx]]%lookup_insert_Some; [done|by apply Hm]. Qed.

Lemma process_tx_metas b tracked p tx : metas_keyed (metas p) → metas_keyed (metas (process_tx b tracked p tx)).
Proof.
  intros Hm. unfold process_tx. destruct (_ =? _).
  - destruct (json_to_content _); [done|]. by apply add_meta_keyed.
  - destruct (applyTx _ _). by apply add_meta_keyed.
Qed.

Lemma process_content_metas b related st txs : metas_keyed (fst st) →
  metas_keyed (fst (foldl (process_content b related) st txs)).
Proof.
  revert st. induction txs as [|tx txs IH]; intros st Hm; simpl; [done|]. apply IH.
  unfold process_content. destruct (validateUserContent _ _ _). by apply add_meta_keyed.
Qed.

(** The state and the metas after the transactions of a block. *)
Lemma process_txs_ok printable `{!StoreCodecOk printable} d addrs A b tracked txs p :
  NoDup A → (∀ a, a ∈ addrs → a ∈ A) → sum_over A (stored_balance d) < 2 ^ 256 →
  (∀ tx, tx ∈ txs → ∃ v, json_to_tx v = Some tx) →
  (∀ tx a, tx ∈ txs → (Type_ tx =? TxTypeUserContent) = false → a = Sender tx ∨ a = Recipient tx → a ∈ addrs) →
  state_ok printable d addrs A (accounts p) → metas_keyed (metas p) →
  state_ok printable d addrs A (accounts (foldl (process_tx b tracked) p txs)) ∧
  metas_keyed (metas (foldl (process_tx b tracked) p txs)).
Proof.
  intros HA Hsub Hsum. revert p. induction txs as [|tx txs IH]; intros p Hj Ha Hst Hm; simpl; [done|].
  apply IH; [intros; apply Hj; by right | intros ????; by eapply Ha; [right|..] | | by apply process_tx_metas].
  unfold process_tx. destruct (Type_ tx =? TxTypeUserContent) eqn:Et.
  - by destruct (json_to_content _).
  - destruct (applyTx (accounts p) (Some tx)) as [r st'] eqn:E. simpl.
    destruct (Hj tx) as [v Hv]; [left|]. destruct (json_to_tx_ok v tx Hv) as (? & ? & ? & ?).
    eapply (applyTx_state_ok printable d addrs A HA Hsub Hsum (accounts p) tx r); try done;
      (eapply Ha; [left|done|]); [by left|by right].
Qed.

(** The loaded state of the addresses of a block is consistent with the data. *)
Lemma initial_state_ok printable `{!StoreCodecOk printable} d addrs A state :
  accounts_stored d → sum_over A (stored_balance d) < 2 ^ 256 →
  (∀ a, state !! a = if bool_decide (a ∈ addrs) then stored d a else None) →
  state_ok printable d addrs A state.
Proof.
  intros Hd Hsum Hs.
  assert (Hv : ∀ a, view d addrs state a = stored_balance d a).
  { intros a. unfold view, balance_in, stored_balance. rewrite Hs. by case_bool_decide. }
  assert (Hacc : ∀ a acc, stored d a = Some acc → Address acc = a ∧ printable a ∧
                   in_width 256 (Balance acc) ∧ in_width 64 (aNonce acc)).
  { intros a acc. unfold stored. destruct (d !! key_of (KAccount a)) as [v|] eqn:E; [|done]. simpl.
    intros Hj. destruct (Hd a v E) as (acc' & Hj' & Haddr). rewrite Hj in Hj'. simplify_eq.
    destruct (json_to_account_ok v acc' Hj) as (? & ? & ?). by split_and!. }
  split.
  - intros a acc. rewrite Hs. case_bool_decide; [|done]. intros (? & ? & ? & ?)%Hacc. by split_and!.
  - intros a Ha. rewrite Hs, bool_decide_true by done. done.
  - intros a. rewrite Hv. unfold stored_balance. destruct (stored d a) as [acc|] eqn:E; [|done].
    by destruct (Hacc a acc E) as (_ & _ & [? _] & _).
  - by apply sum_ext.
Qed.

(** The accounts after the batch of a finalized block. *)
Lemma finalize_accounts blk metas accs latest s s' :
  metas_keyed metas → accounts_keyed accs →
  store_FinalizeBlock blk metas accs latest s = (Ok tt, s') →
  ∀ a, match accs !! a with
       | Some acc => ∃ v, json_of_account acc = Some v ∧ data s' !! key_of (KAccount a) = Some v
       | None => data s' !! key_of (KAccount a) = data s !! key_of (KAccount a)
       end.
Proof.
  intros Hm Ha E a. pose proof (FinalizeBlock_cases blk metas accs latest s Hm Ha) as HC.
  rewrite E in HC. destruct HC as (_ & _ & _ & kb & bv & -> & Hk & _ & _ & _ & Hak & _).
  pose proof (finalize_norm_nodup (bSlot (blk_core blk)) (latestFinalized s) metas accs latest) as Hnd.
  rewrite <- Hk in Hnd. destruct (keyed_lookup_norm kb (data s) Hnd) as [Hin Hout].
  destruct (accs !! a) as [acc|] eqn:Eacc.
  - destruct (Hak a acc Eacc) as (v & Hv & Hi). exists v. split; [done|]. by apply Hin.
  - apply Hout. rewrite Hk. unfold finalize_keys. csimpl. rewrite !fmap_app. csimpl. rewrite <- !list_fmap_compose.
    rewrite elem_of_cons, !elem_of_app, elem_of_cons, !list_elem_of_fmap.
    intros [?|[(?&?&?)|[([a' acc']&Ea&Hi)|[(?&?&?)|[?|Hl]]]]]; try done.
    + injection Ea as <-. apply elem_of_map_to_list in Hi. congruence.
    + destruct Hl as (k & Ek & Hl).
      destruct (_ <? _) in Hl; [apply list_elem_of_singleton in Hl; by subst|by apply elem_of_nil in Hl].
Qed.

(** The run of a block: it ends without writing, or in the batch of the state,
    the metas and the versions that its transactions lead to. *)
Lemma ledger_shape hasTracker hasRouter isListener b s r s' out :
  ledger_FinalizeBlock hasTracker hasRouter b isListener s = (r, s', out) →
  data s' = data s ∨
  ∃ state related latest s4 r5,
    let txs := loaded (data s) (block_tx_hashes b) in
    let p := foldl (process_tx b (hasTracker && negb isListener)) (mkProgress state ∅ [] [] [] []) txs in
    let mv := foldl (process_content b related) (metas p, latest) (contents p) in
    data s4 = data s ∧
    (∀ a, state !! a = if bool_decide (a ∈ block_addrs txs) then stored (data s) a else None) ∧
    store_FinalizeBlock b mv.1 (accounts p) mv.2 s4 = (r5, s') ∧
    match r5, r with Ok _, Ok _ | Err _, Err _ => True | _, _ => False end.
Proof.
  intros E. unfold ledger_FinalizeBlock in E.
  destruct (InvalidPoH (blk_core b)); [simplify_eq; by left|].
  destruct (tx_GetBatch (block_tx_hashes b) s) as [[txs|e] s1] eqn:E1;
    destruct (tx_GetBatch_ok _ _ _ _ E1) as [D1 Etxs]; [|simplify_eq; by left]. rewrite <- Etxs in *.
  destruct (account_GetBatch (block_addrs txs) s1) as [[state|e] s2] eqn:E2;
    [|apply account_GetBatch_err in E2; simplify_eq; left; congruence].
  destruct (account_GetBatch_ok _ _ _ _ E2) as [D2 Hstate].
  set (p := foldl _ _ txs) in E.
  destruct (tx_GetBatch (relatedHashes p) s2) as [[rel|e] s3] eqn:E3;
    destruct (tx_GetBatch_ok _ _ _ _ E3) as [D3 _]; [|simplify_eq; left; congruence].
  pose proof (versions_quiet (rootHashes p) s3) as D4.
  destruct (GetBatchLatestVersionContentHash (rootHashes p) s3) as [[latest|e] s4]; simpl in D4;
    [|simplify_eq; left; congruence].
  set (related := foldl _ ∅ rel) in E. right. exists state, related, latest, s4. cbn zeta. fold p.
  destruct (foldl (process_content b related) (metas p, latest) (contents p)) as [ms vs]. simpl.
  destruct (store_FinalizeBlock b ms (accounts p) vs s4) as [[u|e] s5];
    eexists; (split_and!; [congruence|by rewrite <- D1|by simplify_eq|by simplify_eq]).
Qed.

Section BlockRun.
Context (printable : string → Prop) `{SO : !StoreCodecOk printable}.
Context (hasTracker hasRouter isListener : bool) (b : Block) (s : Storage) (A : list string).
Context (Hd : accounts_stored (data s)) (HA : NoDup A).
Context (Hsum : sum_over A (stored_balance (data s)) < 2 ^ 256).
Context (Hsub : ∀ a, a ∈ block_addrs (loaded (data s) (block_tx_hashes b)) → a ∈ A).

(** A block that is applied is skipped or ends in the batch of a consistent
    state; otherwise nothing is written. *)
Lemma ledger_run_cases r s' out :
  ledger_FinalizeBlock hasTracker hasRouter b isListener s = (r, s', out) →
  match r with
  | Err _ => data s' = data s
  | Ok _ => data s' = data s ∨ ∃ st ms vs s4,
      data s4 = data s ∧ metas_keyed ms ∧
      state_ok printable (data s) (block_addrs (loaded (data s) (block_tx_hashes b))) A st ∧
      store_FinalizeBlock b ms st vs s4 = (Ok tt, s')
  end.
Proof.
  intros E. destruct (ledger_shape _ _ _ _ _ _ _ _ E) as [D|(state & related & latest & s4 & r5 & D & Hs & E5 & Hr)];
    [destruct r; [by left|done]|]. cbn zeta in *. set (txs := loaded (data s) (block_tx_hashes b)) in *.
  set (p := foldl (process_tx _ _) _ txs) in *.
  destruct (process_txs_ok printable (data s) (block_addrs txs) A b (hasTracker && negb isListener) txs
    (mkProgress state ∅ [] [] [] []) HA Hsub Hsum) as [Hst Hmp].
  { intros tx (h & _ & Ht)%list_elem_of_omap. destruct (data s !! key_of (KTx h)) as [v|]; [|done]. by exists v. }
  { intros tx a. apply block_addrs_elem. }
  { by apply initial_state_ok. }
  { done. }
  fold p in Hst, Hmp. pose proof (process_content_metas b related (metas p, latest) (contents p) Hmp) as Hmk.
  destruct (foldl (process_content b related) (metas p, latest) (contents p)) as [ms vs]. simpl in Hmk, E5.
  assert (Hak : accounts_keyed (accounts p)) by (intros a acc Ha; by apply (st_keyed _ _ _ _ _ Hst)).
  pose proof (FinalizeBlock_cases b ms (accounts p) vs s4 Hmk Hak) as HC. rewrite E5 in HC.
  destruct r5 as [[]|e5], r as [u|e]; try done; [|destruct HC as [D5 _]; congruence].
  right. by exists (accounts p), ms, vs, s4.
Qed.

(** The stored accounts are then those of the state, or unchanged. *)
Lemma finalized_reads st ms vs s4 s' :
  data s4 = data s → metas_keyed ms →
  state_ok printable (data s) (block_addrs (loaded (data s) (block_tx_hashes b))) A st →
  store_FinalizeBlock b ms st vs s4 = (Ok tt, s') →
  accounts_keyed st ∧
  (∀ a, stored (data s') a = match st !! a with Some acc => Some acc | None => stored (data s) a end) ∧
  (∀ a, st !! a = None → data s' !! key_of (KAccount a) = data s !! key_of (KAccount a)).
Proof.
  intros D Hmk Hst E5.
  assert (Hak : accounts_keyed st) by (intros a acc Ha; by apply (st_keyed _ _ _ _ _ Hst)).
  pose proof (finalize_accounts b ms st vs s4 s' Hmk Hak E5) as Hfin. rewrite D in Hfin.
  split; [done|]. split; intros a; specialize (Hfin a); [|by intros E; rewrite E in Hfin].
  unfold stored. destruct (st !! a) as [acc|] eqn:Ea; [|by rewrite Hfin].
  destruct Hfin as (v & Hv & ->). simpl.
  destruct (st_keyed _ _ _ _ _ Hst a acc Ea) as (Haddr & _ & Hpr & Hn).
  apply json_account_roundtrip; [by rewrite Haddr| |done|done].
  pose proof (state_ok_width printable (data s) _ A Hsub Hsum st a Hst) as Hwd.
  unfold balance_in in Hwd. by rewrite Ea in Hwd.
Qed.
End BlockRun.

(** What a block does to the stored accounts. *)
Lemma ledger_conserves printable `{!StoreCodecOk printable} (hasTracker hasRouter isListener : bool)
    (b : Block) (s s' : Storage) (r : result StoreError unit) (out : Outputs) (A : list string) :
  accounts_stored (data s) → NoDup A →
  sum_over A (stored_balance (data s)) < 2 ^ 256 →
  (∀ a, a ∈ block_addrs (loaded (data s) (block_tx_hashes b)) → a ∈ A) →
  ledger_FinalizeBlock hasTracker hasRouter b isListener s = (r, s', out) →
  match r with
  | Err _ => data s' = data s
  | Ok _ => sum_over A (stored_balance (data s')) = sum_over A (stored_balance (data s)) ∧
            accounts_stored (data s')
  end.
Proof.
  intros Hd HA Hsum Hsub E.
  pose proof (ledger_run_cases printable hasTracker hasRouter isListener b s A Hd HA Hsum Hsub r s' out E) as HC.
  destruct r as [u|e]; [|done]. destruct HC as [->|(st & ms & vs & s4 & D & Hmk & Hst & E5)]; [done|].
  destruct (finalized_reads printable b s A Hsum Hsub st ms vs s4 s' D Hmk Hst E5) as (Hak & Hread & Hkeep).
  split.
  - rewrite <- (st_sum _ _ _ _ _ Hst). apply sum_ext. intros a _.
    unfold stored_balance at 1, view. rewrite Hread. unfold balance_in, stored_balance.
    destruct (st !! a) as [acc|] eqn:Ea.
    + destruct (st_keyed _ _ _ _ _ Hst a acc Ea) as (_ & Hin & _). by rewrite bool_decide_true.
    + case_bool_decide as Hin; [|done]. by rewrite (st_none _ _ _ _ _ Hst a Hin Ea).
  - intros a v Hv. specialize (Hread a). specialize (Hkeep a). unfold stored in Hread. rewrite Hv in Hread.
    simpl in Hread. destruct (st !! a) as [acc|] eqn:Ea.
    + exists acc. split; [done|]. by apply Hak.
    + rewrite Hkeep in Hv by done. by apply Hd.
Qed.

(** [C3] A block conserves the money.  Let the stored accounts be under their
    addresses, and their balances over a set of addresses that contains those of
    the block's transfers add up to less than 2^256.  If applying the block fails,
    the stored data are unchanged; if it succeeds, the stored balances over that
    set add up to the same as before, and accounts are still under their
    addresses. *)
Theorem supply_conserved printable `{!StoreCodecOk printable} (hasTracker hasRouter isListener : bool)
    (b : Block) (s s' : Storage) (r : result StoreError unit) (out : Outputs) (A : list string) :
  accounts_stored (data s) → NoDup A →
  sum_over A (stored_balance (data s)) < 2 ^ 256 →
  (∀ a, a ∈ block_addrs (loaded (data s) (block_tx_hashes b)) → a ∈ A) →
  ledger_FinalizeBlock hasTracker hasRouter b isListener s = (r, s', out) →
  match r with
  | Err _ => data s' = data s
  | Ok _ => sum_over A (stored_balance (data s')) = sum_over A (stored_balance (data s)) ∧
            accounts_stored (data s')
  end.
Proof. apply (ledger_conserves printable). Qed.

(** ** Versions of user contents *)

Lemma validateUserContent_failed tx related latest e latest' :
  validateUserContent tx related latest = (Some e, latest') → latest' = latest.
Proof. unfold validateUserContent. intros E. by repeat (case_match; simplify_eq). Qed.

(** The versions of a user content form a chain.  A content that is
    accepted as a new version has as its parent a content of the same sender and
    recipient which was the latest version of its root, and becomes the latest
    version; so of two contents of a block with the same root and parent the
    second is refused.  A content that is refused changes no version. *)
Theorem content_versions_chain (tx1 tx2 : Transaction) (related : gmap string Transaction)
    (latest latest1 latest2 : gmap string string) (e1 e2 : option string) (c1 c2 : UserContent) :
  json_to_content (ExtraInfo tx1) = Some c1 → json_to_content (ExtraInfo tx2) = Some c2 →
  validateUserContent tx1 related latest = (e1, latest1) →
  validateUserContent tx2 related latest1 = (e2, latest2) →
  RootHash c1 ≠ "" → RootHash c2 = RootHash c1 → ParentHash c2 = ParentHash c1 →
  Hash tx1 ≠ ParentHash c1 →
  match e1 with
  | Some _ => latest1 = latest
  | None =>
      latest !! RootHash c1 = Some (ParentHash c1) ∧ latest1 = <[RootHash c1 := Hash tx1]> latest ∧
      (∃ parent, related !! ParentHash c1 = Some parent ∧ Type_ parent = TxTypeUserContent ∧
                 Sender parent = Sender tx1 ∧ Recipient parent = Recipient tx1) ∧
      e2 ≠ None ∧ latest2 = latest1
  end.
Proof.
  intros Hc1 Hc2 E1 E2 Hroot Er Ep Hne. destruct e1 as [e1|]; [by eapply validateUserContent_failed|].
  unfold validateUserContent in E1. rewrite Hc1 in E1.
  change (default empty_content (Some c1)) with c1 in E1.
  destruct (blank _ || _ || _); [done|]. destruct (ShouldValidateAddress _ && _); [done|].
  destruct (MaxReferenceTxs <? _); [done|]. destruct (negb (forallb _ _)); [done|].
  rewrite (bool_decide_false (RootHash c1 = "")) in E1 by done. rewrite andb_false_r, orb_false_r in E1.
  destruct (bool_decide (ParentHash c1 = "")); [done|].
  destruct (related !! ParentHash c1) as [parent|]; [|done].
  destruct (Type_ parent =? TxTypeUserContent) eqn:Et; [|done].
  destruct (bool_decide (Sender parent = Sender tx1)) eqn:Es; [|done].
  destruct (bool_decide (Recipient parent = Recipient tx1)) eqn:Ec; [|done]. simpl in E1.
  destruct (latest !! RootHash c1) as [h|] eqn:El; [|done].
  destruct (bool_decide (h = ParentHash c1)) eqn:Eh; [|done]. simpl in E1.
  apply bool_decide_eq_true in Es, Ec, Eh. subst h. injection E1 as <-.
  assert (He2 : e2 ≠ None).
  { intros ->. revert E2. unfold validateUserContent. rewrite Hc2.
    change (default empty_content (Some c2)) with c2. rewrite Er, Ep.
    rewrite lookup_insert_eq, (bool_decide_false (Hash tx1 = _)) by done.
    rewrite (bool_decide_false (RootHash c1 = "")) by done. rewrite andb_false_r.
    intros E2. by repeat (case_match; try done). }
  split_and!; [done|done| |done|].
  - exists parent. split_and!; try done. blia.
  - destruct e2 as [e2|]; [by eapply validateUserContent_failed|done].
Qed.

(** ** Genesis *)

Lemma createAccount_cases addr balance s :
  match createAccountWithoutLocking addr balance s with
  | (Ok acc, s') =>
      data s !! key_of (KAccount addr) = None ∧ acc = mkAccount addr balance 0 ∧
      ∃ v, json_of_account acc = Some v ∧ data s' = <[key_of (KAccount addr) := v]> (data s)
  | (Err _, s') => data s' = data s
  end.
Proof.
  unfold createAccountWithoutLocking, account_ExistsByAddr, account_Store. st_run.
  pose proof (quiet_step (λ d, bool_decide (is_Some (d !! account_GetDBKey addr))) s) as (Q1 & _ & _).
  fold (db_Has (account_GetDBKey addr)) in Q1.
  destruct (db_Has (account_GetDBKey addr) s) as [[ex|e] s1] eqn:Eh; simpl in Q1; [|done].
  apply db_Has_ok in Eh. destruct ex; [done|].
  symmetry in Eh. apply bool_decide_eq_false, eq_None_not_Some in Eh. cbn [Address]. st_run.
  destruct (json_of_account (mkAccount addr balance 0)) as [v|] eqn:Ev; st_run; [|done].
  unfold db_Put, db_step. destruct (faults s1) as [|[|] fs]; st_run; cbn [data]; [|done|].
  all: split_and!; try done; exists v; by rewrite Q1.
Qed.

(** The accounts after their creation. *)
Lemma genesis_created printable `{!StoreCodecOk printable} (addrs : list GenesisAddress)
    (s s' : Storage) :
  (∀ g, g ∈ addrs → printable (gAddress g) ∧ in_width 256 (gAmount g)) →
  CreateAccountsFromGenesis addrs s = (Ok tt, s') →
  NoDup (gAddress <$> addrs) ∧
  (∀ g, g ∈ addrs → data s !! key_of (KAccount (gAddress g)) = None ∧
                    stored (data s') (gAddress g) = Some (mkAccount (gAddress g) (gAmount g) 0)) ∧
  ∀ k, key_ok k → (∀ g, g ∈ addrs → k ≠ KAccount (gAddress g)) → data s' !! key_of k = data s !! key_of k.
Proof.
  revert s. induction addrs as [|g addrs IH]; intros s Hp E.
  { injection E as <-. split_and!; [constructor|by intros g ?%elem_of_nil|done]. }
  cbn [CreateAccountsFromGenesis] in E. rewrite st_bind_eq in E.
  pose proof (createAccount_cases (gAddress g) (gAmount g) s) as HC.
  destruct (createAccountWithoutLocking (gAddress g) (gAmount g) s) as [[acc|e] s1]; [|done].
  destruct HC as (Hno & -> & v & Hv & Hd).
  destruct (IH s1) as (Hnd & Hin & Hout); [intros; apply Hp; by right|done|]. clear IH.
  assert (Hfresh : ∀ g', g' ∈ addrs → gAddress g' ≠ gAddress g).
  { intros g' Hg' Eg. destruct (Hin g' Hg') as [Hn _]. by rewrite Eg, Hd, lookup_insert_eq in Hn. }
  destruct (Hp g) as [Hpr Hwd]; [left|]. split_and!.
  - csimpl. apply NoDup_cons. split; [|done]. intros (g' & Eg & Hg')%list_elem_of_fmap.
    by apply (Hfresh g' Hg').
  - intros g' [->|Hg']%elem_of_cons.
    + split; [done|]. unfold stored. rewrite Hout, Hd, lookup_insert_eq.
      * simpl. by apply json_account_roundtrip.
      * done.
      * intros g' Hg' Ek. injection Ek as Ek. by apply (Hfresh g' Hg').
    + destruct (Hin g' Hg') as [Hn Hs]. split; [|done]. rewrite Hd, lookup_insert_ne in Hn; [done|].
      intros Ek%key_of_inj; [|done..]. injection Ek as Ek. by apply (Hfresh g' Hg').
  - intros k Hk Hne. rewrite Hout, Hd, lookup_insert_ne; [done| |done|].
    + intros Ek%key_of_inj; [|done..]. apply (Hne g); [left|done].
    + intros g' Hg'. apply Hne. by right.
Qed.

(** Genesis.  If creating the genesis accounts succeeds, their addresses
    are different and had no accounts, each is stored with its amount and nonce
    zero, and nothing else has changed; an address that has an account, or occurs
    twice, is an error. *)
Theorem genesis_accounts printable `{!StoreCodecOk printable} (addrs : list GenesisAddress)
    (s s' : Storage) :
  (∀ g, g ∈ addrs → printable (gAddress g) ∧ in_width 256 (gAmount g)) →
  CreateAccountsFromGenesis addrs s = (Ok tt, s') →
  NoDup (gAddress <$> addrs) ∧
  (∀ g, g ∈ addrs → data s !! key_of (KAccount (gAddress g)) = None ∧
                    stored (data s') (gAddress g) = Some (mkAccount (gAddress g) (gAmount g) 0)) ∧
  ∀ k, key_ok k → (∀ g, g ∈ addrs → k ≠ KAccount (gAddress g)) → data s' !! key_of k = data s !! key_of k.
Proof. apply (genesis_created printable). Qed.
End Ledger.

(** ** A concrete codec and ledger

    An account is its balance in 32 bytes, its nonce in 8 and its address. *)

Fixpoint split_at (n : nat) (s : string) : string * string :=
  match n, s with
  | S n', String c s' => let '(a, b) := split_at n' s' in (String c a, b)
  | _, _ => ("", s)
  end.

Lemma split_at_app a b : split_at (String.length a) (a +:+ b) = (a, b).
Proof.
  induction a as [|c a IH]; [by destruct b|]. rewrite app_cons_string. simpl. by rewrite IH.
Qed.

Lemma be_value_range s acc : 0 ≤ acc →
  acc * 256 ^ string_len s ≤ be_value acc s < (acc + 1) * 256 ^ string_len s.
Proof.
  revert acc. induction s as [|c s IH]; intros acc Ha; [unfold string_len; simpl; lia|].
  cbn [be_value]. pose proof (byte_at_range c). specialize (IH (256 * acc + byte_at c) ltac:(lia)).
  assert (E : 256 ^ string_len (String c s) = 256 * 256 ^ string_len s).
  { unfold string_len. cbn [String.length]. by rewrite Nat2Z.inj_succ, Z.pow_succ_r by lia. }
  rewrite E. assert (0 < 256 ^ string_len s) by (apply Z.pow_pos_nonneg; unfold string_len; lia). nia.
Qed.

Definition ledger_codec : StoreCodec := {|
  json_to_tx := @json_to_tx example_codec;
  json_of_account a := Some (be_bytes 32 (Balance a) +:+ be_bytes 8 (aNonce a) +:+ Address a);
  json_to_account v :=
    let '(b, r) := split_at 32 v in
    let '(n, a) := split_at 8 r in
    if (string_len b =? 32) && (string_len n =? 8)
    then Some (mkAccount a (be_value 0 b) (be_value 0 n)) else None;
  json_of_block := @json_of_block example_codec;
  json_to_block _ := None;
  json_of_meta := @json_of_meta example_codec;
  json_to_meta _ := None;
|}.

Lemma be_bytes_length n v : String.length (be_bytes n v) = n.
Proof. induction n as [|n IH]; simpl; [done|]. by rewrite IH. Qed.

Lemma head_filter_elem {A} (P : A → Prop) `{!∀ x, Decision (P x)} (l : list A) x :
  head (filter P l) = Some x → x ∈ l.
Proof.
  induction l as [|y l IH]; [done|]. rewrite filter_cons. case_decide; simpl; [intros [= ->]; left|].
  intros. right. auto.
Qed.

#[export] Instance ledger_codec_ok : @StoreCodecOk ledger_codec (λ _, True).
Proof.
  split.
  - intros v tx Hv. pose proof (head_filter_elem _ _ _ Hv) as Hin. clear Hv.
    repeat (apply elem_of_cons in Hin as [->|Hin]; [by vm_compute|]). by apply elem_of_nil in Hin.
  - intros v acc. cbn -[split_at be_value]. destruct (split_at 32 v) as [b r], (split_at 8 r) as [n a].
    destruct ((string_len b =? 32) && (string_len n =? 8)) eqn:E; [|done]. intros [= <-]. simpl.
    apply andb_prop in E as [E1 E2]. apply Z.eqb_eq in E1, E2.
    pose proof (be_value_range b 0 ltac:(done)) as Hb. pose proof (be_value_range n 0 ltac:(done)) as Hn.
    rewrite E1 in Hb. rewrite E2 in Hn. split_and!; [done| |]; unfold in_width.
    + change (2 ^ 256) with (256 ^ 32). lia.
    + change (2 ^ 64) with (256 ^ 8). lia.
  - intros acc v _ Hb Hn. unfold json_of_account, json_to_account, ledger_codec. intros Hv.
    apply (inj Some) in Hv. subst v.
    pose proof (split_at_app (be_bytes 32 (Balance acc)) (be_bytes 8 (aNonce acc) +:+ Address acc)) as E1.
    rewrite be_bytes_length in E1. rewrite E1.
    pose proof (split_at_app (be_bytes 8 (aNonce acc)) (Address acc)) as E2.
    rewrite be_bytes_length in E2. rewrite E2. unfold string_len. rewrite !be_bytes_length. simpl Z.eqb.
    cbn [andb]. rewrite !be_value_bytes, !Z.mul_0_l, !Z.add_0_l.
    change (256 ^ Z.of_nat 32) with (2 ^ 256). change (256 ^ Z.of_nat 8) with (2 ^ 64).
    rewrite !Z.mod_small by done. by destruct acc.
Qed.

Definition no_contents : ContentCodec := {| json_to_content _ := None |}.

(** The sender has 100; its transfer of 5 is in the pending block of slot 5,
    once or twice. *)
Definition ledger_storage (b : BroadcastedBlock) : Storage :=
  snd (@AddBlockPending example_tx_env ledger_codec (Some b)
         (mkStorage {[ key_of (KAccount example_addr) :=
                       be_bytes 32 100 +:+ be_bytes 8 0 +:+ example_addr ]} [] 0 0)).

Definition repeated_block : BroadcastedBlock :=
  @AssembleBlock example_tx_env 5 zero_hash example_addr
    [NewTxEntry 1 zero_hash [Some example_tx; Some example_tx]; NewTickEntry 5 zero_hash] 9.

Definition apply_block (b : BroadcastedBlock) : result StoreError unit * Storage * Outputs :=
  @ledger_FinalizeBlock example_tx_env ledger_codec no_contents true true
    (@BroadcastedBlockToBlock example_tx_env b) false (ledger_storage b).

(** The balances before and after, of the sender and the recipient. *)
Definition balances (d : gmap string string) : list Z :=
  @stored_balance ledger_codec d <$> [example_addr; "bob"].

(** A transaction that a block lists twice is applied twice: nothing between
    the block and the accounts looks for repetitions.  With a balance of 100, one
    transfer of 5 leaves 95, and the same signed transfer listed twice leaves
    90. *)
Theorem repeated_transaction_applied_twice :
  let once := apply_block (example_block 5) in
  let twice := apply_block repeated_block in
  block_txs repeated_block = [Some example_tx; Some example_tx] ∧
  fst (fst once) = Ok tt ∧ balances (data (snd (fst once))) = [95; 5] ∧
  fst (fst twice) = Ok tt ∧ balances (data (snd (fst twice))) = [90; 10].
Proof. split_and!; vm_compute; reflexivity. Qed.

Lemma ledger_accounts_stored : @accounts_stored ledger_codec (data (ledger_storage (example_block 5))).
Proof.
  assert (Hcheck : map_Forall (λ k v, String.prefix PrefixAccount k = true →
    k = key_of (KAccount example_addr) ∧ v = be_bytes 32 100 +:+ be_bytes 8 0 +:+ example_addr)
    (data (ledger_storage (example_block 5)))).
  { apply map_Forall_to_list. vm_compute. repeat constructor; done. }
  intros a v Hv. destruct (Hcheck _ _ Hv) as [Ek ->]; [by destruct a|].
  apply key_of_inj in Ek; [|done..]. injection Ek as ->.
  exists (mkAccount example_addr 100 0). split; vm_compute; reflexivity.
Qed.

Lemma supply_conserved_witness :
  sum_over [example_addr; "bob"]
    (@stored_balance ledger_codec (data (snd (fst (apply_block (example_block 5)))))) = 100.
Proof.
  assert (E : apply_block (example_block 5) =
    (Ok tt, snd (fst (apply_block (example_block 5))), snd (apply_block (example_block 5))))
    by (vm_compute; reflexivity).
  refine (eq_trans (proj1 (@supply_conserved example_tx_env ledger_codec no_contents (λ _, True) _
    true true false (@BroadcastedBlockToBlock example_tx_env (example_block 5))
    (ledger_storage (example_block 5)) _ (Ok tt) _ [example_addr; "bob"] ledger_accounts_stored
    _ _ _ E)) _).
  - apply (bool_decide_unpack _). vm_compute. exact I.
  - vm_compute. reflexivity.
  - assert (Hb : @block_addrs (@loaded ledger_codec (data (ledger_storage (example_block 5)))
      (block_tx_hashes (@BroadcastedBlockToBlock example_tx_env (example_block 5))))
      = [example_addr; "bob"]) by (vm_compute; reflexivity).
    intros a Ha. rewrite Hb in Ha. exact Ha.
  - vm_compute. reflexivity.
Defined.

Lemma transfer_spec_witness :
  let st : gmap string Account := {[ "a" := mkAccount "a" 9 0; "b" := mkAccount "b" 1 0 ]} in
  let tx := mkTransaction 1 "a" "b" (Some 4) 0 "" 7 "" "" "" "" in
  balance_in (snd (applyTx st (Some tx))) "a" = 5 ∧ balance_in (snd (applyTx st (Some tx))) "b" = 5.
Proof.
  intros st tx.
  destruct (transfer_spec st (snd (applyTx st (Some tx))) tx (Ok tt)) as (_ & _ & Hok);
    [ | done | by vm_compute |].
  - intros a. unfold balance_in, st.
    destruct (decide (a = "a")) as [->|Ha]; [by vm_compute|].
    destruct (decide (a = "b")) as [->|Hb]; [by vm_compute|].
    by rewrite lookup_insert_ne, lookup_singleton_ne by done.
  - destruct (Hok eq_refl) as [Hb _]. by rewrite !Hb.
Defined.

(** Two contents that both name the root as their parent. *)
Definition content_codec : ContentCodec := {|
  json_to_content s :=
    if bool_decide (s = "root") then Some (mkContent "post" "t" "d" [] "" "" [])
    else Some (mkContent "post" "t" "d" [] "r" "r" []);
|}.

Definition content_tx (nonce : Z) (extra : string) : Transaction :=
  mkTransaction 2 "a" "b" (Some 0) 0 "" nonce "" extra "" "".

Lemma content_versions_chain_witness :
  let related : gmap string Transaction := {[ "r" := content_tx 1 "root" ]} in
  let latest1 := snd (@validateUserContent example_tx_env content_codec (content_tx 2 "x") related {[ "r" := "r" ]}) in
  latest1 !! "r" = Some (@Hash example_tx_env (content_tx 2 "x")) ∧
  fst (@validateUserContent example_tx_env content_codec (content_tx 3 "y") related latest1) ≠ None.
Proof.
  intros related latest1.
  destruct (@content_versions_chain example_tx_env content_codec (content_tx 2 "x") (content_tx 3 "y") related
    {[ "r" := "r" ]} latest1
    (snd (@validateUserContent example_tx_env content_codec (content_tx 3 "y") related latest1))
    None (fst (@validateUserContent example_tx_env content_codec (content_tx 3 "y") related latest1))
    (mkContent "post" "t" "d" [] "r" "r" []) (mkContent "post" "t" "d" [] "r" "r" []))
    as (_ & H2 & _ & H4 & _);
    [done|done|by vm_compute|by vm_compute|done|done|done|by vm_compute|].
  split; [rewrite H2; apply lookup_insert_eq | exact H4].
Defined.

Lemma genesis_accounts_witness :
  let s' := snd (@CreateAccountsFromGenesis ledger_codec [mkGenesis "a" 7; mkGenesis "b" 8] empty_storage) in
  @stored ledger_codec (data s') "a" = Some (mkAccount "a" 7 0) ∧
  fst (@CreateAccountsFromGenesis ledger_codec [mkGenesis "a" 7; mkGenesis "a" 8] empty_storage)
  = Err AccountExisted.
Proof.
  intros s'. split; [|by vm_compute].
  destruct (@genesis_accounts ledger_codec (λ _, True) _ [mkGenesis "a" 7; mkGenesis "b" 8] empty_storage s')
    as (_ & Hin & _).
  - intros g [->|[->|?%elem_of_nil]%elem_of_cons]%elem_of_cons; done.
  - by vm_compute.
  - apply (Hin (mkGenesis "a" 7)). left.
Defined.
