(* ===== verification/Mempool.v ===== *)
(** * The mempool and the deduplication service (the package mempool)

    The pool keeps the pending transactions by hash, the order of their
    admission, the set of their deduplication hashes and the pending total of
    each sender.  The cache of the deduplication service is [DedupCache]; the
    accounts and the stored transactions are read from the [Storage].
    [AddTx] and [PullBatch] do part of their work outside the lock, so they are
    also split into the parts that other calls can interleave with.  A Go panic
    is [None]: a nil amount or transaction that is dereferenced. *)

From stdpp Require Import base list gmap strings.
From Stdlib Require Import ZArith Lia.
From S2P Require Import Prelude GoLib Transaction Poh Block Store BlockStore Ledger.

Open Scope string_scope.
Open Scope list_scope.
Open Scope Z_scope.

Definition NonceWindow : Z := 150.
Definition DedupSlotGap : Z := 200.
Definition MaxMemoCharacters : Z := 512.

Record Mempool := mkMempool {
  txs : gmap string Transaction; txOrder : list string; dedupTxHashSet : gset string;
  senderTotalAmount : gmap string Z; max_ : Z; netCurrentSlot : Z;
}.

Inductive MempoolError :=
| ErrInvalidAmount | ErrMemoTooLong | ErrMempoolFull | ErrNonceTooLow | ErrNonceTooHigh
| ErrInvalidSignature | ErrDuplicateTransaction | ErrDedup | ErrInvalidUserContent
| ErrMissingFields | ErrInvalidAddress | ErrInternal | ErrParentNotFound | ErrRootNotFound
| ErrVersionConflict | ErrAccountNotFound | ErrInsufficientFunds.

(** What the cache of deduplication hashes answers. *)
Inductive CacheAnswer := Found | NotFound | CacheError.

Class DedupCache := {
  DCache : Type;
  dc_Get : DCache → string → CacheAnswer;
  dc_Set : DCache → string → DCache;
}.

(** Within the life window, and as long as no two keys collide, an entry that
    was set is found and stays. *)
Class DedupCacheOk (D : DedupCache) : Prop := {
  dc_Get_Set c k : dc_Get (dc_Set c k) k = Found;
  dc_Get_Set_ne c k k' : k' ≠ k → dc_Get (dc_Set c k) k' = dc_Get c k';
}.

Section Mempool.
Context `{TE : TxEnv, ZE : ZkEnv, SC : StoreCodec, CC : ContentCodec, DC : DedupCache}.

(** ** dedup_service.go *)

Inductive dedup_answer := Dup (b : bool) | DupError.

Definition IsDuplicate (c : DCache) (txDedupHash : string) : dedup_answer :=
  match dc_Get c txDedupHash with
  | Found => Dup true
  | NotFound => Dup false
  | CacheError => DupError
  end.

(** A failure to set is logged. *)
Definition dedup_Add (c : DCache) (txDedupHashes : list string) : DCache := foldl dc_Set c txDedupHashes.

(** The slots [LoadTxHashes] reads. *)
Definition load_slots (latestSlot : Z) : list Z :=
  let startSlot := if DedupSlotGap <? latestSlot then latestSlot - DedupSlotGap + 1 else 1 in
  seqZ startSlot (latestSlot - startSlot + 1).

(** The deduplication hashes of the blocks, block by block; a block whose
    transactions cannot be read is skipped. *)
Fixpoint collect_hashes (blocks : list (Z * Block)) (s : Storage) : list string * Storage :=
  match blocks with
  | [] => ([], s)
  | (_, b) :: blocks' =>
      match tx_GetBatch (concat (TxHashes <$> blk_Entries b)) s with
      | (Ok l, s) => let '(hs, s) := collect_hashes blocks' s in ((DedupHash <$> l) ++ hs, s)
      | (Err _, s) => collect_hashes blocks' s
      end
  end.

Definition LoadTxHashes (c : DCache) (latestSlot : Z) (s : Storage) : DCache * Storage :=
  if latestSlot <? 1 then (c, s)
  else
    match block_GetBatch (load_slots latestSlot) s with
    | (Err _, s) => (c, s)
    | (Ok blocks, s) =>
        let '(hs, s) := collect_hashes (map_to_list blocks) s in (dedup_Add c hs, s)
    end.

(** ** mempool.go: validation *)

(** The outer [None] is a panic, the inner one the nil error. *)
Definition verdict : Type := option (option MempoolError).
Definition accept : verdict := Some None.
Definition reject (e : MempoolError) : verdict := Some (Some e).

Definition minNonce (mp : Mempool) : Z :=
  if NonceWindow <? netCurrentSlot mp then netCurrentSlot mp - NonceWindow else 1.

Fixpoint validateNonce (mp : Mempool) (l : list (option Transaction)) : verdict :=
  match l with
  | [] => accept
  | None :: _ => None
  | Some tx :: l' =>
      if Nonce tx <? minNonce mp then reject ErrNonceTooLow
      else if netCurrentSlot mp <? Nonce tx then reject ErrNonceTooHigh
      else validateNonce mp l'
  end.

Fixpoint validateDuplicateTxs (c : DCache) (l : list (option Transaction)) : verdict :=
  match l with
  | [] => accept
  | None :: _ => None
  | Some tx :: l' =>
      match IsDuplicate c (DedupHash tx) with
      | DupError => reject ErrDedup
      | Dup true => reject ErrDuplicateTransaction
      | Dup false => validateDuplicateTxs c l'
      end
  end.

(** The balance left after the pending total, on 256 bits. *)
Definition availableBalance (mp : Mempool) (tx : Transaction) (acc : Account) : Z :=
  match senderTotalAmount mp !! Sender tx with
  | Some total => u256_sub (Balance acc) total
  | None => Balance acc
  end.

Definition validateBalance (mp : Mempool) (tx : Transaction) (s : Storage) : verdict * Storage :=
  if bool_decide (Sender tx = Recipient tx) then (accept, s)
  else
    match GetAccount (Sender tx) s with
    | (Ok (Some acc), s) =>
        match Amount tx with
        | None => (None, s)
        | Some amount =>
            if availableBalance mp tx acc <? amount then (reject ErrInsufficientFunds, s) else (accept, s)
        end
    | (_, s) => (reject ErrAccountNotFound, s)
    end.

(** The check of the parent and the root. *)
Definition validateVersion (tx : Transaction) (content : UserContent) (s : Storage) : verdict * Storage :=
  if bool_decide (ParentHash content = "") && bool_decide (RootHash content = "") then (accept, s)
  else if bool_decide (ParentHash content = "") || bool_decide (RootHash content = "")
  then (reject ErrInvalidUserContent, s)
  else
    match tx_GetByHash (ParentHash content) s with
    | (Err _, s) => (reject ErrParentNotFound, s)
    | (Ok parent, s) =>
        if negb (Type_ parent =? TxTypeUserContent) || negb (bool_decide (Sender parent = Sender tx)) ||
           negb (bool_decide (Recipient parent = Recipient tx))
        then (reject ErrInvalidUserContent, s)
        else
          match GetLatestVersionContentHash (RootHash content) s with
          | (Err _, s) => (reject ErrRootNotFound, s)
          | (Ok latest, s) =>
              if negb (bool_decide (latest = ParentHash content)) then (reject ErrVersionConflict, s)
              else (accept, s)
          end
    end.

Definition mp_validateUserContent (tx : Transaction) (s : Storage) : verdict * Storage :=
  match json_to_content (ExtraInfo tx) with
  | None => (reject ErrInvalidUserContent, s)
  | Some content =>
      if blank (cType content) || blank (cTitle content) || blank (cDescription content)
      then (reject ErrMissingFields, s)
      else if ShouldValidateAddress (cType content) && negb (ValidateTxAddress (Recipient tx))
      then (reject ErrInvalidAddress, s)
      else if bool_decide (ReferenceTxHashes content = []) then validateVersion tx content s
      else if MaxReferenceTxs <? Z.of_nat (length (ReferenceTxHashes content))
      then (reject ErrInvalidUserContent, s)
      else
        match tx_GetBatch (ReferenceTxHashes content) s with
        | (Err _, s) => (reject ErrInternal, s)
        | (Ok refs, s) =>
            if negb (length refs =? length (ReferenceTxHashes content))%nat
            then (reject ErrInvalidUserContent, s)
            else validateVersion tx content s
        end
  end.

Definition cheapValidateTransaction (mp : Mempool) (zk : option Cache) (tx : Transaction)
    : verdict * option Cache :=
  if match Amount tx with None => true | Some a => a =? 0 end && negb (Type_ tx =? TxTypeUserContent)
  then (reject ErrInvalidAmount, zk)
  else if MaxMemoCharacters <? string_len (TextData tx) then (reject ErrMemoTooLong, zk)
  else if max_ mp <=? Z.of_nat (size (txs mp)) then (reject ErrMempoolFull, zk)
  else
    match validateNonce mp [Some tx] with
    | Some None =>
        let '(ok, zk) := Verify zk tx in
        if negb ok then (reject ErrInvalidSignature, zk) else (accept, zk)
    | v => (v, zk)
    end.

Definition validateTransaction (mp : Mempool) (c : DCache) (tx : Transaction) (s : Storage)
    : verdict * Storage :=
  if bool_decide (DedupHash tx ∈ dedupTxHashSet mp) then (reject ErrDuplicateTransaction, s)
  else
    match validateDuplicateTxs c [Some tx] with
    | Some None =>
        if Type_ tx =? TxTypeUserContent then mp_validateUserContent tx s
        else validateBalance mp tx s
    | v => (v, s)
    end.

(** ** mempool.go: operations *)

Definition NewMempool (maxSize : Z) : Mempool := mkMempool ∅ [] ∅ ∅ maxSize 0.

(** The state of the pool with the transaction. *)
Definition insert_tx (mp : Mempool) (tx : Transaction) (amount : Z) : Mempool :=
  let totals :=
    if negb (Type_ tx =? TxTypeUserContent)
    then <[Sender tx := u256_add (default 0 (senderTotalAmount mp !! Sender tx)) amount]> (senderTotalAmount mp)
    else senderTotalAmount mp in
  mkMempool (<[Hash tx := tx]> (txs mp)) (txOrder mp ++ [Hash tx]) ({[DedupHash tx]} ∪ dedupTxHashSet mp)
    totals (max_ mp) (netCurrentSlot mp).

(** The part of [AddTx] under the lock: validation and insertion. *)
Definition AddTx_locked (mp : Mempool) (c : DCache) (tx : Transaction) (s : Storage)
    : option (result MempoolError string * Mempool * Storage) :=
  match validateTransaction mp c tx s with
  | (None, _) => None
  | (Some (Some e), s) => Some (Err e, mp, s)
  | (Some None, s) =>
      match Amount tx, Type_ tx =? TxTypeUserContent with
      | None, false => None
      | a, _ => Some (Ok (Hash tx), insert_tx mp tx (default 0 a), s)
      end
  end.

(** What a call answers besides the new state: the hash or the error, and
    whether the transaction is announced and broadcast. *)
Record AddResult := mkAdd {
  add_result : result MempoolError string; add_mempool : Mempool; add_zk : option Cache;
  add_storage : Storage; add_announced : bool; add_broadcast : bool;
}.

Definition AddTx (hasRouter hasBroadcaster : bool) (mp : Mempool) (zk : option Cache) (c : DCache)
    (tx : Transaction) (broadcast : bool) (s : Storage) : option AddResult :=
  match cheapValidateTransaction mp zk tx with
  | (None, _) => None
  | (Some (Some e), zk) => Some (mkAdd (Err e) mp zk s false false)
  | (Some None, zk) =>
      match AddTx_locked mp c tx s with
      | None => None
      | Some (Err e, mp, s) => Some (mkAdd (Err e) mp zk s false false)
      | Some (Ok h, mp, s) => Some (mkAdd (Ok h) mp zk s hasRouter (broadcast && hasBroadcaster))
      end
  end.

(** Takes the amount of a removed transaction off the pending total, which is
    dropped when it is zero. *)
Definition release_amount (totals : gmap string Z) (tx : Transaction) : option (gmap string Z) :=
  match totals !! Sender tx with
  | None => Some totals
  | Some total =>
      match Amount tx with
      | None => None
      | Some amount =>
          let total := u256_sub total amount in
          Some (if total =? 0 then delete (Sender tx) totals else <[Sender tx := total]> totals)
      end
  end.

Definition remove_tx (mp : Mempool) (h : string) (tx : Transaction) : option Mempool :=
  match release_amount (senderTotalAmount mp) tx with
  | None => None
  | Some totals =>
      Some (mkMempool (delete h (txs mp)) (txOrder mp) (dedupTxHashSet mp ∖ {[DedupHash tx]}) totals
              (max_ mp) (netCurrentSlot mp))
  end.

(** The loop of [PullBatch]: the pool and the transactions taken. *)
Fixpoint pull_loop (mp : Mempool) (selected : list string) : option (Mempool * list Transaction) :=
  match selected with
  | [] => Some (mp, [])
  | h :: selected' =>
      match txs mp !! h with
      | None => pull_loop mp selected'
      | Some tx =>
          match remove_tx mp h tx with
          | None => None
          | Some mp' =>
              match pull_loop mp' selected' with
              | None => None
              | Some (mp'', l) => Some (mp'', tx :: l)
              end
          end
      end
  end.

Definition with_order (mp : Mempool) (order : list string) : Mempool :=
  mkMempool (txs mp) order (dedupTxHashSet mp) (senderTotalAmount mp) (max_ mp) (netCurrentSlot mp).

(** The part under the lock. *)
Definition PullBatch_locked (mp : Mempool) (batchSize : Z) : option (Mempool * list Transaction) :=
  if batchSize <? 0 then None
  else
    let n := Nat.min (Z.to_nat batchSize) (length (txOrder mp)) in
    pull_loop (with_order mp (drop n (txOrder mp))) (take n (txOrder mp)).

(** The pool, the cache and the batch, which the tracker is told too. *)
Definition PullBatch (mp : Mempool) (c : DCache) (batchSize : Z)
    : option (Mempool * DCache * list Transaction) :=
  match PullBatch_locked mp batchSize with
  | None => None
  | Some (mp, l) => Some (mp, dedup_Add c (DedupHash <$> l), l)
  end.

Definition mp_Size (mp : Mempool) : Z := Z.of_nat (size (txs mp)).
Definition GetTransactionCount (mp : Mempool) : Z := mp_Size mp.
Definition GetTransaction (mp : Mempool) (h : string) : option Transaction := txs mp !! h.
Definition GetOrderedTransactions (mp : Mempool) : list string := txOrder mp.

Definition SetCurrentSlot (mp : Mempool) (slot : Z) : Mempool :=
  if slot <=? netCurrentSlot mp then mp
  else mkMempool (txs mp) (txOrder mp) (dedupTxHashSet mp) (senderTotalAmount mp) (max_ mp) slot.

Definition VerifyBlockTransactions (mp : Mempool) (c : DCache) (l : list (option Transaction)) : verdict :=
  match validateNonce mp l with
  | Some None => validateDuplicateTxs c l
  | v => v
  end.

Fixpoint cleanup_loop (mp : Mempool) (hs : list string) : option Mempool :=
  match hs with
  | [] => Some mp
  | h :: hs' =>
      match txs mp !! h with
      | None => cleanup_loop mp hs'
      | Some tx =>
          match remove_tx mp h tx with
          | None => None
          | Some mp' => cleanup_loop mp' hs'
          end
      end
  end.

(** The set of hashes is ranged over in the order of its list of elements. *)
Definition BlockCleanup (mp : Mempool) (txHashSet : gset string) : option Mempool :=
  match cleanup_loop mp (elements txHashSet) with
  | None => None
  | Some mp => Some (with_order mp (filter (λ h, h ∉ txHashSet) (txOrder mp)))
  end.

End Mempool.

(** ** The pool under interleaved calls *)

Section Interleaving.
Context `{TE : TxEnv, ZE : ZkEnv, SC : StoreCodec, CC : ContentCodec, DC : DedupCache}.

(** The pool, the transactions of the calls of [AddTx] that passed the cheap
    checks and wait for the lock, the batches of the calls of [PullBatch] that
    released the lock and have not reached the cache, and the cache. *)
Record Pool := mkPool {
  pool : Mempool; waiting : list Transaction; leaving : list (list Transaction); cache : DCache;
}.

(** One step of some goroutine, for submitted transactions in [U] and storages
    in [S]. *)
Inductive mp_step (U : Transaction → Prop) (S : Storage → Prop) : Pool → Pool → Prop :=
| step_cheap mp w l c tx zk zk' :
    U tx → cheapValidateTransaction mp zk tx = (accept, zk') →
    mp_step U S (mkPool mp w l c) (mkPool mp (tx :: w) l c)
| step_locked mp w1 w2 l c tx s r mp' s' :
    S s → AddTx_locked mp c tx s = Some (r, mp', s') →
    mp_step U S (mkPool mp (w1 ++ tx :: w2) l c) (mkPool mp' (w1 ++ w2) l c)
| step_pull mp w l c n mp' batch :
    PullBatch_locked mp n = Some (mp', batch) →
    mp_step U S (mkPool mp w l c) (mkPool mp' w (batch :: l) c)
| step_dedup mp w l1 l2 c batch :
    mp_step U S (mkPool mp w (l1 ++ batch :: l2) c) (mkPool mp w (l1 ++ l2) (dedup_Add c (DedupHash <$> batch)))
| step_cleanup mp w l c hs mp' :
    BlockCleanup mp hs = Some mp' →
    mp_step U S (mkPool mp w l c) (mkPool mp' w l c)
| step_slot mp w l c slot :
    mp_step U S (mkPool mp w l c) (mkPool (SetCurrentSlot mp slot) w l c).

Lemma AddTx_steps U S hr hb mp zk c tx b s r w l :
  U tx → S s → AddTx hr hb mp zk c tx b s = Some r →
  rtc (mp_step U S) (mkPool mp w l c) (mkPool (add_mempool r) w l c).
Proof.
  intros HU HS. unfold AddTx.
  destruct (cheapValidateTransaction mp zk tx) as [[[e|]|] zk'] eqn:E; [intros [= <-]; done| |done].
  destruct (AddTx_locked mp c tx s) as [[[r' mp'] s']|] eqn:E'; [|done].
  intros Hr. eapply rtc_l; [by eapply step_cheap|].
  eapply (rtc_l _ _ (mkPool mp' w l c)); [exact (step_locked U S mp [] w l c tx s r' mp' s' HS E')|].
  destruct r'; simplify_eq; done.
Qed.

(** The two maps, the order and the set agree. *)
Record mp_wf (mp : Mempool) : Prop := {
  wf_order : NoDup (txOrder mp);
  wf_dom h : h ∈ txOrder mp ↔ is_Some (txs mp !! h);
  wf_hash h tx : txs mp !! h = Some tx → Hash tx = h;
  wf_set d : d ∈ dedupTxHashSet mp ↔ ∃ h tx, txs mp !! h = Some tx ∧ DedupHash tx = d;
  wf_inj h1 h2 t1 t2 : txs mp !! h1 = Some t1 → txs mp !! h2 = Some t2 →
    DedupHash t1 = DedupHash t2 → h1 = h2;
}.

(** All but the order, which the operations restore at the end. *)
Record mp_core (m : gmap string Transaction) (d : gset string) : Prop := {
  core_hash h tx : m !! h = Some tx → Hash tx = h;
  core_set x : x ∈ d ↔ ∃ h tx, m !! h = Some tx ∧ DedupHash tx = x;
  core_inj h1 h2 t1 t2 : m !! h1 = Some t1 → m !! h2 = Some t2 → DedupHash t1 = DedupHash t2 → h1 = h2;
}.

Lemma wf_core mp : mp_wf mp ↔ NoDup (txOrder mp) ∧ (∀ h, h ∈ txOrder mp ↔ is_Some (txs mp !! h)) ∧
  mp_core (txs mp) (dedupTxHashSet mp).
Proof.
  split; [intros [? ? ? ? ?]|intros (? & ? & [? ? ?])]; [|by constructor].
  split_and!; [done..|by constructor].
Qed.

Lemma core_insert m d tx : mp_core m d → m !! Hash tx = None → DedupHash tx ∉ d →
  mp_core (<[Hash tx := tx]> m) ({[DedupHash tx]} ∪ d).
Proof.
  intros [Hh Hs Hi] Hm Hd.
  assert (Hne : ∀ h t, m !! h = Some t → DedupHash t ≠ DedupHash tx).
  { intros h t Ht E. apply Hd, Hs. by exists h, t. }
  split.
  - intros h t [[<- <-]|[_ Ht]]%lookup_insert_Some; [done|by apply Hh].
  - intros x. rewrite elem_of_union, elem_of_singleton, Hs. split.
    + intros [->|(h & t & Ht & Hx)]; [exists (Hash tx), tx; by rewrite lookup_insert_eq|].
      exists h, t. rewrite lookup_insert_ne; [done|congruence].
    + intros (h & t & [[<- <-]|[_ Ht]]%lookup_insert_Some & Hx); [by left|right; by exists h, t].
  - intros h1 h2 t1 t2 [[<- <-]|[_ H1]]%lookup_insert_Some [[<- <-]|[_ H2]]%lookup_insert_Some E.
    + done.
    + by destruct (Hne _ _ H2).
    + by destruct (Hne _ _ H1).
    + by eapply Hi.
Qed.

Lemma core_delete m d h tx : mp_core m d → m !! h = Some tx → mp_core (delete h m) (d ∖ {[DedupHash tx]}).
Proof.
  intros [Hh Hs Hi] Hm. split.
  - intros h' t [_ Ht]%lookup_delete_Some. by apply Hh.
  - intros x. rewrite elem_of_difference, elem_of_singleton, Hs. split.
    + intros [(h' & t & Ht & Hx) Hne]. exists h', t. rewrite lookup_delete_ne; [done|congruence].
    + intros (h' & t & [Hne Ht]%lookup_delete_Some & <-). split; [by exists h', t|].
      intros E. by apply Hne, (Hi h h' tx t).
  - intros h1 h2 t1 t2 [_ H1]%lookup_delete_Some [_ H2]%lookup_delete_Some. by apply Hi.
Qed.

Lemma remove_tx_eq mp h tx mp' : remove_tx mp h tx = Some mp' →
  txs mp' = delete h (txs mp) ∧ dedupTxHashSet mp' = dedupTxHashSet mp ∖ {[DedupHash tx]} ∧
  release_amount (senderTotalAmount mp) tx = Some (senderTotalAmount mp') ∧
  txOrder mp' = txOrder mp ∧ max_ mp' = max_ mp ∧ netCurrentSlot mp' = netCurrentSlot mp.
Proof. unfold remove_tx. destruct (release_amount _ _); [|done]. by intros [= <-]. Qed.

(** The loop of a block's cleanup is the one of the batch without its result. *)
Lemma cleanup_pull mp hs : cleanup_loop mp hs = fst <$> pull_loop mp hs.
Proof.
  revert mp. induction hs as [|h hs IH]; intros mp; [done|]. simpl.
  destruct (txs mp !! h); [|apply IH]. destruct (remove_tx _ _ _) as [mp'|]; [|done].
  rewrite IH. by destruct (pull_loop mp' hs) as [[]|].
Qed.

(** What the loop does to any property of the pool that each removal keeps. *)
Lemma pull_loop_ind (I : Mempool → Prop) mp hs mp' batch :
  (∀ m h tx m', I m → txs m !! h = Some tx → remove_tx m h tx = Some m' → I m') →
  I mp → pull_loop mp hs = Some (mp', batch) → I mp'.
Proof.
  intros Hstep. revert mp batch. induction hs as [|h hs IH]; intros mp batch HI; simpl;
    [by intros [= <- <-]|].
  destruct (txs mp !! h) as [tx|] eqn:Eh; [|by apply IH].
  destruct (remove_tx mp h tx) as [m|] eqn:Em; [|done].
  destruct (pull_loop m hs) as [[m' l]|] eqn:El; [|done]. intros [= <- <-]. eauto.
Qed.

Lemma in_or_out {A} (x h : string) (hs : list string) (a b : option A) :
  (h = x → a = None) → (h ≠ x → a = b) →
  (if bool_decide (h ∈ hs) then None else a) = if bool_decide (h ∈ x :: hs) then None else b.
Proof.
  intros He Hn. destruct (decide (h = x)) as [->|Hx].
  - rewrite (bool_decide_true (x ∈ x :: hs)) by left. case_bool_decide; auto.
  - rewrite Hn by done. rewrite (bool_decide_ext (h ∈ x :: hs) (h ∈ hs)); [done|].
    rewrite elem_of_cons. tauto.
Qed.

Lemma pull_loop_txs mp hs mp' batch : pull_loop mp hs = Some (mp', batch) →
  txOrder mp' = txOrder mp ∧ max_ mp' = max_ mp ∧
  ∀ h, txs mp' !! h = if bool_decide (h ∈ hs) then None else txs mp !! h.
Proof.
  revert mp batch. induction hs as [|x hs IH]; intros mp batch; simpl.
  { intros [= <- <-]. by split_and!. }
  destruct (txs mp !! x) as [tx|] eqn:Ex.
  - destruct (remove_tx mp x tx) as [m|] eqn:Em; [|done]. apply remove_tx_eq in Em as (Et & _ & _ & Eo & Ex' & _).
    destruct (pull_loop m hs) as [[m' l]|] eqn:El; [|done]. intros [= <- <-].
    apply IH in El as (-> & -> & Hl). split_and!; [done..|]. intros h. rewrite Hl, Et. apply in_or_out;
      [intros ->; by rewrite lookup_delete_eq|intros; by rewrite lookup_delete_ne].
  - intros El. apply IH in El as (-> & -> & Hl). split_and!; [done..|]. intros h. rewrite Hl.
    apply in_or_out; [by intros ->|done].
Qed.

Lemma validateDuplicate_one c tx : validateDuplicateTxs c [Some tx] = accept →
  dc_Get c (DedupHash tx) = NotFound.
Proof. simpl. unfold IsDuplicate. by destruct (dc_Get c (DedupHash tx)). Qed.

(** What the balance check of an admitted transfer has established. *)
Definition balance_checked (mp : Mempool) (tx : Transaction) (s : Storage) : Prop :=
  ∃ a, Amount tx = Some a ∧
    (Sender tx ≠ Recipient tx → ∃ acc s1, GetAccount (Sender tx) s = (Ok (Some acc), s1) ∧
       a ≤ availableBalance mp tx acc).

Lemma validateBalance_accept mp tx s s' : validateBalance mp tx s = (accept, s') →
  Sender tx ≠ Recipient tx → ∃ a acc s1, Amount tx = Some a ∧
    GetAccount (Sender tx) s = (Ok (Some acc), s1) ∧ a ≤ availableBalance mp tx acc.
Proof.
  unfold validateBalance. intros Hv Hne. rewrite bool_decide_false in Hv by done.
  destruct (GetAccount (Sender tx) s) as [[[acc|]|e] s1]; [|done..].
  destruct (Amount tx) as [a|]; [|done].
  destruct (availableBalance mp tx acc <? a) eqn:E; [done|]. apply Z.ltb_ge in E. eauto 10.
Qed.

Lemma AddTx_locked_cases mp c tx s r mp' s' : AddTx_locked mp c tx s = Some (r, mp', s') →
  ((∃ e, r = Err e) ∧ mp' = mp) ∨
  (r = Ok (Hash tx) ∧ mp' = insert_tx mp tx (default 0 (Amount tx)) ∧
   (DedupHash tx ∉ dedupTxHashSet mp) ∧ dc_Get c (DedupHash tx) = NotFound ∧
   (Type_ tx ≠ TxTypeUserContent → balance_checked mp tx s)).
Proof.
  unfold AddTx_locked, validateTransaction. case_bool_decide as Hset; [intros [= <- <- <-]; eauto|].
  destruct (validateDuplicateTxs c [Some tx]) as [[e|]|] eqn:Ed; [intros [= <- <- <-]; eauto| |done].
  apply validateDuplicate_one in Ed.
  destruct (Z.eqb_spec (Type_ tx) TxTypeUserContent) as [Et|Et].
  - destruct (mp_validateUserContent tx s) as [[[e|]|] s1]; [intros [= <- <- <-]; eauto| |done].
    intros Hr. right. destruct (Amount tx); injection Hr as <- <- <-; by split_and!.
  - destruct (validateBalance mp tx s) as [[[e|]|] s1] eqn:Ev; [intros [= <- <- <-]; eauto| |done].
    destruct (Amount tx) as [a|] eqn:Ea; [|done]. intros [= <- <- <-]. right. split_and!; [done..|].
    intros _. exists a. split; [done|]. intros Hne.
    destruct (validateBalance_accept _ _ _ _ Ev Hne) as (a' & acc & s2 & Ha & Hg & Hle).
    simplify_eq. eauto.
Qed.

Lemma wf_insert mp tx amount : mp_wf mp → txs mp !! Hash tx = None → DedupHash tx ∉ dedupTxHashSet mp →
  mp_wf (insert_tx mp tx amount).
Proof.
  intros (Ho & Hd & Hc)%wf_core Hm Hs. apply wf_core. cbn [txOrder txs dedupTxHashSet insert_tx]. split_and!.
  - apply NoDup_app. split_and!; [done| |apply NoDup_singleton].
    intros h Hh ->%list_elem_of_singleton. apply Hd in Hh. rewrite Hm in Hh. by destruct Hh.
  - intros h. rewrite elem_of_app, list_elem_of_singleton, Hd, lookup_insert_is_Some. 
    destruct (decide (Hash tx = h)) as [->|]; naive_solver.
  - by apply core_insert.
Qed.

Lemma core_pull mp hs mp' batch : mp_core (txs mp) (dedupTxHashSet mp) →
  pull_loop mp hs = Some (mp', batch) → mp_core (txs mp') (dedupTxHashSet mp').
Proof.
  apply (pull_loop_ind (λ m, mp_core (txs m) (dedupTxHashSet m))).
  intros m h tx m' Hm Htx (-> & -> & _)%remove_tx_eq. by apply core_delete.
Qed.

Lemma wf_pull mp n mp' batch : mp_wf mp → PullBatch_locked mp n = Some (mp', batch) → mp_wf mp'.
Proof.
  intros (Ho & Hd & Hc)%wf_core. unfold PullBatch_locked. destruct (n <? 0); [done|].
  set (k := Nat.min _ _). intros Hp.
  destruct (pull_loop_txs _ _ _ _ Hp) as (Eo & _ & Hl). simpl in Eo, Hl.
  rewrite <- (take_drop k (txOrder mp)) in Ho, Hd. apply NoDup_app in Ho as (_ & Hdisj & Hdrop).
  apply wf_core. rewrite Eo. split_and!; [done| |by eapply core_pull, Hp].
  intros h. rewrite Hl. specialize (Hd h). rewrite elem_of_app in Hd. case_bool_decide as Hin.
  - split; [|by intros []]. intros Hh. by destruct (Hdisj h).
  - rewrite <- Hd. naive_solver.
Qed.

Lemma wf_cleanup mp hs mp' : mp_wf mp → BlockCleanup mp hs = Some mp' → mp_wf mp'.
Proof.
  intros (Ho & Hd & Hc)%wf_core. unfold BlockCleanup. rewrite cleanup_pull.
  destruct (pull_loop mp (elements hs)) as [[m l]|] eqn:E; [|done]. intros [= <-].
  destruct (pull_loop_txs _ _ _ _ E) as (Eo & _ & Hl). apply wf_core. simpl. rewrite Eo.
  split_and!; [by apply NoDup_filter| |by eapply core_pull, E].
  intros h. rewrite list_elem_of_filter, Hl, Hd. case_bool_decide as Hin; rewrite elem_of_elements in Hin.
  - split; [tauto|by intros []].
  - tauto.
Qed.

Lemma wf_slot mp slot : mp_wf mp → mp_wf (SetCurrentSlot mp slot).
Proof. unfold SetCurrentSlot. destruct (slot <=? _); [done|]. rewrite !wf_core. done. Qed.

Definition pool_inv (U : Transaction → Prop) (p : Pool) : Prop :=
  mp_wf (pool p) ∧ (∀ h tx, txs (pool p) !! h = Some tx → U tx) ∧ Forall U (waiting p).

(** No two submitted transactions with the same hash differ in what they sign. *)
Definition no_collision (U : Transaction → Prop) : Prop :=
  ∀ t1 t2, U t1 → U t2 → Hash t1 = Hash t2 → DedupHash t1 = DedupHash t2.

Lemma pool_inv_shrink U mp mp' w l l' c c' : pool_inv U (mkPool mp w l c) → mp_wf mp' →
  (∀ h tx, txs mp' !! h = Some tx → txs mp !! h = Some tx) → pool_inv U (mkPool mp' w l' c').
Proof. intros (_ & HU & Hw) Hwf Hsub. split_and!; [done| |done]. intros h tx Htx. by eapply HU, Hsub. Qed.

Lemma pull_shrinks mp hs mp' batch h tx : pull_loop mp hs = Some (mp', batch) →
  txs mp' !! h = Some tx → txs mp !! h = Some tx.
Proof. intros (_ & _ & ->)%pull_loop_txs. by case_bool_decide. Qed.

Lemma cleanup_inv mp hs mp' : BlockCleanup mp hs = Some mp' →
  ∃ m l, pull_loop mp (elements hs) = Some (m, l) ∧ mp' = with_order m (filter (λ h, h ∉ hs) (txOrder m)).
Proof.
  unfold BlockCleanup. rewrite cleanup_pull.
  destruct (pull_loop mp (elements hs)) as [[m l]|] eqn:E; [|done]. intros [= <-]. by exists m, l.
Qed.

Lemma pull_inv mp n mp' batch : PullBatch_locked mp n = Some (mp', batch) →
  0 ≤ n ∧ pull_loop (with_order mp (drop (Z.to_nat n) (txOrder mp))) (take (Z.to_nat n) (txOrder mp)) = Some (mp', batch).
Proof.
  unfold PullBatch_locked. destruct (Z.ltb_spec n 0); [done|]. intros H'. split; [done|]. revert H'.
  destruct (Nat.min_spec (Z.to_nat n) (length (txOrder mp))) as [[_ ->]|[Hle ->]]; [done|].
  rewrite firstn_all, drop_all, take_ge, drop_ge by done. done.
Qed.

Lemma pool_inv_step U S p q : no_collision U → pool_inv U p → mp_step U S p q → pool_inv U q.
Proof.
  intros HU Hp Hs. destruct Hs as [mp w l c tx zk zk' Hu _|mp w1 w2 l c tx s r mp' s' _ Ha
    |mp w l c n mp' batch Ha|mp w l1 l2 c batch|mp w l c hs mp' Ha|mp w l c slot].
  - destruct Hp as (? & ? & ?). split_and!; [done..|by constructor].
  - destruct Hp as (Hwf & Hin & Hw). simpl in *. apply Forall_app in Hw as [Hw1 [Ht Hw2]%Forall_cons].
    assert (Forall U (w1 ++ w2)) by by apply Forall_app.
    destruct (AddTx_locked_cases _ _ _ _ _ _ _ Ha) as [[_ ->]|(_ & -> & Hd & _)]; [by split_and!|].
    assert (Hm : txs mp !! Hash tx = None).
    { apply eq_None_not_Some. intros [t Et]. apply Hd, (wf_set _ Hwf). exists (Hash tx), t.
      split; [done|]. apply HU; [by eapply Hin|done|by apply (wf_hash _ Hwf)]. }
    split_and!; [by apply wf_insert| |done]. simpl.
    intros h t [[_ <-]|[_ Hx]]%lookup_insert_Some; [done|by eapply Hin].
  - eapply pool_inv_shrink; [exact Hp|by eapply wf_pull, Ha; apply Hp|].
    intros h tx. apply pull_inv in Ha as [_ Ha]. by apply (pull_shrinks _ _ _ _ _ _ Ha).
  - by eapply pool_inv_shrink; [exact Hp|apply Hp|].
  - eapply pool_inv_shrink; [exact Hp|by eapply wf_cleanup, Ha; apply Hp|].
    apply cleanup_inv in Ha as (m & l' & Hl & ->). intros h tx. by apply (pull_shrinks _ _ _ _ _ _ Hl).
  - eapply pool_inv_shrink; [exact Hp|by apply wf_slot; apply Hp|].
    unfold SetCurrentSlot. by destruct (slot <=? _).
Qed.

Lemma pool_inv_new U maxSize c : pool_inv U (mkPool (NewMempool maxSize) [] [] c).
Proof.
  split_and!; simpl; [|by intros h tx|done]. apply wf_core. split_and!; simpl; [constructor| |].
  - intros h. rewrite elem_of_nil. split; [done|]. by intros [].
  - split; [done| |done]. intros x. split; [by intros ?%elem_of_empty|by intros (? & ? & ? & _)].
Qed.

Lemma pool_inv_reachable U S maxSize c p :
  no_collision U → rtc (mp_step U S) (mkPool (NewMempool maxSize) [] [] c) p → pool_inv U p.
Proof.
  intros HU. apply (rtc_ind_r (λ q, pool_inv U q)); [apply pool_inv_new|].
  intros q q' _ Hqq Hq. by eapply pool_inv_step.
Qed.

(** [C8] Whatever calls interleave, with their checks before the lock and their
    updates of the cache after it, the pool's parts agree at all times: the order
    lists every pending transaction once, each transaction is kept under its
    hash, the deduplication set holds exactly the pending ones, and no two
    pending transactions have the same deduplication hash, as long as submitted
    transactions of equal hash sign the same bytes. *)
Theorem mempool_invariant (U : Transaction → Prop) (S : Storage → Prop) (maxSize : Z) (c : DCache) (p : Pool) :
  no_collision U → rtc (mp_step U S) (mkPool (NewMempool maxSize) [] [] c) p → mp_wf (pool p).
Proof. intros HU Hr. by destruct (pool_inv_reachable U S maxSize c p HU Hr). Qed.

(** ** Capacity *)

(** The steps with at most [K] calls of [AddTx] between their checks and the
    lock. *)
Definition bounded_step (K : nat) (U : Transaction → Prop) (S : Storage → Prop) (p q : Pool) : Prop :=
  mp_step U S p q ∧ (length (waiting q) ≤ K)%nat.

Lemma cheap_capacity mp zk tx zk' : cheapValidateTransaction mp zk tx = (accept, zk') →
  Z.of_nat (size (txs mp)) < max_ mp.
Proof.
  unfold cheapValidateTransaction. destruct (_ && _); [done|]. destruct (_ <? _); [done|].
  destruct (Z.leb_spec (max_ mp) (Z.of_nat (size (txs mp)))); done.
Qed.

Lemma pull_capacity mp hs mp' batch : pull_loop mp hs = Some (mp', batch) →
  (size (txs mp') ≤ size (txs mp))%nat ∧ max_ mp' = max_ mp.
Proof.
  intros Hp. split; [|by apply pull_loop_txs in Hp as (_ & ? & _)]. revert Hp.
  apply (pull_loop_ind (λ m, size (txs m) ≤ size (txs mp))%nat); [|done].
  intros m h tx m' Hm Htx (-> & _)%remove_tx_eq. rewrite map_size_delete, Htx. simpl. lia.
Qed.

Definition capacity_inv (K : nat) (maxSize : Z) (p : Pool) : Prop :=
  max_ (pool p) = maxSize ∧
  Z.of_nat (size (txs (pool p)) + length (waiting p)) ≤ maxSize + Z.of_nat K - 1.

Lemma capacity_step K maxSize U S p q : capacity_inv K maxSize p → bounded_step K U S p q →
  capacity_inv K maxSize q.
Proof.
  unfold capacity_inv. intros [Hm Hc] [Hs Hk]. destruct Hs as [mp w l c tx zk zk' _ Ha|mp w1 w2 l c tx s r mp' s' _ Ha
    |mp w l c n mp' batch Ha|mp w l1 l2 c batch|mp w l c hs mp' Ha|mp w l c slot]; simpl in *.
  - apply cheap_capacity in Ha. lia.
  - rewrite length_app in *. simpl in Hc.
    destruct (AddTx_locked_cases _ _ _ _ _ _ _ Ha) as [[_ ->]|(_ & -> & _)]; [lia|].
    cbn [txs insert_tx max_]. rewrite map_size_insert. destruct (txs mp !! Hash tx); simpl; lia.
  - apply pull_inv in Ha as [_ Ha]. apply pull_capacity in Ha as [Ha ->]. simpl in *. lia.
  - lia.
  - apply cleanup_inv in Ha as (m & l' & Hl & ->). apply pull_capacity in Hl as [Hl Hx]. simpl in *. lia.
  - unfold SetCurrentSlot. destruct (slot <=? _); done.
Qed.

(** The limit of the pool is checked before the lock is taken: with at most
    [K] calls of [AddTx] between the check and the insertion at any time, the
    pool never holds more than [K - 1] transactions above its limit, so calls
    one after the other keep the limit. *)
Theorem mempool_capacity (K : nat) (U : Transaction → Prop) (S : Storage → Prop) (maxSize : Z) (c : DCache) (p : Pool) :
  (1 ≤ K)%nat → 0 ≤ maxSize → rtc (bounded_step K U S) (mkPool (NewMempool maxSize) [] [] c) p →
  Z.of_nat (size (txs (pool p))) ≤ maxSize + Z.of_nat K - 1.
Proof.
  intros HK Hmax Hr. cut (capacity_inv K maxSize p); [unfold capacity_inv; lia|]. revert Hr.
  apply (rtc_ind_r (λ q, capacity_inv K maxSize q)).
  - split; [done|]. simpl. rewrite map_size_empty. simpl. lia.
  - intros q q' _ Hq Hqq. by eapply capacity_step.
Qed.

(** ** Batches *)

Lemma release_amount_total totals tx : Amount tx ≠ None → is_Some (release_amount totals tx).
Proof.
  intros Ha. unfold release_amount. destruct (totals !! Sender tx); [|by eexists].
  destruct (Amount tx); [by eexists|done].
Qed.

Lemma pull_loop_total mp hs : (∀ h tx, txs mp !! h = Some tx → Amount tx ≠ None) →
  is_Some (pull_loop mp hs).
Proof.
  revert mp. induction hs as [|h hs IH]; intros mp Ha; simpl; [by eexists|].
  destruct (txs mp !! h) as [tx|] eqn:Eh; [|by apply IH].
  destruct (release_amount_total (senderTotalAmount mp) tx (Ha _ _ Eh)) as [t Et].
  unfold remove_tx. rewrite Et.
  destruct (IH (mkMempool (delete h (txs mp)) (txOrder mp) (dedupTxHashSet mp ∖ {[DedupHash tx]}) t
              (max_ mp) (netCurrentSlot mp))) as [[m l] ->]; [|by eexists].
  simpl. intros h' tx' [_ Hx]%lookup_delete_Some. by eapply Ha.
Qed.

Lemma pull_loop_batch mp hs mp' batch : (∀ h tx, txs mp !! h = Some tx → Hash tx = h) →
  NoDup hs → (∀ h, h ∈ hs → is_Some (txs mp !! h)) → pull_loop mp hs = Some (mp', batch) →
  Hash <$> batch = hs.
Proof.
  revert mp batch. induction hs as [|h hs IH]; intros mp batch Hh Hnd Hin; simpl; [by intros [= <- <-]|].
  apply NoDup_cons in Hnd as [Hni Hnd]. destruct (Hin h) as [tx Etx]; [left|]. rewrite Etx.
  destruct (remove_tx mp h tx) as [m|] eqn:Em; [|done]. apply remove_tx_eq in Em as (Et & _).
  destruct (pull_loop m hs) as [[m' l]|] eqn:El; [|done]. intros [= <- <-]. simpl.
  f_equal; [by apply Hh|]. eapply IH, El; [|done|]; rewrite Et.
  - intros h' tx' [_ Hx]%lookup_delete_Some. by apply Hh.
  - intros h' Hh'. rewrite lookup_delete_ne by by intros ->. apply Hin. by right.
Qed.

Lemma dedup_Add_get `{!DedupCacheOk DC} c ks k :
  dc_Get (dedup_Add c ks) k = if bool_decide (k ∈ ks) then Found else dc_Get c k.
Proof.
  unfold dedup_Add. revert c. induction ks as [|x ks IH]; intros c; [done|]. cbn [foldl]. rewrite IH.
  destruct (decide (k = x)) as [->|Hne].
  - rewrite dc_Get_Set, (bool_decide_true (x ∈ x :: ks)) by left. by case_bool_decide.
  - rewrite dc_Get_Set_ne by done. rewrite (bool_decide_ext (k ∈ x :: ks) (k ∈ ks)); [done|].
    rewrite elem_of_cons. tauto.
Qed.

(** [t] is refused as a duplicate, by the pool and in a block. *)
Definition refused_as_duplicate (c : DCache) (t : Transaction) : Prop :=
  (∀ mp s, validateTransaction mp c t s = (reject ErrDuplicateTransaction, s)) ∧
  ∀ mp l1 l2, VerifyBlockTransactions mp c (l1 ++ Some t :: l2) ≠ accept.

Lemma found_is_refused c t : dc_Get c (DedupHash t) = Found → refused_as_duplicate c t.
Proof.
  intros Hg. split.
  - intros mp s. unfold validateTransaction. case_bool_decide; [done|]. simpl. unfold IsDuplicate. by rewrite Hg.
  - intros mp l1 l2. unfold VerifyBlockTransactions.
    destruct (validateNonce mp (l1 ++ Some t :: l2)) as [[e|]|]; [done| |done].
    induction l1 as [|[t1|] l1 IH]; simpl; [|by destruct (IsDuplicate c (DedupHash t1)) as [[]|]|done].
    unfold IsDuplicate. by rewrite Hg.
Qed.

(** A batch is the oldest pending transactions in the order of their
    admission, as many as asked for or all there are; they leave the pool, the
    others stay as they were, and once the call is over every transaction that
    signs what one of them signs is refused as a duplicate, by the pool and in
    blocks. *)
Theorem pull_batch_spec `{!DedupCacheOk DC} (mp : Mempool) (c : DCache) (n : Z) :
  mp_wf mp → (∀ h tx, txs mp !! h = Some tx → Amount tx ≠ None) → 0 ≤ n →
  ∃ mp' batch, PullBatch mp c n = Some (mp', dedup_Add c (DedupHash <$> batch), batch) ∧
    Hash <$> batch = take (Z.to_nat n) (txOrder mp) ∧ txOrder mp' = drop (Z.to_nat n) (txOrder mp) ∧
    (∀ h, h ∈ txOrder mp' → txs mp' !! h = txs mp !! h) ∧
    ∀ t tx, tx ∈ batch → DedupHash t = DedupHash tx →
      refused_as_duplicate (dedup_Add c (DedupHash <$> batch)) t.
Proof.
  intros Hwf Ha Hn. unfold PullBatch.
  assert (Hp : is_Some (PullBatch_locked mp n)).
  { unfold PullBatch_locked. destruct (Z.ltb_spec n 0); [lia|]. by apply pull_loop_total. }
  destruct Hp as [[mp' batch] Hp]. rewrite Hp. exists mp', batch. split; [done|].
  apply pull_inv in Hp as [_ Hp]. destruct (pull_loop_txs _ _ _ _ Hp) as (Eo & _ & Hl). simpl in Eo, Hl.
  pose proof (wf_order _ Hwf) as Hnd. rewrite <- (take_drop (Z.to_nat n) (txOrder mp)) in Hnd.
  apply NoDup_app in Hnd as (Ht & Hdisj & _). split_and!; [|done| |].
  - eapply pull_loop_batch; [| |intros h Hh|exact Hp]; [apply (wf_hash _ Hwf)|done|].
    apply (wf_dom _ Hwf). rewrite <- (take_drop (Z.to_nat n) (txOrder mp)), elem_of_app. by left.
  - intros h. rewrite Eo, Hl. intros Hh. rewrite bool_decide_false; [done|]. intros Hh'. by destruct (Hdisj h).
  - intros t tx Htx E. apply found_is_refused. rewrite dedup_Add_get, bool_decide_true; [done|].
    rewrite E. by apply list_elem_of_fmap_2.
Qed.

(** ** Pending amounts *)

Definition transfer_of (a : string) (tx : Transaction) : Z :=
  if negb (Type_ tx =? TxTypeUserContent) && bool_decide (Sender tx = a) then default 0 (Amount tx) else 0.

(** The total of the pending transfers of a sender. *)
Definition pending (m : gmap string Transaction) (a : string) : Z :=
  map_fold (λ _ tx z, transfer_of a tx + z) 0 m.

Lemma pending_insert m h tx a : m !! h = None → pending (<[h := tx]> m) a = transfer_of a tx + pending m a.
Proof. intros Hm. unfold pending.
  rewrite (map_fold_insert_L (λ _ tx z, transfer_of a tx + z)); [done| |done]. intros; lia. Qed.

Lemma pending_delete m h tx a : m !! h = Some tx → pending m a = transfer_of a tx + pending (delete h m) a.
Proof.
  intros Hm. unfold pending. apply (map_fold_delete_L (λ _ tx z, transfer_of a tx + z)); [|done].
  intros; lia.
Qed.

(** A transfer of a positive amount to another address, or a content without an
    amount. *)
Definition ordinary (tx : Transaction) : Prop :=
  ∃ a, Amount tx = Some a ∧
    if Type_ tx =? TxTypeUserContent then a = 0
    else 0 < a < 2 ^ 256 ∧ Sender tx ≠ Recipient tx.

Definition all_ordinary (m : gmap string Transaction) : Prop := ∀ h tx, m !! h = Some tx → ordinary tx.

Lemma ordinary_amount tx : ordinary tx → ∃ x, Amount tx = Some x ∧ 0 ≤ x < 2 ^ 256 ∧
  ∀ a, transfer_of a tx = if bool_decide (Sender tx = a) then x else 0.
Proof.
  intros (x & Hx & Hr). exists x. unfold transfer_of. rewrite Hx.
  destruct (Type_ tx =? _); [subst x|]; (split_and!; [done|lia|lia|]); intros a; [by case_bool_decide|done].
Qed.

Lemma pending_nonneg m a : all_ordinary m → 0 ≤ pending m a.
Proof.
  induction m as [|h tx m Hm IH] using map_ind; intros Ho; [done|]. rewrite pending_insert by done.
  assert (0 ≤ transfer_of a tx).
  { destruct (ordinary_amount tx) as (x & _ & Hx & ->); [by apply (Ho h); rewrite lookup_insert_eq|].
    case_bool_decide; lia. }
  assert (0 ≤ pending m a); [|lia]. apply IH. intros h' t Ht. apply (Ho h').
  rewrite lookup_insert_ne; [done|]. intros ->. congruence.
Qed.

(** The map records the non-zero values of [f]. *)
Definition records (totals : gmap string Z) (f : string → Z) : Prop :=
  ∀ a, totals !! a = if f a =? 0 then None else Some (f a).

Lemma records_update totals f g k : records totals f → (∀ a, a ≠ k → g a = f a) →
  records (if g k =? 0 then delete k totals else <[k := g k]> totals) g.
Proof.
  intros Hf Hg a. destruct (decide (a = k)) as [->|Hne].
  - destruct (g k =? 0); [by rewrite lookup_delete_eq|by rewrite lookup_insert_eq].
  - rewrite (Hg a Hne), <- Hf.
    destruct (g k =? 0); [by rewrite lookup_delete_ne|by rewrite lookup_insert_ne].
Qed.

Lemma release_records totals totals' f g tx x : records totals f → Amount tx = Some x →
  0 ≤ x ≤ f (Sender tx) → f (Sender tx) < 2 ^ 256 →
  (∀ a, f a = (if bool_decide (Sender tx = a) then x else 0) + g a) →
  release_amount totals tx = Some totals' → records totals' g.
Proof.
  intros Hf Hx Hle Hlt Hg. pose proof (Hg (Sender tx)) as Hs. rewrite bool_decide_true in Hs by done.
  unfold release_amount. rewrite (Hf (Sender tx)), Hx.
  destruct (Z.eqb_spec (f (Sender tx)) 0) as [E0|E0]; intros [= <-].
  - intros a. rewrite Hf, (Hg a). replace x with 0 by lia. by case_bool_decide.
  - replace (u256_sub (f (Sender tx)) x) with (g (Sender tx)).
    + apply (records_update _ f); [done|]. intros a Ha. rewrite Hg, bool_decide_false; [lia|done].
    + unfold u256_sub. rewrite wrap_small; unfold in_width; lia.
Qed.

(** The recorded totals are the pending ones, and the balances [bal] cover them. *)
Definition covered (bal : string → Z) (mp : Mempool) : Prop :=
  records (senderTotalAmount mp) (pending (txs mp)) ∧ ∀ a, 0 ≤ pending (txs mp) a ≤ bal a.

Lemma covered_remove bal mp h tx mp' : (∀ a, bal a < 2 ^ 256) → covered bal mp → all_ordinary (txs mp) →
  txs mp !! h = Some tx → remove_tx mp h tx = Some mp' → covered bal mp' ∧ all_ordinary (txs mp').
Proof.
  intros Hb [Hr Hle] Ho Htx (Et & _ & Ha & _)%remove_tx_eq.
  assert (Hd : all_ordinary (delete h (txs mp))) by (intros h' t [_ Ht]%lookup_delete_Some; by eapply Ho).
  destruct (ordinary_amount tx (Ho _ _ Htx)) as (x & Ex & Hx & Hf).
  assert (Hp : ∀ a, pending (txs mp) a =
    (if bool_decide (Sender tx = a) then x else 0) + pending (delete h (txs mp)) a).
  { intros a. rewrite <- Hf. by apply pending_delete. }
  assert (Hxs : x ≤ pending (txs mp) (Sender tx)).
  { rewrite Hp, bool_decide_true by done. pose proof (pending_nonneg _ (Sender tx) Hd). lia. }
  unfold covered. rewrite Et. split_and!; [|intros a|done].
  - eapply release_records; [exact Hr|exact Ex| | |exact Hp|exact Ha]; [lia|].
    pose proof (Hle (Sender tx)). pose proof (Hb (Sender tx)). lia.
  - pose proof (pending_nonneg _ a Hd). pose proof (Hle a) as Hla. rewrite Hp in Hla. case_bool_decide; lia.
Qed.

Lemma covered_insert bal mp tx s : (∀ a, bal a < 2 ^ 256) → covered bal mp → txs mp !! Hash tx = None →
  ordinary tx → (Type_ tx ≠ TxTypeUserContent → balance_checked mp tx s) →
  (∀ a acc s', GetAccount a s = (Ok (Some acc), s') → Balance acc = bal a) →
  covered bal (insert_tx mp tx (default 0 (Amount tx))).
Proof.
  intros Hb [Hr Hle] Hm Ho Hc Hs. pose proof (ordinary_amount tx Ho) as (x & Ex & Hx & Hf).
  assert (Hp : ∀ a, pending (<[Hash tx := tx]> (txs mp)) a =
    (if bool_decide (Sender tx = a) then x else 0) + pending (txs mp) a).
  { intros a. rewrite pending_insert by done. by rewrite Hf. }
  destruct Ho as (x' & Ex' & Hty). rewrite Ex. simplify_eq. unfold covered, insert_tx.
  cbn [txs senderTotalAmount default from_option id].
  destruct (Z.eqb_spec (Type_ tx) TxTypeUserContent) as [Ety|Ety]; cbn [negb].
  - subst x'. assert (E : ∀ a, pending (<[Hash tx := tx]> (txs mp)) a = pending (txs mp) a).
    { intros a. rewrite Hp. by case_bool_decide. }
    split; intros a; rewrite E; [apply Hr|apply Hle].
  - destruct Hty as [Hpos Hne]. destruct (Hc Ety) as (a & Ha & Hacc). simplify_eq.
    destruct (Hacc Hne) as (acc & s1 & Hg & Hav). apply Hs in Hg.
    pose proof (Hle (Sender tx)) as Hl. pose proof (Hb (Sender tx)) as Hbs.
    assert (Hxb : x' + pending (txs mp) (Sender tx) ≤ bal (Sender tx)).
    { revert Hav. unfold availableBalance. rewrite (Hr (Sender tx)), Hg.
      destruct (Z.eqb_spec (pending (txs mp) (Sender tx)) 0) as [E0|E0]; [rewrite E0; lia|].
      unfold u256_sub. rewrite wrap_small; unfold in_width; lia. }
    pose proof (Hp (Sender tx)) as Hps. rewrite bool_decide_true in Hps by done. split.
    + pose proof (records_update _ _ (pending (<[Hash tx := tx]> (txs mp))) (Sender tx) Hr) as Hu.
      rewrite Hps in Hu. rewrite (proj2 (Z.eqb_neq (x' + _) 0)) in Hu by lia.
      rewrite (Hr (Sender tx)). unfold u256_add. rewrite wrap_small.
      * destruct (Z.eqb_spec (pending (txs mp) (Sender tx)) 0) as [E0|E0]; simpl in *.
        -- rewrite E0, Z.add_0_r in Hu. apply Hu. intros b Hne'. rewrite Hp, bool_decide_false by done. lia.
        -- rewrite Z.add_comm. apply Hu. intros b Hne'. rewrite Hp, bool_decide_false by done. lia.
      * unfold in_width. destruct (pending (txs mp) (Sender tx) =? 0); simpl; lia.
    + intros b. rewrite Hp. pose proof (Hle b). case_bool_decide; [subst; lia|lia].
Qed.

Lemma GetAccount_stored a s acc s' : GetAccount a s = (Ok (Some acc), s') → stored (data s) a = Some acc.
Proof.
  unfold GetAccount, account_GetByAddr. st_run. unfold db_Get, db_step, stored.
  change (key_of (KAccount a)) with (account_GetDBKey a).
  destruct (faults s) as [|[|] fs]; [|done|]; simpl; generalize (data s !! account_GetDBKey a);
    intros [v|]; st_run; simpl; unfold st_some; try destruct (json_to_account v); cbn; intros;
    by simplify_eq/=.
Qed.

Lemma stored_balance_width printable `{!StoreCodecOk printable} d a : in_width 256 (stored_balance d a).
Proof.
  unfold stored_balance, stored. destruct (d !! _) as [v|]; [|done]. cbn [mbind option_bind].
  destruct (json_to_account v) as [acc|] eqn:E; [|done]. by apply json_to_account_ok in E as (_ & ? & _).
Qed.

(** Transfers to oneself and contents with an amount are the exceptions. *)
Definition regular (tx : Transaction) : Prop :=
  amount_in_width tx ∧
  if Type_ tx =? TxTypeUserContent then Amount tx = Some 0 else Sender tx ≠ Recipient tx.

Lemma cheap_ordinary mp zk tx zk' : regular tx → cheapValidateTransaction mp zk tx = (accept, zk') → ordinary tx.
Proof.
  intros [Ha Hr]. unfold cheapValidateTransaction, ordinary, amount_in_width in *.
  destruct (Amount tx) as [x|]; [|done].
  destruct (Type_ tx =? TxTypeUserContent); [intros _; exists x; split; congruence|].
  destruct (Z.eqb_spec x 0); [done|]. intros _. exists x. destruct Ha. by split_and!; [|lia|..].
Qed.

(** The checks of a step establish [ordinary]. *)
Lemma step_ordinary U S p q : (∀ tx, U tx → regular tx) → mp_step U S p q →
  mp_step (λ tx, U tx ∧ ordinary tx) S p q.
Proof.
  intros HU []; [eapply step_cheap|eapply step_locked|eapply step_pull|apply step_dedup|eapply step_cleanup
    |apply step_slot]; try done. split; [done|]. eapply cheap_ordinary; eauto.
Qed.

Definition covered_inv (U : Transaction → Prop) (bal : string → Z) (p : Pool) : Prop :=
  pool_inv (λ tx, U tx ∧ ordinary tx) p ∧ covered bal (pool p).

Lemma covered_pull bal mp hs mp' batch : (∀ a, bal a < 2 ^ 256) → covered bal mp → all_ordinary (txs mp) →
  pull_loop mp hs = Some (mp', batch) → covered bal mp'.
Proof.
  intros Hb Hc Ho Hp.
  cut (covered bal mp' ∧ all_ordinary (txs mp')); [by intros []|]. revert Hp.
  apply (pull_loop_ind (λ m, covered bal m ∧ all_ordinary (txs m))); [|done].
  intros m h tx m' [??] ??. by eapply covered_remove.
Qed.

Lemma covered_step U d p q : no_collision U → (∀ a, stored_balance d a < 2 ^ 256) →
  covered_inv U (stored_balance d) p → mp_step (λ tx, U tx ∧ ordinary tx) (λ s, data s = d) p q →
  covered_inv U (stored_balance d) q.
Proof.
  intros HU Hb [Hp Hc] Hs. split.
  { eapply pool_inv_step, Hs; [|done]. intros t1 t2 [? _] [? _]. by apply HU. }
  pose proof Hp as (Hwf & Hin & Hw).
  assert (Ho : all_ordinary (txs (pool p))) by (intros h tx Htx; by apply (Hin h)).
  destruct Hs as [mp w l c tx zk zk' Hu _|mp w1 w2 l c tx s r mp' s' Hd Ha
    |mp w l c n mp' batch Ha|mp w l1 l2 c batch|mp w l c hs mp' Ha|mp w l c slot]; simpl in *; [done| | |done| |].
  - apply Forall_app in Hw as [_ [[Hut Hot] _]%Forall_cons].
    destruct (AddTx_locked_cases _ _ _ _ _ _ _ Ha) as [[_ ->]|(_ & -> & Hds & _ & Hbal)]; [done|].
    eapply covered_insert; [done|done| |done|exact Hbal|].
    + apply eq_None_not_Some. intros [t Et]. apply Hds, (wf_set _ Hwf). exists (Hash tx), t.
      split; [done|]. apply HU; [by apply (Hin _ _ Et)|done|by apply (wf_hash _ Hwf)].
    + intros a acc s1 Hg%GetAccount_stored. unfold stored_balance. by rewrite <- Hd, Hg.
  - apply pull_inv in Ha as [_ Ha]. by eapply (covered_pull _ (with_order mp _)).
  - apply cleanup_inv in Ha as (m & l' & Hl & ->). by eapply (covered_pull _ mp) in Hl.
  - unfold SetCurrentSlot. by destruct (slot <=? _).
Qed.


(** ** Replays after a restart *)

Lemma quiet_GetBatch keys s : faults s = [] →
  ∃ m s', db_GetBatch keys s = (Ok m, s') ∧ data s' = data s ∧ faults s' = [] ∧
    ∀ k, k ∈ keys → m !! k = data s !! k.
Proof.
  intros Hf. destruct (db_GetBatch keys s) as [[m|e] s'] eqn:E.
  - exists m, s'. destruct (db_GetBatch_ok _ _ _ _ E) as [Hd Hm]. split_and!; [done|done| |done].
    revert E. unfold db_GetBatch, db_step. rewrite Hf. by intros [= _ <-].
  - revert E. unfold db_GetBatch, db_step. by rewrite Hf.
Qed.

Lemma quiet_tx_GetBatch hashes s : faults s = [] →
  ∃ s', tx_GetBatch hashes s = (Ok (loaded (data s) hashes), s') ∧ data s' = data s ∧ faults s' = [].
Proof.
  intros Hf. destruct (tx_GetBatch hashes s) as [r s'] eqn:E.
  destruct (tx_GetBatch_ok _ _ _ _ E) as [Hd Hr]. exists s'. revert E Hr. unfold tx_GetBatch.
  case_bool_decide; [intros [= <- <-]; by intros <-|].
  destruct (quiet_GetBatch (tx_GetDBKey <$> hashes) s Hf) as (m & s1 & E1 & _ & Hf1 & _).
  st_run. rewrite E1. intros [= <- <-] <-. done.
Qed.

Lemma quiet_block_GetBatch slots s slot b : faults s = [] → slot ∈ slots →
  data s !! slotToBlockKey slot ≫= json_to_block = Some b →
  ∃ m s', block_GetBatch slots s = (Ok m, s') ∧ m !! slot = Some b ∧ data s' = data s ∧ faults s' = [].
Proof.
  intros Hf Hin Hb. unfold block_GetBatch. case_bool_decide; [subst; by apply not_elem_of_nil in Hin|].
  destruct (quiet_GetBatch (slotToBlockKey <$> slots) s Hf) as (m & s1 & E1 & Hd & Hf1 & Hm).
  st_run. rewrite E1. eexists _, s1. split_and!; [done| |done|done].
  assert (Hl : m !! slotToBlockKey slot ≫= json_to_block = Some b).
  { by rewrite Hm by by apply list_elem_of_fmap_2. }
  clear -Hin Hl. apply elem_of_list_to_map_1'.
  - intros b' (slot' & _ & Hs')%list_elem_of_omap.
    destruct (m !! slotToBlockKey slot') as [v|] eqn:Ev; [|done]. simpl in Hs'.
    destruct (json_to_block v) as [b2|] eqn:Ej; simplify_eq/=. rewrite Ev in Hl. simpl in Hl. congruence.
  - apply list_elem_of_omap. exists slot. split; [done|].
    destruct (m !! slotToBlockKey slot) as [v|]; [|done]. simpl in *. by rewrite Hl.
Qed.

Lemma collect_hashes_elem blocks s slot b tx : faults s = [] → (slot, b) ∈ blocks →
  tx ∈ loaded (data s) (concat (TxHashes <$> blk_Entries b)) →
  DedupHash tx ∈ fst (collect_hashes blocks s).
Proof.
  revert s. induction blocks as [|[slot' b'] blocks IH]; intros s Hf Hin Htx; [by apply not_elem_of_nil in Hin|].
  cbn [collect_hashes]. destruct (quiet_tx_GetBatch (concat (TxHashes <$> blk_Entries b')) s Hf) as (s1 & -> & Hd & Hf1).
  destruct (collect_hashes blocks s1) as [hs s2] eqn:E. simpl. apply elem_of_app.
  apply elem_of_cons in Hin as [[= -> ->]|Hin]; [left; by apply list_elem_of_fmap_2|].
  right. specialize (IH s1 Hf1 Hin). rewrite Hd, E in IH. by apply IH.
Qed.

Lemma load_slots_elem latestSlot slot : slot ∈ load_slots latestSlot ↔
  1 ≤ slot ≤ latestSlot ∧ latestSlot - DedupSlotGap < slot.
Proof.
  unfold load_slots, DedupSlotGap. rewrite elem_of_seqZ. destruct (Z.ltb_spec 200 latestSlot); lia.
Qed.

(** [C29] A restarted node refuses to replay what recent blocks hold: with the
    database readable, after the hashes are loaded, every transaction of a
    stored block of the last 200 slots, and any other that signs the same, is
    refused as a duplicate; the window of accepted nonces is 150 slots. *)
Theorem reloaded_blocks_not_replayed `{!DedupCacheOk DC} (c : DCache) (latestSlot slot : Z) (s : Storage)
    (b : Block) (h : string) (t tx : Transaction) :
  faults s = [] → 1 ≤ slot ≤ latestSlot → latestSlot - DedupSlotGap < slot →
  data s !! slotToBlockKey slot ≫= json_to_block = Some b →
  h ∈ concat (TxHashes <$> blk_Entries b) → data s !! tx_GetDBKey h ≫= json_to_tx = Some tx →
  DedupHash t = DedupHash tx →
  refused_as_duplicate (fst (LoadTxHashes c latestSlot s)) t.
Proof.
  intros Hf Hs1 Hs2 Hb Hh Htx E. apply found_is_refused. unfold LoadTxHashes.
  destruct (Z.ltb_spec latestSlot 1); [lia|].
  destruct (quiet_block_GetBatch (load_slots latestSlot) s slot b) as (m & s1 & -> & Hm & Hd & Hf1);
    [done|by apply load_slots_elem|done|].
  apply elem_of_map_to_list in Hm.
  pose proof (collect_hashes_elem (map_to_list m) s1 slot b tx Hf1 Hm) as Hc.
  destruct (collect_hashes (map_to_list m) s1) as [hs s2]. simpl in *.
  rewrite dedup_Add_get, bool_decide_true; [done|]. rewrite E. apply Hc. rewrite Hd.
  unfold loaded. apply list_elem_of_omap. by exists h.
Qed.
End Interleaving.

(** ** Examples *)

Definition list_dedup : DedupCache := {|
  DCache := list string;
  dc_Get c k := if bool_decide (k ∈ c) then Found else NotFound;
  dc_Set c k := k :: c;
|}.

#[export] Instance list_dedup_ok : DedupCacheOk list_dedup.
Proof.
  split; simpl.
  - intros c k. by rewrite bool_decide_true by left.
  - intros c k k' Hne. rewrite (bool_decide_ext (k' ∈ k :: c) (k' ∈ c)); [done|].
    rewrite elem_of_cons. tauto.
Qed.

(** The example address has 100. *)
Definition funds : Storage :=
  mkStorage {[ key_of (KAccount example_addr) := be_bytes 32 100 +:+ be_bytes 8 0 +:+ example_addr ]} [] 0 0.

Definition transfer (amount nonce : Z) (recipient : string) : Transaction :=
  example_sign (example_unsigned 1 amount nonce recipient).

Definition start (maxSize : Z) : Mempool := SetCurrentSlot (NewMempool maxSize) 10.

Definition submit (mp : Mempool) (c : list string) (tx : Transaction) : option (AddResult (ZE := example_zk_env)) :=
  @AddTx example_tx_env example_zk_env ledger_codec no_contents list_dedup true true mp (Some []) c tx true funds.

Definition submit_all (mp : Mempool) (l : list Transaction) : Mempool :=
  foldl (λ mp tx, match submit mp [] tx with Some r => add_mempool r | None => mp end) mp l.

Definition submit_results (mp : Mempool) (l : list Transaction) : list (option (result MempoolError string)) :=
  snd (foldl (λ st tx, let r := submit (fst st) [] tx in
    (match r with Some r => add_mempool r | None => fst st end, snd st ++ [add_result <$> r]))
    (mp, []) l).

(** A transfer to oneself is admitted whatever its amount, and counts in the
    pending total; the balance less the total then wraps around, so that the next
    transfer is admitted whatever its amount, with a balance of 100 here. *)
Theorem self_transfer_overdraws :
  submit_results (start 5) [transfer 200 3 "bob"; transfer 1000 4 example_addr; transfer (10 ^ 20) 5 "bob"] =
    [Some (Err ErrInsufficientFunds); Some (Ok (@Hash example_tx_env (transfer 1000 4 example_addr)));
     Some (Ok (@Hash example_tx_env (transfer (10 ^ 20) 5 "bob")))].
Proof. vm_compute. reflexivity. Qed.

(** A batch leaves the deduplication set under the lock and enters the cache
    after it: a transaction submitted again in between is admitted again, while
    the batch that holds it is on its way into a block; after the call it is
    refused. *)
Theorem pulled_transaction_readmitted :
  let tx := transfer 60 3 "bob" in
  let h := @Hash example_tx_env tx in
  let mp := submit_all (start 5) [tx] in
  let after := fst <$> PullBatch_locked (TE := example_tx_env) mp 10 in
  snd <$> PullBatch_locked (TE := example_tx_env) mp 10 = Some [tx] ∧
  (mp' ← after; add_result <$> submit mp' [] tx) = Some (Ok h) ∧
  (mp' ← after; r ← submit mp' [] tx; GetTransaction (add_mempool r) h) = Some tx ∧
  (mp' ← after; add_result <$> submit mp' (dedup_Add (DC := list_dedup) [] [@DedupHash example_tx_env tx]) tx)
    = Some (Err ErrDuplicateTransaction).
Proof. split_and!; vm_compute; reflexivity. Qed.

Definition content_without_amount : Transaction :=
  let u := example_unsigned 2 0 4 "bob" in
  example_sign (mkTransaction 2 (Sender u) (Recipient u) None 0 (TextData u) 4 "" "root" (ZkProof u) (ZkPub u)).

Definition submit_content (mp : Mempool) (tx : Transaction) : option (AddResult (ZE := example_zk_env)) :=
  @AddTx example_tx_env example_zk_env ledger_codec content_codec list_dedup true true mp (Some []) [] tx true funds.

(** A content transaction may have no amount; when a transfer of the same
    sender is pending as well, taking the content out of the pool dereferences the
    missing amount and panics, in a batch and in the cleanup after a block. *)
Theorem content_without_amount_panics :
  let h := @Hash example_tx_env content_without_amount in
  let r := submit_content (start 5) content_without_amount in
  let mp := (λ r, submit_all (add_mempool r) [transfer 60 3 "bob"]) <$> r in
  add_result <$> r = Some (Ok h) ∧
  GetOrderedTransactions <$> mp = Some [h; @Hash example_tx_env (transfer 60 3 "bob")] ∧
  (mp ← mp; PullBatch_locked (TE := example_tx_env) mp 1) = None ∧
  (mp ← mp; BlockCleanup (TE := example_tx_env) mp {[ h ]}) = None.
Proof. split_and!; vm_compute; reflexivity. Qed.

Lemma submit_run U mp l : Forall U l →
  rtc (@mp_step example_tx_env example_zk_env ledger_codec no_contents list_dedup U (λ s, data s = data funds))
    (mkPool (DC := list_dedup) mp [] [] []) (mkPool (DC := list_dedup) (submit_all mp l) [] [] []).
Proof.
  revert mp. induction l as [|tx l IH]; intros mp HU; [done|].
  apply Forall_cons in HU as [Hu HU]. cbn [submit_all foldl]. change (foldl _ ?a l) with (submit_all a l).
  destruct (submit mp [] tx) as [r|] eqn:Hr; [|by apply IH].
  etrans; [eapply (AddTx_steps _ _ _ _ _ _ _ tx _ funds r); [done|done|exact Hr]|]. by apply IH.
Qed.

Lemma start_run U maxSize l : Forall U l →
  rtc (@mp_step example_tx_env example_zk_env ledger_codec no_contents list_dedup U (λ s, data s = data funds))
    (mkPool (DC := list_dedup) (NewMempool maxSize) [] [] [])
    (mkPool (DC := list_dedup) (submit_all (start maxSize) l) [] [] []).
Proof. intros HU. eapply rtc_l; [apply (step_slot _ _ _ _ _ _ 10)|]. by apply submit_run. Qed.

Definition two_transfers : list Transaction := [transfer 60 3 "bob"; transfer 30 4 "carol"].

Lemma two_transfers_distinct : no_collision (TE := example_tx_env) (λ tx, tx ∈ two_transfers).
Proof.
  intros t1 t2 H1 H2. unfold two_transfers in *.
  rewrite !elem_of_cons, elem_of_nil in H1, H2.
  destruct H1 as [->|[->|[]]], H2 as [->|[->|[]]]; (reflexivity || (vm_compute; discriminate)).
Qed.

Lemma mempool_invariant_witness :
  let mp := submit_all (start 5) two_transfers in
  NoDup (txOrder mp) ∧ mp_Size mp = 2.
Proof.
  intros mp. split; [|vm_compute; reflexivity].
  apply (wf_order (TE := example_tx_env)).
  apply (@mempool_invariant example_tx_env example_zk_env ledger_codec no_contents list_dedup
    (λ tx, tx ∈ two_transfers) (λ s, data s = data funds) 5 [] (mkPool (DC := list_dedup) mp [] [] []));
    [exact two_transfers_distinct|]. apply (start_run _ 5). by apply Forall_forall.
Defined.


(** Both calls pass the check of the limit of 1 before either takes the lock. *)
Definition locked (mp : Mempool) (tx : Transaction) : option (result MempoolError string * Mempool * Storage) :=
  @AddTx_locked example_tx_env ledger_codec no_contents list_dedup mp [] tx funds.
Definition after_locked (mp : Mempool) (tx : Transaction) : Mempool :=
  match locked mp tx with Some (_, mp', _) => mp' | None => mp end.

Lemma locked_eq mp tx : is_Some (locked mp tx) →
  ∃ r s', locked mp tx = Some (r, after_locked mp tx, s').
Proof. unfold after_locked. intros [[[r mp'] s'] E]. rewrite E. eauto. Qed.

Lemma mempool_capacity_witness :
  let t1 := transfer 60 3 "bob" in
  let t2 := transfer 30 4 "carol" in
  let mp := after_locked (after_locked (start 1) t1) t2 in
  mp_Size mp = 2 ∧ mp_Size mp ≤ 1 + 2 - 1.
Proof.
  intros t1 t2 mp. split; [vm_compute; reflexivity|].
  apply (@mempool_capacity example_tx_env example_zk_env ledger_codec no_contents list_dedup 2 (λ _, True)
    (λ _, True) 1 [] (mkPool (DC := list_dedup) mp [] [] [])); [lia|lia|].
  assert (Hc : ∀ tx, tx ∈ [t1; t2] →
    @cheapValidateTransaction example_tx_env example_zk_env (start 1) None tx = (accept, None)).
  { intros tx. rewrite !elem_of_cons, elem_of_nil. intros [->|[->|[]]]; vm_compute; reflexivity. }
  destruct (locked_eq (start 1) t1) as (r1 & s1 & E1); [apply (bool_decide_unpack _); vm_compute; exact I|].
  destruct (locked_eq (after_locked (start 1) t1) t2) as (r2 & s2 & E2); [apply (bool_decide_unpack _); vm_compute; exact I|].
  eapply rtc_l. { split; [apply (step_slot _ _ _ _ _ _ 10)|simpl; lia]. }
  eapply rtc_l. { split; [apply (step_cheap _ _ _ _ _ _ t1 None None I); apply Hc; left|simpl; lia]. }
  eapply rtc_l. { split; [apply (step_cheap _ _ _ _ _ _ t2 None None I); apply Hc; right; left|simpl; lia]. }
  eapply rtc_l. { split; [apply (step_locked _ _ _ [t2] [] _ _ t1 _ _ _ _ I E1)|simpl; lia]. }
  eapply rtc_l. { split; [apply (step_locked _ _ _ [] [] _ _ t2 _ _ _ _ I E2)|simpl; lia]. }
  apply rtc_refl.
Defined.

Lemma pull_batch_spec_witness :
  let mp := submit_all (start 5) two_transfers in
  let t1 := transfer 60 3 "bob" in
  ∃ mp' c' batch, PullBatch (TE := example_tx_env) (DC := list_dedup) mp [] 1 = Some (mp', c', batch) ∧
    @Hash example_tx_env <$> batch = [@Hash example_tx_env t1] ∧
    txOrder mp' = [@Hash example_tx_env (transfer 30 4 "carol")].
Proof.
  intros mp t1.
  destruct (@pull_batch_spec example_tx_env ledger_codec no_contents list_dedup _ mp [] 1)
    as (mp' & batch & E & Hb & Ho & _).
  - assert (Hi : @pool_inv example_tx_env list_dedup (λ tx, tx ∈ two_transfers) (mkPool (DC := list_dedup) mp [] [] [])).
    { eapply (pool_inv_reachable (ZE := example_zk_env) (SC := ledger_codec) (CC := no_contents));
        [exact two_transfers_distinct|]. apply (start_run _ 5). by apply Forall_forall. }
    apply Hi.
  - assert (Hall : map_Forall (λ _ tx, Amount tx ≠ None) (txs mp)).
    { apply (bool_decide_unpack _). vm_compute. exact I. }
    intros h tx Htx. exact (Hall h tx Htx).
  - lia.
  - exists mp', (dedup_Add (DC := list_dedup) [] (@DedupHash example_tx_env <$> batch)), batch.
    split; [exact E|]. rewrite Hb, Ho. split; vm_compute; reflexivity.
Defined.

(** A node restarts at slot 5 with a block of slot 5 that holds one transfer. *)
Definition reload_codec : StoreCodec := {|
  json_to_tx v := if bool_decide (v = "t") then Some (transfer 60 3 "bob") else None;
  json_of_account := @json_of_account ledger_codec;
  json_to_account := @json_to_account ledger_codec;
  json_of_block _ := None;
  json_to_block v :=
    if bool_decide (v = "b")
    then Some (mkBlock (bb_core (example_block 5)) [mkPersistentEntry 1 zero_hash ["h"] false]) else None;
  json_of_meta _ := None;
  json_to_meta _ := None;
|}.

Definition reload_storage : Storage :=
  mkStorage {[ slotToBlockKey 5 := "b"; tx_GetDBKey "h" := "t" ]} [] 5 5.

Lemma reloaded_blocks_not_replayed_witness :
  refused_as_duplicate (TE := example_tx_env) (SC := reload_codec) (CC := no_contents) (DC := list_dedup)
    (fst (@LoadTxHashes example_tx_env reload_codec list_dedup [] 5 reload_storage)) (transfer 60 3 "bob").
Proof.
  apply (@reloaded_blocks_not_replayed example_tx_env reload_codec no_contents list_dedup _ [] 5 5 reload_storage
    (mkBlock (bb_core (example_block 5)) [mkPersistentEntry 1 zero_hash ["h"] false]) "h"
    (transfer 60 3 "bob") (transfer 60 3 "bob")); [reflexivity|lia|unfold DedupSlotGap; lia|..].
  - vm_compute. reflexivity.
  - apply (bool_decide_unpack _). vm_compute. exact I.
  - vm_compute. reflexivity.
  - reflexivity.
Defined.
