(* ===== verification/Node.v ===== *)
(** * The handlers of a node (the package p2p)

    The callbacks of p2p/pubsub.go, the votes of p2p/vote.go, the verification of
    a block's transactions in p2p/block.go and the ordering of synchronised blocks
    in p2p/block_ordering.go.  A handler takes the node and a message and returns
    the result, the node afterwards and what it sends or asks of the other
    parts, in order ([Effect]); [None] is a panic.  The handlers that hold
    [applyBlockMu] or [blockOrderingMu] are single steps.  The transport itself
    is not modelled. *)

From stdpp Require Import base list gmap strings.
From Stdlib Require Import ZArith Lia.
From S2P Require Import Prelude GoLib Transaction Poh Schedule Consensus Block Store BlockStore Ledger Mempool.

Open Scope string_scope.
Open Scope list_scope.
Open Scope Z_scope.

Definition ReadyGapThreshold : Z := 0.
Definition LatestSlotSyncGapThreshold : Z := 1.

Inductive NodeError :=
| EInvalidLeader | EInvalidSignature | ETxVerification | EBlockTxs (e : MempoolError)
| EStore (e : StoreError) | EVote (e : VoteError) | EBlockNotFound | EFinalize (e : StoreError)
| ENilBlock | EPublish.

Inductive Effect :=
| SyncPohFromLeader (hash : string) (slot : Z)
| ForceResetPOH (hash : string) (slot : Z)
| StartCoreServices
| BroadcastVote (v : Vote)
| BroadcastEmptyBlocks (l : list BroadcastedBlock)
| LedgerOutputs (o : Outputs)
| AnnounceTx (tx : Transaction).

Section Node.
Context `{TE : TxEnv, ZE : ZkEnv, VE : VoteEnv, SC : StoreCodec, CC : ContentCodec, DC : DedupCache}.

(** The fields of [Libp2pNetwork] the handlers use, with the stores, the pool, the
    deduplication cache and the collector they share. *)
Record Node := mkNode {
  storage : Storage; mp : Mempool; zkVerify : option Cache; dedupCache : DCache; collector : Collector;
  leaderSchedule : LeaderSchedule; selfPubKey : string; selfPrivKey : string;
  isListener : bool; hasTracker : bool; hasRouter : bool; ready : bool; fullModeDone : bool;
  worldLatestSlot : Z; worldLatestPohSlot : Z;
  blockOrderingQueue : gmap Z BroadcastedBlock; nextExpectedSlot : Z;
  TicksPerSlot : Z; HashesPerTick : Z;
}.

Definition set_storage (s : Storage) (n : Node) : Node :=
  mkNode s (mp n) (zkVerify n) (dedupCache n) (collector n) (leaderSchedule n) (selfPubKey n)
    (selfPrivKey n) (isListener n) (hasTracker n) (hasRouter n) (ready n) (fullModeDone n)
    (worldLatestSlot n) (worldLatestPohSlot n) (blockOrderingQueue n) (nextExpectedSlot n)
    (TicksPerSlot n) (HashesPerTick n).
Definition set_mp (m : Mempool) (n : Node) : Node :=
  mkNode (storage n) m (zkVerify n) (dedupCache n) (collector n) (leaderSchedule n) (selfPubKey n)
    (selfPrivKey n) (isListener n) (hasTracker n) (hasRouter n) (ready n) (fullModeDone n)
    (worldLatestSlot n) (worldLatestPohSlot n) (blockOrderingQueue n) (nextExpectedSlot n)
    (TicksPerSlot n) (HashesPerTick n).
Definition set_zk (z : option Cache) (n : Node) : Node :=
  mkNode (storage n) (mp n) z (dedupCache n) (collector n) (leaderSchedule n) (selfPubKey n)
    (selfPrivKey n) (isListener n) (hasTracker n) (hasRouter n) (ready n) (fullModeDone n)
    (worldLatestSlot n) (worldLatestPohSlot n) (blockOrderingQueue n) (nextExpectedSlot n)
    (TicksPerSlot n) (HashesPerTick n).
Definition set_dedup (d : DCache) (n : Node) : Node :=
  mkNode (storage n) (mp n) (zkVerify n) d (collector n) (leaderSchedule n) (selfPubKey n)
    (selfPrivKey n) (isListener n) (hasTracker n) (hasRouter n) (ready n) (fullModeDone n)
    (worldLatestSlot n) (worldLatestPohSlot n) (blockOrderingQueue n) (nextExpectedSlot n)
    (TicksPerSlot n) (HashesPerTick n).
Definition set_collector (c : Collector) (n : Node) : Node :=
  mkNode (storage n) (mp n) (zkVerify n) (dedupCache n) c (leaderSchedule n) (selfPubKey n)
    (selfPrivKey n) (isListener n) (hasTracker n) (hasRouter n) (ready n) (fullModeDone n)
    (worldLatestSlot n) (worldLatestPohSlot n) (blockOrderingQueue n) (nextExpectedSlot n)
    (TicksPerSlot n) (HashesPerTick n).
Definition set_ready (r d : bool) (n : Node) : Node :=
  mkNode (storage n) (mp n) (zkVerify n) (dedupCache n) (collector n) (leaderSchedule n) (selfPubKey n)
    (selfPrivKey n) (isListener n) (hasTracker n) (hasRouter n) r d
    (worldLatestSlot n) (worldLatestPohSlot n) (blockOrderingQueue n) (nextExpectedSlot n)
    (TicksPerSlot n) (HashesPerTick n).
Definition set_world (w p : Z) (n : Node) : Node :=
  mkNode (storage n) (mp n) (zkVerify n) (dedupCache n) (collector n) (leaderSchedule n) (selfPubKey n)
    (selfPrivKey n) (isListener n) (hasTracker n) (hasRouter n) (ready n) (fullModeDone n)
    w p (blockOrderingQueue n) (nextExpectedSlot n) (TicksPerSlot n) (HashesPerTick n).
Definition set_queue (q : gmap Z BroadcastedBlock) (next : Z) (n : Node) : Node :=
  mkNode (storage n) (mp n) (zkVerify n) (dedupCache n) (collector n) (leaderSchedule n) (selfPubKey n)
    (selfPrivKey n) (isListener n) (hasTracker n) (hasRouter n) (ready n) (fullModeDone n)
    (worldLatestSlot n) (worldLatestPohSlot n) q next (TicksPerSlot n) (HashesPerTick n).

(** A read of the store that cannot fail. *)
Definition reading {A} (m : ST A) (dflt : A) (n : Node) : A * Node :=
  match m (storage n) with
  | (Ok a, s) => (a, set_storage s n)
  | (Err _, s) => (dflt, set_storage s n)
  end.

(** What a handler returns. *)
Definition outcome : Type := option (result NodeError unit * Node * list Effect).
Definition done_ (n : Node) : outcome := Some (Ok tt, n, []).
Definition fail_ (e : NodeError) (n : Node) : outcome := Some (Err e, n, []).
Definition emit (l : list Effect) (o : outcome) : outcome :=
  match o with Some (r, n, l') => Some (r, n, l ++ l') | None => None end.

(** ** Votes *)

Definition applyDataToBlock (v : Vote) (n : Node) : outcome :=
  let '(applied, n) := reading (IsApplied (Slot v)) false n in
  if applied : bool then done_ n
  else
    let '(b, n) := reading (store_Block (Slot v)) None n in
    match b with
    | None => fail_ EBlockNotFound n
    | Some b =>
        let n := set_mp (SetCurrentSlot (mp n) (Slot v)) n in
        let '(r, s, out) := ledger_FinalizeBlock (hasTracker n) (hasRouter n) b (isListener n) (storage n) in
        let n := set_storage s n in
        match r with
        | Ok _ => emit [LedgerOutputs out] (done_ n)
        | Err e => emit [LedgerOutputs out] (fail_ (EFinalize e) n)
        end
    end.

Definition ProcessVote (v : Vote) (n : Node) : outcome :=
  let '(r, c) := AddVote (collector n) v in
  let n := set_collector c n in
  match r with
  | Err e => fail_ (EVote e) n
  | Ok (committed, needApply) =>
      let '(existed, n) := reading (HasCompleteBlock (Slot v)) false n in
      if negb existed then done_ n
      else if committed && needApply then applyDataToBlock v n
      else done_ n
  end.

Definition OnVoteReceived (v : Vote) (n : Node) : outcome := ProcessVote v n.

(** ** Blocks *)

Definition block_ptrs (blk : BroadcastedBlock) : list (option Transaction) :=
  concat (Transactions <$> bb_Entries blk).

(** Nil transactions are skipped. *)
Fixpoint verify_txs (zk : option Cache) (l : list (option Transaction)) : bool * option Cache :=
  match l with
  | [] => (true, zk)
  | None :: l' => verify_txs zk l'
  | Some tx :: l' =>
      let '(ok, zk) := Verify zk tx in
      if negb ok then (false, zk) else verify_txs zk l'
  end.

Definition verifyBlockTransactions (blk : BroadcastedBlock) (n : Node) : bool * Node :=
  let '(ok, zk) := verify_txs (zkVerify n) (block_ptrs blk) in (ok, set_zk zk n).

Definition mark_invalid (blk : BroadcastedBlock) : BroadcastedBlock :=
  let c := bb_core blk in
  mkBroadcasted (mkCore (bSlot c) (PrevHash c) (LeaderID c) (bTimestamp c) (bHash c) (bSignature c)
                   (Status c) true) (bb_Entries blk).

(** The block with the flag the check of its entries gives. *)
Definition check_poh (blk : BroadcastedBlock) : BroadcastedBlock :=
  match VerifyPoH blk with Some _ => mark_invalid blk | None => blk end.

(** What follows the storing of the block, for its transactions [l]. *)
Definition after_pending (blk : BroadcastedBlock) (l : list Transaction) (publishes : bool) (n : Node)
    : outcome :=
  let slot := bSlot (bb_core blk) in
  emit (if GetLatestStoreSlot (storage n) <? slot then [SyncPohFromLeader (bb_LastEntryHash blk) slot] else [])
  (if isListener n then done_ n
   else
     let cleaned :=
       if negb (InvalidPoH (bb_core blk)) then
         match BlockCleanup (mp n) (list_to_set (Hash <$> l)) with
         | None => None
         | Some m => Some (set_mp m (set_dedup (dedup_Add (dedupCache n) (DedupHash <$> l)) n))
         end
       else Some n in
     match cleaned with
     | None => None
     | Some n =>
         let vote := vote_Sign (mkVote slot (bHash (bb_core blk)) (selfPubKey n) "") (selfPrivKey n) in
         match ProcessVote vote n with
         | None => None
         | Some (Err e, n, out) => Some (Err e, n, out)
         | Some (Ok _, n, out) =>
             Some (if publishes : bool then Ok tt else Err EPublish, n, out ++ [BroadcastVote vote])
         end
     end).

(** [publishes]: the vote is published without an error. *)
Definition OnBlockReceived (blk : BroadcastedBlock) (publishes : bool) (n : Node) : outcome :=
  let slot := bSlot (bb_core blk) in
  let '(existing, n) := reading (store_Block slot) None n in
  match existing with
  | Some _ => done_ n
  | None =>
  match IsLeaderAt (leaderSchedule n) slot (LeaderID (bb_core blk)) with
  | None => None
  | Some false => fail_ EInvalidLeader n
  | Some true =>
  if negb (VerifySignature blk) then fail_ EInvalidSignature n
  else
    let '(ok, n) := verifyBlockTransactions blk n in
    if negb ok then fail_ ETxVerification n
    else
    match mapM id (block_ptrs blk) with
    | None => None
    | Some l =>
    match VerifyBlockTransactions (mp n) (dedupCache n) (Some <$> l) with
    | None => None
    | Some (Some e) => fail_ (EBlockTxs e) n
    | Some None =>
        let blk := check_poh blk in
        match AddBlockPending (Some blk) (storage n) with
        | (Err e, s) => fail_ (EStore e) (set_storage s n)
        | (Ok _, s) => after_pending blk l publishes (set_storage s n)
        end
    end end end end.

Fixpoint OnEmptyBlockReceived (blocks : list (option BroadcastedBlock)) (n : Node) : Node :=
  match blocks with
  | [] => n
  | None :: blocks' => OnEmptyBlockReceived blocks' n
  | Some blk :: blocks' =>
      let '(existing, n) := reading (HasCompleteBlock (bSlot (bb_core blk))) false n in
      if existing : bool then OnEmptyBlockReceived blocks' n
      else OnEmptyBlockReceived blocks' (set_storage (snd (AddBlockPending (Some blk) (storage n))) n)
  end.

(** Errors are logged. *)
Definition OnTransactionReceived (tx : Transaction) (n : Node) : outcome :=
  match AddTx (hasRouter n) true (mp n) (zkVerify n) (dedupCache n) tx false (storage n) with
  | None => None
  | Some r =>
      emit (if add_announced r then [AnnounceTx tx] else [])
        (done_ (set_storage (add_storage r) (set_zk (add_zk r) (set_mp (add_mempool r) n))))
  end.

Definition OnLatestSlotReceived (latestSlot latestPohSlot : Z) (n : Node) : Node :=
  set_world (if worldLatestSlot n <? latestSlot then latestSlot else worldLatestSlot n)
    (if worldLatestPohSlot n <? latestPohSlot then latestPohSlot else worldLatestPohSlot n) n.

(** ** The ordering queue *)

Definition SetNextExpectedSlot (slot : Z) (n : Node) : Node := set_queue (blockOrderingQueue n) slot n.

Definition isLeaderOfSlot (n : Node) (slot : Z) : option bool :=
  match LeaderAt (leaderSchedule n) slot with
  | None => None
  | Some (Some leader) => Some (bool_decide (leader = selfPubKey n))
  | Some None => Some false
  end.

Definition getPrevHashForSlot (slot : Z) (processedBlocks : list BroadcastedBlock) (n : Node) : string * Node :=
  let prevSlot := u64_sub slot 1 in
  if prevSlot =? 0 then (zero_hash, n)
  else
    match last processedBlocks with
    | Some lastProcessedBlock =>
        (if bSlot (bb_core lastProcessedBlock) =? prevSlot then bb_LastEntryHash lastProcessedBlock
         else zero_hash, n)
    | None =>
        let '(b, n) := reading (store_Block prevSlot) None n in
        (match b with Some prevBlock => block_LastEntryHash prevBlock | None => zero_hash end, n)
    end.

(** The block of an own slot that nobody filled, assembled at the time [now]. *)
Definition empty_block (slot now : Z) (processedBlocks : list BroadcastedBlock) (n : Node)
    : BroadcastedBlock * Node :=
  let '(prevHash, n) := getPrevHashForSlot slot processedBlocks n in
  let es := GenerateTickOnlyEntries prevHash (TicksPerSlot n) (HashesPerTick n) in
  (bb_Sign ed25519_Sign (AssembleBlock slot prevHash (selfPubKey n) es now) (selfPrivKey n), n).

(** The first loop of [processConsecutiveBlocks]; [now] is the clock, per slot. *)
Fixpoint gather (fuel : nat) (now : Z → Z) (processed empties : list BroadcastedBlock) (n : Node)
    : option (list BroadcastedBlock * list BroadcastedBlock * Node) :=
  match fuel with
  | O => Some (processed, empties, n)
  | S fuel' =>
      let slot := nextExpectedSlot n in
      if worldLatestSlot n <? slot then Some (processed, empties, n)
      else
        match blockOrderingQueue n !! slot with
        | Some blk =>
            gather fuel' now (processed ++ [blk]) empties
              (set_queue (delete slot (blockOrderingQueue n)) (u64_add slot 1) n)
        | None =>
            match isLeaderOfSlot n slot with
            | None => None
            | Some true =>
                let '(emptyBlock, n) := empty_block slot (now slot) processed n in
                gather fuel' now (processed ++ [emptyBlock]) (empties ++ [emptyBlock])
                  (set_queue (blockOrderingQueue n) (u64_add slot 1) n)
            | Some false => Some (processed, empties, n)
            end
        end
  end.

(** Each round moves to the next slot, up to the latest one. *)
Definition gather_fuel (n : Node) : nat := Z.to_nat (worldLatestSlot n - nextExpectedSlot n + 1).

Definition processBlock (blk : BroadcastedBlock) (n : Node) : outcome :=
  if negb (VerifySignature blk) then fail_ EInvalidSignature n
  else
    let '(ok, n) := verifyBlockTransactions blk n in
    if negb ok then fail_ ETxVerification n
    else
      let blk := check_poh blk in
      match AddBlockPending (Some blk) (storage n) with
      | (Err e, s) => fail_ (EStore e) (set_storage s n)
      | (Ok _, s) =>
          let '(r, s, out) :=
            ledger_FinalizeBlock (hasTracker n) (hasRouter n) (BroadcastedBlockToBlock blk) (isListener n) s in
          let n := set_storage s n in
          match r with
          | Ok _ => emit [LedgerOutputs out] (done_ n)
          | Err e => emit [LedgerOutputs out] (fail_ (EFinalize e) n)
          end
      end.

(** The second loop: failures are logged. *)
Fixpoint process_blocks (l : list BroadcastedBlock) (n : Node) (out : list Effect) : option (Node * list Effect) :=
  match l with
  | [] => Some (n, out)
  | blk :: l' =>
      match processBlock blk n with
      | None => None
      | Some (_, n, out') => process_blocks l' n (out ++ out')
      end
  end.

(** [processBlock] marks the block it is given, which the list of the own blocks
    shares; an own block has no transactions to refuse. *)
Definition after_processing (blk : BroadcastedBlock) : BroadcastedBlock :=
  if VerifySignature blk then check_poh blk else blk.

Definition processConsecutiveBlocks (now : Z → Z) (n : Node)
    : option (option BroadcastedBlock * Node * list Effect) :=
  match gather (gather_fuel n) now [] [] n with
  | None => None
  | Some (processed, empties, n) =>
      match process_blocks processed n [] with
      | None => None
      | Some (n, out) =>
          Some (last processed, n,
                out ++ (if bool_decide (empties = []) then [] else [BroadcastEmptyBlocks (after_processing <$> empties)]))
      end
  end.

Definition AddBlockToOrderingQueue (blk : BroadcastedBlock) (now : Z → Z) (n : Node)
    : option (option BroadcastedBlock * Node * list Effect) :=
  let slot := bSlot (bb_core blk) in
  let '(existing, n) := reading (HasCompleteBlock slot) false n in
  if existing : bool then Some (None, n, [])
  else processConsecutiveBlocks now (set_queue (<[slot := blk]> (blockOrderingQueue n)) (nextExpectedSlot n) n).

(** The node becomes ready when the synchronised blocks reach the latest slot. *)
Definition OnSyncResponseReceived (blk : option BroadcastedBlock) (now : Z → Z) (n : Node) : outcome :=
  match blk with
  | None => done_ n
  | Some blk =>
      match AddBlockToOrderingQueue blk now n with
      | None => None
      | Some (None, n, out) => emit out (done_ n)
      | Some (Some latestProcessed, n, out) =>
          let slot := bSlot (bb_core latestProcessed) in
          let gap := if slot <? worldLatestSlot n then worldLatestSlot n - slot else 0 in
          emit out
            (if negb (ready n) && (gap <=? ReadyGapThreshold) && negb (fullModeDone n) then
               emit [ForceResetPOH (bb_LastEntryHash latestProcessed) slot; StartCoreServices]
                 (done_ (set_ready true true n))
             else done_ n)
      end
  end.

Definition isSyncWindowAligned (n : Node) : option bool :=
  if negb (0 <? worldLatestSlot n) then Some false
  else match isLeaderOfSlot n (worldLatestSlot n) with
  | None => None
  | Some true => Some false
  | Some false =>
      if negb (0 <? worldLatestPohSlot n) then Some false
      else match isLeaderOfSlot n (worldLatestPohSlot n) with
      | None => None
      | Some true => Some false
      | Some false => Some (u64_sub (worldLatestPohSlot n) (worldLatestSlot n) <=? LatestSlotSyncGapThreshold)
      end
  end.
End Node.

(** ** The database only grows *)

(** The data before and after are related. *)
Definition keeps {A} (R : relation (gmap string string)) (m : ST A) : Prop :=
  ∀ s, R (data s) (data (snd (m s))).

Definition grown : relation (gmap string string) := λ d d', ∀ k, is_Some (d !! k) → is_Some (d' !! k).

#[export] Instance grown_preorder : PreOrder grown.
Proof. split; [by intros d k|]. intros d1 d2 d3 H1 H2 k Hk. by apply H2, H1. Qed.

Lemma grown_batch b d : grown d (batch_apply b d).
Proof.
  intros k Hk. induction b as [|[k' v] b IH] using rev_ind; [done|]. rewrite batch_apply_app. simpl.
  destruct (decide (k' = k)) as [->|]; [by rewrite lookup_insert_eq|by rewrite lookup_insert_ne].
Qed.

Section Keeps.
Context (R : relation (gmap string string)) `{!PreOrder R}.

Lemma keeps_ret {A} (a : A) : keeps R (mret a).
Proof. intros s. reflexivity. Qed.
Lemma keeps_throw {A} e : keeps R (st_throw (A := A) e).
Proof. intros s. reflexivity. Qed.
Lemma keeps_get : keeps R st_get.
Proof. intros s. reflexivity. Qed.
Lemma keeps_some {A} e (o : option A) : keeps R (st_some e o).
Proof. intros s. destruct o; reflexivity. Qed.
Lemma keeps_set1 slot : keeps R (set_latestFinalized slot).
Proof. intros s. reflexivity. Qed.
Lemma keeps_set2 slot : keeps R (set_latestStore slot).
Proof. intros s. reflexivity. Qed.
Lemma keeps_read {A} (f : gmap string string → A) : keeps R (db_step (λ d, (f d, d))).
Proof. intros s. destruct (quiet_step f s) as [-> _]. reflexivity. Qed.
Lemma keeps_bind {A B} (m : ST A) (k : A → ST B) : keeps R m → (∀ a, keeps R (k a)) → keeps R (m ≫= k).
Proof.
  intros Hm Hk s. rewrite st_bind_eq. specialize (Hm s). destruct (m s) as [[a|e] s']; [|done].
  etrans; [exact Hm|]. apply Hk.
Qed.
Lemma keeps_or_false m : keeps R m → keeps R (or_false m).
Proof. intros Hm s. unfold or_false. specialize (Hm s). by destruct (m s) as [[]]. Qed.
Lemma keeps_get_key k : keeps R (db_Get k).
Proof. apply keeps_read. Qed.
Lemma keeps_has_key k : keeps R (db_Has k).
Proof. apply keeps_read. Qed.
Lemma keeps_get_keys ks : keeps R (db_GetBatch ks).
Proof. apply keeps_read. Qed.
End Keeps.

Lemma keeps_write b : keeps grown (batch_Write b).
Proof.
  intros s. unfold batch_Write, db_step. destruct (faults s) as [|[|] fs]; simpl;
    [apply grown_batch|done|apply grown_batch].
Qed.

Create HintDb keeps.
#[export] Hint Resolve keeps_ret keeps_throw keeps_get keeps_some keeps_set1 keeps_set2 keeps_get_key
  keeps_has_key keeps_get_keys keeps_or_false keeps_write : keeps.

Ltac keeps :=
  repeat first
    [ solve [eauto with keeps typeclass_instances]
    | apply keeps_bind; [exact _| |intros ?]
    | case_match ].

Section Growth.
Context `{TE : TxEnv, ZE : ZkEnv, VE : VoteEnv, SC : StoreCodec, CC : ContentCodec, DC : DedupCache}.

Lemma keeps_tx_GetBatch R `{!PreOrder R} l : keeps R (tx_GetBatch l).
Proof. unfold tx_GetBatch. keeps. Qed.
Lemma keeps_account_GetBatch R `{!PreOrder R} l : keeps R (account_GetBatch l).
Proof. unfold account_GetBatch. keeps. Qed.
Lemma keeps_versions R `{!PreOrder R} l : keeps R (GetBatchLatestVersionContentHash l).
Proof. unfold GetBatchLatestVersionContentHash. keeps. Qed.
Lemma keeps_store_Block R `{!PreOrder R} slot : keeps R (store_Block slot).
Proof.
  intros s. unfold store_Block. pose proof (keeps_get_key R (slotToBlockKey slot) s) as Hk.
  by destruct (db_Get (slotToBlockKey slot) s) as [[[v|]|e] s'].
Qed.
Lemma keeps_batch_of R `{!PreOrder R} {A} (key : A → string) (js : A → option string) l : keeps R (batch_of key js l).
Proof. unfold batch_of. keeps. Qed.
Lemma keeps_FinalizeBlock blk ms accs vs : keeps grown (store_FinalizeBlock blk ms accs vs).
Proof. pose proof @keeps_batch_of. unfold store_FinalizeBlock, HasCompleteBlock. keeps. Qed.
Lemma keeps_AddBlockPending b : keeps grown (AddBlockPending b).
Proof. unfold AddBlockPending. keeps. Qed.

Lemma keeps_ledger ht hr b il s : grown (data s) (data (snd (fst (ledger_FinalizeBlock ht hr b il s)))).
Proof.
  unfold ledger_FinalizeBlock. destruct (InvalidPoH (blk_core b)); [done|].
  pose proof (keeps_tx_GetBatch grown (block_tx_hashes b) s) as K1.
  destruct (tx_GetBatch _ s) as [[l|e] s1]; [|done]. etrans; [exact K1|]. simpl. clear K1.
  pose proof (keeps_account_GetBatch grown (block_addrs l) s1) as K1.
  destruct (account_GetBatch _ s1) as [[st|e] s2]; [|done]. etrans; [exact K1|]. simpl. clear K1.
  set (p := foldl _ _ l). pose proof (keeps_tx_GetBatch grown (relatedHashes p) s2) as K1.
  destruct (tx_GetBatch _ s2) as [[rel|e] s3]; [|done]. etrans; [exact K1|]. simpl. clear K1.
  pose proof (keeps_versions grown (rootHashes p) s3) as K1.
  destruct (GetBatchLatestVersionContentHash _ s3) as [[vs|e] s4]; [|done]. etrans; [exact K1|]. simpl. clear K1.
  destruct (foldl (process_content _ _) _ _) as [ms vs']. pose proof (keeps_FinalizeBlock b ms (accounts p) vs' s4) as K1.
  by destruct (store_FinalizeBlock _ _ _ _ s4) as [[u|e] s5].
Qed.

(** A relation on the data that the two operations that write respect; reads,
    and all that the handlers do besides, leave the data alone. *)
Class DataRel (R : relation (gmap string string)) : Prop := {
  dr_preorder :: PreOrder R;
  dr_pending b : keeps R (AddBlockPending b);
  dr_ledger ht hr b il s : R (data s) (data (snd (fst (ledger_FinalizeBlock ht hr b il s))));
}.

#[export] Instance grown_rel : DataRel grown.
Proof. split; [exact _|apply keeps_AddBlockPending|apply keeps_ledger]. Qed.

Lemma keeps_GetAccount R `{!PreOrder R} a : keeps R (GetAccount a).
Proof. unfold GetAccount, account_GetByAddr. keeps. Qed.
Lemma keeps_GetByHash R `{!PreOrder R} h : keeps R (tx_GetByHash h).
Proof. unfold tx_GetByHash. keeps. Qed.
Lemma keeps_LatestVersion R `{!PreOrder R} h : keeps R (GetLatestVersionContentHash h).
Proof. unfold GetLatestVersionContentHash. keeps. Qed.

(** Admission reads the database only. *)
Lemma validateTransaction_reads m c tx s : data (snd (validateTransaction m c tx s)) = data s.
Proof.
  unfold validateTransaction. case_bool_decide; [done|].
  destruct (validateDuplicateTxs c [Some tx]) as [[e|]|]; [done| |done].
  assert (Hv : ∀ content s, data (snd (validateVersion tx content s)) = data s).
  { clear. intros content s. unfold validateVersion. destruct (_ && _); [done|]. destruct (_ || _); [done|].
    pose proof (keeps_GetByHash eq (ParentHash content) s) as K.
    destruct (tx_GetByHash _ s) as [[parent|e] s1]; [|done]. simpl in K. rewrite K.
    destruct (_ || _); [done|]. pose proof (keeps_LatestVersion eq (RootHash content) s1) as K1.
    destruct (GetLatestVersionContentHash _ s1) as [[latest|e] s2]; [|done]. by destruct (negb _). }
  destruct (Type_ tx =? TxTypeUserContent).
  - unfold mp_validateUserContent. destruct (json_to_content _) as [content|]; [|done].
    destruct (_ || _); [done|]. destruct (_ && _); [done|]. case_bool_decide; [apply Hv|].
    destruct (_ <? _); [done|]. pose proof (keeps_tx_GetBatch eq (ReferenceTxHashes content) s) as K.
    destruct (tx_GetBatch _ s) as [[refs|e] s1]; [|done]. simpl in K. rewrite K.
    destruct (negb _); [done|apply Hv].
  - unfold validateBalance. case_bool_decide; [done|]. pose proof (keeps_GetAccount eq (Sender tx) s) as K.
    destruct (GetAccount _ s) as [[[acc|]|e] s1]; simpl in *; [|done..].
    destruct (Amount tx); [|done]. by destruct (_ <? _).
Qed.

Lemma AddTx_reads hr hb m zk c tx b s r : AddTx hr hb m zk c tx b s = Some r → data (add_storage r) = data s.
Proof.
  unfold AddTx, AddTx_locked. destruct (cheapValidateTransaction m zk tx) as [[[e|]|] zk']; [by intros [= <-]| |done].
  pose proof (validateTransaction_reads m c tx s) as K.
  destruct (validateTransaction m c tx s) as [[[e|]|] s']; [by intros [= <-]| |done].
  by destruct (Amount tx), (Type_ tx =? TxTypeUserContent); intros; simplify_eq.
Qed.

(** *** The handlers *)

Definition node_rel (R : relation (gmap string string)) (n n' : Node) : Prop :=
  R (data (storage n)) (data (storage n')).

#[export] Instance node_rel_preorder R `{!PreOrder R} : PreOrder (node_rel R).
Proof. split; unfold node_rel; [intros n; reflexivity|]. intros n1 n2 n3 H1 H2. by etrans. Qed.

Lemma reading_data {A} (m : ST A) dflt n : keeps eq m →
  data (storage (snd (reading m dflt n))) = data (storage n).
Proof. intros Hm. unfold reading. specialize (Hm (storage n)). by destruct (m (storage n)) as [[]]. Qed.

Lemma IsApplied_reads slot : keeps eq (IsApplied slot).
Proof. unfold IsApplied. keeps. Qed.
Lemma HasCompleteBlock_reads slot : keeps eq (HasCompleteBlock slot).
Proof. unfold HasCompleteBlock. keeps. Qed.

Lemma store_Block_reads slot : keeps eq (store_Block slot).
Proof. apply (keeps_store_Block eq). Qed.
#[local] Hint Resolve IsApplied_reads HasCompleteBlock_reads store_Block_reads : keeps.

(** Runs a read as [x] and the node [n'], with the data those of before. *)
Ltac read_step x n' :=
  match goal with
  | |- context [reading ?m ?d ?n] =>
      let H := fresh in
      pose proof (reading_data m d n ltac:(auto with keeps)) as H;
      destruct (reading m d n) as [x n']; simpl in H; try rewrite <- H; clear H
  end.

(** The messages of the network and their handlers. *)
Inductive message :=
| MBlock (blk : BroadcastedBlock) (publishes : bool)
| MEmptyBlocks (l : list (option BroadcastedBlock))
| MVote (v : Vote)
| MTransaction (tx : Transaction)
| MSyncBlock (blk : option BroadcastedBlock) (now : Z → Z)
| MLatestSlot (latestSlot latestPohSlot : Z).

Definition handle (m : message) (n : Node) : outcome :=
  match m with
  | MBlock blk publishes => OnBlockReceived blk publishes n
  | MEmptyBlocks l => done_ (OnEmptyBlockReceived l n)
  | MVote v => OnVoteReceived v n
  | MTransaction tx => OnTransactionReceived tx n
  | MSyncBlock blk now => OnSyncResponseReceived blk now n
  | MLatestSlot a b => done_ (OnLatestSlotReceived a b n)
  end.

Definition handles (n n' : Node) : Prop := ∃ m r out, handle m n = Some (r, n', out).

Section Handlers.
Context (R : relation (gmap string string)) `{DR : !DataRel R}.

Lemma applyDataToBlock_keeps v n r n' out : applyDataToBlock v n = Some (r, n', out) → node_rel R n n'.
Proof.
  unfold applyDataToBlock, node_rel. read_step applied n1. destruct applied; [by intros [= <- <- <-]|]. read_step b n2.
  destruct b as [b|]; [|by intros [= <- <- <-]]. cbn zeta.
  pose proof (dr_ledger (R := R) (hasTracker n2) (hasRouter n2) b (isListener n2) (storage n2)) as K.
  cbn [storage hasTracker hasRouter isListener set_mp].
  destruct (ledger_FinalizeBlock _ _ _ _ _) as [[[u|e] s] o]; simpl in *; intros [= <- <- <-]; exact K.
Qed.

Lemma ProcessVote_keeps v n r n' out : ProcessVote v n = Some (r, n', out) → node_rel R n n'.
Proof.
  unfold ProcessVote, node_rel. destruct (AddVote (collector n) v) as [[[cm ap]|e] c]; [|by intros [= <- <- <-]].
  read_step existing n1.
  destruct existing; [|by intros [= <- <- <-]]. cbn [negb].
  destruct (cm && ap); [apply applyDataToBlock_keeps|by intros [= <- <- <-]].
Qed.

Lemma after_pending_keeps blk l pub n r n' out : after_pending blk l pub n = Some (r, n', out) → node_rel R n n'.
Proof.
  unfold after_pending, emit, node_rel. destruct (isListener n); [by intros [= <- <- <-]|]. cbn zeta.
  assert (Hv : ∀ m v, storage m = storage n → match ProcessVote v m with
    | Some (_, n', _) => node_rel R n n' | None => True end).
  { intros m v Em. destruct (ProcessVote v m) as [[[r' n1] out']|] eqn:E; [|done].
    apply ProcessVote_keeps in E. unfold node_rel in *. by rewrite <- Em. }
  destruct (negb (InvalidPoH (bb_core blk))).
  - destruct (BlockCleanup (mp n) _) as [m|]; [|done].
    set (n1 := set_mp m _). set (v := vote_Sign _ _). specialize (Hv n1 v eq_refl).
    destruct (ProcessVote v n1) as [[[[u|e] n2] out']|]; [| |done]; intros [= <- <- <-]; exact Hv.
  - set (v := vote_Sign _ _). specialize (Hv n v eq_refl).
    destruct (ProcessVote v n) as [[[[u|e] n2] out']|]; [| |done]; intros [= <- <- <-]; exact Hv.
Qed.

Lemma pending_keeps b n : node_rel R n (set_storage (snd (AddBlockPending b (storage n))) n).
Proof. apply dr_pending. Qed.

(** A received block is known or refused, and nothing changes, or it passed the
    checks and was stored. *)
Lemma OnBlockReceived_cases blk pub n r n' out : OnBlockReceived blk pub n = Some (r, n', out) →
  (data (storage n') = data (storage n) ∧ out = []) ∨
  ∃ n1 zk l s,
    data (storage n1) = data (storage n) ∧
    IsLeaderAt (leaderSchedule n) (bSlot (bb_core blk)) (LeaderID (bb_core blk)) = Some true ∧
    VerifySignature blk = true ∧ verify_txs (zkVerify n) (block_ptrs blk) = (true, zk) ∧
    mapM id (block_ptrs blk) = Some l ∧
    VerifyBlockTransactions (mp n) (dedupCache n) (Some <$> l) = accept ∧
    AddBlockPending (Some (check_poh blk)) (storage n1) = (Ok tt, s) ∧
    after_pending (check_poh blk) l pub (set_storage s n1) = Some (r, n', out).
Proof.
  unfold OnBlockReceived. pose proof (reading_data _ None n (store_Block_reads (bSlot (bb_core blk)))) as Hd.
  assert (Hn : ∃ s, snd (reading (store_Block (bSlot (bb_core blk))) None n) = set_storage s n).
  { unfold reading. destruct (store_Block _ _) as [[] s]; by exists s. }
  destruct (reading _ _ _) as [[b|] n1]; simpl in Hd, Hn; [intros [= _ <- <-]; by left|].
  destruct Hn as [s0 ->]. cbn [leaderSchedule set_storage].
  destruct (IsLeaderAt _ _ _) as [[|]|]; [|intros [= _ <- <-]; by left|done].
  destruct (VerifySignature blk); [|intros [= _ <- <-]; by left]. unfold verifyBlockTransactions.
  cbn [zkVerify set_storage negb].
  destruct (verify_txs _ _) as [[|] zk]; [|intros [= _ <- <-]; by left]. cbn [negb mp dedupCache set_zk set_storage].
  destruct (mapM id (block_ptrs blk)) as [l|]; [|done].
  destruct (VerifyBlockTransactions _ _ _) as [[e|]|] eqn:Eb; [intros [= _ <- <-]; by left| |done]. cbn zeta.
  pose proof (AddBlockPending_cases (check_poh blk) (storage (set_zk zk (set_storage s0 n)))) as HC.
  destruct (AddBlockPending _ _) as [[[]|e] s] eqn:Ea; [|intros [= _ <- <-]; left; split; [|done]].
  - intros E. right. exists (set_zk zk (set_storage s0 n)), zk, l, s. by split_and!.
  - destruct HC as [HC _]. simpl in *. by rewrite HC.
Qed.

Lemma OnBlockReceived_keeps blk pub n r n' out : OnBlockReceived blk pub n = Some (r, n', out) → node_rel R n n'.
Proof.
  intros [[E _]|(n1 & zk & l & s & Hd & _ & _ & _ & _ & _ & Ha & E)]%OnBlockReceived_cases; unfold node_rel;
    [by rewrite E|]. rewrite <- Hd.
  pose proof (pending_keeps (Some (check_poh blk)) n1) as K. rewrite Ha in K.
  apply after_pending_keeps in E. unfold node_rel in *. by etrans.
Qed.

Lemma OnEmptyBlockReceived_keeps blocks n : node_rel R n (OnEmptyBlockReceived blocks n).
Proof.
  revert n. induction blocks as [|[blk|] blocks IH]; intros n; [done| |apply IH]. cbn [OnEmptyBlockReceived].
  pose proof (reading_data (HasCompleteBlock (bSlot (bb_core blk))) false n (HasCompleteBlock_reads _)) as H.
  destruct (reading _ _ _) as [[] n1]; unfold node_rel; simpl in H; rewrite <- H; [apply IH|].
  etrans; [apply (pending_keeps (Some blk) n1)|apply IH].
Qed.

Lemma processBlock_keeps blk n r n' out : processBlock blk n = Some (r, n', out) → node_rel R n n'.
Proof.
  unfold processBlock, node_rel. destruct (negb (VerifySignature blk)); [by intros [= <- <- <-]|].
  unfold verifyBlockTransactions. destruct (verify_txs _ _) as [ok zk].
  destruct (negb ok); [by intros [= <- <- <-]|]. cbn zeta.
  pose proof (pending_keeps (Some (check_poh blk)) (set_zk zk n)) as K.
  destruct (AddBlockPending _ _) as [[u|e] s]; [|by intros [= <- <- <-]].
  set (b := BroadcastedBlockToBlock _). set (n1 := set_zk zk n) in *.
  pose proof (dr_ledger (R := R) (hasTracker n1) (hasRouter n1) b (isListener n1) s) as K1.
  destruct (ledger_FinalizeBlock _ _ _ _ _) as [[[u'|e] s'] o]; intros [= <- <- <-]; by etrans.
Qed.

Lemma process_blocks_keeps l n out n' out' : process_blocks l n out = Some (n', out') → node_rel R n n'.
Proof.
  revert n out. induction l as [|blk l IH]; intros n out; simpl; [by intros [= <- <-]|].
  destruct (processBlock blk n) as [[[r n1] o]|] eqn:E; [|done]. apply processBlock_keeps in E.
  intros H%IH. by etrans.
Qed.

Lemma empty_block_data slot now l n : data (storage (snd (empty_block slot now l n))) = data (storage n).
Proof.
  unfold empty_block, getPrevHashForSlot. destruct (_ =? 0); [done|]. destruct (last l); [done|].
  read_step b n1. done.
Qed.

Lemma gather_data fuel now l1 l2 n l1' l2' n' : gather fuel now l1 l2 n = Some (l1', l2', n') →
  data (storage n') = data (storage n).
Proof.
  revert l1 l2 n. induction fuel as [|fuel IH]; intros l1 l2 n; simpl; [by intros [= <- <- <-]|].
  destruct (_ <? _); [by intros [= <- <- <-]|].
  destruct (blockOrderingQueue n !! nextExpectedSlot n) as [blk|]; [by intros ->%IH|].
  destruct (isLeaderOfSlot n (nextExpectedSlot n)) as [[|]|]; [|by intros [= <- <- <-]|done].
  pose proof (empty_block_data (nextExpectedSlot n) (now (nextExpectedSlot n)) l1 n) as H.
  destruct (empty_block _ _ _ _) as [b n1]. by intros ->%IH.
Qed.

Lemma ordering_keeps blk now n r n' out : AddBlockToOrderingQueue blk now n = Some (r, n', out) → node_rel R n n'.
Proof.
  unfold AddBlockToOrderingQueue, node_rel. read_step existing n1. destruct existing; [by intros [= <- <- <-]|].
  unfold processConsecutiveBlocks. set (n2 := set_queue _ _ n1).
  destruct (gather _ _ _ _ n2) as [[[l1 l2] n3]|] eqn:Eg; [|done]. apply gather_data in Eg.
  destruct (process_blocks l1 n3 []) as [[n4 o]|] eqn:Ep; [|done]. apply process_blocks_keeps in Ep.
  intros [= _ <- _]. unfold node_rel in Ep. by rewrite Eg in Ep.
Qed.

Lemma handle_keeps n n' : handles n n' → node_rel R n n'.
Proof.
  intros ([blk pub|l|v|tx|blk now|a b] & r & out & E); simpl in E.
  - by apply OnBlockReceived_keeps in E.
  - injection E as <- <- <-. apply OnEmptyBlockReceived_keeps.
  - by apply ProcessVote_keeps in E.
  - unfold OnTransactionReceived in E.
    destruct (AddTx _ _ _ _ _ _ _ _) as [a|] eqn:Ea; [|done]. apply AddTx_reads in Ea.
    unfold emit, done_ in E. injection E as <- <- <-. unfold node_rel. simpl. by rewrite Ea.
  - unfold OnSyncResponseReceived in E. destruct blk as [blk|]; [|by injection E as <- <- <-].
    destruct (AddBlockToOrderingQueue blk now n) as [[[[b|] n1] o]|] eqn:Ea; [| |done];
      apply ordering_keeps in Ea; unfold emit, done_ in E; [|by injection E as <- <- <-].
    revert E. destruct (_ && _); intros E; injection E as _ <- _; exact Ea.
  - injection E as _ <- _. by unfold node_rel.
Qed.

Lemma run_keeps n n' : rtc handles n n' → node_rel R n n'.
Proof. induction 1 as [|n1 n2 n3 H _ IH]; [done|]. etrans; [by apply handle_keeps|done]. Qed.

End Handlers.

(** ** A committed block is applied once *)

Lemma batch_has b d k v : (k, v) ∈ b → is_Some (batch_apply b d !! k).
Proof.
  intros (b1 & b2 & ->)%list_elem_of_split. rewrite batch_apply_app.
  apply (grown_batch b2 (<[k := v]> (batch_apply b1 d))). by rewrite lookup_insert_eq.
Qed.

Lemma finalize_marks blk ms accs vs s u s' : store_FinalizeBlock blk ms accs vs s = (Ok u, s') →
  is_Some (data s' !! slotToFinalizedKey (bSlot (blk_core blk))).
Proof.
  unfold store_FinalizeBlock. rewrite st_bind_eq.
  destruct (HasCompleteBlock _ s) as [[[|]|e] s1]; [|done|done]. cbn [negb].
  rewrite st_bind_eq. destruct (st_some _ _ s1) as [[bv|e] s2]; [|done].
  rewrite st_bind_eq. destruct (batch_of _ _ _ s2) as [[mb|e] s3]; [|done].
  rewrite st_bind_eq. destruct (batch_of _ _ _ s3) as [[ab|e] s4]; [|done].
  rewrite st_bind_eq. destruct (st_some _ _ s4) as [[vb|e] s5]; [|done].
  rewrite st_bind_eq. unfold st_get. cbn zeta. rewrite st_bind_eq.
  match goal with |- context [batch_Write ?b s5] => destruct (batch_Write_cases b s5) as [(s6 & -> & _)|(s6 & -> & Hd & _)]; [done|] end.
  unfold set_latestFinalized. intros [= _ <-]. simpl. rewrite Hd.
  eapply batch_has. rewrite !elem_of_app. do 4 right. left. by apply list_elem_of_singleton.
Qed.

Lemma ledger_marks ht hr b il s u s' out : InvalidPoH (blk_core b) = false →
  ledger_FinalizeBlock ht hr b il s = (Ok u, s', out) →
  is_Some (data s' !! slotToFinalizedKey (bSlot (blk_core b))).
Proof.
  intros Hi. unfold ledger_FinalizeBlock. rewrite Hi.
  destruct (tx_GetBatch _ s) as [[l|e] s1]; [|done].
  destruct (account_GetBatch _ s1) as [[st|e] s2]; [|done]. set (p := foldl _ _ l).
  destruct (tx_GetBatch _ s2) as [[rel|e] s3]; [|done].
  destruct (GetBatchLatestVersionContentHash _ s3) as [[vs|e] s4]; [|done].
  destruct (foldl (process_content _ _) _ _) as [ms vs'].
  destruct (store_FinalizeBlock _ _ _ _ s4) as [[u'|e] s5] eqn:E; [|done].
  intros [= _ <- _]. by apply finalize_marks in E.
Qed.

Lemma reading_has m key n : m = or_false (db_Has key) → faults (storage n) = [] →
  ∃ n', reading m false n = (bool_decide (is_Some (data (storage n) !! key)), n') ∧
    faults (storage n') = [] ∧ data (storage n') = data (storage n).
Proof.
  intros -> Hf. unfold reading, or_false, db_Has, db_step. rewrite Hf. eexists. done.
Qed.

Lemma reading_block slot n b n' : reading (store_Block slot) None n = (Some b, n') →
  data (storage n) !! slotToBlockKey slot ≫= json_to_block = Some b.
Proof.
  unfold reading, store_Block, db_Get, db_step. destruct (faults (storage n)) as [|[|] fs]; [|done|];
    simpl; (destruct (data (storage n) !! slotToBlockKey slot) as [x|]; [|done]); simpl; by intros [= -> _].
Qed.

Lemma apply_marks v n n' out : applyDataToBlock v n = Some (Ok tt, n', out) →
  (∀ b, data (storage n) !! slotToBlockKey (Slot v) ≫= json_to_block = Some b →
     bSlot (blk_core b) = Slot v ∧ InvalidPoH (blk_core b) = false) →
  is_Some (data (storage n') !! slotToFinalizedKey (Slot v)).
Proof.
  unfold applyDataToBlock. intros E Hb. pose proof (reading_data _ false n (IsApplied_reads (Slot v))) as Hd.
  destruct (reading (IsApplied (Slot v)) false n) as [[] n1] eqn:Ea; simpl in Hd.
  - injection E as <- _. rewrite Hd. revert Ea. unfold reading, IsApplied, or_false.
    destruct (db_Has _ (storage n)) as [[bb|e] s1] eqn:Eh; [|done]. intros [= -> _].
    apply db_Has_ok in Eh. symmetry in Eh. by apply bool_decide_eq_true in Eh.
  - destruct (reading (store_Block (Slot v)) None n1) as [[b|] n2] eqn:Eb; [|done].
    apply reading_block in Eb. rewrite Hd in Eb. destruct (Hb b Eb) as [Hs Hi]. cbn zeta in E.
    destruct (ledger_FinalizeBlock _ _ _ _ _) as [[[u|e] s] o] eqn:El; [|done].
    apply ledger_marks in El; [|done]. injection E as <- _. by rewrite Hs in El.
Qed.

Lemma vote_for_applied v n r n' out : is_Some (data (storage n) !! slotToFinalizedKey (Slot v)) →
  faults (storage n) = [] → ProcessVote v n = Some (r, n', out) →
  data (storage n') = data (storage n) ∧ out = [].
Proof.
  intros Hk Hf. unfold ProcessVote. destruct (AddVote (collector n) v) as [[[cm ap]|e] c];
    [|by intros [= _ <- <-]].
  destruct (reading_has (HasCompleteBlock (Slot v)) _ (set_collector c n) eq_refl Hf) as (n1 & -> & Hf1 & Hd1).
  simpl in Hd1. destruct (negb _); [by intros [= _ <- <-]|].
  destruct (cm && ap); [|by intros [= _ <- <-]]. unfold applyDataToBlock.
  destruct (reading_has (IsApplied (Slot v)) _ n1 eq_refl Hf1) as (n2 & -> & Hf2 & Hd2).
  rewrite Hd1, bool_decide_true by done. intros [= _ <- <-]. by rewrite Hd2.
Qed.


(** ** What a received block has passed *)

Lemma verify_txs_ok zk l zk' : verify_txs zk l = (true, zk') →
  ∀ tx, Some tx ∈ l → ∃ z z', Verify z tx = (true, z').
Proof.
  revert zk. induction l as [|[t|] l IH]; intros zk; simpl; [by intros _ tx ?%elem_of_nil| |].
  - destruct (Verify zk t) as [[|] z1] eqn:Ev; [|done]. simpl. intros Hl tx [[= ->]|Hin]%elem_of_cons; [eauto|].
    by eapply IH.
  - intros Hl tx [?|Hin]%elem_of_cons; [done|]. by eapply IH.
Qed.

Lemma validateNonce_ok m l : validateNonce m (Some <$> l) = accept →
  ∀ tx, tx ∈ l → minNonce m ≤ Nonce tx ≤ netCurrentSlot m.
Proof.
  induction l as [|t l IH]; simpl; [by intros _ tx ?%elem_of_nil|].
  destruct (Z.ltb_spec (Nonce t) (minNonce m)); [done|]. destruct (Z.ltb_spec (netCurrentSlot m) (Nonce t)); [done|].
  intros Hl tx [->|Hin]%elem_of_cons; [done|by apply IH].
Qed.

Lemma validateDuplicates_ok c l : validateDuplicateTxs c (Some <$> l) = accept →
  ∀ tx, tx ∈ l → dc_Get c (DedupHash tx) = NotFound.
Proof.
  induction l as [|t l IH]; simpl; [by intros _ tx ?%elem_of_nil|]. unfold IsDuplicate.
  destruct (dc_Get c (DedupHash t)) eqn:Eg; [done| |done].
  intros Hl tx [->|Hin]%elem_of_cons; [done|by apply IH].
Qed.

(** [C15] What a broadcast block has passed when it reaches the database: its
    leader is the one of the schedule for its slot, the leader signed its hash,
    no block was stored for the slot, and each of its transactions verifies, has
    a nonce in the window of the pool and was not seen in the deduplication
    cache. *)
Theorem stored_block_was_checked (blk : BroadcastedBlock) (publishes : bool) (n n' : Node)
    (r : result NodeError unit) (out : list Effect) :
  OnBlockReceived blk publishes n = Some (r, n', out) → data (storage n') ≠ data (storage n) →
  IsLeaderAt (leaderSchedule n) (bSlot (bb_core blk)) (LeaderID (bb_core blk)) = Some true ∧
  VerifySignature blk = true ∧
  data (storage n) !! slotToBlockKey (bSlot (bb_core blk)) = None ∧
  ∀ ptr, ptr ∈ block_ptrs blk → ∃ tx, ptr = Some tx ∧ (∃ zk zk', Verify zk tx = (true, zk')) ∧
    minNonce (mp n) ≤ Nonce tx ≤ netCurrentSlot (mp n) ∧ dc_Get (dedupCache n) (DedupHash tx) = NotFound.
Proof.
  intros [[E _]|(n1 & zk & l & s & Hd & Hl & Hs & Ev & El & Eb & Ha & E)]%OnBlockReceived_cases Hne; [done|].
  pose proof (AddBlockPending_cases (check_poh blk) (storage n1)) as HC. rewrite Ha in HC.
  destruct HC as [Hnone _]. split_and!; [done..| |].
  { revert Hnone. rewrite Hd. unfold check_poh. by destruct (VerifyPoH blk). }
  apply mapM_Some in El. intros ptr Hin.
  assert (Hp : ∃ tx, ptr = Some tx ∧ tx ∈ l).
  { clear -El Hin. induction El as [|o x os l Ho _ IH]; [by apply elem_of_nil in Hin|].
    apply elem_of_cons in Hin as [->|Hin]; [exists x; split; [done|left]|].
    destruct (IH Hin) as (tx & -> & Hl). exists tx. split; [done|by right]. }
  destruct Hp as (tx & -> & Htx). exists tx. split; [done|].
  unfold VerifyBlockTransactions in Eb. simpl in Eb.
  destruct (validateNonce (mp n) (Some <$> l)) as [[e|]|] eqn:En; [done| |done].
  split_and!.
  - by eapply verify_txs_ok.
  - by eapply validateNonce_ok.
  - by eapply validateNonce_ok.
  - by eapply validateDuplicates_ok.
Qed.

(** ** The clock of a follower *)

Definition syncs_poh (e : Effect) : Prop := match e with SyncPohFromLeader _ _ => True | _ => False end.

Lemma votes_do_not_sync v n r n' out : ProcessVote v n = Some (r, n', out) → Forall (λ e, ¬ syncs_poh e) out.
Proof.
  unfold ProcessVote. destruct (AddVote (collector n) v) as [[[cm ap]|e] c]; [|by intros [= _ _ <-]].
  destruct (reading _ _ _) as [[] n1]; cbn [negb]; [|by intros [= _ _ <-]].
  destruct (cm && ap); [|by intros [= _ _ <-]]. unfold applyDataToBlock.
  destruct (reading _ _ _) as [[] n2]; [by intros [= _ _ <-]|].
  destruct (reading _ _ _) as [[b|] n3]; [|by intros [= _ _ <-]]. cbn zeta.
  destruct (ledger_FinalizeBlock _ _ _ _ _) as [[[u|e] s] o]; intros [= _ _ <-]; by repeat constructor; intros [].
Qed.

Lemma after_pending_no_sync blk l pub n r n' out : bSlot (bb_core blk) ≤ latestStore (storage n) →
  after_pending blk l pub n = Some (r, n', out) → Forall (λ e, ¬ syncs_poh e) out.
Proof.
  intros Hle. unfold after_pending. rewrite (proj2 (Z.ltb_ge _ _)) by done. unfold emit.
  destruct (isListener _); [by intros [= _ _ <-]|]. cbn zeta.
  destruct (if negb _ then _ else _) as [n1|]; [|done]. set (v := vote_Sign _ _).
  destruct (ProcessVote v n1) as [[[[u|e] m] o]|] eqn:Ev; [| |done];
    apply votes_do_not_sync in Ev; intros [= _ _ <-]; [|done].
  apply Forall_app. split; [done|]. by repeat constructor; intros [].
Qed.

(** A received block never synchronises the proof-of-history clock with the
    leader's.  The clock is reset only if the block's slot is above the latest
    stored slot, and storing the block has just raised that to at least its
    slot. *)
Theorem received_block_never_syncs_poh (blk : BroadcastedBlock) (publishes : bool) (n n' : Node)
    (r : result NodeError unit) (out : list Effect) :
  OnBlockReceived blk publishes n = Some (r, n', out) → ∀ hash slot, SyncPohFromLeader hash slot ∉ out.
Proof.
  intros [[_ ->]|(n1 & zk & l & s & _ & _ & _ & _ & _ & _ & Ha & E)]%OnBlockReceived_cases h slot;
    [apply not_elem_of_nil|].
  pose proof (AddBlockPending_cases (check_poh blk) (storage n1)) as HC. rewrite Ha in HC.
  destruct HC as (_ & _ & _ & _ & _ & _ & _ & Hls).
  apply after_pending_no_sync in E; [|simpl; rewrite Hls; lia].
  rewrite Forall_forall in E. intros Hin. by apply (E _ Hin).
Qed.

(** ** The ordering queue *)

Definition slot_of (b : BroadcastedBlock) : Z := bSlot (bb_core b).

(** The queued blocks are under their slots. *)
Definition queue_ok (n : Node) : Prop := ∀ s b, blockOrderingQueue n !! s = Some b → slot_of b = s.

(** The fields that gathering keeps. *)
Definition same_config (n n' : Node) : Prop :=
  leaderSchedule n' = leaderSchedule n ∧ selfPubKey n' = selfPubKey n ∧ worldLatestSlot n' = worldLatestSlot n.

Lemma empty_block_spec slot now l n b n' : empty_block slot now l n = (b, n') →
  slot_of b = slot ∧ same_config n n' ∧ blockOrderingQueue n' = blockOrderingQueue n ∧
  nextExpectedSlot n' = nextExpectedSlot n.
Proof.
  unfold empty_block, getPrevHashForSlot. destruct (_ =? 0); [by intros [= <- <-]|].
  destruct (last l); [by intros [= <- <-]|].
  unfold reading. destruct (store_Block _ _) as [[] s]; by intros [= <- <-].
Qed.

(** What gathering from [n] with the result [new] and [n'] has done. *)
Record gathered (n : Node) (new empties : list BroadcastedBlock) (n' : Node) : Prop := {
  g_config : same_config n n';
  g_forward : nextExpectedSlot n ≤ nextExpectedSlot n' ≤ Z.max (nextExpectedSlot n) (worldLatestSlot n + 1);
  g_slots : slot_of <$> new = seqZ (nextExpectedSlot n) (nextExpectedSlot n' - nextExpectedSlot n);
  g_queue s : blockOrderingQueue n' !! s =
    if bool_decide (nextExpectedSlot n ≤ s < nextExpectedSlot n') then None else blockOrderingQueue n !! s;
  g_origin b : b ∈ new → blockOrderingQueue n !! slot_of b = Some b ∨
    (b ∈ empties ∧ blockOrderingQueue n !! slot_of b = None ∧ isLeaderOfSlot n (slot_of b) = Some true);
  g_stop : worldLatestSlot n < nextExpectedSlot n' ∨
    (blockOrderingQueue n !! nextExpectedSlot n' = None ∧ isLeaderOfSlot n (nextExpectedSlot n') = Some false);
}.

Lemma same_leader n n' slot : same_config n n' → isLeaderOfSlot n' slot = isLeaderOfSlot n slot.
Proof. intros (H1 & H2 & _). unfold isLeaderOfSlot. by rewrite H1, H2. Qed.

Lemma gathered_nil n n' : same_config n n' → blockOrderingQueue n' = blockOrderingQueue n →
  nextExpectedSlot n' = nextExpectedSlot n →
  (worldLatestSlot n < nextExpectedSlot n ∨
   blockOrderingQueue n !! nextExpectedSlot n = None ∧ isLeaderOfSlot n (nextExpectedSlot n) = Some false) →
  gathered n [] [] n'.
Proof.
  intros Hc Hq Hn Hs. split; [done|lia| | | |by rewrite Hn].
  - by rewrite Hn, Z.sub_diag.
  - intros s. rewrite Hq, bool_decide_false by lia. done.
  - by intros b ?%elem_of_nil.
Qed.

Lemma gathered_cons n b new empties n1 n' own : same_config n n1 → slot_of b = nextExpectedSlot n →
  nextExpectedSlot n1 = nextExpectedSlot n + 1 → nextExpectedSlot n ≤ worldLatestSlot n →
  (∀ s, blockOrderingQueue n1 !! s =
     if bool_decide (s = nextExpectedSlot n) then None else blockOrderingQueue n !! s) →
  (blockOrderingQueue n !! slot_of b = Some b ∨
   (own = [b] ∧ blockOrderingQueue n !! slot_of b = None ∧ isLeaderOfSlot n (slot_of b) = Some true)) →
  gathered n1 new empties n' → gathered n (b :: new) (own ++ empties) n'.
Proof.
  intros Hc Hs Hn Hw Hq Ho [G1 G2 G3 G4 G5 G6].
  assert (Ew : worldLatestSlot n1 = worldLatestSlot n) by apply Hc.
  assert (Hslots : ∀ x, x ∈ new → nextExpectedSlot n < slot_of x).
  { intros x Hx. assert (Hin : slot_of x ∈ slot_of <$> new) by by apply list_elem_of_fmap_2.
    rewrite G3, elem_of_seqZ in Hin. lia. }
  split.
  - destruct Hc as (? & ? & ?), G1 as (? & ? & ?). split_and!; congruence.
  - lia.
  - cbn [fmap list_fmap]. rewrite Hs, G3, Hn, (seqZ_cons (nextExpectedSlot n)) by lia.
    f_equal. f_equal; lia.
  - intros s. rewrite G4, Hq, Hn. repeat case_bool_decide; try done; lia.
  - intros x [->|Hx]%elem_of_cons.
    + destruct Ho as [Ho|(-> & Ho)]; [by left|right]. split; [left|done].
    + pose proof (Hslots x Hx). destruct (G5 x Hx) as [Hb|(Hb & Hq' & Hl)]; rewrite Hq, bool_decide_false in * by lia; [by left|].
      right. rewrite elem_of_app, <- (same_leader n n1) by done. by split; [right|].
  - rewrite Ew, (same_leader n n1) in G6 by done. destruct G6 as [?|[Hx ?]]; [by left|right].
    rewrite Hq, bool_decide_false in Hx by lia. done.
Qed.

(** Enough rounds end the loop. *)
Lemma gather_spec fuel now l1 l2 n : queue_ok n → maxSlot (leaderSchedule n) ≠ 0 →
  0 ≤ nextExpectedSlot n → worldLatestSlot n < 2 ^ 64 - 1 → worldLatestSlot n - nextExpectedSlot n < Z.of_nat fuel →
  ∃ new empties n', gather fuel now l1 l2 n = Some (l1 ++ new, l2 ++ empties, n') ∧ gathered n new empties n'.
Proof.
  revert l1 l2 n. induction fuel as [|fuel IH]; intros l1 l2 n Hq Hm H0 Hw Hf; simpl.
  { exists [], [], n. rewrite !app_nil_r. split; [done|]. apply gathered_nil; [done..|]. left. lia. }
  destruct (Z.ltb_spec (worldLatestSlot n) (nextExpectedSlot n)) as [Hl|Hl].
  { exists [], [], n. rewrite !app_nil_r. split; [done|]. apply gathered_nil; [done..|]. by left. }
  assert (Hinc : u64_add (nextExpectedSlot n) 1 = nextExpectedSlot n + 1)
    by (unfold u64_add; apply wrap_small; unfold in_width; lia).
  destruct (blockOrderingQueue n !! nextExpectedSlot n) as [blk|] eqn:Eq.
  - set (n1 := set_queue _ _ n).
    destruct (IH (l1 ++ [blk]) l2 n1) as (new & empties & n' & E & G); [|done|simpl; lia|done|simpl; lia|].
    { intros s b Hb. simpl in Hb. apply lookup_delete_Some in Hb as [_ Hb]. by apply Hq. }
    exists (blk :: new), empties, n'. rewrite E, <- app_assoc. split; [done|].
    apply (gathered_cons n blk new empties n1 n' []); try done; [by apply Hq| |left; by rewrite (Hq _ _ Eq)].
    intros s. simpl. case_bool_decide; [subst; by rewrite lookup_delete_eq|by rewrite lookup_delete_ne].
  - assert (Hld : is_Some (isLeaderOfSlot n (nextExpectedSlot n))).
    { unfold isLeaderOfSlot. pose proof (LeaderAt_total (leaderSchedule n) (nextExpectedSlot n) Hm).
      destruct (LeaderAt _ _) as [[leader|]|]; [by eexists..|done]. }
    destruct Hld as [[|] Hld]; rewrite Hld.
    + destruct (empty_block _ _ _ _) as [b n1] eqn:Eb.
      apply empty_block_spec in Eb as (Hs & Hc & Hq1 & Hn1). set (n2 := set_queue _ _ n1).
      destruct (IH (l1 ++ [b]) (l2 ++ [b]) n2) as (new & empties & n' & E & G).
      * intros s x. simpl. rewrite Hq1. apply Hq.
      * simpl. by destruct Hc as (-> & _).
      * simpl. lia.
      * simpl. by destruct Hc as (_ & _ & ->).
      * simpl. destruct Hc as (_ & _ & ->). lia.
      * exists (b :: new), ([b] ++ empties), n'. rewrite E, <- !app_assoc. split; [done|].
        apply (gathered_cons n b new empties n2 n' [b]); try done; [|right; by rewrite Hs].
        intros s. simpl. rewrite Hq1. case_bool_decide; [by subst|done].
    + exists [], [], n. rewrite !app_nil_r. split; [done|]. apply gathered_nil; [done..|]. by right.
Qed.

Lemma process_blocks_total l n out : ∃ n' out', process_blocks l n out = Some (n', out').
Proof.
  revert n out. induction l as [|b l IH]; intros n out; simpl; [eauto|].
  assert (Hp : ∃ r n1 o, processBlock b n = Some (r, n1, o)); [|destruct Hp as (? & ? & ? & ->); apply IH].
  unfold processBlock. destruct (negb _); [by eexists _, _, _|]. destruct (verifyBlockTransactions b n) as [[|] n1];
    [|by eexists _, _, _]. cbn [negb]. destruct (AddBlockPending _ _) as [[u|e] s]; [|by eexists _, _, _].
  destruct (ledger_FinalizeBlock _ _ _ _ _) as [[[u'|e] s'] o]; by eexists _, _, _.
Qed.

End Growth.

(** ** Examples *)

(** A signature is the key followed by the first 32 bytes of the message. *)
Definition pad32 (m : string) : string := String.substring 0 32 (m +:+ zero_hash).
Definition toy_sign (priv m : string) : string := priv +:+ pad32 m.

Definition node_env : TxEnv := {|
  uint256_String := @uint256_String example_tx_env;
  base58_Decode := @base58_Decode example_tx_env;
  base58_Encode := @base58_Encode example_tx_env;
  ed25519_Verify pub m s := bool_decide (s = pub +:+ m) || bool_decide (s = toy_sign pub m);
  sha256_Sum256 := @sha256_Sum256 example_tx_env;
  edwards25519_SetBytes := @edwards25519_SetBytes example_tx_env;
  json_of_tx := @json_of_tx example_tx_env;
  json_to_UserSig := @json_to_UserSig example_tx_env;
|}.

Definition node_votes : VoteEnv := {|
  json_of_vote slot hash id := fmt_d slot +:+ hash +:+ id;
  ed25519_Sign := toy_sign;
|}.

(** Two validators; the second one's key and address. *)
Definition other_key : string := "fedcba9876543210fedcba9876543210".
Definition other_addr : string := hex_EncodeToString other_key.

(** The first sends 60 to the second, who sends them on to carol. *)
Definition pay_unsigned (key recipient : string) (nonce : Z) : Transaction :=
  mkTransaction 1 (hex_EncodeToString key) recipient (Some 60) 0 "" nonce "" "" "" "".
Definition with_signature (key : string) (t : Transaction) : Transaction :=
  mkTransaction (Type_ t) (Sender t) (Recipient t) (Amount t) (Timestamp t) (TextData t) (Nonce t)
    (hex_EncodeToString (key +:+ @Serialize node_env t)) (ExtraInfo t) (ZkProof t) (ZkPub t).
Definition pay (key recipient : string) (nonce : Z) : Transaction :=
  with_signature key (pay_unsigned key recipient nonce).
Definition pay1 : Transaction := pay example_key other_addr 3.
Definition pay2 : Transaction := pay other_key "carol" 4.

Definition block_of (slot : Z) (es : list Entry) : BroadcastedBlock :=
  bb_Sign toy_sign (@AssembleBlock node_env slot zero_hash example_addr es 9) example_key.

(** The entry of one transaction that follows the hash [prev]. *)
Definition entry_of (prev : string) (tx : Transaction) : Entry :=
  NewTxEntry 1 (@entry_hash node_env prev (NewTxEntry 1 "" [Some tx])) [Some tx].
Definition block5 : BroadcastedBlock := block_of 5 [entry_of zero_hash pay1].
Definition block6 : BroadcastedBlock := block_of 6 [entry_of zero_hash pay2].
(** A block with an unsigned transfer, and nobody's signature. *)
Definition forged5 : BroadcastedBlock :=
  @AssembleBlock node_env 5 zero_hash "nobody" [entry_of zero_hash (pay_unsigned example_key "carol" 3)] 9.

Definition block_tag (b : Block) : string := fmt_d (bSlot (blk_core b)) +:+ LeaderID (blk_core b).
Definition known_blocks : list Block := @BroadcastedBlockToBlock node_env <$> [block5; block6; forged5].

Definition node_codec : StoreCodec := {|
  json_to_tx v := head (filter (λ t, @json_of_tx node_env t = Some v)
    [pay1; pay2; pay_unsigned example_key "carol" 3]);
  json_of_account := @json_of_account ledger_codec;
  json_to_account := @json_to_account ledger_codec;
  json_of_block b := Some (block_tag b);
  json_to_block v := head (filter (λ b, block_tag b = v) known_blocks);
  json_of_meta := @json_of_meta ledger_codec;
  json_to_meta := @json_to_meta ledger_codec;
|}.

Definition node0 : Node (ZE := example_zk_env) (DC := list_dedup) :=
  mkNode (ZE := example_zk_env) (DC := list_dedup) funds (start 5) (Some []) [] (NewCollector 3)
    (mkLeaderSchedule [mkSchedule 1 100 example_addr] 100) other_addr other_key
    false true true true true 0 0 ∅ 1 5 10.

Definition vote_of (slot : Z) (b : BroadcastedBlock) (key : string) : Vote :=
  @vote_Sign node_votes (mkVote slot (bHash (bb_core b)) (hex_EncodeToString key) "") key.
Definition run1 (m : message) (n : Node (ZE := example_zk_env) (DC := list_dedup)) :=
  @handle node_env example_zk_env node_votes node_codec no_contents list_dedup m n.

Fixpoint run_all (ms : list message) (n : Node (ZE := example_zk_env) (DC := list_dedup))
    : option (list (result NodeError unit) * Node (ZE := example_zk_env) (DC := list_dedup)) :=
  match ms with
  | [] => Some ([], n)
  | m :: ms' =>
      match run1 m n with
      | None => None
      | Some (r, n, _) =>
          match run_all ms' n with Some (rs, n) => Some (r :: rs, n) | None => None end
      end
  end.

Definition node_balances (n : Node (ZE := example_zk_env) (DC := list_dedup)) : list Z :=
  @stored_balance node_codec (data (storage n)) <$> [example_addr; other_addr; "carol"].

Definition delivered : list message := [MBlock block5 true; MBlock block6 true].
Definition final (ms : list message) : option (list (result NodeError unit) * list Z * bool * bool) :=
  match run_all ms node0 with
  | Some (rs, n) => Some (rs, node_balances n,
      bool_decide (is_Some (data (storage n) !! slotToFinalizedKey 5)),
      bool_decide (is_Some (data (storage n) !! slotToFinalizedKey 6)))
  | None => None
  end.

(** Committed blocks are applied in the order in which their votes arrive, not
    in the order of their slots, and the accounts depend on it.  Two nodes store
    the same two blocks and see the same votes; both finalise both blocks, but the
    transfer in slot 6 spends what slot 5 pays, so the node whose votes for slot 6
    arrive first ends with other balances. *)
Theorem vote_order_decides_balances :
  final (delivered ++ [MVote (vote_of 5 block5 example_key); MVote (vote_of 6 block6 example_key)]) =
    Some ([Ok tt; Ok tt; Ok tt; Ok tt], [40; 0; 60], true, true) ∧
  final (delivered ++ [MVote (vote_of 6 block6 example_key); MVote (vote_of 5 block5 example_key)]) =
    Some ([Ok tt; Ok tt; Ok tt; Ok tt], [40; 60; 0], true, true).
Proof. split; vm_compute; reflexivity. Qed.

(** Blocks announced as empty are stored without any check, and take the place
    of the leader's block.  A block with an unsigned transfer, of a leader that is
    not scheduled and did not sign, is stored; the leader's signed block for the
    slot is then ignored, and the validators' votes for it apply the forged one:
    carol receives 60 from an account whose owner signed nothing to her. *)
Theorem empty_block_preempts_leader :
  @VerifySignature node_env forged5 = false ∧
  @verify_txs node_env example_zk_env (Some []) (block_ptrs forged5) = (false, Some []) ∧
  @IsLeaderAt (leaderSchedule node0) 5 (LeaderID (bb_core forged5)) = Some false ∧
  final [MEmptyBlocks [Some forged5]; MBlock block5 true;
         MVote (vote_of 5 block5 other_key); MVote (vote_of 5 block5 example_key)] =
    Some ([Ok tt; Ok tt; Ok tt; Ok tt], [40; 0; 60], true, false).
Proof. split_and!; vm_compute; reflexivity. Qed.

(** The node after a list of messages. *)
Definition node_after (ms : list message) : Node (ZE := example_zk_env) (DC := list_dedup) :=
  match run_all ms node0 with Some (_, n) => n | None => node0 end.

Lemma stored_block_was_checked_witness :
  @VerifySignature node_env block5 = true ∧
  ∃ zk zk', @Verify node_env example_zk_env zk pay1 = (true, zk').
Proof.
  destruct (run1 (MBlock block5 true) node0) as [[[r n'] out]|] eqn:E.
  - destruct (@stored_block_was_checked node_env example_zk_env node_votes node_codec no_contents list_dedup
      block5 true node0 n' r out E) as (_ & Hs & _ & Hall).
    + intros Hd. assert (Hc : data (storage (node_after [MBlock block5 true])) = data (storage node0)).
      { unfold node_after. cbn [run_all]. by rewrite E. }
      apply (f_equal (λ d, bool_decide (is_Some (d !! slotToBlockKey 5)))) in Hc.
      vm_compute in Hc. discriminate Hc.
    + split; [exact Hs|]. destruct (Hall (Some pay1)) as (tx & [= <-] & Hv & _); [|exact Hv].
      apply (bool_decide_unpack _). vm_compute. exact I.
  - exfalso. apply (f_equal (λ o, bool_decide (is_Some o))) in E. vm_compute in E. discriminate E.
Defined.

Lemma received_block_never_syncs_poh_witness :
  ∃ r n' out, run1 (MBlock block5 true) node0 = Some (r, n', out) ∧ out ≠ [] ∧
    ∀ hash slot, SyncPohFromLeader hash slot ∉ out.
Proof.
  destruct (run1 (MBlock block5 true) node0) as [[[r n'] out]|] eqn:E.
  - exists r, n', out. split_and!; [reflexivity| |].
    + intros ->. apply (f_equal (λ o, match o with Some (_, _, []) => true | _ => false end)) in E.
      vm_compute in E. discriminate E.
    + exact (@received_block_never_syncs_poh node_env example_zk_env node_votes node_codec no_contents list_dedup
        block5 true node0 n' r out E).
  - exfalso. apply (f_equal (λ o, bool_decide (is_Some o))) in E. vm_compute in E. discriminate E.
Defined.

(** The node after block 5 is applied, and the vote of a third key. *)
Definition apply5 : outcome (ZE := example_zk_env) (DC := list_dedup) :=
  @applyDataToBlock node_env example_zk_env node_codec no_contents list_dedup
    (vote_of 5 block5 example_key) (node_after [MBlock block5 true]).
Definition applied5 : Node (ZE := example_zk_env) (DC := list_dedup) :=
  match apply5 with Some (_, n, _) => n | None => node0 end.
Definition third_vote : Vote := vote_of 5 block5 "third56789abcdef0123456789abcdef".


(** Blocks 5 and 6 wait for slot 4, which is the node's own. *)
Definition sync_node : Node (ZE := example_zk_env) (DC := list_dedup) :=
  mkNode (ZE := example_zk_env) (DC := list_dedup) funds (start 5) (Some []) [] (NewCollector 3)
    (mkLeaderSchedule [mkSchedule 1 4 other_addr; mkSchedule 5 100 example_addr] 100) other_addr other_key
    false true true false false 6 6 {[ 5 := block5; 6 := block6 ]} 4 5 10.

