(* ===== verification/Validator.v ===== *)
(** * The validator (validator/validator.go)

    The leader's side of a node: the role monitor, the loop that records batches,
    the callback that collects entries and assembles blocks, and the resets of the
    clock.  The goroutines are the actions of [vaction]; each is one step, and the
    wait of [onLeaderSlotStart], which other goroutines run during, is a state
    between two steps.  The part of p2p/block.go that stores and votes for an own
    block is here too.  [None] is a panic. *)

From stdpp Require Import base list gmap strings.
From Stdlib Require Import ZArith Lia.
From S2P Require Import Prelude GoLib Transaction Poh Schedule Consensus Block Store BlockStore Ledger.
From S2P Require Import Mempool Node.

Open Scope string_scope.
Open Scope list_scope.
Open Scope Z_scope.

Definition NoSlot : Z := 2 ^ 64 - 1.

Section Validator.
Context `{TE : TxEnv, ZE : ZkEnv, VE : VoteEnv, SC : StoreCodec, CC : ContentCodec, DC : DedupCache}.

(** [net] has the mempool, the stores and the collector, which the validator and
    the network share. *)
Record Validator := mkValidator {
  Pubkey : string; PrivKey : string; Recorder : PohRecorder; Schedule : LeaderSchedule; net : Node;
  BatchSize : Z; leaderStartAtSlot : Z; collectedEntries : list Entry; pendingTxs : list Transaction;
}.

Definition NewValidator (pubkey privKey : string) (rec : PohRecorder) (schedule : LeaderSchedule)
    (n : Node) (batchSize : Z) : Validator :=
  mkValidator pubkey privKey rec schedule n batchSize NoSlot [] [].

Definition set_Recorder (r : PohRecorder) (v : Validator) : Validator :=
  mkValidator (Pubkey v) (PrivKey v) r (Schedule v) (net v) (BatchSize v) (leaderStartAtSlot v)
    (collectedEntries v) (pendingTxs v).
Definition set_net (n : Node) (v : Validator) : Validator :=
  mkValidator (Pubkey v) (PrivKey v) (Recorder v) (Schedule v) n (BatchSize v) (leaderStartAtSlot v)
    (collectedEntries v) (pendingTxs v).
Definition set_leaderStart (slot : Z) (v : Validator) : Validator :=
  mkValidator (Pubkey v) (PrivKey v) (Recorder v) (Schedule v) (net v) (BatchSize v) slot
    (collectedEntries v) (pendingTxs v).
Definition set_collected (es : list Entry) (v : Validator) : Validator :=
  mkValidator (Pubkey v) (PrivKey v) (Recorder v) (Schedule v) (net v) (BatchSize v) (leaderStartAtSlot v)
    es (pendingTxs v).
Definition set_pending (l : list Transaction) (v : Validator) : Validator :=
  mkValidator (Pubkey v) (PrivKey v) (Recorder v) (Schedule v) (net v) (BatchSize v) (leaderStartAtSlot v)
    (collectedEntries v) l.

Definition IsLeader (v : Validator) (slot : Z) : option bool :=
  match LeaderAt (Schedule v) slot with
  | None => None
  | Some (Some leader) => Some (bool_decide (leader = Pubkey v))
  | Some None => Some false
  end.

Definition IsFollower (v : Validator) (slot : Z) : option bool := negb <$> IsLeader v slot.

Definition ReadyToStart (v : Validator) (slot : Z) : option bool :=
  b ← IsLeader v slot; Some (b && negb (leaderStartAtSlot v =? NoSlot)).

(** ** Becoming leader *)

Definition fastForwardTicks (v : Validator) (seenHash : string) (fromSlot toSlot : Z)
    : SlotBoundary * Validator :=
  let '(hash, r) := FastForward (Recorder v) seenHash fromSlot toSlot in
  (mkBoundary toSlot hash, set_Recorder r v).

(** The zero value of a boundary that is not found. *)
Definition boundary_or_zero (b : option SlotBoundary) : SlotBoundary :=
  default (mkBoundary 0 zero_hash) b.

(** What follows the loop of [onLeaderSlotStart]. *)
Definition start_leading (v : Validator) (seedHash : string) (currentSlot : Z) : Validator :=
  let v := set_Recorder (recorder_Reset (Recorder v) seedHash (u64_sub currentSlot 1)) v in
  set_leaderStart currentSlot (set_pending [] (set_collected [] v)).

(** A beat of the ticker while waiting, and whether the wait is over. *)
Definition wait_beat (v : Validator) (currentSlot : Z) : bool * Validator :=
  let prevSlot := u64_sub currentSlot 1 in
  let '(has, n) := reading (HasCompleteBlock prevSlot) false (net v) in
  if has : bool then
    let '(seedSlot, n) := reading (LastEntryInfoAtSlot prevSlot) None n in
    (true, start_leading (set_net n v) (sbHash (boundary_or_zero seedSlot)) currentSlot)
  else (false, set_net n v).

Definition wait_deadline (v : Validator) (currentSlot : Z) : Validator :=
  let prevSlot := u64_sub currentSlot 1 in
  let lastSeenSlot := GetLatestStoreSlot (storage (net v)) in
  match GetSlotHashFromQueue (Recorder v) lastSeenSlot with
  | Some hash =>
      let '(seedSlot, v) := fastForwardTicks v hash lastSeenSlot prevSlot in
      start_leading v (sbHash seedSlot) currentSlot
  | None =>
      let '(lastSeenEntry, n) := reading (LastEntryInfoAtSlot lastSeenSlot) None (net v) in
      let lastSeenEntry := boundary_or_zero lastSeenEntry in
      let '(seedSlot, v) :=
        fastForwardTicks (set_net n v) (sbHash lastSeenEntry) (sbSlot lastSeenEntry) prevSlot in
      start_leading v (sbHash seedSlot) currentSlot
  end.

Definition onLeaderSlotEnd (v : Validator) : Validator := set_leaderStart NoSlot v.

(** ** Entries and blocks *)

(** [now] is the time of the assembly. *)
Definition handleEntry (v : Validator) (es : list Entry) (now : Z)
    : option (Validator * option BroadcastedBlock) :=
  currentSlot ← CurrentSlot (Recorder v);
  let lastSlot := u64_sub currentSlot 1 in
  lastEntry ← last es;
  lastTick ← IsLastTickOfSlot (Recorder v);
  leaderLast ← (if lastTick : bool then IsLeader v lastSlot else Some false);
  if lastTick && leaderLast && Tick lastEntry && negb (bool_decide (collectedEntries v = [])) then
    let copyCollectedEntries := collectedEntries v ++ es in
    let prevSlot := u64_sub lastSlot 1 in
    let prevHash := GetSlotHash (Recorder v) prevSlot in
    let blk := AssembleBlock lastSlot prevHash (Pubkey v) copyCollectedEntries now in
    let blk := bb_Sign ed25519_Sign blk (PrivKey v) in
    let '(_, n) := reading (store_Block prevSlot) None (net v) in
    Some (set_collected [] (set_net n v), Some blk)
  else
    leader ← IsLeader v currentSlot;
    ready_ ← ReadyToStart v currentSlot;
    if leader && ready_ then Some (set_collected (collectedEntries v ++ es) v, None)
    else Some (v, None).

(** One beat of [tickAndFlush] in poh_service.go. *)
Definition flush (v : Validator) (now : Z) : option (Validator * option BroadcastedBlock) :=
  let '(es, r) := DrainEntries (Recorder v) in
  match recorder_Tick r with
  | None => None
  | Some (tickEntry, r) =>
      let es := match tickEntry with Some t => es ++ [t] | None => es end in
      let v := set_Recorder r v in
      if bool_decide (es = []) then Some (v, None) else handleEntry v es now
  end.

Definition handleResetPohFromLeader (v : Validator) (seedHash : string) (slot : Z) : option Validator :=
  currentSlot ← CurrentSlot (Recorder v);
  f1 ← IsFollower v currentSlot;
  f2 ← (if f1 : bool then IsFollower v slot else Some false);
  Some (if f1 && f2 then set_Recorder (recorder_Reset (Recorder v) seedHash slot) v else v).

Definition ForceResetPoh (v : Validator) (seedHash : string) (slot : Z) : Validator :=
  set_Recorder (recorder_Reset (Recorder v) seedHash slot) v.

(** ** Batches *)

(** The outer [None] is the panic on a negative size, the inner one nil. *)
Definition peekPendingTxs (v : Validator) (size : Z) : option (option (list Transaction)) :=
  if bool_decide (pendingTxs v = []) then Some None
  else
    let size := if Z.of_nat (length (pendingTxs v)) <? size then Z.of_nat (length (pendingTxs v)) else size in
    if size <? 0 then None else Some (Some (take (Z.to_nat size) (pendingTxs v))).

Definition dropPendingTxs (v : Validator) (size : nat) : Validator :=
  if (length (pendingTxs v) <=? size)%nat then set_pending [] v
  else set_pending (drop size (pendingTxs v)) v.

(** One beat of [leaderBatchLoop], with the transactions it pulls. *)
Definition leader_batch (v : Validator) : option (Validator * list Transaction) :=
  slot ← CurrentSlot (Recorder v);
  leader ← IsLeader v slot;
  if negb leader then Some (v, [])
  else
    ready_ ← ReadyToStart v slot;
    if negb ready_ then Some (v, [])
    else
      match PullBatch (mp (net v)) (dedupCache (net v)) (BatchSize v) with
      | None => None
      | Some (m, c, batch) =>
          let v := set_net (set_dedup c (set_mp m (net v))) v in
          if bool_decide (batch = []) && bool_decide (pendingTxs v = []) then Some (v, batch)
          else
            let v := set_pending (pendingTxs v ++ batch) v in
            recordTxs ← peekPendingTxs v (BatchSize v);
            match recordTxs with
            | None => Some (v, batch)
            | Some l =>
                match RecordTxs (Recorder v) (Some <$> l) with
                | (Err _, r) => Some (set_Recorder r v, batch)
                | (Ok _, r) => Some (dropPendingTxs (set_Recorder r v) (length l), batch)
                end
            end
      end.

(** One beat of [roleMonitorLoop]: the validator, and the slot whose start it
    waits for. *)
Definition role_beat (v : Validator) : option (Validator * option Z) :=
  slot ← CurrentSlot (Recorder v);
  leader ← IsLeader v slot;
  Some (if leader : bool then
          if leaderStartAtSlot v =? NoSlot then (v, Some slot) else (v, None)
        else if negb (leaderStartAtSlot v =? NoSlot) then (onLeaderSlotEnd v, None) else (v, None)).

(** ** Own blocks in the network *)

Definition ProcessBlockBeforeBroadcast (blk : BroadcastedBlock) (n : Node) : result StoreError unit * Node :=
  let '(r, s) := AddBlockPending (Some blk) (storage n) in (r, set_storage s n).

(** [marshals]: the block has a JSON form; [published] and [voted]: the topics
    take the block and the vote. *)
Definition BroadcastBlockWithProcessing (blk : BroadcastedBlock) (marshals published voted : bool)
    (n : Node) : outcome :=
  match ProcessBlockBeforeBroadcast blk n with
  | (Err e, n) => fail_ (EStore e) n
  | (Ok _, n) =>
      if negb marshals then fail_ (EStore MarshalError) n
      else if negb published then done_ n
      else
        let vote := vote_Sign (mkVote (bSlot (bb_core blk)) (bHash (bb_core blk)) (selfPubKey n) "")
                      (selfPrivKey n) in
        match ProcessVote vote n with
        | None => None
        | Some (Err e, n, out) => Some (Err e, n, out)
        | Some (Ok _, n, out) =>
            Some (if voted : bool then Ok tt else Err EPublish, n, out ++ [BroadcastVote vote])
        end
  end.

(** ** The goroutines together *)

(** The validator, the slot the role monitor waits for, the blocks assembled so
    far, and for the accounting the transactions pulled from the pool and those
    that a start of leadership dropped. *)
Record VState := mkVState {
  val : Validator; waitingFor : option Z; assembled : list BroadcastedBlock;
  pulled : list Transaction; dropped : list Transaction;
}.

Inductive vaction :=
| VHash
| VFlush (now : Z)
| VBatch
| VRole
| VWaitBeat
| VDeadline
| VMessage (m : message)
| VBroadcast (blk : BroadcastedBlock) (marshals published voted : bool).

(** What the callbacks into the validator do, for the effects of a handler. *)
Definition callback (v : Validator) (e : Effect) : option Validator :=
  match e with
  | SyncPohFromLeader hash slot => handleResetPohFromLeader v hash slot
  | ForceResetPOH hash slot => Some (ForceResetPoh v hash slot)
  | _ => Some v
  end.

Fixpoint callbacks (v : Validator) (l : list Effect) : option Validator :=
  match l with
  | [] => Some v
  | e :: l' => v ← callback v e; callbacks v l'
  end.

Definition with_val (s : VState) (v : Validator) : VState :=
  mkVState v (waitingFor s) (assembled s) (pulled s) (dropped s).

(** The wait of [onLeaderSlotStart] is over. *)
Definition started (s : VState) (v : Validator) : VState :=
  mkVState v None (assembled s) (pulled s) (dropped s ++ pendingTxs (val s)).

Definition vstep (s : VState) (a : vaction) : option VState :=
  let v := val s in
  match a with
  | VHash => Some (with_val s (set_Recorder (with_poh (Recorder v) (AutoHash_beat (poh (Recorder v)))) v))
  | VFlush now =>
      '(v, blk) ← flush v now;
      Some (mkVState v (waitingFor s) (assembled s ++ option_list blk) (pulled s) (dropped s))
  | VBatch =>
      '(v, batch) ← leader_batch v;
      Some (mkVState v (waitingFor s) (assembled s) (pulled s ++ batch) (dropped s))
  | VRole =>
      match waitingFor s with
      | Some _ => None
      | None =>
          '(v, w) ← role_beat v;
          Some (mkVState v w (assembled s) (pulled s) (dropped s))
      end
  | VWaitBeat =>
      slot ← waitingFor s;
      let '(over, v) := wait_beat v slot in
      Some (if over : bool then started s v else with_val s v)
  | VDeadline =>
      slot ← waitingFor s;
      Some (started s (wait_deadline v slot))
  | VMessage m =>
      '(_, n, out) ← handle m (net v);
      v ← callbacks (set_net n v) out;
      Some (with_val s v)
  | VBroadcast blk marshals published voted =>
      '(_, n, out) ← BroadcastBlockWithProcessing blk marshals published voted (net v);
      v ← callbacks (set_net n v) out;
      Some (with_val s v)
  end.

Fixpoint vrun (s : VState) (l : list vaction) : option VState :=
  match l with
  | [] => Some s
  | a :: l' => s ← vstep s a; vrun s l'
  end.

End Validator.

(** ** Frames of the recorder's operations *)

Section RecorderFrames.
Context `{TE : TxEnv}.

(** The fields other than the clock and the entries. *)
Definition rconfig (r : PohRecorder) : Z * Z * SlotHashQueue := (ticksPerSlot r, tickHeight r, slotHashQueue r).

(** The number of ticks of a list of entries. *)
Definition ticks (es : list Entry) : Z := Z.of_nat (length (filter (λ e, Tick e = true) es)).

Lemma ticks_app l1 l2 : ticks (l1 ++ l2) = ticks l1 + ticks l2.
Proof. unfold ticks. rewrite filter_app, length_app. lia. Qed.

Lemma ticks_nonneg l : 0 ≤ ticks l.
Proof. unfold ticks. lia. Qed.

Lemma ticks_last l e : ticks l = 0 → last l = Some e → Tick e = false.
Proof.
  intros Ht [l' ->]%last_Some. rewrite ticks_app in Ht. pose proof (ticks_nonneg l').
  unfold ticks in Ht at 2. rewrite filter_cons, filter_nil in Ht. case_decide as E; [simpl in Ht; lia|].
  by destruct (Tick e).
Qed.

Lemma RecordTxs_frame r txs res r' : RecordTxs r txs = (res, r') →
  rconfig r' = rconfig r ∧
  match res with
  | Ok e => entries r' = entries r ++ [e] ∧ Tick e = false ∧ Transactions e = txs
  | Err _ => entries r' = entries r
  end.
Proof.
  unfold RecordTxs. destruct (_ <? _); [by intros [= <- <-]|]. destruct (_ <=? _); [by intros [= <- <-]|].
  destruct (poh_Record _ _) as [[pe|] p']; [|by intros [= <- <-]].
  destruct (_ <? _); [by intros [= <- <-]|]. destruct (_ <? _); by intros [= <- <-].
Qed.

Lemma recorder_Tick_frame r h t r' : clock_at (poh r) h → recorder_Tick r = Some (t, r') →
  (∃ h', clock_at (poh r') h') ∧ entries r' = entries r ∧ ticksPerSlot r' = ticksPerSlot r ∧
  match t with
  | None => rconfig r' = rconfig r
  | Some e =>
      Tick e = true ∧ Transactions e = [] ∧ tickHeight r' = u64_add (tickHeight r) 1 ∧
      slotHashQueue r' =
        (if tickHeight r' mod ticksPerSlot r =? 0
         then queue_Put (slotHashQueue r) (tickHeight r' / ticksPerSlot r) (EHash e) else slotHashQueue r)
  end.
Proof.
  intros Hc. unfold recorder_Tick. destruct (poh_Tick (poh r)) as [[pe|] p'] eqn:ET.
  2: { unfold poh_Tick in ET. destruct (_ =? 1); [done|]. injection ET as <-. intros [= <- <-].
       split; [by exists h|done]. }
  destruct (clock_tick _ _ _ _ Hc ET) as (_ & Hn & _ & Hc').
  rewrite (proj2 (Z.ltb_ge MaxNumHashes (peNumHashes pe))) by lia.
  unfold IsLastTickOfSlot. cbn -[Z.modulo Z.div].
  destruct (ticksPerSlot r =? 0); [done|]. intros [= <- <-]. split; [by eexists|]. done.
Qed.

Lemma queue_put_get q slot hash : 1 < maxSize q < 2 ^ 64 → in_width 64 slot → 1 ≤ slot →
  queue_Get (queue_Put q slot hash) slot = Some hash ∧
  queue_Get (queue_Put q slot hash) (slot - 1) = queue_Get q (slot - 1) ∧
  maxSize (queue_Put q slot hash) = maxSize q.
Proof.
  intros Hm Hs H1. destruct (slot_queue_put q slot (slot - 1) hash) as (E1 & E2 & _); [lia|done|].
  split; [done|]. split; [|by unfold queue_Put; destruct (slotMap q !! slot)].
  apply E2; [lia|]. unfold u64_sub, wrap, in_width in *. intros E.
  destruct (Z.le_gt_cases (maxSize q) slot); [rewrite Z.mod_small in E; lia|].
  rewrite <- (Z.mod_add _ 1), Z.mod_small in E; lia.
Qed.

End RecorderFrames.

(** ** The leader's invariant *)

Section ValidatorCorrect.
Context `{TE : TxEnv, ZE : ZkEnv, VE : VoteEnv, SC : StoreCodec, CC : ContentCodec, DC : DedupCache}.

(** The slot of the clock, without the wrap-around. *)
Definition cur_slot (v : Validator) : Z := tickHeight (Recorder v) / ticksPerSlot (Recorder v) + 1.

Definition leads (v : Validator) (slot : Z) : bool := bool_decide (IsLeader v slot = Some true).
Definition leading (v : Validator) : bool := negb (leaderStartAtSlot v =? NoSlot).

(** The validator leads the current slot and has started to. *)
Definition active (v : Validator) : bool := leading v && leads v (cur_slot v).

Definition service_of (v : Validator) : Service := mkService (Recorder v) None (collectedEntries v).

(** The collected and the recorded entries lead from the hash of the previous
    slot to the clock, and the ticks among them are those of this slot. *)
Definition in_slot (v : Validator) : Prop :=
  ∃ seed, queue_Get (slotHashQueue (Recorder v)) (cur_slot v - 1) = Some seed ∧ in_step seed (service_of v) ∧
    ticks (collectedEntries v) = tickHeight (Recorder v) mod ticksPerSlot (Recorder v) ∧
    ticks (entries (Recorder v)) = 0.

Record vok (v : Validator) : Prop := {
  ok_tps : 2 ≤ ticksPerSlot (Recorder v) < 2 ^ 64;
  ok_height : in_width 64 (tickHeight (Recorder v));
  ok_batch : 0 < BatchSize v;
  ok_queue : 1 < maxSize (slotHashQueue (Recorder v)) < 2 ^ 64;
  ok_clock : ∃ h, clock_at (poh (Recorder v)) h;
  ok_active : active v = true → in_slot v;
  ok_idle : active v = false → collectedEntries v = [] ∧ entries (Recorder v) = [];
}.

(** What does not depend on the entries. *)
Record vbase (v : Validator) : Prop := {
  base_tps : 2 ≤ ticksPerSlot (Recorder v) < 2 ^ 64;
  base_height : in_width 64 (tickHeight (Recorder v));
  base_batch : 0 < BatchSize v;
  base_queue : 1 < maxSize (slotHashQueue (Recorder v)) < 2 ^ 64;
  base_clock : ∃ h, clock_at (poh (Recorder v)) h;
}.

Lemma vok_base v : vok v → vbase v.
Proof. intros []; by constructor. Qed.

(** What no action changes. *)
Definition vconfig (v : Validator) : string * string * LeaderSchedule * Z * Z :=
  (Pubkey v, PrivKey v, Schedule v, BatchSize v, ticksPerSlot (Recorder v)).

Lemma vconfig_leads v v' slot : vconfig v' = vconfig v → leads v' slot = leads v slot.
Proof. intros [= E1 _ E2 _ _]. unfold leads, IsLeader. by rewrite E1, E2. Qed.

Lemma height_split h t : in_width 64 h → 2 ≤ t →
  h = t * (h / t) + h mod t ∧ 0 ≤ h mod t < t ∧ 0 ≤ h / t ≤ h ∧ h / t < 2 ^ 63.
Proof.
  unfold in_width. intros Hh Ht.
  pose proof (Z.div_mod h t). pose proof (Z.mod_pos_bound h t). pose proof (Z.div_pos h t).
  split_and!; try lia; nia.
Qed.

Lemma CurrentSlot_eq v : in_width 64 (tickHeight (Recorder v)) → 2 ≤ ticksPerSlot (Recorder v) →
  CurrentSlot (Recorder v) = Some (cur_slot v) ∧ 1 ≤ cur_slot v < 2 ^ 64 - 1.
Proof.
  intros Hh Ht. destruct (height_split _ _ Hh Ht) as (_ & _ & H1 & H2). unfold CurrentSlot, cur_slot.
  rewrite (proj2 (Z.eqb_neq _ _)) by lia. unfold u64_add, wrap.
  rewrite Z.mod_small by lia. split; [done|lia].
Qed.

(** A reset of the clock, for a validator without entries. *)
Lemma vok_reset v seed slot : vbase v → collectedEntries v = [] → 0 ≤ slot →
  slot * ticksPerSlot (Recorder v) < 2 ^ 64 →
  vok (set_Recorder (recorder_Reset (Recorder v) seed slot) v) ∧
  cur_slot (set_Recorder (recorder_Reset (Recorder v) seed slot) v) = slot + 1.
Proof.
  intros [Ht Hh Hb Hq [h Hc]] He Hs Hw.
  assert (Hm : u64_mul slot (ticksPerSlot (Recorder v)) = slot * ticksPerSlot (Recorder v)).
  { unfold u64_mul, wrap. rewrite Z.mod_small; nia. }
  assert (Hcur : cur_slot (set_Recorder (recorder_Reset (Recorder v) seed slot) v) = slot + 1).
  { unfold cur_slot. simpl. rewrite Hm, Z.div_mul; lia. }
  destruct (slot_queue_put (slotHashQueue (Recorder v)) slot 0 seed) as (Hg & _);
    [lia|unfold in_width; nia|].
  split; [|done]. constructor; simpl; [done| |done| | | |done].
  - rewrite Hm. unfold in_width. nia.
  - unfold queue_Put. by destruct (slotMap _ !! _).
  - exists seed. destruct Hc. by split; simpl; [|lia|].
  - intros _. exists seed. rewrite Hcur. simpl. replace (slot + 1 - 1) with slot by lia.
    split; [done|]. unfold service_of. simpl. rewrite He. split; [|by rewrite Hm, Z.mod_mul by lia].
    apply in_step_init. by destruct Hc.
Qed.

(** What every assembled block satisfies. *)
Record good_block (v : Validator) (b : BroadcastedBlock) : Prop := {
  good_leader : leads v (bSlot (bb_core b)) = true ∧ LeaderID (bb_core b) = Pubkey v;
  good_signature : bSignature (bb_core b) = ed25519_Sign (PrivKey v) (bHash (bb_core b));
  good_hash : bHash (bb_core b) = computeHash b;
  good_replay : replay (PrevHash (bb_core b)) (bb_Entries b) = Some (bb_LastEntryHash b);
  good_bounds : Forall (λ e, 1 ≤ NumHashes e ≤ MaxNumHashes ∧
                  Z.of_nat (length (Transactions e)) ≤ MaxTransactionsPerEntry) (bb_Entries b);
  good_ticks : ticks (bb_Entries b) = ticksPerSlot (Recorder v);
}.

Definition txs_of (es : list Entry) : list (option Transaction) := concat (Transactions <$> es).

Lemma txs_of_app l1 l2 : txs_of (l1 ++ l2) = txs_of l1 ++ txs_of l2.
Proof. unfold txs_of. by rewrite fmap_app, concat_app. Qed.

(** The entries of the validator that are in no block yet. *)
Definition open_entries (v : Validator) : list Entry := collectedEntries v ++ entries (Recorder v).

(** The network afterwards differs in the faults of the storage only. *)
Definition net_read (n n' : Node) : Prop :=
  mp n' = mp n ∧ dedupCache n' = dedupCache n ∧ data (storage n') = data (storage n).

(** What a flush does. *)
Record flushed (v v' : Validator) (blk : option BroadcastedBlock) : Prop := {
  fl_ok : vok v';
  fl_config : vconfig v' = vconfig v ∧ leaderStartAtSlot v' = leaderStartAtSlot v ∧
              pendingTxs v' = pendingTxs v ∧ net_read (net v) (net v');
  fl_block :
    match blk with
    | None =>
        txs_of (open_entries v') = txs_of (open_entries v) ∧
        (active v = true → cur_slot v' = cur_slot v ∧
           queue_Get (slotHashQueue (Recorder v')) (cur_slot v - 1)
           = queue_Get (slotHashQueue (Recorder v)) (cur_slot v - 1))
    | Some b =>
        active v = true ∧ bSlot (bb_core b) = cur_slot v ∧ cur_slot v' = cur_slot v + 1 ∧ good_block v b ∧
        queue_Get (slotHashQueue (Recorder v)) (cur_slot v - 1) = Some (PrevHash (bb_core b)) ∧
        queue_Get (slotHashQueue (Recorder v')) (cur_slot v) = Some (bb_LastEntryHash b) ∧
        txs_of (bb_Entries b) = txs_of (open_entries v) ∧ open_entries v' = []
    end;
}.

Lemma net_read_refl n : net_read n n.
Proof. done. Qed.

Lemma reading_net_read {A} (m : ST A) d n : keeps eq m → net_read n (snd (reading m d n)).
Proof.
  intros Hm. unfold reading. specialize (Hm (storage n)). destruct (m (storage n)) as [[a|e] s]; done.
Qed.

(** The recorder after the drain and the tick of a flush. *)
Lemma flush_recorder v es r t r' : vok v → in_width 64 (tickHeight (Recorder v) + 1) →
  DrainEntries (Recorder v) = (es, r) → recorder_Tick r = Some (t, r') →
  es = entries (Recorder v) ∧ entries r' = [] ∧ ticksPerSlot r' = ticksPerSlot (Recorder v) ∧
  (∃ h, clock_at (poh r') h) ∧
  match t with
  | None => tickHeight r' = tickHeight (Recorder v) ∧ slotHashQueue r' = slotHashQueue (Recorder v)
  | Some e =>
      Tick e = true ∧ Transactions e = [] ∧ tickHeight r' = tickHeight (Recorder v) + 1 ∧
      slotHashQueue r' =
        (if tickHeight r' mod ticksPerSlot (Recorder v) =? 0
         then queue_Put (slotHashQueue (Recorder v)) (tickHeight r' / ticksPerSlot (Recorder v)) (EHash e)
         else slotHashQueue (Recorder v))
  end.
Proof.
  intros Hv Hw [= <- <-] Ht. destruct (ok_clock v Hv) as [h Hc].
  apply (recorder_Tick_frame _ h) in Ht as (Hc' & He & Htp & Hq); [|done]. split_and!; try done.
  destruct t as [e|]; [|by injection Hq].
  destruct Hq as (H1 & H2 & H3 & H4). split_and!; try done. rewrite H3.
  unfold u64_add. by apply wrap_small.
Qed.

(** The clock keeps pace with the entries when a leader flushes. *)
Lemma flush_in_step v seed es r t r' : in_step seed (service_of v) →
  DrainEntries (Recorder v) = (es, r) → recorder_Tick r = Some (t, r') →
  in_step seed (mkService r' None (collectedEntries v ++ match t with Some t => es ++ [t] | None => es end)).
Proof.
  intros Hi Hd Ht.
  assert (Hi' : in_step seed (mkService r (Some es) (collectedEntries v))).
  { apply (in_step_preserved seed (service_of v) ActDrain); [done|done|]. by injection Hd as <- <-. }
  by apply (in_step_tick seed _ es t r' Hi').
Qed.

Lemma leads_eq v slot : leads v slot = true ↔ IsLeader v slot = Some true.
Proof. unfold leads. by rewrite bool_decide_eq_true. Qed.

Lemma ReadyToStart_eq v slot b : ReadyToStart v slot = Some b → b = leads v slot && leading v.
Proof.
  unfold ReadyToStart, leads, leading. destruct (IsLeader v slot) as [[]|]; simpl; intros [= <-]; done.
Qed.

Lemma handleEntry_idle v es now v' blk : collectedEntries v = [] → leading v = false →
  handleEntry v es now = Some (v', blk) → v' = v ∧ blk = None.
Proof.
  intros He Hl. unfold handleEntry. destruct (CurrentSlot (Recorder v)) as [slot|]; [|done]. simpl.
  destruct (last es); [|done]. destruct (IsLastTickOfSlot _) as [lt|]; [|done]. simpl.
  destruct (if lt then _ else _) as [ll|]; [|done]. simpl.
  rewrite He, bool_decide_true, andb_false_r by done. destruct (IsLeader v slot) as [b|]; [|done]. simpl.
  destruct (ReadyToStart v slot) as [r|] eqn:Er; [|done]. simpl.
  apply ReadyToStart_eq in Er. rewrite Hl, andb_false_r in Er. subst r.
  rewrite andb_false_r. by intros [= <- <-].
Qed.

Lemma handleEntry_collect v es now v' blk e :
  in_width 64 (tickHeight (Recorder v)) → 2 ≤ ticksPerSlot (Recorder v) → active v = true →
  last es = Some e → (tickHeight (Recorder v) mod ticksPerSlot (Recorder v) = 0 → Tick e = false) →
  handleEntry v es now = Some (v', blk) → v' = set_collected (collectedEntries v ++ es) v ∧ blk = None.
Proof.
  intros Hh Ht Ha He Hk. unfold handleEntry.
  destruct (CurrentSlot_eq v Hh Ht) as [-> _]. simpl. rewrite He. simpl.
  unfold IsLastTickOfSlot. rewrite (proj2 (Z.eqb_neq _ _)) by lia. simpl.
  apply andb_true_iff in Ha as [Hl Hs]. apply leads_eq in Hs as Hs'.
  destruct (_ mod _ =? 0) eqn:Em.
  - destruct (IsLeader v (u64_sub _ 1)) as [ll|]; [|done]. simpl. rewrite Hk by blia.
    rewrite andb_false_r. unfold ReadyToStart. rewrite Hs'. simpl. unfold leading in Hl. rewrite Hl.
    by intros [= <- <-].
  - simpl. unfold ReadyToStart. rewrite Hs'. simpl. unfold leading in Hl. rewrite Hl. by intros [= <- <-].
Qed.

Lemma handleEntry_assemble v es now v' blk e :
  in_width 64 (tickHeight (Recorder v)) → 2 ≤ ticksPerSlot (Recorder v) → collectedEntries v ≠ [] →
  2 ≤ cur_slot v → leads v (cur_slot v - 1) = true → last es = Some e → Tick e = true →
  tickHeight (Recorder v) mod ticksPerSlot (Recorder v) = 0 →
  handleEntry v es now = Some (v', blk) →
  let b := AssembleBlock (cur_slot v - 1) (GetSlotHash (Recorder v) (cur_slot v - 1 - 1)) (Pubkey v)
             (collectedEntries v ++ es) now in
  v' = set_collected [] (set_net (net v') v) ∧ net_read (net v) (net v') ∧
  blk = Some (bb_Sign ed25519_Sign b (PrivKey v)).
Proof.
  intros Hh Ht Hc H2 Hl He Hk Hm. unfold handleEntry.
  destruct (CurrentSlot_eq v Hh Ht) as [-> Hb]. simpl. rewrite He. simpl.
  unfold IsLastTickOfSlot. rewrite (proj2 (Z.eqb_neq _ _)) by lia. simpl. rewrite Hm.
  assert (E1 : u64_sub (cur_slot v) 1 = cur_slot v - 1) by (unfold u64_sub; apply wrap_small; unfold in_width; lia).
  assert (E2 : u64_sub (cur_slot v - 1) 1 = cur_slot v - 1 - 1)
    by (unfold u64_sub; apply wrap_small; unfold in_width; lia).
  rewrite E1, E2. apply leads_eq in Hl. rewrite Hl. cbn -[AssembleBlock bb_Sign reading].
  rewrite Hk, bool_decide_false by done. cbn -[AssembleBlock bb_Sign reading].
  pose proof (reading_net_read (store_Block (cur_slot v - 1 - 1)) None (net v)) as Hr.
  destruct (reading _ _ _) as [o n]. intros [= <- <-]. simpl. split; [done|]. split; [|done].
  apply Hr, keeps_store_Block. apply _.
Qed.

Lemma active_not_leading v : leading v = false → active v = false.
Proof. unfold active. by intros ->. Qed.

Lemma flush_idle v now v' blk : vok v → active v = false → (leading v = true → leads v (cur_slot v) = true) →
  in_width 64 (tickHeight (Recorder v) + 1) → flush v now = Some (v', blk) → flushed v v' blk.
Proof.
  intros Hv Ha Hr Hw. destruct (ok_idle v Hv Ha) as [Hc He].
  assert (Hl : leading v = false).
  { destruct (leading v) eqn:El; [|done]. unfold active in Ha. by rewrite El, Hr in Ha. }
  unfold flush. destruct (DrainEntries (Recorder v)) as [es r] eqn:Ed.
  destruct (recorder_Tick r) as [[t r']|] eqn:Et; [|done].
  destruct (flush_recorder v es r t r' Hv Hw Ed Et) as (_ & Her & Htp & Hck & Ht).
  intros Hf. assert (v' = set_Recorder r' v ∧ blk = None) as [-> ->].
  { destruct (bool_decide _); [by injection Hf|]. by apply (handleEntry_idle _ _ _ _ _) in Hf. }
  assert (Ha' : active (set_Recorder r' v) = false) by (by apply active_not_leading).
  destruct Hv as [Ht1 Hh Hb Hq _ _ _]. split.
  - constructor; simpl; rewrite ?Htp; try done.
    + destruct t; [destruct Ht as (_ & _ & -> & _)|destruct Ht as [-> _]]; done.
    + destruct t as [e|]; [destruct Ht as (_ & _ & _ & ->)|by destruct Ht as [_ ->]].
      destruct (_ =? _); [|done]. unfold queue_Put. by destruct (slotMap _ !! _).
    + by rewrite Ha'.
  - split; [|done]. unfold vconfig. simpl. by rewrite Htp.
  - unfold open_entries. simpl. rewrite Hc, He, Her. by split; [|rewrite Ha].
Qed.

Lemma succ_div_mod h p : 0 ≤ h → 2 ≤ p →
  if (h + 1) mod p =? 0 then (h + 1) / p = h / p + 1 ∧ h mod p = p - 1
  else (h + 1) / p = h / p ∧ (h + 1) mod p = h mod p + 1.
Proof.
  intros Hh Hp. pose proof (Z.div_mod h p). pose proof (Z.mod_pos_bound h p).
  destruct (Z.eq_dec (h mod p + 1) p) as [E|].
  - assert (E1 : h + 1 = (h / p + 1) * p) by lia.
    rewrite E1, Z.mod_mul, Z.div_mul by lia. split; lia.
  - assert (E1 : (h + 1) mod p = h mod p + 1) by (symmetry; apply (Z.mod_unique _ _ (h / p)); lia).
    rewrite E1, (proj2 (Z.eqb_neq _ _)) by lia.
    split; [|done]. symmetry. apply (Z.div_unique _ _ _ (h mod p + 1)); lia.
Qed.

(** A flush that closes no slot adds its entries to the collected ones. *)
Lemma flush_collects v es r t r' : vok v → active v = true → in_width 64 (tickHeight (Recorder v) + 1) →
  DrainEntries (Recorder v) = (es, r) → recorder_Tick r = Some (t, r') →
  (is_Some t → tickHeight r' mod ticksPerSlot r' ≠ 0) →
  let es' := match t with Some t => es ++ [t] | None => es end in
  flushed v (set_collected (collectedEntries v ++ es') (set_Recorder r' v)) None.
Proof.
  intros Hv Ha Hw Ed Et Hm es'.
  destruct (flush_recorder v es r t r' Hv Hw Ed Et) as (Ees & Her & Htp & Hck & Ht).
  destruct (ok_active v Hv Ha) as (seed & Hs & Hi & Hk & Hk').
  pose proof (flush_in_step v seed es r t r' Hi Ed Et) as Hi'. fold es' in Hi'.
  destruct Hv as [Ht1 Hh Hb Hq _ _ _].
  set (h := tickHeight (Recorder v)) in *. set (p := ticksPerSlot (Recorder v)) in *.
  assert (Hh' : in_width 64 (tickHeight r') ∧ slotHashQueue r' = slotHashQueue (Recorder v) ∧
                tickHeight r' / p = h / p ∧ tickHeight r' mod p = ticks (collectedEntries v ++ es')).
  { rewrite ticks_app, Hk. unfold es'. destruct t as [e|].
    - destruct Ht as (Ht2 & _ & Ht3 & Hq'). rewrite Htp, Ht3 in Hm. rewrite Ht3 in *.
      pose proof (succ_div_mod h p) as Hsd. rewrite (proj2 (Z.eqb_neq _ _)) in Hq', Hsd by (apply Hm; eauto).
      destruct Hsd as [Hsd1 Hsd2]; [unfold in_width in Hh; lia..|].
      split_and!; try done. rewrite Hsd2, ticks_app, Ees, Hk'. unfold ticks. by rewrite filter_cons_True.
    - destruct Ht as [-> ->]. split_and!; try done. rewrite Ees, Hk'. lia. }
  destruct Hh' as (Hw' & Hq' & Hdv & Hmd).
  set (v' := set_collected _ _).
  assert (Hcfg : vconfig v' = vconfig v) by (unfold vconfig; simpl; by rewrite Htp).
  assert (Hcur : cur_slot v' = cur_slot v) by (unfold cur_slot; simpl; by rewrite Htp, Hdv).
  assert (Ha' : active v' = true).
  { unfold active. rewrite Hcur, (vconfig_leads _ _ _ Hcfg). exact Ha. }
  split.
  - constructor; simpl; rewrite ?Htp, ?Hq', ?Ha'; try done. intros _. exists seed. rewrite Hcur. simpl.
    rewrite Hq', Htp, Her. done.
  - by rewrite Hcfg.
  - unfold open_entries. simpl. rewrite Her, app_nil_r. split.
    + rewrite !txs_of_app. f_equal. unfold es'. destruct t as [e|]; [|by rewrite Ees].
      destruct Ht as (_ & Htx & _). rewrite txs_of_app, Ees. unfold txs_of at 2. simpl. rewrite Htx. by rewrite app_nil_r.
    + by rewrite Hcur, Hq'.
Qed.

Lemma replay_last c l e h : replay c (l ++ [e]) = Some h → h = EHash e.
Proof.
  rewrite replay_app. destruct (replay c l); [|done]. simpl. case_bool_decide; [|done]. by intros [= <-].
Qed.

(** The recorder, the collected entries and the new ones when a flush has
    closed an own slot. *)
Record closing (v : Validator) (es : list Entry) (t : Entry) (r' : PohRecorder) (seed : string) : Prop := {
  cl_drained : es = entries (Recorder v) ∧ entries r' = [] ∧ Transactions t = [] ∧ Tick t = true;
  cl_height : ticksPerSlot r' = ticksPerSlot (Recorder v) ∧ tickHeight r' = tickHeight (Recorder v) + 1 ∧
              tickHeight r' mod ticksPerSlot r' = 0 ∧ cur_slot (set_Recorder r' v) = cur_slot v + 1;
  cl_seed : queue_Get (slotHashQueue (Recorder v)) (cur_slot v - 1) = Some seed;
  cl_queue : queue_Get (slotHashQueue r') (cur_slot v) = Some (EHash t) ∧
             GetSlotHash r' (cur_slot v - 1) = seed ∧
             maxSize (slotHashQueue r') = maxSize (slotHashQueue (Recorder v));
  cl_collected : collectedEntries v ≠ [] ∧
                 ticks (collectedEntries v ++ es ++ [t]) = ticksPerSlot (Recorder v);
  cl_clock : clock_at (poh r') (EHash t);
  cl_replay : replay seed (collectedEntries v ++ es ++ [t]) = Some (EHash t);
  cl_bounds : Forall (λ e, 1 ≤ NumHashes e ≤ MaxNumHashes ∧
                Z.of_nat (length (Transactions e)) ≤ MaxTransactionsPerEntry) (collectedEntries v ++ es ++ [t]);
}.

Lemma flush_closing v es r t r' : vok v → active v = true → in_width 64 (tickHeight (Recorder v) + 1) →
  DrainEntries (Recorder v) = (es, r) → recorder_Tick r = Some (Some t, r') →
  tickHeight r' mod ticksPerSlot r' = 0 → ∃ seed, closing v es t r' seed.
Proof.
  intros Hv Ha Hw Ed Et Hm.
  destruct (flush_recorder v es r _ r' Hv Hw Ed Et) as (Ees & Her & Htp & Hck & Ht2 & Htx & Hth & Hq').
  destruct (ok_active v Hv Ha) as (seed & Hs & Hi & Hk & Hk').
  destruct (flush_in_step v seed es r _ r' Hi Ed Et) as (_ & Hbd & h & Hrp & Hch).
  unfold all_entries in Hbd, Hrp. simpl in Hbd, Hrp, Hch.
  rewrite Her, app_nil_r in Hbd, Hrp. rewrite app_assoc in Hrp.
  pose proof (replay_last _ _ _ _ Hrp) as ->. rewrite <- app_assoc in Hrp.
  destruct (CurrentSlot_eq v (ok_height v Hv) (proj1 (ok_tps v Hv))) as [_ Hcb].
  destruct Hv as [Ht1 Hh Hb Hq _ _ _]. pose proof Hm as Hm'. rewrite Htp, Hth in Hm. rewrite Hth in Hq'.
  pose proof (succ_div_mod (tickHeight (Recorder v)) (ticksPerSlot (Recorder v))) as Hsd.
  rewrite Hm in Hq', Hsd. simpl in Hq', Hsd. destruct Hsd as [Hsd1 Hsd2]; [unfold in_width in Hh; lia..|].
  rewrite Hsd1 in Hq'. change (tickHeight (Recorder v) / ticksPerSlot (Recorder v) + 1) with (cur_slot v) in Hq'.
  destruct (queue_put_get (slotHashQueue (Recorder v)) (cur_slot v) (EHash t) Hq) as (Hg1 & Hg2 & Hg3);
    [unfold in_width; lia|lia|].
  rewrite <- Hq' in Hg1, Hg2, Hg3. exists seed. constructor; try done.
  - split_and!; try done. unfold cur_slot. simpl. rewrite Htp, Hth. lia.
  - split_and!; try done. unfold GetSlotHash. by rewrite Hg2, Hs.
  - rewrite !ticks_app, Hk, Ees, Hk'. unfold ticks. rewrite filter_cons_True by done. simpl. split; [|lia].
    intros E. rewrite E in Hk. unfold ticks in Hk. simpl in Hk. lia.
Qed.

(** The block of a closed slot. *)
Definition closed_block (v : Validator) (es : list Entry) (seed : string) (now : Z) : BroadcastedBlock :=
  bb_Sign ed25519_Sign (AssembleBlock (cur_slot v) seed (Pubkey v) (collectedEntries v ++ es) now) (PrivKey v).

Lemma closed_block_good v es t r' seed now : closing v es t r' seed → leads v (cur_slot v) = true →
  good_block v (closed_block v (es ++ [t]) seed now) ∧
  bb_LastEntryHash (closed_block v (es ++ [t]) seed now) = EHash t ∧
  txs_of (collectedEntries v ++ es ++ [t]) = txs_of (open_entries v).
Proof.
  intros [(Ees & _ & Htx & _) _ _ _ [_ Hk] _ Hrp Hbd] Hl.
  assert (Hlast : bb_LastEntryHash (closed_block v (es ++ [t]) seed now) = EHash t).
  { unfold bb_LastEntryHash, closed_block. simpl. by rewrite app_assoc, last_snoc. }
  split; [|split; [done|]].
  - constructor; rewrite ?Hlast; done.
  - unfold open_entries. rewrite !txs_of_app, Ees. unfold txs_of at 3. simpl. by rewrite Htx, app_nil_r.
Qed.

(** The flush of the last tick of an own slot assembles its block. *)
Lemma flush_assembles v now es r t r' v' blk : vok v → active v = true →
  in_width 64 (tickHeight (Recorder v) + 1) →
  DrainEntries (Recorder v) = (es, r) → recorder_Tick r = Some (Some t, r') →
  tickHeight r' mod ticksPerSlot r' = 0 →
  handleEntry (set_Recorder r' v) (es ++ [t]) now = Some (v', blk) → flushed v v' blk.
Proof.
  intros Hv Ha Hw Ed Et Hm Hf. destruct (flush_closing v es r t r' Hv Ha Hw Ed Et Hm) as [seed Hcl].
  assert (Hld : leading v = true ∧ leads v (cur_slot v) = true) by (by apply andb_true_iff).
  destruct (closed_block_good v es t r' seed now Hcl (proj2 Hld)) as (Hgood & Hlast & Htxs).
  destruct (CurrentSlot_eq v (ok_height v Hv) (proj1 (ok_tps v Hv))) as [_ Hcb].
  destruct Hcl as [(_ & Her & _ & Htk) (Htp & Hth & _ & Hcur) Hs (Hg1 & Hsh & Hg3) [Hcne _] Hck _ _].
  destruct Hv as [Ht1 Hh Hb Hq _ _ _].
  assert (Hcfg : vconfig (set_Recorder r' v) = vconfig v) by (unfold vconfig; simpl; by rewrite Htp).
  replace (cur_slot v) with (cur_slot (set_Recorder r' v) - 1) in Hld by lia.
  apply (handleEntry_assemble _ _ _ _ _ t) in Hf as (Ev & Hn & ->);
    [|by (simpl; rewrite ?Hth, ?Htp; try lia)..|done|lia
     |by rewrite (vconfig_leads v _ _ Hcfg); apply Hld|by apply last_snoc|done|done].
  rewrite Hcur in *. replace (cur_slot v + 1 - 1) with (cur_slot v) in * by lia.
  cbn [Recorder Pubkey PrivKey collectedEntries set_Recorder]. rewrite Hsh. fold (closed_block v (es ++ [t]) seed now).
  assert (Hcur' : cur_slot v' = cur_slot v + 1) by (rewrite <- Hcur, Ev; done).
  split.
  - constructor; [by rewrite Ev; simpl; rewrite Htp|by rewrite Ev; simpl; rewrite Hth|by rewrite Ev
      |by rewrite Ev; simpl; rewrite Hg3|rewrite Ev; simpl; by eexists| |by rewrite Ev].
    intros _. exists (EHash t). rewrite Hcur'. replace (cur_slot v + 1 - 1) with (cur_slot v) by lia.
    rewrite Ev. simpl. rewrite Hg1, Her, Hm. split_and!; try done.
    unfold in_step, all_entries, service_of. simpl. rewrite Her. split; [done|]. split; [constructor|].
    by exists (EHash t).
  - rewrite Ev. by rewrite <- Hcfg.
  - rewrite Hlast. split_and!; try done.
    + by rewrite Ev.
    + rewrite Ev. unfold open_entries. simpl. by rewrite Her.
Qed.

Lemma vok_flush v now v' blk : vok v → (leading v = true → leads v (cur_slot v) = true) →
  in_width 64 (tickHeight (Recorder v) + 1) → flush v now = Some (v', blk) → flushed v v' blk.
Proof.
  intros Hv Hr Hw Hf. destruct (active v) eqn:Ha; [|by apply (flush_idle v now)].
  unfold flush in Hf. destruct (DrainEntries (Recorder v)) as [es r] eqn:Ed.
  destruct (recorder_Tick r) as [[t r']|] eqn:Et; [|done].
  pose proof (flush_collects v es r t r' Hv Ha Hw Ed Et) as Hc. cbv zeta in Hc.
  destruct (flush_recorder v es r _ r' Hv Hw Ed Et) as (Ees & Her & Htp & Hck & Ht).
  destruct t as [t|].
  - rewrite bool_decide_false in Hf by (by destruct es). destruct Ht as (Htk & _ & Hth & _).
    destruct (Z.eq_dec (tickHeight r' mod ticksPerSlot r') 0) as [Em|Em];
      [by apply (flush_assembles v now es r t r')|].
    apply (handleEntry_collect _ _ _ _ _ t) in Hf as [-> ->]; [by apply Hc| | | |by apply last_snoc|done].
    + by simpl; rewrite Hth.
    + simpl. rewrite Htp. apply Hv.
    + destruct (Hc (λ _, Em)) as [_ [Hcfg _] [_ Hb]]. destruct (Hb Ha) as [Hcur _].
      unfold active in *. rewrite (vconfig_leads v) by (by injection Hcfg).
      by rewrite <- Hcur in Ha.
  - destruct Ht as [Hth Hq]. assert (Hn : is_Some (@None Entry) → tickHeight r' mod ticksPerSlot r' ≠ 0) by by intros [? ?].
    specialize (Hc Hn). destruct (decide (es = [])) as [->|Hne].
    { rewrite bool_decide_true in Hf by done. injection Hf as <- <-.
      by rewrite app_nil_r in Hc. }
    rewrite bool_decide_false in Hf by done. destruct (last es) as [e|] eqn:El; [|by apply last_None in El].
    apply (handleEntry_collect _ _ _ _ _ e) in Hf as [-> ->]; [done|..]; simpl; rewrite ?Hth, ?Htp; try apply Hv.
    + unfold active, cur_slot, leads, IsLeader in *. simpl. by rewrite Hth, Htp.
    + done.
    + intros _. destruct (ok_active v Hv Ha) as (_ & _ & _ & _ & Hk). rewrite <- Ees in Hk. by apply (ticks_last es).
Qed.

Lemma vok_record v l r res : vok v → active v = true → l ≠ [] →
  RecordTxs (Recorder v) (Some <$> l) = (res, r) → vok (set_Recorder r v) ∧ active (set_Recorder r v) = true.
Proof.
  intros Hv Ha Hl Hr. destruct (RecordTxs_frame _ _ _ _ Hr) as ([= Htp Hth Hq] & He).
  destruct (ok_active v Hv Ha) as (seed & Hs & Hi & Hk & Hk').
  pose proof (in_step_record seed (service_of v) (Some <$> l) Hi eq_refl) as Hi'. simpl in Hi'. rewrite Hr in Hi'.
  assert (Ha' : active (set_Recorder r v) = true).
  { unfold active, cur_slot, leads, IsLeader in *. simpl. by rewrite Hth, Htp. }
  assert (Hl' : Some <$> l ≠ []) by by destruct l.
  split; [|done]. destruct Hv as [Ht1 Hh Hb Hq1 _ _ _].
  constructor; simpl; rewrite ?Htp, ?Hth, ?Hq, ?Ha'; try done.
  - destruct (Hi' Hl') as (_ & _ & h & _ & Hc). by exists h.
  - intros _. exists seed. unfold in_slot, cur_slot in *. simpl. rewrite Htp, Hth, Hq. split_and!; [done|by apply Hi'|done|].
    destruct res as [e|]; [destruct He as (-> & Ht & _)|by rewrite He].
    rewrite ticks_app, Hk'. unfold ticks. by rewrite filter_cons_False by (by rewrite Ht).
Qed.

Lemma vok_set_pending v l : vok v → vok (set_pending l v).
Proof. intros []; by constructor. Qed.
Lemma vok_set_net v n : vok v → vok (set_net n v).
Proof. intros []; by constructor. Qed.

(** What a beat of the batch loop does: the transactions that are recorded and
    pending afterwards are those from before and the batch, in order. *)
Record batched (v v' : Validator) (batch : list Transaction) : Prop := {
  bt_ok : vok v';
  bt_config : vconfig v' = vconfig v ∧ leaderStartAtSlot v' = leaderStartAtSlot v ∧
              collectedEntries v' = collectedEntries v ∧ rconfig (Recorder v') = rconfig (Recorder v);
  bt_pool : (batch = [] ∧ net v' = net v) ∨
            ∃ m c, PullBatch (mp (net v)) (dedupCache (net v)) (BatchSize v) = Some (m, c, batch) ∧
                   net v' = set_dedup c (set_mp m (net v));
  bt_txs : txs_of (entries (Recorder v')) ++ (Some <$> pendingTxs v')
           = txs_of (entries (Recorder v)) ++ (Some <$> pendingTxs v) ++ (Some <$> batch);
}.

Lemma batched_nothing v : vok v → batched v v [].
Proof. intros Hv. constructor; [done|done|by left|by rewrite app_nil_r]. Qed.

Lemma dropPendingTxs_eq v n : dropPendingTxs v n = set_pending (drop n (pendingTxs v)) v.
Proof.
  unfold dropPendingTxs. destruct (_ <=? _)%nat eqn:E; [|done]. apply Nat.leb_le in E. by rewrite drop_ge.
Qed.

Lemma peek_spec v o : 0 < BatchSize v → peekPendingTxs v (BatchSize v) = Some o →
  match o with
  | None => pendingTxs v = []
  | Some l => l ≠ [] ∧ pendingTxs v = l ++ drop (length l) (pendingTxs v)
  end.
Proof.
  intros Hb. unfold peekPendingTxs. case_bool_decide as E; [by intros [= <-]|].
  set (size := if _ <? BatchSize v then _ else _).
  assert (Hs : 0 < size ≤ Z.of_nat (length (pendingTxs v))).
  { unfold size. destruct (pendingTxs v); [done|]. destruct (_ <? _) eqn:E'; simpl length in *; zify_bool; lia. }
  rewrite (proj2 (Z.ltb_ge _ _)) by lia. intros [= <-].
  split.
  - intros E'. apply (f_equal length) in E'. rewrite length_take in E'. simpl in E'. lia.
  - rewrite length_take, Nat.min_l by lia. by rewrite take_drop.
Qed.

Lemma vok_batch v v' batch : vok v → leader_batch v = Some (v', batch) → batched v v' batch.
Proof.
  intros Hv. unfold leader_batch.
  destruct (CurrentSlot_eq v (ok_height v Hv) (proj1 (ok_tps v Hv))) as [-> _]. simpl.
  destruct (IsLeader v (cur_slot v)) as [[]|] eqn:El; simpl; [| |done].
  2: { intros [= <- <-]. by apply batched_nothing. }
  destruct (ReadyToStart v (cur_slot v)) as [rd|] eqn:Er; [|done]. simpl.
  apply ReadyToStart_eq in Er. destruct rd; simpl; [|intros [= <- <-]; by apply batched_nothing].
  assert (Ha : active v = true) by (unfold active; by rewrite andb_comm).
  destruct (PullBatch _ _ _) as [[[m c] b]|] eqn:Ep; [|done].
  set (v1 := set_net _ _). assert (Hv1 : vok v1) by by apply vok_set_net.
  destruct (bool_decide (b = []) && _) eqn:Eb.
  { apply andb_true_iff in Eb as [Eb _]. apply bool_decide_eq_true in Eb. intros [= <- <-].
    constructor; [done|done|by right; exists m, c|]. rewrite Eb. by rewrite app_nil_r. }
  clear Eb. set (v2 := set_pending _ v1).
  assert (Hv2 : vok v2) by by apply vok_set_pending.
  destruct (peekPendingTxs v2 _) as [o|] eqn:Eo; [|done]. simpl.
  apply (peek_spec v2) in Eo; [|apply Hv]. destruct o as [l|].
  2: { intros [= <- <-]. constructor; [done|done|by right; exists m, c|]. simpl. by rewrite <- fmap_app. }
  destruct Eo as [Hl Hp]. simpl.
  destruct (RecordTxs (Recorder v) (Some <$> l)) as [res r] eqn:ER.
  assert (Hok : vok (set_Recorder r v2)) by (apply (vok_record v2 l r res); done).
  destruct (RecordTxs_frame _ _ _ _ ER) as (Hc & He). injection Hc as Hc1 Hc2 Hc3.
  destruct res as [e|er]; intros [= <- <-].
  - rewrite dropPendingTxs_eq. constructor; [by apply vok_set_pending| |by right; exists m, c|].
    + unfold vconfig, rconfig. simpl. by rewrite Hc1, Hc2, Hc3.
    + destruct He as (He & _ & Htx). simpl. rewrite He, txs_of_app. unfold txs_of at 2. simpl.
      rewrite Htx, app_nil_r, <- app_assoc. f_equal. rewrite <- !fmap_app. f_equal. by symmetry.
  - constructor; [done| |by right; exists m, c|].
    + unfold vconfig, rconfig. simpl. by rewrite Hc1, Hc2, Hc3.
    + simpl. by rewrite He, <- fmap_app.
Qed.

(** ** The other actions *)

Lemma base_fast_forward v seen from to b v' : vbase v → fastForwardTicks v seen from to = (b, v') →
  vbase v' ∧ vconfig v' = vconfig v ∧ v' = set_Recorder (Recorder v') v.
Proof.
  intros [Ht Hh Hb Hq [h Hc]]. unfold fastForwardTicks, FastForward. cbn -[hash_iter].
  intros [= <- <-]. split; [|done]. constructor; simpl; try done. eexists. split; simpl; [by destruct Hc|destruct Hc; lia|].
  by unfold hash_iter.
Qed.

Lemma base_set_net v n : vbase v → vbase (set_net n v).
Proof. intros []; by constructor. Qed.

(** What the end of the wait does, from an idle validator. *)
Record restarted (v v' : Validator) (slot : Z) : Prop := {
  rs_ok : vok v';
  rs_config : vconfig v' = vconfig v;
  rs_open : open_entries v' = [] ∧ pendingTxs v' = [];
  rs_slot : cur_slot v' = slot ∧ leaderStartAtSlot v' = slot;
  rs_net : net_read (net v) (net v');
}.

Lemma start_leading_restarts v seed slot : vbase v → 1 ≤ slot < 2 ^ 64 →
  (slot - 1) * ticksPerSlot (Recorder v) < 2 ^ 64 → restarted v (start_leading v seed slot) slot.
Proof.
  intros Hv Hs Hw. unfold start_leading.
  assert (E : u64_sub slot 1 = slot - 1) by (unfold u64_sub; apply wrap_small; unfold in_width; lia).
  rewrite E. set (v0 := set_leaderStart slot (set_pending [] (set_collected [] v))).
  destruct (vok_reset v0 seed (slot - 1)) as [Hok Hc]; [by destruct Hv; constructor|done|lia|done|].
  replace (slot - 1 + 1) with slot in Hc by lia. by constructor.
Qed.

Lemma restarted_from v v0 v' slot : vconfig v0 = vconfig v → net_read (net v) (net v0) →
  restarted v0 v' slot → restarted v v' slot.
Proof.
  intros Hc (N1 & N2 & N3) [H1 H2 H3 H4 (N4 & N5 & N6)]. constructor; try done; [by rewrite H2|].
  unfold net_read. by rewrite N4, N5, N6.
Qed.

Lemma LastEntryInfo_reads slot : keeps eq (LastEntryInfoAtSlot slot).
Proof.
  unfold LastEntryInfoAtSlot. apply keeps_bind; [apply _|apply keeps_store_Block, _|].
  intros. apply keeps_ret, _.
Qed.

Lemma wait_deadline_restarts v slot : vbase v → 1 ≤ slot < 2 ^ 64 →
  (slot - 1) * ticksPerSlot (Recorder v) < 2 ^ 64 → restarted v (wait_deadline v slot) slot.
Proof.
  intros Hv Hs Hw. unfold wait_deadline. destruct (GetSlotHashFromQueue _ _) as [h|].
  - destruct (fastForwardTicks v h _ _) as [b v1] eqn:E.
    destruct (base_fast_forward _ _ _ _ _ _ Hv E) as (Hv1 & Hc & Ev).
    apply (restarted_from v v1); [done|by rewrite Ev|]. apply start_leading_restarts; [done|done|].
    injection Hc as _ _ _ _ ->. done.
  - pose proof (reading_net_read (LastEntryInfoAtSlot (GetLatestStoreSlot (storage (net v)))) None (net v)) as Hr.
    destruct (reading _ _ _) as [o n]. simpl in Hr.
    destruct (fastForwardTicks (set_net n v) _ _ _) as [b v1] eqn:E.
    destruct (base_fast_forward _ _ _ _ _ _ (base_set_net v n Hv) E) as (Hv1 & Hc & Ev).
    apply (restarted_from v v1); [done| |apply start_leading_restarts; [done|done|]].
    + rewrite Ev. apply Hr, LastEntryInfo_reads.
    + injection Hc as _ _ _ _ ->. done.
Qed.

Lemma wait_beat_restarts v slot over v' : vok v → 1 ≤ slot < 2 ^ 64 →
  (slot - 1) * ticksPerSlot (Recorder v) < 2 ^ 64 → wait_beat v slot = (over, v') →
  if over then restarted v v' slot else v' = set_net (net v') v ∧ net_read (net v) (net v').
Proof.
  intros Hv Hs Hw. unfold wait_beat.
  pose proof (reading_net_read (HasCompleteBlock (u64_sub slot 1)) false (net v) (HasCompleteBlock_reads _)) as Hr.
  destruct (reading (HasCompleteBlock _) _ _) as [has n]. simpl in Hr.
  destruct has; [|by intros [= <- <-]].
  pose proof (reading_net_read (LastEntryInfoAtSlot (u64_sub slot 1)) None n (LastEntryInfo_reads _)) as Hr'.
  destruct (reading (LastEntryInfoAtSlot _) _ _) as [o n']. simpl in Hr'. intros [= <- <-].
  apply (restarted_from v (set_net n' v)); [done| |].
  - destruct Hr as (R1 & R2 & R3), Hr' as (R4 & R5 & R6). unfold net_read. simpl. by rewrite R4, R5, R6.
  - by apply start_leading_restarts; [apply base_set_net, vok_base|..].
Qed.

Lemma vok_hash v : vok v →
  vok (set_Recorder (with_poh (Recorder v) (AutoHash_beat (poh (Recorder v)))) v).
Proof.
  intros [Ht Hh Hb Hq [h Hc] Ha Hi]. constructor; simpl; try done.
  - exists h. by apply clock_autohash.
  - intros Ha'. destruct (Ha Ha') as (seed & H1 & H2 & H3). exists seed. split; [done|]. split; [|done].
    by apply (in_step_preserved seed (service_of v) ActAutoHash).
Qed.

Lemma vok_end v : vok v → active v = false → vok (onLeaderSlotEnd v).
Proof.
  intros [Ht Hh Hb Hq Hc Ha Hi] E. constructor; try done. intros _. by apply Hi.
Qed.

(** The resets the network may ask for: their ticks fit into 64 bits, and none is
    forced on an active leader. *)
Fixpoint resets_ok (v : Validator) (l : list Effect) : Prop :=
  match l with
  | [] => True
  | e :: l' =>
      match e with
      | SyncPohFromLeader _ slot => 0 ≤ slot ∧ slot * ticksPerSlot (Recorder v) < 2 ^ 64
      | ForceResetPOH _ slot => active v = false ∧ 0 ≤ slot ∧ slot * ticksPerSlot (Recorder v) < 2 ^ 64
      | _ => True
      end ∧ ∀ v', callback v e = Some v' → resets_ok v' l'
  end.

(** What the callbacks do: nothing to an active leader, and only resets
    otherwise. *)
Record reset_by (v v' : Validator) : Prop := {
  rb_ok : vok v';
  rb_config : vconfig v' = vconfig v ∧ leaderStartAtSlot v' = leaderStartAtSlot v ∧
              pendingTxs v' = pendingTxs v ∧ net v' = net v;
  rb_active : active v = true → v' = v;
  rb_open : open_entries v' = open_entries v;
}.

Lemma reset_by_refl v : vok v → reset_by v v.
Proof. by constructor. Qed.

Lemma reset_by_reset v seed slot : vok v → active v = false → 0 ≤ slot →
  slot * ticksPerSlot (Recorder v) < 2 ^ 64 →
  reset_by v (set_Recorder (recorder_Reset (Recorder v) seed slot) v).
Proof.
  intros Hv Ha Hs Hw. destruct (ok_idle v Hv Ha) as [Hc He].
  constructor; [by apply vok_reset; [apply vok_base|..]|done|by rewrite Ha|].
  unfold open_entries. simpl. by rewrite Hc, He.
Qed.

Lemma callback_resets v e v' : vok v → resets_ok v [e] → callback v e = Some v' → reset_by v v'.
Proof.
  intros Hv [Hr _]. destruct e as [h slot|h slot| | | | |]; simpl; try (intros [= <-]; by apply reset_by_refl).
  2: { intros [= <-]. destruct Hr as (Ha & Hs & Hw). by apply reset_by_reset. }
  unfold handleResetPohFromLeader.
  destruct (CurrentSlot_eq v (ok_height v Hv) (proj1 (ok_tps v Hv))) as [-> _]. simpl. unfold IsFollower.
  destruct (IsLeader v (cur_slot v)) as [[]|] eqn:El; simpl; [intros [= <-]; by apply reset_by_refl| |done].
  destruct (IsLeader v slot) as [[]|]; simpl; [intros [= <-]; by apply reset_by_refl| |done].
  intros [= <-]. apply reset_by_reset; [done| |apply Hr..].
  unfold active, leads. rewrite El. by rewrite andb_false_r.
Qed.

Lemma callbacks_reset v l v' : vok v → resets_ok v l → callbacks v l = Some v' → reset_by v v'.
Proof.
  revert v. induction l as [|e l IH]; intros v Hv Hr; [intros [= <-]; by apply reset_by_refl|]. cbn [callbacks].
  destruct (callback v e) as [v1|] eqn:E; [|done]. simpl. intros Hc. destruct Hr as [Hr Hr'].
  assert (H1 : reset_by v v1) by (apply (callback_resets v e v1); [done|by split|done]).
  specialize (IH v1 (rb_ok _ _ H1) (Hr' _ E) Hc). destruct H1 as [A1 (A2 & A3 & A4 & A5) A6 A7].
  destruct IH as [B1 (B2 & B3 & B4 & B5) B6 B7]. constructor; [done| | |by rewrite B7].
  - by rewrite B2, B3, B4, B5.
  - intros Ha. rewrite (A6 Ha) in *. by rewrite B6.
Qed.

(** ** The invariant of the goroutines together *)

(** In consecutive own slots the blocks follow each other without a gap. *)
Definition linked (v : Validator) (b1 b2 : BroadcastedBlock) : Prop :=
  leads v (bSlot (bb_core b1) + 1) = true →
  bSlot (bb_core b2) = bSlot (bb_core b1) + 1 ∧ PrevHash (bb_core b2) = bb_LastEntryHash b1.

Definition chained (v : Validator) (l : list BroadcastedBlock) : Prop :=
  ∀ i b1 b2, l !! i = Some b1 → l !! S i = Some b2 → linked v b1 b2.

Definition block_pointers (l : list BroadcastedBlock) : list (option Transaction) :=
  concat (txs_of ∘ bb_Entries <$> l).

Record vinv (s : VState) : Prop := {
  vi_ok : vok (val s);
  vi_wait slot : waitingFor s = Some slot →
    leading (val s) = false ∧ leads (val s) slot = true ∧ 1 ≤ slot < 2 ^ 64 - 1 ∧
    (slot - 1) * ticksPerSlot (Recorder (val s)) < 2 ^ 64;
  vi_good : Forall (good_block (val s)) (assembled s);
  vi_last b : last (assembled s) = Some b → leads (val s) (bSlot (bb_core b) + 1) = true →
    cur_slot (val s) = bSlot (bb_core b) + 1 ∧ leading (val s) = true ∧
    queue_Get (slotHashQueue (Recorder (val s))) (bSlot (bb_core b)) = Some (bb_LastEntryHash b);
  vi_chain : chained (val s) (assembled s);
  vi_txs : Some <$> pulled s ≡ₚ block_pointers (assembled s) ++ txs_of (open_entries (val s)) ++
             (Some <$> pendingTxs (val s)) ++ (Some <$> dropped s);
}.

Lemma good_block_config v v' b : vconfig v' = vconfig v → good_block v b → good_block v' b.
Proof.
  intros Hc [H1 H2 H3 H4 H5 H6]. pose proof (vconfig_leads v v' (bSlot (bb_core b)) Hc) as Hl.
  injection Hc as E1 E2 E3 E4 E5. by constructor; rewrite ?Hl, ?E1, ?E2, ?E5.
Qed.

Lemma chained_config v v' l : vconfig v' = vconfig v → chained v l → chained v' l.
Proof.
  intros Hc H i b1 b2 H1 H2 Hl. rewrite (vconfig_leads v v' _ Hc) in Hl. by apply (H i).
Qed.

Lemma chained_snoc v l b : chained v l → (∀ b0, last l = Some b0 → linked v b0 b) → chained v (l ++ [b]).
Proof.
  intros H Hl i b1 b2 H1 H2. destruct (decide (S i < length l)%nat).
  - rewrite lookup_app_l in H1, H2 by lia. by apply (H i).
  - apply lookup_app_Some in H2 as [H2|[Hge H2]]; [apply lookup_lt_Some in H2; lia|].
    apply list_lookup_singleton_Some in H2 as [Hz <-]. rewrite lookup_app_l in H1 by lia.
    apply Hl. rewrite last_lookup. rewrite <- H1. f_equal. lia.
Qed.

(** A step that assembles no block and leaves an active leader's slot alone. *)
Lemma vinv_frame s v' w p d : vinv s → vok v' → vconfig v' = vconfig (val s) →
  (∀ slot, w = Some slot → leading v' = false ∧ leads v' slot = true ∧ 1 ≤ slot < 2 ^ 64 - 1 ∧
     (slot - 1) * ticksPerSlot (Recorder v') < 2 ^ 64) →
  (active (val s) = true → cur_slot v' = cur_slot (val s) ∧ leading v' = true ∧
     queue_Get (slotHashQueue (Recorder v')) (cur_slot (val s) - 1)
     = queue_Get (slotHashQueue (Recorder (val s))) (cur_slot (val s) - 1)) →
  (Some <$> pulled s ≡ₚ block_pointers (assembled s) ++ txs_of (open_entries (val s)) ++
             (Some <$> pendingTxs (val s)) ++ (Some <$> dropped s) →
   Some <$> p ≡ₚ block_pointers (assembled s) ++ txs_of (open_entries v') ++
             (Some <$> pendingTxs v') ++ (Some <$> d)) →
  vinv (mkVState v' w (assembled s) p d).
Proof.
  intros [I1 I2 I3 I4 I5 I6] Hv Hc Hw Ha Ht. constructor; simpl; try done.
  - eapply Forall_impl; [exact I3|]. intros b. by apply good_block_config.
  - intros b Hb Hl. rewrite (vconfig_leads _ _ _ Hc) in Hl. destruct (I4 b Hb Hl) as (C1 & C2 & C3).
    destruct Ha as (D1 & D2 & D3); [by unfold active; rewrite C1, C2, Hl|].
    rewrite D1, C1. split_and!; try done.
    replace (bSlot (bb_core b)) with (cur_slot (val s) - 1) in C3 |- * by lia. by rewrite D3.
  - by apply (chained_config (val s)).
  - by apply Ht.
Qed.

(** The conditions under which the goroutines run: the role monitor has noticed
    the end of a leadership before the next flush, the ticks fit into 64 bits, and
    no reset is forced on an active leader. *)
Definition vorderly (s : VState) (a : vaction) : Prop :=
  match a with
  | VFlush _ =>
      (leading (val s) = true → leads (val s) (cur_slot (val s)) = true) ∧
      in_width 64 (tickHeight (Recorder (val s)) + 1)
  | VMessage m => ∀ r n out, handle m (net (val s)) = Some (r, n, out) → resets_ok (set_net n (val s)) out
  | VBroadcast blk marshals published voted =>
      ∀ r n out, BroadcastBlockWithProcessing blk marshals published voted (net (val s)) = Some (r, n, out) →
        resets_ok (set_net n (val s)) out
  | _ => True
  end.

Lemma wait_config s v' : vinv s → vconfig v' = vconfig (val s) →
  leaderStartAtSlot v' = leaderStartAtSlot (val s) →
  ∀ slot, waitingFor s = Some slot → leading v' = false ∧ leads v' slot = true ∧ 1 ≤ slot < 2 ^ 64 - 1 ∧
    (slot - 1) * ticksPerSlot (Recorder v') < 2 ^ 64.
Proof.
  intros Hi Hc Hl slot Hs. destruct (vi_wait s Hi slot Hs) as (W1 & W2 & W3 & W4).
  rewrite (vconfig_leads _ _ _ Hc). unfold leading. rewrite Hl. injection Hc as _ _ _ _ E. by rewrite E.
Qed.

Lemma vinv_flush s now v' blk : vinv s → vorderly s (VFlush now) → flush (val s) now = Some (v', blk) →
  vinv (mkVState v' (waitingFor s) (assembled s ++ option_list blk) (pulled s) (dropped s)).
Proof.
  intros Hi [Ho Hw] Hf. destruct (vok_flush _ _ _ _ (vi_ok s Hi) Ho Hw Hf) as [Hv (Hc & Hl & Hp & _) Hb].
  pose proof (wait_config s v' Hi Hc Hl) as Hwt.
  destruct blk as [b|]; simpl; [|rewrite app_nil_r].
  - destruct Hb as (Ha & Hs & Hcur & Hg & Hq1 & Hq2 & Htx & Ho'). destruct Hi as [I1 I2 I3 I4 I5 I6].
    constructor; simpl; try done.
    + apply Forall_app. split; [|constructor; [|done]]; [|by apply (good_block_config (val s))].
      eapply Forall_impl; [exact I3|]. intros b0. by apply good_block_config.
    + intros b0 Hb0 _. rewrite last_snoc in Hb0. injection Hb0 as <-. rewrite Hs, Hcur.
      split_and!; [done| |done]. unfold leading. rewrite Hl. by apply andb_true_iff in Ha as [Ha _].
    + apply (chained_config (val s)); [done|]. apply chained_snoc; [done|]. intros b0 Hb0 Hl0.
      destruct (I4 b0 Hb0 Hl0) as (C1 & _ & C3). rewrite Hs. split; [done|].
      replace (bSlot (bb_core b0)) with (cur_slot (val s) - 1) in C3 by lia. rewrite Hq1 in C3. by injection C3.
    + rewrite I6, Hp, Ho'. unfold block_pointers. rewrite fmap_app, concat_app, <- !app_assoc. simpl.
      by rewrite Htx, app_nil_r.
  - destruct Hb as [Htx Ha]. apply vinv_frame; try done; [|by rewrite Hp, Htx].
    intros E. destruct (Ha E) as [A1 A2]. rewrite A1, A2. split_and!; try done.
    unfold leading. rewrite Hl. by apply andb_true_iff in E as [E _].
Qed.

Lemma vinv_batch s v' batch : vinv s → leader_batch (val s) = Some (v', batch) →
  vinv (mkVState v' (waitingFor s) (assembled s) (pulled s ++ batch) (dropped s)).
Proof.
  intros Hi Hb. destruct (vok_batch _ _ _ (vi_ok s Hi) Hb) as [Hv (Hc & Hl & He & Hr) _ Ht].
  injection Hr as R1 R2 R3. apply vinv_frame; try done; [by apply wait_config| |].
  - intros E. unfold cur_slot, leading. rewrite R1, R2, R3, Hl. by apply andb_true_iff in E as [E _].
  - intros Hp. rewrite fmap_app, Hp. unfold open_entries. rewrite He, !txs_of_app.
    transitivity (block_pointers (assembled s) ++ txs_of (collectedEntries (val s)) ++
      (txs_of (entries (Recorder (val s))) ++ (Some <$> pendingTxs (val s)) ++ (Some <$> batch)) ++
      (Some <$> dropped s)); [solve_Permutation|].
    by rewrite <- Ht, <- !app_assoc.
Qed.

Lemma vinv_role s v' w : vinv s → waitingFor s = None → role_beat (val s) = Some (v', w) →
  vinv (mkVState v' w (assembled s) (pulled s) (dropped s)).
Proof.
  intros Hi Hn. pose proof (vi_ok s Hi) as Hv. unfold role_beat.
  destruct (CurrentSlot_eq _ (ok_height _ Hv) (proj1 (ok_tps _ Hv))) as [-> Hcb]. simpl.
  destruct (height_split _ _ (ok_height _ Hv) (proj1 (ok_tps _ Hv))) as (Hd & Hm & _).
  destruct (IsLeader (val s) (cur_slot (val s))) as [[]|] eqn:El; [| |done]; simpl.
  - destruct (leaderStartAtSlot (val s) =? NoSlot) eqn:E; intros [= <- <-]; apply vinv_frame; try done.
    + intros slot [= <-]. split_and!; [by unfold leading; rewrite E|by apply leads_eq|lia|lia|].
      pose proof (ok_height _ Hv) as Hh. unfold cur_slot, in_width in *. nia.
    + intros Ha. by apply andb_true_iff in Ha as [Ha _].
    + intros Ha. by apply andb_true_iff in Ha as [Ha _].
  - assert (Ha : active (val s) = false) by (unfold active, leads; rewrite El; by rewrite andb_false_r).
    destruct (negb _); intros [= <- <-]; apply vinv_frame; try done; try (by rewrite Ha).
    by apply vok_end.
Qed.

Lemma vinv_started s v' slot : vinv s → waitingFor s = Some slot → restarted (val s) v' slot →
  vinv (started s v').
Proof.
  intros Hi Hw [Hv Hc [Ho Hp] [Hs Hl] _]. destruct (vi_wait s Hi slot Hw) as (W1 & _).
  pose proof (active_not_leading _ W1) as Ha.
  apply vinv_frame; try done; [by rewrite Ha|]. intros E. rewrite E.
  destruct (ok_idle _ (vi_ok s Hi) Ha) as [E1 E2].
  assert (Ho' : open_entries (val s) = []) by (unfold open_entries; by rewrite E1, E2).
  rewrite Ho, Hp, Ho'. simpl. by rewrite fmap_app, (Permutation_app_comm (Some <$> dropped s)).
Qed.

Lemma vinv_callbacks s n out v' : vinv s → resets_ok (set_net n (val s)) out →
  callbacks (set_net n (val s)) out = Some v' → vinv (with_val s v').
Proof.
  intros Hi Hr Hc. set (v1 := set_net n (val s)) in *.
  assert (Hv1 : vok v1) by apply vok_set_net, (vi_ok s Hi).
  destruct (callbacks_reset v1 out v' Hv1 Hr Hc) as [Hv (Hcf & Hl & Hp & Hn) Ha Ho].
  apply vinv_frame; try done; [by apply wait_config| |].
  - intros E. rewrite (Ha E). split_and!; try done. by apply andb_true_iff in E as [E _].
  - by rewrite Hp, Ho.
Qed.

Lemma vinv_step s a s' : vinv s → vorderly s a → vstep s a = Some s' → vinv s'.
Proof.
  intros Hi Ho Hs. destruct a as [|now| | | | |m|blk mar pub vt]; simpl in Hs.
  - injection Hs as <-. apply vinv_frame; try done.
    + by apply vok_hash, (vi_ok s Hi).
    + by apply wait_config.
    + intros E. split_and!; try done. by apply andb_true_iff in E as [E _].
  - destruct (flush (val s) now) as [[v' blk]|] eqn:E; [|done]. injection Hs as <-. by apply (vinv_flush s now).
  - destruct (leader_batch (val s)) as [[v' b]|] eqn:E; [|done]. injection Hs as <-. by apply vinv_batch.
  - destruct (waitingFor s) eqn:Ew; [done|]. destruct (role_beat (val s)) as [[v' w]|] eqn:E; [|done].
    injection Hs as <-. by apply vinv_role.
  - destruct (waitingFor s) as [slot|] eqn:Ew; [|done]. simpl in Hs.
    destruct (vi_wait s Hi slot Ew) as (_ & _ & W1 & W2).
    destruct (wait_beat (val s) slot) as [over v'] eqn:E.
    apply wait_beat_restarts in E; [|apply Hi|lia|done]. destruct over; injection Hs as <-.
    + by apply (vinv_started s v' slot).
    + rewrite (proj1 E). apply (vinv_callbacks s (net v') []); done.
  - destruct (waitingFor s) as [slot|] eqn:Ew; [|done]. simpl in Hs. injection Hs as <-.
    destruct (vi_wait s Hi slot Ew) as (_ & _ & W1 & W2).
    apply (vinv_started s _ slot); [done..|]. apply wait_deadline_restarts; [apply vok_base, Hi|lia|done].
  - destruct (handle m (net (val s))) as [[[r n] out]|] eqn:E; [|done]. simpl in Hs.
    destruct (callbacks _ out) as [v'|] eqn:Ec; [|done]. injection Hs as <-.
    apply (vinv_callbacks s n out); [done|by apply (Ho r)|done].
  - destruct (BroadcastBlockWithProcessing _ _ _ _ _) as [[[r n] out]|] eqn:E; [|done]. simpl in Hs.
    destruct (callbacks _ out) as [v'|] eqn:Ec; [|done]. injection Hs as <-.
    apply (vinv_callbacks s n out); [done|by apply (Ho r)|done].
Qed.

(** The state in which the goroutines start. *)
Definition vstart (pub priv : string) (r : PohRecorder) (schedule : LeaderSchedule) (n : Node) (batch : Z) : VState :=
  mkVState (NewValidator pub priv r schedule n batch) None [] [] [].

Inductive vreaches (s0 : VState) : VState → Prop :=
| vreaches_refl : vreaches s0 s0
| vreaches_step s a s' : vreaches s0 s → vorderly s a → vstep s a = Some s' → vreaches s0 s'.

(** The parameters of a node: at least two ticks per slot, and at most
    [MaxNumHashes] hashes per tick. *)
Definition good_start (s0 : VState) : Prop :=
  ∃ pub priv seed hpt p tps latestSlot schedule n batch,
    NewPoh seed (Some hpt) = Some p ∧ hpt ≤ MaxNumHashes ∧ 2 ≤ tps < 2 ^ 64 ∧
    0 ≤ latestSlot ∧ latestSlot * tps < 2 ^ 64 ∧ 0 < batch ∧
    s0 = vstart pub priv (NewPohRecorder p tps latestSlot) schedule n batch.

Lemma vinv_start s0 : good_start s0 → vinv s0.
Proof.
  intros (pub & priv & seed & hpt & p & tps & ls & sched & n & batch & Hp & Hh & Ht & Hl & Hw & Hb & ->).
  unfold NewPoh in Hp. destruct (hpt <=? 1) eqn:E; [done|]. injection Hp as <-.
  constructor; simpl; try done. constructor; simpl; try done.
  - unfold u64_mul. rewrite wrap_small; unfold in_width; nia.
  - eexists. split; simpl; [blia|blia|done].
Qed.

Lemma vinv_reaches s0 s : good_start s0 → vreaches s0 s → vinv s.
Proof.
  intros Hg. induction 1 as [|s a s' _ IH Ho Hs]; [by apply vinv_start|]. by apply (vinv_step s a).
Qed.

Lemma good_block_verifies v b : good_block v b → Z.of_nat (length (bb_Entries b)) ≤ MaxEntriesPerSlot →
  Forall (λ e, forallb entry_tx_ok (Transactions e) = true) (bb_Entries b) → VerifyPoH b = None.
Proof.
  intros [_ _ _ Hr Hb _] Hl Ht. unfold VerifyPoH, VerifyEntries. rewrite (proj2 (Z.ltb_ge _ _)) by done.
  eapply verify_loop_replay; [|exact Hr]. rewrite Forall_forall in Hb, Ht |- *. intros e He.
  specialize (Hb e He) as [Hn Hc]. specialize (Ht e He).
  unfold ValidateEntry. rewrite Ht, !(proj2 (Z.leb_le _ _)); [done| | |]; try done; try lia.
  unfold estimateEntrySize, MaxEntrySize, MaxTransactionsPerEntry in *. lia.
Qed.





(** ** The cache only grows *)

Definition node_cached (n n' : Node) : Prop := ∃ ks, dedupCache n' = dedup_Add (dedupCache n) ks.

Lemma cached_eq n n' : dedupCache n' = dedupCache n → node_cached n n'.
Proof. intros E. by exists []. Qed.

Lemma cached_trans n1 n2 n3 : node_cached n1 n2 → node_cached n2 n3 → node_cached n1 n3.
Proof.
  intros [k1 E1] [k2 E2]. exists (k1 ++ k2). unfold dedup_Add in *. by rewrite foldl_app, <- E1.
Qed.

(** Runs a read as [x] and the node [n'], with the cache that of before. *)
Ltac cache_step x n' :=
  match goal with
  | |- context [reading ?m ?d ?n] =>
      let H := fresh in
      assert (H : dedupCache (snd (reading m d n)) = dedupCache n)
        by (unfold reading; by destruct (m (storage n)) as [[] ?]);
      destruct (reading m d n) as [x n']; simpl in H; try rewrite <- H; clear H
  end.

Lemma apply_cache v n r n' out : applyDataToBlock v n = Some (r, n', out) → dedupCache n' = dedupCache n.
Proof.
  unfold applyDataToBlock. cache_step applied n1. destruct applied; [by intros [= _ <- _]|]. cache_step b n2.
  destruct b as [b|]; [|by intros [= _ <- _]].
  destruct (ledger_FinalizeBlock _ _ _ _ _) as [[[u|e] s] o]; by intros [= _ <- _].
Qed.

Lemma vote_cache v n r n' out : ProcessVote v n = Some (r, n', out) → dedupCache n' = dedupCache n.
Proof.
  unfold ProcessVote. destruct (AddVote (collector n) v) as [[[cm need]|e] c]; [|by intros [= _ <- _]].
  cache_step existing n1.
  destruct existing; [|by intros [= _ <- _]]. cbn [negb].
  destruct (cm && need); [apply apply_cache|by intros [= _ <- _]].
Qed.

Lemma after_pending_cached blk l pub n r n' out : after_pending blk l pub n = Some (r, n', out) → node_cached n n'.
Proof.
  unfold after_pending, emit. destruct (isListener n); [intros [= _ <- _]; by apply cached_eq|]. cbn zeta.
  destruct (if negb _ then _ else Some n) as [n1|] eqn:E1; [|done].
  assert (H1 : node_cached n n1).
  { destruct (negb _); [|injection E1 as <-; by apply cached_eq].
    destruct (BlockCleanup _ _) as [m|]; [|done]. injection E1 as <-. by eexists. }
  destruct (ProcessVote _ n1) as [[[[u|e] n2] out']|] eqn:E; [| |done]; apply vote_cache in E;
    intros [= _ <- _]; apply (cached_trans _ n1); auto using cached_eq.
Qed.

Lemma block_cached blk pub n r n' out : OnBlockReceived blk pub n = Some (r, n', out) → node_cached n n'.
Proof.
  unfold OnBlockReceived, node_cached. cache_step existing n1.
  destruct existing; [intros [= _ <- _]; by apply cached_eq|].
  destruct (IsLeaderAt _ _ _) as [[|]|]; [|intros [= _ <- _]; by apply cached_eq|done].
  destruct (negb _); [intros [= _ <- _]; by apply cached_eq|]. unfold verifyBlockTransactions.
  destruct (verify_txs _ _) as [[|] zk]; cbn [negb]; [|intros [= _ <- _]; by apply cached_eq].
  destruct (mapM id (block_ptrs blk)) as [l|]; [|done].
  destruct (VerifyBlockTransactions _ _ _) as [[e|]|]; [intros [= _ <- _]; by apply cached_eq| |done]. cbn zeta.
  destruct (AddBlockPending _ _) as [[[]|e] s]; [|intros [= _ <- _]; by apply cached_eq].
  intros H%after_pending_cached. exact H.
Qed.

Lemma empty_cached l n : dedupCache (OnEmptyBlockReceived l n) = dedupCache n.
Proof.
  revert n. induction l as [|[blk|] l IH]; intros n; [done| |apply IH]. cbn [OnEmptyBlockReceived].
  cache_step existing n1. destruct existing; by rewrite IH.
Qed.

Lemma processBlock_cache blk n r n' out : processBlock blk n = Some (r, n', out) → dedupCache n' = dedupCache n.
Proof.
  unfold processBlock. destruct (negb _); [by intros [= _ <- _]|].
  unfold verifyBlockTransactions. destruct (verify_txs _ _) as [ok zk].
  destruct (negb ok); [by intros [= _ <- _]|]. cbn zeta.
  destruct (AddBlockPending _ _) as [[u|e] s]; [|by intros [= _ <- _]].
  destruct (ledger_FinalizeBlock _ _ _ _ _) as [[[u'|e] s'] o]; by intros [= _ <- _].
Qed.

Lemma process_blocks_cache l n out n' out' : process_blocks l n out = Some (n', out') → dedupCache n' = dedupCache n.
Proof.
  revert n out. induction l as [|blk l IH]; intros n out; simpl; [by intros [= <- _]|].
  destruct (processBlock blk n) as [[[r n1] o]|] eqn:E; [|done]. apply processBlock_cache in E.
  intros H%IH. congruence.
Qed.

Lemma gather_cache fuel now l1 l2 n l1' l2' n' : gather fuel now l1 l2 n = Some (l1', l2', n') →
  dedupCache n' = dedupCache n.
Proof.
  revert l1 l2 n. induction fuel as [|fuel IH]; intros l1 l2 n; simpl; [by intros [= _ _ <-]|].
  destruct (_ <? _); [by intros [= _ _ <-]|].
  destruct (blockOrderingQueue n !! nextExpectedSlot n) as [blk|]; [by intros ->%IH|].
  destruct (isLeaderOfSlot n (nextExpectedSlot n)) as [[|]|]; [|by intros [= _ _ <-]|done].
  unfold empty_block, getPrevHashForSlot. destruct (_ =? 0); [by intros ->%IH|].
  destruct (last l1); [by intros ->%IH|]. cache_step b n1. by intros ->%IH.
Qed.

Lemma sync_cache blk now n r n' out : AddBlockToOrderingQueue blk now n = Some (r, n', out) →
  dedupCache n' = dedupCache n.
Proof.
  unfold AddBlockToOrderingQueue. cache_step existing n1. destruct existing; [by intros [= _ <- _]|].
  unfold processConsecutiveBlocks. set (n2 := set_queue _ _ n1).
  destruct (gather _ _ _ _ n2) as [[[l1 l2] n3]|] eqn:Eg; [|done]. apply gather_cache in Eg.
  destruct (process_blocks l1 n3 []) as [[n4 o]|] eqn:Ep; [|done]. apply process_blocks_cache in Ep.
  intros [= _ <- _]. rewrite Ep, Eg. done.
Qed.

Lemma handle_cached m n r n' out : handle m n = Some (r, n', out) → node_cached n n'.
Proof.
  destruct m as [blk pub|l|v|tx|blk now|a b]; simpl; intros E.
  - by apply block_cached in E.
  - injection E as _ <- _. apply cached_eq, empty_cached.
  - apply cached_eq. by apply vote_cache in E.
  - unfold OnTransactionReceived in E. destruct (AddTx _ _ _ _ _ _ _ _) as [a|]; [|done].
    injection E as _ <- _. by apply cached_eq.
  - apply cached_eq. unfold OnSyncResponseReceived in E. destruct blk as [blk|]; [|by injection E as _ <- _].
    destruct (AddBlockToOrderingQueue blk now n) as [[[[b|] n1] o]|] eqn:Ea; [| |done];
      apply sync_cache in Ea; unfold emit, done_ in E; [|by injection E as _ <- _].
    revert E. destruct (_ && _); intros E; by injection E as _ <- _.
  - injection E as _ <- _. by apply cached_eq.
Qed.

Lemma broadcast_cached blk mar pub vt n r n' out :
  BroadcastBlockWithProcessing blk mar pub vt n = Some (r, n', out) → dedupCache n' = dedupCache n.
Proof.
  unfold BroadcastBlockWithProcessing, ProcessBlockBeforeBroadcast.
  destruct (AddBlockPending _ _) as [[u|e] s]; [|by intros [= _ <- _]].
  destruct (negb mar); [by intros [= _ <- _]|]. destruct (negb pub); [by intros [= _ <- _]|].
  destruct (ProcessVote _ _) as [[[[u'|e] n1] o]|] eqn:E; [| |done]; apply vote_cache in E; by intros [= _ <- _].
Qed.

Lemma callbacks_cached v l v' : vok v → resets_ok v l → callbacks v l = Some v' → net v' = net v.
Proof. intros Hv Hr Hc. destruct (callbacks_reset v l v' Hv Hr Hc) as [_ (_ & _ & _ & H) _ _]. done. Qed.

(** Every step keeps the cache's entries, and adds those of what it pulls. *)
Lemma vstep_cached `{!DedupCacheOk DC} s a s' : vinv s → vorderly s a → vstep s a = Some s' →
  node_cached (net (val s)) (net (val s')) ∧
  ∃ batch, pulled s' = pulled s ++ batch ∧
    Forall (λ tx, dc_Get (dedupCache (net (val s'))) (DedupHash tx) = Found) batch.
Proof.
  intros Hi Ho Hs. assert (Hw : ∀ slot, waitingFor s = Some slot →
    1 ≤ slot < 2 ^ 64 ∧ (slot - 1) * ticksPerSlot (Recorder (val s)) < 2 ^ 64).
  { intros slot Hs'. destruct (vi_wait s Hi slot Hs') as (_ & _ & ? & ?). lia. }
  assert (Hno : node_cached (net (val s)) (net (val s')) → pulled s' = pulled s →
    node_cached (net (val s)) (net (val s')) ∧ ∃ batch, pulled s' = pulled s ++ batch ∧
    Forall (λ tx, dc_Get (dedupCache (net (val s'))) (DedupHash tx) = Found) batch).
  { intros ? ->. split; [done|]. exists []. by rewrite app_nil_r. }
  destruct a as [|now| | | | |m|blk mar pub vt]; simpl in Hs.
  - injection Hs as <-. apply Hno; [by apply cached_eq|done].
  - destruct (flush (val s) now) as [[v' blk]|] eqn:E; [|done]. injection Hs as <-. destruct Ho as [Ho1 Ho2].
    destruct (vok_flush _ _ _ _ (vi_ok s Hi) Ho1 Ho2 E) as [_ (_ & _ & _ & _ & N & _) _].
    apply Hno; [by apply cached_eq|done].
  - destruct (leader_batch (val s)) as [[v' b]|] eqn:E; [|done]. injection Hs as <-. simpl.
    destruct (vok_batch _ _ _ (vi_ok s Hi) E) as [_ _ [[-> ->]|(m & c & Hp & ->)] _].
    + split; [by apply cached_eq|]. by exists [].
    + unfold PullBatch in Hp. destruct (PullBatch_locked _ _) as [[m' l]|]; [|done].
      injection Hp as <- <- <-. split; [by eexists|]. exists l. split; [done|]. apply Forall_forall. intros tx Htx.
      simpl. rewrite dedup_Add_get, bool_decide_true; [done|]. by apply list_elem_of_fmap_2.
  - destruct (waitingFor s); [done|]. unfold role_beat in Hs. destruct (CurrentSlot _); [|done]. simpl in Hs.
    destruct (IsLeader _ _) as [b|]; [|done]. simpl in Hs.
    apply Hno; destruct b, (leaderStartAtSlot (val s) =? NoSlot); injection Hs as <-;
      (done || by apply cached_eq).
  - destruct (waitingFor s) as [slot|]; [|done]. simpl in Hs. destruct (Hw slot eq_refl) as [W1 W2].
    destruct (wait_beat (val s) slot) as [over v'] eqn:E.
    apply wait_beat_restarts in E; [|apply Hi|done..]. destruct over; injection Hs as <-.
    + destruct E as [_ _ _ _ (_ & N & _)]. apply Hno; [by apply cached_eq|done].
    + destruct E as [_ (_ & N & _)]. apply Hno; [by apply cached_eq|done].
  - destruct (waitingFor s) as [slot|]; [|done]. simpl in Hs. destruct (Hw slot eq_refl) as [W1 W2].
    injection Hs as <-. destruct (wait_deadline_restarts (val s) slot) as [_ _ _ _ (_ & N & _)];
      [apply vok_base, Hi|done..|]. apply Hno; [by apply cached_eq|done].
  - destruct (handle m (net (val s))) as [[[r n] out]|] eqn:E; [|done]. simpl in Hs.
    destruct (callbacks _ out) as [v'|] eqn:Ec; [|done]. injection Hs as <-.
    apply callbacks_cached in Ec; [|by apply vok_set_net, Hi|by apply (Ho r)].
    apply Hno; [|done]. simpl. rewrite Ec. by apply handle_cached in E.
  - destruct (BroadcastBlockWithProcessing _ _ _ _ _) as [[[r n] out]|] eqn:E; [|done]. simpl in Hs.
    destruct (callbacks _ out) as [v'|] eqn:Ec; [|done]. injection Hs as <-.
    apply callbacks_cached in Ec; [|by apply vok_set_net, Hi|by apply (Ho r)].
    apply Hno; [|done]. simpl. rewrite Ec. apply cached_eq. by apply broadcast_cached in E.
Qed.

Lemma pulled_found `{!DedupCacheOk DC} s0 s : good_start s0 → vreaches s0 s →
  Forall (λ tx, dc_Get (dedupCache (net (val s))) (DedupHash tx) = Found) (pulled s).
Proof.
  intros Hg Hr. induction Hr as [|s a s' Hr IH Ho Hs].
  { destruct Hg as (? & ? & ? & ? & ? & ? & ? & ? & ? & ? & ? & ? & ? & ? & ? & ? & ->). constructor. }
  destruct (vstep_cached s a s' (vinv_reaches s0 s Hg Hr) Ho Hs) as ([ks Hc] & batch & -> & Hb).
  apply Forall_app. split; [|done]. eapply Forall_impl; [exact IH|]. intros tx Htx. simpl in *.
  rewrite Hc, dedup_Add_get. by case_bool_decide.
Qed.

(** A transaction that a start of leadership dropped is in the deduplication
    cache, so that the pool refuses it when its sender submits it again, and so
    does the check of every block that contains it. *)
Theorem dropped_transactions_refused `{!DedupCacheOk DC} (s0 s : VState) (tx : Transaction) :
  good_start s0 → vreaches s0 s → tx ∈ dropped s →
  tx ∈ pulled s ∧ refused_as_duplicate (dedupCache (net (val s))) tx.
Proof.
  intros Hg Hr Ht. assert (Hp : tx ∈ pulled s).
  { apply (list_elem_of_fmap_inj_2 Some). rewrite (vi_txs s (vinv_reaches s0 s Hg Hr)).
    rewrite !elem_of_app. do 3 right. by apply list_elem_of_fmap_2. }
  split; [done|]. apply found_is_refused. pose proof (pulled_found s0 s Hg Hr) as Hf.
  rewrite Forall_forall in Hf. by apply Hf.
Qed.

End ValidatorCorrect.

(** ** Concrete runs *)

Section Runs.
Context `{TE : TxEnv, ZE : ZkEnv, VE : VoteEnv, SC : StoreCodec, CC : ContentCodec, DC : DedupCache}.

(** The runs without messages whose actions are orderly, as a test. *)
Definition orderly_now (s : VState) (a : vaction) : bool :=
  match a with
  | VFlush _ =>
      implb (leading (val s)) (leads (val s) (cur_slot (val s))) &&
      (0 <=? tickHeight (Recorder (val s)) + 1) && (tickHeight (Recorder (val s)) + 1 <? 2 ^ 64)
  | VMessage _ | VBroadcast _ _ _ _ => false
  | _ => true
  end.

Fixpoint orderly_vrun (s : VState) (l : list vaction) : option VState :=
  match l with
  | [] => Some s
  | a :: l' => if orderly_now s a then s ← vstep s a; orderly_vrun s l' else None
  end.

Lemma orderly_vrun_reaches s0 s l s' : vreaches s0 s → orderly_vrun s l = Some s' → vreaches s0 s'.
Proof.
  revert s. induction l as [|a l IH]; intros s Hr; simpl; [by intros [= <-]|].
  destruct (orderly_now s a) eqn:Eo; [|done]. destruct (vstep s a) as [s1|] eqn:E; [|done]. simpl.
  apply IH. eapply vreaches_step; [exact Hr| |exact E].
  destruct a; try done. simpl in *. apply andb_true_iff in Eo as [[Eo H1]%andb_true_iff H2].
  split; [intros Hl; by rewrite Hl in Eo|]. unfold in_width. blia.
Qed.

End Runs.

Definition example_validator (hpt : Z) : VState (ZE := example_zk_env) (DC := list_dedup) :=
  vstart (ZE := example_zk_env) (DC := list_dedup) example_addr example_key
    (NewPohRecorder (default (mkPoh "" 0 0 0) (@NewPoh node_env "genesis" (Some hpt))) 2 0)
    (mkLeaderSchedule [mkSchedule 1 2 example_addr; mkSchedule 3 4 other_addr] 4)
    (node_after [MTransaction pay1]) 10.

Lemma example_good_start hpt : 1 < hpt ≤ MaxNumHashes →
  good_start (TE := node_env) (ZE := example_zk_env) (DC := list_dedup) (example_validator hpt).
Proof.
  intros Hh. unfold example_validator, NewPoh. rewrite (proj2 (Z.leb_gt hpt 1)) by lia.
  exists example_addr, example_key, "genesis", hpt.
  eexists _, 2, 0, _, _, 10. unfold NewPoh. rewrite (proj2 (Z.leb_gt hpt 1)) by lia.
  split_and!; [reflexivity|lia..|reflexivity].
Qed.

Definition vexec := @orderly_vrun node_env example_zk_env node_votes node_codec no_contents list_dedup.

(** A tick of three hashes. *)
Definition tick3 : list vaction := [VHash; VHash; VFlush 7].

(** Two own slots, with a transfer in the first one. *)
Definition lead_two_slots : list vaction :=
  [VRole; VDeadline; VBatch; VHash; VFlush 7] ++ tick3 ++ tick3 ++ tick3.

Definition led : VState (ZE := example_zk_env) (DC := list_dedup) :=
  default (example_validator 3) (vexec (example_validator 3) lead_two_slots).

Lemma led_reached :
  vreaches (TE := node_env) (ZE := example_zk_env) (VE := node_votes) (SC := node_codec) (CC := no_contents)
    (DC := list_dedup) (example_validator 3) led.
Proof.
  unfold led. destruct (vexec (example_validator 3) lead_two_slots) as [s|] eqn:E; [|apply vreaches_refl].
  refine (orderly_vrun_reaches (TE := node_env) (VE := node_votes) (SC := node_codec) (CC := no_contents)
    _ _ lead_two_slots s (vreaches_refl _) E).
Qed.

Lemma length_pad32 m : String.length (pad32 m) = 32%nat.
Proof.
  unfold pad32. assert (Hl : (32 ≤ String.length (m +:+ zero_hash))%nat).
  { induction m as [|c m IH]; [done|]. simpl. lia. }
  revert Hl. generalize (m +:+ zero_hash) as s. generalize 32%nat as n.
  induction n as [|n IH]; intros [|c s] Hl; simpl in *; [done..|lia|]. rewrite IH; [done|lia].
Qed.

Lemma example_keys m :
  string_len (toy_sign example_key m) = SignatureSize ∧
  @ed25519_Verify node_env example_key m (toy_sign example_key m) = true.
Proof.
  split.
  - unfold string_len, toy_sign.
    change (String.length (example_key +:+ pad32 m)) with (32 + String.length (pad32 m))%nat.
    by rewrite length_pad32.
  - unfold ed25519_Verify, node_env. apply orb_true_iff. right. by apply bool_decide_eq_true.
Qed.




(** The clock has one hash left, so the batch is refused and stays pending; the
    leadership ends, and the next one starts without it. *)
Definition lose_batch : list vaction :=
  [VRole; VDeadline; VHash; VBatch; VFlush 7] ++ [VHash; VFlush 7; VHash; VFlush 7; VHash; VFlush 7; VRole] ++
  [VHash; VFlush 7; VHash; VFlush 7; VHash; VFlush 7; VHash; VFlush 7; VRole; VDeadline].

Definition lost : VState (ZE := example_zk_env) (DC := list_dedup) :=
  default (example_validator 2) (vexec (example_validator 2) lose_batch).

Lemma dropped_transactions_refused_witness :
  ∃ tx, dropped lost = [tx] ∧ block_pointers (assembled lost) = [] ∧ pendingTxs (val lost) = [] ∧
    refused_as_duplicate (TE := node_env) (SC := node_codec) (CC := no_contents)
      (DC := list_dedup) (dedupCache (net (val lost))) tx.
Proof.
  assert (Hc : match dropped lost, block_pointers (assembled lost), pendingTxs (val lost) with
    | [_], [], [] => true | _, _, _ => false end = true) by (vm_compute; reflexivity).
  assert (Hr : vreaches (TE := node_env) (ZE := example_zk_env) (VE := node_votes) (SC := node_codec)
    (CC := no_contents) (DC := list_dedup) (example_validator 2) lost).
  { unfold lost. destruct (vexec (example_validator 2) lose_batch) as [s|] eqn:E; [|apply vreaches_refl].
    refine (orderly_vrun_reaches (TE := node_env) (VE := node_votes) (SC := node_codec) (CC := no_contents)
      _ _ lose_batch s (vreaches_refl _) E). }
  destruct (dropped lost) as [|tx [|]] eqn:Ed; [discriminate Hc| |discriminate Hc].
  destruct (block_pointers (assembled lost)); [|discriminate Hc].
  destruct (pendingTxs (val lost)); [|discriminate Hc].
  exists tx. split_and!; try reflexivity.
  refine (proj2 (dropped_transactions_refused (TE := node_env) (VE := node_votes) (SC := node_codec)
    (CC := no_contents) (DC := list_dedup) (example_validator 2) lost tx _ Hr _)).
  - apply example_good_start. unfold MaxNumHashes. lia.
  - rewrite Ed. apply list_elem_of_here.
Defined.

(** The environment with a hash function without collisions. *)
Definition tally_env : TxEnv := {|
  uint256_String := @uint256_String node_env;
  base58_Decode := @base58_Decode node_env;
  base58_Encode := @base58_Encode node_env;
  ed25519_Verify := @ed25519_Verify node_env;
  sha256_Sum256 m := "." +:+ m;
  edwards25519_SetBytes := @edwards25519_SetBytes node_env;
  json_of_tx := @json_of_tx node_env;
  json_to_UserSig := @json_to_UserSig node_env;
|}.

(** The role monitor must notice the end of a leadership before the validator
    leads again.  Here it does not run while slots 3 and 4 pass: the last tick of
    slot 4 is then collected for slot 5, and the block of slot 5 has three ticks
    and does not verify. *)
Theorem late_role_monitor_breaks_block :
  match @vrun tally_env example_zk_env node_votes node_codec no_contents list_dedup (example_validator 3)
          ([VRole; VDeadline] ++ concat (replicate 10 tick3)) with
  | Some s =>
      match last (assembled s) with
      | Some b =>
          bSlot (bb_core b) = 5 ∧ ticks (bb_Entries b) = 3 ∧
          @VerifySignature tally_env b = true ∧ @VerifyPoH tally_env b = Some (PohMismatch 0)
      | None => False
      end
  | None => False
  end.
Proof. vm_compute. split_and!; reflexivity. Qed.

(** ** The deadline *)

(** How far the clock runs at the deadline: forward it hashes once for every hash
    of the missed slots; when the last stored slot is ahead of the previous one,
    the difference wraps around and it hashes almost 2^64 times. *)
Theorem fast_forward_hashes `{TE : TxEnv, ZE : ZkEnv, DC : DedupCache} (v : Validator) (seen : string) (from to : Z) :
  let tps := ticksPerSlot (Recorder v) in let hpt := Poh.HashesPerTick (poh (Recorder v)) in
  0 ≤ from → 0 ≤ to → 0 < tps → 0 < hpt → from * (tps * hpt) < 2 ^ 64 → to * (tps * hpt) < 2 ^ 64 →
  sbHash (fst (fastForwardTicks v seen from to)) =
  hash_iter (if from <=? to then (to - from) * (tps * hpt) else 2 ^ 64 - (from - to) * (tps * hpt)) seen.
Proof.
  intros tps hpt Hf Ht Htp Hhp Hbf Hbt. unfold fastForwardTicks, FastForward, TickFastForward. simpl. f_equal.
  fold tps hpt. unfold u64_mul, u64_sub, wrap.
  rewrite (Z.mod_small (to * tps)), (Z.mod_small (from * tps)) by nia.
  rewrite Zmult_mod_idemp_l. replace ((to * tps - from * tps) * hpt) with ((to - from) * (tps * hpt)) by ring.
  assert (Hk : 0 < tps * hpt) by nia. revert Hbf Hbt Hk. generalize (tps * hpt) as k. intros k Hbf Hbt Hk.
  destruct (Z.leb_spec from to).
  - apply Z.mod_small. nia.
  - rewrite <- (Z.mod_add _ 1), Z.mod_small by nia. ring.
Qed.

Lemma fast_forward_hashes_witness :
  sbHash (fst (@fastForwardTicks node_env example_zk_env list_dedup (val led) "seed" 7 6)) =
  @hash_iter node_env (2 ^ 64 - 6) "seed".
Proof.
  refine (@fast_forward_hashes node_env example_zk_env list_dedup (val led) "seed" 7 6 _ _ _ _ _ _);
    apply (bool_decide_unpack _); vm_compute; exact I.
Defined.
