(* ===== verification/Supply.v ===== *)
(** * The money and the data of a node (runs of ledger, store, p2p and validator)

    Two facts about whole runs of a validator, in which the messages of the
    network, its own blocks and the beats of its timers come in any order and
    database operations fail as the script of the storage says: the total of the
    stored balances never changes, and the database stays well typed.  Both are
    relations between the data before and after; it is enough that the two
    operations that write, adding a pending block and finalizing a block, respect
    them. *)

From stdpp Require Import base list gmap strings.
From Stdlib Require Import ZArith Lia.
From S2P Require Import Prelude GoLib Transaction Poh Schedule Consensus Block Store BlockStore Ledger.
From S2P Require Import Mempool Node Validator.

Open Scope string_scope.
Open Scope list_scope.
Open Scope Z_scope.

(** ** Runs of a validator *)

Section Runs.
Context `{TE : TxEnv, ZE : ZkEnv, VE : VoteEnv, SC : StoreCodec, CC : ContentCodec, DC : DedupCache}.

(** The data of a validator. *)
Definition db (v : Validator) : gmap string string := data (storage (net v)).

(** Runs a read, with the data those of before. *)
Ltac db_read x n' :=
  match goal with
  | |- context [reading ?m ?d ?n] =>
      let H := fresh in
      pose proof (reading_net_read m d n ltac:(auto using HasCompleteBlock_reads, store_Block_reads, LastEntryInfo_reads))
        as (_ & _ & H);
      destruct (reading m d n) as [x n']; simpl in H
  end.

Lemma callback_db v e v' : callback v e = Some v' → db v' = db v.
Proof.
  destruct e; simpl; try (by intros [= <-]). unfold handleResetPohFromLeader.
  destruct (CurrentSlot (Recorder v)) as [cur|]; simpl; [|done].
  destruct (IsFollower v cur) as [f1|]; simpl; [|done].
  destruct (if f1 then IsFollower v slot else Some false) as [f2|]; simpl; [|done].
  intros [= <-]. by destruct (f1 && f2).
Qed.

Lemma callbacks_db v l v' : callbacks v l = Some v' → db v' = db v.
Proof.
  revert v. induction l as [|e l IH]; intros v; simpl; [by intros [= <-]|].
  destruct (callback v e) as [v1|] eqn:E; simpl; [|done]. intros H%IH. by rewrite H, (callback_db _ _ _ E).
Qed.

Lemma flush_db v now v' blk : flush v now = Some (v', blk) → db v' = db v.
Proof.
  unfold flush. destruct (DrainEntries _) as [es r]. destruct (recorder_Tick r) as [[t r']|]; [|done].
  set (es' := match t with Some t => es ++ [t] | None => es end). case_bool_decide; [by intros [= <- <-]|].
  unfold handleEntry. set (w := set_Recorder r' v).
  destruct (CurrentSlot _) as [cur|]; simpl; [|done]. destruct (last es') as [e|]; simpl; [|done].
  destruct (IsLastTickOfSlot _) as [lt|]; simpl; [|done].
  destruct (if lt then IsLeader w (u64_sub cur 1) else Some false) as [ll|]; simpl; [|done].
  destruct (_ && negb _).
  - db_read x n'. intros [= <- _]. done.
  - destruct (IsLeader w cur) as [l|]; simpl; [|done]. destruct (ReadyToStart w cur) as [rd|]; simpl; [|done].
    destruct (l && rd); by intros [= <- _].
Qed.

Lemma leader_batch_db v v' batch : leader_batch v = Some (v', batch) → db v' = db v.
Proof.
  unfold leader_batch. destruct (CurrentSlot _) as [slot|]; simpl; [|done].
  destruct (IsLeader v slot) as [l|]; simpl; [|done]. destruct l; simpl; [|by intros [= <- _]].
  destruct (ReadyToStart v slot) as [rd|]; simpl; [|done]. destruct rd; simpl; [|by intros [= <- _]].
  destruct (PullBatch _ _ _) as [[[m c] b]|]; [|done]. destruct (_ && _); [by intros [= <- _]|].
  set (w := set_pending _ _). destruct (peekPendingTxs w _) as [[l|]|]; simpl; [|by intros [= <- _]|done].
  destruct (RecordTxs _ _) as [[e|e] r]; intros [= <- _]; [|done]. unfold dropPendingTxs. by case_match.
Qed.

Lemma wait_beat_db v slot over v' : wait_beat v slot = (over, v') → db v' = db v.
Proof.
  unfold wait_beat. db_read has n1. destruct has; [|by intros [= _ <-]].
  db_read b n2. intros [= _ <-]. unfold db, start_leading. simpl. congruence.
Qed.

Lemma wait_deadline_db v slot : db (wait_deadline v slot) = db v.
Proof.
  unfold wait_deadline. destruct (GetSlotHashFromQueue _ _) as [h|].
  - unfold fastForwardTicks. by destruct (FastForward _ _ _ _).
  - db_read b n1. unfold fastForwardTicks. destruct (FastForward _ _ _ _). done.
Qed.

Section Relation.
Context (R : relation (gmap string string)) `{DR : !DataRel R}.

Lemma broadcast_keeps blk a b c n r n' out :
  BroadcastBlockWithProcessing blk a b c n = Some (r, n', out) → node_rel R n n'.
Proof.
  unfold BroadcastBlockWithProcessing, ProcessBlockBeforeBroadcast.
  pose proof (pending_keeps R (Some blk) n) as K. destruct (AddBlockPending _ _) as [[u|e] s]; simpl in K;
    [|by intros [= _ <- _]]. destruct a; [|by intros [= _ <- _]]. destruct b; [|by intros [= _ <- _]]. simpl.
  set (v := vote_Sign _ _). set (n1 := set_storage s n) in *.
  destruct (ProcessVote v n1) as [[[[u'|e] n2] out']|] eqn:E; [| |done];
    apply (ProcessVote_keeps R) in E; intros [= _ <- _]; by etrans.
Qed.

(** A step of a validator, whichever it is. *)
Lemma vstep_keeps s a s' : vstep s a = Some s' → R (db (val s)) (db (val s')).
Proof.
  assert (Heq : ∀ v v', db v' = db v → R (db v) (db v')) by (intros ? ? ->; reflexivity).
  destruct a as [|now| | | | |m|blk x y z]; simpl.
  - intros [= <-]. by apply Heq.
  - destruct (flush _ _) as [[v blk]|] eqn:E; simpl; [|done]. intros [= <-]. by eapply Heq, flush_db.
  - destruct (leader_batch _) as [[v b]|] eqn:E; simpl; [|done]. intros [= <-]. by eapply Heq, leader_batch_db.
  - destruct (waitingFor s); [done|]. unfold role_beat. destruct (CurrentSlot _) as [slot|]; simpl; [|done].
    destruct (IsLeader _ _) as [l|]; simpl; [|done]. intros E. apply Heq.
    destruct l; [destruct (_ =? _)|destruct (negb _)]; simpl in E; by injection E as <-.
  - destruct (waitingFor s) as [slot|]; simpl; [|done]. destruct (wait_beat _ _) as [over v] eqn:E.
    intros [= <-]. apply Heq. apply wait_beat_db in E. by destruct over.
  - destruct (waitingFor s) as [slot|]; simpl; [|done]. intros [= <-]. apply Heq. apply wait_deadline_db.
  - destruct (handle m _) as [[[r n] out]|] eqn:E; simpl; [|done].
    destruct (callbacks _ out) as [v|] eqn:Ec; simpl; [|done]. intros [= <-]. simpl.
    rewrite (callbacks_db _ _ _ Ec). apply (handle_keeps R (net (val s)) n). by exists m, r, out.
  - destruct (BroadcastBlockWithProcessing _ _ _ _ _) as [[[r n] out]|] eqn:E; simpl; [|done].
    destruct (callbacks _ out) as [v|] eqn:Ec; simpl; [|done]. intros [= <-]. simpl.
    rewrite (callbacks_db _ _ _ Ec). by apply broadcast_keeps in E.
Qed.

Lemma vrun_keeps l s s' : vrun s l = Some s' → R (db (val s)) (db (val s')).
Proof.
  revert s. induction l as [|a l IH]; intros s; simpl; [intros [= <-]; reflexivity|].
  destruct (vstep s a) as [s1|] eqn:E; simpl; [|done]. intros H%IH. apply vstep_keeps in E. by etrans.
Qed.
End Relation.
End Runs.

(** ** The supply *)

(** The address of an account key. *)
Definition account_addr (key : string) : option string :=
  let '(p, a) := split_at 8 key in if bool_decide (p = PrefixAccount) then Some a else None.

Lemma account_addr_key key a : account_addr key = Some a ↔ key = key_of (KAccount a).
Proof.
  unfold account_addr, key_of, account_GetDBKey. split.
  - destruct (split_at 8 key) as [p b] eqn:E. case_bool_decide; [|done]. intros [= <-].
    assert (Hs : ∀ n s p b, split_at n s = (p, b) → s = p +:+ b).
    { clear. induction n as [|n IH]; intros [|c s] p b; simpl; try (by intros [= <- <-]).
      destruct (split_at n s) as [p' b'] eqn:E. intros [= <- <-]. simpl. by rewrite (IH _ _ _ E). }
    rewrite (Hs _ _ _ _ E). congruence.
  - intros ->. change 8%nat with (String.length PrefixAccount). by rewrite split_at_app, bool_decide_true.
Qed.

Definition account_addrs (d : gmap string string) : list string := omap account_addr (map_to_list d).*1.

Lemma elem_of_account_addrs d a : a ∈ account_addrs d ↔ is_Some (d !! key_of (KAccount a)).
Proof.
  unfold account_addrs. rewrite list_elem_of_omap. split.
  - intros (k & Hk & ->%account_addr_key). apply list_elem_of_fmap in Hk as ([k' v] & -> & Hk).
    apply elem_of_map_to_list in Hk. by exists v.
  - intros [v Hv]. exists (key_of (KAccount a)). split; [|by apply account_addr_key].
    by apply (list_elem_of_fmap_2 fst _ (_, v)), elem_of_map_to_list.
Qed.

Lemma account_addrs_nodup d : NoDup (account_addrs d).
Proof.
  unfold account_addrs. pose proof (NoDup_fst_map_to_list d) as Hnd. induction Hnd as [|k l Hk Hnd IH]; simpl; [constructor|].
  destruct (account_addr k) as [a|] eqn:E; [|done]. apply NoDup_cons. split; [|done].
  intros (k' & Hk' & E')%list_elem_of_omap. apply account_addr_key in E, E'. congruence.
Qed.

Lemma sum_perm A B f : A ≡ₚ B → sum_over A f = sum_over B f.
Proof. induction 1; simpl; lia. Qed.

Lemma sum_app A B f : sum_over (A ++ B) f = sum_over A f + sum_over B f.
Proof. induction A as [|a A IH]; simpl; lia. Qed.

(** Addresses where the function is zero do not count. *)
Lemma sum_support A B f : NoDup A → NoDup B → (∀ a, a ∈ A → a ∈ B) → (∀ a, a ∈ B → a ∉ A → f a = 0) →
  sum_over B f = sum_over A f.
Proof.
  intros HA HB Hsub Hz. pose proof (NoDup_submseteq A B HA Hsub) as [C HC]%submseteq_Permutation.
  rewrite (sum_perm _ _ _ HC), sum_app. rewrite HC in HB. apply NoDup_app in HB as (_ & Hd & _).
  assert (E : sum_over C f = 0); [|lia]. rewrite (sum_ext C f (λ _, 0)).
  - clear. induction C as [|c C IH]; simpl; lia.
  - intros a Ha. apply Hz; [rewrite HC; apply elem_of_app; by right|]. intros Hin. by apply (Hd a).
Qed.

Section Supply.
Context `{TE : TxEnv, ZE : ZkEnv, VE : VoteEnv, SC : StoreCodec, CC : ContentCodec, DC : DedupCache}.

(** The total of the stored balances. *)
Definition supply (d : gmap string string) : Z := sum_over (account_addrs d) (stored_balance d).

Lemma supply_over A d : NoDup A → (∀ a, a ∈ account_addrs d → a ∈ A) →
  sum_over A (stored_balance d) = supply d.
Proof.
  intros HA Hsub. apply sum_support; [apply account_addrs_nodup|done|done|].
  intros a _ Hn. unfold stored_balance, stored. destruct (d !! key_of (KAccount a)) as [v|] eqn:E; [|done].
  destruct Hn. apply elem_of_account_addrs. by rewrite E.
Qed.

(** Data with the same accounts. *)
Definition same_accounts (d d' : gmap string string) : Prop :=
  ∀ a, d' !! key_of (KAccount a) = d !! key_of (KAccount a).

Lemma same_accounts_stored d d' : same_accounts d d' → accounts_stored d → accounts_stored d'.
Proof. intros H Hd a v. rewrite H. apply Hd. Qed.

Lemma same_accounts_supply d d' : same_accounts d d' → supply d' = supply d.
Proof.
  intros H. rewrite <- (supply_over (account_addrs d) d') at 1.
  - apply sum_ext. intros a _. unfold stored_balance, stored. by rewrite H.
  - apply account_addrs_nodup.
  - intros a. rewrite !elem_of_account_addrs. by rewrite H.
Qed.

Lemma pending_accounts b s : same_accounts (data s) (data (snd (AddBlockPending b s))).
Proof.
  destruct b as [b|]; [|done]. pose proof (AddBlockPending_cases b s) as HC.
  destruct (AddBlockPending (Some b) s) as [[u|e] s']; simpl; [|destruct HC as [-> _]; done].
  destruct HC as (_ & value & puts & _ & Hp & -> & _). intros a. apply batch_apply_ne.
  intros ([k v] & E & Hin)%list_elem_of_fmap. simpl in E. subst k.
  destruct (pending_batch_keys _ _ _ _ _ _ Hp Hin) as [[Ek _]|[[Ek _]|(tx & _ & [[Ek _]|[Ek _]])]]; discriminate Ek.
Qed.

(** The total stays below 2^256, so that no balance wraps around. *)
Definition conserves (d d' : gmap string string) : Prop :=
  accounts_stored d → supply d < 2 ^ 256 → accounts_stored d' ∧ supply d' = supply d.

#[export] Instance conserves_preorder : PreOrder conserves.
Proof.
  split; [by intros d|]. intros d1 d2 d3 H1 H2 Hd Hs. destruct (H1 Hd Hs) as [Hd2 E2].
  rewrite <- E2 in *. by apply H2.
Qed.

Lemma same_accounts_conserves d d' : same_accounts d d' → conserves d d'.
Proof. intros H Hd Hs. split; [by eapply same_accounts_stored|by apply same_accounts_supply]. Qed.

Lemma ledger_supply printable `{!StoreCodecOk printable} ht hr b il s :
  conserves (data s) (data (snd (fst (ledger_FinalizeBlock ht hr b il s)))).
Proof.
  intros Hd Hs. destruct (ledger_FinalizeBlock ht hr b il s) as [[r s'] out] eqn:E. simpl.
  set (A := remove_dups (account_addrs (data s) ++ account_addrs (data s') ++
                         block_addrs (loaded (data s) (block_tx_hashes b)))).
  assert (HA : NoDup A) by apply NoDup_remove_dups.
  assert (Hin : ∀ d, (d = data s ∨ d = data s') → sum_over A (stored_balance d) = supply d).
  { intros d Hdd. apply supply_over; [done|]. intros a Ha. unfold A. rewrite elem_of_remove_dups, !elem_of_app.
    destruct Hdd; subst d; tauto. }
  pose proof (ledger_conserves printable ht hr il b s s' r out A Hd HA) as HL.
  rewrite !Hin in HL by tauto. destruct r as [u|e].
  - apply and_comm. apply HL; [done| |done]. intros a Ha. unfold A. rewrite elem_of_remove_dups, !elem_of_app. tauto.
  - rewrite HL; [done|done| |done]. intros a Ha. unfold A. rewrite elem_of_remove_dups, !elem_of_app. tauto.
Qed.

Lemma conserves_rel printable `{!StoreCodecOk printable} : DataRel conserves.
Proof.
  split; [exact _|intros b s; apply same_accounts_conserves, pending_accounts|].
  intros. by apply (ledger_supply printable).
Qed.

(** The genesis accounts have the genesis amounts in all. *)
Lemma genesis_supply printable `{!StoreCodecOk printable} addrs s s' :
  (∀ g, g ∈ addrs → printable (gAddress g) ∧ in_width 256 (gAmount g)) →
  account_addrs (data s) = [] → CreateAccountsFromGenesis addrs s = (Ok tt, s') →
  accounts_stored (data s') ∧ supply (data s') = foldr Z.add 0 (gAmount <$> addrs).
Proof.
  intros Hp Hno E. destruct (genesis_created printable addrs s s' Hp E) as (Hnd & Hin & Hout).
  assert (Hnone : ∀ a, (∀ g, g ∈ addrs → gAddress g ≠ a) → data s' !! key_of (KAccount a) = None).
  { intros a Ha. rewrite Hout; [|done|intros g Hg Eg; injection Eg as Eg; by apply (Ha g)].
    apply eq_None_not_Some. intros H%elem_of_account_addrs. rewrite Hno in H. by apply elem_of_nil in H. }
  assert (Hsub : ∀ a, is_Some (data s' !! key_of (KAccount a)) → a ∈ gAddress <$> addrs).
  { intros a Ha. destruct (decide (a ∈ gAddress <$> addrs)) as [|Hn]; [done|]. rewrite Hnone in Ha; [by destruct Ha|].
    intros g Hg Eg. apply Hn. rewrite <- Eg. by apply list_elem_of_fmap_2. }
  split.
  - intros a v Hv. assert (Hg : a ∈ gAddress <$> addrs) by (apply Hsub; by rewrite Hv).
    apply list_elem_of_fmap in Hg as (g & -> & Hg).
    destruct (Hin g Hg) as [_ Hs]. unfold stored in Hs. rewrite Hv in Hs. simpl in Hs.
    by exists (mkAccount (gAddress g) (gAmount g) 0).
  - rewrite <- (supply_over (gAddress <$> addrs)); [|done|intros a Ha; by apply Hsub, elem_of_account_addrs].
    clear - Hin. induction addrs as [|g addrs IH]; [done|]. csimpl. rewrite IH by (intros; apply Hin; by right).
    unfold stored_balance at 1. destruct (Hin g) as [_ ->]; [left|done].
Qed.

(** [C1] The money of a validator is that of the genesis configuration.  Let the
    accounts of the genesis configuration be created in a database without
    accounts, with amounts that add up to less than 2^256.  After any run of the
    validator over that database (messages of any content, own blocks, timers, and
    database operations that fail, in any order) the stored balances still add up
    to the genesis amounts, and every account is stored under its address. *)
Theorem genesis_supply_forever printable `{!StoreCodecOk printable} (addrs : list GenesisAddress)
    (s0 s1 : Storage) (l : list vaction) (v v' : VState) :
  (∀ g, g ∈ addrs → printable (gAddress g) ∧ in_width 256 (gAmount g)) →
  account_addrs (data s0) = [] → foldr Z.add 0 (gAmount <$> addrs) < 2 ^ 256 →
  CreateAccountsFromGenesis addrs s0 = (Ok tt, s1) →
  db (val v) = data s1 → vrun v l = Some v' →
  supply (db (val v')) = foldr Z.add 0 (gAmount <$> addrs) ∧ accounts_stored (db (val v')).
Proof.
  intros Hp Hno Hb Hg Hv Hr. destruct (genesis_supply printable addrs s0 s1 Hp Hno Hg) as [Ha Hs].
  pose proof (conserves_rel printable) as HR. apply (vrun_keeps conserves) in Hr. rewrite Hv in Hr.
  destruct (Hr Ha) as [Ha' Hs']; [lia|]. split; [lia|done].
Qed.
End Supply.

(** ** The database is well typed *)

Lemma batch_apply_from b d k v : batch_apply b d !! k = Some v → (k, v) ∈ b ∨ d !! k = Some v.
Proof.
  induction b as [|[k' w] b IH] using rev_ind; [by right|]. rewrite batch_apply_app. simpl.
  destruct (decide (k' = k)) as [->|Hne].
  - rewrite lookup_insert_eq. intros [= <-]. left. apply elem_of_app. right. left.
  - rewrite lookup_insert_ne by done. intros [?|?]%IH; [left; apply elem_of_app; by left|by right].
Qed.

Lemma key_of_norm k1 k2 : key_of k1 = key_of k2 → norm_key k1 = norm_key k2.
Proof.
  intros E. destruct (norm_key_ok k1) as [E1 H1], (norm_key_ok k2) as [E2 H2]. apply key_of_inj; congruence.
Qed.

Section Types.
Context `{TE : TxEnv, ZE : ZkEnv, VE : VoteEnv, SC : StoreCodec, CC : ContentCodec, DC : DedupCache}.
Context (printable : string → Prop).

Definition account_typed (a : string) (acc : Account) : Prop :=
  Address acc = a ∧ printable a ∧ in_width 256 (Balance acc) ∧ in_width 64 (aNonce acc).

(** The value of a key is the encoding of an object of the key's kind, which has
    the key; the marker of an applied slot is a one, and a counter has eight
    bytes. *)
Definition value_typed (k : dbkey) (v : string) : Prop :=
  match k with
  | KAccount a => ∃ acc, json_of_account acc = Some v ∧ account_typed a acc
  | KTx h => ∃ tx, ptr_json tx = Some v ∧ ptr_Hash tx = h
  | KMeta h => ∃ m, json_of_meta m = Some v ∧ TxHash m = h
  | KVersion _ => ∃ h, hex_DecodeString h = Some v
  | KBlock s => ∃ b, json_of_block b = Some v ∧ wrap 64 (bSlot (blk_core b)) = wrap 64 s
  | KFinalized _ => v = String (to_byte 1) ""
  | KLatestFinalized | KLatestStore => string_len v = 8
  end.

Definition db_typed (d : gmap string string) : Prop := ∀ k v, d !! key_of k = Some v → value_typed k v.

Lemma value_typed_norm k k' v : key_of k = key_of k' → value_typed k v → value_typed k' v.
Proof.
  intros E%key_of_norm. destruct k, k'; simpl in E; try discriminate E; try (by injection E as ->); try done.
  injection E as E. intros (b & ? & Hb). exists b. by rewrite Hb.
Qed.

Lemma db_typed_batch b d :
  (∀ k v, (key_of k, v) ∈ b → value_typed k v) → db_typed d → db_typed (batch_apply b d).
Proof. intros Hb Hd k v [Hin|Hin]%batch_apply_from; [by apply Hb|by apply Hd]. Qed.

Lemma pending_typed b s : db_typed (data s) → db_typed (data (snd (AddBlockPending b s))).
Proof.
  intros Hd. destruct b as [b|]; [|done]. pose proof (AddBlockPending_cases b s) as HC.
  destruct (AddBlockPending (Some b) s) as [[u|e] s']; simpl; [|destruct HC as [-> _]; done].
  destruct HC as (_ & value & puts & Hv & Hp & -> & _). apply db_typed_batch; [|done]. intros k v Hin.
  destruct (pending_batch_keys _ _ _ _ _ _ Hp Hin) as [[Ek ->]|[(Ek & -> & _)|(tx & _ & [[Ek Ej]|[Ek Ej]])]];
    symmetry in Ek; apply (value_typed_norm _ _ _ Ek).
  - by exists (BroadcastedBlockToBlock b).
  - done.
  - by exists tx.
  - by eexists.
Qed.

(** The objects of a finalized block. *)
Lemma finalize_typed b ms accs vs s s' r :
  metas_keyed ms → (∀ a acc, accs !! a = Some acc → account_typed a acc) →
  store_FinalizeBlock b ms accs vs s = (r, s') → db_typed (data s) → db_typed (data s').
Proof.
  intros Hm Ha E Hd.
  assert (Hak : accounts_keyed accs) by (intros a acc H; by apply Ha).
  pose proof (FinalizeBlock_cases b ms accs vs s Hm Hak) as HC. rewrite E in HC.
  destruct r as [u|e]; [|by destruct HC as [-> _]].
  destruct HC as (_ & _ & _ & kb & bv & -> & Hk & Hbv & Hib & Hmk & Hac & Hvk & Hfk & Hlk).
  pose proof (finalize_norm_nodup (bSlot (blk_core b)) (latestFinalized s) ms accs vs) as Hnd.
  rewrite <- Hk in Hnd. apply NoDup_fmap_1 in Hnd.
  apply db_typed_batch; [|done]. intros k v ([k' v'] & Ek & Hin)%list_elem_of_fmap. simpl in Ek.
  injection Ek as Ek ->. symmetry in Ek. apply (value_typed_norm _ _ _ Ek). clear k Ek.
  pose proof (list_elem_of_fmap_2 fst _ _ Hin) as Hin'. rewrite Hk in Hin'. unfold finalize_keys in Hin'. simpl in Hin'.
  assert (Hu : ∀ w, (k', w) ∈ kb → v' = w) by (intros w Hw; by apply (nodup_fst_unique kb k')).
  rewrite elem_of_cons, !elem_of_app, elem_of_cons, !list_elem_of_fmap in Hin'.
  assert (Hget : ∀ A (m : gmap string A) i, i ∈ (map_to_list m).*1 → ∃ x, m !! i = Some x).
  { intros A m i ([i' x] & -> & Hi)%list_elem_of_fmap. exists x. by apply elem_of_map_to_list. }
  destruct Hin' as [->|[(i & -> & Hi)|[(i & -> & Hi)|[(i & -> & Hi)|[->|Hl]]]]].
  - rewrite (Hu bv Hib). by exists (finalized_block b).
  - apply Hget in Hi as [m Hi]. destruct (Hmk i m Hi) as (w & Hw & Hiw). rewrite (Hu w Hiw). exists m. by rewrite (Hm i m Hi).
  - apply Hget in Hi as [acc Hi]. destruct (Hac i acc Hi) as (w & Hw & Hiw). rewrite (Hu w Hiw). exists acc. by split; [|apply Ha].
  - apply Hget in Hi as [h Hi]. destruct (Hvk i h Hi) as (w & Hw & Hiw). rewrite (Hu w Hiw). by exists h.
  - by rewrite (Hu _ Hfk).
  - destruct (latestFinalized s <? bSlot (blk_core b)) eqn:El; [|by apply elem_of_nil in Hl].
    apply list_elem_of_singleton in Hl as ->. by rewrite (Hu _ (Hlk ltac:(blia))).
Qed.

(** Transfers keep the state typed, whatever the amounts. *)
Lemma applyTx_typed st tx r st' : printable (Sender tx) → printable (Recipient tx) → in_width 64 (Nonce tx) →
  (∀ a acc, st !! a = Some acc → account_typed a acc) → applyTx st (Some tx) = (r, st') →
  ∀ a acc, st' !! a = Some acc → account_typed a acc.
Proof.
  intros Hs Hr Hn. unfold applyTx. destruct (Amount tx) as [amount|]; [|by intros ? [= _ <-]].
  set (T := λ st : gmap string Account, ∀ a acc, st !! a = Some acc → account_typed a acc).
  assert (Hens : ∀ st addr, printable addr → T st → T (ensure_account st addr)).
  { intros st0 addr Hp Ht a acc. rewrite ensure_account_lookup. case_bool_decide as E; [|apply Ht]. subst.
    intros [= <-]. destruct (st0 !! addr) as [acc|] eqn:Ea; [by apply Ht|by split_and!]. }
  assert (Halt : ∀ st i f, (∀ acc, account_typed i acc → account_typed i (f acc)) → T st → T (alter f i st)).
  { intros st0 i f Hf Ht a acc. destruct (decide (i = a)) as [->|]; [|rewrite lookup_alter_ne by done; apply Ht].
    rewrite lookup_alter_eq. intros (acc0 & H0 & ->)%fmap_Some. by apply Hf, Ht. }
  intros Hst. fold (T st) in Hst. apply (Hens _ (Sender tx) Hs), (Hens _ (Recipient tx) Hr) in Hst.
  destruct (_ !! Sender tx) as [sender|]; [|by intros [= _ <-]]. destruct (_ <? _); intros [= _ <-]; [done|].
  apply Halt; [|apply Halt; [|apply Halt; [|done]]]; intros acc (? & ? & ? & ?); split_and!; try done;
    unfold set_balance, u256_sub, u256_add; simpl; apply wrap_range; lia.
Qed.

Context `{SO : !StoreCodecOk printable}.

(** A typed database has decodable accounts, under their addresses. *)
Lemma typed_accounts d : db_typed d → ∀ a acc, stored d a = Some acc → account_typed a acc.
Proof.
  intros Hd a acc. unfold stored. destruct (d !! key_of (KAccount a)) as [v|] eqn:E; [|done]. simpl. intros Hj.
  destruct (Hd _ _ E) as (acc' & Hv & Ht). destruct Ht as (Ha & Hp & Hb & Hn).
  rewrite (json_account_roundtrip acc' v) in Hj; [|by rewrite Ha|done..]. by injection Hj as <-.
Qed.

Lemma ledger_typed ht hr b il s : db_typed (data s) →
  db_typed (data (snd (fst (ledger_FinalizeBlock ht hr b il s)))).
Proof.
  intros Hd. destruct (ledger_FinalizeBlock ht hr b il s) as [[r s'] out] eqn:E. simpl.
  destruct (ledger_shape _ _ _ _ _ _ _ _ E) as [->|(state & related & latest & s4 & r5 & D & Hs & E5 & _)]; [done|].
  cbn zeta in *. set (txs := loaded (data s) (block_tx_hashes b)) in *. set (p := foldl (process_tx _ _) _ txs) in *.
  assert (Hp : (∀ a acc, accounts p !! a = Some acc → account_typed a acc) ∧ metas_keyed (metas p)).
  { assert (Htx : ∀ tx, tx ∈ txs → ∃ v, json_to_tx v = Some tx).
    { intros tx (h & _ & Ht)%list_elem_of_omap. destruct (data s !! key_of (KTx h)) as [v|]; [|done]. by exists v. }
    assert (H0 : ∀ a acc, accounts (mkProgress state ∅ [] [] [] []) !! a = Some acc → account_typed a acc).
    { intros a acc. simpl. rewrite Hs. case_bool_decide; [|done]. by apply typed_accounts. }
    assert (M0 : metas_keyed (metas (mkProgress state ∅ [] [] [] []))) by done.
    unfold p. clear p E5 Hs. clearbody txs. revert H0 M0. generalize (mkProgress state ∅ [] [] [] []).
    induction txs as [|tx txs IH]; intros p H0 M0; simpl; [done|].
    apply IH; [intros; apply Htx; by right| |by apply process_tx_metas].
    unfold process_tx. destruct (Type_ tx =? TxTypeUserContent); [by destruct (json_to_content _)|].
    destruct (applyTx (accounts p) (Some tx)) as [r0 st'] eqn:Ea. simpl. destruct (Htx tx) as [v Hv]; [left|].
    destruct (json_to_tx_ok v tx Hv) as (? & ? & ? & _). by eapply (applyTx_typed (accounts p) tx). }
  destruct Hp as [Hacc Hmp]. eapply (finalize_typed b _ _ _ s4); [|exact Hacc|exact E5|by rewrite D].
  by apply (process_content_metas b related (metas p, latest)).
Qed.

Lemma typed_rel : DataRel (λ d d', db_typed d → db_typed d').
Proof.
  split; [split; [by intros d|intros d1 d2 d3; tauto]|intros b s; apply pending_typed|intros; by apply ledger_typed].
Qed.

(** The counters of a typed database load. *)
Lemma typed_reopens d : db_typed d → fst (NewGenericBlockStore d []) = Ok tt.
Proof.
  intros Hd. unfold NewGenericBlockStore, loadLatestFinalized, read_counter, db_Get, db_step. st_run. simpl.
  destruct (d !! latest_finalized_key) as [v|] eqn:E1; [|done].
  pose proof (Hd KLatestFinalized v E1) as H1. simpl in H1. rewrite H1. change (8 =? 8) with true. st_run. simpl.
  destruct (d !! latest_store_key) as [w|] eqn:E2; [|by st_run].
  pose proof (Hd KLatestStore w E2) as H2. simpl in H2. rewrite H2. by st_run.
Qed.

(** [C2] The database of a validator stays well typed.  If every value of the
    database is the encoding of an object of the kind its key says, under the key
    of that object, with balances of 256 and nonces of 64 bits, then so it is after
    any run of the validator, whatever it receives and whichever database
    operations fail.  In a well typed database every account that is looked up
    decodes and is the one asked for, and the block store can be opened again. *)
Theorem database_stays_typed (l : list vaction) (v v' : VState) :
  db_typed (db (val v)) → vrun v l = Some v' →
  db_typed (db (val v')) ∧
  (∀ a, match d_ ← db (val v') !! key_of (KAccount a); Some (json_to_account d_) with
        | Some (Some acc) => account_typed a acc
        | Some None => False
        | None => True
        end) ∧
  fst (NewGenericBlockStore (db (val v')) []) = Ok tt.
Proof.
  intros Hd Hr. pose proof typed_rel as HR.
  pose proof (vrun_keeps (λ d d', db_typed d → db_typed d') l v v' Hr Hd) as Hd'. split_and!; [done| |by apply typed_reopens]. intros a.
  pose proof (typed_accounts _ Hd' a) as Ht. unfold stored in Ht.
  destruct (db (val v') !! key_of (KAccount a)) as [w|] eqn:E; simpl in *; [|done].
  destruct (Hd' (KAccount a) w E) as (acc & Hj & Ha & Hp & Hb & Hn).
  assert (Hjj : json_to_account w = Some acc) by (apply json_account_roundtrip; congruence || done).
  rewrite Hjj in *. by apply Ht.
Qed.
End Types.

(** ** A run *)

#[export] Instance node_codec_ok : @StoreCodecOk node_codec (λ _, True).
Proof.
  split.
  - intros v tx Hv. pose proof (head_filter_elem _ _ _ Hv) as Hin. clear Hv.
    repeat (apply elem_of_cons in Hin as [->|Hin]; [by vm_compute|]). by apply elem_of_nil in Hin.
  - exact (@json_to_account_ok ledger_codec (λ _, True) ledger_codec_ok).
  - exact (@json_account_roundtrip ledger_codec (λ _, True) ledger_codec_ok).
Qed.

(** A node whose only genesis account has 100, over an empty database. *)
Definition genesis : list GenesisAddress := [mkGenesis example_addr 100].
Definition genesis_run := @CreateAccountsFromGenesis node_codec genesis empty_storage.
Definition genesis_state : VState (ZE := example_zk_env) (DC := list_dedup) :=
  let s := example_validator 3 in
  with_val (ZE := example_zk_env) (DC := list_dedup) s
    (set_net (ZE := example_zk_env) (DC := list_dedup) (set_storage (snd genesis_run) node0) (val s)).

(** A block of the network with a transfer, and the votes that commit it. *)
Definition commit5 : list vaction :=
  [VMessage (MBlock block5 true); VMessage (MVote (vote_of 5 block5 other_key));
   VMessage (MVote (vote_of 5 block5 example_key)); VHash; VFlush 7].
Definition run5 : option (VState (ZE := example_zk_env) (DC := list_dedup)) :=
  @vrun node_env example_zk_env node_votes node_codec no_contents list_dedup genesis_state commit5.
Definition state5 : VState (ZE := example_zk_env) (DC := list_dedup) := default genesis_state run5.

Lemma run5_ok : run5 = Some state5.
Proof.
  unfold state5. assert (H : bool_decide (is_Some run5) = true) by (vm_compute; reflexivity).
  apply bool_decide_eq_true in H as [s ->]. done.
Qed.

(** The transfer of 60 happened, and the total is 100. *)
Lemma genesis_supply_forever_witness :
  @stored_balance node_codec (db (val state5)) other_addr = 60 ∧ @supply node_codec (db (val state5)) = 100.
Proof.
  split; [vm_compute; reflexivity|].
  refine (proj1 (@genesis_supply_forever node_env example_zk_env node_votes node_codec no_contents list_dedup
    (λ _, True) node_codec_ok genesis empty_storage (snd genesis_run) commit5 genesis_state state5 _ _ _ _ _ run5_ok)).
  - intros g Hg. apply list_elem_of_singleton in Hg as ->. split; [done|]. unfold in_width. simpl. lia.
  - reflexivity.
  - vm_compute. reflexivity.
  - vm_compute. reflexivity.
  - reflexivity.
Defined.

Lemma database_stays_typed_witness :
  fst (NewGenericBlockStore (db (val state5)) []) = Ok tt ∧
  @stored node_codec (db (val state5)) other_addr = Some (mkAccount other_addr 60 0).
Proof.
  split; [|vm_compute; reflexivity].
  refine (proj2 (proj2 (@database_stays_typed node_env example_zk_env node_votes node_codec no_contents list_dedup
    (λ _, True) node_codec_ok commit5 genesis_state state5 _ run5_ok))).
  assert (E : db (val genesis_state) = batch_apply [(key_of (KAccount example_addr),
    be_bytes 32 100 +:+ be_bytes 8 0 +:+ example_addr)] ∅) by (vm_compute; reflexivity).
  rewrite E. apply db_typed_batch; [|by intros k v Hv; rewrite lookup_empty in Hv].
  intros k v Hin. apply list_elem_of_singleton in Hin. apply pair_equal_spec in Hin as [Ek ->]. symmetry in Ek.
  apply (value_typed_norm (SC := node_codec) _ _ _ _ Ek).
  exists (mkAccount example_addr 100 0). split; [reflexivity|]. split_and!; simpl; try done; unfold in_width; lia.
Defined.
