(* ===== verification/Progress.v ===== *)
(** * Progress of the mempool

    A pending transaction does not wait for ever: the order is first in, first
    out, and no call moves a transaction back.  The runs are those of the
    interleaved calls of Mempool.v, with a count of the batches pulled. *)

From stdpp Require Import base list gmap strings.
From Stdlib Require Import ZArith Lia.
From S2P Require Import Prelude GoLib Transaction Poh Block Store BlockStore Ledger Mempool.

Open Scope string_scope.
Open Scope list_scope.
Open Scope Z_scope.

Section Progress.
Context `{TE : TxEnv, ZE : ZkEnv, SC : StoreCodec, CC : ContentCodec, DC : DedupCache}.

(** A run with [k] calls of [PullBatch] of at least [n], and any other calls. *)
Inductive pulls (U : Transaction → Prop) (S : Storage → Prop) (n : Z) : nat → Pool → Pool → Prop :=
| pulls_refl p : pulls U S n 0 p p
| pulls_step k p q r : mp_step U S p q → pulls U S n k q r → pulls U S n k p r
| pulls_pull k mp w l c m mp' batch r :
    n ≤ m → PullBatch_locked mp m = Some (mp', batch) →
    pulls U S n k (mkPool mp' w (batch :: l) c) r → pulls U S n (Datatypes.S k) (mkPool mp w l c) r.

(** The step in which the transaction of a hash leaves: it is in a batch, or in
    a block that was received. *)
Inductive leaves (h : string) : Pool → Pool → Prop :=
| leaves_pulled mp w l c m mp' batch tx :
    PullBatch_locked mp m = Some (mp', batch) → tx ∈ batch → Hash tx = h →
    leaves h (mkPool mp w l c) (mkPool mp' w (batch :: l) c)
| leaves_cleaned mp w l c (hs : gset string) mp' :
    BlockCleanup mp hs = Some mp' → h ∈ hs → leaves h (mkPool mp w l c) (mkPool mp' w l c).

Lemma filter_lookup_le {A} (P : A → Prop) `{!∀ x, Decision (P x)} (l : list A) i x :
  l !! i = Some x → P x → ∃ j, (j ≤ i)%nat ∧ filter P l !! j = Some x.
Proof.
  intros Hi Hx. exists (length (filter P (take i l))). split.
  - etrans; [apply length_filter|]. rewrite length_take. lia.
  - rewrite <- (take_drop_middle l i x Hi) at 2. rewrite filter_app, filter_cons_True by done.
    by rewrite list_lookup_middle.
Qed.

Lemma pull_moves_up mp m mp' batch i h w l c : mp_wf mp → PullBatch_locked mp m = Some (mp', batch) →
  txOrder mp !! i = Some h →
  leaves h (mkPool mp w l c) (mkPool mp' w (batch :: l) c) ∨
  ∃ j, Z.of_nat i = Z.of_nat j + m ∧ txOrder mp' !! j = Some h.
Proof.
  intros Hwf Hp Hi. destruct (pull_inv _ _ _ _ Hp) as [Hm Hl].
  destruct (pull_loop_txs _ _ _ _ Hl) as (Eo & _). simpl in Eo.
  destruct (Nat.lt_ge_cases i (Z.to_nat m)) as [Hlt|Hge].
  - left. assert (Hb : Hash <$> batch = take (Z.to_nat m) (txOrder mp)).
    { eapply pull_loop_batch, Hl; simpl.
      - apply Hwf.
      - pose proof (wf_order _ Hwf) as Hnd. rewrite <- (take_drop (Z.to_nat m) (txOrder mp)) in Hnd.
        by apply NoDup_app in Hnd as [Hnd _].
      - intros x Hx. apply Hwf. rewrite <- (take_drop (Z.to_nat m) (txOrder mp)). apply elem_of_app. by left. }
    assert (Hh : h ∈ Hash <$> batch).
    { rewrite Hb. apply list_elem_of_lookup. exists i. by rewrite lookup_take_lt. }
    apply list_elem_of_fmap in Hh as (tx & -> & Htx). by eapply leaves_pulled.
  - right. exists (i - Z.to_nat m)%nat. split; [lia|]. rewrite Eo, lookup_drop. rewrite <- Hi. f_equal. lia.
Qed.

(** No step moves a pending transaction back. *)
Lemma step_moves_up U S p q i h : mp_wf (pool p) → mp_step U S p q → txOrder (pool p) !! i = Some h →
  leaves h p q ∨ ∃ j, (j ≤ i)%nat ∧ txOrder (pool q) !! j = Some h.
Proof.
  intros Hwf Hs Hi. destruct Hs as [mp w l c tx zk zk' Hu Hc|mp w1 w2 l c tx s r mp' s' HS Ha
    |mp w l c n mp' batch Ha|mp w l1 l2 c batch|mp w l c hs mp' Ha|mp w l c slot]; simpl in *.
  - right. by exists i.
  - right. exists i. split; [done|]. apply AddTx_locked_cases in Ha as [[_ ->]|(_ & -> & _)]; [done|].
    simpl. by apply lookup_app_l_Some.
  - destruct (pull_moves_up _ _ _ _ i h w l c Hwf Ha Hi) as [?|(j & Hj & ?)]; [by left|].
    right. exists j. destruct (pull_inv _ _ _ _ Ha). split; [lia|done].
  - right. by exists i.
  - destruct (decide (h ∈ hs)) as [Hh|Hh]; [left; by eapply leaves_cleaned|]. right.
    destruct (cleanup_inv _ _ _ Ha) as (m & b & Hp & ->). destruct (pull_loop_txs _ _ _ _ Hp) as (Eo & _).
    simpl. rewrite Eo. by apply filter_lookup_le.
  - right. exists i. split; [done|]. unfold SetCurrentSlot. by destruct (_ <=? _).
Qed.

Lemma pulls_rtc U S n k p q : pulls U S n k p q → rtc (mp_step U S) p q.
Proof.
  induction 1 as [|k p q r Hs _ IH|k mp w l c m mp' batch r _ Hp _ IH]; [done|by eapply rtc_l|].
  eapply rtc_l; [by apply step_pull with (n := m)|done].
Qed.

(** [C13] Every pending transaction leaves the pool: a transaction at place [i] of
    the order, after batches of together more than [i] transactions and whatever
    other calls in between, has been pulled in one of the batches or removed with a
    block that contains it. *)
Theorem pending_transaction_leaves (U : Transaction → Prop) (S : Storage → Prop) (maxSize : Z) (c : DCache)
    (p q : Pool) (n : Z) (k i : nat) (h : string) :
  no_collision U → rtc (mp_step U S) (mkPool (NewMempool maxSize) [] [] c) p →
  txOrder (pool p) !! i = Some h → 0 < n → pulls U S n k p q → Z.of_nat i < Z.of_nat k * n →
  ∃ p1 p2, rtc (mp_step U S) p p1 ∧ leaves h p1 p2 ∧ rtc (mp_step U S) p2 q.
Proof.
  intros HU Hr. apply pool_inv_reachable in Hr; [|done]. intros Hi Hn Hp. revert i Hi Hr.
  induction Hp as [p|k p q r Hs Hp IH|k mp w l c' m mp' batch r Hm Hb Hp IH]; intros i Hi Hr Hk; [lia| |].
  - pose proof (pool_inv_step _ _ _ _ HU Hr Hs) as Hr'.
    destruct (step_moves_up _ _ _ _ i h (proj1 Hr) Hs Hi) as [Hl|(j & Hj & Hi')].
    + exists p, q. split_and!; [done|done|by eapply pulls_rtc].
    + destruct (IH j Hi' Hr') as (p1 & p2 & H1 & H2 & H3); [lia|]. exists p1, p2. by split_and!; [eapply rtc_l|..].
  - assert (Hs : mp_step U S (mkPool mp w l c') (mkPool mp' w (batch :: l) c')) by by eapply step_pull.
    pose proof (pool_inv_step _ _ _ _ HU Hr Hs) as Hr'.
    destruct (pull_moves_up mp m mp' batch i h w l c' (proj1 Hr) Hb Hi) as [Hl|(j & Hj & Hi')].
    + eexists _, _. split_and!; [done|exact Hl|by eapply pulls_rtc].
    + destruct (IH j Hi' Hr') as (p1 & p2 & H1 & H2 & H3); [lia|].
      exists p1, p2. by split_and!; [eapply rtc_l|..].
Qed.

End Progress.

(** Two batches of one take the second of two transfers. *)
Definition pool_of (mp : Mempool) (l : list (list Transaction)) : Pool (DC := list_dedup) :=
  mkPool (DC := list_dedup) mp [] l [].
Definition pull_one (mp : Mempool) : Mempool * list Transaction :=
  default (mp, []) (@PullBatch_locked example_tx_env mp 1).

Lemma pending_transaction_leaves_witness :
  let mp := submit_all (start 5) two_transfers in
  let q := pool_of (fst (pull_one (fst (pull_one mp)))) [snd (pull_one (fst (pull_one mp))); snd (pull_one mp)] in
  let steps := @mp_step example_tx_env example_zk_env ledger_codec no_contents list_dedup
    (λ tx, tx ∈ two_transfers) (λ s, data s = data funds) in
  ∃ p1 p2, rtc steps (pool_of mp []) p1 ∧
    leaves (TE := example_tx_env) (DC := list_dedup) (@Hash example_tx_env (transfer 30 4 "carol")) p1 p2 ∧
    rtc steps p2 q.
Proof.
  intros mp q steps.
  assert (H1 : PullBatch_locked (TE := example_tx_env) mp 1 = Some (pull_one mp)) by (vm_compute; reflexivity).
  assert (H2 : PullBatch_locked (TE := example_tx_env) (fst (pull_one mp)) 1 = Some (pull_one (fst (pull_one mp))))
    by (vm_compute; reflexivity).
  refine (@pending_transaction_leaves example_tx_env example_zk_env ledger_codec no_contents list_dedup
    (λ tx, tx ∈ two_transfers) (λ s, data s = data funds) 5 [] (pool_of mp []) q 1 2 1
    (@Hash example_tx_env (transfer 30 4 "carol")) two_transfers_distinct _ _ _ _ _).
  - apply (start_run _ 5). by apply Forall_forall.
  - vm_compute. reflexivity.
  - lia.
  - eapply (pulls_pull (DC := list_dedup) _ _ 1 1 mp [] []); [reflexivity|rewrite H1; apply f_equal, surjective_pairing|].
    eapply (pulls_pull (DC := list_dedup) _ _ 1 0); [reflexivity|rewrite H2; apply f_equal, surjective_pairing|]. apply pulls_refl.
  - lia.
Defined.
