(* ===== verification/Sync.v ===== *)
(** * Synchronisation of blocks (p2p/block.go, p2p/tracker.go, p2p/utils.go, p2p/discovery.go, p2p/pubsub.go)

    How a node serves stored blocks to a peer, tracks the requests, compares
    checkpoints and decides how to start.  The transport is reduced to whether a
    write succeeds; the store does not change while a request is served. *)

From stdpp Require Import base list gmap strings.
From Stdlib Require Import ZArith Lia.
From S2P Require Import Prelude GoLib Transaction Poh Schedule Consensus Block Store BlockStore Ledger.
From S2P Require Import Mempool Node.

Open Scope string_scope.
Open Scope list_scope.
Open Scope Z_scope.

Definition SyncBlocksBatchSize : Z := 100.

Record SyncRequest := mkSyncRequest { RequestID : string; FromSlot : Z; ToSlot : Z }.

(** ** Requests *)

(** The requests of [RequestBlockSync] and [RequestSingleBlockSync] for an identifier. *)
Definition RequestBlockSync (requestID : string) (fromSlot : Z) : SyncRequest :=
  mkSyncRequest requestID fromSlot (u64_sub (u64_add fromSlot SyncBlocksBatchSize) 1).
Definition RequestSingleBlockSync (requestID : string) (slot : Z) : SyncRequest :=
  mkSyncRequest requestID slot slot.
Definition RequestBlockSyncFromLatest (requestID : string) (s : Storage) : SyncRequest :=
  RequestBlockSync requestID (u64_add (GetLatestFinalizedSlot s) 1).

(** ** Serving blocks *)

Section Serve.
Context `{TE : TxEnv, SC : StoreCodec}.

(** Transactions that cannot be loaded are replaced by none. *)
Definition convert_entry (e : PersistentEntry) (s : Storage) : Entry * Storage :=
  match tx_GetBatch (TxHashes e) s with
  | (Ok l, s) => (mkEntry (PNumHashes e) (PHash e) (Some <$> l) (PTick e), s)
  | (Err _, s) => (mkEntry (PNumHashes e) (PHash e) [] (PTick e), s)
  end.

Fixpoint convert_entries (l : list PersistentEntry) (s : Storage) : list Entry * Storage :=
  match l with
  | [] => ([], s)
  | e :: l' =>
      let '(e, s) := convert_entry e s in
      let '(es, s) := convert_entries l' s in (e :: es, s)
  end.

Definition convertBlockToBroadcastedBlock (blk : Block) (s : Storage) : BroadcastedBlock * Storage :=
  let '(es, s) := convert_entries (blk_Entries blk) s in (mkBroadcasted (blk_core blk) es, s).

(** The batch being filled, the batches written to the stream, which writes
    succeed (all when the list is empty), and the store. *)
Record Sender := mkSender {
  sbatch : list BroadcastedBlock; sent : list (list BroadcastedBlock); writes : list bool; sstore : Storage;
}.

(** Writes the batch and empties it, or fails. *)
Definition sendBlockBatchStream (x : Sender) : bool * Sender :=
  match writes x with
  | false :: ws => (false, mkSender (sbatch x) (sent x) ws (sstore x))
  | ws => (true, mkSender [] (sent x ++ [sbatch x]) (tail ws) (sstore x))
  end.

(** The block of a slot is appended to the batch, if there is one. *)
Definition load_slot (slot : Z) (x : Sender) : Sender :=
  match store_Block slot (sstore x) with
  | (Ok (Some blk), s) =>
      let '(b, s) := convertBlockToBroadcastedBlock blk s in
      mkSender (sbatch x ++ [b]) (sent x) (writes x) s
  | (_, s) => mkSender (sbatch x) (sent x) (writes x) s
  end.

(** The inner loop; [false] is the early return. *)
Fixpoint send_slots (fuel : nat) (slot to : Z) (x : Sender) : bool * Sender :=
  match fuel with
  | O => (true, x)
  | S fuel' =>
      if slot <=? to then
        let x := load_slot slot x in
        let '(ok, x) :=
          if SyncBlocksBatchSize <=? Z.of_nat (length (sbatch x)) then sendBlockBatchStream x else (true, x) in
        if ok : bool then send_slots fuel' (u64_add slot 1) to x else (false, x)
      else (true, x)
  end.

(** The outer loop. *)
Fixpoint send_ranges (fuel : nat) (from to : Z) (x : Sender) : bool * Sender :=
  match fuel with
  | O => (true, x)
  | S fuel' =>
      let latest := GetLatestFinalizedSlot (sstore x) in
      if latest <? from then (true, x)
      else
        let to := if latest <? to then latest else to in
        let '(ok, x) := send_slots (Z.to_nat (to - from + 1)) from to x in
        if negb ok then (false, x)
        else
          let '(ok, x) := if bool_decide (sbatch x = []) then (true, x) else sendBlockBatchStream x in
          if negb ok then (false, x)
          else
            let from := u64_add to 1 in
            send_ranges fuel' from (u64_sub (u64_add from SyncBlocksBatchSize) 1) x
  end.

(** Each round after the first starts at a later slot, up to the latest one. *)
Definition ranges_fuel (from to latest : Z) : nat := S (S (Z.to_nat (latest - Z.min from (to + 1) + 1))).

Definition sendBlocksOverStream (req : SyncRequest) (ws : list bool) (s : Storage) : Sender :=
  let localLatestSlot := GetLatestFinalizedSlot s in
  let x := mkSender [] [] ws s in
  if (0 <? localLatestSlot) && (localLatestSlot <? FromSlot req) then x
  else snd (send_ranges (ranges_fuel (FromSlot req) (ToSlot req) localLatestSlot) (FromSlot req) (ToSlot req) x).

(** ** Checkpoints *)

Definition getCheckpointHash (checkpoint : Z) (s : Storage) : option (Z * string) * Storage :=
  if checkpoint =? 0 then (None, s)
  else
    let latest := GetLatestFinalizedSlot s in
    if latest =? 0 then (None, s)
    else if latest <? checkpoint then (None, s)
    else
      match store_Block checkpoint s with
      | (Ok (Some blk), s) => (Some (checkpoint, bHash (blk_core blk)), s)
      | (_, s) => (None, s)
      end.

(** The request a checkpoint response leads to, if any. *)
Definition handleCheckpointStream (requestID : string) (checkpoint : Z) (blockHash : string) (s : Storage)
    : option SyncRequest * Storage :=
  match getCheckpointHash checkpoint s with
  | (Some (_, localHash), s) =>
      (if bool_decide (localHash = blockHash) then None
       else Some (RequestSingleBlockSync requestID checkpoint), s)
  | (None, s) => (None, s)
  end.

End Serve.

(** ** Trackers of requests *)

(** A stream is a number; [None] is the nil stream.  The operations return the
    streams they close. *)
Record SyncRequestTracker := mkTracker {
  trID : string; trFrom : Z; trTo : Z; StartTime : Z; IsActive : bool; ActivePeer : string;
  ActiveStream : option nat; AllPeers : gmap string (option nat);
}.

Definition NewSyncRequestTracker (requestID : string) (fromSlot toSlot now : Z) : SyncRequestTracker :=
  mkTracker requestID fromSlot toSlot now false "" None ∅.

Definition ActivatePeer (t : SyncRequestTracker) (peerID : string) (stream : option nat)
    : bool * SyncRequestTracker :=
  let all := <[peerID := stream]> (AllPeers t) in
  if IsActive t
  then (false, mkTracker (trID t) (trFrom t) (trTo t) (StartTime t) (IsActive t) (ActivePeer t) (ActiveStream t) all)
  else (true, mkTracker (trID t) (trFrom t) (trTo t) (StartTime t) true peerID stream all).

Definition CloseRequest (t : SyncRequestTracker) : list nat * SyncRequestTracker :=
  (option_list (ActiveStream t),
   mkTracker (trID t) (trFrom t) (trTo t) (StartTime t) false "" None (AllPeers t)).

(** The streams of the peers, without nil. *)
Definition open_streams (m : gmap string (option nat)) : list nat := omap snd (map_to_list m).

Definition CloseAllOtherPeers (t : SyncRequestTracker) : list nat * SyncRequestTracker :=
  (open_streams (filter (λ p, p.1 ≠ ActivePeer t) (AllPeers t)),
   mkTracker (trID t) (trFrom t) (trTo t) (StartTime t) (IsActive t) (ActivePeer t) (ActiveStream t) ∅).

Definition CloseAllPeers (t : SyncRequestTracker) : list nat * SyncRequestTracker :=
  (option_list (ActiveStream t) ++ open_streams (AllPeers t),
   mkTracker (trID t) (trFrom t) (trTo t) (StartTime t) false "" None ∅).

(** Times are in nanoseconds. *)
Definition thirty_minutes : Z := 30 * 60 * 10 ^ 9.

Definition with_start (t : SyncRequestTracker) (now : Z) : SyncRequestTracker :=
  mkTracker (trID t) (trFrom t) (trTo t) now (IsActive t) (ActivePeer t) (ActiveStream t) (AllPeers t).

(** What the cleanup leaves of a tracker, and the streams it closes. *)
Definition cleanup_one (now : Z) (t : SyncRequestTracker) : list nat * option SyncRequestTracker :=
  if StartTime t <? now - thirty_minutes then
    if IsActive t then let '(cl, t) := CloseAllOtherPeers t in (cl, Some (with_start t now))
    else let '(cl, _) := CloseAllPeers t in (cl, None)
  else ([], Some t).

Definition CleanupExpiredRequests (now : Z) (m : gmap string SyncRequestTracker) : gmap string SyncRequestTracker :=
  omap (λ t, snd (cleanup_one now t)) m.

(** The tracker of a request, created when there is none. *)
Definition tracker_for (req : SyncRequest) (now : Z) (m : gmap string SyncRequestTracker) : SyncRequestTracker :=
  default (NewSyncRequestTracker (RequestID req) (FromSlot req) (ToSlot req) now) (m !! RequestID req).

(** The part of [handleBlockSyncRequestTopic] before the blocks are sent: whether
    the peer is served. *)
Definition admit_peer (req : SyncRequest) (peerID : string) (stream : option nat) (now : Z)
    (m : gmap string SyncRequestTracker) : bool * gmap string SyncRequestTracker :=
  let '(ok, t) := ActivatePeer (tracker_for req now m) peerID stream in
  (ok, <[RequestID req := t]> m).

(** The deferred part of [sendBlocksOverStream]. *)
Definition finish_request (id : string) (m : gmap string SyncRequestTracker) : gmap string SyncRequestTracker :=
  delete id m.

(** ** Starting a node *)

Section Start.
Context `{TE : TxEnv, ZE : ZkEnv, VE : VoteEnv, SC : StoreCodec, CC : ContentCodec, DC : DedupCache}.

(** The hash of the last entry of a stored block, or zero. *)
Definition last_hash_at (slot : Z) (n : Node) : string * Node :=
  let '(b, n) := reading (store_Block slot) None n in
  (match b with Some blk => block_LastEntryHash blk | None => zero_hash end, n).

(** [startCoreServices] marks the node ready. *)
Definition core_started (n : Node) : Node := set_ready true (fullModeDone n) n.

Definition startImmediatelyFromLocalLatestSlot (n : Node) : Node * list Effect :=
  let latest := GetLatestFinalizedSlot (storage n) in
  let '(seed, n) := if 0 <? latest then last_hash_at latest n else (zero_hash, n) in
  (core_started n, [ForceResetPOH seed latest; StartCoreServices]).

Definition handlePohResetIfNeeded (localLatestSlot : Z) (n : Node) : bool * Node * list Effect :=
  if (0 <? worldLatestPohSlot n) && (worldLatestPohSlot n <=? localLatestSlot) then
    let '(seed, n) := last_hash_at localLatestSlot n in
    (true, core_started n, [ForceResetPOH seed localLatestSlot; StartCoreServices])
  else (false, n, []).

(** [enableFullModeOnce.Do]. *)
Definition once (f : Node → Node * list Effect) (n : Node) : Node * list Effect :=
  if fullModeDone n then (n, []) else f (set_ready (ready n) true n).

(** What [startAfterSyncWithPeers] does once its waits are over, in a node whose
    world slots are those it waited for: the effects, and whether blocks are
    requested. [init] is the answer of [ensureWorldLatestSlotInitialized]. *)
Definition startAfterSyncWithPeers (init : bool) (n : Node) : Node * list Effect * bool :=
  let localLatestSlot := GetLatestFinalizedSlot (storage n) in
  if localLatestSlot =? 0 then
    if (worldLatestSlot n =? 0) && negb init
    then (once (λ n, (core_started n, [StartCoreServices])) n, false)
    else (n, [], true)
  else
    let '(done, n, out) := handlePohResetIfNeeded localLatestSlot n in
    if done : bool then (n, out, false)
    else if localLatestSlot <? worldLatestSlot n then (n, [], true)
    else (once startImmediatelyFromLocalLatestSlot n, false).

End Start.

(** ** Served blocks *)

Section ServeCorrect.
Context `{TE : TxEnv, SC : StoreCodec}.

(** The block that is served for a stored one, from the data. *)
Definition served_entry (d : gmap string string) (e : PersistentEntry) : Entry :=
  mkEntry (PNumHashes e) (PHash e) (Some <$> loaded d (TxHashes e)) (PTick e).
Definition served_block (d : gmap string string) (blk : Block) : BroadcastedBlock :=
  mkBroadcasted (blk_core blk) (served_entry d <$> blk_Entries blk).
Definition served (d : gmap string string) (slot : Z) : option BroadcastedBlock :=
  served_block d <$> (d !! slotToBlockKey slot ≫= json_to_block).

(** A storage with the same contents that does not fail. *)
Definition same_store (s s' : Storage) : Prop :=
  data s' = data s ∧ faults s' = [] ∧ latestFinalized s' = latestFinalized s.

Lemma tx_GetBatch_latest hashes s : latestFinalized (snd (tx_GetBatch hashes s)) = latestFinalized s.
Proof.
  unfold tx_GetBatch. case_bool_decide; [done|]. st_run. unfold db_GetBatch, db_step.
  by destruct (faults s) as [|[|] fs].
Qed.

Lemma convert_entries_eq l s : faults s = [] →
  ∃ s', convert_entries l s = (served_entry (data s) <$> l, s') ∧ same_store s s'.
Proof.
  revert s. induction l as [|e l IH]; intros s Hf; [by exists s|]. simpl. unfold convert_entry.
  destruct (quiet_tx_GetBatch (TxHashes e) s Hf) as (s1 & E1 & Hd & Hf1).
  pose proof (tx_GetBatch_latest (TxHashes e) s) as Hl. rewrite E1 in Hl |- *. simpl in Hl.
  destruct (IH s1 Hf1) as (s2 & E2 & Hd2 & Hf2 & Hl2). rewrite E2, Hd. exists s2.
  split; [done|]. split_and!; congruence.
Qed.

Lemma load_slot_eq slot x : faults (sstore x) = [] →
  ∃ s', load_slot slot x = mkSender (sbatch x ++ option_list (served (data (sstore x)) slot)) (sent x) (writes x) s' ∧
    same_store (sstore x) s'.
Proof.
  intros Hf. unfold load_slot, store_Block, db_Get, db_step, served. rewrite Hf. simpl.
  destruct (data (sstore x) !! slotToBlockKey slot) as [v|]; simpl.
  2: { eexists. rewrite app_nil_r. by split. }
  destruct (json_to_block v) as [blk|]; simpl; [|eexists; rewrite app_nil_r; by split].
  unfold convertBlockToBroadcastedBlock.
  edestruct (convert_entries_eq (blk_Entries blk)) as (s' & E & H1 & H2 & H3);
    [|rewrite E; exists s'; split; [reflexivity|by split_and!]]. done.
Qed.

(** What has been served: the batches that were written and the open one. *)
Record progress (x x' : Sender) (l : list BroadcastedBlock) : Prop := {
  pg_blocks : concat (sent x') ++ sbatch x' = concat (sent x) ++ sbatch x ++ l;
  pg_sizes : Forall (λ b, 1 ≤ Z.of_nat (length b) ≤ SyncBlocksBatchSize) (sent x) →
             Forall (λ b, 1 ≤ Z.of_nat (length b) ≤ SyncBlocksBatchSize) (sent x');
  pg_batch : Z.of_nat (length (sbatch x')) < SyncBlocksBatchSize;
  pg_store : same_store (sstore x) (sstore x');
  pg_writes : writes x' = [];
}.

Lemma progress_refl x : writes x = [] → faults (sstore x) = [] →
  Z.of_nat (length (sbatch x)) < SyncBlocksBatchSize → progress x x [].
Proof. intros Hw Hf Hb. constructor; try done. by rewrite app_nil_r. Qed.

Lemma progress_trans x1 x2 x3 l1 l2 : progress x1 x2 l1 → progress x2 x3 l2 → progress x1 x3 (l1 ++ l2).
Proof.
  intros [A1 A2 A3 (A4 & A5 & A6) A7] [B1 B2 B3 (B4 & B5 & B6) B7].
  constructor; [|auto|done|split_and!; congruence|done].
  rewrite B1, app_assoc, A1. by rewrite <- !app_assoc.
Qed.

Lemma flush_progress x : writes x = [] → faults (sstore x) = [] →
  1 ≤ Z.of_nat (length (sbatch x)) ≤ SyncBlocksBatchSize →
  ∃ x', sendBlockBatchStream x = (true, x') ∧ sbatch x' = [] ∧ progress x x' [].
Proof.
  intros Hw Hf Hb. unfold sendBlockBatchStream. rewrite Hw. eexists. split; [done|]. split; [done|].
  constructor; simpl; try done.
  - rewrite concat_app. simpl. by rewrite !app_nil_r.
  - intros Hs. apply Forall_app. split; [done|]. by constructor.
Qed.

(** The blocks served for the slots from [from] to [to]. *)
Definition served_range (d : gmap string string) (from to : Z) : list BroadcastedBlock :=
  omap (served d) (seqZ from (to - from + 1)).

Lemma served_range_cons d from to : from ≤ to →
  served_range d from to = option_list (served d from) ++ served_range d (from + 1) to.
Proof.
  intros H. unfold served_range. rewrite seqZ_cons by lia. simpl.
  replace (Z.pred (to - from + 1)) with (to - (from + 1) + 1) by lia. replace (Z.succ from) with (from + 1) by lia.
  by destruct (served d from).
Qed.

Lemma served_range_app d from mid to : from ≤ mid + 1 → mid ≤ to →
  served_range d from to = served_range d from mid ++ served_range d (mid + 1) to.
Proof.
  intros H1 H2. unfold served_range. rewrite <- omap_app.
  replace (to - from + 1) with ((mid - from + 1) + (to - (mid + 1) + 1)) by lia.
  rewrite seqZ_app by lia. do 3 f_equal. lia.
Qed.

Lemma send_slots_progress fuel slot to x : writes x = [] → faults (sstore x) = [] →
  Z.of_nat (length (sbatch x)) < SyncBlocksBatchSize → 0 ≤ slot → to < 2 ^ 64 - 1 →
  fuel = Z.to_nat (to - slot + 1) →
  ∃ x', send_slots fuel slot to x = (true, x') ∧ progress x x' (served_range (data (sstore x)) slot to).
Proof.
  revert slot x. induction fuel as [|fuel IH]; intros slot x Hw Hf Hb Hs Ht Hfu; simpl.
  { exists x. split; [done|]. unfold served_range. rewrite seqZ_nil by lia. by apply progress_refl. }
  rewrite (proj2 (Z.leb_le _ _)) by lia.
  destruct (load_slot_eq slot x Hf) as (s' & -> & Hst). set (x1 := mkSender _ _ _ s').
  assert (H1 : Z.of_nat (length (sbatch x1)) ≤ SyncBlocksBatchSize).
  { simpl. rewrite length_app. destruct (served _ slot); simpl; lia. }
  assert (Hstep : ∃ x2, (if SyncBlocksBatchSize <=? Z.of_nat (length (sbatch x1)) then sendBlockBatchStream x1
      else (true, x1)) = (true, x2) ∧ progress x x2 (option_list (served (data (sstore x)) slot))).
  { destruct Hst as (D1 & D2 & D3). destruct (Z.leb_spec SyncBlocksBatchSize (Z.of_nat (length (sbatch x1)))) as [Hle|Hlt].
    - destruct (flush_progress x1) as (x2 & E & _ & [P1 P2 P3 (P4 & P5 & P6) P7]); [done|done|unfold SyncBlocksBatchSize in *; lia|].
      exists x2. split; [done|]. constructor; try done; [|split_and!; simpl in *; congruence].
      rewrite P1. simpl. by rewrite app_nil_r, app_assoc.
    - exists x1. split; [done|]. by constructor. }
  destruct Hstep as (x2 & -> & P).
  assert (E : u64_add slot 1 = slot + 1) by (unfold u64_add; apply wrap_small; unfold in_width; lia). rewrite E.
  destruct P as [P1 P2 P3 P4 P5] eqn:EP. destruct P4 as (D1 & D2 & D3).
  destruct (IH (slot + 1) x2) as (x3 & E3 & P'); [done|done|done|lia|lia|lia|].
  exists x3. split; [done|]. rewrite served_range_cons by lia. rewrite D1 in P'.
  by apply (progress_trans x x2).
Qed.

(** A round of the outer loop. *)
Lemma send_round from to x : writes x = [] → faults (sstore x) = [] → sbatch x = [] → 0 ≤ from →
  to < 2 ^ 64 - 1 →
  ∃ x1 x2, send_slots (Z.to_nat (to - from + 1)) from to x = (true, x1) ∧
    (if bool_decide (sbatch x1 = []) then (true, x1) else sendBlockBatchStream x1) = (true, x2) ∧
    sbatch x2 = [] ∧ progress x x2 (served_range (data (sstore x)) from to).
Proof.
  intros Hw Hf Hb Hfr Ht.
  destruct (send_slots_progress (Z.to_nat (to - from + 1)) from to x) as (x1 & E1 & P); try done.
  { by rewrite Hb. }
  exists x1. case_bool_decide as En; [by exists x1|]. pose proof P as [P1 P2 P3 P4 P5].
  destruct (flush_progress x1) as (x2 & E2 & Hb2 & P'); [done|by destruct P4 as (_ & ? & _)| |].
  - split; [destruct (sbatch x1); [done|simpl; lia]|lia].
  - exists x2. split_and!; try done. rewrite <- (app_nil_r (served_range _ _ _)). by apply (progress_trans x x1).
Qed.

Lemma send_ranges_progress fuel from to x latest : writes x = [] → faults (sstore x) = [] → sbatch x = [] →
  latestFinalized (sstore x) = latest → 0 ≤ from → from ≤ to → latest < 2 ^ 64 - 200 →
  (Z.to_nat (latest - from + 1) < fuel)%nat →
  ∃ x', send_ranges fuel from to x = (true, x') ∧ sbatch x' = [] ∧
    progress x x' (served_range (data (sstore x)) from latest).
Proof.
  revert from to x. induction fuel as [|fuel IH]; intros from to x Hw Hf Hb Hl Hfr Hto Hlt Hfu; [lia|].
  cbn [send_ranges]. unfold GetLatestFinalizedSlot. rewrite Hl.
  destruct (Z.ltb_spec latest from).
  { exists x. split; [done|]. split; [done|]. unfold served_range. rewrite seqZ_nil by lia.
    apply progress_refl; try done. by rewrite Hb. }
  set (to' := if latest <? to then latest else to).
  assert (Ht' : from ≤ to' ≤ latest) by (unfold to'; destruct (Z.ltb_spec latest to); lia).
  destruct (send_round from to' x) as (x1 & x2 & E1 & E2 & Hb2 & P); try done; [lia|].
  rewrite E1. cbn [negb]. rewrite E2. cbn [negb]. pose proof P as [P1 P2 P3 (D1 & D2 & D3) P5].
  assert (Ea : u64_add to' 1 = to' + 1) by (unfold u64_add; apply wrap_small; unfold in_width; lia).
  assert (Eb : u64_sub (u64_add (to' + 1) SyncBlocksBatchSize) 1 = to' + 100).
  { unfold u64_add, u64_sub, SyncBlocksBatchSize. rewrite !wrap_small; unfold in_width; rewrite ?wrap_small; unfold in_width; lia. }
  rewrite Ea, Eb. destruct (IH (to' + 1) (to' + 100) x2) as (x3 & E3 & Hb3 & P'); try done; [congruence|lia..|].
  exists x3. split; [done|]. split; [done|]. rewrite D1 in P'.
  rewrite (served_range_app _ from to' latest) by lia. by apply (progress_trans x x2).
Qed.

(** What a request is answered with, when nothing fails: every stored block from
    its first slot to the latest finalized slot, in order and once, in batches of
    one to a hundred blocks.  The last slot of the request is not a limit: also the
    request for a single block is answered with all the blocks after it.  A request
    whose last slot is before its first one is answered from the slot after the
    last one. *)
Theorem sync_serves_range (req : SyncRequest) (s : Storage) :
  faults s = [] → 0 ≤ FromSlot req → 0 ≤ ToSlot req → 0 ≤ latestFinalized s < 2 ^ 64 - 200 →
  let x := sendBlocksOverStream req [] s in
  let start := if FromSlot req <=? ToSlot req then FromSlot req else ToSlot req + 1 in
  concat (sent x) =
    (if latestFinalized s <? FromSlot req then [] else served_range (data s) start (latestFinalized s)) ∧
  Forall (λ b, 1 ≤ Z.of_nat (length b) ≤ SyncBlocksBatchSize) (sent x) ∧ sbatch x = [] ∧ data (sstore x) = data s.
Proof.
  intros Hf Hfr Hto Hl. unfold sendBlocksOverStream, GetLatestFinalizedSlot. cbv zeta.
  set (latest := latestFinalized s) in *. set (x0 := mkSender [] [] [] s).
  assert (Hend : ∀ x l, sbatch x = [] → progress x0 x l → concat (sent x) = l ∧
    Forall (λ b, 1 ≤ Z.of_nat (length b) ≤ SyncBlocksBatchSize) (sent x) ∧ sbatch x = [] ∧ data (sstore x) = data s).
  { intros x l Hb [P1 P2 _ (D & _) _]. rewrite Hb, app_nil_r in P1. split_and!; [done|by apply P2|done|done]. }
  destruct (Z.ltb_spec latest (FromSlot req)) as [Hlt|Hge].
  { destruct (_ && _); [apply (Hend x0 []); [done|by apply progress_refl]|].
    unfold ranges_fuel. cbn [send_ranges]. unfold GetLatestFinalizedSlot. cbn [sstore]. fold latest.
    rewrite (proj2 (Z.ltb_lt _ _)) by done. apply (Hend x0 []); [done|by apply progress_refl]. }
  rewrite andb_false_r. destruct (Z.leb_spec (FromSlot req) (ToSlot req)) as [Hft|Hft].
  - destruct (send_ranges_progress (ranges_fuel (FromSlot req) (ToSlot req) latest) (FromSlot req) (ToSlot req) x0 latest)
      as (x & E & Hb & P); try done; [lia|unfold ranges_fuel; lia|]. rewrite E. by apply Hend.
  - unfold ranges_fuel. set (fuel := S (Z.to_nat _)). cbn [send_ranges]. unfold GetLatestFinalizedSlot.
    change (latestFinalized (sstore x0)) with latest. rewrite (proj2 (Z.ltb_ge latest (FromSlot req))), (proj2 (Z.ltb_ge latest (ToSlot req))) by lia.
    replace (Z.to_nat (ToSlot req - FromSlot req + 1)) with 0%nat by lia. cbn [send_slots negb].
    rewrite bool_decide_true by done. cbn [negb].
    assert (Ea : u64_add (ToSlot req) 1 = ToSlot req + 1) by (unfold u64_add; apply wrap_small; unfold in_width; lia).
    assert (Eb : u64_sub (u64_add (ToSlot req + 1) SyncBlocksBatchSize) 1 = ToSlot req + 100).
    { unfold u64_add, u64_sub, SyncBlocksBatchSize. rewrite !wrap_small; unfold in_width; rewrite ?wrap_small; unfold in_width; lia. }
    rewrite Ea, Eb.
    destruct (send_ranges_progress fuel (ToSlot req + 1) (ToSlot req + 100) x0 latest)
      as (x & E & Hb & P); try done; [lia..|unfold fuel; lia|]. rewrite E. by apply Hend.
Qed.

(** ** Round trip of a block *)

Lemma loaded_all d (l : list Transaction) :
  (∀ t, t ∈ l → d !! key_of (KTx (Hash t)) ≫= json_to_tx = Some t) → loaded d (Hash <$> l) = l.
Proof.
  intros H. unfold loaded. induction l as [|t l IH]; [done|]. rewrite fmap_cons. cbn [omap list_omap].
  rewrite H by left.
  f_equal. apply IH. intros t' Ht'. apply H. by right.
Qed.


(** A checkpoint response leads to a request exactly if the slot is finalized here
    and the stored block has another hash; the request is for that slot. *)
Theorem checkpoint_mismatch_requested (id hash : string) (checkpoint : Z) (s : Storage) :
  faults s = [] →
  let local := data s !! slotToBlockKey checkpoint ≫= json_to_block in
  fst (handleCheckpointStream id checkpoint hash s) =
  match local with
  | Some blk =>
      if negb (checkpoint =? 0) && negb (latestFinalized s =? 0) && (checkpoint <=? latestFinalized s) &&
         negb (bool_decide (bHash (blk_core blk) = hash))
      then Some (mkSyncRequest id checkpoint checkpoint) else None
  | None => None
  end.
Proof.
  intros Hf. unfold handleCheckpointStream, getCheckpointHash, GetLatestFinalizedSlot. cbv zeta.
  destruct (checkpoint =? 0); [by destruct (_ ≫= _)|]. destruct (latestFinalized s =? 0); [by destruct (_ ≫= _)|].
  rewrite Z.leb_antisym. destruct (latestFinalized s <? checkpoint); [by destruct (_ ≫= _)|].
  unfold store_Block, db_Get, db_step. rewrite Hf. simpl.
  destruct (data s !! slotToBlockKey checkpoint) as [v|]; [|done]. simpl.
  destruct (json_to_block v) as [blk|]; [|done]. simpl. by case_bool_decide.
Qed.

End ServeCorrect.

(** ** Trackers *)

Lemma admit_active req peer st now m t : m !! RequestID req = Some t → IsActive t = true →
  ∃ t', admit_peer req peer st now m = (false, <[RequestID req := t']> m) ∧ IsActive t' = true.
Proof.
  intros Hm Ha. unfold admit_peer, tracker_for, ActivatePeer. rewrite Hm. simpl. rewrite Ha. by eexists.
Qed.

Lemma cleanup_active now m id t : m !! id = Some t → IsActive t = true →
  ∃ t', CleanupExpiredRequests now m !! id = Some t' ∧ IsActive t' = true.
Proof.
  intros Hm Ha. unfold CleanupExpiredRequests. rewrite lookup_omap, Hm. simpl. unfold cleanup_one. rewrite Ha.
  destruct (_ <? _); simpl; by eexists.
Qed.

(** What can happen to the trackers between two requests. *)
Inductive tracker_step : gmap string SyncRequestTracker → gmap string SyncRequestTracker → Prop :=
| tr_admit req peer st now m b m' : admit_peer req peer st now m = (b, m') → tracker_step m m'
| tr_cleanup now m : tracker_step m (CleanupExpiredRequests now m)
| tr_finish id m : tracker_step m (finish_request id m).

Definition serving (id : string) (m : gmap string SyncRequestTracker) : Prop :=
  ∃ t, m !! id = Some t ∧ IsActive t = true.

(** A step that does not finish the request keeps it served. *)
Lemma serving_step id m m' : serving id m → tracker_step m m' → serving id m' ∨ m' = finish_request id m.
Proof.
  intros (t & Hm & Ha) Hs. destruct Hs as [req peer st now m b m' E|now m|id' m].
  - left. destruct (decide (RequestID req = id)) as [<-|Hne].
    + destruct (admit_active req peer st now m t Hm Ha) as (t' & E' & Ha'). rewrite E' in E. injection E as <- <-.
      exists t'. by rewrite lookup_insert_eq.
    + revert E. unfold admit_peer. destruct (ActivatePeer _ _ _) as [ok t']. intros [= <- <-].
      exists t. by rewrite lookup_insert_ne.
  - left. destruct (cleanup_active now m id t Hm Ha) as (t' & ? & ?). by exists t'.
  - destruct (decide (id' = id)) as [->|Hne]; [by right|]. left. exists t. unfold finish_request.
    by rewrite lookup_delete_ne.
Qed.

(** A request is served to one peer at a time: after a peer was admitted, no peer
    is admitted for the same request, whatever requests and cleanups come in
    between, until the request is finished. *)
Theorem one_peer_per_request (req req' : SyncRequest) (peer peer' : string) (st st' : option nat) (now now' : Z)
    (m m1 m2 : gmap string SyncRequestTracker) :
  admit_peer req peer st now m = (true, m1) → RequestID req' = RequestID req →
  rtc (λ a b, tracker_step a b ∧ b ≠ finish_request (RequestID req) a) m1 m2 →
  fst (admit_peer req' peer' st' now' m2) = false.
Proof.
  intros E Eid Hr. assert (H1 : serving (RequestID req) m1).
  { revert E. unfold admit_peer, ActivatePeer. destruct (IsActive _) eqn:Ea; [done|]. intros [= <-].
    eexists. by rewrite lookup_insert_eq. }
  assert (H2 : serving (RequestID req) m2).
  { clear E. induction Hr as [|a b c [Hs Hn] _ IH]; [done|]. apply IH.
    by destruct (serving_step _ _ _ H1 Hs) as [?|?]. }
  destruct H2 as (t & Hm & Ha). rewrite <- Eid in Hm. by destruct (admit_active req' peer' st' now' m2 t Hm Ha) as (? & -> & _).
Qed.

(** ** Starting *)

Section StartCorrect.
Context `{TE : TxEnv, ZE : ZkEnv, VE : VoteEnv, SC : StoreCodec, CC : ContentCodec, DC : DedupCache}.

Definition stored_last_hash (d : gmap string string) (slot : Z) : string :=
  match d !! slotToBlockKey slot ≫= json_to_block with Some b => block_LastEntryHash b | None => zero_hash end.

Lemma last_hash_eq slot n : faults (storage n) = [] → fst (last_hash_at slot n) = stored_last_hash (data (storage n)) slot.
Proof.
  intros Hf. unfold last_hash_at, stored_last_hash, reading, store_Block, db_Get, db_step. rewrite Hf. simpl.
  by destruct (data (storage n) !! slotToBlockKey slot).
Qed.

(** How a node starts, when the store does not fail and it has not started
    before.  It asks for blocks if the network is ahead of it; otherwise it starts
    its services, and when it has finalized a slot its clock is first reset to that
    slot and the hash of its last entry.  It never does both. *)
Theorem start_decision (init : bool) (n : Node) :
  faults (storage n) = [] → fullModeDone n = false → 0 ≤ latestFinalized (storage n) →
  let latest := latestFinalized (storage n) in
  let reset := [ForceResetPOH (stored_last_hash (data (storage n)) latest) latest; StartCoreServices] in
  let '(n', out, asks) := startAfterSyncWithPeers init n in
  if latest =? 0 then
    (if (worldLatestSlot n =? 0) && negb init then out = [StartCoreServices] ∧ asks = false ∧ ready n' = true
     else out = [] ∧ asks = true)
  else if ((0 <? worldLatestPohSlot n) && (worldLatestPohSlot n <=? latest)) || (worldLatestSlot n <=? latest)
  then out = reset ∧ asks = false ∧ ready n' = true
  else out = [] ∧ asks = true.
Proof.
  intros Hf Hm Hl. unfold startAfterSyncWithPeers, GetLatestFinalizedSlot. cbv zeta.
  set (latest := latestFinalized (storage n)) in *. unfold once. rewrite Hm.
  destruct (latest =? 0) eqn:E0.
  { destruct (_ && _); [|done]. by split_and!. }
  unfold handlePohResetIfNeeded. pose proof (last_hash_eq latest n Hf) as Hh.
  destruct ((0 <? worldLatestPohSlot n) && _); cbn [orb].
  { destruct (last_hash_at latest n) as [seed n1]. simpl in Hh. subst seed. by split_and!. }
  rewrite Z.leb_antisym. destruct (latest <? worldLatestSlot n); cbn [negb]; [done|].
  unfold startImmediatelyFromLocalLatestSlot, GetLatestFinalizedSlot. cbn [storage set_ready]. fold latest.
  rewrite (proj2 (Z.ltb_lt 0 latest)) by blia.
  pose proof (last_hash_eq latest (set_ready (ready n) true n) Hf) as Hh'.
  destruct (last_hash_at latest (set_ready _ _ _)) as [seed n1]. simpl in Hh'. rewrite Hh'.
  rewrite Hm. by split_and!.
Qed.

End StartCorrect.

(** ** Concrete runs *)

(** The store of a node that has applied block 5. *)
Definition store5 : Storage := storage applied5.

Definition serve_from (slot : Z) : Sender :=
  @sendBlocksOverStream node_codec (RequestSingleBlockSync "id" slot) [] store5.

Lemma sync_serves_range_witness :
  concat (sent (serve_from 3)) = @served_range node_codec (data store5) 3 5 ∧
  (λ b, bSlot (bb_core b)) <$> concat (sent (serve_from 3)) = [5].
Proof.
  assert (Hc : (λ b, bSlot (bb_core b)) <$> concat (sent (serve_from 3)) = [5]) by (vm_compute; reflexivity).
  assert (Hl : latestFinalized store5 = 5) by (vm_compute; reflexivity).
  assert (Hf : faults store5 = []) by (vm_compute; reflexivity).
  split; [|exact Hc].
  destruct (@sync_serves_range node_codec (RequestSingleBlockSync "id" 3) store5) as (E & _).
  - exact Hf.
  - simpl. lia.
  - simpl. lia.
  - rewrite Hl. lia.
  - rewrite Hl in E. exact E.
Defined.


Lemma checkpoint_mismatch_requested_witness :
  fst (@handleCheckpointStream node_codec "id" 5 "other" store5) = Some (mkSyncRequest "id" 5 5).
Proof.
  rewrite (@checkpoint_mismatch_requested node_codec "id" "other" 5 store5); vm_compute; reflexivity.
Defined.

Lemma one_peer_per_request_witness :
  let req := RequestSingleBlockSync "id" 7 in
  let m1 := snd (admit_peer req "p" None 0 ∅) in
  fst (admit_peer req "q" None 9 (CleanupExpiredRequests 8 m1)) = false ∧
  fst (admit_peer req "q" None 9 (finish_request "id" m1)) = true.
Proof.
  intros req m1. split; [|vm_compute; reflexivity].
  refine (one_peer_per_request req req "p" "q" None None 0 9 ∅ m1 _ _ _ _); [vm_compute; reflexivity|reflexivity|].
  apply rtc_once. split; [apply tr_cleanup|]. intros H. apply (f_equal (λ m, bool_decide (is_Some (m !! "id")))) in H.
  vm_compute in H. discriminate H.
Defined.

Lemma start_decision_witness :
  let n := set_ready false false applied5 in
  let '(n', out, asks) := startAfterSyncWithPeers (SC := node_codec) false n in
  out = [ForceResetPOH (@stored_last_hash node_codec (data (storage n)) 5) 5; StartCoreServices] ∧ asks = false.
Proof.
  intros n.
  assert (Hl : latestFinalized (storage n) = 5) by (vm_compute; reflexivity).
  assert (Hw : worldLatestSlot n = 0) by (vm_compute; reflexivity).
  pose proof (start_decision (SC := node_codec) false n) as H.
  assert (Hf : faults (storage n) = []) by (vm_compute; reflexivity).
  cbv zeta in H. rewrite Hl, Hw in H. change (5 =? 0) with false in H. change (0 <=? 5) with true in H.
  rewrite orb_true_r in H. cbv iota in H. specialize (H Hf eq_refl ltac:(lia)).
  destruct (startAfterSyncWithPeers false n) as [[n' out] asks]. destruct H as (H1 & H2 & _).
  split; [exact H1|exact H2].
Defined.

(** A failing read of the transactions goes unnoticed: the block is served with
    its signature and the hashes of its entries, but without transactions. *)
Theorem served_without_transactions :
  let blk := @BroadcastedBlockToBlock node_env block5 in
  let good := fst (@convertBlockToBroadcastedBlock node_codec blk store5) in
  let bad := fst (@convertBlockToBroadcastedBlock node_codec blk
                    (mkStorage (data store5) [true] (latestFinalized store5) (latestStore store5))) in
  concat (Transactions <$> bb_Entries good) = [Some pay1] ∧ concat (Transactions <$> bb_Entries bad) = [] ∧
  EHash <$> bb_Entries bad = EHash <$> bb_Entries good ∧ bb_core bad = bb_core good.
Proof. split_and!; vm_compute; reflexivity. Qed.
