(* ===== verification/Gossip.v ===== *)
(** * Topics and streams of the network (p2p/block.go, p2p/vote.go, p2p/transaction.go, p2p/empty_block.go, p2p/discovery.go, p2p/pubsub.go)

    What a node does with the bytes of a gossip message or of a stream, and what it
    publishes: the handlers around the callbacks of Node.v and the synchronisation of
    Sync.v.  The library of libp2p delivers messages and streams; the codecs are the
    class [GossipCodec].  A handler of a topic is one round of its loop.  [None] is a
    panic. *)

From stdpp Require Import base list gmap strings.
From Stdlib Require Import ZArith Lia Wf_nat Ascii.
From S2P Require Import Prelude GoLib Transaction Poh Schedule Consensus Block Store BlockStore Ledger.
From S2P Require Import Mempool Node Sync.

Open Scope string_scope.
Open Scope list_scope.
Open Scope Z_scope.

(** ** Messages *)

Record CheckpointHashResponse := mkCheckpointResponse {
  crCheckpoint : Z; crSlot : Z; crBlockHash : string; crPeerID : string;
}.
Record LatestSlotResponse := mkLatestSlotResponse { lrLatestSlot : Z; lrPeerID : string; lrLatestPohSlot : Z }.

(** What a decoder of a stream finds: the end, something else, or a value and the rest
    of the bytes. *)
Inductive decoded (A : Type) := Eof | Malformed | Value (a : A) (rest : string).
Arguments Eof {A}.
Arguments Malformed {A}.
Arguments Value {A} a rest.

(** JSON of the messages; a pointer that is null is [None].  [dec_] is [Decode] of a
    decoder on a stream. *)
Class GossipCodec := {
  enc_block : BroadcastedBlock → option string;
  to_block : string → option (option BroadcastedBlock);
  enc_blocks : list BroadcastedBlock → option string;
  to_blocks : string → option (list (option BroadcastedBlock));
  enc_vote : Vote → option string;
  to_vote : string → option Vote;
  enc_tx : Transaction → option string;
  to_tx : string → option (option Transaction);
  enc_sync : SyncRequest → string;
  to_sync : string → option SyncRequest;
  (** [LatestSlotRequest] is only decoded; of [CheckpointHashRequest] the slot is used. *)
  enc_latest : string → string;
  to_latest : string → option string;
  enc_checkpoint : Z → string;
  to_checkpoint : string → option Z;
  enc_latest_response : LatestSlotResponse → string;
  to_latest_response : string → option LatestSlotResponse;
  enc_checkpoint_response : CheckpointHashResponse → string;
  to_checkpoint_response : string → option CheckpointHashResponse;
  dec_sync : string → decoded SyncRequest;
  dec_blocks : string → decoded (list (option BroadcastedBlock));
}.

(** What was encoded is decoded, and a decoder on a stream reads one value after the
    other and consumes bytes. *)
Class GossipCodecOk (G : GossipCodec) : Prop := {
  block_rt b v : enc_block b = Some v → to_block v = Some (Some b);
  blocks_rt l v : enc_blocks l = Some v → to_blocks v = Some (Some <$> l);
  vote_rt x v : enc_vote x = Some v → to_vote v = Some x;
  tx_rt x v : enc_tx x = Some v → to_tx v = Some (Some x);
  sync_rt r : to_sync (enc_sync r) = Some r;
  latest_rt x : to_latest (enc_latest x) = Some x;
  checkpoint_rt c : to_checkpoint (enc_checkpoint c) = Some c;
  latest_response_rt r : to_latest_response (enc_latest_response r) = Some r;
  checkpoint_response_rt r : to_checkpoint_response (enc_checkpoint_response r) = Some r;
  dec_sync_enc r rest : dec_sync (enc_sync r +:+ rest) = Value r rest;
  dec_blocks_enc l v rest : enc_blocks l = Some v → dec_blocks (v +:+ rest) = Value (Some <$> l) rest;
  dec_blocks_end : dec_blocks "" = Eof;
  dec_blocks_shorter s l rest : dec_blocks s = Value l rest → (String.length rest < String.length s)%nat;
}.

Inductive topic := TBlocks | TEmptyBlocks | TVotes | TTxs | TSyncRequest | TLatestSlot | TCheckpoint.
#[export] Instance topic_eq : EqDecision topic.
Proof. solve_decision. Defined.

Inductive protocol := PSyncBlocks | PLatestSlot | PCheckpoint.

Record gossip := mkGossip { gTopic : topic; ReceivedFrom : string; gData : string }.

(** What a node sends: a message of a topic, or a stream it opened to a peer and the
    bytes it wrote. *)
Inductive sending := Published (t : topic) (data : string) | Opened (p : protocol) (target content : string).

(** What the handlers are given besides: the identifier of a new request, the time, the
    clock of assembled blocks, which writes to a stream succeed, whether a stream can be
    opened, whether publishing succeeds, and the number of a stream. *)
Record ambient := mkAmbient {
  newID : string; time_ : Z; clock_ : Z → Z; writes_ : list bool; opens : bool; publishes_ : bool; streamID : nat;
}.

Section Gossip.
Context `{TE : TxEnv, ZE : ZkEnv, VE : VoteEnv, SC : StoreCodec, CC : ContentCodec, DC : DedupCache}.
Context `{GC : GossipCodec}.

(** A node of the network: its identity, the node of Node.v, the requests it tracks, the
    topics it has joined, and the slot of its clock. *)
Record Peer := mkPeer {
  peerID : string; pNode : Node; syncRequests : gmap string SyncRequestTracker; joined : list topic;
  latestPohSlot : Z;
}.

Definition with_pnode (n : Node) (p : Peer) : Peer :=
  mkPeer (peerID p) n (syncRequests p) (joined p) (latestPohSlot p).
Definition with_requests (m : gmap string SyncRequestTracker) (p : Peer) : Peer :=
  mkPeer (peerID p) (pNode p) m (joined p) (latestPohSlot p).

(** ** Publishing *)

Definition has_topic (t : topic) (p : Peer) : bool := bool_decide (t ∈ joined p).

(** Whether there is an error, and what is published.  Without the topic, votes,
    transactions and blocks are dropped silently. *)
Definition publish (t : topic) (data : string) (env : ambient) : bool * list sending :=
  if publishes_ env then (true, [Published t data]) else (false, []).

Definition p2p_BroadcastVote (v : Vote) (env : ambient) (p : Peer) : bool * list sending :=
  match enc_vote v with
  | None => (false, [])
  | Some data => if has_topic TVotes p then publish TVotes data env else (true, [])
  end.

Definition TxBroadcast (tx : Transaction) (env : ambient) (p : Peer) : bool * list sending :=
  match enc_tx tx with
  | None => (false, [])
  | Some data => if has_topic TTxs p then publish TTxs data env else (true, [])
  end.

(** A failure to publish is logged. *)
Definition BroadcastBlock (blk : BroadcastedBlock) (env : ambient) (p : Peer) : bool * list sending :=
  match enc_block blk with
  | None => (false, [])
  | Some data => (true, if has_topic TBlocks p then snd (publish TBlocks data env) else [])
  end.

Definition p2p_BroadcastEmptyBlocks (blocks : list BroadcastedBlock) (env : ambient) (p : Peer) : bool * list sending :=
  if bool_decide (blocks = []) then (true, [])
  else match enc_blocks blocks with
       | None => (false, [])
       | Some data => if has_topic TEmptyBlocks p then publish TEmptyBlocks data env else (true, [])
       end.

Definition RequestLatestSlotFromPeers (env : ambient) (p : Peer) : bool * list sending :=
  if has_topic TLatestSlot p then publish TLatestSlot (enc_latest (peerID p)) env else (false, []).

Definition RequestCheckpointHash (checkpoint : Z) (env : ambient) (p : Peer) : bool * list sending :=
  if has_topic TCheckpoint p then publish TCheckpoint (enc_checkpoint checkpoint) env else (false, []).

(** The tracker of the request is there also when publishing fails. *)
Definition request_sync (req : SyncRequest) (env : ambient) (p : Peer) : bool * Peer * list sending :=
  if bool_decide (RequestID req = "") then (false, p, [])
  else
    let p := with_requests (<[RequestID req :=
               NewSyncRequestTracker (RequestID req) (FromSlot req) (ToSlot req) (time_ env)]> (syncRequests p)) p in
    let '(ok, out) := if has_topic TSyncRequest p then publish TSyncRequest (enc_sync req) env else (false, []) in
    (ok, p, out).

Definition p2p_RequestBlockSync (fromSlot : Z) (env : ambient) (p : Peer) : bool * Peer * list sending :=
  request_sync (RequestBlockSync (newID env) fromSlot) env p.
Definition p2p_RequestSingleBlockSync (slot : Z) (env : ambient) (p : Peer) : bool * Peer * list sending :=
  request_sync (RequestSingleBlockSync (newID env) slot) env p.

(** An error of the first request is logged. *)
Definition p2p_RequestBlockSyncFromLatest (env : ambient) (p : Peer) : bool * Peer * list sending :=
  let '(_, out) := RequestLatestSlotFromPeers env p in
  let '(ok, p, out') :=
    p2p_RequestBlockSync (u64_add (GetLatestFinalizedSlot (storage (pNode p))) 1) env p in
  (ok, p, out ++ out').

(** What an effect of a callback sends.  The vote of a received block is published in the
    callback, which is told whether that succeeds. *)
Definition send_effect (env : ambient) (p : Peer) (e : Effect) : list sending :=
  match e with
  | BroadcastVote v => snd (p2p_BroadcastVote v env p)
  | BroadcastEmptyBlocks l => snd (p2p_BroadcastEmptyBlocks l env p)
  | _ => []
  end.

(** ** Handlers of topics *)

Definition peer_outcome : Type := option (Peer * list Effect * list sending).

(** Errors of a callback are logged. *)
Definition called (env : ambient) (p : Peer) (o : outcome) : peer_outcome :=
  '(_, n, out) ← o; Some (with_pnode n p, out, concat (send_effect env p <$> out)).

Definition ignored (p : Peer) : peer_outcome := Some (p, [], []).

(** The vote that a block is answered with is published if the topic is there. *)
Definition vote_published (env : ambient) (p : Peer) : bool := negb (has_topic TVotes p) || publishes_ env.

Definition HandleBlockTopic (env : ambient) (msg : gossip) (p : Peer) : peer_outcome :=
  if bool_decide (ReceivedFrom msg = peerID p) then ignored p
  else match to_block (gData msg) with
       | Some (Some blk) => called env p (OnBlockReceived blk (vote_published env p) (pNode p))
       | _ => ignored p
       end.

Definition HandleVoteTopic (env : ambient) (msg : gossip) (p : Peer) : peer_outcome :=
  if bool_decide (ReceivedFrom msg = peerID p) then ignored p
  else match to_vote (gData msg) with
       | Some v => called env p (OnVoteReceived v (pNode p))
       | None => ignored p
       end.

Definition HandleTransactionTopic (env : ambient) (msg : gossip) (p : Peer) : peer_outcome :=
  if bool_decide (ReceivedFrom msg = peerID p) then ignored p
  else match to_tx (gData msg) with
       | Some (Some tx) => called env p (OnTransactionReceived tx (pNode p))
       | _ => ignored p
       end.

Definition HandleEmptyBlockTopic (env : ambient) (msg : gossip) (p : Peer) : peer_outcome :=
  match to_blocks (gData msg) with
  | Some (b :: l) =>
      if bool_decide (ReceivedFrom msg = peerID p) then ignored p
      else called env p (done_ (OnEmptyBlockReceived (b :: l) (pNode p)))
  | _ => ignored p
  end.

(** The bytes of a stream of blocks: the request, then the batches that were written.  A
    batch that cannot be encoded ends it. *)
Fixpoint batches_content (l : list (list BroadcastedBlock)) : string :=
  match l with
  | [] => ""
  | b :: l' => match enc_blocks b with None => "" | Some v => v +:+ batches_content l' end
  end.

Definition handleBlockSyncRequestTopic (env : ambient) (msg : gossip) (p : Peer) : peer_outcome :=
  match to_sync (gData msg) with
  | None => ignored p
  | Some req =>
      if bool_decide (ReceivedFrom msg = peerID p) then ignored p
      else
        let '(ok, m) := admit_peer req (ReceivedFrom msg) None (time_ env) (syncRequests p) in
        let p := with_requests m p in
        if negb ok then ignored p
        else if negb (opens env) then ignored p
        else
          let x := sendBlocksOverStream req (writes_ env) (storage (pNode p)) in
          let p := with_requests (finish_request (RequestID req) m) (with_pnode (set_storage (sstore x) (pNode p)) p) in
          Some (p, [], [Opened PSyncBlocks (ReceivedFrom msg) (enc_sync req +:+ batches_content (sent x))])
  end.

Definition HandleLatestSlotTopic (env : ambient) (msg : gossip) (p : Peer) : peer_outcome :=
  if bool_decide (ReceivedFrom msg = peerID p) then ignored p
  else match to_latest (gData msg) with
       | None => ignored p
       | Some _ =>
           let resp := mkLatestSlotResponse (GetLatestFinalizedSlot (storage (pNode p))) (peerID p) (latestPohSlot p) in
           Some (p, [], if opens env then [Opened PLatestSlot (ReceivedFrom msg) (enc_latest_response resp)] else [])
       end.

Definition HandleCheckpointRequestTopic (env : ambient) (msg : gossip) (p : Peer) : peer_outcome :=
  if bool_decide (ReceivedFrom msg = peerID p) then ignored p
  else match to_checkpoint (gData msg) with
       | None => ignored p
       | Some checkpoint =>
           let '(r, s) := getCheckpointHash checkpoint (storage (pNode p)) in
           let p := with_pnode (set_storage s (pNode p)) p in
           match r with
           | None => ignored p
           | Some (slot, hash) =>
               let resp := mkCheckpointResponse checkpoint slot hash (peerID p) in
               Some (p, [], if opens env then [Opened PCheckpoint (ReceivedFrom msg) (enc_checkpoint_response resp)] else [])
           end
       end.

(** ** Handlers of streams *)

(** The blocks of a batch, with the effects; errors are logged and nil blocks skipped. *)
Fixpoint receive_blocks (env : ambient) (l : list (option BroadcastedBlock)) (n : Node) : option (Node * list Effect) :=
  match l with
  | [] => Some (n, [])
  | None :: l' => receive_blocks env l' n
  | Some blk :: l' =>
      '(_, n, out) ← OnSyncResponseReceived (Some blk) (clock_ env) n;
      '(n, out') ← receive_blocks env l' n;
      Some (n, out ++ out')
  end.

(** The loop over the batches of a stream.  The log line reads the slots of the first and
    the last block of a batch before anything else.  [fuel] is more than the bytes of the
    stream. *)
Fixpoint receive_batches (fuel : nat) (env : ambient) (s : string) (n : Node) : option (Node * list Effect) :=
  match fuel with
  | O => Some (n, [])
  | S fuel' =>
      match dec_blocks s with
      | Eof | Malformed => Some (n, [])
      | Value l rest =>
          match head l, last l with
          | Some (Some _), Some (Some _) =>
              '(n, out) ← receive_blocks env l n;
              '(n, out') ← receive_batches fuel' env rest n;
              Some (n, out ++ out')
          | _, _ => None
          end
      end
  end.

(** The streams that are closed at the end are left out: the tracker is removed. *)
Definition handleBlockSyncRequestStream (env : ambient) (from content : string) (p : Peer) : peer_outcome :=
  match dec_sync content with
  | Value req rest =>
      let '(ok, m) := admit_peer req from (Some (streamID env)) (time_ env) (syncRequests p) in
      let p := with_requests m p in
      if negb ok then ignored p
      else
        '(n, out) ← receive_batches (S (String.length rest)) env rest (pNode p);
        let p := with_requests (delete (RequestID req) (syncRequests p)) (with_pnode n p) in
        Some (p, out, concat (send_effect env p <$> out))
  | _ => ignored p
  end.

Definition handleLatestSlotStream (env : ambient) (content : string) (p : Peer) : peer_outcome :=
  match to_latest_response content with
  | None => ignored p
  | Some r => called env p (done_ (OnLatestSlotReceived (lrLatestSlot r) (lrLatestPohSlot r) (pNode p)))
  end.

Definition p2p_handleCheckpointStream (env : ambient) (content : string) (p : Peer) : peer_outcome :=
  match to_checkpoint_response content with
  | None => ignored p
  | Some resp =>
      let '(req, s) := handleCheckpointStream (newID env) (crCheckpoint resp) (crBlockHash resp) (storage (pNode p)) in
      let p := with_pnode (set_storage s (pNode p)) p in
      match req with
      | None => ignored p
      | Some req => let '(_, p, out) := request_sync req env p in Some (p, [], out)
      end
  end.

(** ** A node and its network *)

(** The loop of a topic, for a topic the node has subscribed to. *)
Definition peer_topic (env : ambient) (msg : gossip) (p : Peer) : peer_outcome :=
  if negb (has_topic (gTopic msg) p) then ignored p
  else match gTopic msg with
       | TBlocks => HandleBlockTopic env msg p
       | TEmptyBlocks => HandleEmptyBlockTopic env msg p
       | TVotes => HandleVoteTopic env msg p
       | TTxs => HandleTransactionTopic env msg p
       | TSyncRequest => handleBlockSyncRequestTopic env msg p
       | TLatestSlot => HandleLatestSlotTopic env msg p
       | TCheckpoint => HandleCheckpointRequestTopic env msg p
       end.

Definition peer_stream (env : ambient) (proto : protocol) (from content : string) (p : Peer) : peer_outcome :=
  match proto with
  | PSyncBlocks => handleBlockSyncRequestStream env from content p
  | PLatestSlot => handleLatestSlotStream env content p
  | PCheckpoint => p2p_handleCheckpointStream env content p
  end.

(** What reaches a node, and from whom. *)
Inductive incoming := OnTopic (msg : gossip) | OnStream (proto : protocol) (from content : string).
Definition source (i : incoming) : string :=
  match i with OnTopic msg => ReceivedFrom msg | OnStream _ from _ => from end.
Definition peer_receive (env : ambient) (i : incoming) (p : Peer) : peer_outcome :=
  match i with
  | OnTopic msg => peer_topic env msg p
  | OnStream proto from content => peer_stream env proto from content p
  end.

(** [RequestBlockSyncStream] connects to the second of the peers. *)
Definition RequestBlockSyncStream_target (peers : list string) : option (result string string) :=
  if bool_decide (peers = []) then Some (Err "not enough peers")
  else Ok <$> peers !! 1%nat.

(** [SetupPubSubSyncTopics] and [SetupPubSubTopics]: the topics that are joined. *)
Definition sync_topics : list topic := [TSyncRequest; TLatestSlot; TEmptyBlocks].
Definition core_topics (listener : bool) : list topic :=
  [TBlocks; TVotes] ++ (if listener then [] else [TTxs]) ++ [TCheckpoint].
End Gossip.

(** ** Blocks of other slots *)

(** A computation that does not fail where the database does not. *)
Definition calm {A} (m : ST A) : Prop := ∀ s, faults s = [] → faults (snd (m s)) = [].

Lemma calm_bind {A B} (m : ST A) (k : A → ST B) : calm m → (∀ a, calm (k a)) → calm (m ≫= k).
Proof.
  intros Hm Hk s Hf. rewrite st_bind_eq. specialize (Hm s Hf). destruct (m s) as [[a|e] s1]; [by apply Hk|done].
Qed.
Lemma calm_step {A} (f : gmap string string → A * gmap string string) : calm (db_step f).
Proof. intros s Hf. unfold db_step. rewrite Hf. by destruct (f (data s)). Qed.
Lemma calm_ret {A} (a : A) : calm (mret a).
Proof. by intros s. Qed.
Lemma calm_throw {A} e : calm (st_throw (A := A) e).
Proof. by intros s. Qed.
Lemma calm_some {A} e (o : option A) : calm (st_some e o).
Proof. intros s. by destruct o. Qed.
Lemma calm_get : calm st_get.
Proof. by intros s. Qed.
Lemma calm_set1 slot : calm (set_latestFinalized slot).
Proof. by intros s. Qed.
Lemma calm_set2 slot : calm (set_latestStore slot).
Proof. by intros s. Qed.
Lemma calm_or_false m : calm m → calm (or_false m).
Proof. intros Hm s Hf. unfold or_false. specialize (Hm s Hf). by destruct (m s) as [[]]. Qed.

Create HintDb calm.
#[export] Hint Resolve calm_step calm_ret calm_throw calm_some calm_get calm_set1 calm_set2 calm_or_false : calm.
#[export] Hint Extern 1 (calm (db_Get _)) => apply calm_step : calm.
#[export] Hint Extern 1 (calm (db_Has _)) => apply calm_step : calm.
#[export] Hint Extern 1 (calm (db_GetBatch _)) => apply calm_step : calm.
#[export] Hint Extern 1 (calm (batch_Write _)) => apply calm_step : calm.
#[export] Hint Extern 1 (calm (batch_of _ _ _)) => apply calm_some : calm.
#[export] Hint Extern 1 (calm (HasCompleteBlock _)) => apply calm_or_false : calm.

Ltac calm := repeat first [solve [auto with calm] | apply calm_bind; [|intros ?] | case_match].

Section Others.
Context `{TE : TxEnv, ZE : ZkEnv, VE : VoteEnv, SC : StoreCodec, CC : ContentCodec, DC : DedupCache}.

Lemma calm_pending b : calm (AddBlockPending b).
Proof. unfold AddBlockPending. calm. Qed.
Lemma calm_finalize blk ms accs vs : calm (store_FinalizeBlock blk ms accs vs).
Proof. unfold store_FinalizeBlock. calm. Qed.
Lemma calm_txs l : calm (tx_GetBatch l).
Proof. unfold tx_GetBatch. calm. Qed.
Lemma calm_accounts l : calm (account_GetBatch l).
Proof. unfold account_GetBatch. calm. Qed.
Lemma calm_versions l : calm (GetBatchLatestVersionContentHash l).
Proof. unfold GetBatchLatestVersionContentHash. calm. Qed.

(** The stored block of every slot but [slot] is as before. *)
Definition others_kept (slot : Z) (d d' : gmap string string) : Prop :=
  ∀ x, in_width 64 x → x ≠ slot → d' !! slotToBlockKey x = d !! slotToBlockKey x.

#[export] Instance others_kept_preorder slot : PreOrder (others_kept slot).
Proof. split; [by intros s|]. intros d1 d2 d3 D1 D2 x Hx Hne. by rewrite D2, D1. Qed.

(** No key of a batch is that of the block of another slot. *)
Lemma batch_others slot b d :
  (∀ k, k ∈ b.*1 → ∃ K, k = key_of K ∧ key_ok K ∧ ∀ x, K = KBlock x → x = slot) → others_kept slot d (batch_apply b d).
Proof.
  intros Hb x Hx Hne. apply batch_apply_ne. intros (K & E & Hk & Hu)%Hb.
  change (slotToBlockKey x) with (key_of (KBlock x)) in E. apply key_of_inj in E as <-; [|done..]. by apply Hne, Hu.
Qed.

Lemma pending_others b s : in_width 64 (bSlot (bb_core b)) →
  others_kept (bSlot (bb_core b)) (data s) (data (snd (AddBlockPending (Some b) s))).
Proof.
  intros Hs. pose proof (AddBlockPending_cases b s) as HA.
  destruct (AddBlockPending (Some b) s) as [[u|e] s']; simpl; [|by destruct HA as [-> _]].
  destruct HA as (_ & value & puts & _ & Hp & -> & _). apply batch_others.
  intros k ([k' v] & -> & Hin)%list_elem_of_fmap. simpl.
  destruct (pending_batch_keys _ _ _ _ _ _ Hp Hin) as [[-> _]|[[-> _]|(tx & _ & [[-> _]|[-> _]])]];
    eexists; (split_and!; [reflexivity|done|naive_solver]).
Qed.

Lemma marshalled_keys {A} (key : A → string) (js : A → option string) l (b : batch) k :
  mapM (λ a, v ← js a; Some (key a, v)) l = Some b → k ∈ b.*1 → ∃ a, k = key a.
Proof.
  intros Hm%mapM_Some. induction Hm as [|a p l b Hp _ IH]; [by intros ?%elem_of_nil|].
  intros [->|Hk]%elem_of_cons; [|by apply IH]. exists a. destruct (js a); [|done]. simpl in Hp. by simplify_eq.
Qed.

Lemma finalize_others blk ms accs vs s : in_width 64 (bSlot (blk_core blk)) →
  others_kept (bSlot (blk_core blk)) (data s) (data (snd (store_FinalizeBlock blk ms accs vs s))).
Proof.
  intros Hs. unfold store_FinalizeBlock, HasCompleteBlock, or_false. set (slot := bSlot (blk_core blk)) in *.
  rewrite st_bind_eq. pose proof (quiet_step (λ d, bool_decide (is_Some (d !! slotToBlockKey slot))) s) as (Q1 & _).
  fold (db_Has (slotToBlockKey slot)) in Q1. rewrite <- Q1.
  destruct (db_Has (slotToBlockKey slot) s) as [[[|]|e] s1]; [|done..]. cbn [snd negb]. unfold batch_of.
  destruct (json_of_block (finalized_block blk)) as [bv|]; st_run; [|done].
  destruct (mapM _ (snd <$> map_to_list ms)) as [mb|] eqn:Em; st_run; [|done].
  destruct (mapM _ (snd <$> map_to_list accs)) as [ab|] eqn:Ea; st_run; [|done].
  destruct (version_puts vs) as [vb|] eqn:Ev; st_run; [|done].
  match goal with |- context [batch_Write ?bb ?ss] =>
    destruct (batch_Write_cases bb ss) as [(s' & -> & D & _)|(s' & -> & D & _)] end; simpl; rewrite D; [done|].
  apply batch_others. intros k. rewrite !fmap_app, !elem_of_app. intros [Hk|[Hk|[Hk|[Hk|[Hk|Hk]]]]].
  - apply list_elem_of_singleton in Hk as ->. exists (KBlock slot). split_and!; [done|done|naive_solver].
  - destruct (marshalled_keys _ _ _ _ _ Em Hk) as [m ->]. by exists (KMeta (TxHash m)).
  - destruct (marshalled_keys _ _ _ _ _ Ea Hk) as [a ->]. by exists (KAccount (Address a)).
  - apply versions_keyed in Ev as (kb & -> & Hkb & _). unfold keyed in Hk. rewrite <- list_fmap_compose in Hk.
    apply list_elem_of_fmap in Hk as ([K v] & -> & Hin). simpl. exists K.
    apply (list_elem_of_fmap_2 fst) in Hin. rewrite Hkb in Hin. apply list_elem_of_fmap in Hin as (r & EK & _).
    simpl in EK. by subst K.
  - apply list_elem_of_singleton in Hk as ->. by exists (KFinalized slot).
  - destruct (_ <? _); [|by apply elem_of_nil in Hk]. apply list_elem_of_singleton in Hk as ->. by exists KLatestFinalized.
Qed.

(** The two parts of the storage that matter for the blocks that follow. *)
Record fine (slot : Z) (s s' : Storage) : Prop := {
  fine_others : others_kept slot (data s) (data s');
  fine_faults : faults s = [] → faults s' = [];
}.

Lemma ledger_fine ht hr b il s : in_width 64 (bSlot (blk_core b)) →
  fine (bSlot (blk_core b)) s (snd (fst (ledger_FinalizeBlock ht hr b il s))).
Proof.
  intros Hs. destruct (ledger_FinalizeBlock ht hr b il s) as [[r s'] out] eqn:E. simpl. split.
  - destruct (ledger_shape _ _ _ _ _ _ _ _ E) as [->|(st & rel & vs & s4 & r5 & D & _ & E5 & _)]; [done|].
    cbn zeta in E5. rewrite <- D. apply (f_equal snd) in E5. simpl in E5. rewrite <- E5. by apply finalize_others.
  - intros Hf. apply (f_equal (λ x, faults (snd (fst x)))) in E. simpl in E. rewrite <- E. clear E.
    unfold ledger_FinalizeBlock. destruct (InvalidPoH _); [done|].
    pose proof (calm_txs (block_tx_hashes b) s Hf) as F1. destruct (tx_GetBatch _ s) as [[l|e] s1]; [|done].
    pose proof (calm_accounts (block_addrs l) s1 F1) as F2. destruct (account_GetBatch _ s1) as [[st|e] s2]; [|done].
    set (p := foldl _ _ l). pose proof (calm_txs (relatedHashes p) s2 F2) as F3.
    destruct (tx_GetBatch _ s2) as [[rel|e] s3]; [|done].
    pose proof (calm_versions (rootHashes p) s3 F3) as F4.
    destruct (GetBatchLatestVersionContentHash _ s3) as [[vs|e] s4]; [|done].
    destruct (foldl (process_content _ _) _ _) as [ms vs']. pose proof (calm_finalize b ms (accounts p) vs' s4 F4) as F5.
    by destruct (store_FinalizeBlock _ _ _ _ s4) as [[u|e] s5].
Qed.
End Others.

(** ** Catching up *)

Section CatchUp.
Context `{TE : TxEnv, ZE : ZkEnv, VE : VoteEnv, SC : StoreCodec, CC : ContentCodec, DC : DedupCache}.
Context `{GC : GossipCodec, GO : !GossipCodecOk GC}.

(** The parts of a node that the processing of a block does not look at. *)
Definition reframe (q : gmap Z BroadcastedBlock) (next : Z) (r d : bool) (n : Node) : Node :=
  set_queue q next (set_ready r d n).

Lemma processBlock_frame b q x r d n :
  processBlock b (reframe q x r d n) =
  match processBlock b n with Some (res, n', out) => Some (res, reframe q x r d n', out) | None => None end.
Proof.
  unfold processBlock, verifyBlockTransactions, reframe. destruct n.
  cbn -[AddBlockPending ledger_FinalizeBlock verify_txs VerifySignature].
  destruct (negb (VerifySignature b)); [done|]. destruct (verify_txs _ _) as [[|] zk]; [|done].
  cbn -[AddBlockPending ledger_FinalizeBlock]. destruct (AddBlockPending _ _) as [[u|e] s]; [|done].
  cbn -[ledger_FinalizeBlock]. by destruct (ledger_FinalizeBlock _ _ _ _ s) as [[[u'|e] s'] o].
Qed.

Lemma process_blocks_frame bs q x r d n out :
  process_blocks bs (reframe q x r d n) out =
  match process_blocks bs n out with Some (n', out) => Some (reframe q x r d n', out) | None => None end.
Proof.
  revert n out. induction bs as [|b bs IH]; intros n out; simpl; [done|]. rewrite processBlock_frame.
  destruct (processBlock b n) as [[[res n1] o]|]; [apply IH|done].
Qed.

Lemma process_blocks_out bs n out :
  process_blocks bs n out = match process_blocks bs n [] with Some (n', o) => Some (n', out ++ o) | None => None end.
Proof.
  revert n out. induction bs as [|b bs IH]; intros n out; simpl; [by rewrite app_nil_r|].
  destruct (processBlock b n) as [[[res n1] o]|]; [|done]. rewrite (IH n1 (out ++ o)), (IH n1 o).
  destruct (process_blocks bs n1 []) as [[n2 o2]|]; [|done]. by rewrite app_assoc.
Qed.

(** Processing a block changes the storage, at its slot, and the cache of proofs. *)
Lemma processBlock_fine b n r n' out : in_width 64 (slot_of b) → processBlock b n = Some (r, n', out) →
  ∃ s z, n' = set_storage s (set_zk z n) ∧ fine (slot_of b) (storage n) s.
Proof.
  intros Hs. unfold processBlock.
  assert (fine (slot_of b) (storage n) (storage n)) as Hrefl by done.
  destruct (negb (VerifySignature b)); [intros [= <- <- <-]; exists (storage n), (zkVerify n); by destruct n|].
  unfold verifyBlockTransactions. destruct (verify_txs _ _) as [[|] zk]; cbn [negb].
  2: { intros [= <- <- <-]. exists (storage n), zk. by destruct n. }
  assert (Hc : slot_of (check_poh b) = slot_of b) by (unfold check_poh; by destruct (VerifyPoH b)).
  cbn [storage set_zk].
  assert (Hp : fine (slot_of b) (storage n) (snd (AddBlockPending (Some (check_poh b)) (storage n)))).
  { rewrite <- Hc in Hs |- *. split; [by apply pending_others|apply calm_pending]. }
  destruct (AddBlockPending _ (storage n)) as [[u|e] s]; simpl in Hp.
  2: { intros [= <- <- <-]. exists s, zk. by destruct n. }
  pose proof (ledger_fine (hasTracker n) (hasRouter n) (BroadcastedBlockToBlock (check_poh b)) (isListener n) s) as Hl.
  change (bSlot (blk_core (BroadcastedBlockToBlock (check_poh b)))) with (slot_of (check_poh b)) in Hl. rewrite Hc in Hl.
  specialize (Hl Hs). cbn [hasTracker hasRouter isListener set_storage set_zk].
  destruct (ledger_FinalizeBlock _ _ _ _ s) as [[res s'] o]. simpl in Hl.
  assert (fine (slot_of b) (storage n) s') as Hf.
  { destruct Hp as [P1 P2], Hl as [L1 L2]. split; [by etransitivity|auto]. }
  destruct res; intros [= <- <- <-]; exists s', zk; by destruct n.
Qed.

(** The node is waiting for the blocks from [k] to the latest slot [M] of the network,
    none of which it has stored or leads. *)
Record waiting_for (k M : Z) (n : Node) : Prop := {
  wf_faults : faults (storage n) = [];
  wf_queue : blockOrderingQueue n = ∅;
  wf_next : nextExpectedSlot n = k;
  wf_world : worldLatestSlot n = M;
  wf_range : 0 ≤ k ∧ M < 2 ^ 64 - 1;
  wf_absent x : k ≤ x ≤ M → data (storage n) !! slotToBlockKey x = None;
  wf_foreign x : k ≤ x ≤ M → isLeaderOfSlot n x = Some false;
  wf_starting : ready n = false ∧ fullModeDone n = false;
}.

Lemma reading_absent k n : faults (storage n) = [] → data (storage n) !! slotToBlockKey k = None →
  reading (HasCompleteBlock k) false n = (false, n).
Proof.
  intros Hf Ha. destruct n as [s]. destruct s as [d f lf ls]. simpl in *. subst f.
  unfold reading, HasCompleteBlock, or_false, db_Has, db_step. simpl. by rewrite Ha.
Qed.

(** The one block that has arrived is gathered. *)
Lemma gather_one now k M b n : waiting_for k M n → k ≤ M → slot_of b = k →
  gather (gather_fuel n) now [] [] (set_queue (<[k := b]> (blockOrderingQueue n)) (nextExpectedSlot n) n) =
  Some ([b], [], set_queue ∅ (k + 1) n).
Proof.
  intros [Hf Hq Hn Hw [H0 HM] Ha Hl _] Hk Hb. unfold gather_fuel. rewrite Hq, Hn, Hw.
  assert (Hinc : u64_add k 1 = k + 1) by (unfold u64_add; apply wrap_small; unfold in_width; lia).
  destruct (Z.to_nat (M - k + 1)) as [|fuel] eqn:Ef; [lia|]. cbn [gather nextExpectedSlot set_queue].
  cbn [worldLatestSlot set_queue]. rewrite Hw, (proj2 (Z.ltb_ge M k)) by lia. cbn [blockOrderingQueue set_queue].
  rewrite lookup_insert_eq, delete_insert_id by apply lookup_empty. rewrite Hinc. cbn [app].
  destruct fuel as [|fuel]; [done|]. cbn [gather nextExpectedSlot set_queue worldLatestSlot]. rewrite Hw.
  rewrite (proj2 (Z.ltb_ge M (k + 1))) by lia. cbn [blockOrderingQueue set_queue]. rewrite lookup_empty.
  specialize (Hl (k + 1) ltac:(lia)). unfold isLeaderOfSlot in Hl |- *. cbn [leaderSchedule selfPubKey set_queue].
  by rewrite Hl.
Qed.
(** What is left to do once a block has been processed: the next slot, and readiness at the
    latest one. *)
Definition advanced (k M : Z) (n : Node) : Node := reframe ∅ (k + 1) (k =? M) (k =? M) n.
Definition start_effects (M : Z) (b : BroadcastedBlock) : list Effect :=
  if slot_of b =? M then [ForceResetPOH (bb_LastEntryHash b) (slot_of b); StartCoreServices] else [].

Lemma receive_one now k M b n : waiting_for k M n → k ≤ M → slot_of b = k →
  OnSyncResponseReceived (Some b) now n =
  match processBlock b n with
  | Some (_, n1, out) => Some (Ok tt, advanced k M n1, out ++ start_effects M b)
  | None => None
  end.
Proof.
  intros W Hk Hb. pose proof W as [Hf Hq Hn Hw [H0 HM] Ha Hl [Hr Hd]].
  unfold OnSyncResponseReceived, AddBlockToOrderingQueue. change (bSlot (bb_core b)) with (slot_of b). rewrite Hb.
  rewrite reading_absent by (done || apply Ha; lia). unfold processConsecutiveBlocks.
  change (gather_fuel (set_queue _ _ n)) with (gather_fuel n). rewrite (gather_one now k M b n W Hk Hb).
  cbn [process_blocks last]. replace (set_queue ∅ (k + 1) n) with (reframe ∅ (k + 1) false false n).
  2: { unfold reframe. rewrite <- Hr at 1. rewrite <- Hd. by destruct n. }
  rewrite processBlock_frame. destruct (processBlock b n) as [[[res n1] out]|] eqn:E; [|done].
  apply processBlock_fine in E as (s & z & -> & _); [|rewrite Hb; unfold in_width; lia].
  rewrite bool_decide_true by done. rewrite app_nil_r. cbn [app]. unfold start_effects, advanced.
  change (bSlot (bb_core b)) with (slot_of b). rewrite Hb.
  cbn [reframe set_queue set_ready set_storage set_zk worldLatestSlot ready fullModeDone]. rewrite Hw.
  unfold ReadyGapThreshold. cbn [negb andb]. rewrite andb_true_r.
  destruct (Z.ltb_spec k M).
  - rewrite (proj2 (Z.leb_gt (M - k) 0)), (proj2 (Z.eqb_neq k M)) by lia. cbn [emit done_]. by rewrite app_nil_r.
  - rewrite (proj2 (Z.eqb_eq k M)) by lia. cbn [emit done_ Z.leb]. done.
Qed.

(** After a block the node waits for the next one. *)
Lemma advanced_waits k M b n r n1 out : waiting_for k M n → k < M → slot_of b = k →
  processBlock b n = Some (r, n1, out) → waiting_for (k + 1) M (advanced k M n1).
Proof.
  intros [Hf Hq Hn Hw [H0 HM] Ha Hl [Hr Hd]] Hk Hb E.
  assert (Hwid : in_width 64 k) by (unfold in_width; lia).
  apply processBlock_fine in E as (s & z & -> & [F1 F2]); [|by rewrite Hb]. rewrite Hb in F1.
  unfold advanced. rewrite (proj2 (Z.eqb_neq k M)) by lia. split; simpl; try done.
  - auto.
  - lia.
  - intros x Hx. rewrite (F1 x); [apply Ha; lia|unfold in_width; lia|lia].
  - intros x Hx. apply (Hl x). lia.
Qed.

(** The blocks arrive one by one and are processed as one run of [process_blocks]. *)
Lemma receive_all env bs k M n : waiting_for k M n → bs ≠ [] → slot_of <$> bs = seqZ k (M - k + 1) →
  receive_blocks env (Some <$> bs) n =
  match process_blocks bs n [] with
  | Some (n', out) =>
      Some (reframe ∅ (M + 1) true true n', out ++ concat (start_effects M <$> bs))
  | None => None
  end.
Proof.
  revert k n. induction bs as [|b bs IH]; intros k n W Hne Hs; [done|].
  assert (k ≤ M) as HkM by (destruct (Z.le_gt_cases k M); [done|by rewrite seqZ_nil in Hs by lia]).
  rewrite seqZ_cons in Hs by lia. injection Hs as Hb Hs.
  cbn [fmap list_fmap receive_blocks process_blocks concat app]. rewrite (receive_one _ k M) by done.
  destruct (processBlock b n) as [[[res n1] out]|] eqn:E; cbn [mbind option_bind]; [|done].
  rewrite process_blocks_out. destruct bs as [|b2 bs].
  - destruct (Z.eq_dec k M) as [->|]; [|rewrite seqZ_cons in Hs by lia; discriminate].
    unfold advanced. rewrite Z.eqb_refl. cbn. by rewrite !app_nil_r.
  - destruct (Z.eq_dec k M) as [->|]; [rewrite seqZ_nil in Hs by lia; discriminate|].
    rewrite (IH (k + 1)); [|apply (advanced_waits k M b n res n1 out); by (done || lia)|done|].
    2: { transitivity (seqZ (Z.succ k) (Z.pred (M - k + 1))); [exact Hs|f_equal; lia]. }
    unfold advanced. rewrite process_blocks_frame.
    destruct (process_blocks (b2 :: bs) n1 []) as [[n2 out2]|]; cbn [mbind option_bind]; [|done].
    assert (Es : start_effects M b = []) by (unfold start_effects; by rewrite Hb, (proj2 (Z.eqb_neq k M))).
    rewrite Es, app_nil_r, <- app_assoc. done.
Qed.
(** The blocks of which every list can be encoded. *)
Definition encodable (bs : list BroadcastedBlock) : Prop := ∀ l, l ⊆ bs → is_Some (enc_blocks l).

Lemma receive_blocks_app env l1 l2 n :
  receive_blocks env (l1 ++ l2) n =
  '(n, out) ← receive_blocks env l1 n; '(n, out') ← receive_blocks env l2 n; Some (n, out ++ out').
Proof.
  revert n. induction l1 as [|[b|] l1 IH]; intros n; cbn [app receive_blocks].
  - cbn [mbind option_bind]. by destruct (receive_blocks env l2 n) as [[n' o]|].
  - destruct (OnSyncResponseReceived _ _ n) as [[[r n1] out]|]; cbn [mbind option_bind]; [|done].
    rewrite IH. destruct (receive_blocks env l1 n1) as [[n2 o2]|]; cbn [mbind option_bind]; [|done].
    destruct (receive_blocks env l2 n2) as [[n3 o3]|]; cbn [mbind option_bind]; [|done]. by rewrite app_assoc.
  - apply IH.
Qed.

(** The batches of a stream are received as the list of their blocks. *)
Lemma receive_batches_content fuel env ls n :
  Forall (λ b, b ≠ []) ls → encodable (concat ls) → (String.length (batches_content ls) < fuel)%nat →
  receive_batches fuel env (batches_content ls) n = receive_blocks env (Some <$> concat ls) n.
Proof.
  revert fuel n. induction ls as [|b ls IH]; intros fuel n Hne Henc Hfu; (destruct fuel as [|fuel]; [simpl in Hfu; lia|]).
  { cbn [receive_batches batches_content]. by rewrite dec_blocks_end. }
  apply Forall_cons in Hne as [Hb Hne]. cbn [batches_content receive_batches concat] in *.
  destruct (Henc b) as [v Hv]; [set_solver|]. rewrite Hv in Hfu |- *.
  pose proof (dec_blocks_enc b v (batches_content ls) Hv) as Hd. rewrite Hd.
  apply dec_blocks_shorter in Hd.
  rewrite fmap_app, receive_blocks_app, fmap_last.
  assert (∃ y, head (Some <$> b) = Some (Some y)) as [y Eh] by (destruct b as [|y b]; [done|by exists y]).
  destruct (proj2 (last_is_Some b) Hb) as [x E]. rewrite Eh, E. cbn [fmap option_fmap option_map].
  destruct (receive_blocks env (Some <$> b) n) as [[n1 o1]|]; cbn [mbind option_bind]; [|done].
  rewrite IH; [done|done| |lia]. intros l Hl. apply Henc. set_solver.
Qed.
Lemma start_effects_range M k bs b : slot_of <$> bs = seqZ k (M - k + 1) → last bs = Some b →
  concat (start_effects M <$> bs) = [ForceResetPOH (bb_LastEntryHash b) M; StartCoreServices].
Proof.
  revert k. induction bs as [|x bs IH]; intros k Hs Hl; [done|].
  assert (k ≤ M) by (destruct (Z.le_gt_cases k M); [done|by rewrite seqZ_nil in Hs by lia]).
  rewrite seqZ_cons in Hs by lia. injection Hs as Hx Hs. change (slot_of <$> bs = seqZ (Z.succ k) (Z.pred (M - k + 1))) in Hs.
  rewrite fmap_cons. cbn [concat]. unfold start_effects at 1. rewrite Hx. destruct bs as [|y bs].
  - injection Hl as ->. destruct (Z.eq_dec k M) as [->|]; [|rewrite seqZ_cons in Hs by lia; discriminate].
    by rewrite Z.eqb_refl.
  - rewrite (proj2 (Z.eqb_neq k M)) by (intros ->; rewrite seqZ_nil in Hs by lia; discriminate).
    cbn [app]. apply (IH (k + 1)); [|done]. rewrite Hs. f_equal; lia.
Qed.

(** What a request that starts at a stored slot is answered with. *)
Lemma sent_range req s : faults s = [] → 0 ≤ FromSlot req ≤ ToSlot req →
  FromSlot req ≤ latestFinalized s < 2 ^ 64 - 200 →
  let x := sendBlocksOverStream req [] s in
  concat (sent x) = served_range (data s) (FromSlot req) (latestFinalized s) ∧ Forall (λ b, b ≠ []) (sent x).
Proof.
  intros Hf Hr Hl. unfold sendBlocksOverStream, GetLatestFinalizedSlot. cbv zeta.
  rewrite (proj2 (Z.ltb_ge (latestFinalized s) (FromSlot req))) by lia. rewrite andb_false_r.
  destruct (send_ranges_progress (ranges_fuel (FromSlot req) (ToSlot req) (latestFinalized s)) (FromSlot req)
    (ToSlot req) (mkSender [] [] [] s) (latestFinalized s)) as (x & E & Hb & [P1 P2 _ _ _]);
    try done; [lia..|unfold ranges_fuel; lia|]. rewrite E. simpl in *.
  rewrite Hb, app_nil_r in P1. split; [done|]. eapply Forall_impl; [by apply P2|]. intros b Hlen ->. simpl in Hlen. lia.
Qed.

End CatchUp.

(** ** Panics *)

Section Panics.
Context `{TE : TxEnv, ZE : ZkEnv, VE : VoteEnv, SC : StoreCodec, CC : ContentCodec, DC : DedupCache}.
Context `{GC : GossipCodec}.

(** A schedule with slots, and a pool in which every transaction has an amount. *)
Record robust (n : Node) : Prop := {
  rb_schedule : maxSlot (leaderSchedule n) ≠ 0;
  rb_amounts h tx : txs (mp n) !! h = Some tx → Amount tx ≠ None;
}.

Lemma reading_node {A} (m : ST A) d n a n' : reading m d n = (a, n') → n' = set_storage (storage n') n.
Proof. unfold reading. destruct (m (storage n)) as [[x|e] s]; intros [= <- <-]; by destruct n. Qed.

Lemma applyDataToBlock_total v n : is_Some (applyDataToBlock v n).
Proof.
  unfold applyDataToBlock. destruct (reading (IsApplied _) false n) as [[|] n1]; [by eexists|].
  destruct (reading (store_Block _) None n1) as [[b|] n2]; [|by eexists].
  destruct (ledger_FinalizeBlock _ _ _ _ _) as [[[u|e] s] o]; by eexists.
Qed.

Lemma ProcessVote_total v n : is_Some (ProcessVote v n).
Proof.
  unfold ProcessVote. destruct (AddVote (collector n) v) as [[[cm ap]|e] c]; [|by eexists].
  destruct (reading (HasCompleteBlock _) false _) as [[|] n1]; [|by eexists]. cbn [negb].
  destruct (cm && ap); [apply applyDataToBlock_total|by eexists].
Qed.

Lemma validateNonce_total m (l : list Transaction) : validateNonce m (Some <$> l) ≠ None.
Proof. induction l as [|tx l IH]; [done|]. simpl. by repeat destruct (_ <? _). Qed.

Lemma validateDuplicateTxs_total c (l : list Transaction) : validateDuplicateTxs c (Some <$> l) ≠ None.
Proof. induction l as [|tx l IH]; [done|]. simpl. by repeat case_match. Qed.

Lemma VerifyBlockTransactions_total m c (l : list Transaction) : VerifyBlockTransactions m c (Some <$> l) ≠ None.
Proof.
  unfold VerifyBlockTransactions. pose proof (validateNonce_total m l).
  destruct (validateNonce m (Some <$> l)) as [[e|]|]; [done|apply validateDuplicateTxs_total|done].
Qed.

Lemma validateVersion_total tx content s : fst (validateVersion tx content s) ≠ None.
Proof.
  unfold validateVersion. destruct (_ && _); [done|]. destruct (_ || _); [done|].
  destruct (tx_GetByHash _ s) as [[p|e] s1]; [|done]. destruct (_ || _); [done|].
  destruct (GetLatestVersionContentHash _ s1) as [[lt|e] s2]; [|done]. by destruct (negb _).
Qed.

Lemma mp_validateUserContent_total tx s : fst (mp_validateUserContent tx s) ≠ None.
Proof.
  unfold mp_validateUserContent. destruct (json_to_content _) as [c|]; [|done].
  destruct (_ || _); [done|]. destruct (_ && _); [done|]. case_bool_decide; [apply validateVersion_total|].
  destruct (_ <? _); [done|]. destruct (tx_GetBatch _ s) as [[refs|e] s1]; [|done].
  destruct (negb _); [done|apply validateVersion_total].
Qed.

(** The cheap checks stop a transfer without an amount. *)
Lemma AddTx_total hr hb m zk c tx b s : is_Some (AddTx hr hb m zk c tx b s).
Proof.
  unfold AddTx, cheapValidateTransaction.
  destruct (match Amount tx with None => true | Some a => a =? 0 end && _) eqn:Ea; [by eexists|].
  destruct (_ <? _); [by eexists|]. destruct (_ <=? _); [by eexists|].
  pose proof (validateNonce_total m [tx]) as Hn. change (Some <$> [tx]) with [Some tx] in Hn.
  destruct (validateNonce m [Some tx]) as [[e|]|]; [by eexists| |done].
  destruct (Verify zk tx) as [[|] zk']; [|by eexists]. cbn [negb accept].
  unfold AddTx_locked, validateTransaction. case_bool_decide; [by eexists|].
  pose proof (validateDuplicateTxs_total c [tx]) as Hd. change (Some <$> [tx]) with [Some tx] in Hd.
  destruct (validateDuplicateTxs c [Some tx]) as [[e|]|]; [by eexists| |done].
  destruct (Type_ tx =? TxTypeUserContent).
  - pose proof (mp_validateUserContent_total tx s) as Hu.
    destruct (mp_validateUserContent tx s) as [[[e|]|] s1]; [by eexists| |done]. destruct (Amount tx); by eexists.
  - destruct (Amount tx) as [a|] eqn:Ham; [|done]. unfold validateBalance. case_bool_decide; rewrite ?Ham; [by eexists|].
    destruct (GetAccount _ s) as [[[acc|]|e] s1]; try by eexists. destruct (_ <? _); by eexists.
Qed.

Lemma BlockCleanup_total n hs : robust n → is_Some (BlockCleanup (mp n) hs).
Proof.
  intros R. unfold BlockCleanup. rewrite cleanup_pull.
  destruct (pull_loop_total (mp n) (elements hs) (rb_amounts n R)) as [[m l] ->]. by eexists.
Qed.

Lemma after_pending_total blk l pub n : robust n → is_Some (after_pending blk l pub n).
Proof.
  intros R. unfold after_pending. destruct (isListener n); [by eexists|].
  destruct (BlockCleanup_total n (list_to_set (Hash <$> l)) R) as [m Hm]. rewrite Hm.
  destruct (negb _); (match goal with |- context [ProcessVote ?v ?x] => destruct (ProcessVote_total v x) as [[[[u|e] n'] o] ->] end);
    by eexists.
Qed.
(** A block stops the node if it carries a nil transaction, and all the checks before the
    mempool's pass: it is new, the leader of its slot has signed it, and its other
    transactions verify. *)
Definition stops (blk : BroadcastedBlock) (n : Node) : Prop :=
  fst (reading (store_Block (slot_of blk)) None n) = None ∧
  IsLeaderAt (leaderSchedule n) (slot_of blk) (LeaderID (bb_core blk)) = Some true ∧
  VerifySignature blk = true ∧ fst (verify_txs (zkVerify n) (block_ptrs blk)) = true ∧ None ∈ block_ptrs blk.

Lemma nil_pointer {A} (l : list (option A)) : mapM id l = None ↔ None ∈ l.
Proof.
  rewrite mapM_None. split.
  - intros H%Exists_exists. destruct H as (x & Hx & E). simpl in E. by rewrite <- E.
  - intros H. apply Exists_exists. by exists None.
Qed.

Lemma OnBlockReceived_panics blk pub n : robust n → OnBlockReceived blk pub n = None ↔ stops blk n.
Proof.
  intros R. unfold OnBlockReceived, stops. fold (slot_of blk).
  destruct (reading (store_Block (slot_of blk)) None n) as [ex n1] eqn:E1. cbn [fst].
  pose proof (reading_node _ _ _ _ _ E1) as Hn. set (s := storage n1) in Hn. clearbody s. subst n1. clear E1.
  destruct ex as [x|]; [split; [done|intros (? & _); done]|].
  assert (IsLeaderAt (leaderSchedule n) (slot_of blk) (LeaderID (bb_core blk)) ≠ None) as Hld.
  { unfold IsLeaderAt. pose proof (LeaderAt_total (leaderSchedule n) (slot_of blk) (rb_schedule n R)).
    by destruct (LeaderAt _ _) as [[l|]|]. }
  cbn [leaderSchedule set_storage].
  destruct (IsLeaderAt _ _ _) as [[|]|]; [|split; [done|intros (_ & ? & _); done]|done].
  destruct (VerifySignature blk); cbn [negb]; [|split; [done|intros (_ & _ & ? & _); done]].
  unfold verifyBlockTransactions. cbn [zkVerify set_storage].
  destruct (verify_txs _ _) as [[|] zk]; cbn [negb fst]; [|split; [done|intros (_ & _ & _ & ? & _); done]].
  destruct (mapM id (block_ptrs blk)) as [l|] eqn:Em.
  - split; [|intros (_ & _ & _ & _ & H%nil_pointer); congruence]. intros H. exfalso. revert H.
    cbn [mp dedupCache set_storage set_zk]. pose proof (VerifyBlockTransactions_total (mp n) (dedupCache n) l).
    destruct (VerifyBlockTransactions _ _ _) as [[e|]|]; [done| |done].
    destruct (AddBlockPending _ _) as [[u|e] s2]; [|done]. intros H2.
    match type of H2 with after_pending ?b _ _ ?x = _ => destruct (after_pending_total b l pub x) as [? Hs] end;
      [by destruct R; split|congruence].
  - split; [|done]. intros _. by rewrite nil_pointer in Em.
Qed.

(** The queue only needs the schedule. *)
Lemma gather_schedule fuel now l1 l2 n : maxSlot (leaderSchedule n) ≠ 0 →
  ∃ l1' l2' n', gather fuel now l1 l2 n = Some (l1', l2', n') ∧ leaderSchedule n' = leaderSchedule n.
Proof.
  intros Hm. revert l1 l2 n Hm. induction fuel as [|fuel IH]; intros l1 l2 n Hm; simpl; [by eexists _, _, _|].
  destruct (_ <? _); [by eexists _, _, _|]. destruct (blockOrderingQueue n !! nextExpectedSlot n) as [blk|].
  { set (n1 := set_queue _ _ n). destruct (IH (l1 ++ [blk]) l2 n1 Hm) as (a & b & n' & E & H). by exists a, b, n'. }
  assert (is_Some (isLeaderOfSlot n (nextExpectedSlot n))) as [[|] ->].
  { unfold isLeaderOfSlot. pose proof (LeaderAt_total (leaderSchedule n) (nextExpectedSlot n) Hm).
    destruct (LeaderAt _ _) as [[leader|]|]; [by eexists..|done]. }
  2: by eexists _, _, _.
  destruct (empty_block _ _ _ _) as [b n1] eqn:Eb. apply empty_block_spec in Eb as (_ & (Hs & _) & _ & _).
  set (n2 := set_queue _ _ n1). assert (Hm2 : maxSlot (leaderSchedule n2) ≠ 0) by (simpl; by rewrite Hs).
  destruct (IH (l1 ++ [b]) (l2 ++ [b]) n2 Hm2) as (a & c & n' & E & H). exists a, c, n'. split; [done|].
  rewrite H. simpl. done.
Qed.

Lemma process_blocks_schedule l n out n' out' : process_blocks l n out = Some (n', out') →
  leaderSchedule n' = leaderSchedule n.
Proof.
  revert n out. induction l as [|b l IH]; intros n out; simpl; [by intros [= <- _]|].
  destruct (processBlock b n) as [[[r n1] o]|] eqn:E; [|done]. intros H%IH. rewrite H. clear H IH. revert E.
  unfold processBlock, verifyBlockTransactions. destruct (negb _); [by intros [= <- <- <-]|].
  destruct (verify_txs _ _) as [[|] zk]; cbn [negb]; [|by intros [= <- <- <-]].
  destruct (AddBlockPending _ _) as [[u|e] s]; [|by intros [= <- <- <-]].
  by destruct (ledger_FinalizeBlock _ _ _ _ _) as [[[u'|e] s'] o']; intros [= <- <- <-].
Qed.

Lemma OnSyncResponseReceived_total b now n : maxSlot (leaderSchedule n) ≠ 0 →
  ∃ r n' out, OnSyncResponseReceived b now n = Some (r, n', out) ∧ leaderSchedule n' = leaderSchedule n.
Proof.
  intros Hm. destruct b as [b|]; [|by eexists _, _, _]. unfold OnSyncResponseReceived, AddBlockToOrderingQueue.
  destruct (reading (HasCompleteBlock _) false n) as [ex n1] eqn:E1. apply reading_node in E1.
  assert (Hs : leaderSchedule n1 = leaderSchedule n) by (rewrite E1; done).
  destruct ex; [by eexists _, _, _|]. unfold processConsecutiveBlocks.
  destruct (gather_schedule (gather_fuel (set_queue (<[bSlot (bb_core b):=b]> (blockOrderingQueue n1)) (nextExpectedSlot n1) n1))
    now [] [] (set_queue (<[bSlot (bb_core b):=b]> (blockOrderingQueue n1)) (nextExpectedSlot n1) n1))
    as (l1 & l2 & n2 & -> & H2); [simpl; by rewrite Hs|].
  destruct (process_blocks_total l1 n2 []) as (n3 & out & E3). rewrite E3. apply process_blocks_schedule in E3.
  rewrite H2 in E3. simpl in E3. rewrite Hs in E3.
  destruct (last l1) as [lb|]; [|by eexists _, _, _]. cbv zeta. destruct (_ && _ && _); by eexists _, _, _.
Qed.
Lemma receive_blocks_total env l n : maxSlot (leaderSchedule n) ≠ 0 →
  ∃ n' out, receive_blocks env l n = Some (n', out) ∧ leaderSchedule n' = leaderSchedule n.
Proof.
  revert n. induction l as [|[b|] l IH]; intros n Hm; cbn [receive_blocks]; [by eexists _, _| |by apply IH].
  destruct (OnSyncResponseReceived_total (Some b) (clock_ env) n Hm) as (r & n1 & o1 & -> & H1).
  destruct (IH n1) as (n2 & o2 & E2 & H2); [by rewrite H1|]. cbn [mbind option_bind]. rewrite E2. cbn [mbind option_bind].
  eexists _, _. split; [done|]. by rewrite H2.
Qed.

(** A stream stops the node if one of its batches has no first or last block: the batch is
    empty, or null is there. *)
Fixpoint stopping (fuel : nat) (s : string) : bool :=
  match fuel with
  | O => false
  | S fuel' =>
      match dec_blocks s with
      | Eof | Malformed => false
      | Value l rest =>
          match head l, last l with
          | Some (Some _), Some (Some _) => stopping fuel' rest
          | _, _ => true
          end
      end
  end.

Lemma receive_batches_panics fuel env s n : maxSlot (leaderSchedule n) ≠ 0 →
  receive_batches fuel env s n = None ↔ stopping fuel s = true.
Proof.
  revert s n. induction fuel as [|fuel IH]; intros s n Hm; cbn [receive_batches stopping]; [done|].
  destruct (dec_blocks s) as [| |l rest]; [done..|].
  destruct (head l) as [[x|]|], (last l) as [[y|]|]; try done.
  destruct (receive_blocks_total env l n Hm) as (n1 & o1 & -> & H1). cbn [mbind option_bind].
  rewrite <- (IH rest n1) by by rewrite H1. by destruct (receive_batches fuel env rest n1) as [[n2 o2]|].
Qed.

Lemma called_panics env p o : called env p o = None ↔ o = None.
Proof. by destruct o as [[[r n] out]|]. Qed.

Lemma topic_panics env t from dat p : robust (pNode p) → peer_topic env (mkGossip t from dat) p = None ↔
  t = TBlocks ∧ TBlocks ∈ joined p ∧ from ≠ peerID p ∧ ∃ blk, to_block dat = Some (Some blk) ∧ stops blk (pNode p).
Proof.
  intros R.
  unfold peer_topic, has_topic. cbn [gTopic]. case_bool_decide as Hj; cbn [negb].
  2: { split; [done|]. by intros (-> & ? & _). }
  destruct t.
  { unfold HandleBlockTopic. cbn [gData ReceivedFrom]. case_bool_decide as Hf; [split; [done|]; by intros (_ & _ & ? & _)|].
    destruct (to_block dat) as [[blk|]|] eqn:E; [|split; [done|]; by intros (_ & _ & _ & ? & ? & _)..].
    rewrite called_panics, OnBlockReceived_panics by done. split; [intros; split_and!; eauto|].
    intros (_ & _ & _ & b & [= <-] & H). done. }
  all: split; [intros H; exfalso; revert H|by intros (? & _)].
  + unfold HandleEmptyBlockTopic. destruct (to_blocks _) as [[|b l]|]; [done| |done]. by case_bool_decide.
  + unfold HandleVoteTopic. case_bool_decide; [done|]. destruct (to_vote _) as [v|]; [|done].
    intros H1%called_panics. destruct (ProcessVote_total v (pNode p)) as [x Hx]. unfold OnVoteReceived in H1. congruence.
  + unfold HandleTransactionTopic. case_bool_decide; [done|]. destruct (to_tx _) as [[tx|]|]; [|done..].
    intros H1%called_panics. unfold OnTransactionReceived in H1.
    by destruct (AddTx_total (hasRouter (pNode p)) true (mp (pNode p)) (zkVerify (pNode p)) (dedupCache (pNode p)) tx false
      (storage (pNode p))) as [r E]; rewrite E in H1.
  + unfold handleBlockSyncRequestTopic. destruct (to_sync _) as [req|]; [|done]. case_bool_decide; [done|].
    destruct (admit_peer _ _ _ _ _) as [ok m]. destruct (negb ok); [done|]. by destruct (negb (opens env)).
  + unfold HandleLatestSlotTopic. case_bool_decide; [done|]. by destruct (to_latest _).
  + unfold HandleCheckpointRequestTopic. case_bool_decide; [done|]. destruct (to_checkpoint _) as [c|]; [|done].
    by destruct (getCheckpointHash c (storage (pNode p))) as [[[sl h]|] s].
Qed.

Lemma stream_panics env proto from content p : robust (pNode p) → peer_stream env proto from content p = None ↔
  proto = PSyncBlocks ∧ ∃ req rest, dec_sync content = Value req rest ∧
    fst (admit_peer req from (Some (streamID env)) (time_ env) (syncRequests p)) = true ∧
    stopping (S (String.length rest)) rest = true.
Proof.
  intros R.
  destruct proto; cbn [peer_stream].
  2: { split; [|by intros (? & _)]. unfold handleLatestSlotStream. by destruct (to_latest_response content). }
  2: { split; [|by intros (? & _)]. unfold p2p_handleCheckpointStream. destruct (to_checkpoint_response content); [|done].
       destruct (handleCheckpointStream _ _ _ _) as [[req|] s]; [|done]. by destruct (request_sync _ _ _) as [[ok q] o]. }
  unfold handleBlockSyncRequestStream. destruct (dec_sync content) as [| |req rest] eqn:E.
  1,2: split; [done|]; by intros (_ & ? & ? & ? & _).
  destruct (admit_peer _ _ _ _ _) as [[|] m] eqn:Ea; cbn [negb].
  2: { split; [done|]. intros (_ & r & x & [= <- <-] & H & _). by rewrite Ea in H. }
  transitivity (receive_batches (S (String.length rest)) env rest (pNode p) = None).
  { cbn [pNode with_requests]. by destruct (receive_batches _ env rest (pNode p)) as [[n o]|]. }
  rewrite receive_batches_panics by apply R. split.
  + intros H. split; [done|]. exists req, rest. by rewrite Ea.
  + by intros (_ & r & x & [= <- <-] & _ & H).
Qed.

End Panics.

(** ** The network and the handlers of the node *)

Section Refines.
Context `{TE : TxEnv, ZE : ZkEnv, VE : VoteEnv, SC : StoreCodec, CC : ContentCodec, DC : DedupCache}.
Context `{GC : GossipCodec}.

(** A step of the node's own: a message it handles, or a read. *)
Definition node_moves (n n' : Node) : Prop :=
  handles n n' ∨ ∃ s, data s = data (storage n) ∧ n' = set_storage s n.

(** Where a node sends: topics it has joined, and streams to one peer. *)
Definition sends_to (target : string) (p : Peer) (x : sending) : Prop :=
  match x with Published t _ => t ∈ joined p | Opened _ to _ => to = target end.

(** What the handling of an input does to a peer. *)
Record refined (target : string) (p p' : Peer) (out : list sending) : Prop := {
  rf_node : rtc node_moves (pNode p) (pNode p');
  rf_same : peerID p' = peerID p ∧ joined p' = joined p ∧ latestPohSlot p' = latestPohSlot p;
  rf_out : Forall (sends_to target p) out;
}.

Lemma publish_joined target t d env p : t ∈ joined p → Forall (sends_to target p) (snd (publish t d env)).
Proof. intros Hj. unfold publish. destruct (publishes_ env); simpl; [by apply Forall_singleton|done]. Qed.

Lemma send_effect_joined target env p e : Forall (sends_to target p) (send_effect env p e).
Proof.
  destruct e; simpl; try done.
  - unfold p2p_BroadcastVote, has_topic. destruct (enc_vote _); [|done]. case_bool_decide; [by apply publish_joined|done].
  - unfold p2p_BroadcastEmptyBlocks, has_topic. case_bool_decide; [done|]. destruct (enc_blocks _); [|done].
    case_bool_decide; [by apply publish_joined|done].
Qed.

Lemma send_effects_joined target env p l : Forall (sends_to target p) (concat (send_effect env p <$> l)).
Proof. apply Forall_concat, Forall_fmap, Forall_true. intros e. apply send_effect_joined. Qed.

(** A callback. *)
Lemma refined_called target m env p p' eff out :
  called env p (handle m (pNode p)) = Some (p', eff, out) → refined target p p' out.
Proof.
  unfold called. destruct (handle m (pNode p)) as [[[r n] o]|] eqn:E; [|done]. intros [= <- <- <-].
  split; [|done|apply send_effects_joined]. apply rtc_once. left. by exists m, r, o.
Qed.

(** A read of the store. *)
Lemma refined_read target p s m out : data s = data (storage (pNode p)) → Forall (sends_to target p) out →
  refined target p (with_requests m (with_pnode (set_storage s (pNode p)) p)) out.
Proof. intros Hs Ho. split; [|done|done]. apply rtc_once. right. by exists s. Qed.

Lemma receive_blocks_moves env l n n' out : receive_blocks env l n = Some (n', out) → rtc node_moves n n'.
Proof.
  revert n out. induction l as [|[b|] l IH]; intros n out; cbn [receive_blocks]; [by intros [= <- _]| |by apply IH].
  destruct (OnSyncResponseReceived _ _ n) as [[[r n1] o]|] eqn:E; cbn [mbind option_bind]; [|done].
  destruct (receive_blocks env l n1) as [[n2 o2]|] eqn:E2; cbn [mbind option_bind]; [|done]. intros [= <- _].
  eapply rtc_l; [left; by exists (MSyncBlock (Some b) (clock_ env)), r, o|by eapply IH].
Qed.

Lemma receive_batches_moves fuel env s n n' out : receive_batches fuel env s n = Some (n', out) → rtc node_moves n n'.
Proof.
  revert s n out. induction fuel as [|fuel IH]; intros s n out; cbn [receive_batches]; [by intros [= <- _]|].
  destruct (dec_blocks s) as [| |l rest]; [by intros [= <- _]..|].
  destruct (head l) as [[x|]|], (last l) as [[y|]|]; try done.
  destruct (receive_blocks env l n) as [[n1 o1]|] eqn:E1; cbn [mbind option_bind]; [|done].
  destruct (receive_batches fuel env rest n1) as [[n2 o2]|] eqn:E2; cbn [mbind option_bind]; [|done].
  intros [= <- _]. etransitivity; [by eapply receive_blocks_moves|by eapply IH].
Qed.

(** Serving blocks only reads. *)
Lemma convert_entries_data l s : data (snd (convert_entries l s)) = data s.
Proof.
  revert s. induction l as [|e l IH]; intros s; simpl; [done|]. unfold convert_entry.
  pose proof (keeps_tx_GetBatch eq (TxHashes e) s) as K. destruct (tx_GetBatch _ s) as [[x|err] s1]; simpl in K;
    (destruct (convert_entries l s1) as [es s2] eqn:E; specialize (IH s1); rewrite E in IH; simpl in *; congruence).
Qed.

Lemma load_slot_data slot x : data (sstore (load_slot slot x)) = data (sstore x).
Proof.
  unfold load_slot. pose proof (store_Block_reads slot (sstore x)) as K.
  destruct (store_Block slot (sstore x)) as [[[blk|]|e] s]; simpl in K |- *; [|done..].
  unfold convertBlockToBroadcastedBlock. pose proof (convert_entries_data (blk_Entries blk) s) as K2.
  destruct (convert_entries _ s) as [es s2]. simpl in *. congruence.
Qed.

Lemma sendBlockBatchStream_data x : data (sstore (snd (sendBlockBatchStream x))) = data (sstore x).
Proof. unfold sendBlockBatchStream. by destruct (writes x) as [|[|] ws]. Qed.

Lemma send_slots_data fuel slot to x : data (sstore (snd (send_slots fuel slot to x))) = data (sstore x).
Proof.
  revert slot x. induction fuel as [|fuel IH]; intros slot x; cbn [send_slots]; [done|].
  destruct (slot <=? to); [|done]. pose proof (load_slot_data slot x) as K. set (y := load_slot slot x) in *.
  pose proof (sendBlockBatchStream_data y) as K2.
  destruct (_ <=? _); [destruct (sendBlockBatchStream y) as [[|] z]; simpl in K2; [rewrite IH|simpl]; congruence|].
  rewrite IH. congruence.
Qed.

Lemma send_ranges_data fuel from to x : data (sstore (snd (send_ranges fuel from to x))) = data (sstore x).
Proof.
  revert from to x. induction fuel as [|fuel IH]; intros from to x; cbn [send_ranges]; [done|].
  destruct (_ <? from); [done|]. cbv zeta. set (to' := if _ <? to then _ else _).
  pose proof (send_slots_data (Z.to_nat (to' - from + 1)) from to' x) as K.
  destruct (send_slots _ from to' x) as [[|] y]; simpl in K; [|done]. cbn [negb].
  pose proof (sendBlockBatchStream_data y) as K2.
  case_bool_decide; [cbn [negb]; rewrite IH; congruence|]. destruct (sendBlockBatchStream y) as [[|] z]; simpl in K2; [|simpl; congruence].
  cbn [negb]. rewrite IH. congruence.
Qed.

Lemma sendBlocksOverStream_data req ws s : data (sstore (sendBlocksOverStream req ws s)) = data s.
Proof. unfold sendBlocksOverStream. destruct (_ && _); [done|]. by rewrite send_ranges_data. Qed.

Lemma getCheckpointHash_data c s : data (snd (getCheckpointHash c s)) = data s.
Proof.
  unfold getCheckpointHash. repeat (destruct (_ =? _); [done|]). destruct (_ <? _); [done|].
  pose proof (store_Block_reads c s) as K. by destruct (store_Block c s) as [[[blk|]|e] s1].
Qed.
Lemma refined_topic env t from dat p p' eff out :
  peer_topic env (mkGossip t from dat) p = Some (p', eff, out) → refined from p p' out.
Proof.
  unfold peer_topic, ignored. cbn [gTopic]. destruct (negb _); [by intros [= <- <- <-]|]. destruct t.
  - unfold HandleBlockTopic, ignored. case_bool_decide; [by intros [= <- <- <-]|].
    destruct (to_block _) as [[blk|]|]; [apply (refined_called _ (MBlock _ _))|by intros [= <- <- <-]..].
  - unfold HandleEmptyBlockTopic, ignored. destruct (to_blocks _) as [[|b l]|]; [by intros [= <- <- <-]| |by intros [= <- <- <-]].
    case_bool_decide; [by intros [= <- <- <-]|apply (refined_called _ (MEmptyBlocks _))].
  - unfold HandleVoteTopic, ignored. case_bool_decide; [by intros [= <- <- <-]|].
    destruct (to_vote _); [apply (refined_called _ (MVote _))|by intros [= <- <- <-]].
  - unfold HandleTransactionTopic, ignored. case_bool_decide; [by intros [= <- <- <-]|].
    destruct (to_tx _) as [[tx|]|]; [apply (refined_called _ (MTransaction _))|by intros [= <- <- <-]..].
  - unfold handleBlockSyncRequestTopic, ignored. destruct (to_sync _) as [req|]; [|by intros [= <- <- <-]].
    case_bool_decide; [by intros [= <- <- <-]|]. destruct (admit_peer _ _ _ _ _) as [ok m].
    destruct (negb ok); [intros [= <- <- <-]; by split|]. destruct (negb (opens env)); [intros [= <- <- <-]; by split|].
    intros [= <- <- <-]. apply (refined_read _ p _ (finish_request (RequestID req) m)); [apply sendBlocksOverStream_data|by apply Forall_singleton].
  - unfold HandleLatestSlotTopic, ignored. case_bool_decide; [by intros [= <- <- <-]|].
    destruct (to_latest _); [|by intros [= <- <- <-]]. intros [= <- <- <-]. split; [done..|].
    destruct (opens env); [by apply Forall_singleton|done].
  - unfold HandleCheckpointRequestTopic, ignored. case_bool_decide; [by intros [= <- <- <-]|].
    destruct (to_checkpoint _) as [c|]; [|by intros [= <- <- <-]].
    pose proof (getCheckpointHash_data c (storage (pNode p))) as K.
    destruct (getCheckpointHash _ _) as [[[sl h]|] s]; intros [= <- <- <-]; simpl in K;
      apply (refined_read _ p s (syncRequests p)); try done. destruct (opens env); [by apply Forall_singleton|done].
Qed.

Lemma refined_stream env proto from content p p' eff out :
  peer_stream env proto from content p = Some (p', eff, out) → refined from p p' out.
Proof.
  destruct proto; cbn [peer_stream].
  - unfold handleBlockSyncRequestStream, ignored. destruct (dec_sync content) as [| |req rest]; [by intros [= <- <- <-]..|].
    destruct (admit_peer _ _ _ _ _) as [ok m]. destruct (negb ok); [intros [= <- <- <-]; by split|]. cbn [pNode with_requests].
    destruct (receive_batches _ env rest (pNode p)) as [[n o]|] eqn:E; cbn [mbind option_bind]; [|done].
    intros [= <- <- <-]. split; [by eapply receive_batches_moves|done|].
    match goal with |- Forall _ (concat (send_effect _ ?q <$> _)) => exact (send_effects_joined from env q o) end.
  - unfold handleLatestSlotStream, ignored. destruct (to_latest_response content); [|by intros [= <- <- <-]].
    apply (refined_called _ (MLatestSlot _ _)).
  - unfold p2p_handleCheckpointStream, ignored. destruct (to_checkpoint_response content) as [r|]; [|by intros [= <- <- <-]].
    unfold handleCheckpointStream. pose proof (getCheckpointHash_data (crCheckpoint r) (storage (pNode p))) as K.
    destruct (getCheckpointHash _ _) as [[[sl h]|] s]; simpl in K.
    2: { intros [= <- <- <-]. by apply (refined_read _ p s (syncRequests p)). }
    case_bool_decide; [intros [= <- <- <-]; by apply (refined_read _ p s (syncRequests p))|].
    unfold request_sync. case_bool_decide; [intros [= <- <- <-]; by apply (refined_read _ p s (syncRequests p))|].
    unfold has_topic. cbn [joined with_requests with_pnode]. case_bool_decide as Hj.
    + destruct (publish _ _ env) as [ok o] eqn:Ep. intros [= <- <- <-]. apply refined_read; [done|].
      change o with (snd (ok, o)). rewrite <- Ep. by apply publish_joined.
    + intros [= <- <- <-]. by apply refined_read.
Qed.

(** [C16] The network layer refines the node.  Whatever bytes arrive on a topic or a
    stream, when the handling returns, the node has moved by messages that [handle] of
    Node.v handles and by reads of its store, its identity, its topics and its clock are as
    before, it has published only on topics it has joined, and the only peer it opens a
    stream to is the one the bytes came from. *)
Theorem network_refines_handlers (env : ambient) (i : incoming) (p p' : Peer) (eff : list Effect) (out : list sending) :
  peer_receive env i p = Some (p', eff, out) → refined (source i) p p' out.
Proof. destruct i as [[t from dat]|proto from content]; [apply refined_topic|apply refined_stream]. Qed.

(** One input. *)
Definition receives (p p' : Peer) : Prop := ∃ env i eff out, peer_receive env i p = Some (p', eff, out).

(** What storing and finalizing keep of a database, all inputs from the network keep. *)
Lemma network_keeps (R : relation (gmap string string)) `{!DataRel R} p p' :
  rtc receives p p' → R (data (storage (pNode p))) (data (storage (pNode p'))).
Proof.
  induction 1 as [p|p1 p2 p3 (env & i & eff & out & H) _ IH]; [reflexivity|]. etransitivity; [|exact IH]. clear IH.
  assert (refined (source i) p1 p2 out) as [Hm _ _].
  { destruct i as [[t from dat]|proto from content]; [by eapply refined_topic|by eapply refined_stream]. }
  induction Hm as [n|n1 n2 n3 [Hh|(s & Hs & ->)] _ IH]; [reflexivity| |].
  - etransitivity; [exact (handle_keeps R n1 n2 Hh)|exact IH].
  - simpl in IH. by rewrite Hs in IH.
Qed.
End Refines.

(** ** Delivery *)

Section Delivery.
Context `{TE : TxEnv, ZE : ZkEnv, VE : VoteEnv, SC : StoreCodec, CC : ContentCodec, DC : DedupCache}.
Context `{GC : GossipCodec, GO : !GossipCodecOk GC}.

(** What a node announces, how it is published, and what the others are to handle. *)
Inductive announcement := ABlock (b : BroadcastedBlock) | AVote (v : Vote) | ATx (tx : Transaction)
  | AEmpty (l : list BroadcastedBlock).
Definition announce (a : announcement) (env : ambient) (p : Peer) : bool * list sending :=
  match a with
  | ABlock b => BroadcastBlock b env p
  | AVote v => p2p_BroadcastVote v env p
  | ATx tx => TxBroadcast tx env p
  | AEmpty l => p2p_BroadcastEmptyBlocks l env p
  end.
Definition as_message (a : announcement) (env : ambient) (p : Peer) : message :=
  match a with
  | ABlock b => MBlock b (vote_published env p)
  | AVote v => MVote v
  | ATx tx => MTransaction tx
  | AEmpty l => MEmptyBlocks (Some <$> l)
  end.

(** What one node publishes is, at every other node that has joined the topic, the same
    message for the handlers; the node itself ignores it. *)
Theorem announcement_delivered (a : announcement) (envA envB : ambient) (pa pb : Peer) (t : topic) (d : string) :
  (t, d) ∈ omap (λ x, match x with Published t d => Some (t, d) | _ => None end) (snd (announce a envA pa)) →
  t ∈ joined pb →
  peer_topic envB (mkGossip t (peerID pa) d) pb =
  if bool_decide (peerID pa = peerID pb) then ignored pb
  else called envB pb (handle (as_message a envB pb) (pNode pb)).
Proof.
  intros Hin Hj. unfold peer_topic, has_topic. cbn [gTopic]. rewrite (bool_decide_true (t ∈ joined pb)) by done. cbn [negb].
  assert (Hpub : ∀ t' d', (t, d) ∈ omap (λ x, match x with Published t d => Some (t, d) | _ => None end)
    (snd (publish t' d' envA)) → t = t' ∧ d = d').
  { intros t' d'. unfold publish. destruct (publishes_ envA); simpl; [|by intros ?%elem_of_nil].
    by intros [= -> ->]%list_elem_of_singleton. }
  destruct a as [b|v|tx|l]; cbn [announce as_message handle] in *.
  - unfold BroadcastBlock in Hin. destruct (enc_block b) as [v|] eqn:E; [|by apply elem_of_nil in Hin]. simpl in Hin.
    destruct (has_topic TBlocks pa); [|by apply elem_of_nil in Hin]. apply Hpub in Hin as [-> ->].
    unfold HandleBlockTopic. cbn [ReceivedFrom gData]. by rewrite (block_rt b v E).
  - unfold p2p_BroadcastVote in Hin. destruct (enc_vote v) as [x|] eqn:E; [|by apply elem_of_nil in Hin].
    destruct (has_topic TVotes pa); [|by apply elem_of_nil in Hin]. apply Hpub in Hin as [-> ->].
    unfold HandleVoteTopic. cbn [ReceivedFrom gData]. by rewrite (vote_rt v x E).
  - unfold TxBroadcast in Hin. destruct (enc_tx tx) as [x|] eqn:E; [|by apply elem_of_nil in Hin].
    destruct (has_topic TTxs pa); [|by apply elem_of_nil in Hin]. apply Hpub in Hin as [-> ->].
    unfold HandleTransactionTopic. cbn [ReceivedFrom gData]. by rewrite (tx_rt tx x E).
  - unfold p2p_BroadcastEmptyBlocks in Hin. case_bool_decide as Hl; [by apply elem_of_nil in Hin|].
    destruct (enc_blocks l) as [x|] eqn:E; [|by apply elem_of_nil in Hin].
    destruct (has_topic TEmptyBlocks pa); [|by apply elem_of_nil in Hin]. apply Hpub in Hin as [-> ->].
    unfold HandleEmptyBlockTopic. cbn [ReceivedFrom gData]. rewrite (blocks_rt l x E). by destruct l as [|b l].
Qed.
End Delivery.

(** ** Requests that are left behind, and blocks that are not replaced *)

Section Leftovers.
Context `{TE : TxEnv, ZE : ZkEnv, VE : VoteEnv, SC : StoreCodec, CC : ContentCodec, DC : DedupCache}.
Context `{GC : GossipCodec}.

(** A block of a slot that has one is dropped, whatever it says.  So the block that is
    asked for when the hash of a checkpoint differs never replaces the local one. *)
Lemma stored_slot_not_replaced b now n v : faults (storage n) = [] →
  data (storage n) !! slotToBlockKey (slot_of b) = Some v →
  OnSyncResponseReceived (Some b) now n = Some (Ok tt, n, []).
Proof.
  intros Hf Hv. unfold OnSyncResponseReceived, AddBlockToOrderingQueue. fold (slot_of b).
  assert (reading (HasCompleteBlock (slot_of b)) false n = (true, n)) as ->; [|done].
  destruct n as [s]. destruct s as [d f lf ls]. simpl in *. subst f.
  unfold reading, HasCompleteBlock, or_false, db_Has, db_step. simpl. by rewrite Hv.
Qed.

(** When the stream to a requester cannot be opened, the request stays active: nobody is
    served under its identifier again, and the periodic cleanup keeps it. *)
Lemma unopened_stream_leaves_request env msg req p p' eff out :
  opens env = false → to_sync (gData msg) = Some req → ReceivedFrom msg ≠ peerID p → syncRequests p !! RequestID req = None →
  handleBlockSyncRequestTopic env msg p = Some (p', eff, out) →
  out = [] ∧ ∃ t, syncRequests p' !! RequestID req = Some t ∧ IsActive t = true ∧
    ∀ now, is_Some (CleanupExpiredRequests now (syncRequests p') !! RequestID req).
Proof.
  intros Ho Hs Hf Ht. unfold handleBlockSyncRequestTopic. rewrite Hs, bool_decide_false by done.
  unfold admit_peer, tracker_for. rewrite Ht. cbn [default from_option id ActivatePeer NewSyncRequestTracker IsActive negb].
  rewrite Ho. cbn [negb]. intros [= <- <- <-]. split; [done|]. cbn [syncRequests with_requests].
  eexists. rewrite lookup_insert_eq. split_and!; [done..|]. intros now. unfold CleanupExpiredRequests.
  rewrite lookup_omap, lookup_insert_eq. cbn [mbind option_bind]. unfold cleanup_one. destruct (_ <? _); by eexists.
Qed.

(** With one peer the choice of the second one panics. *)
Lemma one_peer_panics p : RequestBlockSyncStream_target [p] = None.
Proof. done. Qed.
End Leftovers.

(** ** Examples *)

(** A codec: the number of a value, bit by bit, each announced by a 1. *)
Fixpoint bits (p : positive) : string :=
  match p with xH => "0" | xO p => "10" +:+ bits p | xI p => "11" +:+ bits p end.
Fixpoint unbits (s : string) : option (positive * string) :=
  match s with
  | String "0"%char rest => Some (xH, rest)
  | String "1"%char (String "0"%char rest) => '(p, rest) ← unbits rest; Some (xO p, rest)
  | String "1"%char (String "1"%char rest) => '(p, rest) ← unbits rest; Some (xI p, rest)
  | _ => None
  end.

Lemma unbits_bits p rest : unbits (bits p +:+ rest) = Some (p, rest).
Proof.
  induction p as [p IH|p IH|]; simpl; [change ("" +:+ bits p) with (bits p); by rewrite IH..|done].
Qed.

Lemma unbits_shorter s p rest : unbits s = Some (p, rest) → (String.length rest < String.length s)%nat.
Proof.
  revert p. induction s as [s IH] using (induction_ltof1 _ String.length); unfold ltof in IH. intros p.
  destruct s as [|a s]; [done|]. destruct a as [[] [] [] [] [] [] [] []]; simpl; try done.
  2: { intros [= <- <-]. lia. }
  destruct s as [|a s]; [done|]. destruct a as [[] [] [] [] [] [] [] []]; simpl; try done.
  all: destruct (unbits s) as [[q r]|] eqn:E; simpl; [|done]; intros [= <- <-]; apply IH in E; simpl in *; lia.
Qed.

Definition ser {A} `{Countable A} (a : A) : string := bits (encode a).
Definition des {A} `{Countable A} (s : string) : option (A * string) :=
  '(p, rest) ← unbits s; a ← decode p; Some (a, rest).
Definition whole {A} (r : option (A * string)) : option A := match r with Some (a, "") => Some a | _ => None end.

Lemma des_ser {A} `{Countable A} (a : A) rest : des (ser a +:+ rest) = Some (a, rest).
Proof. unfold des, ser. rewrite unbits_bits. cbn [mbind option_bind]. by rewrite decode_encode. Qed.

Lemma whole_ser {A} `{Countable A} (a : A) : whole (des (ser a)) = Some a.
Proof. rewrite <- (append_nil_r (ser a)). by rewrite des_ser. Qed.

#[export] Instance status_eq_dec : EqDecision BlockStatus.
Proof. solve_decision. Defined.
#[export] Instance core_eq_dec : EqDecision BlockCore.
Proof. solve_decision. Defined.
#[export] Instance entry_eq_dec : EqDecision Entry.
Proof. solve_decision. Defined.
#[export] Instance broadcasted_eq_dec : EqDecision BroadcastedBlock.
Proof. solve_decision. Defined.

(** The leader's block of slot 5 with a nil transaction. *)
Definition nil_block : BroadcastedBlock := block_of 5 [NewTxEntry 1 zero_hash [None]].

(** Values that are numbered. *)
Definition index_of {A} `{EqDecision A} (l : list A) (a : A) : option nat := fst <$> list_find (a =.) l.
Definition circulating : list BroadcastedBlock := [block5; block6; nil_block].
Definition paid : list Transaction := [pay1; pay2].

Lemma index_of_lookup {A} `{EqDecision A} (l : list A) a i : index_of l a = Some i → l !! i = Some a.
Proof.
  unfold index_of. destruct (list_find _ l) as [[j x]|] eqn:E; [|done]. intros [= <-].
  by apply list_find_Some in E as (H & -> & _).
Qed.

(** A pointer to a numbered value. *)
Definition pointed {A} (l : list A) (o : option nat) : option (option A) :=
  match o with None => Some None | Some i => Some <$> l !! i end.

Lemma pointed_index {A} `{EqDecision A} (l : list A) xs ks :
  mapM (index_of l) xs = Some ks → mapM (pointed l) (Some <$> ks) = Some (Some <$> xs).
Proof.
  intros H%mapM_Some. apply mapM_Some. induction H as [|x i xs ks Hx _ IH]; [constructor|].
  constructor; [|exact IH]. simpl. by rewrite (index_of_lookup _ _ _ Hx).
Qed.

Definition decoded_of {A} (r : option (A * string)) : decoded A :=
  match r with Some (a, rest) => Value a rest | None => Malformed end.
Definition sync_of (x : string * (Z * Z)) : SyncRequest := mkSyncRequest x.1 x.2.1 x.2.2.
Definition of_sync (r : SyncRequest) : string * (Z * Z) := (RequestID r, (FromSlot r, ToSlot r)).

Definition wire : GossipCodec := {|
  enc_block b := (λ i, ser (Some i)) <$> index_of circulating b;
  to_block v := whole (des v) ≫= pointed circulating;
  enc_blocks l := (λ ks, ser (Some <$> ks)) <$> mapM (index_of circulating) l;
  to_blocks v := whole (des v) ≫= mapM (pointed circulating);
  enc_vote v := Some (ser ((Slot v, BlockHash v), (VoterID v, VSignature v)));
  to_vote v := (λ x : Z * string * (string * string), mkVote x.1.1 x.1.2 x.2.1 x.2.2) <$> whole (des v);
  enc_tx t := (λ i, ser (Some i)) <$> index_of paid t;
  to_tx v := whole (des v) ≫= pointed paid;
  enc_sync r := ser (of_sync r);
  to_sync v := sync_of <$> whole (des v);
  enc_latest id := ser id;
  to_latest v := whole (des v);
  enc_checkpoint c := ser c;
  to_checkpoint v := whole (des v);
  enc_latest_response r := ser (lrLatestSlot r, lrPeerID r, lrLatestPohSlot r);
  to_latest_response v := (λ x : Z * string * Z, mkLatestSlotResponse x.1.1 x.1.2 x.2) <$> whole (des v);
  enc_checkpoint_response r := ser ((crCheckpoint r, crSlot r), (crBlockHash r, crPeerID r));
  to_checkpoint_response v :=
    (λ x : Z * Z * (string * string), mkCheckpointResponse x.1.1 x.1.2 x.2.1 x.2.2) <$> whole (des v);
  dec_sync v := match v with "" => Eof | _ => decoded_of ('(x, rest) ← des v; Some (sync_of x, rest)) end;
  dec_blocks v :=
    match v with
    | "" => Eof
    | _ => decoded_of ('(ks, rest) ← des v; l ← mapM (pointed circulating) ks; Some (l, rest))
    end;
|}.

Lemma ser_app_not_empty {A B} `{Countable A} (a : A) rest (x y : B) :
  match ser a +:+ rest with "" => x | _ => y end = y.
Proof. unfold ser. by destruct (encode a). Qed.

#[export] Instance wire_ok : GossipCodecOk wire.
Proof.
  split; simpl.
  - intros b v. destruct (index_of circulating b) as [i|] eqn:E; intros [= <-]. rewrite whole_ser. simpl.
    by rewrite (index_of_lookup _ _ _ E).
  - intros l v. destruct (mapM (index_of circulating) l) as [ks|] eqn:E; intros [= <-]. rewrite whole_ser.
    by apply pointed_index.
  - intros [a b c d] v [= <-]. by rewrite whole_ser.
  - intros t v. destruct (index_of paid t) as [i|] eqn:E; intros [= <-]. rewrite whole_ser. simpl.
    by rewrite (index_of_lookup _ _ _ E).
  - intros [a b c]. by rewrite whole_ser.
  - intros id. by rewrite whole_ser.
  - intros c. by rewrite whole_ser.
  - intros [a b c]. by rewrite whole_ser.
  - intros [a b c d]. by rewrite whole_ser.
  - intros [a b c] rest. by rewrite ser_app_not_empty, des_ser.
  - intros l v rest. destruct (mapM (index_of circulating) l) as [ks|] eqn:E; intros [= <-].
    rewrite ser_app_not_empty, des_ser. simpl. by rewrite (pointed_index _ _ _ E).
  - done.
  - intros s l rest. destruct s as [|a s]; [done|]. unfold des.
    destruct (unbits (String a s)) as [[p r]|] eqn:E; [|done]. simpl. apply unbits_shorter in E.
    destruct (decode p) as [ks|]; [|done]. simpl. destruct (mapM _ ks) as [m|]; [|done]. by intros [= _ <-].
Qed.

Module GossipExamples.
#[local] Existing Instances node_env example_zk_env node_votes node_codec no_contents list_dedup wire.

(** B has finalized the slots 5 and 6; A expects slot 5 and knows of slot 6. *)
Definition ahead : Node := node_after
  (delivered ++ [MVote (vote_of 5 block5 example_key); MVote (vote_of 6 block6 example_key)]).
Definition behind : Node := set_queue ∅ 5 (set_world 6 6 (set_ready false false node0)).
Definition peerA : Peer := mkPeer "A" behind ∅ sync_topics 0.
Definition peerB : Peer := mkPeer "B" ahead ∅ (sync_topics ++ core_topics false) 6.
Definition calm_air : ambient := mkAmbient "id" 0 (λ _, 0) [] true true 1.

Lemma behind_waits : waiting_for 5 6 behind.
Proof.
  split; try (vm_compute; reflexivity); try done; try lia.
  all: intros x Hx; assert (x = 5 ∨ x = 6) as [->| ->] by lia; vm_compute; reflexivity.
Qed.

Lemma circulating_encodable : encodable [block5; block6].
Proof.
  intros l Hl. unfold enc_blocks, wire. apply fmap_is_Some, mapM_is_Some_2, Forall_forall. intros b Hb.
  specialize (Hl b Hb). rewrite !elem_of_cons in Hl. destruct Hl as [->|[->|H]]; [vm_compute; by eexists..|by apply elem_of_nil in H].
Qed.


(** What A ends up with is what B has. *)
Definition exchange (pa : Peer) : option (list Z * list Z) :=
  match p2p_RequestBlockSync 5 calm_air pa with
  | (_, pa1, [Published _ data]) =>
      match peer_topic calm_air (mkGossip TSyncRequest "A" data) peerB with
      | Some (pb', _, [Opened proto _ content]) =>
          '(pa', _, _) ← peer_stream calm_air proto "B" content pa1;
          Some (node_balances (pNode pa'), node_balances (pNode pb'))
      | _ => None
      end
  | _ => None
  end.
Lemma exchange_agrees : exchange peerA = Some ([40; 0; 60], [40; 0; 60]).
Proof. vm_compute. reflexivity. Qed.

(** The same exchange, but the node that is behind is the leader of the slots, whose store
    was lost: the block of slot 5 makes it fill slot 6, which is its own and not queued yet,
    with an empty block.  Its real block of slot 6 arrives next and is dropped, and the two
    nodes disagree on the balances, although nothing failed. *)
Definition lost : Node :=
  mkNode (storage behind) (mp behind) (zkVerify behind) (dedupCache behind) (collector behind) (leaderSchedule behind)
    example_addr example_key false true true false false 6 6 ∅ 5 5 10.
Theorem leader_replaces_own_blocks :
  exchange (mkPeer "A" lost ∅ sync_topics 0) = Some ([40; 60; 0], [40; 0; 60]) ∧
  @isLeaderOfSlot example_zk_env list_dedup lost 6 = Some true.
Proof. split; vm_compute; reflexivity. Qed.

Lemma start_robust n : leaderSchedule n = leaderSchedule node0 → txs (mp n) = ∅ → robust n.
Proof. intros Hs Hp. split; [by rewrite Hs|]. intros h tx. by rewrite Hp, lookup_empty. Qed.

(** The leader's block with a nil transaction stops a node, and so does an empty batch. *)
Definition peerC : Peer := mkPeer "C" node0 ∅ (core_topics false) 0.
Definition empty_answer : string := enc_sync (RequestSingleBlockSync "r" 5) +:+ ser (A := list (option nat)) [].


Lemma network_refines_handlers_witness :
  ∃ p' eff out,
    peer_receive calm_air (OnTopic (mkGossip TBlocks "leader" (default "" (enc_block block5)))) peerC = Some (p', eff, out) ∧
    refined "leader" peerC p' out ∧ out ≠ [].
Proof.
  destruct (peer_receive calm_air (OnTopic (mkGossip TBlocks "leader" (default "" (enc_block block5)))) peerC)
    as [[[p' eff] out]|] eqn:E.
  - exists p', eff, out. split_and!; [reflexivity|exact (network_refines_handlers _ _ _ _ _ _ E)|].
    intros ->. apply (f_equal (λ o, match o with Some (_, _, []) => true | _ => false end)) in E.
    vm_compute in E. discriminate E.
  - exfalso. apply (f_equal (λ o, bool_decide (is_Some o))) in E. vm_compute in E. discriminate E.
Defined.
End GossipExamples.
