(* ===== verification/Bootstrap.v ===== *)
(** * Joining the network (bootstrap/bootstrap.go, discovery/utils.go, p2p/network.go, p2p/discovery.go, p2p/utils.go)

    The bootstrap node counts its connections and introduces its peers to each other; a
    node resolves the addresses of bootstrap nodes, connects to one, handles introductions
    and looks for more peers.  The types and functions of libp2p that the code calls are the
    class [Libp2p].  A panic is [None]; errors are logged. *)

From stdpp Require Import base list gmap strings.
From Stdlib Require Import ZArith Lia Ascii.
From S2P Require Import Prelude GoLib.

Open Scope string_scope.
Open Scope list_scope.
Open Scope Z_scope.

(** What [jsonx.Unmarshal] puts into an [interface{}]: null, a string, an array, of which the
    elements that are no strings are [None], or something else. *)
Inductive json := JNull | JStr (s : string) | JArr (l : list (option string)) | JOther.

Class Libp2p := {
  (** Addresses, and the identifiers of peers as texts. *)
  Multiaddr : Type;
  NewMultiaddr : string → option Multiaddr;
  maddr_String : Multiaddr → string;
  peer_Decode : string → option string;
  (** [peer.AddrInfoFromP2pAddr]: the peer an address ends in and the address before it. *)
  AddrInfoFromP2pAddr : Multiaddr → option (string * list Multiaddr);
  madns_Matches : Multiaddr → bool;
  (** [jsonx.Marshal] of a map with the keys new_peer_id and addrs, and [jsonx.Unmarshal]
      into a map. *)
  json_of_info : string → list string → string;
  json_to_map : string → option (gmap string json);
}.

(** A text of an address is parsed back, and what was marshalled is unmarshalled; a list
    without elements is a nil slice, whose JSON is null. *)
Class Libp2pOk (L : Libp2p) : Prop := {
  NewMultiaddr_String m : NewMultiaddr (maddr_String m) = Some m;
  json_info_rt id addrs :
    json_to_map (json_of_info id addrs) =
    Some (<["new_peer_id" := JStr id]> {["addrs" := if bool_decide (addrs = []) then JNull else JArr (Some <$> addrs)]});
}.

Section Bootstrap.
Context `{L : Libp2p}.

Definition AddrInfo : Type := string * list Multiaddr.

(** ** discovery/utils.go *)

(** [resolves]: what [madns.Resolve] answers. *)
Definition resolveMultiAddr (resolves : Multiaddr → option (list Multiaddr)) (raw : Multiaddr) : option (list Multiaddr) :=
  if madns_Matches raw then resolves raw else Some [raw].

Definition resolveMultiAddrString (resolves : Multiaddr → option (list Multiaddr)) (addrStr : string) : option (list AddrInfo) :=
  mAddr ← NewMultiaddr addrStr;
  mAddrs ← resolveMultiAddr resolves mAddr;
  mapM AddrInfoFromP2pAddr mAddrs.

Definition ResolveAndParseMultiAddrs (resolves : Multiaddr → option (list Multiaddr)) (addrStrings : list string)
    : option (list AddrInfo) :=
  @concat AddrInfo <$> mapM (resolveMultiAddrString resolves) addrStrings.

(** ** network.go: setupHandlers *)

(** The loop over the bootstrap peers: the one it connects to.  [connects] is the answer of
    [host.Connect]. *)
Fixpoint join (resolves : Multiaddr → option (list Multiaddr)) (connects : AddrInfo → bool) (bootstrapPeers : list string)
    : option AddrInfo :=
  match bootstrapPeers with
  | [] => None
  | p :: rest =>
      if bool_decide (p = "") then join resolves connects rest
      else match ResolveAndParseMultiAddrs resolves [p] with
           | Some (info :: _) => if connects info then Some info else join resolves connects rest
           | _ => join resolves connects rest
           end
  end.

(** The bootstrap peer, or [Err] when the node stops. *)
Definition setupHandlers (resolves : Multiaddr → option (list Multiaddr)) (connects : AddrInfo → bool)
    (bootstrapPeers : list string) : result unit (option AddrInfo) :=
  match join resolves connects bootstrapPeers with
  | Some info => Ok (Some info)
  | None => if existsb (λ p, negb (bool_decide (p = ""))) bootstrapPeers then Err tt else Ok None
  end.

(** ** network.go: handleNodeInfoStream *)

(** [strings.Index]. *)
Fixpoint prefix_of (p s : string) : bool :=
  match p, s with
  | EmptyString, _ => true
  | String a p', String b s' => bool_decide (a = b) && prefix_of p' s'
  | _, _ => false
  end.
Fixpoint str_Index (s sub : string) : option nat :=
  if prefix_of sub s then Some 0%nat
  else match s with EmptyString => None | String _ s' => S <$> str_Index s' sub end.

Definition circuit : string := "/p2p-circuit/p2p/".

(** The first relay among the addresses. *)
Fixpoint relay_hop (addrs : list Multiaddr) : option AddrInfo :=
  match addrs with
  | [] => None
  | maddr :: rest =>
      let addrStr := maddr_String maddr in
      match str_Index addrStr circuit with
      | Some (S i) =>
          match NewMultiaddr (String.substring 0 (S i) addrStr) ≫= AddrInfoFromP2pAddr with
          | Some relayInfo => Some relayInfo
          | None => relay_hop rest
          end
      | _ => relay_hop rest
      end
  end.

(** The addresses of a message: an element that is not a string panics, one that does not
    parse is left out. *)
Fixpoint info_addrs (l : list (option string)) : option (list Multiaddr) :=
  match l with
  | [] => Some []
  | Some a :: rest =>
      addrs ← info_addrs rest;
      Some (match NewMultiaddr a with Some m => m :: addrs | None => addrs end)
  | None :: _ => None
  end.

(** The buffer has 2048 bytes. *)
Definition read_buffer (content : string) : string := String.substring 0 2048 content.

(** What the node does with an introduction: the relay it reserves at, and the peer it
    connects to.  The assertions of types panic. *)
Definition handleNodeInfoStream (content : string) : option (option AddrInfo * option AddrInfo) :=
  match json_to_map (read_buffer content) with
  | None => Some (None, None)
  | Some msg =>
      match msg !! "new_peer_id" with
      | Some (JStr newPeerIDStr) =>
          match peer_Decode newPeerIDStr with
          | None => Some (None, None)
          | Some newPeerID =>
              match msg !! "addrs" with
              | Some (JArr addrStrs) =>
                  addrs ← info_addrs addrStrs;
                  Some (relay_hop addrs, Some (newPeerID, addrs))
              | _ => None
              end
          end
      | _ => None
      end
  end.

(** ** bootstrap.go: introductions *)

(** [sendPeerInfo] of a host with an identifier and addresses: what is written. *)
Definition sendPeerInfo (hostID : string) (hostAddrs baseAddrs : list Multiaddr) (peerToAnnounce : string)
    (localBootstrapAddr : option Multiaddr) : string :=
  let via a := maddr_String a +:+ "/p2p/" +:+ hostID +:+ circuit +:+ peerToAnnounce in
  let relayAddrs := match localBootstrapAddr with Some a => [via a] | None => via <$> hostAddrs end in
  json_of_info peerToAnnounce (relayAddrs ++ (maddr_String <$> baseAddrs)).

(** [openSteam]. *)
Definition openSteam (hostID : string) (hostAddrs : list Multiaddr) : string := json_of_info hostID (maddr_String <$> hostAddrs).

(** The introductions when a peer has connected: target and message. *)
Definition introduce (hostID : string) (hostAddrs : list Multiaddr) (book : string → list Multiaddr)
    (peerInboundOn : gmap string Multiaddr) (peers : list string) (newPeer : string) : list (string * string) :=
  concat ((λ p, [(p, sendPeerInfo hostID hostAddrs (book newPeer) newPeer (peerInboundOn !! p));
                 (newPeer, sendPeerInfo hostID hostAddrs (book p) p (peerInboundOn !! newPeer))])
          <$> filter (λ p, p ≠ newPeer) peers)
  ++ [(newPeer, openSteam hostID hostAddrs)].

(** ** discovery.go *)

(** One round of [Discovery]: the peers that are connected after the found ones are tried.
    [connects] is the answer of [host.Connect]. *)
Fixpoint discover (self : string) (maxPeers : Z) (connects : AddrInfo → bool) (found : list AddrInfo) (peers : list string)
    : list string :=
  match found with
  | [] => peers
  | p :: rest =>
      if bool_decide (p.1 = self) || bool_decide (p.2 = []) then discover self maxPeers connects rest peers
      else if maxPeers <=? Z.of_nat (length peers) then peers
      else discover self maxPeers connects rest
             (if connects p then (if bool_decide (p.1 ∈ peers) then peers else p.1 :: peers) else peers)
  end.

Definition GetPeersConnected (peers : list string) : Z := Z.of_nat (length peers) - 1.
Definition GetOwnAddress (addrs : list Multiaddr) (id : string) : string :=
  match addrs with [] => "" | a :: _ => maddr_String a +:+ "/p2p/" +:+ id end.
End Bootstrap.

(** ** bootstrap.go: connections *)

Definition MaxPeers : Z := 50.

(** The connections that are open and counted in, those that were closed at once and whose
    [DisconnectedF] is still to come, and the counter. *)
Record Host := mkHost { accepted : Z; closing : Z; ConnCount : Z }.

(** [ConnectedF] and [DisconnectedF]; the counter is an [int32]. *)
Definition int32_add (a b : Z) : Z := wrap 32 (a + b + 2 ^ 31) - 2 ^ 31.
Definition ConnectedF (h : Host) : Host :=
  let current := int32_add (ConnCount h) 1 in
  if MaxPeers <? current then mkHost (accepted h) (closing h + 1) (int32_add current (-1))
  else mkHost (accepted h + 1) (closing h) current.
Definition DisconnectedF (refused : bool) (h : Host) : Host :=
  if refused then mkHost (accepted h) (closing h - 1) (int32_add (ConnCount h) (-1))
  else mkHost (accepted h - 1) (closing h) (int32_add (ConnCount h) (-1)).

Inductive conn_step : relation Host :=
| conn_connect h : conn_step h (ConnectedF h)
| conn_leave h : 0 < accepted h → conn_step h (DisconnectedF false h)
| conn_refused h : 0 < closing h → conn_step h (DisconnectedF true h).
Definition host0 : Host := mkHost 0 0 0.

(** ** Introductions *)

Section Introductions.
Context `{L : Libp2p}.

Lemma info_addrs_panics l : info_addrs l = None ↔ None ∈ l.
Proof.
  induction l as [|[a|] l IH]; cbn [info_addrs].
  - split; [done|]. by intros ?%elem_of_nil.
  - destruct (info_addrs l) as [addrs|]; cbn [mbind option_bind].
    + split; [done|]. intros [?|H%IH]%elem_of_cons; done.
    + split; [|done]. intros _. right. by apply IH.
  - split; [|done]. intros _. left.
Qed.

(** [C27] The introductions that stop a node, whoever sends them: a JSON object without a
    peer identifier that is a string, or with a valid identifier and without an array of
    addresses, or with an address that is no string.  Other bytes are ignored or lead to a
    connection. *)
Theorem node_info_panics (content : string) : handleNodeInfoStream content = None ↔
  ∃ msg, json_to_map (read_buffer content) = Some msg ∧
    ((∀ id, msg !! "new_peer_id" ≠ Some (JStr id)) ∨
     ∃ id p, msg !! "new_peer_id" = Some (JStr id) ∧ peer_Decode id = Some p ∧
       ∀ l, msg !! "addrs" = Some (JArr l) → None ∈ l).
Proof.
  unfold handleNodeInfoStream. destruct (json_to_map (read_buffer content)) as [msg|]; [|split; [done|]; by intros (? & ? & _)].
  transitivity ((∀ id, msg !! "new_peer_id" ≠ Some (JStr id)) ∨
     ∃ id p, msg !! "new_peer_id" = Some (JStr id) ∧ peer_Decode id = Some p ∧ ∀ l, msg !! "addrs" = Some (JArr l) → None ∈ l).
  2: { split; [by exists msg|]. by intros (? & [= <-] & ?). }
  destruct (msg !! "new_peer_id") as [[|id|l|]|] eqn:E1; try by (split; [left|done]).
  destruct (peer_Decode id) as [p|] eqn:E2.
  2: { split; [done|]. intros [H|(? & ? & [= <-] & ? & _)]; [by destruct (H id)|congruence]. }
  transitivity (∀ l, msg !! "addrs" = Some (JArr l) → None ∈ l).
  - destruct (msg !! "addrs") as [[|s|l|]|]; try done.
    transitivity (info_addrs l = None); [by destruct (info_addrs l)|]. rewrite info_addrs_panics.
    split; [by intros ? ? [= <-]|]. intros H. by apply H.
  - split; [intros H; right; by exists id, p|]. intros [H|(? & ? & [= <-] & ? & H)]; [by destruct (H id)|done].
Qed.
End Introductions.

Section RoundTrip.
Context `{L : Libp2p, LO : !Libp2pOk L}.

Lemma info_addrs_strings (l : list Multiaddr) : info_addrs (Some <$> (maddr_String <$> l)) = Some l.
Proof.
  induction l as [|a l IH]; [done|]. rewrite !fmap_cons. cbn [info_addrs]. rewrite IH. cbn [mbind option_bind].
  by rewrite NewMultiaddr_String.
Qed.

(** [C26] An introduction is understood.  A node that is told of a peer, over the bootstrap's
    address [a] that the node itself has dialled, reserves at the bootstrap and connects to
    the peer by way of it, or at the peer's own addresses, if the message fits into the
    buffer, the texts of the relayed address and of the bootstrap's are addresses, and the
    bootstrap's is not itself a relayed one.  If the bootstrap has no address at all for the
    peer, the same message stops the node. *)
Theorem introduction_understood (hostID peer : string) (a hop relayed : Multiaddr) (hostAddrs base : list Multiaddr) :
  let hopStr := maddr_String a +:+ "/p2p/" +:+ hostID in
  let msg := sendPeerInfo hostID hostAddrs base peer (Some a) in
  read_buffer msg = msg → peer_Decode peer = Some peer →
  maddr_String relayed = hopStr +:+ circuit +:+ peer → maddr_String hop = hopStr →
  str_Index (maddr_String relayed) circuit = Some (String.length hopStr) →
  AddrInfoFromP2pAddr hop = Some (hostID, [a]) →
  handleNodeInfoStream msg = Some (Some (hostID, [a]), Some (peer, relayed :: base)) ∧
  (read_buffer (sendPeerInfo hostID [] [] peer None) = sendPeerInfo hostID [] [] peer None →
   handleNodeInfoStream (sendPeerInfo hostID [] [] peer None) = None).
Proof.
  intros hopStr msg Hb Hp Hr Hh Hi Ha. unfold handleNodeInfoStream. rewrite Hb.
  assert (String.length hopStr ≠ 0%nat) as Hn0.
  { unfold hopStr. clear. destruct (maddr_String a); [done|]. by rewrite app_cons_string. }
  assert (substring_hop : String.substring 0 (String.length hopStr) (maddr_String relayed) = hopStr).
  { rewrite Hr. clear. induction hopStr as [|c h IH]; [by destruct (circuit +:+ peer)|]. rewrite app_cons_string. cbn. by rewrite IH. }
  split.
  - unfold msg, sendPeerInfo. rewrite json_info_rt. cbn [app]. rewrite bool_decide_false by done.
    rewrite lookup_insert_eq, Hp, lookup_insert_ne, lookup_singleton_eq by done.
    assert (maddr_String a +:+ "/p2p/" +:+ hostID +:+ circuit +:+ peer = maddr_String relayed) as Hv.
    { rewrite Hr. unfold hopStr. by rewrite !app_assoc_string. }
    rewrite Hv. change (maddr_String relayed :: (maddr_String <$> base)) with (maddr_String <$> relayed :: base).
    rewrite info_addrs_strings. cbn [mbind option_bind relay_hop]. rewrite Hi.
    destruct (String.length hopStr) as [|n]; [done|]. rewrite substring_hop, <- Hh, NewMultiaddr_String. cbn [mbind option_bind].
    by rewrite Ha.
  - intros Hb2. rewrite Hb2. unfold sendPeerInfo. rewrite json_info_rt. cbn [app fmap list_fmap]. rewrite bool_decide_true by done.
    by rewrite lookup_insert_eq, Hp, lookup_insert_ne, lookup_singleton_eq.
Qed.
End RoundTrip.

(** ** Joining *)

Section Joining.
Context `{L : Libp2p}.
Context (resolves : Multiaddr → option (list Multiaddr)) (connects : AddrInfo → bool).

(** The bootstrap peer that an address leads to. *)
Definition reached (p : string) (info : AddrInfo) : Prop :=
  p ≠ "" ∧ connects info = true ∧ ∃ rest, ResolveAndParseMultiAddrs resolves [p] = Some (info :: rest).

Lemma first_peer_cases p rest :
  (∃ info, reached p info ∧ join resolves connects (p :: rest) = Some info) ∨
  ((∀ info, ¬ reached p info) ∧ join resolves connects (p :: rest) = join resolves connects rest).
Proof.
  cbn [join]. unfold reached. case_bool_decide as Hp.
  { right. split; [|done]. intros info (H & _). done. }
  destruct (ResolveAndParseMultiAddrs resolves [p]) as [[|info r]|] eqn:E.
  - right. split; [|done]. by intros info (_ & _ & ? & ?).
  - destruct (connects info) eqn:Ec; [left; exists info; by eauto|right]. split; [|done].
    intros i (_ & Hc & r' & [= <- _]). congruence.
  - right. split; [|done]. by intros info (_ & _ & ? & ?).
Qed.

Lemma join_first peers :
  match join resolves connects peers with
  | Some info => ∃ before p after, peers = before ++ p :: after ∧ reached p info ∧ ∀ q i, q ∈ before → ¬ reached q i
  | None => ∀ q i, q ∈ peers → ¬ reached q i
  end.
Proof.
  induction peers as [|p peers IH]; [by intros q i ?%elem_of_nil|].
  destruct (first_peer_cases p peers) as [(info & Hr & ->)|[Hn ->]].
  { exists [], p, peers. split_and!; [done..|]. by intros q i ?%elem_of_nil. }
  destruct (join resolves connects peers) as [info|].
  - destruct IH as (before & p' & after & -> & Hr & Hb). exists (p :: before), p', after. split_and!; [done..|].
    intros q i [->|Hq]%elem_of_cons; [apply Hn|by apply Hb].
  - intros q i [->|Hq]%elem_of_cons; [apply Hn|by apply IH].
Qed.

(** A node joins at the first bootstrap peer it can reach, and starts without one only
    if it was given none: what [setupHandlers] returns is the first address of the first
    listed peer that resolves to an address it can connect to; it fails exactly if an address
    was listed and none of them is reached. *)
Theorem joins_first_reachable (peers : list string) :
  match setupHandlers resolves connects peers with
  | Ok (Some info) => ∃ before p after, peers = before ++ p :: after ∧ reached p info ∧
      ∀ q i, q ∈ before → ¬ reached q i
  | Ok None => ∀ q, q ∈ peers → q = ""
  | Err _ => (∃ q, q ∈ peers ∧ q ≠ "") ∧ ∀ q i, q ∈ peers → ¬ reached q i
  end.
Proof.
  unfold setupHandlers. pose proof (join_first peers) as Hj. destruct (join resolves connects peers) as [info|]; [done|].
  destruct (existsb _ peers) eqn:E.
  - split; [|done]. apply existsb_exists in E as (q & Hq%list_elem_of_In & Hne). exists q. split; [done|].
    by apply negb_true_iff, bool_decide_eq_false in Hne.
  - intros q Hq. destruct (decide (q = "")) as [|Hne]; [done|]. exfalso. apply not_true_iff_false in E. apply E.
    apply existsb_exists. exists q. split; [by apply list_elem_of_In|]. by rewrite bool_decide_false.
Qed.

(** A round of discovery does not go over the limit. *)
Lemma discover_bound self maxPeers found peers :
  Z.of_nat (length (discover self maxPeers connects found peers)) ≤ Z.max maxPeers (Z.of_nat (length peers)).
Proof.
  revert peers. induction found as [|p found IH]; intros peers; cbn [discover]; [lia|].
  destruct (_ || _); [apply IH|]. destruct (Z.leb_spec maxPeers (Z.of_nat (length peers))); [lia|].
  set (x := if connects p then _ else _). specialize (IH x).
  assert (Z.of_nat (length x) ≤ Z.of_nat (length peers) + 1) by (unfold x; repeat case_match; simpl; lia). lia.
Qed.
End Joining.

(** ** The number of connections *)

(** Without refusals that are over, the counter is the number of connections and the limit
    holds. *)
Inductive quiet_step : relation Host :=
| quiet_connect h : quiet_step h (ConnectedF h)
| quiet_leave h : 0 < accepted h → quiet_step h (DisconnectedF false h).

Lemma int32_small a : - 2 ^ 31 ≤ a < 2 ^ 31 → wrap 32 (a + 2 ^ 31) - 2 ^ 31 = a.
Proof. intros H. rewrite wrap_small by (unfold in_width; lia). lia. Qed.

Lemma limit_until_refusal h : rtc quiet_step host0 h → ConnCount h = accepted h ∧ 0 ≤ accepted h ≤ MaxPeers.
Proof.
  intros H. assert (∀ h h', rtc quiet_step h h' → ConnCount h = accepted h ∧ 0 ≤ accepted h ≤ MaxPeers →
    ConnCount h' = accepted h' ∧ 0 ≤ accepted h' ≤ MaxPeers) as Hi; [|by apply (Hi host0)]. clear.
  induction 1 as [|h1 h2 h3 Hst _ IH]; [done|]. intros [Hc Hr]. apply IH. clear IH. unfold MaxPeers in *.
  destruct Hst as [h|h Hp]; [unfold ConnectedF|unfold DisconnectedF]; unfold int32_add, MaxPeers in *.
  - rewrite (int32_small (ConnCount h + 1)) by lia. destruct (Z.ltb_spec 50 (ConnCount h + 1)); simpl; [|lia].
    rewrite (int32_small (ConnCount h + 1 + -1)) by lia. lia.
  - simpl. rewrite (int32_small (ConnCount h + -1)) by lia. lia.
Qed.

(** The connection limit does not hold: each refused connection is taken off the counter
    twice, so that the next one is let in.  Every number of open connections is reached. *)
Theorem connection_limit_drifts (n : nat) :
  ∃ h, rtc conn_step host0 h ∧ accepted h = Z.of_nat n ∧ ConnCount h ≤ MaxPeers.
Proof.
  assert (∃ h, rtc conn_step host0 h ∧ accepted h = Z.of_nat n ∧ closing h = 0 ∧ ConnCount h = Z.min (Z.of_nat n) 50) as
    (h & H1 & H2 & _ & H3); [|exists h; unfold MaxPeers; split_and!; [done..|lia]].
  induction n as [|n (h & Hrun & Ha & Hc & Hn)]; [by exists host0|].
  destruct (decide (Z.of_nat n < 50)) as [Hlt|Hge].
  - exists (ConnectedF h). split; [eapply rtc_r; [done|constructor]|]. unfold ConnectedF, int32_add, MaxPeers.
    rewrite (int32_small (ConnCount h + 1)) by lia. destruct (Z.ltb_spec 50 (ConnCount h + 1)); simpl; lia.
  - set (h1 := ConnectedF h). set (h2 := DisconnectedF true h1). exists (ConnectedF h2).
    assert (h1 = mkHost (accepted h) 1 50) as E1.
    { unfold h1, ConnectedF, int32_add, MaxPeers. rewrite Hn, Hc, Z.min_r by lia. reflexivity. }
    assert (h2 = mkHost (accepted h) 0 49) as E2 by (unfold h2; by rewrite E1).
    split; [|assert (ConnectedF h2 = mkHost (accepted h + 1) 0 50) as -> by (by rewrite E2); simpl; split_and!; lia].
    eapply rtc_r; [eapply rtc_r; [eapply rtc_r; [done|apply (conn_connect h)]|]|apply (conn_connect h2)].
    apply (conn_refused h1). by rewrite E1.
Qed.

(** ** Examples *)

Module BootstrapExamples.

(** A codec of lists of texts: characters are escaped, and a dot ends a text. *)
Fixpoint esc (s : string) : string := match s with EmptyString => "." | String c s' => String "x" (String c (esc s')) end.
Fixpoint unescs (cur s : string) : option (list string) :=
  match s with
  | EmptyString => if bool_decide (cur = "") then Some [] else None
  | String "." rest => cons cur <$> unescs "" rest
  | String "x" (String c rest) => unescs (cur +:+ String c "") rest
  | _ => None
  end.
Definition escs (l : list string) : string := foldr (λ a acc, esc a +:+ acc) "" l.

Lemma unescs_esc cur a rest : unescs cur (esc a +:+ rest) = cons (cur +:+ a) <$> unescs "" rest.
Proof.
  revert cur. induction a as [|c a IH]; intros cur; [by rewrite append_nil_r|]. cbn [esc]. rewrite !app_cons_string.
  cbn [unescs]. rewrite IH. by rewrite app_assoc_string, app_cons_string.
Qed.

Lemma unescs_escs l : unescs "" (escs l) = Some l.
Proof. induction l as [|a l IH]; [done|]. cbn [escs foldr]. rewrite unescs_esc. fold (escs l). by rewrite IH. Qed.

Definition info_map (id : string) (addrs : list string) : gmap string json :=
  <["new_peer_id" := JStr id]> {["addrs" := if bool_decide (addrs = []) then JNull else JArr (Some <$> addrs)]}.

Definition toy_libp2p : Libp2p := {|
  Multiaddr := string;
  NewMultiaddr := Some;
  maddr_String m := m;
  peer_Decode := Some;
  AddrInfoFromP2pAddr m := if bool_decide (m = "/ip4/b/p2p/boot") then Some ("boot", ["/ip4/b"]) else None;
  madns_Matches _ := false;
  json_of_info id addrs := escs (id :: addrs);
  json_to_map s := match unescs "" s with Some (id :: addrs) => Some (info_map id addrs) | _ => None end;
|}.
#[local] Existing Instance toy_libp2p.
#[local] Instance toy_libp2p_ok : Libp2pOk toy_libp2p.
Proof.
  split; [done|]. intros id addrs. cbn [json_to_map json_of_info toy_libp2p]. by rewrite unescs_escs.
Qed.

Lemma introduction_understood_witness :
  handleNodeInfoStream (sendPeerInfo "boot" [] ["/ip4/p"] "p" (Some "/ip4/b")) =
    Some (Some ("boot", ["/ip4/b"]), Some ("p", ["/ip4/b/p2p/boot/p2p-circuit/p2p/p"; "/ip4/p"])) ∧
  handleNodeInfoStream (sendPeerInfo "boot" [] [] "p" None) = None.
Proof.
  destruct (introduction_understood (L := toy_libp2p) "boot" "p" "/ip4/b" "/ip4/b/p2p/boot" "/ip4/b/p2p/boot/p2p-circuit/p2p/p" [] ["/ip4/p"])
    as [H1 H2]; try (vm_compute; reflexivity).
  split; [exact H1|]. apply H2. vm_compute. reflexivity.
Defined.
End BootstrapExamples.
