(* ===== verification/Limits.v ===== *)
(** * Rate limits and abuse detection (the packages security/ratelimit and security/abuse)

    Times are nanoseconds; the clock is an argument, and one operation reads one
    time.  The token bucket of golang.org/x/time/rate is [LimiterImpl].  Locks
    make every operation one step. *)

From stdpp Require Import base list gmap strings.
From Stdlib Require Import ZArith Lia Sorting.Sorted.
From S2P Require Import Prelude.

Open Scope string_scope.
Open Scope list_scope.
Open Scope Z_scope.

Definition second : Z := 10 ^ 9.
Definition minute : Z := 60 * second.
Definition hour : Z := 60 * minute.
Definition day : Z := 24 * hour.

(** ** rate_tracker.go *)

Record RateData := mkRateData {
  minuteCount : Z; hourCount : Z; dayCount : Z;
  minuteStart : Z; hourStart : Z; dayStart : Z; lastClean : Z;
}.

Record RateConfig := mkRateConfig {
  CleanupInterval : Z; MinuteWindow : Z; HourWindow : Z; DayWindow : Z;
}.

Definition DefaultRateConfig : RateConfig := mkRateConfig (5 * minute) minute hour day.

Record RateTracker := mkRateTracker {
  ipRates : gmap string RateData; walletRates : gmap string RateData; rtConfig : RateConfig;
}.

Definition NewRateTracker (config : option RateConfig) : RateTracker :=
  mkRateTracker ∅ ∅ (default DefaultRateConfig config).

(** One window: its count and its start after a request. *)
Definition roll (window now count start : Z) : Z * Z :=
  if window <=? now - start then (1, now) else (count + 1, start).

Definition track_data (now : Z) (d : RateData) : RateData :=
  let '(mc, ms) := roll minute now (minuteCount d) (minuteStart d) in
  let '(hc, hs) := roll hour now (hourCount d) (hourStart d) in
  let '(dc, ds) := roll day now (dayCount d) (dayStart d) in
  mkRateData mc hc dc ms hs ds (lastClean d).

Definition trackRequest (now : Z) (key : string) (rates : gmap string RateData) : gmap string RateData :=
  let data := default (mkRateData 0 0 0 now now now now) (rates !! key) in
  <[key := track_data now data]> rates.

Definition rt_TrackIPRequest (now : Z) (ip : string) (rt : RateTracker) : RateTracker :=
  mkRateTracker (trackRequest now ip (ipRates rt)) (walletRates rt) (rtConfig rt).
Definition rt_TrackWalletRequest (now : Z) (wallet : string) (rt : RateTracker) : RateTracker :=
  mkRateTracker (ipRates rt) (trackRequest now wallet (walletRates rt)) (rtConfig rt).

Definition getRate (data : RateData) (window : Z) : Z :=
  if window <=? minute then minuteCount data
  else if window <=? hour then hourCount data
  else if window <=? day then dayCount data
  else 0.

Definition rate_of (rates : gmap string RateData) (key : string) (window : Z) : Z :=
  match rates !! key with None => 0 | Some data => getRate data window end.
Definition GetIPRate (rt : RateTracker) (ip : string) (window : Z) : Z := rate_of (ipRates rt) ip window.
Definition GetWalletRate (rt : RateTracker) (wallet : string) (window : Z) : Z := rate_of (walletRates rt) wallet window.
Definition GetAllIPs (rt : RateTracker) : gmap string RateData := ipRates rt.
Definition GetAllWallets (rt : RateTracker) : gmap string RateData := walletRates rt.

(** What is left of an entry; [None] is its deletion. *)
Definition cleanupData (now cutoff : Z) (d : RateData) : option RateData :=
  if (minuteCount d =? 0) && (hourCount d =? 0) && (dayCount d =? 0)
  then if lastClean d <? cutoff then None else Some d
  else Some (mkRateData (minuteCount d) (hourCount d) (dayCount d) (minuteStart d) (hourStart d) (dayStart d) now).

Definition rt_cleanup (now : Z) (rt : RateTracker) : RateTracker :=
  let cutoff := now - DayWindow (rtConfig rt) in
  mkRateTracker (omap (cleanupData now cutoff) (ipRates rt)) (omap (cleanupData now cutoff) (walletRates rt))
    (rtConfig rt).

(** ** abuse_detector.go *)

Record AbuseConfig := mkAbuseConfig {
  MaxTxPerMinute : Z; MaxTxPerHour : Z; MaxTxPerDay : Z; AutoBlacklistTxPerMinute : Z;
}.

Definition DefaultAbuseConfig : AbuseConfig := mkAbuseConfig 6000 360000 8640000 12000.

Inductive EntityType := IP | WALLET.
#[export] Instance EntityType_eq_dec : EqDecision EntityType.
Proof. solve_decision. Defined.

(** What the reason says. *)
Inductive Reason := AutoBlacklist (rate limit : Z) | LongTerm (minuteRate hourRate dayRate : Z).

Record AbuseFlag := mkFlag {
  Entity : string; entityType : EntityType; fReason : Reason; FirstSeen : Z; LastSeen : Z; Count : Z;
  IsBlacklisted : bool;
}.

Record AbuseMetrics := mkMetrics { TotalFlags : Z; AutoBlacklists : Z }.

Record AbuseDetector := mkDetector {
  rateTracker : RateTracker; adConfig : AbuseConfig; flaggedIPs : gmap string AbuseFlag;
  flaggedWallets : gmap string AbuseFlag; metrics : AbuseMetrics;
}.

Definition NewAbuseDetector (config : option AbuseConfig) : AbuseDetector :=
  mkDetector (NewRateTracker None) (default DefaultAbuseConfig config) ∅ ∅ (mkMetrics 0 0).

(** The flags of a type, and the detector with them replaced. *)
Definition flags_of (ty : EntityType) (ad : AbuseDetector) : gmap string AbuseFlag :=
  match ty with IP => flaggedIPs ad | WALLET => flaggedWallets ad end.
Definition with_flags (ty : EntityType) (f : gmap string AbuseFlag) (m : AbuseMetrics) (ad : AbuseDetector)
    : AbuseDetector :=
  match ty with
  | IP => mkDetector (rateTracker ad) (adConfig ad) f (flaggedWallets ad) m
  | WALLET => mkDetector (rateTracker ad) (adConfig ad) (flaggedIPs ad) f m
  end.
Definition rates_of (ty : EntityType) (ad : AbuseDetector) : gmap string RateData :=
  match ty with IP => GetAllIPs (rateTracker ad) | WALLET => GetAllWallets (rateTracker ad) end.

Definition flagAbuse (now : Z) (entity : string) (ty : EntityType) (reason : Reason) (ad : AbuseDetector)
    : AbuseDetector :=
  match flags_of ty ad !! entity with
  | Some f =>
      with_flags ty (<[entity := mkFlag (Entity f) (entityType f) reason (FirstSeen f) now (Count f + 1)
                                   (IsBlacklisted f)]> (flags_of ty ad)) (metrics ad) ad
  | None =>
      with_flags ty (<[entity := mkFlag entity ty reason now now 1 false]> (flags_of ty ad))
        (mkMetrics (TotalFlags (metrics ad) + 1) (AutoBlacklists (metrics ad))) ad
  end.

Definition blacklisted (ty : EntityType) (entity : string) (ad : AbuseDetector) : bool :=
  match flags_of ty ad !! entity with Some f => IsBlacklisted f | None => false end.
Definition IsIPBlacklisted (ad : AbuseDetector) (ip : string) : bool := blacklisted IP ip ad.
Definition IsWalletBlacklisted (ad : AbuseDetector) (wallet : string) : bool := blacklisted WALLET wallet ad.

(** [autoBlacklistIP] and [autoBlacklistWallet]. *)
Definition autoBlacklist (now : Z) (ty : EntityType) (entity : string) (reason : Reason) (ad : AbuseDetector)
    : AbuseDetector :=
  match flags_of ty ad !! entity with
  | None =>
      with_flags ty (<[entity := mkFlag entity ty reason now now 1 true]> (flags_of ty ad))
        (mkMetrics (TotalFlags (metrics ad) + 1) (AutoBlacklists (metrics ad) + 1)) ad
  | Some f =>
      with_flags ty (<[entity := mkFlag (Entity f) (entityType f) reason (FirstSeen f) now (Count f) true]>
                      (flags_of ty ad))
        (mkMetrics (TotalFlags (metrics ad)) (AutoBlacklists (metrics ad) + 1)) ad
  end.

(** The check of one IP or wallet. *)
Definition check_entity (now : Z) (ty : EntityType) (entity : string) (ad : AbuseDetector) : AbuseDetector :=
  if blacklisted ty entity ad then ad
  else
    let minuteRate := rate_of (rates_of ty ad) entity minute in
    let hourRate := rate_of (rates_of ty ad) entity hour in
    let dayRate := rate_of (rates_of ty ad) entity day in
    if AutoBlacklistTxPerMinute (adConfig ad) <=? minuteRate
    then autoBlacklist now ty entity (AutoBlacklist minuteRate (AutoBlacklistTxPerMinute (adConfig ad))) ad
    else if (MaxTxPerHour (adConfig ad) <=? hourRate) || (MaxTxPerDay (adConfig ad) <=? dayRate)
    then flagAbuse now entity ty (LongTerm minuteRate hourRate dayRate) ad
    else ad.

Definition keep_flag (cutoff : Z) (f : AbuseFlag) : bool := negb ((LastSeen f <? cutoff) && negb (IsBlacklisted f)).

Definition cleanupOldFlags (cutoff : Z) (ad : AbuseDetector) : AbuseDetector :=
  let keep m := filter (λ p : string * AbuseFlag, keep_flag cutoff p.2 = true) m in
  mkDetector (rateTracker ad) (adConfig ad) (keep (flaggedIPs ad)) (keep (flaggedWallets ad)) (metrics ad).

Definition check_all (now : Z) (ty : EntityType) (ad : AbuseDetector) : AbuseDetector :=
  foldl (λ ad entity, check_entity now ty entity ad) ad (map_to_list (rates_of ty ad)).*1.

Definition performBackgroundChecks (now : Z) (ad : AbuseDetector) : AbuseDetector :=
  cleanupOldFlags (now - day) (check_all now WALLET (check_all now IP ad)).

Definition with_tracker (rt : RateTracker) (ad : AbuseDetector) : AbuseDetector :=
  mkDetector rt (adConfig ad) (flaggedIPs ad) (flaggedWallets ad) (metrics ad).
Definition TrackIPRequest (now : Z) (ip : string) (ad : AbuseDetector) : AbuseDetector :=
  with_tracker (rt_TrackIPRequest now ip (rateTracker ad)) ad.
Definition TrackWalletRequest (now : Z) (wallet : string) (ad : AbuseDetector) : AbuseDetector :=
  with_tracker (rt_TrackWalletRequest now wallet (rateTracker ad)) ad.

(** ** ratelimit.go *)

(** [rate.NewLimiter] with the interval of [rate.Every] and the burst, and
    [Allow] at a time. *)
Class LimiterImpl := {
  Limiter : Type;
  rate_NewLimiter : Z → Z → Limiter;
  rate_Allow : Limiter → Z → bool * Limiter;
}.

Record RateLimiterConfig := mkLimiterConfig { MaxRequests : Z; WindowSize : Z; rlCleanupInterval : Z }.
Definition DefaultConfig : RateLimiterConfig := mkLimiterConfig 100 second (5 * minute).

Section RateLimiter.
Context `{LI : LimiterImpl}.

Record RateLimiterData := mkLimiterData { limiter : Limiter; lastSeen : Z }.
Record RateLimiter := mkRateLimiter { rlConfig : RateLimiterConfig; requests : gmap string RateLimiterData }.

Definition NewRateLimiter (config : option RateLimiterConfig) : RateLimiter :=
  mkRateLimiter (default DefaultConfig config) ∅.

Definition new_limiter (c : RateLimiterConfig) : Limiter :=
  rate_NewLimiter (Z.quot (WindowSize c) (MaxRequests c)) (MaxRequests c).

(** [None] is the panic of the division by zero. *)
Definition IsAllowed (now : Z) (key : string) (rl : RateLimiter) : option (bool * RateLimiter) :=
  data ← match requests rl !! key with
         | Some d => Some (limiter d)
         | None => if MaxRequests (rlConfig rl) =? 0 then None else Some (new_limiter (rlConfig rl))
         end;
  let '(ok, l) := rate_Allow data now in
  Some (ok, mkRateLimiter (rlConfig rl) (<[key := mkLimiterData l now]> (requests rl))).

Definition rl_cleanup (now : Z) (rl : RateLimiter) : RateLimiter :=
  let cutoff := now - WindowSize (rlConfig rl) * 3 in
  mkRateLimiter (rlConfig rl)
    (filter (λ p : string * RateLimiterData, negb (lastSeen p.2 <? cutoff) = true) (requests rl)).

Record GlobalRateLimiter := mkGlobal { ipLimiter : RateLimiter; abuseDetector : AbuseDetector }.

(** The alert that is logged, the answer and the limiter afterwards. *)
Definition IsIPAllowed (now : Z) (ip : string) (g : GlobalRateLimiter) : option (bool * bool * GlobalRateLimiter) :=
  let alert := IsIPBlacklisted (abuseDetector g) ip in
  '(ok, l) ← IsAllowed now ip (ipLimiter g);
  Some (alert, ok, mkGlobal l (abuseDetector g)).

End RateLimiter.

(** ** The windows of the tracker *)

(** The count and the start of one window after requests at the given times. *)
Definition window_after (window : Z) (t0 : Z) (ts : list Z) : Z * Z :=
  foldl (λ p t, roll window t p.1 p.2) (0, t0) ts.

(** The counts of an entry are those of its three windows. *)
Lemma track_windows t0 ts :
  let d := foldl (λ d t, track_data t d) (mkRateData 0 0 0 t0 t0 t0 t0) ts in
  (minuteCount d, minuteStart d) = window_after minute t0 ts ∧
  (hourCount d, hourStart d) = window_after hour t0 ts ∧ (dayCount d, dayStart d) = window_after day t0 ts.
Proof.
  induction ts as [|t ts IH] using rev_ind; [done|]. unfold window_after in *. rewrite !foldl_snoc.
  cbv zeta in IH |- *. destruct IH as (E1 & E2 & E3). rewrite <- E1, <- E2, <- E3. unfold track_data. simpl.
  destruct (roll minute _ _ _), (roll hour _ _ _), (roll day _ _ _). done.
Qed.

(** The requests at times in the half-open interval of a window's length. *)
Definition within (window a : Z) (ts : list Z) : list Z := filter (λ t, a ≤ t < a + window) ts.

(** The requests of the current window, those of the one before, and the older
    ones, which are at least a window before the start of the current one. *)
Record windowed (window limit : Z) (ts : list Z) (count start : Z) : Prop := {
  w_split : ∃ old prev cur, ts = old ++ prev ++ cur ∧ Forall (λ t, t ≤ start - window) old ∧
              Z.of_nat (length prev) < limit ∧ Z.of_nat (length cur) = count ∧ count < limit ∧
              Forall (λ t, t ≤ start) prev;
}.

Lemma windowed_bound window limit ts count start a : windowed window limit ts count start →
  start - window < a → Z.of_nat (length (within window a ts)) ≤ 2 * (limit - 1).
Proof.
  intros [(old & prev & cur & -> & Ho & Hp & Hc & Hl & _)] Ha. unfold within.
  rewrite !filter_app, !length_app.
  rewrite (filter_none (λ t, a ≤ t < a + window) old).
  - pose proof (length_filter (λ t, a ≤ t < a + window) prev).
    pose proof (length_filter (λ t, a ≤ t < a + window) cur). simpl. lia.
  - intros t Ht. rewrite Forall_forall in Ho. specialize (Ho t Ht). lia.
Qed.

(** Requests in the order of time keep the split. *)
Lemma windowed_step window limit ts count start t : 0 < window → 1 < limit →
  windowed window limit ts count start → start ≤ t → Forall (λ x, x ≤ t) ts →
  (roll window t count start).1 < limit →
  windowed window limit (ts ++ [t]) (roll window t count start).1 (roll window t count start).2.
Proof.
  intros Hw Hl [(old & prev & cur & -> & Ho & Hp & Hc & Hlt & Hpr)] Hs Ht. unfold roll.
  destruct (Z.leb_spec window (t - start)) as [Hge|Hlt']; simpl; intros Hr; constructor.
  - exists (old ++ prev), cur, [t]. rewrite <- !app_assoc. apply Forall_app in Ht as [_ [_ Ht]%Forall_app].
    split_and!; try done; [|lia]. apply Forall_app.
    split; [eapply Forall_impl; [exact Ho|]|eapply Forall_impl; [exact Hpr|]]; simpl; lia.
  - exists old, prev, (cur ++ [t]). rewrite <- !app_assoc. split_and!; try done. rewrite length_app. simpl. lia.
Qed.

Lemma window_after_start window t0 ts : Forall (λ x, t0 ≤ x) ts →
  ∀ t, Forall (λ x, x ≤ t) ts → t0 ≤ t → (window_after window t0 ts).2 ≤ t.
Proof.
  intros H0 t Ht Ht0. unfold window_after. induction ts as [|x ts IH] using rev_ind; [done|].
  apply Forall_app in H0 as [H0 _]. apply Forall_app in Ht as [Ht [Hx _]%Forall_cons]. rewrite foldl_snoc.
  unfold roll at 1. destruct (_ <=? _); simpl; [done|by apply IH].
Qed.

(** Times in order, none before the first. *)
Definition in_order (t0 : Z) (ts : list Z) : Prop :=
  Forall (λ x, t0 ≤ x) ts ∧ ∀ ts1 t ts2, ts = ts1 ++ t :: ts2 → Forall (λ x, x ≤ t) ts1.

Lemma in_order_snoc t0 ts t : in_order t0 (ts ++ [t]) → in_order t0 ts ∧ t0 ≤ t ∧ Forall (λ x, x ≤ t) ts.
Proof.
  intros [H1 H2]. apply Forall_app in H1 as [H1 [Ht _]%Forall_cons]. split_and!; [|done|by apply (H2 ts t [])].
  split; [done|]. intros ts1 x ts2 ->. apply (H2 ts1 x (ts2 ++ [t])). by rewrite <- app_assoc.
Qed.

Lemma window_invariant window limit t0 ts : 0 < window → 1 < limit → in_order t0 ts →
  (∀ ts1 ts2, ts = ts1 ++ ts2 → (window_after window t0 ts1).1 < limit) →
  windowed window limit ts (window_after window t0 ts).1 (window_after window t0 ts).2.
Proof.
  intros Hw Hl. induction ts as [|t ts IH] using rev_ind; intros Ho Hlim.
  { constructor. exists [], [], []. simpl. split_and!; try done; lia. }
  apply in_order_snoc in Ho as (Ho & Ht0 & Ht). pose proof (Hlim (ts ++ [t]) [] (eq_sym (app_nil_r _))) as Hr.
  specialize (IH Ho). unfold window_after in *. rewrite foldl_snoc in *. apply windowed_step; try done.
  - apply IH. intros ts1 ts2 ->. apply (Hlim ts1 (ts2 ++ [t])). by rewrite <- app_assoc.
  - by apply window_after_start; [apply Ho|..].
Qed.

(** What a rate below the limit means: if the count of the fixed windows stays
    below a limit at every request, then no interval of a window's length, wherever
    it starts, has more than twice as many requests as the count can show. *)
Theorem rate_below_limit (t0 : Z) (ts : list Z) (limit a : Z) :
  1 < limit → in_order t0 ts →
  (∀ ts1 ts2, ts = ts1 ++ ts2 →
     minuteCount (foldl (λ d t, track_data t d) (mkRateData 0 0 0 t0 t0 t0 t0) ts1) < limit) →
  Z.of_nat (length (within minute a ts)) ≤ 2 * (limit - 1).
Proof.
  intros Hl. induction ts as [|t ts IH] using rev_ind; intros Ho Hlim; [simpl; lia|].
  destruct (in_order_snoc _ _ _ Ho) as (Ho' & Ht0 & Ht).
  assert (IH' : Z.of_nat (length (within minute a ts)) ≤ 2 * (limit - 1)).
  { apply IH; [done|]. intros ts1 ts2 ->. apply (Hlim ts1 (ts2 ++ [t])). by rewrite <- app_assoc. }
  assert (Hw : windowed minute limit (ts ++ [t]) (window_after minute t0 (ts ++ [t])).1 (window_after minute t0 (ts ++ [t])).2).
  { apply window_invariant; [done|done|done|]. intros ts1 ts2 E. specialize (Hlim ts1 ts2 E).
    destruct (track_windows t0 ts1) as [Em _]. rewrite <- Em. exact Hlim. }
  destruct (decide (a ≤ t < a + minute)) as [Hin|Hout].
  - apply (windowed_bound _ _ _ _ _ a Hw).
    pose proof (window_after_start minute t0 (ts ++ [t]) (proj1 Ho) t) as Hs.
    assert (Hst : (window_after minute t0 (ts ++ [t])).2 ≤ t).
    { apply Hs; [|done]. apply Forall_app. split; [done|]. by constructor. }
    lia.
  - unfold within in *. rewrite filter_app, filter_cons_False, filter_nil, app_nil_r by done. exact IH'.
Qed.

(** ** Tracked entries *)

Inductive rt_step : RateTracker → RateTracker → Prop :=
| rt_ip now ip rt : rt_step rt (rt_TrackIPRequest now ip rt)
| rt_wallet now wallet rt : rt_step rt (rt_TrackWalletRequest now wallet rt)
| rt_clean now rt : rt_step rt (rt_cleanup now rt).

Definition counted (m : gmap string RateData) : Prop := ∀ k d, m !! k = Some d → 0 < minuteCount d.

Lemma roll_positive window now c s : 0 ≤ c → 0 < (roll window now c s).1.
Proof. intros Hc. unfold roll. destruct (_ <=? _); simpl; lia. Qed.

Lemma counted_track now key m : counted m → counted (trackRequest now key m) ∧
  ∀ k, is_Some (m !! k) → is_Some (trackRequest now key m !! k).
Proof.
  intros Hm. unfold trackRequest. split; [|intros k ?; by apply lookup_insert_is_Some'; right].
  intros k d. rewrite lookup_insert_Some. intros [[<- <-]|[_ Hd]]; [|by apply (Hm k)].
  unfold track_data. destruct (m !! key) as [d0|] eqn:E; simpl.
  - pose proof (roll_positive minute now (minuteCount d0) (minuteStart d0)) as Hr.
    specialize (Hm key d0 E). destruct (roll minute _ _ _), (roll hour _ _ _), (roll day _ _ _). simpl in *. lia.
  - pose proof (roll_positive minute now 0 now) as Hr.
    destruct (roll minute _ _ _), (roll hour _ _ _), (roll day _ _ _). simpl in *. lia.
Qed.

Lemma counted_cleanup now cutoff m : counted m → counted (omap (cleanupData now cutoff) m) ∧
  ∀ k, is_Some (m !! k) → is_Some (omap (cleanupData now cutoff) m !! k).
Proof.
  intros Hm.
  assert (Hk : ∀ k d, m !! k = Some d → ∃ d', omap (cleanupData now cutoff) m !! k = Some d' ∧ minuteCount d' = minuteCount d).
  { intros k d E. rewrite lookup_omap, E. simpl. unfold cleanupData. specialize (Hm k d E).
    rewrite (proj2 (Z.eqb_neq (minuteCount d) 0)) by lia. by eexists. }
  split.
  - intros k d' E. rewrite lookup_omap in E. destruct (m !! k) as [d|] eqn:Ed; [|done].
    destruct (Hk k d Ed) as (d2 & E2 & Hc). rewrite lookup_omap, Ed in E2. rewrite E2 in E. injection E as <-.
    rewrite Hc. by apply (Hm k).
  - intros k [d Ed]. destruct (Hk k d Ed) as (d2 & -> & _). by eexists.
Qed.

(** Both maps have counted entries. *)
Definition all_counted (rt : RateTracker) : Prop := counted (ipRates rt) ∧ counted (walletRates rt).

Lemma rt_step_kept a b : all_counted a → rt_step a b → all_counted b ∧
  ∀ k, (is_Some (ipRates a !! k) → is_Some (ipRates b !! k)) ∧
       (is_Some (walletRates a !! k) → is_Some (walletRates b !! k)).
Proof.
  intros [I1 I2] Hs. destruct Hs as [now ip a|now w a|now a].
  - destruct (counted_track now ip _ I1) as [J1 J2]. split; [done|]. intros k. split; [apply J2|done].
  - destruct (counted_track now w _ I2) as [J1 J2]. split; [done|]. intros k. split; [done|apply J2].
  - destruct (counted_cleanup now (now - DayWindow (rtConfig a)) _ I1) as [J1 J2].
    destruct (counted_cleanup now (now - DayWindow (rtConfig a)) _ I2) as [J3 J4].
    split; [done|]. intros k. split; [apply J2|apply J4].
Qed.

(** The cleanup deletes nothing: an entry has counted a request, so that not all
    its counts are zero, and whatever is tracked is kept for ever. *)
Theorem tracked_entries_kept (config : option RateConfig) (rt rt' : RateTracker) (k : string) :
  rtc rt_step (NewRateTracker config) rt → rtc rt_step rt rt' →
  (is_Some (ipRates rt !! k) → is_Some (ipRates rt' !! k)) ∧
  (is_Some (walletRates rt !! k) → is_Some (walletRates rt' !! k)).
Proof.
  intros H0 H1. assert (Hinv : all_counted rt).
  { revert H0. apply (rtc_ind_r all_counted); [by split; intros ? ?|].
    intros a b _ Hs Ha. by apply (rt_step_kept a b). }
  clear H0. induction H1 as [|a b c Hs _ IH]; [done|].
  destruct (rt_step_kept a b Hinv Hs) as [Hb Hk]. destruct (IH Hb) as [K1 K2].
  destruct (Hk k) as [L1 L2]. split; auto.
Qed.

(** ** The blacklist *)

Inductive ad_step : AbuseDetector → AbuseDetector → Prop :=
| ad_ip now ip ad : ad_step ad (TrackIPRequest now ip ad)
| ad_wallet now wallet ad : ad_step ad (TrackWalletRequest now wallet ad)
| ad_clean now ad : ad_step ad (with_tracker (rt_cleanup now (rateTracker ad)) ad)
| ad_check now ad : ad_step ad (performBackgroundChecks now ad).

(** No blacklisted entity is forgotten. *)
Definition keeps_blacklist (ad ad' : AbuseDetector) : Prop :=
  ∀ ty e, blacklisted ty e ad = true → blacklisted ty e ad' = true.

Lemma keeps_blacklist_insert ty e f m ad : (blacklisted ty e ad = true → IsBlacklisted f = true) →
  keeps_blacklist ad (with_flags ty (<[e := f]> (flags_of ty ad)) m ad).
Proof.
  intros Hf ty' e' Hb. unfold blacklisted in *. destruct ty, ty'; simpl in *; try done;
    (destruct (decide (e = e')) as [<-|Hne]; [rewrite lookup_insert_eq; by apply Hf|by rewrite lookup_insert_ne]).
Qed.

Lemma check_keeps now ty e ad : keeps_blacklist ad (check_entity now ty e ad).
Proof.
  unfold check_entity. destruct (blacklisted ty e ad) eqn:Eb; [by intros ? ?|].
  destruct (_ <=? _).
  - unfold autoBlacklist. destruct (flags_of ty ad !! e); apply keeps_blacklist_insert; done.
  - destruct (_ || _); [|by intros ? ?]. unfold flagAbuse.
    destruct (flags_of ty ad !! e); apply keeps_blacklist_insert; by rewrite Eb.
Qed.

Lemma check_all_keeps now ty ad : keeps_blacklist ad (check_all now ty ad).
Proof.
  unfold check_all. generalize (map_to_list (rates_of ty ad)).*1 as l. intros l. revert ad.
  induction l as [|e l IH]; intros ad; [by intros ? ?|]. simpl. intros ty' e' Hb. by apply IH, check_keeps.
Qed.

Lemma cleanup_keeps cutoff ad : keeps_blacklist ad (cleanupOldFlags cutoff ad).
Proof.
  intros ty e. unfold blacklisted, cleanupOldFlags. destruct ty; simpl.
  - destruct (flaggedIPs ad !! e) as [f|] eqn:E; [|done]. intros Hb.
    rewrite (proj2 (map_lookup_filter_Some _ _ _ f)); [done|]. split; [done|]. simpl. unfold keep_flag. by rewrite Hb, andb_false_r.
  - destruct (flaggedWallets ad !! e) as [f|] eqn:E; [|done]. intros Hb.
    rewrite (proj2 (map_lookup_filter_Some _ _ _ f)); [done|]. split; [done|]. simpl. unfold keep_flag. by rewrite Hb, andb_false_r.
Qed.

(** A blacklisted IP or wallet stays blacklisted, whatever is tracked, cleaned up
    and checked, and no rate that a check sees brings it back. *)
Theorem blacklist_permanent (ad ad' : AbuseDetector) (ty : EntityType) (e : string) :
  blacklisted ty e ad = true → rtc ad_step ad ad' → blacklisted ty e ad' = true.
Proof.
  intros Hb Hr. induction Hr as [|a b c Hs _ IH]; [done|]. apply IH. destruct Hs as [now ip a|now w a|now a|now a].
  - by destruct ty.
  - by destruct ty.
  - by destruct ty.
  - unfold performBackgroundChecks. by apply cleanup_keeps, check_all_keeps, check_all_keeps.
Qed.

(** ** The limiter *)

Section LimiterCorrect.
Context `{LI : LimiterImpl}.

(** The answers of a limiter to requests at the given times. *)
Fixpoint decide_all (l : Limiter) (ts : list Z) : list bool :=
  match ts with
  | [] => []
  | t :: ts' => let '(ok, l) := rate_Allow l t in ok :: decide_all l ts'
  end.

(** A limiter of an interval and a burst that was last asked at a time. *)
Inductive used (i b : Z) : Limiter → Z → Prop :=
| used_new t : used i b (rate_NewLimiter i b) t
| used_allow l t t' : used i b l t → t ≤ t' → used i b (rate_Allow l t').2 t'.

(** A token bucket refills one token per interval up to the burst: after the time
    of a whole burst without a request it answers like a new one. *)
Class LimiterRefills : Prop :=
  limiter_refills i b l t ts : 0 ≤ i → 0 < b → used i b l t → in_order (t + i * b) ts →
    decide_all l ts = decide_all (rate_NewLimiter i b) ts.

(** Requests and cleanups, at their times. *)
Inductive event := Request (t : Z) (key : string) | Cleanup (t : Z).
Definition time_of (e : event) : Z := match e with Request t _ => t | Cleanup t => t end.

(** The answers to the requests, with and without the cleanups. *)
Fixpoint answers (clean : bool) (rl : RateLimiter) (es : list event) : list (option bool) :=
  match es with
  | [] => []
  | Request t key :: es' =>
      match IsAllowed t key rl with
      | Some (ok, rl) => Some ok :: answers clean rl es'
      | None => [None]
      end
  | Cleanup t :: es' => answers clean (if clean then rl_cleanup t rl else rl) es'
  end.

Fixpoint times_from (t0 : Z) (es : list event) : Prop :=
  match es with [] => True | e :: es' => t0 ≤ time_of e ∧ times_from (time_of e) es' end.

Lemma in_order_cons t0 t ts : t0 ≤ t → in_order t ts → in_order t0 (t :: ts).
Proof.
  intros H0 [H1 H2]. split.
  - constructor; [done|]. eapply Forall_impl; [exact H1|]. simpl. lia.
  - intros [|x ts1] y ts2 E; simplify_eq/=; [done|]. constructor; [|by eapply H2].
    rewrite Forall_forall in H1. apply H1. apply elem_of_app. right. left.
Qed.

(** The limiters answer alike from the time of the last request on. *)
Definition alike (t : Z) (l1 l2 : Limiter) : Prop := ∀ ts, in_order t ts → decide_all l1 ts = decide_all l2 ts.

Lemma alike_allow t now l1 l2 : t ≤ now → alike t l1 l2 →
  (rate_Allow l1 now).1 = (rate_Allow l2 now).1 ∧ alike now (rate_Allow l1 now).2 (rate_Allow l2 now).2.
Proof.
  intros Ht Ha.
  assert (H : ∀ ts, in_order now ts → (rate_Allow l1 now).1 :: decide_all (rate_Allow l1 now).2 ts =
                                       (rate_Allow l2 now).1 :: decide_all (rate_Allow l2 now).2 ts).
  { intros ts Hts. specialize (Ha (now :: ts) (in_order_cons t now ts Ht Hts)). simpl in Ha.
    by destruct (rate_Allow l1 now), (rate_Allow l2 now). }
  split; [|intros ts Hts; specialize (H ts Hts); congruence].
  assert (H0 : in_order now []) by (split; [done|]; by intros [|? ?] ? ? ?). specialize (H [] H0). congruence.
Qed.

Definition interval (c : RateLimiterConfig) : Z := Z.quot (WindowSize c) (MaxRequests c).

(** A key of the limiter with cleanups and of the one without, at a time. *)
Definition key_sim (c : RateLimiterConfig) (now : Z) (o1 o2 : option RateLimiterData) : Prop :=
  match o2 with
  | None => o1 = None
  | Some d2 =>
      lastSeen d2 ≤ now ∧ used (interval c) (MaxRequests c) (limiter d2) (lastSeen d2) ∧
      match o1 with
      | None => lastSeen d2 + WindowSize c * 3 < now
      | Some d1 => lastSeen d1 = lastSeen d2 ∧ alike (lastSeen d2) (limiter d1) (limiter d2)
      end
  end.

Definition rl_sim (now : Z) (r1 r2 : RateLimiter) : Prop :=
  rlConfig r1 = rlConfig r2 ∧ 0 < MaxRequests (rlConfig r2) ∧ 0 ≤ WindowSize (rlConfig r2) ∧
  ∀ k, key_sim (rlConfig r2) now (requests r1 !! k) (requests r2 !! k).

Lemma key_sim_later c now now' o1 o2 : now ≤ now' → key_sim c now o1 o2 → key_sim c now' o1 o2.
Proof.
  intros Hn. unfold key_sim. destruct o2 as [d2|]; [|done]. intros (H1 & H2 & H3). split_and!; [lia|done|].
  destruct o1; [done|lia].
Qed.

Lemma in_order_earlier t t' ts : t' ≤ t → in_order t ts → in_order t' ts.
Proof. intros Ht [H1 H2]. split; [|done]. eapply Forall_impl; [exact H1|]. simpl. lia. Qed.

(** The limiters that answer a request. *)
Lemma key_sim_limiters `{!LimiterRefills} c now o1 o2 : 0 < MaxRequests c → 0 ≤ WindowSize c →
  key_sim c now o1 o2 →
  let l1 := default (new_limiter c) (limiter <$> o1) in let l2 := default (new_limiter c) (limiter <$> o2) in
  alike now l1 l2 ∧ ∃ u, u ≤ now ∧ used (interval c) (MaxRequests c) l2 u.
Proof.
  intros Hm Hw. unfold key_sim. destruct o2 as [d2|]; simpl.
  2: { intros ->. split; [done|]. exists now. split; [lia|]. apply used_new. }
  intros (Hl & Hu & Ho). split; [|by exists (lastSeen d2)]. destruct o1 as [d1|]; simpl; intros ts Hts.
  { destruct Ho as [_ Ha]. apply Ha. by eapply in_order_earlier. }
  assert (Hi : 0 ≤ interval c ∧ interval c * MaxRequests c ≤ WindowSize c).
  { unfold interval. rewrite Z.quot_div_nonneg by lia. split; [apply Z.div_pos; lia|].
    rewrite Z.mul_comm. apply Z.mul_div_le. lia. }
  symmetry. apply (limiter_refills (interval c) (MaxRequests c) _ (lastSeen d2)); [lia|done|done|].
  eapply in_order_earlier; [|exact Hts]. lia.
Qed.

Lemma IsAllowed_eq now key r : 0 < MaxRequests (rlConfig r) →
  let l := default (new_limiter (rlConfig r)) (limiter <$> requests r !! key) in
  IsAllowed now key r = Some ((rate_Allow l now).1,
    mkRateLimiter (rlConfig r) (<[key := mkLimiterData (rate_Allow l now).2 now]> (requests r))).
Proof.
  intros Hm l. unfold IsAllowed, l. rewrite (proj2 (Z.eqb_neq _ _)) by lia.
  destruct (requests r !! key); simpl; by destruct (rate_Allow _ now).
Qed.

Lemma sim_request `{!LimiterRefills} t now key r1 r2 : t ≤ now → rl_sim t r1 r2 →
  ∃ ok r1' r2', IsAllowed now key r1 = Some (ok, r1') ∧ IsAllowed now key r2 = Some (ok, r2') ∧ rl_sim now r1' r2'.
Proof.
  intros Ht (Hc & Hm & Hw & Hk). rewrite !IsAllowed_eq by (rewrite ?Hc; done). rewrite Hc.
  destruct (key_sim_limiters _ now _ _ Hm Hw (key_sim_later _ _ _ _ _ Ht (Hk key))) as (Ha & u & Hu & Hus).
  set (l1 := default _ (limiter <$> requests r1 !! key)) in *.
  set (l2 := default _ (limiter <$> requests r2 !! key)) in *.
  destruct (alike_allow now now l1 l2 ltac:(lia) Ha) as [E Ha'].
  eexists _, _, _. split; [reflexivity|]. split; [by rewrite E|]. split_and!; [done..|]. intros k. simpl.
  destruct (decide (key = k)) as [<-|Hne].
  - rewrite !lookup_insert_eq. simpl. split_and!; [lia| |done|done]. by eapply used_allow.
  - rewrite !lookup_insert_ne by done. apply (key_sim_later _ t); [done|apply Hk].
Qed.

Lemma sim_cleanup t now r1 r2 : t ≤ now → rl_sim t r1 r2 → rl_sim now (rl_cleanup now r1) r2.
Proof.
  intros Ht (Hc & Hm & Hw & Hk). split_and!; [done..|]. intros k. simpl.
  specialize (Hk k). apply (key_sim_later _ _ now) in Hk; [|done]. unfold key_sim in *.
  destruct (requests r2 !! k) as [d2|]; [|rewrite map_lookup_filter, Hk; done].
  destruct Hk as (H1 & H2 & H3). split_and!; [done..|]. rewrite map_lookup_filter.
  destruct (requests r1 !! k) as [d1|]; simpl; [|done]. destruct H3 as [E Ha].
  destruct (Z.ltb_spec (lastSeen d1) (now - WindowSize (rlConfig r1) * 3)) as [Hlt|Hge]; simpl.
  - rewrite Hc in Hlt. lia.
  - done.
Qed.

(** The cleanup of idle keys changes no answer: whatever requests and cleanups
    come, in the order of time, the limiter answers every request as one that never
    forgets a key. *)
Theorem cleanup_transparent `{!LimiterRefills} (config : RateLimiterConfig) (t0 : Z) (es : list event) :
  0 < MaxRequests config → 0 ≤ WindowSize config → times_from t0 es →
  answers true (NewRateLimiter (Some config)) es = answers false (NewRateLimiter (Some config)) es.
Proof.
  intros Hm Hw. assert (Hs : rl_sim t0 (NewRateLimiter (Some config)) (NewRateLimiter (Some config)))
    by (split_and!; try done; intros k; by rewrite lookup_empty).
  revert Hs. generalize (NewRateLimiter (Some config)) at 1 3 as r1. generalize (NewRateLimiter (Some config)) as r2.
  revert t0. induction es as [|[t key|t] es IH]; intros t0 r2 r1 Hs Ht; simpl in *; [done|..].
  - destruct Ht as [Ht Ht']. destruct (sim_request t0 t key r1 r2 Ht Hs) as (ok & r1' & r2' & -> & -> & Hs').
    f_equal. by apply (IH t).
  - destruct Ht as [Ht Ht']. apply (IH t); [|done]. by apply (sim_cleanup t0).
Qed.

(** The blacklist is not enforced: the answer for an IP is that of its limiter,
    blacklisted or not; only the alert differs. *)
Theorem blacklist_only_alerts (now : Z) (ip : string) (l : RateLimiter) (ad ad' : AbuseDetector) :
  (λ r, r.1.2) <$> IsIPAllowed now ip (mkGlobal l ad) = (λ r, r.1.2) <$> IsIPAllowed now ip (mkGlobal l ad') ∧
  (∀ r, IsIPAllowed now ip (mkGlobal l ad) = Some r → r.1.1 = IsIPBlacklisted ad ip).
Proof.
  unfold IsIPAllowed. simpl. destruct (IsAllowed now ip l) as [[ok l']|]; simpl; [|done].
  split; [done|]. by intros r [= <-].
Qed.

End LimiterCorrect.

(** ** What a check does to one flag *)

(** The flag of an entity after its check, from its rates. *)
Definition check_flag (c : AbuseConfig) (now : Z) (ty : EntityType) (e : string) (m h d : Z) (o : option AbuseFlag)
    : option AbuseFlag :=
  let listed := match o with Some f => IsBlacklisted f | None => false end in
  if listed then o
  else if AutoBlacklistTxPerMinute c <=? m then
    Some (match o with
          | None => mkFlag e ty (AutoBlacklist m (AutoBlacklistTxPerMinute c)) now now 1 true
          | Some f => mkFlag (Entity f) (entityType f) (AutoBlacklist m (AutoBlacklistTxPerMinute c)) (FirstSeen f) now
                        (Count f) true
          end)
  else if (MaxTxPerHour c <=? h) || (MaxTxPerDay c <=? d) then
    Some (match o with
          | None => mkFlag e ty (LongTerm m h d) now now 1 false
          | Some f => mkFlag (Entity f) (entityType f) (LongTerm m h d) (FirstSeen f) now (Count f + 1) (IsBlacklisted f)
          end)
  else o.

(** A check changes the flag of its entity only, and neither rates nor limits. *)
Lemma check_entity_flag now ty e ad :
  let rate w := rate_of (rates_of ty ad) e w in
  let ad' := check_entity now ty e ad in
  adConfig ad' = adConfig ad ∧ rateTracker ad' = rateTracker ad ∧
  ∀ ty' e', flags_of ty' ad' !! e' =
    if bool_decide (ty' = ty ∧ e' = e)
    then check_flag (adConfig ad) now ty e (rate minute) (rate hour) (rate day) (flags_of ty ad !! e)
    else flags_of ty' ad !! e'.
Proof.
  cbv zeta. unfold check_entity, check_flag, blacklisted.
  assert (Hsame : ∀ ty' e', flags_of ty' ad !! e' =
    (if bool_decide (ty' = ty ∧ e' = e) then flags_of ty ad !! e else flags_of ty' ad !! e')).
  { intros ty' e'. case_bool_decide as Hb; [by destruct Hb as [-> ->]|done]. }
  assert (Hins : ∀ f m, adConfig (with_flags ty (<[e := f]> (flags_of ty ad)) m ad) = adConfig ad ∧
    rateTracker (with_flags ty (<[e := f]> (flags_of ty ad)) m ad) = rateTracker ad ∧
    ∀ ty' e', flags_of ty' (with_flags ty (<[e := f]> (flags_of ty ad)) m ad) !! e' =
      (if bool_decide (ty' = ty ∧ e' = e) then Some f else flags_of ty' ad !! e')).
  { intros f m. split; [by destruct ty|]. split; [by destruct ty|]. intros ty' e'.
    case_bool_decide as Hb.
    - destruct Hb as [-> ->]. destruct ty; apply lookup_insert_eq.
    - destruct ty, ty'; simpl; try done; rewrite lookup_insert_ne; try done; intros ->; by apply Hb. }
  destruct (match flags_of ty ad !! e with Some f => IsBlacklisted f | None => false end); [done|].
  unfold autoBlacklist, flagAbuse. destruct (_ <=? rate_of _ _ minute); [destruct (flags_of ty ad !! e); apply Hins|].
  destruct (_ || _); [destruct (flags_of ty ad !! e); apply Hins|done].
Qed.

(** The checks of a list of entities are independent. *)
Lemma check_list_flag now ty l ad : NoDup l →
  let ad' := foldl (λ ad e, check_entity now ty e ad) ad l in
  adConfig ad' = adConfig ad ∧ rateTracker ad' = rateTracker ad ∧
  ∀ ty' e, flags_of ty' ad' !! e =
    if bool_decide (ty' = ty ∧ e ∈ l)
    then check_flag (adConfig ad) now ty e (rate_of (rates_of ty ad) e minute) (rate_of (rates_of ty ad) e hour)
           (rate_of (rates_of ty ad) e day) (flags_of ty ad !! e)
    else flags_of ty' ad !! e.
Proof.
  revert ad. induction l as [|x l IH]; intros ad Hnd; cbv zeta.
  { split_and!; [done..|]. intros ty' e. rewrite bool_decide_false; [done|]. by intros [_ ?%elem_of_nil]. }
  apply NoDup_cons in Hnd as [Hx Hnd]. simpl.
  destruct (check_entity_flag now ty x ad) as (C1 & C2 & C3). destruct (IH (check_entity now ty x ad) Hnd) as (D1 & D2 & D3).
  split_and!; [congruence..|]. intros ty' e. rewrite D3, C1, !C3.
  assert (Hr : rates_of ty (check_entity now ty x ad) = rates_of ty ad) by (by destruct ty; simpl; rewrite C2).
  rewrite Hr. destruct (decide (ty' = ty)) as [->|Hty].
  - destruct (decide (e = x)) as [->|Hne].
    + rewrite (bool_decide_false (ty = ty ∧ x ∈ l)), (bool_decide_true (ty = ty ∧ x = x)),
        (bool_decide_true (ty = ty ∧ x ∈ x :: l)); [done|by split; [|left]|done|tauto].
    + rewrite (bool_decide_false (ty = ty ∧ e = x)) by tauto.
      rewrite (bool_decide_ext (ty = ty ∧ e ∈ x :: l) (ty = ty ∧ e ∈ l)); [done|]. rewrite elem_of_cons. tauto.
  - rewrite !bool_decide_false by tauto. done.
Qed.

(** Rates do not age: an IP that was over the hourly limit once, and has sent
    nothing since, is flagged again by every check, however much later, and its
    flag is not cleaned up. *)
Theorem idle_ip_flagged_again (now : Z) (ip : string) (ad : AbuseDetector) (d : RateData) (f : AbuseFlag) :
  ipRates (rateTracker ad) !! ip = Some d → minuteCount d < AutoBlacklistTxPerMinute (adConfig ad) →
  MaxTxPerHour (adConfig ad) ≤ hourCount d → flaggedIPs ad !! ip = Some f → IsBlacklisted f = false →
  ∃ f', flaggedIPs (performBackgroundChecks now ad) !! ip = Some f' ∧ Count f' = Count f + 1 ∧ LastSeen f' = now.
Proof.
  intros Hd Hm Hh Hf Hb. unfold performBackgroundChecks, check_all.
  destruct (check_list_flag now IP (map_to_list (rates_of IP ad)).*1 ad (NoDup_fst_map_to_list _)) as (_ & _ & C3).
  set (ad1 := foldl _ ad _) in *.
  destruct (check_list_flag now WALLET (map_to_list (rates_of WALLET ad1)).*1 ad1 (NoDup_fst_map_to_list _)) as (_ & _ & D3).
  set (ad2 := foldl _ ad1 _) in *. specialize (D3 IP ip). rewrite bool_decide_false in D3 by by intros [? _].
  specialize (C3 IP ip). rewrite bool_decide_true in C3.
  2: { split; [done|]. apply list_elem_of_fmap. exists (ip, d). split; [done|]. by apply elem_of_map_to_list. }
  simpl in C3, D3. rewrite Hf in C3. unfold check_flag, rate_of, GetAllIPs in C3. rewrite Hb, Hd in C3. simpl in C3.
  rewrite (proj2 (Z.leb_gt _ _)) in C3 by exact Hm. rewrite (proj2 (Z.leb_le _ _)) in C3 by exact Hh. simpl in C3.
  eexists. split; [|split].
  - simpl. apply map_lookup_filter_Some. rewrite D3. split; [exact C3|]. simpl. unfold keep_flag. simpl.
    rewrite (proj2 (Z.ltb_ge _ _)); [done|]. unfold day, hour, minute, second. lia.
  - done.
  - done.
Qed.

(** ** Concrete runs *)

(** A token bucket in nanoseconds: what is in it, the time of the last request,
    and the interval and burst. *)
Record Bucket := mkBucket { level : Z; asked : option Z; every : Z; burst : Z }.

Definition bucket_level (b : Bucket) (t : Z) : Z :=
  match asked b with
  | None => level b
  | Some t0 => Z.min (every b * burst b) (level b + Z.max 0 (t - t0))
  end.

Definition bucket_Allow (b : Bucket) (t : Z) : bool * Bucket :=
  let l := bucket_level b t in
  if every b <=? l then (true, mkBucket (l - every b) (Some t) (every b) (burst b))
  else (false, mkBucket l (Some t) (every b) (burst b)).

#[export] Instance bucket_impl : LimiterImpl := {|
  Limiter := Bucket;
  rate_NewLimiter i b := mkBucket (i * b) None i b;
  rate_Allow := bucket_Allow;
|}.

(** A used bucket holds no more than the burst, and was asked at most at the time. *)
Lemma bucket_used i b l t : 0 ≤ i → 0 < b → used (LI := bucket_impl) i b l t →
  every l = i ∧ burst l = b ∧ 0 ≤ level l ≤ i * b ∧
  match asked l with None => level l = i * b | Some t0 => t0 = t end.
Proof.
  intros Hi Hb. induction 1 as [t|l t t' _ (E1 & E2 & E3 & E4) Ht]; simpl; [by split_and!; try nia|].
  unfold bucket_Allow, bucket_level. destruct (asked l) as [t0|]; simpl in *.
  - destruct (Z.leb_spec (every l) (Z.min (every l * burst l) (level l + Z.max 0 (t' - t0)))); simpl;
      rewrite E1, E2 in *; split_and!; lia.
  - destruct (Z.leb_spec (every l) (level l)); simpl; rewrite ?E1, ?E2 in *; split_and!; lia.
Qed.

#[export] Instance bucket_refills : LimiterRefills (LI := bucket_impl).
Proof.
  intros i b l t [|x ts] Hi Hb Hu [Ho _]; [done|]. apply Forall_cons in Ho as [Hx _].
  destruct (bucket_used i b l t Hi Hb Hu) as (E1 & E2 & E3 & E4).
  assert (E : bucket_level l x = i * b).
  { unfold bucket_level. destruct (asked l) as [t0|]; [|done]. subst t0. rewrite E1, E2. lia. }
  simpl. unfold bucket_Allow. rewrite E, E1, E2. simpl. unfold bucket_level at 1. simpl. done.
Qed.

Definition two_per_second : RateLimiterConfig := mkLimiterConfig 2 second minute.
Definition burst_then_idle : list event :=
  [Request 0 "ip"; Request 1 "ip"; Request 2 "ip"; Cleanup (4 * second); Request (5 * second) "ip"].

Lemma cleanup_transparent_witness :
  answers (LI := bucket_impl) true (NewRateLimiter (Some two_per_second)) burst_then_idle =
  answers (LI := bucket_impl) false (NewRateLimiter (Some two_per_second)) burst_then_idle ∧
  answers (LI := bucket_impl) true (NewRateLimiter (Some two_per_second)) burst_then_idle =
  [Some true; Some true; Some false; Some true].
Proof.
  split; [|vm_compute; reflexivity].
  refine (cleanup_transparent (LI := bucket_impl) two_per_second 0 burst_then_idle _ _ _);
    [reflexivity|discriminate|]. repeat split; discriminate.
Defined.

Definition around_a_minute : list Z := [0; 59 * second; 60 * second; 61 * second].

Lemma rate_below_limit_witness :
  Z.of_nat (length (within minute (30 * second) around_a_minute)) ≤ 4.
Proof.
  assert (Hp : ∀ ts1 ts2, around_a_minute = ts1 ++ ts2 → (length ts1 ≤ 4)%nat ∧ ts1 = take (length ts1) around_a_minute).
  { intros ts1 ts2 E. rewrite E, take_app_length. split; [|reflexivity].
    apply (f_equal length) in E. rewrite length_app in E. simpl in E. lia. }
  refine (rate_below_limit 0 around_a_minute 3 (30 * second) _ _ _); [lia| |].
  - split; [repeat constructor; discriminate|]. intros ts1 t ts2 E.
    assert (Et : around_a_minute !! length ts1 = Some t) by (rewrite E; by apply list_lookup_middle).
    destruct (Hp ts1 (t :: ts2) E) as [Hl ->].
    destruct (length ts1) as [|[|[|[|[|]]]]]; [..|lia]; simpl in Et; injection Et as <- || discriminate Et;
      repeat constructor; discriminate.
  - intros ts1 ts2 E. destruct (Hp ts1 ts2 E) as [Hl ->].
    destruct (length ts1) as [|[|[|[|[|]]]]]; [..|lia]; vm_compute; reflexivity.
Defined.

Lemma tracked_entries_kept_witness :
  let rt := rt_TrackIPRequest 0 "ip" (NewRateTracker None) in
  is_Some (ipRates (rt_cleanup (1000 * day) rt) !! "ip").
Proof.
  intros rt. refine (proj1 (tracked_entries_kept None rt (rt_cleanup (1000 * day) rt) "ip" _ _) _).
  - apply rtc_once, rt_ip.
  - apply rtc_once, rt_clean.
  - eexists. vm_compute. reflexivity.
Defined.

(** An IP that was blacklisted, and one over the hourly limit. *)
Definition listed_ip : AbuseDetector :=
  mkDetector (NewRateTracker None) DefaultAbuseConfig
    {[ "ip" := mkFlag "ip" IP (AutoBlacklist 12000 12000) 0 0 1 true ]} ∅ (mkMetrics 1 1).

Lemma blacklist_permanent_witness :
  blacklisted IP "ip" (performBackgroundChecks (1000 * day) listed_ip) = true.
Proof.
  refine (blacklist_permanent listed_ip _ IP "ip" _ _); [vm_compute; reflexivity|]. apply rtc_once, ad_check.
Defined.

Definition busy_hour : AbuseDetector :=
  mkDetector (mkRateTracker {[ "ip" := mkRateData 1 360000 360000 0 0 0 0 ]} ∅ DefaultRateConfig) DefaultAbuseConfig
    {[ "ip" := mkFlag "ip" IP (LongTerm 1 360000 360000) 0 0 1 false ]} ∅ (mkMetrics 1 0).

Lemma idle_ip_flagged_again_witness :
  ∃ f, flaggedIPs (performBackgroundChecks (1000 * day) busy_hour) !! "ip" = Some f ∧ Count f = 2 ∧
       LastSeen f = 1000 * day.
Proof.
  refine (idle_ip_flagged_again (1000 * day) "ip" busy_hour (mkRateData 1 360000 360000 0 0 0 0)
    (mkFlag "ip" IP (LongTerm 1 360000 360000) 0 0 1 false) _ _ _ _ _);
    first [reflexivity | vm_compute; reflexivity | vm_compute; discriminate].
Defined.
