(* ===== verification/Events.v ===== *)
(** * Events and tracking (the package events and transaction/tracker.go)

    The bus keeps the subscribers in a concurrent map, and their number in a
    counter of its own; a subscriber's channel is a bounded queue.  The tracker
    keeps the transactions between the pool and the ledger, with a cache of those
    removed before they were tracked.  Operations whose parts other goroutines can
    interleave with are also split into these parts. *)

From stdpp Require Import base list gmap strings.
From Stdlib Require Import ZArith Lia.
From S2P Require Import Prelude GoLib Transaction Poh Block.

Open Scope string_scope.
Open Scope list_scope.
Open Scope Z_scope.

(** ** types.go *)

Inductive BlockchainEvent :=
| TransactionAddedToMempool (txHash : string) (tx : option Transaction) (timestamp : Z)
| TransactionIncludedInBlock (tx : option Transaction) (blockSlot : Z) (blockHash : string) (timestamp : Z)
| TransactionFinalized (tx : option Transaction) (blockSlot : Z) (blockHash : string) (timestamp : Z)
| TransactionFailed (tx : option Transaction) (errorMessage : string) (timestamp : Z)
| HeartBeatEvent (timestamp : Z).

Definition event_Type (e : BlockchainEvent) : string :=
  match e with
  | TransactionAddedToMempool _ _ _ => "TransactionAddedToMempool"
  | TransactionIncludedInBlock _ _ _ _ => "TransactionIncludedInBlock"
  | TransactionFinalized _ _ _ _ => "TransactionFinalized"
  | TransactionFailed _ _ _ => "TransactionFailed"
  | HeartBeatEvent _ => "HeartBeat"
  end.

Definition event_Transaction (e : BlockchainEvent) : option Transaction :=
  match e with
  | TransactionAddedToMempool _ tx _ | TransactionIncludedInBlock tx _ _ _ | TransactionFinalized tx _ _ _
  | TransactionFailed tx _ _ => tx
  | HeartBeatEvent _ => None
  end.

Definition event_Timestamp (e : BlockchainEvent) : Z :=
  match e with
  | TransactionAddedToMempool _ _ t | TransactionIncludedInBlock _ _ _ t | TransactionFinalized _ _ _ t
  | TransactionFailed _ _ t | HeartBeatEvent t => t
  end.

Definition event_TxHash `{TxEnv} (e : BlockchainEvent) : string :=
  match e with
  | TransactionAddedToMempool h _ _ => h
  | HeartBeatEvent _ => "HeartBeat"
  | e => ptr_Hash (event_Transaction e)
  end.

(** The outer [None] is the nil dereference. *)
Definition event_TxExtraInfo (e : BlockchainEvent) : option string :=
  match e with
  | HeartBeatEvent _ => Some ""
  | e => ExtraInfo <$> event_Transaction e
  end.

(** ** eventbus.go *)

Definition DefaultBuffer : Z := 256.

(** The queue of a channel with its capacity. *)
Record Subscriber := mkSubscriber { Channel : list BlockchainEvent; capacity : Z; sub_closed : bool }.

Record EventBus := mkBus {
  subscribers : gmap string Subscriber; count : Z; bus_closed : bool; buffer : Z;
}.

Definition NewEventBus : EventBus := mkBus ∅ 0 false DefaultBuffer.

(** [uuid] is the identifier that is drawn. *)
Definition Subscribe (uuid : string) (eb : EventBus) : string * EventBus :=
  if bus_closed eb then ("", eb)
  else (uuid, mkBus (<[uuid := mkSubscriber [] (buffer eb) false]> (subscribers eb)) (u64_add (count eb) 1)
                (bus_closed eb) (buffer eb)).

Definition SetBuffer (n : Z) (eb : EventBus) : EventBus :=
  mkBus (subscribers eb) (count eb) (bus_closed eb) (if n <=? 0 then DefaultBuffer else n).

Definition HasSubscriber (eb : EventBus) (id : string) : bool := bool_decide (is_Some (subscribers eb !! id)).

(** The part of [Unsubscribe] after the lookup. *)
Definition remove_subscriber (id : string) (eb : EventBus) : EventBus :=
  mkBus (delete id (subscribers eb)) (u64_add (count eb) (2 ^ 64 - 1)) (bus_closed eb) (buffer eb).

Definition Unsubscribe (id : string) (eb : EventBus) : bool * EventBus :=
  if HasSubscriber eb id then (true, remove_subscriber id eb) else (false, eb).

(** The counter as an [int]. *)
Definition GetTotalSubscriptions (eb : EventBus) : Z :=
  if 2 ^ 63 <=? count eb then count eb - 2 ^ 64 else count eb.

Definition GetSubscriberIDs (eb : EventBus) : list string := (map_to_list (subscribers eb)).*1.

(** A send that does not block. *)
Definition offer (e : BlockchainEvent) (s : Subscriber) : Subscriber :=
  if sub_closed s then s
  else if Z.of_nat (length (Channel s)) <? capacity s
  then mkSubscriber (Channel s ++ [e]) (capacity s) (sub_closed s)
  else s.

Definition Publish (e : BlockchainEvent) (eb : EventBus) : EventBus :=
  if bus_closed eb then eb
  else if 0 <? GetTotalSubscriptions eb
  then mkBus (offer e <$> subscribers eb) (count eb) (bus_closed eb) (buffer eb)
  else eb.

(** The swap of [closed] lets one call through. *)
Definition Shutdown (eb : EventBus) : EventBus :=
  if bus_closed eb then eb else mkBus ∅ 0 true (buffer eb).

(** A subscriber reads its channel. *)
Definition receive (id : string) (eb : EventBus) : option (BlockchainEvent * EventBus) :=
  s ← subscribers eb !! id;
  match Channel s with
  | [] => None
  | e :: ch => Some (e, mkBus (<[id := mkSubscriber ch (capacity s) (sub_closed s)]> (subscribers eb)) (count eb)
                          (bus_closed eb) (buffer eb))
  end.

(** ** tracker.go *)

(** The cache of removed hashes as a set: within its life window it keeps what is
    set. *)
Record TransactionTracker := mkTxTracker {
  processingCount : Z; processingTxs : gmap string Transaction; removedTxCache : gset string;
}.

Definition NewTransactionTracker : TransactionTracker := mkTxTracker 0 ∅ ∅.

Section Tracker.
Context `{TE : TxEnv}.

Definition tracker_GetTransaction (t : TransactionTracker) (txHash : string) : option Transaction :=
  processingTxs t !! txHash.

(** [tx.Sender[:8]] panics on a shorter string. *)
Definition sender_prefix_ok (tx : Transaction) : bool := 8 <=? string_len (Sender tx).

(** The part of [TrackProcessingTransaction] after the cache was asked. *)
Definition track_store (tx : Transaction) (t : TransactionTracker) : TransactionTracker :=
  match processingTxs t !! Hash tx with
  | Some _ => t
  | None => mkTxTracker (processingCount t + 1) (<[Hash tx := tx]> (processingTxs t)) (removedTxCache t)
  end.

(** The state afterwards, and whether the call panics at its end. *)
Definition TrackProcessingTransaction (tx : Transaction) (t : TransactionTracker) : TransactionTracker * bool :=
  if bool_decide (Hash tx ∈ removedTxCache t)
  then (mkTxTracker (processingCount t) (processingTxs t) (removedTxCache t ∖ {[Hash tx]}), false)
  else (track_store tx t, negb (sender_prefix_ok tx)).

(** The load and delete of [RemoveTransaction], and the cache's update when there
    was nothing. *)
Definition remove_load (txHash : string) (t : TransactionTracker) : option Transaction * TransactionTracker :=
  match processingTxs t !! txHash with
  | Some tx => (Some tx, mkTxTracker (processingCount t - 1) (delete txHash (processingTxs t)) (removedTxCache t))
  | None => (None, t)
  end.
Definition remove_cache (txHash : string) (t : TransactionTracker) : TransactionTracker :=
  mkTxTracker (processingCount t) (processingTxs t) ({[txHash]} ∪ removedTxCache t).

Definition RemoveTransaction (txHash : string) (t : TransactionTracker) : TransactionTracker * bool :=
  match remove_load txHash t with
  | (Some tx, t) => (t, negb (sender_prefix_ok tx))
  | (None, t) => (remove_cache txHash t, false)
  end.

End Tracker.

(** ** The bus *)

(** The bus with what was published since each subscription, and what each
    subscriber has received. *)
Record BusRun := mkRun {
  bus : EventBus; log : gmap string (list BlockchainEvent); got : gmap string (list BlockchainEvent);
}.

Inductive bus_step : BusRun → BusRun → Prop :=
| bs_subscribe uuid r : subscribers (bus r) !! uuid = None →
    Z.of_nat (size (subscribers (bus r))) < 2 ^ 63 - 1 →
    bus_step r (mkRun (snd (Subscribe uuid (bus r))) (<[uuid := []]> (log r)) (<[uuid := []]> (got r)))
| bs_unsubscribe id r : bus_step r (mkRun (snd (Unsubscribe id (bus r))) (log r) (got r))
| bs_publish e r : bus_step r (mkRun (Publish e (bus r)) ((λ l, l ++ [e]) <$> log r) (got r))
| bs_receive id e eb r : receive id (bus r) = Some (e, eb) →
    bus_step r (mkRun eb (log r) (alter (λ l, l ++ [e]) id (got r)))
| bs_buffer n r : bus_step r (mkRun (SetBuffer n (bus r)) (log r) (got r))
| bs_shutdown r : bus_step r (mkRun (Shutdown (bus r)) (log r) (got r)).

Record bus_ok (r : BusRun) : Prop := {
  bo_count : count (bus r) = Z.of_nat (size (subscribers (bus r))) ∧ count (bus r) < 2 ^ 63;
  bo_buffer : 0 < buffer (bus r);
  bo_sub id s : subscribers (bus r) !! id = Some s →
    Z.of_nat (length (Channel s)) ≤ capacity s ∧ 0 < capacity s ∧ sub_closed s = false ∧
    ∃ l g, log r !! id = Some l ∧ got r !! id = Some g ∧ (g ++ Channel s) `sublist_of` l;
}.

Lemma bus_ok_subscribe uuid r : bus_ok r → subscribers (bus r) !! uuid = None →
  Z.of_nat (size (subscribers (bus r))) < 2 ^ 63 - 1 →
  bus_ok (mkRun (snd (Subscribe uuid (bus r))) (<[uuid := []]> (log r)) (<[uuid := []]> (got r))).
Proof.
  intros [[Hc Hb] Hbuf Hs] Hn Hl. unfold Subscribe.
  assert (Hold : ∀ id s, subscribers (bus r) !! id = Some s → id ≠ uuid) by (intros id s Hid ->; congruence).
  destruct (bus_closed (bus r)); simpl.
  - constructor; simpl; [done|done|]. intros id s Hid. rewrite !lookup_insert_ne by (symmetry; by eapply Hold).
    by apply Hs.
  - constructor; simpl; [|done|].
    + rewrite map_size_insert_None by done. unfold u64_add, wrap. rewrite Z.mod_small by lia. lia.
    + intros id s. rewrite lookup_insert_Some. intros [[<- <-]|[Hne Hid]].
      * simpl. split_and!; [lia|done|done|]. exists [], []. by rewrite !lookup_insert_eq.
      * rewrite !lookup_insert_ne by done. by apply Hs.
Qed.

Lemma bus_ok_unsubscribe id r : bus_ok r → bus_ok (mkRun (snd (Unsubscribe id (bus r))) (log r) (got r)).
Proof.
  intros [[Hc Hb] Hbuf Hs]. unfold Unsubscribe, HasSubscriber. case_bool_decide as He; [|by constructor].
  destruct He as [s0 He]. assert (Hsz : (0 < size (subscribers (bus r)))%nat).
  { apply Nat.neq_0_lt_0. rewrite map_size_ne_0_lookup. by exists id, s0. }
  constructor; simpl; [|done|].
  - rewrite map_size_delete_Some by done. rewrite Hc. unfold u64_add, wrap.
    replace (Z.of_nat (size (subscribers (bus r))) + (2 ^ 64 - 1))
      with ((Z.of_nat (size (subscribers (bus r))) - 1) + 1 * 2 ^ 64) by lia.
    rewrite Z.mod_add, Z.mod_small by lia. lia.
  - intros id' s [_ Hid]%lookup_delete_Some. by apply Hs.
Qed.

Lemma offer_spec e s : sub_closed s = false →
  capacity (offer e s) = capacity s ∧ sub_closed (offer e s) = false ∧
  Channel (offer e s) = (if Z.of_nat (length (Channel s)) <? capacity s then Channel s ++ [e] else Channel s).
Proof. intros Hc. unfold offer. rewrite Hc. by destruct (_ <? _). Qed.

Lemma bus_ok_publish e r : bus_ok r →
  bus_ok (mkRun (Publish e (bus r)) ((λ l, l ++ [e]) <$> log r) (got r)).
Proof.
  intros [[Hc Hb] Hbuf Hs].
  assert (Hlog : ∀ l id g ch, (g ++ ch) `sublist_of` l → log r !! id = Some l →
    ∃ l', ((λ l, l ++ [e]) <$> log r) !! id = Some l' ∧ (g ++ ch) `sublist_of` l' ∧ (g ++ ch ++ [e]) `sublist_of` l').
  { intros l id g ch Hsub Hl. exists (l ++ [e]). rewrite lookup_fmap, Hl. split_and!; [done|by apply sublist_inserts_r|].
    rewrite app_assoc. by apply sublist_app. }
  assert (Hsame : ∀ eb, subscribers eb = subscribers (bus r) → count eb = count (bus r) → 0 < buffer eb →
    bus_ok (mkRun eb ((λ l, l ++ [e]) <$> log r) (got r))).
  { intros eb E1 E2 E3. constructor; simpl; [by rewrite E1, E2|done|]. intros id s Hid. rewrite E1 in Hid.
    destruct (Hs id s Hid) as (H1 & H2 & H3 & l & g & Hl & Hg & Hsub). split_and!; try done.
    destruct (Hlog l id g _ Hsub Hl) as (l' & Hl' & Hsub' & _). by exists l', g. }
  unfold Publish. destruct (bus_closed (bus r)); [by apply Hsame|]. destruct (0 <? _); [|by apply Hsame].
  constructor; simpl; [by rewrite map_size_fmap|done|]. intros id s. rewrite lookup_fmap.
  destruct (subscribers (bus r) !! id) as [s0|] eqn:E; [|done]. intros [= <-].
  destruct (Hs id s0 E) as (H1 & H2 & H3 & l & g & Hl & Hg & Hsub).
  destruct (offer_spec e s0 H3) as (O1 & O2 & O3). rewrite O1, O2, O3.
  destruct (Hlog l id g _ Hsub Hl) as (l' & Hl' & S1 & S2).
  destruct (Z.ltb_spec (Z.of_nat (length (Channel s0))) (capacity s0)); (split_and!; [|done|done|by exists l', g]); [|lia].
  rewrite length_app. simpl. lia.
Qed.

Lemma bus_ok_receive id e eb r : bus_ok r → receive id (bus r) = Some (e, eb) →
  bus_ok (mkRun eb (log r) (alter (λ l, l ++ [e]) id (got r))).
Proof.
  intros [[Hc Hb] Hbuf Hs]. unfold receive. destruct (subscribers (bus r) !! id) as [s|] eqn:E; [|done]. simpl.
  destruct (Channel s) as [|x ch] eqn:Ec; [done|]. intros [= -> <-]. constructor; simpl.
  - rewrite map_size_insert_Some by by rewrite E. done.
  - done.
  - intros id' s'. rewrite lookup_insert_Some. intros [[<- <-]|[Hne Hid]].
    + destruct (Hs id s E) as (H1 & H2 & H3 & l & g & Hl & Hg & Hsub). rewrite Ec in H1, Hsub. simpl in *.
      split_and!; [lia|done|done|]. exists l, (g ++ [e]). rewrite lookup_alter_eq, Hg, <- app_assoc. done.
    + rewrite lookup_alter_ne by done. by apply Hs.
Qed.

Lemma bus_ok_step r r' : bus_ok r → bus_step r r' → bus_ok r'.
Proof.
  intros Hr Hs. destruct Hs as [uuid r Hn Hl|id r|e r|id e eb r He|n r|r].
  - by apply bus_ok_subscribe.
  - by apply bus_ok_unsubscribe.
  - by apply bus_ok_publish.
  - by apply (bus_ok_receive id e).
  - destruct Hr as [Hc Hb Hs]. constructor; simpl; [done| |done]. unfold SetBuffer, DefaultBuffer. simpl.
    destruct (Z.leb_spec n 0); lia.
  - destruct Hr as [Hc Hb Hs]. unfold Shutdown. destruct (bus_closed (bus r)); [by constructor|].
    constructor; simpl; [by rewrite map_size_empty|done|]. by intros id s ?%lookup_empty_Some.
Qed.

(** What the bus guarantees when calls do not overlap: the counter is the number
    of subscribers, so that events are published whenever there is one; a channel
    never holds more than its capacity; what a subscriber has received and has
    waiting is, in order and without repetition, part of what was published since
    it subscribed; and the next event reaches every subscriber that has room. *)
Theorem bus_delivers (r : BusRun) (e : BlockchainEvent) (id : string) (s : Subscriber) :
  rtc bus_step (mkRun NewEventBus ∅ ∅) r → subscribers (bus r) !! id = Some s → bus_closed (bus r) = false →
  GetTotalSubscriptions (bus r) = Z.of_nat (size (subscribers (bus r))) ∧
  Z.of_nat (length (Channel s)) ≤ capacity s ∧
  (∃ l g, log r !! id = Some l ∧ got r !! id = Some g ∧ (g ++ Channel s) `sublist_of` l) ∧
  ∃ s', subscribers (Publish e (bus r)) !! id = Some s' ∧
    Channel s' = (if Z.of_nat (length (Channel s)) <? capacity s then Channel s ++ [e] else Channel s).
Proof.
  intros Hr Hs Hcl. assert (Hok : bus_ok r).
  { revert Hr. apply (rtc_ind_r bus_ok); [|intros a b _ Hab Ha; by apply (bus_ok_step a)].
    constructor; simpl; [done|done|]. by intros ? ? ?%lookup_empty_Some. }
  destruct Hok as [[Hc Hb] Hbuf Hsub]. destruct (Hsub id s Hs) as (H1 & H2 & H3 & Hlog).
  assert (Ht : GetTotalSubscriptions (bus r) = Z.of_nat (size (subscribers (bus r)))).
  { unfold GetTotalSubscriptions. rewrite (proj2 (Z.leb_gt _ _)) by lia. done. }
  split_and!; try done. unfold Publish. rewrite Hcl, Ht.
  assert (Hsz : (0 < size (subscribers (bus r)))%nat).
  { apply Nat.neq_0_lt_0. rewrite map_size_ne_0_lookup. by exists id, s. }
  rewrite (proj2 (Z.ltb_lt _ _)) by lia. simpl. rewrite lookup_fmap, Hs. simpl. eexists. split; [done|].
  by destruct (offer_spec e s H3) as (_ & _ & ->).
Qed.

(** Two calls of [Unsubscribe] for the same identifier that both find it before
    either removes it count down twice.  The counter then wraps around, and after
    the next subscription it is zero: the new subscriber gets nothing. *)
Theorem double_unsubscribe_silences :
  let eb := snd (Subscribe "a" NewEventBus) in
  let eb1 := remove_subscriber "a" (remove_subscriber "a" eb) in
  let eb2 := snd (Subscribe "b" eb1) in
  HasSubscriber eb "a" = true ∧ GetTotalSubscriptions eb1 = -1 ∧
  HasSubscriber eb2 "b" = true ∧ GetTotalSubscriptions eb2 = 0 ∧ Publish (HeartBeatEvent 0) eb2 = eb2.
Proof. cbv zeta. split_and!; vm_compute; reflexivity. Qed.

(** ** The tracker *)

Section TrackerCorrect.
Context `{TE : TxEnv}.

(** One call, for a transaction. *)
Inductive tracker_call := CallTrack (tx : Transaction) | CallRemove (txHash : string).

Definition run_call (t : TransactionTracker) (c : tracker_call) : TransactionTracker :=
  match c with
  | CallTrack tx => fst (TrackProcessingTransaction tx t)
  | CallRemove h => fst (RemoveTransaction h t)
  end.

Definition run_calls (t : TransactionTracker) (l : list tracker_call) : TransactionTracker := foldl run_call t l.

(** Whether a call tracks, and its hash. *)
Definition call_key (c : tracker_call) : bool * string :=
  match c with CallTrack tx => (true, Hash tx) | CallRemove h => (false, h) end.

(** A hash is tracked, or removed in advance, or neither, as its calls say. *)
Definition settled (keys : list (bool * string)) (t : TransactionTracker) : Prop :=
  (∀ h, is_Some (processingTxs t !! h) ↔ (true, h) ∈ keys ∧ (false, h) ∉ keys) ∧
  (∀ h, h ∈ removedTxCache t ↔ (false, h) ∈ keys ∧ (true, h) ∉ keys) ∧
  processingCount t = Z.of_nat (size (processingTxs t)).

Lemma settled_track keys t tx : settled keys t → (true, Hash tx) ∉ keys →
  settled (keys ++ [(true, Hash tx)]) (run_call t (CallTrack tx)).
Proof.
  intros (H1 & H2 & H3) Hn. simpl. unfold TrackProcessingTransaction.
  assert (Hkey : ∀ h, (true, h) ∈ keys ++ [(true, Hash tx)] ↔ (true, h) ∈ keys ∨ h = Hash tx).
  { intros h. rewrite elem_of_app, list_elem_of_singleton. naive_solver. }
  assert (Hkey' : ∀ h, (false, h) ∈ keys ++ [(true, Hash tx)] ↔ (false, h) ∈ keys).
  { intros h. rewrite elem_of_app, list_elem_of_singleton. naive_solver. }
  case_bool_decide as Hc; simpl.
  - apply H2 in Hc as [Hf _]. split_and!; [| |done]; intros h; simpl; rewrite Hkey, Hkey'.
    + rewrite H1. split; [naive_solver|]. intros [[?| ->] ?]; [done|by destruct (Hn)].
    + rewrite elem_of_difference, not_elem_of_singleton, H2. naive_solver.
  - assert (Hnf : (false, Hash tx) ∉ keys) by (intros Hf; apply Hc, H2; done).
    unfold track_store. destruct (processingTxs t !! Hash tx) as [tx'|] eqn:E.
    { destruct (proj1 (H1 (Hash tx))) as [? _]; [by rewrite E|]. by destruct Hn. }
    split_and!; simpl.
    + intros h. rewrite Hkey, Hkey', lookup_insert_is_Some, H1.
      destruct (decide (Hash tx = h)) as [<-|]; naive_solver.
    + intros h. rewrite Hkey, Hkey', H2. split; [|naive_solver]. intros [? ?]. split; [done|].
      intros [?| ->]; [done|]. by destruct Hnf.
    + rewrite map_size_insert_None by done. lia.
Qed.

Lemma settled_remove keys t h0 : settled keys t → (false, h0) ∉ keys →
  settled (keys ++ [(false, h0)]) (run_call t (CallRemove h0)).
Proof.
  intros (H1 & H2 & H3) Hn. simpl. unfold RemoveTransaction, remove_load.
  assert (Hkey : ∀ h, (false, h) ∈ keys ++ [(false, h0)] ↔ (false, h) ∈ keys ∨ h = h0).
  { intros h. rewrite elem_of_app, list_elem_of_singleton. naive_solver. }
  assert (Hkey' : ∀ h, (true, h) ∈ keys ++ [(false, h0)] ↔ (true, h) ∈ keys).
  { intros h. rewrite elem_of_app, list_elem_of_singleton. naive_solver. }
  destruct (processingTxs t !! h0) as [tx|] eqn:E; simpl.
  - destruct (proj1 (H1 h0)) as [Ht _]; [by rewrite E|]. split_and!; simpl.
    + intros h. rewrite Hkey, Hkey', lookup_delete_is_Some, H1. naive_solver.
    + intros h. rewrite Hkey, Hkey', H2. split; [naive_solver|]. intros [[?| ->] ?]; done.
    + rewrite map_size_delete_Some by by rewrite E. assert (size (processingTxs t) ≠ 0%nat); [|lia].
      apply map_size_ne_0_lookup. by exists h0, tx.
  - assert (Hnt : (true, h0) ∉ keys).
    { intros Ht. destruct (proj2 (H1 h0)) as [? ?]; [done|]. congruence. }
    unfold remove_cache. split_and!; simpl; [| |done].
    + intros h. rewrite Hkey, Hkey', H1. split; [|naive_solver]. intros [? ?]. split; [done|].
      intros [?| ->]; done.
    + intros h. rewrite Hkey, Hkey', elem_of_union, elem_of_singleton, H2. naive_solver.
Qed.

(** The tracker ends the same in whatever order the pool and the ledger call it:
    when every transaction is tracked at most once and removed at most once, those
    tracked and not removed are left, a removal that comes first cancels the later
    tracking, and the counter is the number of the tracked ones. *)
Theorem tracker_settles (l : list tracker_call) :
  NoDup (call_key <$> l) →
  let t := run_calls NewTransactionTracker l in
  (∀ h, is_Some (processingTxs t !! h) ↔ (true, h) ∈ call_key <$> l ∧ (false, h) ∉ call_key <$> l) ∧
  (∀ h, h ∈ removedTxCache t ↔ (false, h) ∈ call_key <$> l ∧ (true, h) ∉ call_key <$> l) ∧
  processingCount t = Z.of_nat (size (processingTxs t)).
Proof.
  intros Hnd t. change (settled (call_key <$> l) t). unfold t, run_calls. clear t.
  induction l as [|c l IH] using rev_ind.
  { split_and!; simpl; [| |done]; intros h; rewrite elem_of_nil.
    - split; [by intros [? ?]|tauto].
    - split; [by intros ?%elem_of_empty|tauto]. }
  rewrite fmap_app, foldl_snoc in *. apply NoDup_app in Hnd as (Hnd & Hd & _). specialize (IH Hnd). simpl.
  assert (Hc : call_key c ∉ call_key <$> l) by (intros Hin; apply (Hd _ Hin); by left).
  destruct c as [tx|h]; [by apply settled_track|by apply settled_remove].
Qed.

End TrackerCorrect.

(** A removal between the two parts of a tracking leaves the transaction tracked,
    and its hash in the cache. *)
Theorem tracker_race :
  let tx := example_tx in let h := @Hash example_tx_env tx in
  let t := remove_cache h (snd (remove_load h NewTransactionTracker)) in
  let t' := @track_store example_tx_env tx t in
  bool_decide (h ∈ removedTxCache NewTransactionTracker) = false ∧
  tracker_GetTransaction t' h = Some tx ∧ h ∈ removedTxCache t' ∧ processingCount t' = 1.
Proof.
  cbv zeta. split_and!; vm_compute; reflexivity.
Qed.

(** Tracking a transaction whose sender has less than eight bytes panics, after
    it was stored. *)
Theorem short_sender_panics :
  let tx := mkTransaction 1 "bob" "carol" (Some 1) 0 "" 1 "" "" "" "" in
  let r := @TrackProcessingTransaction example_tx_env tx NewTransactionTracker in
  snd r = true ∧ processingCount (fst r) = 1.
Proof. split; vm_compute; reflexivity. Qed.

Lemma tracker_settles_witness :
  let h := @Hash example_tx_env example_tx in
  let t := @run_calls example_tx_env NewTransactionTracker [CallRemove h; CallTrack example_tx] in
  ¬ is_Some (processingTxs t !! h) ∧ h ∉ removedTxCache t ∧ processingCount t = 0.
Proof.
  intros h t.
  destruct (@tracker_settles example_tx_env [CallRemove h; CallTrack example_tx]) as (H1 & H2 & H3).
  - apply NoDup_cons. split; [|apply NoDup_singleton]. intros Hin. apply list_elem_of_singleton in Hin. discriminate Hin.
  - split_and!.
    + intros Ht. apply H1 in Ht as [_ Ht]. apply Ht. left.
    + intros Ht. apply H2 in Ht as [_ Ht]. apply Ht. right. left.
    + vm_compute. reflexivity.
Defined.

(** A subscriber with a channel of one gets the first of two events. *)
Definition one_slot : BusRun :=
  let eb := snd (Subscribe "a" (SetBuffer 1 NewEventBus)) in
  mkRun (Publish (HeartBeatEvent 1) eb) {[ "a" := [HeartBeatEvent 1] ]} {[ "a" := [] ]}.

Lemma bus_delivers_witness :
  ∃ s, subscribers (bus one_slot) !! "a" = Some s ∧ Channel s = [HeartBeatEvent 1] ∧
    ∃ s', subscribers (Publish (HeartBeatEvent 2) (bus one_slot)) !! "a" = Some s' ∧
      Channel s' = [HeartBeatEvent 1].
Proof.
  set (s := mkSubscriber [HeartBeatEvent 1] 1 false).
  assert (Hs : subscribers (bus one_slot) !! "a" = Some s) by (vm_compute; reflexivity).
  exists s. split; [exact Hs|]. split; [reflexivity|].
  destruct (bus_delivers one_slot (HeartBeatEvent 2) "a" s) as (_ & _ & _ & s' & H1 & H2).
  - eapply rtc_l; [apply (bs_buffer 1)|]. eapply rtc_l; [apply (bs_subscribe "a"); vm_compute; reflexivity|].
    eapply rtc_l; [apply (bs_publish (HeartBeatEvent 1))|].
    assert (E : ∀ r, r = one_slot → rtc bus_step r one_slot) by by intros r ->. apply E. vm_compute. reflexivity.
  - exact Hs.
  - vm_compute. reflexivity.
  - exists s'. split; [exact H1|exact H2].
Defined.
