(* ===== verification/Client.v ===== *)
(** * The client and the wire (client/, utils/convert.go)

    The transactions a client builds and signs, their protobuf messages, and what
    the server makes of them.  A protobuf message is a record of its fields; a nil
    message or amount that is dereferenced is [None].  Keys, decimal numbers and
    JSON are the operations of [WireEnv]. *)

From stdpp Require Import base list gmap strings.
From Stdlib Require Import ZArith Lia.
From S2P Require Import Prelude GoLib Transaction.

Open Scope string_scope.
Open Scope list_scope.
Open Scope Z_scope.

Class WireEnv := {
  (** [uint256.FromDecimal], and [jsonx.Marshal] of a [map[string]string] and of
      a [UserSig]. *)
  uint256_FromDecimal : string → option Z;
  json_of_extra : gmap string string → option string;
  json_of_UserSig : UserSig → option string;
  (** [ed25519.NewKeyFromSeed] and [ed25519.Sign]. *)
  NewKeyFromSeed : string → string;
  key_Sign : string → string → string;
}.

(** A private key is the seed and the public key. *)
Definition public_key (priv : string) : string := string_drop 32 priv.

Class WireEnvOk `(TE : TxEnv, WE : WireEnv) : Prop := {
  FromDecimal_String a : in_width 256 a → uint256_FromDecimal (uint256_String a) = Some a;
  FromDecimal_zero : uint256_FromDecimal "0" = Some 0;
  uint256_String_nonempty a : uint256_String a ≠ "";
  base58_roundtrip b : b ≠ "" → base58_Decode (base58_Encode b) = Some b;
  base58_Decode_empty : base58_Decode "" = None;
  base58_Encode_len b : string_len (base58_Encode b) ≤ 2 * string_len b + 1;
  public_key_len seed : string_len seed = 32 → string_len (public_key (NewKeyFromSeed seed)) = 32;
  ed25519_Verify_len pub m s : ed25519_Verify pub m s = true → string_len s = 64;
  key_Sign_len priv m : string_len (key_Sign priv m) = 64;
  key_Sign_ok seed m : string_len seed = 32 →
    ed25519_Verify (public_key (NewKeyFromSeed seed)) m (key_Sign (NewKeyFromSeed seed) m) = true;
  UserSig_roundtrip u v : json_of_UserSig u = Some v → json_to_UserSig v = Some u;
  (** The keys, the quotes and the base64 of the two fields. *)
  UserSig_len u v : json_of_UserSig u = Some v →
    0 < string_len v ≤ 64 + 2 * (string_len (PubKey u) + string_len (Sig u));
}.

(** ** client/types.go *)

Inductive ClientError := FromInvalid | RecipientInvalid | InvalidAmount | ExtraInfoError | UnsupportedKey | MarshalSig.

Record CTx := mkCTx {
  ctType : Z; ctSender : string; ctRecipient : string; ctAmount : option Z; ctTimestamp : Z;
  ctTextData : string; ctNonce : Z; ctExtraInfo : string; ctZkProof : string; ctZkPub : string;
}.

Record SignedTx := mkSignedTx { stTx : CTx; stSig : string }.

(** ** The messages *)

Record TxMsg := mkTxMsg {
  pType : Z; pSender : string; pRecipient : string; pAmount : string; pTimestamp : Z;
  pTextData : string; pNonce : Z; pExtraInfo : string; pZkProof : string; pZkPub : string;
}.

Record SignedTxMsg := mkSignedMsg { smTxMsg : option TxMsg; smSignature : string }.

Record GetAccountResponse := mkAccountResponse {
  arAddress : string; arBalance : string; arNonce : Z; arDecimals : Z;
}.

Record ClientAccount := mkClientAccount { caAddress : string; caBalance : option Z; caNonce : Z }.

(** The conversion of a Go [int] to [int32]. *)
Definition to_int32 (n : Z) : Z := wrap 32 (n + 2 ^ 31) - 2 ^ 31.

Section Wire.
Context `{TE : TxEnv, ZE : ZkEnv, WE : WireEnv}.

Definition client_ValidateAddress (addr : string) : bool :=
  match base58_Decode addr with
  | Some decoded => string_len decoded =? 32
  | None => false
  end.

Definition SerializeTxExtraInfo (data : option (gmap string string)) : option string :=
  match data with None => Some "" | Some m => json_of_extra m end.

Definition BuildTransferTx (txType : Z) (sender recipient : string) (amount : option Z) (nonce ts : Z)
    (textData : string) (extraInfo : option (gmap string string)) (zkProof zkPub : string)
    : result ClientError CTx :=
  if negb (client_ValidateAddress sender) then Err FromInvalid
  else if negb (client_ValidateAddress recipient) then Err RecipientInvalid
  else if match amount with None => true | Some a => a =? 0 end && negb (txType =? TxTypeUserContent)
  then Err InvalidAmount
  else match SerializeTxExtraInfo extraInfo with
       | None => Err ExtraInfoError
       | Some extra => Ok (mkCTx txType sender recipient amount ts textData nonce extra zkProof zkPub)
       end.

(** ** client/crypto.go *)

(** A nil amount is dereferenced. *)
Definition client_Serialize (tx : CTx) : option string :=
  amount ← ctAmount tx;
  Some (fmt_d (ctType tx) +:+ "|" +:+ ctSender tx +:+ "|" +:+ ctRecipient tx +:+ "|" +:+
        uint256_String amount +:+ "|" +:+ ctTextData tx +:+ "|" +:+ fmt_d (ctNonce tx) +:+ "|" +:+
        ctExtraInfo tx).

Definition SignTx (tx : CTx) (pubKey privKey : string) : option (result ClientError SignedTx) :=
  if negb (string_len privKey =? 32) then Some (Err UnsupportedKey)
  else
    let privKey := NewKeyFromSeed privKey in
    txHash ← client_Serialize tx;
    let signature := key_Sign privKey txHash in
    Some (if ctType tx =? TxTypeTransferByKey then Ok (mkSignedTx tx (base58_Encode signature))
          else match json_of_UserSig (mkUserSig pubKey signature) with
               | None => Err MarshalSig
               | Some userSigBytes => Ok (mkSignedTx tx (base58_Encode userSigBytes))
               end).

Definition client_Verify (tx : CTx) (sig : string) : option bool :=
  txHash ← client_Serialize tx;
  Some (if ctType tx =? TxTypeTransferByKey then
          match base58_Decode (ctSender tx) with
          | None => false
          | Some decoded =>
              if negb (string_len decoded =? PublicKeySize) then false
              else match base58_Decode sig with
                   | None => false
                   | Some signature =>
                       if negb (string_len signature =? SignatureSize) then false
                       else ed25519_Verify decoded txHash signature
                   end
          end
        else
          match base58_Decode sig with
          | None => false
          | Some sigBytes =>
              match json_to_UserSig sigBytes with
              | None => false
              | Some u =>
                  if negb (string_len (PubKey u) =? PublicKeySize) || negb (string_len (Sig u) =? SignatureSize)
                  then false else ed25519_Verify (PubKey u) txHash (Sig u)
              end
          end).

(** ** utils/convert.go *)

Definition Uint256ToString (value : option Z) : string := uint256ToString value.

Definition Uint256FromString (value : string) : option Z :=
  if bool_decide (value = "") then Some 0 else uint256_FromDecimal value.

(** The outer [None] is the nil message, the inner error the amount. *)
Definition FromProtoSignedTx (pbTx : SignedTxMsg) : option (result unit Transaction) :=
  m ← smTxMsg pbTx;
  Some (match (if bool_decide (pAmount m = "") then Some 0 else uint256_FromDecimal (pAmount m)) with
        | None => Err tt
        | Some amount =>
            Ok (mkTransaction (pType m) (pSender m) (pRecipient m) (Some amount) (pTimestamp m) (pTextData m)
                  (pNonce m) (smSignature pbTx) (pExtraInfo m) (pZkProof m) (pZkPub m))
        end).

(** ** client/convert.go *)

Definition client_ToProtoTx (tx : CTx) : TxMsg :=
  mkTxMsg (to_int32 (ctType tx)) (ctSender tx) (ctRecipient tx) (Uint256ToString (ctAmount tx)) (ctTimestamp tx)
    (ctTextData tx) (ctNonce tx) (ctExtraInfo tx) (ctZkProof tx) (ctZkPub tx).

Definition ToProtoSigTx (tx : SignedTx) : SignedTxMsg :=
  mkSignedMsg (Some (client_ToProtoTx (stTx tx))) (stSig tx).

Definition FromProtoAccount (acc : GetAccountResponse) : ClientAccount :=
  mkClientAccount (arAddress acc) (Uint256FromString (arBalance acc)) (arNonce acc).

(** ** Signed transactions arrive *)

(** The time the server puts in. *)
Definition with_timestamp (ts : Z) (tx : Transaction) : Transaction :=
  mkTransaction (Type_ tx) (Sender tx) (Recipient tx) (Amount tx) ts (TextData tx) (Nonce tx)
    (Signature tx) (ExtraInfo tx) (ZkProof tx) (ZkPub tx).

Lemma to_int32_small n : - 2 ^ 31 ≤ n < 2 ^ 31 → to_int32 n = n.
Proof. intros Hn. unfold to_int32. rewrite wrap_small by (unfold in_width; lia). lia. Qed.

Context `{WO : !WireEnvOk TE WE}.

Lemma Uint256_roundtrip a : in_width 256 a → Uint256FromString (uint256_String a) = Some a.
Proof.
  intros Ha. unfold Uint256FromString. rewrite bool_decide_false by apply uint256_String_nonempty.
  by apply FromDecimal_String.
Qed.

(** The transaction the server gets has all the fields, and is serialized as by
    the client. *)
Lemma wire_transaction (tx : CTx) (sig : string) (a : Z) :
  - 2 ^ 31 ≤ ctType tx < 2 ^ 31 → ctAmount tx = Some a → in_width 256 a →
  ∃ t, FromProtoSignedTx (ToProtoSigTx (mkSignedTx tx sig)) = Some (Ok t) ∧
    t = mkTransaction (ctType tx) (ctSender tx) (ctRecipient tx) (Some a) (ctTimestamp tx) (ctTextData tx)
          (ctNonce tx) sig (ctExtraInfo tx) (ctZkProof tx) (ctZkPub tx) ∧
    ∀ ts, client_Serialize tx = Some (Serialize (with_timestamp ts t)).
Proof.
  intros Ht Ha Hw. eexists. split_and!; [|reflexivity|].
  - unfold FromProtoSignedTx, ToProtoSigTx, client_ToProtoTx. simpl. rewrite Ha, to_int32_small by done. simpl.
    rewrite bool_decide_false by apply uint256_String_nonempty. by rewrite FromDecimal_String.
  - intros ts. unfold client_Serialize. rewrite Ha. done.
Qed.

(** An encoded signature passes the checks of its size. *)
Lemma encoded_signature b : string_len b ≤ 1000 → b ≠ "" →
  bool_decide (base58_Encode b = "") = false ∧
  (maxSignatureBase58Len <? string_len (base58_Encode b)) = false ∧
  DecodeBase58ToBytes (base58_Encode b) = Some b ∧ (maxSignatureDecodedLen <? string_len b) = false.
Proof.
  intros Hl Hn. pose proof (base58_Encode_len b). unfold maxSignatureBase58Len, maxSignatureDecodedLen, DecodeBase58ToBytes.
  split_and!; [|apply Z.ltb_ge; lia|by apply base58_roundtrip|apply Z.ltb_ge; lia].
  apply bool_decide_eq_false. intros E. pose proof (base58_roundtrip b Hn) as Hr. rewrite E, base58_Decode_empty in Hr. done.
Qed.

(** What the key of the sender signed verifies. *)
Lemma signed_by_key_verifies (t : Transaction) (seed : string) (zk : option Cache) :
  string_len seed = 32 → Type_ t = TxTypeTransferByKey →
  Sender t = base58_Encode (public_key (NewKeyFromSeed seed)) →
  Signature t = base58_Encode (key_Sign (NewKeyFromSeed seed) (Serialize t)) → Verify zk t = (true, zk).
Proof.
  intros El Hk Hsnd Hsig. pose proof (key_Sign_len (NewKeyFromSeed seed) (Serialize t)) as Hsl.
  pose proof (key_Sign_ok seed (Serialize t) El) as Hok. pose proof (public_key_len seed El) as Hpl.
  set (sg := key_Sign (NewKeyFromSeed seed) (Serialize t)) in *.
  destruct (encoded_signature sg) as (E1 & E2 & E3 & E4); [lia|intros E0; by rewrite E0 in Hsl|].
  unfold Verify. rewrite Hsig, E1, E2, E3, E4, (proj2 (Z.eqb_eq _ _) Hk), Hsnd.
  unfold base58ToEd25519, DecodeBase58ToBytes.
  rewrite base58_roundtrip, Hpl by (intros E0; by rewrite E0 in Hpl). simpl. by rewrite Hok.
Qed.

(** [C19] What a client signs with the key of the sender, the server accepts.  Let
    [SignTx] sign a transaction with a seed, the amount being a 256-bit number and
    the type an [int32].  Its message decodes to a transaction with the same
    fields, of which the server computes the bytes the client signed, whatever time
    it puts in.  If it is a transfer by key and the sender is the address of the
    public key of the seed, its verification succeeds; otherwise, if the public key
    is the one of the seed and there are proof fields of a legal size, the
    verification is that of the zero-knowledge proof. *)
Theorem client_signature_accepted (tx : CTx) (pubKey seed : string) (a ts : Z) (stx : SignedTx) (cache : Cache) :
  - 2 ^ 31 ≤ ctType tx < 2 ^ 31 → ctAmount tx = Some a → in_width 256 a →
  SignTx tx pubKey seed = Some (Ok stx) →
  ∃ t, FromProtoSignedTx (ToProtoSigTx stx) = Some (Ok t) ∧
    client_Serialize tx = Some (Serialize (with_timestamp ts t)) ∧
    (ctType tx = TxTypeTransferByKey → ctSender tx = base58_Encode (public_key (NewKeyFromSeed seed)) →
     ∀ zk, Verify zk (with_timestamp ts t) = (true, zk)) ∧
    (ctType tx ≠ TxTypeTransferByKey → pubKey = public_key (NewKeyFromSeed seed) →
     0 < string_len (ctZkProof tx) ≤ 1024 → 0 < string_len (ctZkPub tx) ≤ 1024 →
     Verify (Some cache) (with_timestamp ts t) =
       let '(ok, cache) := Zk_Verify cache (ctSender tx) (base58_Encode pubKey) (ctZkProof tx) (ctZkPub tx) in
       (ok, Some cache)).
Proof.
  intros Ht Ha Hw. unfold SignTx. destruct (string_len seed =? 32) eqn:El; [|done]. apply Z.eqb_eq in El.
  cbn [negb]. destruct (wire_transaction tx (stSig stx) a Ht Ha Hw) as (t & Hf & Et & Hs).
  rewrite (Hs ts). cbn [mbind option_bind]. set (ser := Serialize (with_timestamp ts t)).
  set (sg := key_Sign (NewKeyFromSeed seed) ser). pose proof (key_Sign_len (NewKeyFromSeed seed) ser) as Hsl.
  fold sg in Hsl. pose proof (key_Sign_ok seed ser El) as Hok. fold sg in Hok.
  pose proof (public_key_len seed El) as Hpl. intros E.
  assert (Hstx : stx = mkSignedTx tx (stSig stx)).
  { destruct (ctType tx =? TxTypeTransferByKey); [by injection E as <-|].
    destruct (json_of_UserSig _); [by injection E as <-|done]. }
  assert (F : let t' := with_timestamp ts t in Signature t' = stSig stx ∧ Type_ t' = ctType tx ∧
    Sender t' = ctSender tx ∧ ZkProof t' = ctZkProof tx ∧ ZkPub t' = ctZkPub tx) by by rewrite Et.
  destruct F as (F1 & F2 & F3 & F4 & F5).
  exists t. rewrite Hstx. split; [done|]. split; [done|]. split.
  - intros Hk Hsnd zk. rewrite (proj2 (Z.eqb_eq _ _) Hk) in E.
    apply (signed_by_key_verifies _ seed); [done|by rewrite F2|by rewrite F3|]. rewrite F1. by injection E as <-.
  - intros Hk -> Hp1 Hp2. rewrite (proj2 (Z.eqb_neq _ _) Hk) in E.
    destruct (json_of_UserSig _) as [v|] eqn:Ej; [|done]. pose proof (UserSig_len _ _ Ej) as Hvl. simpl in Hvl.
    destruct (encoded_signature v) as (E1 & E2 & E3 & E4); [lia| |].
    { intros ->. change (string_len "") with 0 in Hvl. lia. }
    assert (Hsig : stSig stx = base58_Encode v) by by injection E as <-.
    unfold Verify. fold ser. rewrite F1, F2, F3, F4, F5, Hsig.
    rewrite E1, E2, E3, E4, (proj2 (Z.eqb_neq _ _) Hk).
    assert (Hne : ∀ s, 0 < string_len s → bool_decide (s = "") = false).
    { intros s Hs'. apply bool_decide_eq_false. intros ->. change (string_len "") with 0 in Hs'. lia. }
    rewrite !Hne by lia. unfold maxZkProofLen, maxZkPubLen. rewrite !(proj2 (Z.ltb_ge _ _)) by lia. simpl orb.
    rewrite (UserSig_roundtrip _ _ Ej). simpl PubKey. simpl Sig. rewrite Hsl, Hpl. simpl. rewrite Hok. done.
Qed.

(** The client and the server agree on transfers by key: the server's
    verification of a transfer that arrives from a client is the client's own,
    except that the server refuses signatures of more than 2048 characters. *)
Theorem client_verify_agrees (tx : CTx) (sig : string) (a ts : Z) (zk : option Cache) :
  ctType tx = TxTypeTransferByKey → ctAmount tx = Some a → in_width 256 a →
  ∃ t b, FromProtoSignedTx (ToProtoSigTx (mkSignedTx tx sig)) = Some (Ok t) ∧ client_Verify tx sig = Some b ∧
    Verify zk (with_timestamp ts t) = ((string_len sig <=? maxSignatureBase58Len) && b, zk).
Proof.
  intros Ht Ha Hw. destruct (wire_transaction tx sig a) as (t & Hf & Et & Hs);
    [rewrite Ht; unfold TxTypeTransferByKey; lia|done|done|].
  unfold client_Verify. rewrite (Hs ts), Ht. cbn [mbind option_bind].
  change (TxTypeTransferByKey =? TxTypeTransferByKey) with true. cbv iota.
  exists t. eexists. split; [done|]. split; [reflexivity|]. unfold Verify. set (ser := Serialize (with_timestamp ts t)).
  assert (F : let t' := with_timestamp ts t in Signature t' = sig ∧ Type_ t' = TxTypeTransferByKey ∧ Sender t' = ctSender tx)
    by (rewrite Et, <- Ht; done). destruct F as (-> & -> & ->).
  unfold base58ToEd25519, DecodeBase58ToBytes. rewrite Z.leb_antisym.
  case_bool_decide as Es; [subst sig; rewrite base58_Decode_empty; destruct (base58_Decode (ctSender tx)) as [d|];
    [destruct (negb (string_len d =? PublicKeySize))|]; by rewrite andb_false_r|].
  destruct (maxSignatureBase58Len <? string_len sig); [done|]. cbn [negb andb].
  destruct (base58_Decode sig) as [sg|]; [|destruct (base58_Decode (ctSender tx)) as [d|]; [by destruct (negb (string_len d =? PublicKeySize))|done]].
  unfold SignatureSize. change (TxTypeTransferByKey =? TxTypeTransferByKey) with true. cbv iota.
  destruct (base58_Decode (ctSender tx)) as [d|]; [|by destruct (maxSignatureDecodedLen <? string_len sg)].
  destruct (string_len d =? PublicKeySize); simpl; [|by destruct (maxSignatureDecodedLen <? string_len sg)].
  destruct (string_len sg =? 64) eqn:El; simpl.
  - apply Z.eqb_eq in El. by rewrite El.
  - destruct (ed25519_Verify d ser sg) eqn:Ev; [|by destruct (maxSignatureDecodedLen <? string_len sg)].
    apply ed25519_Verify_len in Ev. blia.
Qed.
End Wire.

(** A user content without an amount can be built and not be signed: the client
    dereferences the nil amount, which the server would print as zero. *)
Theorem content_without_amount_unsigned `{TE : TxEnv, WE : WireEnv} (addr seed pubKey : string) (nonce ts : Z) :
  client_ValidateAddress addr = true → string_len seed = 32 →
  ∃ tx, BuildTransferTx TxTypeUserContent addr addr None nonce ts "" None "" "" = Ok tx ∧
    SignTx tx pubKey seed = None.
Proof.
  intros Ha Hs. unfold BuildTransferTx. rewrite Ha. eexists. split; [reflexivity|]. unfold SignTx. by rewrite Hs.
Qed.

(** ** A concrete wire *)

(** The first bytes, padded with zeros. *)
Fixpoint fix_len (n : nat) (s : string) : string :=
  match n, s with
  | O, _ => ""
  | S n', String c s' => String c (fix_len n' s')
  | S n', EmptyString => String (to_byte 0) (fix_len n' "")
  end.

Lemma fix_len_length n s : String.length (fix_len n s) = n.
Proof. revert s. induction n as [|n IH]; intros [|c s]; simpl; [done..| |]; by rewrite IH. Qed.

Lemma substring_all s : String.substring 0 (String.length s) s = s.
Proof. induction s as [|c s IH]; simpl; [done|]. by rewrite IH. Qed.

Lemma string_drop_app a b : string_drop (String.length a) (a +:+ b) = b.
Proof.
  unfold string_drop. induction a as [|c a IH]; simpl; [|by apply IH].
  rewrite Nat.sub_0_r. apply substring_all.
Qed.

Lemma substring_app a b : String.substring 0 (String.length a) (a +:+ b) = a.
Proof. induction a as [|c a IH]; simpl; [by destruct b|]. by rewrite IH. Qed.

Lemma string_length_app a b : String.length (a +:+ b) = (String.length a + String.length b)%nat.
Proof. induction a as [|c a IH]; simpl; [done|]. by rewrite IH. Qed.

Lemma hex_len s : String.length (hex_EncodeToString s) = (2 * String.length s)%nat.
Proof. induction s as [|c s IH]; [done|]. cbn [hex_EncodeToString String.length]. rewrite IH. lia. Qed.

Definition wire_tx_env : TxEnv := {|
  uint256_String a := "0" +:+ hex_EncodeToString (be_bytes 32 a);
  base58_Decode s := if bool_decide (s = "") then None else hex_DecodeString s;
  base58_Encode := hex_EncodeToString;
  ed25519_Verify pub m s := bool_decide (s = fix_len 32 pub +:+ fix_len 32 m);
  sha256_Sum256 s := be_bytes 2 (string_len s);
  edwards25519_SetBytes _ := true;
  json_of_tx tx := Some (fmt_d (Type_ tx) +:+ Sender tx +:+ Recipient tx +:+ fmt_d (Nonce tx));
  json_to_UserSig s := Some (mkUserSig (String.substring 0 32 s) (string_drop 32 s));
|}.

Definition wire_env : WireEnv := {|
  uint256_FromDecimal s :=
    match hex_DecodeString (string_drop 1 s) with Some b => Some (be_value 0 b) | None => None end;
  json_of_extra _ := Some "{}";
  json_of_UserSig u :=
    if (String.length (PubKey u) =? 32)%nat then Some (PubKey u +:+ Sig u) else None;
  NewKeyFromSeed seed := seed +:+ seed;
  key_Sign priv m := fix_len 32 (public_key priv) +:+ fix_len 32 m;
|}.

#[export] Instance wire_env_ok : WireEnvOk wire_tx_env wire_env.
Proof.
  assert (Hlen : ∀ s, string_len s = 32 → String.length s = 32%nat) by (unfold string_len; lia).
  assert (H64 : ∀ a b, string_len (fix_len 32 a +:+ fix_len 32 b) = 64).
  { intros a b. unfold string_len. rewrite string_length_app, !fix_len_length. done. }
  split.
  - intros a Ha. change (match hex_DecodeString (string_drop 1 ("0" +:+ hex_EncodeToString (be_bytes 32 a))) with
      Some b => Some (be_value 0 b) | None => None end = Some a).
    pose proof (string_drop_app "0" (hex_EncodeToString (be_bytes 32 a))) as E. change (String.length "0") with 1%nat in E.
    rewrite E, hex_roundtrip, be_value_bytes. f_equal. rewrite Z.mul_0_l, Z.add_0_l. by apply Z.mod_small.
  - done.
  - done.
  - intros b Hb. cbn. rewrite bool_decide_false by (by destruct b). apply hex_roundtrip.
  - done.
  - intros b. cbn. unfold string_len. rewrite hex_len. lia.
  - intros seed Hs. pose proof (string_drop_app seed seed) as E. rewrite (Hlen seed Hs) in E.
    change (string_len (string_drop 32 (seed +:+ seed)) = 32). by rewrite E.
  - intros pub m s. cbn. rewrite bool_decide_eq_true. intros ->. apply H64.
  - intros priv m. apply H64.
  - intros seed m Hs. apply bool_decide_true. reflexivity.
  - intros [pk sg] v. cbn. destruct (String.length pk =? 32)%nat eqn:E; [|done]. apply Nat.eqb_eq in E.
    intros [= <-]. pose proof (string_drop_app pk sg) as Hd. pose proof (substring_app pk sg) as Hs.
    rewrite E in Hd, Hs. by rewrite Hd, Hs.
  - intros [pk sg] v. cbn. destruct (String.length pk =? 32)%nat eqn:E; [|done]. apply Nat.eqb_eq in E.
    intros [= <-]. unfold string_len. rewrite string_length_app, E. lia.
Qed.

Definition wire_seed : string := fix_len 32 "seed".
Definition wire_transfer : CTx :=
  mkCTx TxTypeTransferByKey (hex_EncodeToString wire_seed) "bob" (Some 7) 1 "memo" 5 "" "" "".
Definition wire_signed : SignedTx :=
  mkSignedTx wire_transfer (hex_EncodeToString (fix_len 32 wire_seed +:+
    fix_len 32 (default "" (@client_Serialize wire_tx_env wire_transfer)))).

Lemma client_signature_accepted_witness :
  ∃ t, @FromProtoSignedTx wire_env (@ToProtoSigTx wire_tx_env wire_signed) = Some (Ok t) ∧
    @Verify wire_tx_env example_zk_env None (with_timestamp 99 t) = (true, None).
Proof.
  destruct (@client_signature_accepted wire_tx_env example_zk_env wire_env wire_env_ok wire_transfer wire_seed
    wire_seed 7 99 wire_signed []) as (t & H1 & _ & H2 & _).
  - unfold wire_transfer, TxTypeTransferByKey. simpl. lia.
  - reflexivity.
  - unfold in_width. lia.
  - vm_compute. reflexivity.
  - exists t. split; [exact H1|]. apply H2; [reflexivity|]. vm_compute. reflexivity.
Defined.

Lemma client_verify_agrees_witness :
  ∃ t b, @FromProtoSignedTx wire_env (@ToProtoSigTx wire_tx_env wire_signed) = Some (Ok t) ∧
    @client_Verify wire_tx_env wire_transfer (stSig wire_signed) = Some b ∧
    @Verify wire_tx_env example_zk_env None (with_timestamp 99 t) =
      ((string_len (stSig wire_signed) <=? maxSignatureBase58Len) && b, None).
Proof.
  refine (@client_verify_agrees wire_tx_env example_zk_env wire_env wire_env_ok wire_transfer (stSig wire_signed)
    7 99 None _ _ _).
  - reflexivity.
  - reflexivity.
  - unfold in_width. lia.
Defined.
