(* ===== verification/Service.v ===== *)
(** * The services (service/, network/server_grpc.go)

    What a client of the gRPC server can ask: adding a transaction, its status,
    accounts and nonces, and blocks.  A [Server] has the node, the tracker, and the
    two limiters.  The checks of texts use a Unicode normal form and a regular
    expression, which are [TextEnv].  [None] is a panic: a nil message, or a write
    to a nil map. *)

From stdpp Require Import base list gmap strings.
From Stdlib Require Import ZArith Lia.
From S2P Require Import Prelude GoLib Transaction Poh Schedule Consensus Block Store BlockStore Ledger.
From S2P Require Import Mempool Node Limits Events Client.

Open Scope string_scope.
Open Scope list_scope.
Open Scope Z_scope.

Class TextEnv := {
  (** [utf8.RuneCountInString] and [InjectionRegexp.MatchString] of the normal
      form. *)
  nfc_runes : string → Z;
  nfc_injection : string → bool;
  (** [encoding/json] on a [map[string]string], which is nil for [null]. *)
  json_to_map : string → option (option (gmap string string));
  json_of_map : gmap string string → string;
}.

Definition MaxShortTextLength : Z := 128.
Definition MaxLongTextLength : Z := 5120.

(** ** The messages *)

Inductive TransactionStatus := PENDING | CONFIRMED | FINALIZED | FAILED.

Definition TxMetaStatusToProtoTxStatus (status : Z) : TransactionStatus :=
  if status =? TxStatusFailed then FAILED
  else if status =? TxStatusSuccess then FINALIZED
  else if status =? TxStatusProcessed then CONFIRMED
  else PENDING.

Record TxInfo := mkTxInfo {
  tiSender : string; tiRecipient : string; tiAmount : string; tiTimestamp : Z; tiTextData : string;
  tiNonce : Z; tiSlot : Z; tiBlockhash : string; tiStatus : TransactionStatus; tiErrMsg : string;
  tiExtraInfo : string; tiTxHash : string;
}.

Record TransactionData := mkTxData {
  tdTxHash : string; tdSender : string; tdRecipient : string; tdAmount : string; tdNonce : Z;
  tdTimestamp : Z; tdStatus : TransactionStatus; tdTextData : string; tdExtraInfo : string; tdType : Z;
}.

(** The core has the slot, the hashes, the leader, the time and the signature. *)
Record BlockInfo := mkBlockInfo { biCore : BlockCore; biTransactions : list TransactionData }.

Record StatusInfo := mkStatusInfo {
  siTxHash : string; siStatus : TransactionStatus; siBlockSlot : Z; siBlockHash : string; siConfirmations : Z;
  siErrorMessage : string; siExtraInfo : string; siAmount : string; siTextData : string; siSender : string;
  siRecipient : string;
}.

Inductive ServiceError :=
| InvalidTx | TxRejected (e : MempoolError) | TooManyContents | InvalidField | TransactionNotFound
| LedgerError (e : StoreError) | InvalidTag | BlockNotFound (slot : Z) | InvalidRange | RangeTooLarge.

Section Service.
Context `{TE : TxEnv, ZE : ZkEnv, SC : StoreCodec, CC : ContentCodec, DC : DedupCache, WE : WireEnv}.
Context `{LI : LimiterImpl, XE : TextEnv}.

Record Server := mkServer {
  srvNode : Node; srvTracker : option TransactionTracker; srvLimits : GlobalRateLimiter;
  srvContents : RateLimiter; decimals : Z;
}.

Definition with_node (n : Node) (sv : Server) : Server :=
  mkServer n (srvTracker sv) (srvLimits sv) (srvContents sv) (decimals sv).
Definition with_limits (g : GlobalRateLimiter) (sv : Server) : Server :=
  mkServer (srvNode sv) (srvTracker sv) g (srvContents sv) (decimals sv).
Definition with_contents (r : RateLimiter) (sv : Server) : Server :=
  mkServer (srvNode sv) (srvTracker sv) (srvLimits sv) r (decimals sv).
Definition with_storage (s : Storage) (sv : Server) : Server := with_node (set_storage s (srvNode sv)) sv.

(** ** ledger.go: transactions *)

Definition ledger_GetTxByHash (hash : string) (s : Storage)
    : result StoreError (Transaction * TransactionMeta) * Storage :=
  let '(tx, s) := tx_GetByHash hash s in
  let '(meta, s) := meta_GetByHash hash s in
  (match tx, meta with
   | Ok tx, Ok meta => Ok (tx, meta)
   | Err e, _ | _, Err e => Err e
   end, s).

Definition ledger_GetTxBatch (hashes : list string) (s : Storage)
    : result StoreError (list Transaction * gmap string TransactionMeta) * Storage :=
  if bool_decide (hashes = []) then (Ok ([], ∅), s)
  else
    let '(txs, s) := tx_GetBatch hashes s in
    let '(metas, s) := meta_GetBatch hashes s in
    (match txs, metas with
     | Ok txs, Ok metas => Ok (txs, metas)
     | Err e, _ | _, Err e => Err e
     end, s).

(** ** tx_service.go *)

(** [now] is the time in milliseconds; the wallet's request is counted by a
    goroutine, here at once. *)
Definition svc_AddTx (msg : SignedTxMsg) (now : Z) (sv : Server) : option (result ServiceError string * Server) :=
  tx ← FromProtoSignedTx msg;
  match tx with
  | Err _ => Some (Err InvalidTx, sv)
  | Ok tx =>
      let tx := with_timestamp now tx in
      let n := srvNode sv in
      r ← AddTx (hasRouter n) true (mp n) (zkVerify n) (dedupCache n) tx true (storage n);
      let sv := with_node (set_storage (add_storage r) (set_zk (add_zk r) (set_mp (add_mempool r) n))) sv in
      Some (match add_result r with
            | Err e => (Err (TxRejected e), sv)
            | Ok txHash =>
                let g := srvLimits sv in
                (Ok txHash,
                 with_limits (mkGlobal (ipLimiter g)
                   (TrackWalletRequest (now * 10 ^ 6) (Sender tx) (abuseDetector g))) sv)
            end)
  end.

Definition tx_info (tx : Transaction) (h : string) (slot : Z) (blockhash : string) (status : TransactionStatus)
    (err : string) : TxInfo :=
  mkTxInfo (Sender tx) (Recipient tx) (Uint256ToString (Amount tx)) (Timestamp tx) (TextData tx) (Nonce tx)
    slot blockhash status err (ExtraInfo tx) h.

Definition svc_GetTxByHash (txHash : string) (sv : Server) : result ServiceError TxInfo * Server :=
  match GetTransaction (mp (srvNode sv)) txHash with
  | Some tx => (Ok (tx_info tx txHash 0 "" PENDING ""), sv)
  | None =>
      match (t ← srvTracker sv; tracker_GetTransaction t txHash) with
      | Some tx => (Ok (tx_info tx txHash 0 "" PENDING ""), sv)
      | None =>
          let '(r, s) := ledger_GetTxByHash txHash (storage (srvNode sv)) in
          (match r with
           | Err _ => Err TransactionNotFound
           | Ok (tx, meta) =>
               Ok (tx_info tx txHash (mSlot meta) (mBlockHash meta) (TxMetaStatusToProtoTxStatus (mStatus meta))
                     (mError meta))
           end, with_storage s sv)
      end
  end.

Definition tx_data (h : string) (tx : Transaction) (status : TransactionStatus) (text extra : string) : TransactionData :=
  mkTxData h (Sender tx) (Recipient tx) (Uint256ToString (Amount tx)) (Nonce tx) (Timestamp tx) status text extra
    (Type_ tx).

Definition svc_GetPendingTransactions (sv : Server) : Z * list TransactionData :=
  let m := mp (srvNode sv) in
  let orderedTxHashes := GetOrderedTransactions m in
  (Z.of_nat (length orderedTxHashes),
   omap (λ h, tx ← GetTransaction m h; Some (tx_data h tx PENDING "" "")) orderedTxHashes).

(** ** account_service.go *)

Definition svc_GetAccount (addr : string) (sv : Server) : result ServiceError GetAccountResponse * Server :=
  let '(acc, s) := GetAccount addr (storage (srvNode sv)) in
  (match acc with
   | Err e => Err (LedgerError e)
   | Ok None => Ok (mkAccountResponse addr "0" 0 (decimals sv))
   | Ok (Some acc) => Ok (mkAccountResponse addr (Uint256ToString (Some (Balance acc))) (aNonce acc) (decimals sv))
   end, with_storage s sv).

Definition svc_GetCurrentNonce (addr tag : string) (sv : Server) : result ServiceError Z :=
  if negb (bool_decide (tag = "latest")) && negb (bool_decide (tag = "pending")) then Err InvalidTag
  else Ok (u64_sub (GetLatestFinalizedSlot (storage (srvNode sv))) 1).

(** ** server_grpc.go: transactions and accounts *)

Definition ValidateShortTextLength (value : string) : bool := nfc_runes value <=? MaxShortTextLength.
Definition ValidateLongTextLength (value : string) : bool :=
  (nfc_runes value <=? MaxLongTextLength) && negb (nfc_injection value).

(** [ip] is the address of the client. *)
Definition grpc_AddTx (msg : SignedTxMsg) (ip : string) (now : Z) (sv : Server)
    : option (result ServiceError string * Server) :=
  m ← smTxMsg msg;
  '(allowed, sv) ← (if pType m =? TxTypeUserContent
                    then '(ok, l) ← IsAllowed (now * 10 ^ 6) ip (srvContents sv); Some (ok, with_contents l sv)
                    else Some (true, sv));
  if negb allowed then Some (Err TooManyContents, sv)
  else if negb (forallb ValidateShortTextLength [pSender m; pRecipient m; pAmount m]) ||
          negb (forallb ValidateLongTextLength [pTextData m; pExtraInfo m; pZkProof m; pZkPub m; smSignature msg])
  then Some (Err InvalidField, sv)
  else svc_AddTx msg now sv.

Definition grpc_GetAccount (addr : string) (sv : Server) : result ServiceError GetAccountResponse * Server :=
  if negb (ValidateShortTextLength addr) then (Err InvalidField, sv) else svc_GetAccount addr sv.

Definition grpc_GetCurrentNonce (addr tag : string) (sv : Server) : result ServiceError Z :=
  if negb (ValidateShortTextLength addr) then Err InvalidField else svc_GetCurrentNonce addr tag sv.

Definition grpc_GetTxByHash (txHash : string) (sv : Server) : result ServiceError TxInfo * Server :=
  if negb (ValidateShortTextLength txHash) then (Err InvalidField, sv) else svc_GetTxByHash txHash sv.

Definition GetBlockNumber (sv : Server) : Z := GetLatestFinalizedSlot (storage (srvNode sv)).

(** ** server_grpc.go: blocks *)

Definition all_hashes (b : Block) : list string := concat (TxHashes <$> blk_Entries b).

Definition tx_map (txs : list Transaction) : gmap string Transaction :=
  foldl (λ m tx, <[Hash tx := tx]> m) ∅ txs.

(** The data of a transaction, if it and its meta were found. *)
Definition found_tx (txMap : gmap string Transaction) (metas : gmap string TransactionMeta) (h : string)
    : option TransactionData :=
  tx ← txMap !! h; meta ← metas !! h;
  Some (tx_data h tx (TxMetaStatusToProtoTxStatus (mStatus meta)) (TextData tx) (ExtraInfo tx)).

Definition GetBlockByNumber (numbers : list Z) (s : Storage) : result ServiceError (list BlockInfo) * Storage :=
  if bool_decide (numbers = []) then (Ok [], s)
  else
    match block_GetBatch numbers s with
    | (Err e, s) => (Err (LedgerError e), s)
    | (Ok blockMap, s) =>
        match head (filter (λ slot, blockMap !! slot = None) numbers) with
        | Some slot => (Err (BlockNotFound slot), s)
        | None =>
            let blocks := omap (λ slot, blockMap !! slot) numbers in
            let '(r, s) := ledger_GetTxBatch (concat (all_hashes <$> blocks)) s in
            match r with
            | Err e => (Err (LedgerError e), s)
            | Ok (txs, metas) =>
                (match mapM (λ b, l ← mapM (found_tx (tx_map txs) metas) (all_hashes b);
                                  Some (mkBlockInfo (blk_core b) l)) blocks with
                 | None => Err TransactionNotFound
                 | Some l => Ok l
                 end, s)
            end
        end
    end.

(** The slots of a range: [slot] counts on 64 bits.  [None]: the loop did not end
    within [fuel] rounds. *)
Fixpoint range_slots (fuel : nat) (slot toSlot : Z) : option (list Z) :=
  match fuel with
  | O => None
  | S fuel' =>
      if slot <=? toSlot then l ← range_slots fuel' (u64_add slot 1) toSlot; Some (slot :: l) else Some []
  end.

Inductive RangeError := BlockMissing_ (slot : Z) | TxMissing (h : string) (slot : Z).

Definition range_block (txMap : gmap string Transaction) (metas : gmap string TransactionMeta) (b : Block) : BlockInfo :=
  mkBlockInfo (blk_core b) (omap (found_tx txMap metas) (all_hashes b)).

Definition missing_txs (txMap : gmap string Transaction) (metas : gmap string TransactionMeta) (slot : Z) (b : Block)
    : list RangeError :=
  (λ h, TxMissing h slot) <$> filter (λ h, found_tx txMap metas h = None) (all_hashes b).

(** The blocks and the errors of the response. *)
Definition GetBlockByRange (fuel : nat) (fromSlot toSlot : Z) (s : Storage)
    : option (result ServiceError (list BlockInfo * list RangeError) * Storage) :=
  if toSlot <? fromSlot then Some (Err InvalidRange, s)
  else
    let totalBlocks := u64_add (u64_sub toSlot fromSlot) 1 in
    if 500 <? totalBlocks then Some (Err RangeTooLarge, s)
    else
      slots ← range_slots fuel fromSlot toSlot;
      match block_GetBatch slots s with
      | (Err e, s) => Some (Err (LedgerError e), s)
      | (Ok blockMap, s) =>
          let found := omap (λ slot, b ← blockMap !! slot; Some (slot, b)) slots in
          let errs := BlockMissing_ <$> filter (λ slot, blockMap !! slot = None) slots in
          let '(r, s) := ledger_GetTxBatch (concat (all_hashes ∘ snd <$> found)) s in
          Some (match r with
                | Err e => (Err (LedgerError e), s)
                | Ok (txs, metas) =>
                    (Ok (range_block (tx_map txs) metas ∘ snd <$> found,
                         errs ++ concat ((λ p, missing_txs (tx_map txs) metas p.1 p.2) <$> found)), s)
                end)
      end.

(** ** server_grpc.go: the stream of events *)

(** Events of user contents are not sent. *)
Definition shouldSendEvent (e : BlockchainEvent) : bool :=
  match event_Transaction e with
  | Some tx => negb (Type_ tx =? TxTypeUserContent)
  | None => true
  end.

Definition TransactionExtraInfoGiveCoffee : string := "give_coffee".
Definition TransactionExtraInfoUnlockItem : string := "unlock_item".
Definition TransactionExtraInfoTransferToken : string := "transfer_token".

Definition convertExtraInfoToEvent (extraInfo : string) : option string :=
  match json_to_map extraInfo with
  | None => Some extraInfo
  | Some m =>
      let type_ := default "" (m ≫= (λ m, m !! "type")) in
      if bool_decide (type_ = TransactionExtraInfoGiveCoffee) || bool_decide (type_ = TransactionExtraInfoUnlockItem)
      then Some extraInfo
      else m ← m; Some (json_of_map (<["type" := TransactionExtraInfoTransferToken]> m))
  end.

(** [None] is a nil transaction or a nil map. *)
Definition convertEventToStatusUpdate (e : BlockchainEvent) (txHash : string) (s : Storage) : option StatusInfo :=
  let info tx extra status slot blockHash conf err :=
    mkStatusInfo txHash status slot blockHash conf err extra (Uint256ToString (Amount tx)) (TextData tx) (Sender tx)
      (Recipient tx) in
  match e with
  | HeartBeatEvent _ =>
      Some (mkStatusInfo "HeartBeat" PENDING 0 "" 0 "" "" "0" "HeartBeat" "" "")
  | _ =>
      tx ← event_Transaction e;
      extra ← convertExtraInfoToEvent (ExtraInfo tx);
      Some (match e with
            | TransactionIncludedInBlock _ slot hash _ => info tx extra CONFIRMED slot hash (GetConfirmations s slot) ""
            | TransactionFinalized _ slot hash _ => info tx extra FINALIZED slot hash (GetConfirmations s slot) ""
            | TransactionFailed _ err _ => info tx extra FAILED 0 "" 0 err
            | _ => info tx extra PENDING 0 "" 0 ""
            end)
  end.

(** What the stream sends for an event; [None] inside is nothing. *)
Definition stream_event (e : BlockchainEvent) (s : Storage) : option (option StatusInfo) :=
  if negb (shouldSendEvent e) then Some None
  else Some <$> convertEventToStatusUpdate e (ptr_Hash (event_Transaction e)) s.
End Service.

(** ** Batches *)

Lemma lookup_batch `{Countable K} {A} (f : K → option A) (l : list K) (k : K) :
  (list_to_map (omap (λ k, a ← f k; Some (k, a)) l) : gmap K A) !! k = if bool_decide (k ∈ l) then f k else None.
Proof.
  assert (Hl : ∀ a, (k, a) ∈ omap (λ k, a ← f k; Some (k, a)) l ↔ k ∈ l ∧ f k = Some a).
  { intros a. rewrite list_elem_of_omap. split.
    - intros (k' & Hk' & E). destruct (f k') as [a'|] eqn:Ef; [|done]. simpl in E. by simplify_eq.
    - intros [Hk Ef]. exists k. by rewrite Ef. }
  case_bool_decide as Hk.
  - destruct (f k) as [a|] eqn:Ef.
    + apply elem_of_list_to_map_1'; [|by apply Hl]. intros a' [_ Ha]%Hl. congruence.
    + apply not_elem_of_list_to_map_1. intros ([k' a] & -> & Hin)%list_elem_of_fmap. simpl in *.
      apply Hl in Hin as [_ Hin]. congruence.
  - apply not_elem_of_list_to_map_1. intros ([k' a] & -> & Hin)%list_elem_of_fmap. simpl in *.
    by apply Hl in Hin as [Hin _].
Qed.

Section Queries.
Context `{TE : TxEnv, ZE : ZkEnv, SC : StoreCodec, CC : ContentCodec, DC : DedupCache, WE : WireEnv}.
Context `{LI : LimiterImpl, XE : TextEnv}.

Lemma omap_ext_in {A B} (f g : A → option B) (l : list A) : (∀ x, x ∈ l → f x = g x) → omap f l = omap g l.
Proof.
  induction l as [|x l IH]; intros H; csimpl; [done|]. rewrite (H x) by left.
  rewrite IH by (intros; apply H; by right). done.
Qed.

Lemma elem_of_concat {A} (x : A) (l : list A) (ls : list (list A)) : x ∈ l → l ∈ ls → x ∈ concat ls.
Proof.
  intros Hx. induction ls as [|l' ls IH]; [by intros ?%elem_of_nil|]. simpl. rewrite elem_of_app.
  intros [->|?]%elem_of_cons; [by left|right; by apply IH].
Qed.

(** A batch read without faults. *)
Lemma batch_read {A} (key : string → string) (dec : string → option A) hashes s m s1 :
  db_GetBatch (key <$> hashes) s = (Ok m, s1) →
  omap (λ h, v ← m !! key h; a ← dec v; Some (h, a)) hashes =
  omap (λ h, a ← (data s !! key h ≫= dec); Some (h, a)) hashes.
Proof.
  intros E. destruct (db_GetBatch_ok _ _ _ _ E) as [_ Hm]. apply omap_ext_in. intros h Hh.
  rewrite Hm by by apply list_elem_of_fmap_2. by destruct (data s !! key h).
Qed.

Lemma quiet_meta_GetBatch hashes s : faults s = [] →
  ∃ m s', meta_GetBatch hashes s = (Ok m, s') ∧ data s' = data s ∧ faults s' = [] ∧
    ∀ h, m !! h = if bool_decide (h ∈ hashes) then data s !! key_of (KMeta h) ≫= json_to_meta else None.
Proof.
  intros Hf. unfold meta_GetBatch. case_bool_decide as En.
  { eexists _, s. split_and!; [done..|]. intros h. rewrite bool_decide_false; [done|]. subst. apply not_elem_of_nil. }
  destruct (quiet_GetBatch (meta_GetDBKey <$> hashes) s Hf) as (m & s1 & E1 & Hd & Hf1 & _). st_run. rewrite E1.
  eexists _, s1. split_and!; [done..|]. intros h. rewrite (batch_read _ _ _ _ _ _ E1).
  apply (lookup_batch (λ h, data s !! meta_GetDBKey h ≫= json_to_meta)).
Qed.

Lemma quiet_blocks slots s : faults s = [] →
  ∃ m s', block_GetBatch slots s = (Ok m, s') ∧ data s' = data s ∧ faults s' = [] ∧
    ∀ slot, slot ∈ slots → m !! slot = data s !! key_of (KBlock slot) ≫= json_to_block.
Proof.
  intros Hf. unfold block_GetBatch. case_bool_decide as En.
  { eexists _, s. split_and!; [done..|]. subst. by intros ? ?%not_elem_of_nil. }
  destruct (quiet_GetBatch (slotToBlockKey <$> slots) s Hf) as (m & s1 & E1 & Hd & Hf1 & Hm). st_run. rewrite E1.
  eexists _, s1. split_and!; [done..|]. intros slot Hs.
  rewrite (omap_ext_in _ (λ slot, a ← (data s !! slotToBlockKey slot ≫= json_to_block); Some (slot, a))).
  - rewrite (lookup_batch (λ slot, data s !! slotToBlockKey slot ≫= json_to_block)). by rewrite bool_decide_true.
  - intros x Hx. rewrite Hm by by apply list_elem_of_fmap_2. by destruct (data s !! slotToBlockKey x).
Qed.

(** The stored transactions are under their hashes. *)
Definition txs_keyed (d : gmap string string) : Prop :=
  ∀ h v tx, d !! key_of (KTx h) = Some v → json_to_tx v = Some tx → Hash tx = h.

Lemma tx_map_lookup d hashes h : txs_keyed d →
  tx_map (loaded d hashes) !! h = if bool_decide (h ∈ hashes) then d !! key_of (KTx h) ≫= json_to_tx else None.
Proof.
  intros Hk. unfold tx_map.
  assert (Hg : ∀ hs (m : gmap string Transaction), foldl (λ m tx, <[Hash tx := tx]> m) m (loaded d hs) !! h =
    match (if bool_decide (h ∈ hs) then d !! key_of (KTx h) ≫= json_to_tx else None) with
    | Some tx => Some tx | None => m !! h end).
  { induction hs as [|h' hs IH]; intros m; [done|]. unfold loaded. cbn [omap list_omap].
    destruct (d !! key_of (KTx h') ≫= json_to_tx) as [tx|] eqn:E.
    - cbn [foldl]. fold (loaded d hs). rewrite IH.
      assert (Hh : Hash tx = h').
      { destruct (d !! key_of (KTx h')) as [v|] eqn:Ev; [|done]. by apply (Hk h' v tx). }
      destruct (decide (h = h')) as [->|Hne].
      + rewrite (bool_decide_true (h' ∈ h' :: hs)) by left. rewrite E. case_bool_decide; [done|].
        by rewrite Hh, lookup_insert_eq.
      + rewrite lookup_insert_ne by congruence.
        rewrite (bool_decide_ext (h ∈ h' :: hs) (h ∈ hs)); [done|]. rewrite elem_of_cons. naive_solver.
    - fold (loaded d hs). rewrite IH. destruct (decide (h = h')) as [->|Hne].
      + rewrite (bool_decide_true (h' ∈ h' :: hs)) by left. rewrite E. by case_bool_decide.
      + rewrite (bool_decide_ext (h ∈ h' :: hs) (h ∈ hs)); [done|]. rewrite elem_of_cons. naive_solver. }
  rewrite Hg. by destruct (if bool_decide (h ∈ hashes) then _ else _).
Qed.

(** The data of a stored transaction with its meta. *)
Definition stored_tx_data (d : gmap string string) (h : string) : option TransactionData :=
  tx ← (d !! key_of (KTx h) ≫= json_to_tx); meta ← (d !! key_of (KMeta h) ≫= json_to_meta);
  Some (tx_data h tx (TxMetaStatusToProtoTxStatus (mStatus meta)) (TextData tx) (ExtraInfo tx)).

(** The batch answers every hash that was asked. *)
Lemma GetTxBatch_found hashes s : faults s = [] → txs_keyed (data s) →
  ∃ txs metas s', ledger_GetTxBatch hashes s = (Ok (txs, metas), s') ∧ data s' = data s ∧
    ∀ h, h ∈ hashes → found_tx (tx_map txs) metas h = stored_tx_data (data s) h.
Proof.
  intros Hf Hk. unfold ledger_GetTxBatch. case_bool_decide as En.
  { eexists _, _, s. split_and!; [done..|]. subst. by intros ? ?%not_elem_of_nil. }
  destruct (quiet_tx_GetBatch hashes s Hf) as (s1 & -> & D1 & F1).
  destruct (quiet_meta_GetBatch hashes s1 F1) as (metas & s2 & -> & D2 & F2 & Hm).
  eexists _, metas, s2. split_and!; [done|congruence|]. intros h Hh. unfold found_tx, stored_tx_data.
  rewrite tx_map_lookup, Hm, D1 by done. by rewrite !bool_decide_true.
Qed.

(** ** Ranges of blocks *)

Lemma range_slots_ok n slot toSlot : 0 ≤ slot ≤ toSlot + 1 → toSlot < 2 ^ 64 - 1 →
  toSlot - slot + 1 < Z.of_nat n → range_slots n slot toSlot = Some (seqZ slot (toSlot - slot + 1)).
Proof.
  revert slot. induction n as [|n IH]; intros slot H0 Ht Hn; [lia|simpl]. destruct (slot <=? toSlot) eqn:E.
  - assert (Hw : u64_add slot 1 = slot + 1) by (unfold u64_add; apply wrap_small; unfold in_width; blia).
    rewrite Hw, IH by blia. cbn [mbind option_bind]. rewrite (seqZ_cons slot) by blia. do 3 f_equal. lia.
  - by rewrite seqZ_nil by blia.
Qed.

Lemma range_slots_endless n slot : 0 ≤ slot < 2 ^ 64 → range_slots n slot (2 ^ 64 - 1) = None.
Proof.
  revert slot. induction n as [|n IH]; intros slot Hs; [done|]. cbn [range_slots].
  rewrite (proj2 (Z.leb_le _ _)) by lia. rewrite IH; [done|]. apply wrap_range. lia.
Qed.

(** A range of blocks.  In a database without faults whose transactions are under
    their hashes, a range of at most 500 slots that ends before the last 64-bit
    number is answered, after at most 501 rounds of its loop, with the stored blocks
    of these slots in order, each with those of its transactions that are stored
    with a meta, and with an error for every slot without a block and then for every
    transaction that was left out.  If the range ends with the last 64-bit number
    and is not larger than 500, or is all the numbers, the loop never ends. *)
Theorem block_range (fuel : nat) (fromSlot toSlot : Z) (s : Storage) :
  0 ≤ fromSlot ≤ toSlot → toSlot < 2 ^ 64 →
  faults s = [] → txs_keyed (data s) → (501 < fuel)%nat →
  let slots := seqZ fromSlot (toSlot - fromSlot + 1) in
  let block slot := data s !! key_of (KBlock slot) ≫= json_to_block in
  let found := omap (λ slot, b ← block slot; Some (slot, b)) slots in
  if toSlot =? 2 ^ 64 - 1 then
    (toSlot - fromSlot + 1 ≤ 500 ∨ fromSlot = 0) → GetBlockByRange fuel fromSlot toSlot s = None
  else if 500 <? toSlot - fromSlot + 1 then GetBlockByRange fuel fromSlot toSlot s = Some (Err RangeTooLarge, s)
  else
    ∃ s', data s' = data s ∧
      GetBlockByRange fuel fromSlot toSlot s = Some (Ok
        ((λ p, mkBlockInfo (blk_core p.2) (omap (stored_tx_data (data s)) (all_hashes p.2))) <$> found,
         (BlockMissing_ <$> filter (λ slot, block slot = None) slots) ++
         concat ((λ p, (λ h, TxMissing h p.1) <$>
                       filter (λ h, stored_tx_data (data s) h = None) (all_hashes p.2)) <$> found)), s').
Proof.
  intros Hle Ht Hf Hk Hfuel slots block found. unfold GetBlockByRange.
  rewrite (proj2 (Z.ltb_ge toSlot fromSlot)) by lia.
  assert (Hsub : u64_sub toSlot fromSlot = toSlot - fromSlot)
    by (unfold u64_sub; apply wrap_small; unfold in_width; lia). rewrite Hsub.
  destruct (toSlot =? 2 ^ 64 - 1) eqn:Et.
  { intros Hr. apply Z.eqb_eq in Et. subst toSlot.
    assert (Hw : (500 <? u64_add (2 ^ 64 - 1 - fromSlot) 1) = false).
    { apply Z.ltb_ge. destruct Hr as [Hr|Hr].
      - unfold u64_add. rewrite wrap_small; unfold in_width; lia.
      - subst fromSlot. vm_compute. discriminate. }
    rewrite Hw, range_slots_endless by lia. done. }
  apply Z.eqb_neq in Et.
  assert (Hw : u64_add (toSlot - fromSlot) 1 = toSlot - fromSlot + 1)
    by (unfold u64_add; apply wrap_small; unfold in_width; lia). rewrite Hw.
  destruct (500 <? toSlot - fromSlot + 1) eqn:El; [done|]. apply Z.ltb_ge in El.
  rewrite range_slots_ok by lia. fold slots. cbn [mbind option_bind].
  destruct (quiet_blocks slots s Hf) as (m & s1 & -> & D1 & F1 & Hm).
  assert (Hfound : omap (λ slot, b ← m !! slot; Some (slot, b)) slots = found).
  { apply omap_ext_in. intros x Hx. unfold block. by rewrite Hm. }
  rewrite Hfound. rewrite <- D1 in Hk.
  destruct (GetTxBatch_found (concat (all_hashes ∘ snd <$> found)) s1 F1 Hk) as (txs & metas & s2 & -> & D2 & Hfd).
  rewrite D1 in *. exists s2. split; [done|]. do 3 f_equal.
  assert (Hin : ∀ p h, p ∈ found → h ∈ all_hashes p.2 → h ∈ concat (all_hashes ∘ snd <$> found)).
  { intros p h Hp Hh. apply (elem_of_concat _ (all_hashes p.2)); [done|].
    by apply (list_elem_of_fmap_2 (all_hashes ∘ snd) _ _ Hp). }
  f_equal; [|f_equal].
  - apply list_fmap_ext. intros i p Hp%list_elem_of_lookup_2. unfold range_block. simpl. f_equal.
    apply omap_ext_in. intros h Hh. by apply Hfd, (Hin p).
  - f_equal. apply filter_ext_in. intros x Hx. unfold block. by rewrite Hm.
  - f_equal. apply list_fmap_ext. intros i p Hp%list_elem_of_lookup_2. unfold missing_txs. f_equal.
    apply filter_ext_in. intros h Hh. by rewrite Hfd by by apply (Hin p).
Qed.
End Queries.

(** ** The status of a transaction *)

Section Statuses.
Context `{TE : TxEnv, ZE : ZkEnv, SC : StoreCodec, CC : ContentCodec, DC : DedupCache, WE : WireEnv}.
Context `{LI : LimiterImpl, XE : TextEnv}.

(** The tracker is told of a batch; [None] is its panic. *)
Fixpoint track_batch (t : TransactionTracker) (batch : list Transaction) : option TransactionTracker :=
  match batch with
  | [] => Some t
  | tx :: batch' =>
      let '(t, panics) := TrackProcessingTransaction tx t in
      if panics : bool then None else track_batch t batch'
  end.

(** A server whose leader pulled a batch. *)
Definition pulled_batch (m : Mempool) (t : TransactionTracker) (sv : Server) : Server :=
  mkServer (set_mp m (srvNode sv)) (Some t) (srvLimits sv) (srvContents sv) (decimals sv).

(** One call, for another hash or for one that is not cached as removed. *)
Lemma track_other tx t h : Hash tx ≠ h → h ∉ removedTxCache t →
  let t' := fst (TrackProcessingTransaction tx t) in
  processingTxs t' !! h = processingTxs t !! h ∧ h ∉ removedTxCache t'.
Proof.
  intros Hh Hr. unfold TrackProcessingTransaction. case_bool_decide; simpl; [split; [done|set_solver]|].
  unfold track_store. destruct (processingTxs t !! Hash tx); simpl; [done|]. by rewrite lookup_insert_ne.
Qed.

Lemma track_new tx t : Hash tx ∉ removedTxCache t → processingTxs t !! Hash tx = None →
  let t' := fst (TrackProcessingTransaction tx t) in
  processingTxs t' !! Hash tx = Some tx ∧ Hash tx ∉ removedTxCache t'.
Proof.
  intros Hr Hn. unfold TrackProcessingTransaction. rewrite bool_decide_false by done. simpl.
  unfold track_store. rewrite Hn. simpl. by rewrite lookup_insert_eq.
Qed.

Lemma track_batch_cons t tx batch : track_batch t (tx :: batch) =
  if snd (TrackProcessingTransaction tx t) then None
  else track_batch (fst (TrackProcessingTransaction tx t)) batch.
Proof. simpl. by destruct (TrackProcessingTransaction tx t). Qed.

Lemma track_batch_keeps t batch t' h : track_batch t batch = Some t' →
  (∀ tx', tx' ∈ batch → Hash tx' ≠ h) → h ∉ removedTxCache t →
  processingTxs t' !! h = processingTxs t !! h.
Proof.
  revert t. induction batch as [|tx' batch IH]; intros t; [by intros [= <-]|]. rewrite track_batch_cons.
  destruct (snd _); [done|]. intros E Hne Hr.
  destruct (track_other tx' t h) as [H1 H2]; [apply Hne; left|done|].
  rewrite (IH _ E); [done| |done]. intros; apply Hne; by right.
Qed.

Lemma track_batch_tracks t batch t' tx : track_batch t batch = Some t' →
  NoDup (Hash <$> batch) → tx ∈ batch → Hash tx ∉ removedTxCache t → processingTxs t !! Hash tx = None →
  processingTxs t' !! Hash tx = Some tx.
Proof.
  revert t. induction batch as [|tx' batch IH]; intros t; [by intros _ _ ?%elem_of_nil|]. rewrite track_batch_cons.
  destruct (snd _); [done|]. csimpl. intros E [Hni Hnd]%NoDup_cons Hin Hr Hn.
  assert (Hne : ∀ x, x ∈ batch → Hash x ≠ Hash tx').
  { intros x Hx Ex. apply Hni. rewrite <- Ex. by apply list_elem_of_fmap_2. }
  apply elem_of_cons in Hin as [->|Hin].
  - destruct (track_new tx' t Hr Hn) as [H1 H2]. by rewrite (track_batch_keeps _ _ _ _ E).
  - destruct (track_other tx' t (Hash tx)) as [H1 H2]; [by intros Eh; apply (Hne tx Hin)|done|].
    apply (IH _ E); [done..|]. by rewrite H1.
Qed.

(** A batch has transactions of the pool. *)
Lemma pull_loop_from m hs m' batch tx : pull_loop m hs = Some (m', batch) → tx ∈ batch →
  ∃ h, txs m !! h = Some tx.
Proof.
  revert m batch. induction hs as [|h hs IH]; intros m batch; simpl; [intros [= _ <-]; by intros ?%elem_of_nil|].
  destruct (txs m !! h) as [tx'|] eqn:Eh; [|by apply IH].
  destruct (remove_tx m h tx') as [m1|] eqn:Er; [|done].
  destruct (pull_loop m1 hs) as [[m2 l]|] eqn:Ep; [|done]. intros [= <- <-] [->|Hin]%elem_of_cons; [by exists h|].
  destruct (IH _ _ Ep Hin) as [h' Hh']. exists h'. unfold remove_tx in Er.
  destruct (release_amount _ _); [|done]. injection Er as <-. simpl in Hh'. by apply lookup_delete_Some in Hh' as [_ ?].
Qed.

(** The pool after an accepted transaction has it. *)
Lemma svc_AddTx_ok msg now sv h sv' : svc_AddTx msg now sv = Some (Ok h, sv') →
  ∃ tx, FromProtoSignedTx msg = Some (Ok tx) ∧ h = Hash (with_timestamp now tx) ∧
    txs (mp (srvNode sv')) !! h = Some (with_timestamp now tx) ∧ srvTracker sv' = srvTracker sv.
Proof.
  unfold svc_AddTx. destruct (FromProtoSignedTx msg) as [[tx|e]|]; simpl; [|done..]. set (t := with_timestamp now tx).
  unfold AddTx. destruct (cheapValidateTransaction _ _ _) as [[[e|]|] zk']; simpl; [done| |done].
  destruct (AddTx_locked _ _ _ _) as [[[r m] s']|] eqn:El; simpl; [|done].
  destruct (AddTx_locked_cases _ _ _ _ _ _ _ El) as [[[e ->] ->]|(-> & -> & _)]; simpl; [done|].
  intros [= <- <-]. exists tx. split_and!; [done|done| |done]. simpl. by rewrite lookup_insert_eq.
Qed.

(** [C20] A transaction that the service accepted stays visible.  Asked for the hash
    that it answered, the service shows the transaction, with the time of the
    server, as pending; and it does so also after the leader has pulled a batch out
    of the pool and told the tracker, whether the transaction is in the batch or
    not, if the tracker does not know its hash yet.  In a pool that is consistent. *)
Theorem accepted_transaction_visible (msg : SignedTxMsg) (now n : Z) (sv sv' : Server) (h : string)
    (m : Mempool) (batch : list Transaction) (t t' : TransactionTracker) :
  svc_AddTx msg now sv = Some (Ok h, sv') → mp_wf (mp (srvNode sv')) →
  srvTracker sv = Some t → processingTxs t !! h = None → h ∉ removedTxCache t →
  PullBatch_locked (mp (srvNode sv')) n = Some (m, batch) → track_batch t batch = Some t' →
  ∃ tx, FromProtoSignedTx msg = Some (Ok tx) ∧
    fst (svc_GetTxByHash h sv') = Ok (tx_info (with_timestamp now tx) h 0 "" PENDING "") ∧
    fst (svc_GetTxByHash h (pulled_batch m t' sv')) = Ok (tx_info (with_timestamp now tx) h 0 "" PENDING "").
Proof.
  intros Ha Hwf Ht Hn Hr Hp Htr. destruct (svc_AddTx_ok _ _ _ _ _ Ha) as (tx & Hf & Eh & Hm & _).
  set (t0 := with_timestamp now tx) in *. exists tx. split; [done|].
  unfold svc_GetTxByHash, GetTransaction. rewrite Hm. split; [done|]. simpl.
  unfold PullBatch_locked in Hp. destruct (n <? 0); [done|]. set (k := Nat.min _ _) in Hp.
  set (sel := take k (txOrder (mp (srvNode sv')))) in Hp.
  assert (Hnd : NoDup sel) by (eapply sublist_NoDup; [apply (wf_order _ Hwf)|apply sublist_take]).
  assert (Hb : Hash <$> batch = sel).
  { eapply (pull_loop_batch (with_order (mp (srvNode sv')) _) sel); [apply (wf_hash _ Hwf)|done| |exact Hp].
    intros x Hx. apply (wf_dom _ Hwf). eapply elem_of_take in Hx as (? & ? & _). by eapply list_elem_of_lookup_2. }
  destruct (pull_loop_txs _ _ _ _ Hp) as (_ & _ & Hl). rewrite Hl. case_bool_decide as Hs.
  - assert (Hin : t0 ∈ batch).
    { rewrite <- Hb in Hs. apply list_elem_of_fmap in Hs as (x & Ex & Hx).
      destruct (pull_loop_from _ _ _ _ x Hp Hx) as [h' Hh']. simpl in Hh'.
      pose proof (wf_hash _ Hwf _ _ Hh') as E'. rewrite Eh in Hm. congruence. }
    unfold tracker_GetTransaction. rewrite Eh in *. by rewrite (track_batch_tracks t batch t' t0); [|try done; rewrite Hb..].
  - simpl. by rewrite Hm.
Qed.
End Statuses.

(** ** Accounts and nonces *)

Section Accounts.
Context `{TE : TxEnv, ZE : ZkEnv, SC : StoreCodec, CC : ContentCodec, DC : DedupCache, WE : WireEnv}.
Context `{LI : LimiterImpl, XE : TextEnv, WO : !WireEnvOk TE WE}.

(** What a client sees of an account is what is stored: in a database without
    faults, if the value under the address decodes to an account with a 256-bit
    balance, the client gets its balance and nonce, and if there is none, zeros. *)
Theorem account_seen_by_client (addr : string) (sv : Server) :
  let s := storage (srvNode sv) in
  faults s = [] →
  match data s !! key_of (KAccount addr) with
  | None => FromProtoAccount <$> (match fst (svc_GetAccount addr sv) with Ok r => Some r | Err _ => None end)
            = Some (mkClientAccount addr (Some 0) 0)
  | Some v => ∀ acc, json_to_account v = Some acc → in_width 256 (Balance acc) →
      FromProtoAccount <$> (match fst (svc_GetAccount addr sv) with Ok r => Some r | Err _ => None end)
      = Some (mkClientAccount addr (Some (Balance acc)) (aNonce acc))
  end.
Proof.
  intros s Hf. unfold svc_GetAccount, GetAccount, account_GetByAddr, db_Get, db_step. fold s. st_run. rewrite Hf. simpl.
  change (account_GetDBKey addr) with (key_of (KAccount addr)).
  destruct (data s !! key_of (KAccount addr)) as [v|] eqn:Ev; [|simpl; unfold FromProtoAccount, Uint256FromString; simpl; by rewrite FromDecimal_zero].
  intros acc Hj Hb. st_run. rewrite Hj. st_run. simpl.
  unfold FromProtoAccount. simpl. by rewrite Uint256_roundtrip.
Qed.

(** The nonce the service proposes is one below the latest finalized slot, on 64
    bits, and is accepted by the pool exactly if at least two slots are finalized
    and it is in the window before the slot the pool knows. *)
Theorem proposed_nonce_accepted (addr tag : string) (sv : Server) (tx : Transaction) :
  let L := latestFinalized (storage (srvNode sv)) in let m := mp (srvNode sv) in
  (tag = "latest" ∨ tag = "pending") → in_width 64 L → 0 ≤ netCurrentSlot m < 2 ^ 64 - 1 →
  svc_GetCurrentNonce addr tag sv = Ok (Nonce tx) →
  (validateNonce m [Some tx] = accept ↔
   2 ≤ L ∧ L - 1 ≤ netCurrentSlot m ∧ netCurrentSlot m - NonceWindow ≤ L - 1).
Proof.
  intros L m Htag HL Hm. unfold svc_GetCurrentNonce, GetLatestFinalizedSlot. fold L.
  destruct (_ && _) eqn:Et; [apply andb_true_iff in Et as [E1 E2]; rewrite !negb_true_iff, !bool_decide_eq_false in *; tauto|].
  intros [= En]. simpl. rewrite <- En. clear En Et. unfold u64_sub, in_width, minNonce, NonceWindow in *.
  destruct (decide (L = 0)) as [E0|Hne].
  - rewrite E0. change (wrap 64 (0 - 1)) with (2 ^ 64 - 1).
    split; [|lia]. destruct (_ <? _) eqn:Ea; [done|]. rewrite (proj2 (Z.ltb_lt (netCurrentSlot m) _)) by lia. done.
  - rewrite wrap_small by (unfold in_width; lia).
    destruct (150 <? netCurrentSlot m) eqn:Ew; destruct (L - 1 <? _) eqn:Ea; try (split; [done|blia]);
      destruct (netCurrentSlot m <? L - 1) eqn:Eb; (split; [done||(intros _; blia)|intros; done||blia]).
Qed.
End Accounts.

(** ** Extra information that is not an object *)

(** The stream of events panics on a transfer whose extra information is JSON's
    null: it decodes to a nil map, which is then written. *)
Theorem null_extra_info_panics `{TE : TxEnv, XE : TextEnv} (tx : Transaction) (h : string) (t : Z) (s : Storage) :
  json_to_map (ExtraInfo tx) = Some None → Type_ tx ≠ TxTypeUserContent →
  stream_event (TransactionAddedToMempool h (Some tx) t) s = None.
Proof.
  intros Hj Ht. unfold stream_event, shouldSendEvent. simpl. rewrite (proj2 (Z.eqb_neq _ _) Ht). simpl.
  unfold convertExtraInfoToEvent. by rewrite Hj.
Qed.

(** ** A server *)

Definition text_env : TextEnv := {|
  nfc_runes := string_len;
  nfc_injection _ := false;
  json_to_map s := if bool_decide (s = "null") then Some None else None;
  json_of_map _ := "{}";
|}.

Definition wire_addr : string := hex_EncodeToString wire_seed.
Definition wire_funds : Storage :=
  mkStorage {[ key_of (KAccount wire_addr) := be_bytes 32 100 +:+ be_bytes 8 3 +:+ wire_addr ]} [] 6 6.
Definition wire_server : Server (ZE := example_zk_env) (DC := list_dedup) (LI := bucket_impl) :=
  mkServer (ZE := example_zk_env) (DC := list_dedup) (LI := bucket_impl) (set_storage wire_funds node0)
    (Some NewTransactionTracker) (mkGlobal (NewRateLimiter None) (NewAbuseDetector None)) (NewRateLimiter None) 6.

Definition wire_msg : SignedTxMsg := @ToProtoSigTx wire_tx_env wire_signed.
Definition wire_run :=
  @svc_AddTx wire_tx_env example_zk_env ledger_codec no_contents list_dedup wire_env bucket_impl wire_msg 99 wire_server.
Definition wire_hash : string := match wire_run with Some (Ok h, _) => h | _ => "" end.
Definition wire_after : Server (ZE := example_zk_env) (DC := list_dedup) (LI := bucket_impl) :=
  match wire_run with Some (_, sv) => sv | None => wire_server end.
Definition wire_pull := @PullBatch_locked wire_tx_env (mp (srvNode wire_after)) 3.
Definition wire_pool : Mempool := match wire_pull with Some (m, _) => m | None => NewMempool 0 end.
Definition wire_batch : list Transaction := match wire_pull with Some (_, l) => l | None => [] end.
Definition wire_tracker : TransactionTracker :=
  default NewTransactionTracker (@track_batch wire_tx_env NewTransactionTracker wire_batch).

Lemma wire_run_ok : wire_run = Some (Ok wire_hash, wire_after).
Proof.
  assert (H : match wire_run with Some (Ok _, _) => true | _ => false end = true)
    by (vm_compute; reflexivity).
  unfold wire_hash, wire_after. destruct wire_run as [[[h|e] sv]|]; [done|discriminate H..].
Qed.

(** A pool with one transaction. *)
Lemma single_pool_wf `{TE : TxEnv} n slot (tx : Transaction) (a : Z) :
  mp_wf (insert_tx (SetCurrentSlot (NewMempool n) slot) tx a).
Proof.
  apply wf_insert.
  - apply wf_slot. destruct (pool_inv_new (DC := list_dedup) (λ _, True) n []) as [H _]. exact H.
  - unfold SetCurrentSlot. by destruct (slot <=? _).
  - unfold SetCurrentSlot. destruct (slot <=? _); simpl; apply not_elem_of_empty.
Qed.

Definition wire_tx : Transaction :=
  mkTransaction 1 wire_addr "bob" (Some 7) 99 "memo" 5 (stSig wire_signed) "" "" "".

Lemma wire_pool_eq : mp (srvNode wire_after) = @insert_tx wire_tx_env (start 5) wire_tx 7.
Proof. vm_compute. reflexivity. Qed.

Lemma wire_pool_wf : mp_wf (TE := wire_tx_env) (mp (srvNode wire_after)).
Proof.
  exact (eq_ind_r (mp_wf (TE := wire_tx_env)) (single_pool_wf (TE := wire_tx_env) 5 10 wire_tx 7) wire_pool_eq).
Qed.

Lemma accepted_transaction_visible_witness :
  ∃ tx, @FromProtoSignedTx wire_env wire_msg = Some (Ok tx) ∧
    fst (@svc_GetTxByHash wire_tx_env example_zk_env ledger_codec list_dedup bucket_impl wire_hash
      (pulled_batch (ZE := example_zk_env) (DC := list_dedup) (LI := bucket_impl) wire_pool wire_tracker wire_after))
    = Ok (@tx_info wire_tx_env (with_timestamp 99 tx) wire_hash 0 "" PENDING "").
Proof.
  destruct (@accepted_transaction_visible wire_tx_env example_zk_env ledger_codec no_contents list_dedup wire_env
    bucket_impl wire_msg 99 3 wire_server wire_after wire_hash wire_pool wire_batch NewTransactionTracker
    wire_tracker) as (tx & H1 & _ & H2).
  - exact wire_run_ok.
  - exact wire_pool_wf.
  - reflexivity.
  - reflexivity.
  - intros Hx. apply elem_of_empty in Hx. exact Hx.
  - vm_compute. reflexivity.
  - vm_compute. reflexivity.
  - exists tx. split; [exact H1|exact H2].
Defined.

(** Between the two parts of [PullBatch], before the tracker is told, the
    transaction is nowhere. *)
Theorem pulled_before_tracked_unknown :
  fst (@svc_GetTxByHash wire_tx_env example_zk_env ledger_codec list_dedup bucket_impl wire_hash
    (pulled_batch (ZE := example_zk_env) (DC := list_dedup) (LI := bucket_impl) wire_pool NewTransactionTracker wire_after))
  = Err TransactionNotFound ∧ @Hash wire_tx_env <$> wire_batch = [wire_hash].
Proof. split; vm_compute; reflexivity. Qed.

Lemma account_seen_by_client_witness :
  @FromProtoAccount wire_env <$>
    (match fst (@svc_GetAccount wire_tx_env example_zk_env ledger_codec list_dedup bucket_impl wire_addr wire_server) with
     | Ok r => Some r | Err _ => None end) = Some (mkClientAccount wire_addr (Some 100) 3).
Proof.
  assert (E : data wire_funds !! key_of (KAccount wire_addr) = Some (be_bytes 32 100 +:+ be_bytes 8 3 +:+ wire_addr))
    by (vm_compute; reflexivity).
  pose proof (@account_seen_by_client wire_tx_env example_zk_env ledger_codec list_dedup wire_env bucket_impl
    wire_env_ok wire_addr wire_server eq_refl) as H.
  cbv zeta in H. change (storage (srvNode wire_server)) with wire_funds in H. rewrite E in H.
  apply (H (mkAccount wire_addr 100 3)); [vm_compute; reflexivity|]. unfold in_width. simpl. lia.
Defined.

Lemma proposed_nonce_accepted_witness :
  @validateNonce (start 5) [Some (@with_timestamp 0 wire_tx)] = accept ∧
  @svc_GetCurrentNonce example_zk_env list_dedup bucket_impl wire_addr "latest" wire_server = Ok 5.
Proof.
  split; [|reflexivity].
  apply (@proposed_nonce_accepted example_zk_env list_dedup bucket_impl wire_addr "latest" wire_server
    (with_timestamp 0 wire_tx)).
  - by left.
  - unfold in_width. simpl. lia.
  - simpl. lia.
  - reflexivity.
  - simpl. unfold NonceWindow. lia.
Defined.

(** A database with the block of slot 5, without its transaction. *)
Definition block_only : Storage :=
  mkStorage {[ key_of (KBlock 5) := block_tag (@BroadcastedBlockToBlock node_env block5) ]} [] 5 5.

Lemma block_range_witness :
  match @GetBlockByRange node_env node_codec 600 4 5 block_only with
  | Some (Ok (l, errs), _) =>
      biCore <$> l = [bb_core block5] ∧
      errs = [BlockMissing_ 4; TxMissing (@Hash node_env pay1) 5]
  | _ => False
  end.
Proof.
  assert (Hk : @txs_keyed node_env node_codec (data block_only)).
  { intros h v tx Hv. exfalso. unfold block_only in Hv. cbn [data] in Hv. apply lookup_singleton_Some in Hv as [Hv _].
    discriminate Hv. }
  destruct (@block_range node_env node_codec 600 4 5 block_only ltac:(lia) ltac:(lia) eq_refl Hk ltac:(lia))
    as (s' & _ & E).
  rewrite E. split; vm_compute; reflexivity.
Defined.

Lemma null_extra_info_panics_witness :
  let tx := mkTransaction 1 "alice" "bob" (Some 1) 0 "" 1 "" "null" "" "" in
  @stream_event example_tx_env text_env (TransactionAddedToMempool "h" (Some tx) 7) empty_storage = None.
Proof.
  intros tx. apply (@null_extra_info_panics example_tx_env text_env tx "h" 7 empty_storage); [reflexivity|discriminate].
Defined.
