(* ===== verification/Gateway.v ===== *)
(** * The two front doors (network/server_grpc.go, network/utils.go, jsonrpc/, service/health_service.go)

    A client reaches the services of Service.v over gRPC, through the interceptors
    that limit its address and the size of its requests, or over HTTP with JSON-RPC,
    through a handler that does the same.  Messages are decoded: the libraries that
    read HTTP, JSON and addresses are the class [NetEnv].  Texts of errors are the
    errors of Service.v; logging and the deadline of a request are left out. *)

From stdpp Require Import base list gmap strings.
From Stdlib Require Import ZArith Lia Ascii.
From S2P Require Import Prelude GoLib Transaction Poh Schedule Consensus Block Store BlockStore Ledger.
From S2P Require Import Mempool Node Validator Limits Events Client Service.

Open Scope string_scope.
Open Scope list_scope.
Open Scope Z_scope.

(** ** Messages of JSON-RPC *)

Record txMsgParams := mkTxParams {
  jType : Z; jSender : string; jRecipient : string; jAmount : string; jTimestamp : Z; jTextData : string;
  jNonce : Z; jExtraInfo : string; jZkProof : string; jZkPub : string;
}.
Record signedTxParams := mkSignedParams { jTxMsg : txMsgParams; jSignature : string }.

(** The error is [None] where the message has the empty text. *)
Record addTxResponse := mkAddTx { atOk : bool; atTxHash : string; atError : option ServiceError }.

Record txInfo := mkInfo {
  jiSender : string; jiRecipient : string; jiAmount : string; jiTimestamp : Z; jiTextData : string;
  jiNonce : Z; jiSlot : Z; jiBlockHash : string; jiStatus : Z; jiErrMsg : string; jiExtraInfo : string;
  jiTxHash : string;
}.
Record getTxByHashResponse := mkGetTx { gtTx : txInfo; gtDecimals : Z }.

Record transactionData := mkPendingData {
  jdTxHash : string; jdSender : string; jdRecipient : string; jdAmount : string; jdNonce : Z; jdTimestamp : Z;
  jdStatus : Z; jdTextData : string;
}.
Record getPendingTxsResponse := mkPendingTxs { gpTotalCount : Z; gpPendingTxs : list transactionData }.

Record getCurrentNonceResponse := mkNonceResponse {
  gnAddress : string; gnNonce : Z; gnTag : string; gnError : option ServiceError;
}.

Record HealthCheckResponse := mkHealth {
  hcServing : bool; hcNodeId : string; hcTimestamp : Z; hcCurrentSlot : Z; hcBlockHeight : Z;
  hcMempoolSize : Z; hcIsLeader : bool; hcIsFollower : bool; hcVersion : string; hcUptime : Z;
  hcErrorMessage : string;
}.

Record rpcError := mkRpcError { reCode : Z; reError : ServiceError }.

(** A call that the library of JSON-RPC has decoded; [ROther] is one without a
    handler or with other parameters. *)
Inductive rpc_request :=
| RAddTx (p : signedTxParams) | RGetTxByHash (txHash : string) | RGetPendingTransactions
| RGetAccount (address : string) | RGetCurrentNonce (address tag : string) | RHealthCheck | ROther.

Inductive rpc_response :=
| AAddTx (r : addTxResponse) | AGetTx (r : getTxByHashResponse) | APending (r : getPendingTxsResponse)
| AAccount (r : GetAccountResponse) | ANonce (r : getCurrentNonceResponse) | AHealth (r : HealthCheckResponse)
| AError (e : rpcError) | ATimeout | AInvalid.

(** ** HTTP *)

(** [Header.Get] is a function of the name. *)
Record http_request := mkRequest {
  rMethod : string; rHeader : string → string; rRemoteAddr : string; rBody : string;
}.

Record CORSConfig := mkCORS {
  AllowedOrigins : list string; AllowedMethods : list string; AllowedHeaders : list string; MaxAge : Z;
}.

(** A response that the handler writes, or what the bridge answers to the calls of the
    body. *)
Inductive http_response := HStatus (code : Z) | HBridge (answers : list rpc_response).

Class NetEnv := {
  net_ParseIP : string → bool;
  net_SplitHostPort : string → option string; (* the host *)
  strings_ToLower : string → string;
  (** [json.Unmarshal] of the body as an object with a method. *)
  json_is_request : string → bool;
  (** The calls that the bridge makes for a method of HTTP and a body. *)
  bridge_calls : string → string → list rpc_request;
  (** Whether a handler sees the values of the context of the HTTP request. *)
  bridge_context : bool;
}.

(** [int32] of the enumeration. *)
Definition status_int32 (s : TransactionStatus) : Z :=
  match s with PENDING => 0 | CONFIRMED => 1 | FINALIZED => 2 | FAILED => 3 end.

Definition unknownIP : string := "unknown".
Definition DefaultRequestBodyLimit : Z := 128 * 1024.
Definition LargeRequestBodyLimit : Z := 8 * 1024 * 1024.
Definition LargeRequestMethods : list string := ["/mmn.BlockService/GetBlockByNumber"].

Section Gateway.
Context `{TE : TxEnv, ZE : ZkEnv, SC : StoreCodec, CC : ContentCodec, DC : DedupCache, WE : WireEnv}.
Context `{LI : LimiterImpl, XE : TextEnv, NE : NetEnv}.

(** ** Addresses of clients *)

Definition last_ascii (s : string) : option ascii := last (String.list_ascii_of_string s).

(** The address of the peer of a gRPC call, [None] when the context has none. *)
Definition extractClientIP (peer : option string) : string :=
  match peer with
  | None => unknownIP
  | Some addr =>
      if bool_decide (addr = "") then unknownIP
      else match net_SplitHostPort addr with
           | None => if net_ParseIP addr then addr else unknownIP
           | Some host =>
               if negb (bool_decide (host = "")) && bool_decide (String.get 0 host = Some "["%char) &&
                  bool_decide (last_ascii host = Some "]"%char)
               then String.substring 1 (String.length host - 2) host else host
           end
  end.

(** The headers a proxy sets come first, then the address of the connection. *)
Definition extractClientIPFromRequest (r : http_request) : string :=
  let xri := TrimSpace (rHeader r "X-Real-IP") in
  if negb (bool_decide (rHeader r "X-Real-IP" = "")) && net_ParseIP xri then xri
  else
    let xff := TrimSpace (default "" (head (Split "," (rHeader r "X-Forwarded-For")))) in
    if negb (bool_decide (rHeader r "X-Forwarded-For" = "")) && net_ParseIP xff then xff
    else match net_SplitHostPort (rRemoteAddr r) with
         | Some host => if net_ParseIP host then host else unknownIP
         | None => unknownIP
         end.

(** ** The limiter of addresses *)

(** [IsIPAllowed], and [TrackIPRequest], started by a goroutine, here at once. *)
Definition check_client (ip : string) (now : Z) (sv : Server) : option (bool * Server) :=
  '(_, ok, g) ← IsIPAllowed (now * 10 ^ 6) ip (srvLimits sv);
  Some (if ok : bool
        then (true, with_limits (mkGlobal (ipLimiter g) (TrackIPRequest (now * 10 ^ 6) ip (abuseDetector g))) sv)
        else (false, with_limits g sv)).

(** ** gRPC *)

Inductive GatewayError := TooManyRequests | BodyTooLarge (maxSize : Z) | Handler (e : ServiceError).

Record unary_info := mkUnary { uPeer : option string; uFullMethod : string; uSize : Z }.

Definition handled {A} (r : option (result ServiceError A * Server)) : option (result GatewayError A * Server) :=
  '(r, sv) ← r; Some (match r with Ok a => Ok a | Err e => Err (Handler e) end, sv).

(** [limitRequestSizeUnaryInterceptor]. *)
Definition limit_size {A} (info : unary_info) (handler : Server → option (result GatewayError A * Server))
    (sv : Server) : option (result GatewayError A * Server) :=
  let maxSize := if bool_decide (uFullMethod info ∈ LargeRequestMethods)
                 then LargeRequestBodyLimit else DefaultRequestBodyLimit in
  if maxSize <? uSize info then Some (Err (BodyTooLarge maxSize), sv) else handler sv.

(** [securityUnaryInterceptor], for a limiter that is there or nil. *)
Definition security {A} (hasLimiter : bool) (info : unary_info) (now : Z)
    (handler : Server → option (result GatewayError A * Server)) (sv : Server)
    : option (result GatewayError A * Server) :=
  if hasLimiter then
    '(ok, sv) ← check_client (extractClientIP (uPeer info)) now sv;
    if ok : bool then handler sv else Some (Err TooManyRequests, sv)
  else handler sv.

(** The chain of [NewGRPCServer]. *)
Definition unary {A} (enableRateLimit hasLimiter : bool) (info : unary_info) (now : Z)
    (handler : Server → option (result ServiceError A * Server)) (sv : Server)
    : option (result GatewayError A * Server) :=
  let inner := limit_size info (λ sv, handled (handler sv)) in
  if enableRateLimit then security hasLimiter info now inner sv else inner sv.

(** ** health_service.go *)

(** Which of the services are there. *)
Record HealthServiceImpl := mkHealthSvc {
  hsLedger : bool; hsBlockStore : bool; hsMempool : option Mempool; hsValidator : option Validator; hsSelfID : string;
}.

(** [now] is in seconds.  [None] is a panic of the recorder or the schedule. *)
Definition health_Check (canceled : bool) (now : Z) (hs : HealthServiceImpl) : option (option HealthCheckResponse) :=
  if canceled then Some None
  else
    currentSlot ← match hsValidator hs with Some v => CurrentSlot (Recorder v) | None => Some 0 end;
    let blockHeight := if hsBlockStore hs then currentSlot else 0 in
    let mempoolSize := match hsMempool hs with Some m => mp_Size m | None => 0 end in
    isLeader ← match hsValidator hs with Some v => IsLeader v currentSlot | None => Some false end;
    isFollower ← match hsValidator hs with Some v => IsFollower v currentSlot | None => Some false end;
    let serving := hsLedger hs && hsBlockStore hs && bool_decide (is_Some (hsMempool hs)) in
    Some (Some (mkHealth serving (hsSelfID hs) (wrap 64 now) currentSlot blockHeight mempoolSize isLeader isFollower
      "1.0.0" (wrap 64 now) (if serving then "" else "One or more core services are not available"))).

(** ** jsonrpc/server.go: the methods *)

Definition params_msg (p : signedTxParams) : SignedTxMsg :=
  let t := jTxMsg p in
  mkSignedMsg (Some (mkTxMsg (jType t) (jSender t) (jRecipient t) (jAmount t) (jTimestamp t) (jTextData t)
                       (jNonce t) (jExtraInfo t) (jZkProof t) (jZkPub t))) (jSignature p).

Definition add_failed (e : ServiceError) : addTxResponse := mkAddTx false "" (Some e).

Definition rpcAddTx (p : signedTxParams) (clientIP : string) (now : Z) (sv : Server)
    : option (addTxResponse * Server) :=
  let t := jTxMsg p in
  '(allowed, sv) ← (if jType t =? TxTypeUserContent
                    then '(ok, l) ← IsAllowed (now * 10 ^ 6) clientIP (srvContents sv); Some (ok, with_contents l sv)
                    else Some (true, sv));
  if negb allowed then Some (add_failed TooManyContents, sv)
  else if negb (forallb ValidateShortTextLength [jSender t; jRecipient t; jAmount t]) then
    Some (add_failed InvalidField, sv)
  else if negb (forallb ValidateLongTextLength [jTextData t; jExtraInfo t; jZkProof t; jZkPub t; jSignature p]) then
    Some (add_failed InvalidField, sv)
  else
    '(r, sv) ← svc_AddTx (params_msg p) now sv;
    Some (match r with Ok txHash => mkAddTx true txHash None | Err e => add_failed e end, sv).

Definition json_info (i : TxInfo) : txInfo :=
  mkInfo (tiSender i) (tiRecipient i) (tiAmount i) (tiTimestamp i) (tiTextData i) (tiNonce i) (tiSlot i)
    (tiBlockhash i) (status_int32 (tiStatus i)) (tiErrMsg i) (tiExtraInfo i) (tiTxHash i).

Definition rpcGetTxByHash (txHash : string) (sv : Server) : result rpcError getTxByHashResponse * Server :=
  if negb (ValidateShortTextLength txHash) then (Err (mkRpcError (-32602) InvalidField), sv)
  else
    let '(resp, sv) := svc_GetTxByHash txHash sv in
    (match resp with
     | Err e => Err (mkRpcError (-32000) e)
     | Ok i => Ok (mkGetTx (json_info i) (decimals sv))
     end, sv).

Definition json_pending (t : TransactionData) : transactionData :=
  mkPendingData (tdTxHash t) (tdSender t) (tdRecipient t) (tdAmount t) (tdNonce t) (tdTimestamp t)
    (status_int32 (tdStatus t)) (tdTextData t).

Definition rpcGetPendingTransactions (sv : Server) : getPendingTxsResponse :=
  let '(total, txs) := svc_GetPendingTransactions sv in mkPendingTxs total (json_pending <$> txs).

Definition rpcGetAccount (address : string) (sv : Server) : result rpcError GetAccountResponse * Server :=
  if negb (ValidateShortTextLength address) then (Err (mkRpcError (-32602) InvalidField), sv)
  else
    let '(resp, sv) := svc_GetAccount address sv in
    (match resp with Err e => Err (mkRpcError (-32000) e) | Ok a => Ok a end, sv).

(** A tag that is not one of the two is answered without an error of the protocol. *)
Definition rpcGetCurrentNonce (address tag : string) (sv : Server) : result rpcError getCurrentNonceResponse :=
  if negb (ValidateShortTextLength address) then Err (mkRpcError (-32602) InvalidField)
  else if negb (bool_decide (tag = "latest")) && negb (bool_decide (tag = "pending")) then
    Ok (mkNonceResponse address 0 tag (Some InvalidTag))
  else match svc_GetCurrentNonce address tag sv with
       | Err e => Err (mkRpcError (-32000) e)
       | Ok n => Ok (mkNonceResponse address n tag None)
       end.

(** The handler of a decoded call; [health] is the answer of the health service. *)
Definition dispatch_rpc (c : rpc_request) (clientIP : string) (now : Z) (health : option HealthCheckResponse)
    (sv : Server) : option (rpc_response * Server) :=
  match c with
  | RAddTx p => '(r, sv) ← rpcAddTx p clientIP now sv; Some (AAddTx r, sv)
  | RGetTxByHash h =>
      let '(r, sv) := rpcGetTxByHash h sv in
      Some (match r with Ok a => AGetTx a | Err e => AError e end, sv)
  | RGetPendingTransactions => Some (APending (rpcGetPendingTransactions sv), sv)
  | RGetAccount a =>
      let '(r, sv) := rpcGetAccount a sv in
      Some (match r with Ok a => AAccount a | Err e => AError e end, sv)
  | RGetCurrentNonce a tag =>
      Some (match rpcGetCurrentNonce a tag sv with Ok a => ANonce a | Err e => AError e end, sv)
  | RHealthCheck =>
      Some (match health with Some h => AHealth h | None => ATimeout end, sv)
  | ROther => Some (AInvalid, sv)
  end.

(** The calls of a body, one after the other. *)
Fixpoint dispatch_all (cs : list rpc_request) (clientIP : string) (now : Z) (health : option HealthCheckResponse)
    (sv : Server) : option (list rpc_response * Server) :=
  match cs with
  | [] => Some ([], sv)
  | c :: cs' =>
      '(a, sv) ← dispatch_rpc c clientIP now health sv;
      '(l, sv) ← dispatch_all cs' clientIP now health sv;
      Some (a :: l, sv)
  end.

(** ** The HTTP handler *)

(** [BuildHTTPHandler].  A handler finds the address of the client in the context only
    if the limiter has put it there. *)
Definition ServeHTTP (enableRateLimit hasLimiter : bool) (r : http_request) (now : Z)
    (health : option HealthCheckResponse) (sv : Server) : option (http_response * Server) :=
  let bridge (clientIP : string) (sv : Server) :=
    '(l, sv) ← dispatch_all (bridge_calls (rMethod r) (rBody r)) clientIP now health sv; Some (HBridge l, sv) in
  let too_large := DefaultRequestBodyLimit <? string_len (rBody r) in
  if bool_decide (rMethod r = "OPTIONS") then Some (HStatus 200, sv)
  else if bool_decide (rMethod r = "POST") &&
          negb (String.prefix "application/json" (strings_ToLower (rHeader r "Content-Type")))
  then Some (HStatus 415, sv)
  else if hasLimiter && bool_decide (rMethod r = "POST") && enableRateLimit then
    if too_large then Some (HStatus 400, sv)
    else if negb (json_is_request (rBody r)) then Some (HStatus 400, sv)
    else
      let clientIP := extractClientIPFromRequest r in
      '(ok, sv) ← check_client clientIP now sv;
      if ok : bool then bridge (if bridge_context then clientIP else "") sv else Some (HStatus 429, sv)
  else if too_large then Some (HBridge [], sv)
  else bridge "" sv.

(** ** CORS *)

(** The headers that are set, in order. *)
Definition setCORSHeaders (c : CORSConfig) (origin : string) : list (string * string) :=
  match AllowedOrigins c with
  | [] => []
  | o :: os =>
      if bool_decide (o = "*") then [("Access-Control-Allow-Origin", "*")]
      else if bool_decide (origin ∈ o :: os) then [("Access-Control-Allow-Origin", origin)] else []
  end ++
  (if bool_decide (AllowedMethods c = []) then []
   else [("Access-Control-Allow-Methods", String.concat ", " (AllowedMethods c))]) ++
  (if bool_decide (AllowedHeaders c = []) then []
   else [("Access-Control-Allow-Headers", String.concat ", " (AllowedHeaders c))]) ++
  (if 0 <? MaxAge c then [("Access-Control-Max-Age", fmt_d (MaxAge c))] else []).

Definition splitAndTrim (s : string) : list string :=
  filter (λ t, t ≠ "") (TrimSpace <$> Split "," s).

(** [strconv.Atoi]. *)
Definition Atoi (s : string) : option Z :=
  let '(sign, d) := match s with
                    | String c r => if bool_decide (c = "-"%char) then (-1, r)
                                    else if bool_decide (c = "+"%char) then (1, r) else (1, s)
                    | EmptyString => (1, s)
                    end in
  if bool_decide (d = "") then None
  else n ← parse_digits 0 d;
       let v := sign * n in
       if (-(2 ^ 63) <=? v) && (v <? 2 ^ 63) then Some v else None.

(** [getenv] is the environment; an empty list is one that is not set. *)
Definition CORSFromEnv (getenv : string → string) : option CORSConfig :=
  let list_of name := if bool_decide (getenv name = "") then [] else splitAndTrim (getenv name) in
  let maxAge := if bool_decide (getenv "CORS_MAX_AGE" = "") then 0 else default 0 (Atoi (getenv "CORS_MAX_AGE")) in
  let allowedOrigins := list_of "CORS_ALLOWED_ORIGINS" in
  let allowedMethods := list_of "CORS_ALLOWED_METHODS" in
  let allowedHeaders := list_of "CORS_ALLOWED_HEADERS" in
  if negb (bool_decide (allowedOrigins = [])) || negb (bool_decide (allowedMethods = [])) ||
     negb (bool_decide (allowedHeaders = [])) || (0 <? maxAge)
  then Some (mkCORS allowedOrigins allowedMethods allowedHeaders maxAge) else None.
End Gateway.

(** ** The two doors agree *)

Section Agreement.
Context `{TE : TxEnv, ZE : ZkEnv, SC : StoreCodec, CC : ContentCodec, DC : DedupCache, WE : WireEnv}.
Context `{LI : LimiterImpl, XE : TextEnv, NE : NetEnv}.

(** An outcome of gRPC as JSON-RPC answers it: checks of parameters have a code of
    their own. *)
Definition error_code (e : ServiceError) : Z := match e with InvalidField => -32602 | _ => -32000 end.
Definition add_answer (r : result ServiceError string) : addTxResponse :=
  match r with Ok h => mkAddTx true h None | Err e => add_failed e end.
Definition answer_of {A} (f : A → rpc_response) (r : result ServiceError A) : rpc_response :=
  match r with Ok a => f a | Err e => AError (mkRpcError (error_code e) e) end.

(** The gRPC method for a call. *)
Definition grpc_dispatch (c : rpc_request) (ip : string) (now : Z) (health : option HealthCheckResponse)
    (sv : Server) : option (rpc_response * Server) :=
  match c with
  | RAddTx p => '(r, sv) ← grpc_AddTx (params_msg p) ip now sv; Some (AAddTx (add_answer r), sv)
  | RGetTxByHash h =>
      let '(r, sv) := grpc_GetTxByHash h sv in
      Some (answer_of (λ i, AGetTx (mkGetTx (json_info i) (decimals sv))) r, sv)
  | RGetPendingTransactions => Some (APending (rpcGetPendingTransactions sv), sv)
  | RGetAccount a => let '(r, sv) := grpc_GetAccount a sv in Some (answer_of AAccount r, sv)
  | RGetCurrentNonce a tag =>
      Some (answer_of (λ n, ANonce (mkNonceResponse a n tag None)) (grpc_GetCurrentNonce a tag sv), sv)
  | RHealthCheck => Some (match health with Some h => AHealth h | None => ATimeout end, sv)
  | ROther => Some (AInvalid, sv)
  end.

Definition known_tag (c : rpc_request) : Prop :=
  match c with RGetCurrentNonce _ tag => tag = "latest" ∨ tag = "pending" | _ => True end.

Lemma rpcAddTx_grpc p ip now sv :
  rpcAddTx p ip now sv = ('(r, sv') ← grpc_AddTx (params_msg p) ip now sv; Some (add_answer r, sv')).
Proof.
  unfold rpcAddTx, grpc_AddTx. cbn [params_msg smTxMsg smSignature pType pSender pRecipient pAmount pTextData
    pExtraInfo pZkProof pZkPub mbind option_bind].
  destruct (if jType (jTxMsg p) =? TxTypeUserContent then _ else _) as [[[|] sv1]|]; simpl; try done.
  destruct (ValidateShortTextLength _ && _); simpl; [|done].
  destruct (ValidateLongTextLength _ && _); simpl; [|done].
  by destruct (svc_AddTx _ now sv1) as [[[h|e] sv2]|].
Qed.

(** The errors of a service are not those of the check of its parameters. *)
Lemma svc_errors_other :
  (∀ h sv e, fst (svc_GetTxByHash h sv) = Err e → error_code e = -32000) ∧
  (∀ a sv e, fst (svc_GetAccount a sv) = Err e → error_code e = -32000).
Proof.
  split; [intros h sv e|intros a sv e]; [unfold svc_GetTxByHash|unfold svc_GetAccount]; repeat case_match;
    simpl; intros; by simplify_eq.
Qed.

(** A call gets the same answer and has the same effect over JSON-RPC as over gRPC,
    errors included; only a nonce for an unknown tag, an error of gRPC, is a response of
    JSON-RPC with the error in it. *)
Theorem methods_agree (c : rpc_request) ip now health sv :
  known_tag c → dispatch_rpc c ip now health sv = grpc_dispatch c ip now health sv.
Proof.
  intros Ht. destruct svc_errors_other as [E1 E2]. destruct c as [p|h| |a|a tag| |]; try done; simpl.
  - rewrite rpcAddTx_grpc. by destruct (grpc_AddTx _ ip now sv) as [[r sv1]|].
  - unfold rpcGetTxByHash, grpc_GetTxByHash. destruct (ValidateShortTextLength h); [|done]. simpl.
    specialize (E1 h sv). destruct (svc_GetTxByHash h sv) as [[i|e] sv1]; [done|]. simpl. by rewrite E1.
  - unfold rpcGetAccount, grpc_GetAccount. destruct (ValidateShortTextLength a); [|done]. simpl.
    specialize (E2 a sv). destruct (svc_GetAccount a sv) as [[i|e] sv1]; [done|]. simpl. by rewrite E2.
  - unfold rpcGetCurrentNonce, grpc_GetCurrentNonce, svc_GetCurrentNonce.
    destruct (ValidateShortTextLength a); [|done]. by destruct Ht as [->| ->].
Qed.

(** The response to the outcome of a gRPC call of [AddTx]. *)
Definition http_of_grpc (r : result GatewayError string) : http_response :=
  match r with
  | Ok h => HBridge [AAddTx (mkAddTx true h None)]
  | Err (Handler e) => HBridge [AAddTx (add_failed e)]
  | Err TooManyRequests => HStatus 429
  | Err (BodyTooLarge _) => HStatus 400
  end.

End Agreement.

(** ** What a request can change *)

Section Effects.
Context `{TE : TxEnv, ZE : ZkEnv, SC : StoreCodec, CC : ContentCodec, DC : DedupCache, WE : WireEnv}.
Context `{LI : LimiterImpl, XE : TextEnv, NE : NetEnv}.

(** The node is the same but for the script of faults of the database. *)
Definition node_kept (n n' : Node) : Prop := ∃ s,
  n' = set_storage s n ∧ data s = data (storage n) ∧ latestFinalized s = latestFinalized (storage n) ∧
  latestStore s = latestStore (storage n).

Definition server_kept (sv sv' : Server) : Prop := node_kept (srvNode sv) (srvNode sv').

#[local] Instance node_kept_preorder : PreOrder node_kept.
Proof.
  split.
  - intros n. exists (storage n). by destruct n.
  - intros n n' n'' (s & -> & E1 & E2 & E3) (s' & -> & F1 & F2 & F3). exists s'.
    simpl in *. split_and!; congruence || by destruct n.
Qed.

#[local] Instance server_kept_preorder : PreOrder server_kept.
Proof. split; [by intros sv; red|]. intros sv sv' sv'' ??. unfold server_kept in *. by etransitivity. Qed.

Lemma quiet_bind {A B} (m : ST A) (k : A → ST B) : quiet m → (∀ a, quiet (k a)) → quiet (m ≫= k).
Proof.
  intros Hm Hk s. specialize (Hm s). rewrite st_bind_eq. destruct (m s) as [[a|e] s'];
    simpl in *; [destruct (Hk a s') as (? & ? & ?)|]; naive_solver congruence.
Qed.

Lemma quiet_ret {A} (a : A) : quiet (mret a).
Proof. by intros s. Qed.

Lemma quiet_kept {A} (m : ST A) sv : quiet m → server_kept sv (with_storage (snd (m (storage (srvNode sv)))) sv).
Proof. intros Hm. destruct (Hm (storage (srvNode sv))) as (? & ? & ?). by eexists. Qed.

Lemma GetAccount_quiet addr : quiet (GetAccount addr).
Proof.
  apply quiet_bind; [apply quiet_step|]. intros [v|]; [|apply quiet_ret].
  apply quiet_bind; [apply quiet_some|]. intros a. apply quiet_ret.
Qed.

Lemma GetTxByHash_quiet h : quiet (ledger_GetTxByHash h).
Proof.
  intros s. unfold ledger_GetTxByHash.
  assert (quiet (tx_GetByHash h)) as H1 by (apply quiet_bind; [apply quiet_step|intros d; apply quiet_some]).
  assert (quiet (meta_GetByHash h)) as H2 by (apply quiet_bind; [apply quiet_step|intros d; apply quiet_some]).
  specialize (H1 s). destruct (tx_GetByHash h s) as [r1 s1]. specialize (H2 s1).
  destruct (meta_GetByHash h s1) as [r2 s2]. simpl in *. naive_solver congruence.
Qed.

Lemma svc_reads_keep :
  (∀ h sv, server_kept sv (snd (svc_GetTxByHash h sv))) ∧ (∀ a sv, server_kept sv (snd (svc_GetAccount a sv))).
Proof.
  split; intros k sv.
  - unfold svc_GetTxByHash. destruct (GetTransaction _ k); [done|]. destruct (t ← srvTracker sv; _); [done|].
    pose proof (quiet_kept _ sv (GetTxByHash_quiet k)) as Hk. by destruct (ledger_GetTxByHash k _).
  - unfold svc_GetAccount. pose proof (quiet_kept _ sv (GetAccount_quiet k)) as Hk. by destruct (GetAccount k _).
Qed.

Definition is_add (c : rpc_request) : bool := match c with RAddTx _ => true | _ => false end.

Lemma dispatch_keeps c ip now health sv a sv' :
  is_add c = false → dispatch_rpc c ip now health sv = Some (a, sv') → server_kept sv sv'.
Proof.
  destruct svc_reads_keep as [K1 K2]. destruct c as [p|h| |addr|addr tag| |]; intros Hc; simpl in Hc; try done; simpl;
    try by intros [= <- <-].
  - unfold rpcGetTxByHash. destruct (ValidateShortTextLength h); [|by intros [= <- <-]]. simpl.
    specialize (K1 h sv). destruct (svc_GetTxByHash h sv) as [r sv1]. by intros [= <- <-].
  - unfold rpcGetAccount. destruct (ValidateShortTextLength addr); [|by intros [= <- <-]]. simpl.
    specialize (K2 addr sv). destruct (svc_GetAccount addr sv) as [r sv1]. by intros [= <- <-].
Qed.

Lemma dispatch_all_keeps cs ip now health sv l sv' :
  forallb (negb ∘ is_add) cs = true → dispatch_all cs ip now health sv = Some (l, sv') → server_kept sv sv'.
Proof.
  revert sv l. induction cs as [|c cs IH]; intros sv l; simpl; [by intros _ [= <- <-]|].
  intros [Hc Hcs]%andb_true_iff. apply negb_true_iff in Hc.
  destruct (dispatch_rpc c ip now health sv) as [[a sv1]|] eqn:E1; simpl; [|done].
  destruct (dispatch_all cs ip now health sv1) as [[l' sv2]|] eqn:E2; simpl; [|done].
  intros [= <- <-]. transitivity sv1; [by eapply dispatch_keeps|by eapply IH].
Qed.

Lemma check_client_keeps ip now sv ok sv' : check_client ip now sv = Some (ok, sv') → srvNode sv' = srvNode sv.
Proof. unfold check_client. destruct (IsIPAllowed _ _ _) as [[[al [|]] g]|]; simpl; [..|done]; by intros [= <- <-]. Qed.

(** A request over HTTP changes the mempool, the stored data and the counters of a node
    only by a call that adds a transaction, which a client has posted: a request that
    the handler refuses, or whose body has no such call, leaves them as they are. *)
Theorem http_changes_by_adding (enable hasLimiter : bool) (r : http_request) now health sv resp sv' :
  ServeHTTP enable hasLimiter r now health sv = Some (resp, sv') →
  (∃ code, resp = HStatus code) ∨ forallb (negb ∘ is_add) (bridge_calls (rMethod r) (rBody r)) = true →
  mp (srvNode sv') = mp (srvNode sv) ∧ data (storage (srvNode sv')) = data (storage (srvNode sv)) ∧
  latestFinalized (storage (srvNode sv')) = latestFinalized (storage (srvNode sv)) ∧
  latestStore (storage (srvNode sv')) = latestStore (storage (srvNode sv)).
Proof.
  intros Hr Hcs. cut (server_kept sv sv').
  { intros (s & -> & E1 & E2 & E3). by destruct (srvNode sv). }
  assert (∀ ip sv1, ('(l, sv) ← dispatch_all (bridge_calls (rMethod r) (rBody r)) ip now health sv1;
                     Some (HBridge l, sv)) = Some (resp, sv') → server_kept sv1 sv') as Hb.
  { intros ip sv1. destruct (dispatch_all _ ip now health sv1) as [[l sv2]|] eqn:E; simpl; [|done].
    intros [= <- <-]. destruct Hcs as [[code Hs]|Hcs]; [done|]. by eapply dispatch_all_keeps. }
  unfold ServeHTTP in Hr. cbv zeta in Hr.
  destruct (bool_decide (rMethod r = "OPTIONS")); [by injection Hr as <- <-|].
  destruct (bool_decide _ && negb _); [by injection Hr as <- <-|].
  destruct (hasLimiter && _ && _).
  - destruct (_ <? _); [by injection Hr as <- <-|]. destruct (negb _); [by injection Hr as <- <-|].
    destruct (check_client _ now sv) as [[ok sv1]|] eqn:E; simpl in Hr; [|done]. apply check_client_keeps in E.
    assert (server_kept sv sv1) as Hk by (unfold server_kept; by rewrite E).
    destruct ok; [|by injection Hr as <- <-]. etransitivity; [exact Hk|by eapply Hb].
  - destruct (_ <? _); [by injection Hr as <- <-|]. by eapply Hb.
Qed.
End Effects.

(** ** Addresses, CORS and health *)

Section Details.
Context `{TE : TxEnv, ZE : ZkEnv, SC : StoreCodec, CC : ContentCodec, DC : DedupCache, WE : WireEnv}.
Context `{LI : LimiterImpl, XE : TextEnv, NE : NetEnv}.

(** A client that sends a header X-Real-IP with an address is taken for that address,
    wherever it connects from: it chooses which limit its request counts against. *)
Theorem header_chooses_address (r : http_request) (ip : string) :
  rHeader r "X-Real-IP" = ip → ip ≠ "" → TrimSpace ip = ip → net_ParseIP ip = true →
  extractClientIPFromRequest r = ip.
Proof.
  intros Hh Hn Ht Hp. unfold extractClientIPFromRequest. cbv zeta. rewrite Hh, Ht, Hp.
  by rewrite bool_decide_false.
Qed.

(** Without the limit of addresses, JSON-RPC does not tell its clients apart: the answer
    and the limit of user contents do not depend on the address. *)
Theorem unlimited_clients_alike (hasLimiter : bool) (r r' : http_request) now health sv :
  rMethod r = rMethod r' → rBody r = rBody r' → rHeader r "Content-Type" = rHeader r' "Content-Type" →
  ServeHTTP false hasLimiter r now health sv = ServeHTTP false hasLimiter r' now health sv.
Proof. intros Hm Hb Hc. unfold ServeHTTP. by rewrite Hm, Hb, Hc, !andb_false_r. Qed.

(** The header that allows an origin names the star, which is then the first origin of
    the configuration, or the origin of the request, which is one of its origins. *)
Theorem cors_allows_configured (c : CORSConfig) (origin v : string) :
  ("Access-Control-Allow-Origin", v) ∈ setCORSHeaders c origin →
  (v = "*" ∧ head (AllowedOrigins c) = Some "*") ∨ (v = origin ∧ origin ∈ AllowedOrigins c).
Proof.
  unfold setCORSHeaders. rewrite !elem_of_app. intros [Ho|[Hm|[Hh|Ha]]].
  - destruct (AllowedOrigins c) as [|o os]; [by apply elem_of_nil in Ho|]. simpl.
    case_bool_decide as E; [subst; left|case_bool_decide; [right|by apply elem_of_nil in Ho]];
      apply list_elem_of_singleton in Ho; naive_solver.
  - case_bool_decide; [by apply elem_of_nil in Hm|]. apply list_elem_of_singleton in Hm. naive_solver.
  - case_bool_decide; [by apply elem_of_nil in Hh|]. apply list_elem_of_singleton in Hh. naive_solver.
  - destruct (0 <? MaxAge c); [|by apply elem_of_nil in Ha]. apply list_elem_of_singleton in Ha. naive_solver.
Qed.

(** A configuration from the environment sets something, and its lists have no empty
    entry. *)
Theorem cors_from_env_clean (getenv : string → string) (c : CORSConfig) :
  CORSFromEnv getenv = Some c →
  "" ∉ (AllowedOrigins c ++ AllowedMethods c ++ AllowedHeaders c) ∧ -(2 ^ 63) ≤ MaxAge c < 2 ^ 63 ∧
  ((AllowedOrigins c ++ AllowedMethods c ++ AllowedHeaders c) ≠ [] ∨ 0 < MaxAge c).
Proof.
  unfold CORSFromEnv. cbv zeta.
  assert (∀ name, "" ∉ (if bool_decide (getenv name = "") then [] else splitAndTrim (getenv name))) as Hs.
  { intros name. case_bool_decide; [set_solver|]. unfold splitAndTrim. by intros [? _]%list_elem_of_filter. }
  assert (∀ v, -(2 ^ 63) ≤ default 0 (Atoi v) < 2 ^ 63) as Ha.
  { intros v. unfold Atoi. destruct (match v with String _ _ => _ | EmptyString => _ end) as [sign d].
    destruct (bool_decide _); [simpl; lia|]. destruct (parse_digits 0 d) as [n|]; [|simpl; lia].
    cbn -[Z.pow]. destruct (_ && _) eqn:E; cbn -[Z.pow]; lia. }
  intros E. destruct (negb _ || _ || _ || _) eqn:Hp; simplify_eq. simpl.
  split; [rewrite !elem_of_app; naive_solver|]. split.
  { destruct (bool_decide (getenv "CORS_MAX_AGE" = "")); [lia|apply Ha]. }
  rewrite !orb_true_iff, !negb_true_iff, !bool_decide_eq_false, Z.ltb_lt in Hp.
  destruct Hp as [[[Hp|Hp]|Hp]|Hp]; [left; intros [? [? ?]%app_eq_nil]%app_eq_nil; done..|by right].
Qed.

(** A health check serves exactly when the ledger, the block store and the mempool are
    there; with a validator, the node is the leader of the current slot or a follower,
    not both. *)
Theorem health_check_spec (now : Z) (hs : HealthServiceImpl) (h : HealthCheckResponse) :
  health_Check false now hs = Some (Some h) →
  (hcServing h = true ↔ hsLedger hs = true ∧ hsBlockStore hs = true ∧ is_Some (hsMempool hs)) ∧
  (hcErrorMessage h = "" ↔ hcServing h = true) ∧
  (∀ v, hsValidator hs = Some v →
    CurrentSlot (Recorder v) = Some (hcCurrentSlot h) ∧ IsLeader v (hcCurrentSlot h) = Some (hcIsLeader h) ∧
    hcIsFollower h = negb (hcIsLeader h)).
Proof.
  destruct hs as [ld bs m v id]. unfold health_Check. simpl.
  destruct (match v with Some v => CurrentSlot _ | None => _ end) as [slot|] eqn:Es; simpl; [|done].
  destruct (match v with Some v => IsLeader _ _ | None => _ end) as [il|] eqn:El; simpl; [|done].
  destruct (match v with Some v => IsFollower _ _ | None => _ end) as [fl|] eqn:Ef; simpl; [|done].
  intros [= <-]. simpl. split; [|split].
  - by rewrite !andb_true_iff, bool_decide_eq_true, (assoc (∧)).
  - by destruct (ld && bs && _).
  - intros w [= ->]. unfold IsFollower in Ef. rewrite El in Ef. by injection Ef as <-.
Qed.
End Details.

(** ** A gateway *)

Definition wire_params : signedTxParams :=
  match smTxMsg wire_msg with
  | Some m => mkSignedParams (mkTxParams (pType m) (pSender m) (pRecipient m) (pAmount m) (pTimestamp m) (pTextData m)
                                (pNonce m) (pExtraInfo m) (pZkProof m) (pZkPub m)) (smSignature wire_msg)
  | None => mkSignedParams (mkTxParams 0 "" "" "" 0 "" 0 "" "" "") ""
  end.

(** Addresses have four parts; a body is the call it has. *)
Definition net_env : NetEnv := {|
  net_ParseIP s := bool_decide (length (Split "." s) = 4%nat);
  net_SplitHostPort s := head (Split ":" s);
  strings_ToLower s := s;
  json_is_request b := bool_decide (b ≠ "");
  bridge_calls _ b := if bool_decide (b = "add") then [RAddTx wire_params]
                      else if bool_decide (b = "pending") then [RGetPendingTransactions] else [];
  bridge_context := true;
|}.

Definition wire_request (body : string) : http_request :=
  mkRequest "POST" (λ h, if bool_decide (h = "Content-Type") then "application/json" else "") "10.0.0.7:4000" body.
Definition wire_info : unary_info := mkUnary (Some "10.0.0.7:5000") "/mmn.TxService/AddTx" 200.

Definition wire_http (body : string) :=
  @ServeHTTP wire_tx_env example_zk_env ledger_codec no_contents list_dedup wire_env bucket_impl text_env net_env
    true true (wire_request body) 99 None wire_server.


Lemma http_changes_by_adding_witness :
  ∃ resp sv', wire_http "pending" = Some (resp, sv') ∧ mp (srvNode sv') = mp (srvNode wire_server).
Proof.
  assert (H : fst <$> wire_http "pending" = Some (HBridge [APending (mkPendingTxs 0 [])]))
    by (vm_compute; reflexivity).
  destruct (wire_http "pending") as [[resp sv']|] eqn:E; [|discriminate H].
  exists resp, sv'. split; [reflexivity|].
  apply (@http_changes_by_adding wire_tx_env example_zk_env ledger_codec no_contents list_dedup wire_env bucket_impl
    text_env net_env true true (wire_request "pending") 99 None wire_server resp sv' E).
  right. reflexivity.
Defined.
