(* ===== verification/Boot.v ===== *)
(** * Starting a node (config/config.go, cmd/init.go, cmd/node.go)

    The keys of a node and its configuration are files; [init] writes them, creates
    the genesis accounts and the genesis block, and a node reads them when it starts.
    A [Machine] has the files and the database, with scripts of which of the next
    operations on them fail.  YAML, the random seed and the keys are parameters; the
    paths of the files are those in the data directory. *)

From stdpp Require Import base list gmap strings.
From Stdlib Require Import ZArith Lia Ascii.
From S2P Require Import Prelude GoLib Transaction Poh Schedule Block Store BlockStore Ledger Client.

Open Scope string_scope.
Open Scope list_scope.
Open Scope Z_scope.

(** ** config/types.go *)

(** An entry of the schedule has Go's [int]. *)
Record ConfigSchedule := mkConfigSchedule { csStartSlot : Z; csEndSlot : Z; csLeader : string }.
Record PohConfig := mkPohConfig { HashesPerTick : Z; cTicksPerSlot : Z; TickIntervalMs : Z }.
Record ValidatorConfig := mkValidatorConfig { cBatchSize : Z; LeaderTimeout : Z; LeaderTimeoutLoopInterval : Z }.
Record GenesisConfig := mkGenesisConfig {
  gcLeaderSchedule : list ConfigSchedule; gcAlloc : list GenesisAddress; gcPoh : PohConfig; gcMaxTxs : Z;
  gcValidator : ValidatorConfig; gcDecimals : Z;
}.

Class YamlEnv := { yaml_Decode : string → option GenesisConfig }.

(** ** Keys *)

Section Keys.
Context `{TE : TxEnv, WE : WireEnv}.

Inductive KeyError := NotEncoded | BadLength (n : Z).

(** The bytes of a key file: base58, or hexadecimal when that fails. *)
Definition key_bytes (content : string) : option string :=
  let keyHex := TrimSpace content in
  match DecodeBase58ToBytes keyHex with
  | Some b => if string_len b =? 0 then hex_DecodeString keyHex else Some b
  | None => hex_DecodeString keyHex
  end.

Definition LoadEd25519PrivKey (content : string) : result KeyError string :=
  match key_bytes content with
  | None => Err NotEncoded
  | Some privBytes =>
      if string_len privBytes =? 32 then Ok (NewKeyFromSeed privBytes)
      else if string_len privBytes =? 64 then Ok privBytes
      else Err (BadLength (string_len privBytes))
  end.

Definition LoadPubKeyFromPriv (content : string) : result KeyError string :=
  match key_bytes content with
  | None => Err NotEncoded
  | Some privBytes =>
      if string_len privBytes =? 32 then Ok (EncodeBytesToBase58 (public_key (NewKeyFromSeed privBytes)))
      else if string_len privBytes =? 64 then Ok (EncodeBytesToBase58 (public_key privBytes))
      else Err (BadLength (string_len privBytes))
  end.
End Keys.

(** [ConvertLeaderSchedule]; the conversion to [uint64] wraps.  The outer [None] is a
    panic, the inner one [log.Fatalf]. *)
Definition ConvertLeaderSchedule (es : list ConfigSchedule) : option (option LeaderSchedule) :=
  NewLeaderSchedule ((λ e, mkSchedule (wrap 64 (csStartSlot e)) (wrap 64 (csEndSlot e)) (csLeader e)) <$> es).

(** ** The machine *)

Record Machine := mkMachine {
  files : gmap string string; io_faults : list bool; database : gmap string string; db_faults : list bool;
}.

Inductive InitError :=
| MkdirFailed | BadKey (e : KeyError) | ReadFailed (path : string) | WriteFailed (path : string)
| SeedFailed | BadConfig | StoreFailed (e : StoreError).

Definition IM (A : Type) : Type := Machine → result InitError A * Machine.

#[export] Instance im_ret : MRet IM := λ A a m, (Ok a, m).
#[export] Instance im_bind : MBind IM := λ A B k f m,
  match f m with (Ok a, m') => k a m' | (Err e, m') => (Err e, m') end.
Definition im_throw {A} (e : InitError) : IM A := λ m, (Err e, m).
Definition im_ok {E A} (f : E → InitError) (r : result E A) : IM A :=
  match r with Ok a => mret a | Err e => im_throw (f e) end.

(** An operation on the files that can fail. *)
Definition io {A} (e : InitError) (f : gmap string string → option (A * gmap string string)) : IM A := λ m,
  let m' := mkMachine (files m) (tail (io_faults m)) (database m) (db_faults m) in
  if head (io_faults m) is Some true then (Err e, m')
  else match f (files m) with
       | None => (Err e, m')
       | Some (a, fs) => (Ok a, mkMachine fs (tail (io_faults m)) (database m) (db_faults m))
       end.

Definition ReadFile (path : string) : IM string := io (ReadFailed path) (λ fs, c ← fs !! path; Some (c, fs)).
Definition WriteFile (path content : string) : IM unit :=
  io (WriteFailed path) (λ fs, Some (tt, <[path := content]> fs)).
Definition MkdirAll : IM unit := io MkdirFailed (λ fs, Some (tt, fs)).

(** [os.Stat] without an error. *)
Definition stat_ok (path : string) : IM bool := λ m,
  match io (ReadFailed path) (λ fs, c ← fs !! path; Some (c, fs)) m with
  | (Ok _, m') => (Ok true, m')
  | (Err _, m') => (Ok false, m')
  end.

(** An operation of the stores over the database, opened with its counters. *)
Definition with_store {A} (f : ST A) : IM A := λ m,
  match f (mkStorage (database m) (db_faults m) 0 0) with
  | (Ok a, s) => (Ok a, mkMachine (files m) (io_faults m) (data s) (faults s))
  | (Err e, s) => (Err (StoreFailed e), mkMachine (files m) (io_faults m) (data s) (faults s))
  end.

(** ** cmd/init.go *)

Definition ZeroAddress : string := "0000000000000000000000000000000000000000000000000000000000000000".

Section Init.
Context `{TE : TxEnv, WE : WireEnv, SC : StoreCodec, YE : YamlEnv}.
Context (privKeyFile pubKeyFile genesisFile initGenesisPath : string).

(** With a key file given, its key is copied. *)
Definition copy_keys (initPrivKeyPath : string) : IM unit :=
  content ← ReadFile initPrivKeyPath;
  pubKey ← im_ok BadKey (LoadPubKeyFromPriv content);
  privKeyData ← ReadFile initPrivKeyPath;
  _ ← WriteFile privKeyFile privKeyData;
  WriteFile pubKeyFile pubKey.

(** Otherwise the keys are kept if both files are there, and generated if not; [seed] is
    what [rand.Read] gives. *)
Definition generate_keys (seed : option string) : IM unit :=
  privKeyExists ← stat_ok privKeyFile;
  pubKeyExists ← stat_ok pubKeyFile;
  if privKeyExists && pubKeyExists then
    content ← ReadFile privKeyFile;
    _ ← im_ok BadKey (LoadPubKeyFromPriv content);
    mret tt
  else
    seed ← (match seed with Some s => mret s | None => im_throw SeedFailed end);
    _ ← WriteFile privKeyFile (hex_EncodeToString seed);
    WriteFile pubKeyFile (hex_EncodeToString (public_key (NewKeyFromSeed seed))).

(** [loadConfiguration]. *)
Definition load_config (path : string) : IM GenesisConfig :=
  content ← ReadFile path;
  match yaml_Decode content with Some c => mret c | None => im_throw BadConfig end.

(** The genesis block; [now] is the time. *)
Definition genesis_block (now : Z) : BroadcastedBlock :=
  AssembleBlock 0 zero_hash ZeroAddress [NewTickEntry 1 zero_hash] now.

(** The part over the stores; the answer is whether the block was created. *)
Definition init_genesis (now : Z) (addrs : list GenesisAddress) : ST bool :=
  has ← HasCompleteBlock 0;
  if has : bool then mret false
  else
    _ ← CreateAccountsFromGenesis addrs;
    _ ← AddBlockPending (Some (genesis_block now));
    _ ← store_FinalizeBlock (BroadcastedBlockToBlock (genesis_block now)) ∅ ∅ ∅;
    mret true.

Definition initializeNode (initPrivKeyPath : string) (seed : option string) (now : Z) : IM bool :=
  _ ← MkdirAll;
  _ ← (if bool_decide (initPrivKeyPath = "") then generate_keys seed else copy_keys initPrivKeyPath);
  cfg ← load_config initGenesisPath;
  genesisData ← ReadFile initGenesisPath;
  _ ← WriteFile genesisFile genesisData;
  _ ← MkdirAll;
  with_store (_ ← loadLatestFinalized; init_genesis now (gcAlloc cfg)).
End Init.

(** ** The keys of a node *)

(** A character of the alphabet of base58: no zero, no capital I or O, no small L. *)
Definition base58_char (c : ascii) : bool :=
  let x := byte_at c in
  ((49 <=? x) && (x <=? 57)) || ((65 <=? x) && (x <=? 90) && negb (x =? 73) && negb (x =? 79)) ||
  ((97 <=? x) && (x <=? 122) && negb (x =? 108)).

Definition all_chars (f : ascii → bool) (s : string) : bool := forallb f (String.list_ascii_of_string s).

(** Base58 writes a number in base 58 and a leading one for every leading zero byte. *)
Class Base58Laws `(TE : TxEnv) : Prop := {
  base58_alphabet s : is_Some (base58_Decode s) ↔ s ≠ "" ∧ all_chars base58_char s = true;
  base58_len_lower s b : base58_Decode s = Some b → 58 ^ (string_len s - 1) < 256 ^ string_len b;
  base58_len_upper s b : base58_Decode s = Some b → String.get 0 s ≠ Some "1"%char →
    256 ^ (string_len b - 1) < 58 ^ string_len s;
}.

(** The digits of [hex_EncodeToString]. *)
Definition hex_char (c : ascii) : bool :=
  let x := byte_at c in ((48 <=? x) && (x <=? 57)) || ((97 <=? x) && (x <=? 102)).

Lemma hex_digit_char n : 0 ≤ n < 16 → hex_char (hex_digit n) = true.
Proof.
  intros Hn. unfold hex_char, hex_digit. destruct (n <? 10) eqn:E; rewrite byte_at_to, Z.mod_small by lia; lia.
Qed.

Lemma hex_all_chars s : all_chars hex_char (hex_EncodeToString s) = true.
Proof.
  induction s as [|c s IH]; [done|]. unfold all_chars in *. simpl. pose proof (byte_at_range c).
  rewrite IH, !hex_digit_char; [done|apply Z.mod_pos_bound; lia|].
  split; [apply Z.div_pos; lia|apply Z.div_lt_upper_bound; lia].
Qed.

Lemma key_hex_len s : string_len (hex_EncodeToString s) = 2 * string_len s.
Proof. unfold string_len. induction s as [|c s IH]; [done|]. simpl hex_EncodeToString. cbn [String.length]. lia. Qed.

(** A string of such digits has no spaces to trim. *)
Lemma hex_chunks fuel s : (String.length s ≤ fuel)%nat → all_chars hex_char s = true →
  space_chunks fuel s = (λ c, (false, String c "")) <$> String.list_ascii_of_string s.
Proof.
  revert fuel. induction s as [|c s IH]; intros [|fuel] Hl Hc; try done; simpl in Hl; [lia|].
  unfold all_chars in *. simpl in Hc. apply andb_true_iff in Hc as [Hc Hs].
  cbn [space_chunks]. replace (space_len (String c s)) with 0%nat; [simpl; by rewrite IH by (done || lia)|].
  unfold hex_char in Hc. unfold space_len. cbv zeta.
  replace ((9 <=? byte_at c) && (byte_at c <=? 13) || (byte_at c =? 32)) with false by lia.
  destruct s as [|d s]; [done|].
  replace ((byte_at c =? 194) && _) with false by lia.
  destruct s as [|e s]; [done|].
  replace (byte_at c =? 225) with false by lia. replace (byte_at c =? 226) with false by lia.
  by replace (byte_at c =? 227) with false by lia.
Qed.

Lemma drop_no_spaces (l : list ascii) :
  drop_spaces ((λ c, (false, String c "")) <$> l) = (λ c, (false, String c "")) <$> l.
Proof. by destruct l. Qed.

Lemma chunks_concat s :
  foldr (λ p r, snd p +:+ r) "" ((λ c : ascii, (false, String c "")) <$> String.list_ascii_of_string s) = s.
Proof.
  induction s as [|c s IH]; [done|]. cbn [String.list_ascii_of_string]. rewrite fmap_cons. cbn [foldr snd].
  by rewrite IH.
Qed.

Lemma TrimSpace_hex s : all_chars hex_char s = true → TrimSpace s = s.
Proof.
  intros Hs. unfold TrimSpace. rewrite hex_chunks by done. cbv zeta. rewrite drop_no_spaces, <- fmap_reverse.
  rewrite drop_no_spaces, <- fmap_reverse, reverse_involutive. apply chunks_concat.
Qed.

Section Keys2.
Context `{TE : TxEnv, WE : WireEnv}.

(** The public key that a node is known by is that of the private key it signs with, and
    one of the two files loads exactly when the other does. *)
Theorem loaded_keys_match (content : string) :
  LoadPubKeyFromPriv content =
  match LoadEd25519PrivKey content with
  | Ok priv => Ok (EncodeBytesToBase58 (public_key priv))
  | Err e => Err e
  end.
Proof.
  unfold LoadPubKeyFromPriv, LoadEd25519PrivKey. destruct (key_bytes content) as [b|]; [|done].
  destruct (string_len b =? 32); [done|]. by destruct (string_len b =? 64).
Qed.

Lemma hex_base58_chars s : all_chars hex_char s = true →
  all_chars base58_char s = all_chars (λ c, negb (byte_at c =? 48)) s.
Proof.
  unfold all_chars. induction s as [|c s IH]; [done|]. simpl. intros [Hc Hs]%andb_true_iff. rewrite (IH Hs). f_equal.
  unfold hex_char, base58_char in *. lia.
Qed.

(** The private key that [init] generates and writes in hexadecimal is read first as
    base58.  It loads if it has a digit zero, which base58 does not have; without a zero,
    and when its first digit is not one, it decodes as base58 to 47 bytes and is refused:
    the node does not start with the key that [init] has made. *)
Theorem generated_key_loads `{!Base58Laws TE} (seed : string) :
  string_len seed = 32 →
  let file := hex_EncodeToString seed in
  (all_chars (λ c, negb (byte_at c =? 48)) file = false →
     LoadEd25519PrivKey file = Ok (NewKeyFromSeed seed)) ∧
  (all_chars (λ c, negb (byte_at c =? 48)) file = true → String.get 0 file ≠ Some "1"%char →
     LoadEd25519PrivKey file = Err (BadLength 47)).
Proof.
  intros Hl file. pose proof (hex_all_chars seed) as Hh. fold file in Hh.
  assert (Hf : string_len file = 64) by (unfold file; rewrite key_hex_len; lia).
  assert (Hn : file ≠ "") by (intros E; by rewrite E in Hf).
  unfold LoadEd25519PrivKey, key_bytes, DecodeBase58ToBytes. rewrite TrimSpace_hex by done. cbv zeta.
  pose proof (base58_alphabet file) as Ha. rewrite hex_base58_chars in Ha by done.
  split; intros Hz; rewrite Hz in Ha.
  - destruct (base58_Decode file) as [b|]; [by destruct (proj1 Ha (ex_intro _ b eq_refl))|].
    unfold file. rewrite hex_roundtrip. by rewrite Hl.
  - intros H1. destruct (proj2 Ha (conj Hn eq_refl)) as [b Hb]. rewrite Hb.
    pose proof (base58_len_lower _ _ Hb) as Hlo. pose proof (base58_len_upper _ _ Hb H1) as Hup.
    rewrite Hf in Hlo, Hup.
    cut (string_len b = 47); [intros E; rewrite E; cbn -[string_len]; by rewrite E|].
    assert (46 < string_len b).
    { apply (Z.pow_lt_mono_r_iff 256); [lia|unfold string_len; lia|].
      eapply Z.le_lt_trans; [|exact Hlo]. vm_compute. discriminate. }
    assert (string_len b - 1 < 47); [|lia]. apply (Z.pow_lt_mono_r_iff 256); [lia|lia|].
    eapply Z.lt_trans; [exact Hup|]. vm_compute. reflexivity.
Qed.
End Keys2.

(** ** Base58 *)

Module Base58.

Definition digit (c : ascii) : Z :=
  let x := byte_at c in
  if x <=? 57 then x - 49 else if x <=? 72 then x - 56 else if x <=? 78 then x - 57
  else if x <=? 90 then x - 58 else if x <=? 107 then x - 64 else x - 65.

Fixpoint value (acc : Z) (ds : list Z) : Z :=
  match ds with [] => acc | d :: ds' => value (58 * acc + d) ds' end.

Fixpoint leading (ds : list Z) : nat :=
  match ds with d :: ds' => if d =? 0 then S (leading ds') else O | [] => O end.

(** The bytes of a number without leading zeros. *)
Definition byte_count (v : Z) : nat := if v =? 0 then 0%nat else Z.to_nat (Z.log2 v / 8 + 1).

Fixpoint zero_bytes (n : nat) : string := match n with O => "" | S n' => String (to_byte 0) (zero_bytes n') end.

Definition decode (s : string) : option string :=
  if bool_decide (s = "") || negb (all_chars base58_char s) then None
  else
    let ds := digit <$> String.list_ascii_of_string s in
    Some (zero_bytes (leading ds) +:+ be_bytes (byte_count (value 0 ds)) (value 0 ds)).

Lemma digit_range c : base58_char c = true → 0 ≤ digit c < 58 ∧ (digit c = 0 → c = "1"%char).
Proof.
  unfold base58_char, digit. intros Hc. split; [repeat case_match; lia|]. intros Hd.
  rewrite <- (to_byte_at c). assert (byte_at c = 49) as -> by (revert Hd; repeat case_match; lia). done.
Qed.

Lemma digits_range s : all_chars base58_char s = true →
  Forall (λ d, 0 ≤ d < 58) (digit <$> String.list_ascii_of_string s).
Proof.
  unfold all_chars. induction s as [|c s IH]; simpl; [constructor|]. intros [Hc Hs]%andb_true_iff.
  constructor; [by apply digit_range|by apply IH].
Qed.

Lemma value_bounds ds acc : Forall (λ d, 0 ≤ d < 58) ds → 0 ≤ acc →
  acc * 58 ^ Z.of_nat (length ds) ≤ value acc ds < (acc + 1) * 58 ^ Z.of_nat (length ds).
Proof.
  intros Hd. revert acc. induction Hd as [|d ds Hr _ IH]; intros acc Ha; [simpl; lia|].
  cbn [value length]. rewrite Nat2Z.inj_succ, Z.pow_succ_r by lia.
  specialize (IH (58 * acc + d) ltac:(lia)). assert (0 < 58 ^ Z.of_nat (length ds)) by (apply Z.pow_pos_nonneg; lia).
  nia.
Qed.

Lemma byte_count_bounds v : 0 ≤ v →
  v < 256 ^ Z.of_nat (byte_count v) ∧ (v ≠ 0 → 256 ^ (Z.of_nat (byte_count v) - 1) ≤ v).
Proof.
  intros Hv. unfold byte_count. destruct (Z.eqb_spec v 0) as [->|Hn]; [done|].
  destruct (Z.log2_spec v) as [H1 H2]; [lia|]. pose proof (Z.log2_nonneg v) as Hl.
  assert (0 ≤ Z.log2 v / 8) by (apply Z.div_pos; lia).
  pose proof (Z.div_mod (Z.log2 v) 8 ltac:(lia)). pose proof (Z.mod_pos_bound (Z.log2 v) 8 ltac:(lia)).
  rewrite Z2Nat.id by lia. change 256 with (2 ^ 8). rewrite <- !Z.pow_mul_r by lia. split.
  - eapply Z.lt_le_trans; [exact H2|]. apply Z.pow_le_mono_r; lia.
  - intros _. eapply Z.le_trans; [|exact H1]. apply Z.pow_le_mono_r; lia.
Qed.

Lemma be_bytes_len n v : String.length (be_bytes n v) = n.
Proof. revert v. induction n as [|n IH]; intros v; [done|]. simpl. by rewrite IH. Qed.

Lemma decoded_len n m v : string_len (zero_bytes n +:+ be_bytes m v) = Z.of_nat n + Z.of_nat m.
Proof.
  unfold string_len. induction n as [|n IH]; cbn [zero_bytes].
  - change (EmptyString +:+ be_bytes m v) with (be_bytes m v). rewrite be_bytes_len. lia.
  - rewrite app_cons_string. cbn [String.length]. lia.
Qed.

Lemma decode_lower ds : Forall (λ d, 0 ≤ d < 58) ds → ds ≠ [] →
  58 ^ (Z.of_nat (length ds) - 1) < 256 ^ (Z.of_nat (leading ds) + Z.of_nat (byte_count (value 0 ds))).
Proof.
  intros Hd. induction Hd as [|d ds Hr Hd IH]; [done|]. intros _. cbn [length leading value].
  replace (Z.of_nat (S (length ds)) - 1) with (Z.of_nat (length ds)) by lia.
  destruct (Z.eqb_spec d 0) as [->|Hn].
  - destruct ds as [|e ds]; [done|]. specialize (IH ltac:(done)). change (58 * 0 + 0) with 0.
    rewrite Nat2Z.inj_succ, Z.add_succ_l, Z.pow_succ_r by lia.
    replace (58 ^ Z.of_nat (length (e :: ds))) with (58 * 58 ^ (Z.of_nat (length (e :: ds)) - 1)).
    + nia.
    + rewrite <- Z.pow_succ_r by (simpl; lia). f_equal. lia.
  - destruct (value_bounds ds (58 * 0 + d)) as [Hlo _]; [done|lia|].
    destruct (byte_count_bounds (value (58 * 0 + d) ds)) as [Hb _];
      [pose proof (Z.pow_nonneg 58 (Z.of_nat (length ds))); nia|].
    rewrite Z.add_0_l. pose proof (Z.pow_nonneg 58 (Z.of_nat (length ds))). nia.
Qed.

Lemma decode_upper d ds : Forall (λ d, 0 ≤ d < 58) (d :: ds) → d ≠ 0 →
  256 ^ (Z.of_nat (byte_count (value 0 (d :: ds))) - 1) < 58 ^ Z.of_nat (length (d :: ds)).
Proof.
  intros Hd Hn. destruct (value_bounds (d :: ds) 0 Hd) as [_ Hup]; [lia|].
  pose proof Hd as Hr. apply Forall_cons in Hr as [Hr Hds].
  destruct (value_bounds ds (58 * 0 + d) Hds) as [Hlo _]; [lia|]. cbn [value] in *.
  pose proof (Z.pow_pos_nonneg 58 (Z.of_nat (length ds)) ltac:(lia) ltac:(lia)).
  destruct (byte_count_bounds (value (58 * 0 + d) ds)) as [_ Hb]; [nia|].
  eapply Z.le_lt_trans; [apply Hb; nia|lia].
Qed.

(** The environment of the wire with this codec. *)
Definition env : TxEnv := {|
  uint256_String := @uint256_String wire_tx_env;
  base58_Decode := decode;
  base58_Encode s := s;
  ed25519_Verify := @ed25519_Verify wire_tx_env;
  sha256_Sum256 := @sha256_Sum256 wire_tx_env;
  edwards25519_SetBytes := @edwards25519_SetBytes wire_tx_env;
  json_of_tx := @json_of_tx wire_tx_env;
  json_to_UserSig := @json_to_UserSig wire_tx_env;
|}.

Lemma decode_some s b : decode s = Some b →
  s ≠ "" ∧ all_chars base58_char s = true ∧
  let ds := digit <$> String.list_ascii_of_string s in
  Forall (λ d, 0 ≤ d < 58) ds ∧ string_len s = Z.of_nat (length ds) ∧ ds ≠ [] ∧
  string_len b = Z.of_nat (leading ds) + Z.of_nat (byte_count (value 0 ds)).
Proof.
  unfold decode. destruct (bool_decide_reflect (s = "")) as [|Hs]; [done|].
  destruct (all_chars base58_char s) eqn:Ha; [|done]. cbn [orb negb]. intros [= <-]. split_and!; try done.
  - by apply digits_range.
  - rewrite length_fmap. unfold string_len. clear. induction s as [|c s IH]; simpl in *; lia.
  - by destruct s.
  - apply decoded_len.
Qed.

#[export] Instance env_laws : Base58Laws env.
Proof.
  split; simpl.
  - intros s. split.
    + intros [b Hb]. by apply decode_some in Hb as (? & ? & _).
    + intros [Hs Ha]. unfold decode. rewrite bool_decide_false, Ha by done. by eexists.
  - intros s b (_ & _ & Hd & -> & Hn & ->)%decode_some. by apply decode_lower.
  - intros s b Hb H1. pose proof (decode_some s b Hb) as (Hs & Ha & Hd & -> & _ & ->).
    destruct s as [|c s]; [done|]. unfold all_chars in Ha. simpl in Ha. apply andb_true_iff in Ha as [Hc _].
    assert (digit c ≠ 0) as Hz by (intros E; apply digit_range in E; [by subst|done]).
    cbn [String.list_ascii_of_string] in *. rewrite fmap_cons in Hd |- *. cbn [leading]. rewrite (proj2 (Z.eqb_neq _ _) Hz). by apply decode_upper.
Qed.
End Base58.

(** ** Genesis *)

Section Genesis.
Context `{TE : TxEnv, WE : WireEnv, SC : StoreCodec, YE : YamlEnv}.

Lemma no_faults_step {A} (f : gmap string string → A * gmap string string) s : faults s = [] →
  db_step f s = (Ok (fst (f (data s))), mkStorage (snd (f (data s))) [] (latestFinalized s) (latestStore s)).
Proof. intros E. unfold db_step. rewrite E. by destruct (f (data s)). Qed.

Lemma has_block_no_faults slot s : faults s = [] →
  HasCompleteBlock slot s = (Ok (bool_decide (is_Some (data s !! key_of (KBlock slot)))), s).
Proof.
  intros E. unfold HasCompleteBlock, or_false, db_Has. rewrite no_faults_step by done. simpl.
  destruct s as [d fs lf ls]. simpl in *. by subst.
Qed.

(** When the genesis block is stored, [init] changes nothing and succeeds. *)
Theorem init_after_block (now : Z) (addrs : list GenesisAddress) (s : Storage) :
  faults s = [] → is_Some (data s !! key_of (KBlock 0)) → init_genesis now addrs s = (Ok false, s).
Proof.
  intros Hf Hb. unfold init_genesis. rewrite st_bind_eq, has_block_no_faults by done.
  by rewrite bool_decide_true.
Qed.

(** When the genesis block is not stored but an account of the configuration is, [init]
    fails and changes nothing: it cannot be run again after it was interrupted between
    the accounts and the block. *)
Theorem init_after_accounts (now : Z) (a : GenesisAddress) (addrs : list GenesisAddress) (s : Storage) :
  faults s = [] → data s !! key_of (KBlock 0) = None → is_Some (data s !! key_of (KAccount (gAddress a))) →
  init_genesis now (a :: addrs) s = (Err AccountExisted, s).
Proof.
  intros Hf Hb Ha. unfold init_genesis. rewrite st_bind_eq, has_block_no_faults by done.
  rewrite Hb, bool_decide_false by (by intros [? ?]). cbn [CreateAccountsFromGenesis].
  rewrite !st_bind_eq. unfold createAccountWithoutLocking. rewrite st_bind_eq.
  unfold account_ExistsByAddr, db_Has. rewrite no_faults_step by done. simpl. rewrite bool_decide_true by done.
  unfold st_throw. destruct s as [d fs lf ls]. simpl in *. by subst.
Qed.
End Genesis.

Section GenesisDone.
Context `{TE : TxEnv, WE : WireEnv, SC : StoreCodec, YE : YamlEnv}.

(** What the genesis block writes besides itself is not an account. *)
Lemma genesis_pending now s s' : AddBlockPending (Some (genesis_block now)) s = (Ok tt, s') →
  ∀ a, data s' !! key_of (KAccount a) = data s !! key_of (KAccount a).
Proof.
  intros E a. pose proof (AddBlockPending_cases (genesis_block now) s) as HA. rewrite E in HA.
  destruct HA as (_ & value & puts & _ & Hp & -> & _). injection Hp as <-.
  apply batch_apply_ne. unfold pending_batch. simpl. destruct (latestStore s <? 0); simpl;
    rewrite !not_elem_of_cons; split_and!; try apply not_elem_of_nil; by intros ?.
Qed.

Lemma genesis_finalized now s s' :
  store_FinalizeBlock (BroadcastedBlockToBlock (genesis_block now)) ∅ ∅ ∅ s = (Ok tt, s') →
  (∀ a, data s' !! key_of (KAccount a) = data s !! key_of (KAccount a)) ∧
  is_Some (data s' !! key_of (KBlock 0)) ∧
  data s' !! key_of (KFinalized 0) = Some (String (to_byte 1) "") ∧ latestFinalized s' = 0.
Proof.
  intros E.
  pose proof (FinalizeBlock_cases (BroadcastedBlockToBlock (genesis_block now)) ∅ ∅ ∅ s) as HF. rewrite E in HF.
  destruct HF as (_ & Hl & _ & kb & bv & -> & Hk & _ & Hb & _ & _ & _ & Hf & _); [by intros ?|by intros ?|].
  destruct (finalize_keys_nodup 0 (latestFinalized s) ∅ ∅ ∅) as [Hnd Hok]; [done|].
  change (bSlot _) with 0 in Hk. rewrite <- Hk in Hnd, Hok. destruct (keyed_lookup kb (data s) Hok Hnd) as [Hin Hout].
  split_and!; [|by eexists; apply Hin|by apply Hin|done].
  intros a. apply Hout; [done|]. rewrite Hk. unfold finalize_keys. rewrite !map_to_list_empty. simpl.
  destruct (latestFinalized s <? 0); rewrite !not_elem_of_cons; split_and!; try apply not_elem_of_nil; by intros ?.
Qed.

(** When [init] reports that it has created the genesis block, every account of the
    configuration is stored with its amount and nonce zero, and the block of slot 0 is
    stored and marked as applied. *)
Theorem init_creates_genesis printable `{!StoreCodecOk printable} (now : Z) (addrs : list GenesisAddress)
    (s s' : Storage) :
  (∀ g, g ∈ addrs → printable (gAddress g) ∧ in_width 256 (gAmount g)) →
  init_genesis now addrs s = (Ok true, s') →
  (∀ g, g ∈ addrs → stored (data s') (gAddress g) = Some (mkAccount (gAddress g) (gAmount g) 0)) ∧
  is_Some (data s' !! key_of (KBlock 0)) ∧
  data s' !! key_of (KFinalized 0) = Some (String (to_byte 1) "") ∧ latestFinalized s' = 0.
Proof.
  intros Hp E. unfold init_genesis in E. rewrite st_bind_eq in E.
  destruct (HasCompleteBlock 0 s) as [[[|]|e] s0]; try done. rewrite st_bind_eq in E.
  destruct (CreateAccountsFromGenesis addrs s0) as [[[]|e] s1] eqn:E1; [|done]. rewrite st_bind_eq in E.
  destruct (AddBlockPending _ s1) as [[[]|e] s2] eqn:E2; [|done]. rewrite st_bind_eq in E.
  destruct (store_FinalizeBlock _ ∅ ∅ ∅ s2) as [[[]|e] s3] eqn:E3; [|done]. injection E as <-.
  destruct (genesis_created printable addrs s0 s1 Hp E1) as (_ & Hin & _).
  apply genesis_finalized in E3 as (Ha & Hb). split; [|done].
  intros g Hg. destruct (Hin g Hg) as [_ <-]. unfold stored. by rewrite Ha, (genesis_pending now s1 s2 E2).
Qed.
End GenesisDone.

(** ** A machine *)

Module Examples.

Definition config : GenesisConfig :=
  mkGenesisConfig [mkConfigSchedule 1 10 "leader"] [mkGenesis "a" 7; mkGenesis "b" 8] (mkPohConfig 1 4 100) 1000
    (mkValidatorConfig 10 50 5) 6.
Definition yaml : YamlEnv := {| yaml_Decode s := if bool_decide (s = "genesis") then Some config else None |}.

Definition machine (io db : list bool) : Machine := mkMachine {[ "genesis.yml" := "genesis" ]} io ∅ db.
Definition init_with (seed : string) : Machine → result InitError bool * Machine :=
  @initializeNode Base58.env wire_env ledger_codec yaml "data/privkey.txt" "data/pubkey.txt" "data/genesis.yml"
    "genesis.yml" "" (Some seed) 5.

(** Seeds of which the hexadecimal digits have a zero, or none. *)
Definition seed0 : string := be_bytes 32 77.
Definition seed_ab : string := be_bytes 32 (0xABABABABABABABABABABABABABABABABABABABABABABABABABABABABABABABAB).

Lemma generated_key_loads_witness :
  @LoadEd25519PrivKey Base58.env wire_env (hex_EncodeToString seed0) = Ok (@NewKeyFromSeed wire_env seed0) ∧
  @LoadEd25519PrivKey Base58.env wire_env (hex_EncodeToString seed_ab) = Err (BadLength 47).
Proof.
  split.
  - destruct (@generated_key_loads Base58.env wire_env Base58.env_laws seed0) as [H _]; [reflexivity|].
    apply H. reflexivity.
  - destruct (@generated_key_loads Base58.env wire_env Base58.env_laws seed_ab) as [_ H]; [reflexivity|].
    apply H; [reflexivity|]. vm_compute. discriminate.
Defined.

(** [init] succeeds with a key that has no digit zero, and fails when it is run again
    because it cannot read the key it has written. *)
Theorem init_not_idempotent_key :
  let run := init_with seed_ab (machine [] []) in
  fst run = Ok true ∧ fst (init_with seed_ab (snd run)) = Err (BadKey (BadLength 47)) ∧
  fst (init_with seed0 (snd (init_with seed0 (machine [] [])))) = Ok false.
Proof. vm_compute. done. Qed.

(** [init] interrupted between the accounts and the genesis block fails for ever;
    interrupted between the block and its finalization it reports success, and the
    block stays unfinalized. *)
Theorem init_not_idempotent_faults :
  let after_accounts := snd (init_with seed0 (machine [] [false; false; false; false; false; false; true])) in
  let after_block := snd (init_with seed0 (machine [] [false; false; false; false; false; false; false; false; true])) in
  fst (init_with seed0 after_accounts) = Err (StoreFailed AccountExisted) ∧
  fst (init_with seed0 after_block) = Ok false ∧
  database (snd (init_with seed0 after_block)) !! key_of (KFinalized 0) = None.
Proof. vm_compute. done. Qed.

Lemma init_after_block_witness :
  is_Some (database (snd (init_with seed0 (machine [] []))) !! key_of (KBlock 0)) ∧
  @init_genesis Base58.env ledger_codec 5 [] (mkStorage {[ key_of (KBlock 0) := "" ]} [] 0 0) =
    (Ok false, mkStorage {[ key_of (KBlock 0) := "" ]} [] 0 0).
Proof.
  split; [vm_compute; eexists; reflexivity|].
  apply (@init_after_block Base58.env ledger_codec); [reflexivity|]. eexists. reflexivity.
Defined.
End Examples.
