(* ===== verification/Transfer.v ===== *)
(** * The client's calls and the command transfer (client/client.go, cmd/transfer.go)

    A call of the client goes over a connection to the gRPC server of Gateway.v: it may
    not be sent, or be handled and its answer lost.  The command [transfer] reads a
    key, asks for a nonce, builds, signs and sends a transaction, waits, and looks the
    transaction and the recipient up.  The file system, the sizes of encoded messages
    and the check of an endpoint are the class [ClientEnv]; time passes through
    arguments.  A panic is [None]. *)

From stdpp Require Import base list gmap strings.
From Stdlib Require Import ZArith Lia Ascii.
From S2P Require Import Prelude GoLib Transaction Poh Schedule Consensus Block Store BlockStore Ledger.
From S2P Require Import Mempool Node Validator Limits Events Client Service Gateway Boot.

Open Scope string_scope.
Open Scope list_scope.
Open Scope Z_scope.

Class ClientEnv := {
  (** Whether [grpc.NewClient] takes an endpoint, with or without TLS. *)
  grpc_NewClient : string → bool → bool;
  (** [os.ReadFile]. *)
  os_ReadFile : string → option string;
  (** The sizes of the encoded requests. *)
  size_SignedTxMsg : SignedTxMsg → Z;
  size_GetTxByHashRequest : string → Z;
  size_GetAccountRequest : string → Z;
  size_GetCurrentNonceRequest : string → string → Z;
}.

(** ** client.go *)

Record Config := mkConfig { Endpoint : string; UseTLS : bool }.

(** What becomes of a call: answered, not sent, or handled with the answer lost. *)
Inductive delivery := Answered | NotSent | AnswerLost.

(** The connection: the address the server sees, and whether the server limits
    addresses and has a limiter. *)
Record link := mkLink { lkPeer : option string; lkEnable : bool; lkLimiter : bool }.

Inductive CallError := Unreachable | Refused (e : GatewayError).

Record AddTxResponse := mkAddTxResponse { rspOk : bool; rspTxHash : string; rspError : option ServiceError }.

(** The client's view of a transaction. *)
Record ClientTxInfo := mkClientTxInfo {
  ciSender : string; ciRecipient : string; ciAmount : option Z; ciTimestamp : Z; ciTextData : string;
  ciNonce : Z; ciSlot : Z; ciBlockhash : string; ciStatus : Z; ciErrMsg : string; ciExtraInfo : string;
  ciTxHash : string;
}.

(** ** transfer.go *)

Record TransferConfig := mkTransferConfig {
  tcPrivateKey : string; tcPrivateKeyFile : string; tcNodeURL : string; tcTo : string; tcAmount : string;
  tcMessage : string;
}.

Inductive TransferError :=
| BadAmount | KeyNotLoaded | KeyNotParsed | NoClient | NonceFailed (e : CallError) | BuildFailed (e : ClientError)
| SignFailed (e : ClientError) | SendFailed (e : CallError) | NotAdded (e : option ServiceError)
| StatusFailed (e : CallError) | FundingError (msg : string) | RecipientFailed (e : CallError).

(** [strings.ReplaceAll(s, "_", "")]. *)
Fixpoint drop_underscores (s : string) : string :=
  match s with
  | EmptyString => EmptyString
  | String c s' => if bool_decide (c = "_"%char) then drop_underscores s' else String c (drop_underscores s')
  end.

Section Transfer.
Context `{TE : TxEnv, ZE : ZkEnv, SC : StoreCodec, CC : ContentCodec, DC : DedupCache, WE : WireEnv}.
Context `{LI : LimiterImpl, XE : TextEnv, NE : NetEnv, CE : ClientEnv}.

Definition NewClient (cfg : Config) : bool := grpc_NewClient (Endpoint cfg) (UseTLS cfg).

(** A unary call of a stub. *)
Definition invoke {A} (lk : link) (d : delivery) (method : string) (size now : Z)
    (handler : Server → option (result ServiceError A * Server)) (sv : Server)
    : option (result CallError A * Server) :=
  match d with
  | NotSent => Some (Err Unreachable, sv)
  | _ =>
      '(r, sv) ← unary (lkEnable lk) (lkLimiter lk) (mkUnary (lkPeer lk) method size) now handler sv;
      Some (match d, r with
            | Answered, Ok a => Ok a
            | Answered, Err e => Err (Refused e)
            | _, _ => Err Unreachable
            end, sv)
  end.

(** A response that is not ok is an error of the handler in Service.v. *)
Definition client_AddTx (lk : link) (d : delivery) (now : Z) (tx : SignedTx) (sv : Server)
    : option (result CallError AddTxResponse * Server) :=
  let txMsg := ToProtoSigTx tx in
  '(res, sv) ← invoke lk d "/mmn.TxService/AddTx" (size_SignedTxMsg txMsg) now
                 (grpc_AddTx txMsg (extractClientIP (lkPeer lk)) now) sv;
  Some (match res with Err e => Err e | Ok h => Ok (mkAddTxResponse true h None) end, sv).

Definition client_GetAccount (lk : link) (d : delivery) (now : Z) (addr : string) (sv : Server)
    : option (result CallError ClientAccount * Server) :=
  '(res, sv) ← invoke lk d "/mmn.AccountService/GetAccount" (size_GetAccountRequest addr) now
                 (λ sv, Some (grpc_GetAccount addr sv)) sv;
  Some (match res with Err e => Err e | Ok r => Ok (FromProtoAccount r) end, sv).

Definition client_info (i : TxInfo) : ClientTxInfo :=
  mkClientTxInfo (tiSender i) (tiRecipient i) (Uint256FromString (tiAmount i)) (tiTimestamp i) (tiTextData i)
    (tiNonce i) (tiSlot i) (tiBlockhash i) (status_int32 (tiStatus i)) (tiErrMsg i) (tiExtraInfo i) (tiTxHash i).

Definition client_GetTxByHash (lk : link) (d : delivery) (now : Z) (txHash : string) (sv : Server)
    : option (result CallError ClientTxInfo * Server) :=
  '(res, sv) ← invoke lk d "/mmn.TxService/GetTxByHash" (size_GetTxByHashRequest txHash) now
                 (λ sv, Some (grpc_GetTxByHash txHash sv)) sv;
  Some (match res with Err e => Err e | Ok i => Ok (client_info i) end, sv).

Definition client_GetCurrentNonce (lk : link) (d : delivery) (now : Z) (addr tag : string) (sv : Server)
    : option (result CallError Z * Server) :=
  invoke lk d "/mmn.AccountService/GetCurrentNonce" (size_GetCurrentNonceRequest addr tag) now
    (λ sv, Some (grpc_GetCurrentNonce addr tag sv, sv)) sv.

(** ** transfer.go *)

Definition loadSenderPrivateKey (cfg : TransferConfig) : option string :=
  if negb (bool_decide (tcPrivateKey cfg = "")) then Some (tcPrivateKey cfg) else os_ReadFile (tcPrivateKeyFile cfg).

(** The address and the key; the inner [None] is the error of the decoding.  The last 32
    bytes are the seed: a slice of fewer bytes panics. *)
Definition parsePrivateKey (privKeyStr : string) : option (option (string * string)) :=
  match hex_DecodeString (TrimSpace privKeyStr) with
  | None => Some None
  | Some privBytes =>
      if string_len privBytes <? 32 then None
      else
        let private := NewKeyFromSeed (string_drop (String.length privBytes - 32) privBytes) in
        Some (Some (base58_Encode (public_key private), private))
  end.

(** [PrivateKey.Seed]. *)
Definition key_Seed (private : string) : string := String.substring 0 32 private.

(** [createClient]. *)
Definition createClient (cfg : TransferConfig) : bool := NewClient (mkConfig (tcNodeURL cfg) false).

(** [transferToken] up to the answer to the transaction.  [net] and [clock] are what
    becomes of each call and its time at the server in milliseconds; [unix] is the
    client's time in seconds. *)
Definition transfer_send (lk : link) (net : nat → delivery) (clock : nat → Z) (unix : Z) (cfg : TransferConfig)
    (sv : Server) : option (result TransferError AddTxResponse * Server) :=
  match uint256_FromDecimal (drop_underscores (tcAmount cfg)) with
  | None => Some (Err BadAmount, sv)
  | Some amount =>
      match loadSenderPrivateKey cfg with
      | None => Some (Err KeyNotLoaded, sv)
      | Some privKeyStr =>
          key ← parsePrivateKey privKeyStr;
          match key with
          | None => Some (Err KeyNotParsed, sv)
          | Some (senderAddress, senderPrivateKey) =>
              if negb (createClient cfg) then Some (Err NoClient, sv)
              else
                '(nonce, sv) ← client_GetCurrentNonce lk (net 0%nat) (clock 0%nat) senderAddress "pending" sv;
                match nonce with
                | Err e => Some (Err (NonceFailed e), sv)
                | Ok nonce =>
                    match BuildTransferTx TxTypeTransferByKey senderAddress (tcTo cfg) (Some amount) nonce
                            (wrap 64 unix) (tcMessage cfg) None "" "" with
                    | Err e => Some (Err (BuildFailed e), sv)
                    | Ok unsigned =>
                        signedTx ← SignTx unsigned senderAddress (key_Seed senderPrivateKey);
                        match signedTx with
                        | Err e => Some (Err (SignFailed e), sv)
                        | Ok signedTx =>
                            '(r, sv) ← client_AddTx lk (net 1%nat) (clock 1%nat) signedTx sv;
                            Some (match r with
                                  | Err e => Err (SendFailed e)
                                  | Ok r => if negb (rspOk r) then Err (NotAdded (rspError r)) else Ok r
                                  end, sv)
                        end
                    end
                end
          end
      end
  end.

(** The rest, after the four seconds. *)
Definition transfer_confirm (lk : link) (net : nat → delivery) (clock : nat → Z) (cfg : TransferConfig)
    (txHash : string) (sv : Server) : option (result TransferError ClientAccount * Server) :=
  '(txInfo, sv) ← client_GetTxByHash lk (net 2%nat) (clock 2%nat) txHash sv;
  match txInfo with
  | Err e => Some (Err (StatusFailed e), sv)
  | Ok txInfo =>
      if negb (bool_decide (ciErrMsg txInfo = "")) then Some (Err (FundingError (ciErrMsg txInfo)), sv)
      else
        '(acc, sv) ← client_GetAccount lk (net 3%nat) (clock 3%nat) (tcTo cfg) sv;
        Some (match acc with Err e => Err (RecipientFailed e) | Ok acc => Ok acc end, sv)
  end.

(** [wait] is what happens to the server in the four seconds. *)
Definition transferToken (lk : link) (net : nat → delivery) (clock : nat → Z) (unix : Z) (wait : Server → Server)
    (cfg : TransferConfig) (sv : Server) : option (result TransferError ClientAccount * Server) :=
  '(r, sv) ← transfer_send lk net clock unix cfg sv;
  match r with
  | Err e => Some (Err e, sv)
  | Ok resp => transfer_confirm lk net clock cfg (rspTxHash resp) (wait sv)
  end.
End Transfer.

(** ** A transfer that the pool takes *)

(** A private key begins with its seed. *)
Class KeySeedOk (WE : WireEnv) : Prop := {
  key_Seed_ok seed : string_len seed = 32 → key_Seed (NewKeyFromSeed seed) = seed;
}.

Section Accepted.
Context `{TE : TxEnv, ZE : ZkEnv, SC : StoreCodec, CC : ContentCodec, DC : DedupCache, WE : WireEnv}.
Context `{LI : LimiterImpl, XE : TextEnv, NE : NetEnv, CE : ClientEnv}.

Lemma GetAccount_found addr acc s : faults s = [] → stored (data s) addr = Some acc →
  GetAccount addr s = (Ok (Some acc), s).
Proof.
  destruct s as [d fs lf ls]. simpl. intros -> Hs. unfold GetAccount, account_GetByAddr. st_run.
  unfold db_Get, db_step. simpl. unfold stored in Hs. change (key_of (KAccount addr)) with (account_GetDBKey addr) in Hs.
  destruct (d !! account_GetDBKey addr) as [v|]; [|done]. simpl in Hs. st_run. by rewrite Hs.
Qed.

(** The conditions under which a signed transfer goes into the pool. *)
Record admissible (m : Mempool) (c : DCache) (s : Storage) (tx : Transaction) (a : Z) : Prop := {
  adm_amount : Amount tx = Some a ∧ 0 < a;
  adm_type : Type_ tx = TxTypeTransferByKey;
  adm_memo : string_len (TextData tx) ≤ MaxMemoCharacters;
  adm_room : Z.of_nat (size (txs m)) < max_ m;
  adm_nonce : 1 ≤ Nonce tx ∧ netCurrentSlot m - NonceWindow ≤ Nonce tx ≤ netCurrentSlot m;
  adm_new : (DedupHash tx ∉ dedupTxHashSet m) ∧ dc_Get c (DedupHash tx) = NotFound;
  adm_faults : faults s = [];
  adm_funds : Sender tx = Recipient tx ∨
    ∃ acc, stored (data s) (Sender tx) = Some acc ∧ a ≤ availableBalance m tx acc;
}.

(** The checks before the lock; they do not depend on what the pool holds already. *)
Lemma cheap_passes m zk tx a : Amount tx = Some a → 0 < a → string_len (TextData tx) ≤ MaxMemoCharacters →
  Z.of_nat (size (txs m)) < max_ m → 1 ≤ Nonce tx → netCurrentSlot m - NonceWindow ≤ Nonce tx ≤ netCurrentSlot m →
  Verify zk tx = (true, zk) → cheapValidateTransaction m zk tx = (accept, zk).
Proof.
  intros Ha Hp Hm Hr Hn1 Hn2 Hv. unfold cheapValidateTransaction. rewrite Ha, (proj2 (Z.eqb_neq a 0)) by lia.
  rewrite (proj2 (Z.ltb_ge _ _)) by lia. rewrite (proj2 (Z.leb_gt _ _)) by lia. simpl. unfold minNonce.
  rewrite (proj2 (Z.ltb_ge (Nonce tx) _)) by (destruct (_ <? _); lia).
  rewrite (proj2 (Z.ltb_ge _ (Nonce tx))) by lia. simpl. by rewrite Hv.
Qed.

Lemma AddTx_admits hr hb m zk c tx b s a : admissible m c s tx a → Verify zk tx = (true, zk) →
  AddTx hr hb m zk c tx b s = Some (mkAdd (Ok (Hash tx)) (insert_tx m tx a) zk s hr (b && hb)).
Proof.
  intros [[Ha Hp] Ht Hm Hr [Hn1 Hn2] [Hd Hc] Hf Hb] Hv. unfold AddTx. rewrite (cheap_passes m zk tx a) by done.
  assert (validateBalance m tx s = (accept, s)) as Hbal.
  { unfold validateBalance. case_bool_decide as E; [done|]. destruct Hb as [Hb|(acc & Hs & Hb)]; [done|].
    rewrite (GetAccount_found _ acc) by done. rewrite Ha. by rewrite (proj2 (Z.ltb_ge _ _)) by lia. }
  cbn [accept]. unfold AddTx_locked, validateTransaction. rewrite bool_decide_false by done. simpl. unfold IsDuplicate.
  rewrite Hc, Ht. simpl. rewrite Hbal. simpl. by rewrite Ha.
Qed.

(** A transaction of which the pool holds the deduplication hash. *)
Lemma AddTx_refuses hr hb m zk c tx b s a : Amount tx = Some a → 0 < a →
  string_len (TextData tx) ≤ MaxMemoCharacters → Z.of_nat (size (txs m)) < max_ m → 1 ≤ Nonce tx →
  netCurrentSlot m - NonceWindow ≤ Nonce tx ≤ netCurrentSlot m → Verify zk tx = (true, zk) →
  DedupHash tx ∈ dedupTxHashSet m →
  AddTx hr hb m zk c tx b s = Some (mkAdd (Err ErrDuplicateTransaction) m zk s false false).
Proof.
  intros. unfold AddTx. rewrite (cheap_passes m zk tx a) by done. cbn [accept].
  unfold AddTx_locked, validateTransaction. by rewrite bool_decide_true.
Qed.

(** ** Calls over a connection that is up *)

(** Addresses are not limited. *)
Definition unlimited (lk : link) : Prop := lkEnable lk && lkLimiter lk = false.

Lemma invoke_answered {A} lk method size now (handler : Server → option (result ServiceError A * Server)) sv :
  unlimited lk → size ≤ DefaultRequestBodyLimit →
  invoke lk Answered method size now handler sv =
  '(r, sv') ← handler sv; Some (match r with Ok a => Ok a | Err e => Err (Refused (Handler e)) end, sv').
Proof.
  unfold unlimited. intros Hl Hs.
  assert (∀ h : Server → option (result GatewayError A * Server),
    limit_size (mkUnary (lkPeer lk) method size) h sv = h sv) as Hi.
  { intros h. unfold limit_size. simpl. unfold DefaultRequestBodyLimit, LargeRequestBodyLimit in *.
    rewrite (proj2 (Z.ltb_ge _ _)); [done|]. destruct (bool_decide _); lia. }
  unfold invoke, unary, security. destruct (lkEnable lk), (lkLimiter lk); try done; rewrite Hi; unfold handled;
    destruct (handler sv) as [[[?|?] ?]|]; done.
Qed.

(** The transaction the command makes, with the time the server puts in. *)
Definition transfer_tx (seed : string) (cfg : TransferConfig) (a nonce now : Z) : Transaction :=
  let tx sig := mkTransaction TxTypeTransferByKey (base58_Encode (public_key (NewKeyFromSeed seed))) (tcTo cfg)
                  (Some a) now (tcMessage cfg) nonce sig "" "" "" in
  tx (base58_Encode (key_Sign (NewKeyFromSeed seed) (Serialize (tx "")))).

(** The texts of a transfer pass the checks of the server. *)
Definition texts_fit (tx : Transaction) : Prop :=
  forallb ValidateShortTextLength [Sender tx; Recipient tx; uint256ToString (Amount tx)] = true ∧
  forallb ValidateLongTextLength [TextData tx; ExtraInfo tx; ZkProof tx; ZkPub tx; Signature tx] = true.

(** The message the command sends: its time is the client's. *)
Definition transfer_msg (tx : Transaction) (unix : Z) : SignedTxMsg :=
  mkSignedMsg (Some (mkTxMsg (Type_ tx) (Sender tx) (Recipient tx) (uint256ToString (Amount tx)) (wrap 64 unix)
    (TextData tx) (Nonce tx) (ExtraInfo tx) (ZkProof tx) (ZkPub tx))) (Signature tx).
End Accepted.

(** ** The command *)

Section Command.
Context `{TE : TxEnv, ZE : ZkEnv, SC : StoreCodec, CC : ContentCodec, DC : DedupCache, WE : WireEnv}.
Context `{LI : LimiterImpl, XE : TextEnv, NE : NetEnv, CE : ClientEnv, WO : !WireEnvOk TE WE, KO : !KeySeedOk WE}.

(** The flags of the command give an amount, a key that ends with the seed, an endpoint
    and the address of a recipient. *)
Record command (cfg : TransferConfig) (seed : string) (a : Z) : Prop := {
  cmd_amount : uint256_FromDecimal (drop_underscores (tcAmount cfg)) = Some a;
  cmd_width : 0 < a < 2 ^ 256;
  cmd_key : ∃ key pre, loadSenderPrivateKey cfg = Some key ∧ hex_DecodeString (TrimSpace key) = Some (pre +:+ seed);
  cmd_seed : string_len seed = 32;
  cmd_client : createClient cfg = true;
  cmd_to : client_ValidateAddress (tcTo cfg) = true;
}.

(** The first two calls are answered, and their requests are not too large. *)
Record sendable (lk : link) (net : nat → delivery) (unix : Z) (tx : Transaction) : Prop := {
  snd_unlimited : unlimited lk;
  snd_net : net 0%nat = Answered ∧ net 1%nat = Answered;
  snd_nonce : size_GetCurrentNonceRequest (Sender tx) "pending" ≤ DefaultRequestBodyLimit;
  snd_size : size_SignedTxMsg (transfer_msg tx unix) ≤ DefaultRequestBodyLimit;
  snd_texts : texts_fit tx;
}.

(** The last two calls are answered too. *)
Record readable (lk : link) (net : nat → delivery) (cfg : TransferConfig) (h : string) : Prop := {
  rd_unlimited : unlimited lk;
  rd_net : net 2%nat = Answered ∧ net 3%nat = Answered;
  rd_sizes : size_GetTxByHashRequest h ≤ DefaultRequestBodyLimit ∧
             size_GetAccountRequest (tcTo cfg) ≤ DefaultRequestBodyLimit;
  rd_texts : ValidateShortTextLength h = true ∧ ValidateShortTextLength (tcTo cfg) = true;
}.

Lemma confirm_reads lk net clock cfg h sv i sv1 acc sv2 : readable lk net cfg h →
  svc_GetTxByHash h sv = (Ok i, sv1) → tiErrMsg i = "" → svc_GetAccount (tcTo cfg) sv1 = (Ok acc, sv2) →
  transfer_confirm lk net clock cfg h sv = Some (Ok (FromProtoAccount acc), sv2).
Proof.
  intros [Hl [Hn2 Hn3] [Hz2 Hz3] [Hx1 Hx2]] Hg He Ha. unfold transfer_confirm, client_GetTxByHash.
  rewrite Hn2, invoke_answered by done. unfold grpc_GetTxByHash. rewrite Hx1. cbn [mbind option_bind negb].
  rewrite Hg. cbn [mbind option_bind]. rewrite bool_decide_true by done. cbn [negb].
  unfold client_GetAccount. rewrite Hn3, invoke_answered by done. unfold grpc_GetAccount. rewrite Hx2.
  cbn [mbind option_bind negb]. by rewrite Ha.
Qed.

Lemma parse_key key pre seed : string_len seed = 32 → hex_DecodeString (TrimSpace key) = Some (pre +:+ seed) →
  parsePrivateKey key = Some (Some (base58_Encode (public_key (NewKeyFromSeed seed)), NewKeyFromSeed seed)).
Proof.
  intros Hs Hd. unfold parsePrivateKey. rewrite Hd. unfold string_len in *. rewrite string_length_app.
  rewrite (proj2 (Z.ltb_ge _ _)) by lia.
  replace (String.length pre + String.length seed - 32)%nat with (String.length pre) by lia.
  by rewrite string_drop_app.
Qed.

Lemma key_address seed : string_len seed = 32 →
  client_ValidateAddress (base58_Encode (public_key (NewKeyFromSeed seed))) = true.
Proof.
  intros Hs. pose proof (public_key_len seed Hs) as Hl. unfold client_ValidateAddress.
  rewrite base58_roundtrip by (intros E; by rewrite E in Hl). by rewrite Hl.
Qed.

(** The command as far as the answer, when nothing fails on the way: the server gets the
    signed message. *)
Lemma send_runs lk net clock unix cfg seed a sv :
  let tx := transfer_tx seed cfg a (u64_sub (latestFinalized (storage (srvNode sv))) 1) (clock 1%nat) in
  command cfg seed a → sendable lk net unix tx →
  transfer_send lk net clock unix cfg sv =
  '(r, sv') ← svc_AddTx (transfer_msg tx unix) (clock 1%nat) sv;
  Some (match r with
        | Ok h => Ok (mkAddTxResponse true h None)
        | Err e => Err (SendFailed (Refused (Handler e)))
        end, sv').
Proof.
  intros tx [Ha Hw (key & pre & Hk & Hd) Hs Hc Ht] [Hl [Hn0 Hn1] Hz0 Hz1 [Hx1 Hx2]].
  unfold transfer_send. rewrite Ha, Hk, (parse_key _ pre seed) by done. cbn [mbind option_bind]. rewrite Hc. simpl negb. cbv iota.
  unfold client_GetCurrentNonce. rewrite Hn0, invoke_answered by done.
  assert (ValidateShortTextLength (Sender tx) = true) as Hv by (simpl in Hx1; by apply andb_true_iff in Hx1 as [? _]).
  cbn [mbind option_bind]. unfold grpc_GetCurrentNonce. change (base58_Encode (public_key (NewKeyFromSeed seed))) with (Sender tx).
  rewrite Hv. cbn [negb]. unfold svc_GetCurrentNonce. rewrite bool_decide_false, bool_decide_true by done. cbn [negb andb].
  unfold BuildTransferTx. change (Sender tx) with (base58_Encode (public_key (NewKeyFromSeed seed))).
  rewrite key_address, Ht by done. rewrite (proj2 (Z.eqb_neq a 0)) by lia. cbn [negb andb SerializeTxExtraInfo].
  unfold SignTx. rewrite key_Seed_ok, Hs by done. cbn [negb Z.eqb Pos.eqb client_Serialize ctAmount ctType mbind option_bind].
  change (TxTypeTransferByKey =? TxTypeTransferByKey) with true. cbv iota. unfold client_AddTx. rewrite Hn1.
  match goal with |- context [ToProtoSigTx ?x] => change (ToProtoSigTx x) with (transfer_msg tx unix) end.
  rewrite invoke_answered by done.
  unfold grpc_AddTx. cbn [transfer_msg smTxMsg mbind option_bind smSignature].
  cbn [pType pSender pRecipient pAmount pTextData pExtraInfo pZkProof pZkPub].
  change (Type_ tx =? TxTypeUserContent) with false. cbv iota. cbn [negb]. rewrite Hx1, Hx2. cbn [negb orb].
  cbn [mbind option_bind negb]. by destruct (svc_AddTx _ (clock 1%nat) sv) as [[[h|e] sv']|].
Qed.

(** What the server decodes, and that it verifies. *)
Lemma transfer_msg_decodes seed cfg a nonce now unix : in_width 256 a →
  ∃ t, FromProtoSignedTx (transfer_msg (transfer_tx seed cfg a nonce now) unix) = Some (Ok t) ∧
    with_timestamp now t = transfer_tx seed cfg a nonce now.
Proof.
  intros Ha. eexists. split; [|shelve]. unfold FromProtoSignedTx, transfer_msg, transfer_tx. cbn.
  rewrite bool_decide_false by apply uint256_String_nonempty. by rewrite FromDecimal_String by done.
  Unshelve. reflexivity.
Qed.

Lemma transfer_tx_verifies seed cfg a nonce now zk : string_len seed = 32 →
  Verify zk (transfer_tx seed cfg a nonce now) = (true, zk).
Proof. intros Hs. by apply (signed_by_key_verifies _ seed). Qed.

(** The service on the message, from what the pool does with the transaction. *)
Lemma svc_AddTx_transfer seed cfg a nonce now unix sv r : in_width 256 a →
  let tx := transfer_tx seed cfg a nonce now in let n := srvNode sv in
  AddTx (hasRouter n) true (mp n) (zkVerify n) (dedupCache n) tx true (storage n) = Some r →
  ∃ sv', svc_AddTx (transfer_msg tx unix) now sv =
    Some (match add_result r with Ok h => Ok h | Err e => Err (TxRejected e) end, sv') ∧
    srvNode sv' = set_storage (add_storage r) (set_zk (add_zk r) (set_mp (add_mempool r) n)).
Proof.
  intros Ha tx n Hr. destruct (transfer_msg_decodes seed cfg a nonce now unix Ha) as (t & Hd & Ht). fold tx in Hd, Ht.
  unfold svc_AddTx. rewrite Hd. cbn [mbind option_bind]. rewrite Ht. fold n. rewrite Hr. cbn [mbind option_bind].
  destruct (add_result r); by eexists.
Qed.

(** [C22] The command transfer pays when it can.  Let its flags give an amount, a key, an
    endpoint and the address of a recipient, and let its calls reach a server that does
    not limit addresses, whose checks of texts and sizes the transfer passes.  If the
    transfer is admissible - at least two slots are finalized and the proposed nonce is
    in the window of the pool, there is room, it is no duplicate, the memo is short, the
    database works and the sender has the amount beside what is pending - the server
    answers with the hash of the transfer, which is put into the pool, and nothing else
    of the node changes.  If, whatever happens in the four seconds of waiting, the
    server then finds the transaction without an error and the account of the recipient
    can be read, the command ends with this account. *)
Theorem transfer_accepted lk net clock unix cfg seed a sv :
  let n := srvNode sv in
  let tx := transfer_tx seed cfg a (u64_sub (latestFinalized (storage n)) 1) (clock 1%nat) in
  command cfg seed a → sendable lk net unix tx → admissible (mp n) (dedupCache n) (storage n) tx a →
  ∃ sv1, transfer_send lk net clock unix cfg sv = Some (Ok (mkAddTxResponse true (Hash tx) None), sv1) ∧
    srvNode sv1 = set_mp (insert_tx (mp n) tx a) n ∧
    ∀ wait i sv2 acc sv3, readable lk net cfg (Hash tx) →
      svc_GetTxByHash (Hash tx) (wait sv1) = (Ok i, sv2) → tiErrMsg i = "" →
      svc_GetAccount (tcTo cfg) sv2 = (Ok acc, sv3) →
      transferToken lk net clock unix wait cfg sv = Some (Ok (FromProtoAccount acc), sv3).
Proof.
  intros n tx Hc Hsd Had. pose proof (cmd_width _ _ _ Hc) as Hw.
  destruct (svc_AddTx_transfer seed cfg a (u64_sub (latestFinalized (storage n)) 1) (clock 1%nat) unix sv _
    ltac:(unfold in_width; lia) (AddTx_admits _ _ _ _ _ _ _ _ _ Had (transfer_tx_verifies _ _ _ _ _ _ (cmd_seed _ _ _ Hc))))
    as (sv1 & Hsv & Hn).
  assert (transfer_send lk net clock unix cfg sv = Some (Ok (mkAddTxResponse true (Hash tx) None), sv1)) as Hs.
  { rewrite (send_runs lk net clock unix cfg seed a sv Hc Hsd). fold n. by rewrite Hsv. }
  exists sv1. split; [done|]. split; [by rewrite Hn|].
  intros wait i sv2 acc sv3 Hr Hg He Ha. unfold transferToken. rewrite Hs. cbn [mbind option_bind rspTxHash].
  by apply (confirm_reads _ _ _ _ _ _ i sv2).
Qed.

(** The same command, run again while the pool has the transfer and has room, is
    refused as a duplicate and changes nothing, at whatever time. *)
Theorem transfer_not_repeated lk net clock clock' unix' cfg seed a sv sv' :
  let n := srvNode sv in
  let tx := transfer_tx seed cfg a (u64_sub (latestFinalized (storage n)) 1) (clock 1%nat) in
  let tx' := transfer_tx seed cfg a (u64_sub (latestFinalized (storage n)) 1) (clock' 1%nat) in
  command cfg seed a → sendable lk net unix' tx' → admissible (mp n) (dedupCache n) (storage n) tx a →
  srvNode sv' = set_mp (insert_tx (mp n) tx a) n → Z.of_nat (size (<[Hash tx := tx]> (txs (mp n)))) < max_ (mp n) →
  ∃ sv'', transfer_send lk net clock' unix' cfg sv' =
      Some (Err (SendFailed (Refused (Handler (TxRejected ErrDuplicateTransaction)))), sv'') ∧
    srvNode sv'' = srvNode sv'.
Proof.
  intros n tx tx' Hc Hsd Had Hn Hroom. pose proof (cmd_width _ _ _ Hc) as Hw. pose proof (cmd_seed _ _ _ Hc) as Hseed.
  destruct Had as [[Ha Hp] Ht Hm _ [Hn1 Hn2] _ _ _].
  assert (latestFinalized (storage (srvNode sv')) = latestFinalized (storage n)) as El by by rewrite Hn.
  destruct (svc_AddTx_transfer seed cfg a (u64_sub (latestFinalized (storage n)) 1) (clock' 1%nat) unix' sv'
    (mkAdd (Err ErrDuplicateTransaction) (mp (srvNode sv')) (zkVerify (srvNode sv')) (storage (srvNode sv')) false false))
    as (sv'' & Hsv & Hn''); [unfold in_width; lia| |].
  - apply (AddTx_refuses _ _ _ _ _ _ _ _ a); rewrite ?Hn; try done; [by apply transfer_tx_verifies|].
    cbn. apply elem_of_union_l. by apply elem_of_singleton.
  - exists sv''. split; [|rewrite Hn''; by destruct (srvNode sv')].
    rewrite (send_runs lk net clock' unix' cfg seed a sv' Hc); [|by rewrite El]. rewrite El. by rewrite Hsv.
Qed.
End Command.

(** ** Commands that fail *)

Section Failures.
Context `{TE : TxEnv, ZE : ZkEnv, SC : StoreCodec, CC : ContentCodec, DC : DedupCache, WE : WireEnv}.
Context `{LI : LimiterImpl, XE : TextEnv, NE : NetEnv, CE : ClientEnv}.

#[local] Existing Instance server_kept_preorder.

Lemma same_node_kept sv sv' : srvNode sv' = srvNode sv → server_kept sv sv'.
Proof. intros E. unfold server_kept. rewrite E. exists (storage (srvNode sv)). by destruct (srvNode sv). Qed.

(** A call that got an error: its handler was not run, or it ended with an error, or the
    answer was lost. *)
Lemma invoke_error {A} lk d method size now (handler : Server → option (result ServiceError A * Server)) sv e sv' :
  invoke lk d method size now handler sv = Some (Err e, sv') →
  ∃ sv1, srvNode sv1 = srvNode sv ∧
    (sv' = sv1 ∨ (∃ e', handler sv1 = Some (Err e', sv')) ∨ (d = AnswerLost ∧ e = Unreachable)).
Proof.
  unfold invoke. destruct d; [|intros [= <- <-]; exists sv; by auto|].
  2: { destruct (unary _ _ _ _ _ _) as [[r sv2]|]; [|done]. simpl. intros H. exists sv. simplify_eq. by auto. }
  destruct (unary _ _ _ _ _ _) as [[r sv2]|] eqn:Eu; [|done]. simpl. intros H.
  destruct r as [?|g]; [done|]. simplify_eq.
  assert (∀ s, srvNode s = srvNode sv → limit_size (mkUnary (lkPeer lk) method size) (λ s, handled (handler s)) s =
    Some (Err g, sv') → ∃ sv1, srvNode sv1 = srvNode sv ∧ (sv' = sv1 ∨ (∃ e', handler sv1 = Some (Err e', sv')) ∨
      (Answered = AnswerLost ∧ Refused g = Unreachable))) as Hi.
  { intros s Es. unfold limit_size. destruct (_ <? _); [intros [= _ <-]; exists s; by auto|].
    unfold handled. destruct (handler s) as [[[?|e'] s']|] eqn:Eh; simpl; [done| |done].
    intros [= _ <-]. exists s. eauto. }
  revert Eu. unfold unary, security. destruct (lkEnable lk), (lkLimiter lk); try by apply Hi.
  destruct (check_client _ now sv) as [[[|] s]|] eqn:Ec; simpl; [|intros [= _ <-]|done]; apply check_client_keeps in Ec.
  - by apply Hi.
  - exists s. by auto.
Qed.

(** The verification of a transfer by key does not touch the cache of proofs. *)
Lemma Verify_by_key zk tx : Type_ tx = TxTypeTransferByKey → snd (Verify zk tx) = zk.
Proof.
  intros Ht. unfold Verify. rewrite Ht. change (TxTypeTransferByKey =? TxTypeTransferByKey) with true. cbv iota.
  repeat case_match; simpl; by simplify_eq.
Qed.

Lemma cheap_by_key m zk tx : Type_ tx = TxTypeTransferByKey → snd (cheapValidateTransaction m zk tx) = zk.
Proof.
  intros Ht. pose proof (Verify_by_key zk tx Ht) as Hv. unfold cheapValidateTransaction.
  destruct (_ && _); [done|]. destruct (_ <? _); [done|]. destruct (_ <=? _); [done|].
  destruct (validateNonce m [Some tx]) as [[?|]|]; [done| |done].
  destruct (Verify zk tx) as [ok zk']. simpl in Hv. subst. by destruct (negb ok).
Qed.

Lemma balance_quiet m tx s :
  let s' := snd (validateBalance m tx s) in
  data s' = data s ∧ latestFinalized s' = latestFinalized s ∧ latestStore s' = latestStore s.
Proof.
  unfold validateBalance. case_bool_decide; [done|]. pose proof (GetAccount_quiet (Sender tx) s) as Hq.
  destruct (GetAccount (Sender tx) s) as [[[acc|]|] s1]; simpl in *; [|done..].
  destruct (Amount tx); [|done]. by destruct (_ <? _).
Qed.

(** The server with the parts of its own node. *)
Ltac unchanged := intros [= _ <-]; apply same_node_kept; cbn;
  match goal with n := srvNode _ |- _ => fold n; by destruct n end.

(** A transfer by key that the service refuses leaves the node as it was. *)
Lemma refused_kept msg now sv e sv' m : smTxMsg msg = Some m → pType m = TxTypeTransferByKey →
  svc_AddTx msg now sv = Some (Err e, sv') → server_kept sv sv'.
Proof.
  intros Hm Hp. unfold svc_AddTx, FromProtoSignedTx. rewrite Hm. cbn [mbind option_bind].
  destruct (if bool_decide _ then _ else _) as [amount|]; [|by intros [= _ <-]].
  set (tx := with_timestamp now _). assert (Type_ tx = TxTypeTransferByKey) as Ht by done. clearbody tx.
  set (n := srvNode sv). pose proof (cheap_by_key (mp n) (zkVerify n) tx Ht) as Hz. unfold AddTx.
  destruct (cheapValidateTransaction (mp n) (zkVerify n) tx) as [v zk]. simpl in Hz. subst zk.
  destruct v as [[e1|]|]; [| |done].
  { unchanged. }
  unfold AddTx_locked, validateTransaction. case_bool_decide.
  { unchanged. }
  destruct (validateDuplicateTxs _ [Some tx]) as [[e1|]|]; [| |done].
  { unchanged. }
  rewrite Ht. change (TxTypeTransferByKey =? TxTypeUserContent) with false. cbv iota.
  pose proof (balance_quiet (mp n) tx (storage n)) as Hq.
  destruct (validateBalance (mp n) tx (storage n)) as [[[e1|]|] s1]; [| |done].
  - intros [= _ <-]. exists s1. simpl in Hq. split; [cbn; fold n; by destruct n|]. naive_solver.
  - destruct (Amount tx); simpl; done.
Qed.

Lemma nonce_kept lk d now addr tag sv r sv' :
  client_GetCurrentNonce lk d now addr tag sv = Some (r, sv') → server_kept sv sv'.
Proof.
  intros H. apply same_node_kept. unfold client_GetCurrentNonce, invoke in H.
  assert (∀ info s, srvNode s = srvNode sv → ∀ r' s',
    limit_size info (λ s, handled (Some (grpc_GetCurrentNonce addr tag s, s))) s = Some (r', s') →
    srvNode s' = srvNode sv) as Hi.
  { intros info s Es r' s'. unfold limit_size, handled. destruct (_ <? _); simpl; by intros [= _ <-]. }
  assert (∀ info r' s', unary (lkEnable lk) (lkLimiter lk) info now (λ s, Some (grpc_GetCurrentNonce addr tag s, s)) sv =
    Some (r', s') → srvNode s' = srvNode sv) as Hu.
  { intros info r' s'. unfold unary, security. destruct (lkEnable lk), (lkLimiter lk); try by apply Hi.
    destruct (check_client _ now sv) as [[[|] s]|] eqn:Ec; simpl; [|intros [= _ <-]|done]; apply check_client_keeps in Ec;
      [by apply Hi|done]. }
  destruct d; [|by simplify_eq|]; destruct (unary _ _ _ _ _ _) as [[r' s']|] eqn:Eu; simpl in H; try done;
    apply Hu in Eu; by simplify_eq.
Qed.

Lemma add_error_kept lk d now stx sv e sv' : ctType (stTx stx) = TxTypeTransferByKey →
  client_AddTx lk d now stx sv = Some (Err e, sv') → d ≠ AnswerLost → server_kept sv sv'.
Proof.
  intros Ht H Hd. unfold client_AddTx in H. destruct (invoke _ _ _ _ _ _ _) as [[[h|e1] sv1]|] eqn:Ei; simpl in H;
    [done| |done]. simplify_eq.
  apply invoke_error in Ei as (s & Es & [->|[[e' Eh]|[? _]]]); [by apply same_node_kept| |done].
  transitivity s; [by apply same_node_kept|]. revert Eh. unfold grpc_AddTx, ToProtoSigTx at 1. simpl. rewrite Ht.
  change (to_int32 TxTypeTransferByKey =? TxTypeUserContent) with false. cbv iota. simpl.
  destruct (negb _ || _); [by intros [= _ <-]|]. eapply refused_kept; [done|]. simpl. by rewrite Ht.
Qed.

Lemma AddTx_ok_resp lk d now stx sv resp sv' : client_AddTx lk d now stx sv = Some (Ok resp, sv') → rspOk resp = true.
Proof.
  unfold client_AddTx. destruct (invoke _ _ _ _ _ _ _) as [[[h|] sv1]|]; simpl; by intros [= <-].
Qed.

Lemma SignTx_tx tx pub priv stx : SignTx tx pub priv = Some (Ok stx) → stTx stx = tx.
Proof.
  unfold SignTx. destruct (negb _); [done|]. destruct (client_Serialize tx); simpl; [|done].
  destruct (_ =? _); [by intros [= <-]|]. destruct (json_of_UserSig _); by intros [= <-].
Qed.

Lemma Build_type t sender to amount nonce ts text extra p q tx :
  BuildTransferTx t sender to amount nonce ts text extra p q = Ok tx → ctType tx = t.
Proof. unfold BuildTransferTx. repeat case_match; intros; by simplify_eq. Qed.

(** A transfer that fails leaves no trace.  When the command fails before the waiting,
    for whatever flags, answers of the file system, lost calls and state of the server,
    the pool, the stored data and the counters of the node are as before; unless the
    answer to the sent transaction was lost, when the command cannot know. *)
Theorem transfer_failure_clean lk net clock unix cfg sv e sv' :
  transfer_send lk net clock unix cfg sv = Some (Err e, sv') → net 1%nat ≠ AnswerLost → server_kept sv sv'.
Proof.
  unfold transfer_send. intros H Hnet.
  destruct (uint256_FromDecimal _) as [amount|]; [|by simplify_eq].
  destruct (loadSenderPrivateKey cfg) as [key|]; [|by simplify_eq].
  destruct (parsePrivateKey key) as [[[addr priv]|]|]; simpl in H; [|by simplify_eq|done].
  destruct (negb (createClient cfg)); [by simplify_eq|].
  destruct (client_GetCurrentNonce _ _ _ _ _ _) as [[r1 sv1]|] eqn:E1; simpl in H; [|done].
  assert (server_kept sv sv1) as Hk1 by by eapply nonce_kept.
  destruct r1 as [nonce|]; [|by simplify_eq].
  destruct (BuildTransferTx _ _ _ _ _ _ _ _ _ _) as [unsigned|] eqn:Eb; [|by simplify_eq].
  destruct (SignTx unsigned _ _) as [[stx|]|] eqn:Es; simpl in H; [|by simplify_eq|done].
  destruct (client_AddTx _ _ _ _ _) as [[[resp|e2] sv2]|] eqn:E2; simpl in H; [| |done].
  - apply AddTx_ok_resp in E2. by rewrite E2 in H.
  - simplify_eq. transitivity sv1; [done|]. eapply (add_error_kept _ _ _ stx); [|done..].
    by rewrite (SignTx_tx _ _ _ _ Es), (Build_type _ _ _ _ _ _ _ _ _ _ _ Eb).
Qed.

(** A key of fewer than 32 bytes is not refused: the command panics. *)
Theorem short_key_panics lk net clock unix cfg sv a key b :
  uint256_FromDecimal (drop_underscores (tcAmount cfg)) = Some a → loadSenderPrivateKey cfg = Some key →
  hex_DecodeString (TrimSpace key) = Some b → string_len b < 32 → transfer_send lk net clock unix cfg sv = None.
Proof.
  intros Ha Hk Hd Hb. unfold transfer_send, parsePrivateKey. rewrite Ha, Hk, Hd.
  by rewrite (proj2 (Z.ltb_lt _ _)) by done.
Qed.

(** The key file that [init] writes is one the command takes, whatever its digits: it is
    read as hexadecimal only. *)
Theorem init_key_transfers seed : string_len seed = 32 →
  parsePrivateKey (hex_EncodeToString seed) =
  Some (Some (base58_Encode (public_key (NewKeyFromSeed seed)), NewKeyFromSeed seed)).
Proof.
  intros Hs. apply (parse_key _ ""); [done|]. rewrite TrimSpace_hex by apply hex_all_chars. apply hex_roundtrip.
Qed.
End Failures.

(** ** A transfer *)

Module TransferExamples.

#[export] Instance wire_key_seed : KeySeedOk wire_env.
Proof.
  split. intros seed Hs. pose proof (substring_app seed seed) as E.
  assert (String.length seed = 32%nat) as Hl by (unfold string_len in Hs; lia). rewrite Hl in E. exact E.
Qed.

(** One file; the size of a request is that of its texts. *)
Definition client_env : ClientEnv := {|
  grpc_NewClient endpoint _ := negb (bool_decide (endpoint = ""));
  os_ReadFile f := if bool_decide (f = "key.txt") then Some (hex_EncodeToString wire_seed +:+ " ") else None;
  size_SignedTxMsg m := string_len (smSignature m) + 200;
  size_GetTxByHashRequest h := string_len h;
  size_GetAccountRequest a := string_len a;
  size_GetCurrentNonceRequest a tag := string_len a + string_len tag;
|}.

Definition bob : string := hex_EncodeToString (fix_len 32 "bob").
Definition flags (key file : string) : TransferConfig := mkTransferConfig key file "localhost:9001" bob "000_07" "memo".
Definition wire_link : link := mkLink (Some "10.0.0.7:5000") false true.
Definition all_answered (_ : nat) : delivery := Answered.
Definition times (t : Z) (i : nat) : Z := t + Z.of_nat i.

Abbreviation send := (@transfer_send wire_tx_env example_zk_env ledger_codec no_contents list_dedup wire_env bucket_impl
  text_env net_env client_env).
Abbreviation token := (@transferToken wire_tx_env example_zk_env ledger_codec no_contents list_dedup wire_env bucket_impl
  text_env net_env client_env).

Definition sent_tx (t : Z) : Transaction := @transfer_tx wire_tx_env wire_env wire_seed (flags "" "key.txt") 7 5 (t + 1).

Lemma wire_command : @command wire_tx_env wire_env client_env (flags "" "key.txt") wire_seed 7.
Proof.
  split; try (vm_compute; reflexivity); [lia|]. exists (hex_EncodeToString wire_seed +:+ " "), "".
  split; vm_compute; reflexivity.
Qed.

Lemma wire_sendable t unix :
  @sendable wire_tx_env text_env client_env wire_link all_answered unix (sent_tx t).
Proof. by split. Qed.

Lemma wire_admissible t : let n := srvNode wire_server in
  @admissible wire_tx_env ledger_codec list_dedup (mp n) (dedupCache n) (storage n) (sent_tx t) 7.
Proof.
  intros n. split; try (by vm_compute). right. exists (mkAccount wire_addr 100 3). split; by vm_compute.
Qed.

(** The key is read from the file, and the recipient has no account yet. *)
Lemma transfer_accepted_witness :
  fst <$> token wire_link all_answered (times 99) 7 id (flags "" "key.txt") wire_server =
  Some (Ok (mkClientAccount bob (Some 0) 0)).
Proof.
  destruct (@transfer_accepted wire_tx_env example_zk_env ledger_codec no_contents list_dedup wire_env bucket_impl
    text_env net_env client_env wire_env_ok wire_key_seed wire_link all_answered (times 99) 7 (flags "" "key.txt")
    wire_seed 7 wire_server) as (sv1 & _ & Hn & H).
  - exact wire_command.
  - exact (wire_sendable 99 7).
  - exact (wire_admissible 99).
  - rewrite (H id (@tx_info wire_tx_env (sent_tx 99) (@Hash wire_tx_env (sent_tx 99)) 0 "" PENDING "") sv1
      (mkAccountResponse bob "0" 0 (decimals sv1)) (with_storage wire_funds sv1)); [vm_compute; reflexivity| | | |].
    + split; [done|done|by split; vm_compute|split; vm_compute; reflexivity].
    + unfold svc_GetTxByHash, id. rewrite Hn. cbn [mp set_mp]. unfold GetTransaction. cbn [txs insert_tx].
      rewrite lookup_insert_eq. reflexivity.
    + reflexivity.
    + unfold svc_GetAccount. rewrite Hn. vm_compute. reflexivity.
Defined.

(** The server with the transfer in its pool. *)
Definition paid_server : Server (ZE := example_zk_env) (DC := list_dedup) (LI := bucket_impl) :=
  with_node (set_mp (@insert_tx wire_tx_env (mp (srvNode wire_server)) (sent_tx 99) 7) (srvNode wire_server)) wire_server.

Lemma transfer_not_repeated_witness :
  ∃ sv, send wire_link all_answered (times 500) 8 (flags "" "key.txt") paid_server =
      Some (Err (SendFailed (Refused (Handler (TxRejected ErrDuplicateTransaction)))), sv) ∧
    srvNode sv = srvNode paid_server.
Proof.
  refine (@transfer_not_repeated wire_tx_env example_zk_env ledger_codec no_contents list_dedup wire_env bucket_impl
    text_env net_env client_env wire_env_ok wire_key_seed wire_link all_answered (times 99) (times 500) 8
    (flags "" "key.txt") wire_seed 7 wire_server paid_server wire_command (wire_sendable 500 8) (wire_admissible 99) _ _).
  - reflexivity.
  - vm_compute. reflexivity.
Defined.

(** The second call is not sent. *)
Definition second_lost (i : nat) : delivery := match i with O => Answered | _ => NotSent end.

Lemma transfer_failure_clean_witness :
  ∃ sv, send wire_link second_lost (times 99) 7 (flags "" "key.txt") wire_server =
      Some (Err (SendFailed Unreachable), sv) ∧
    server_kept (ZE := example_zk_env) (DC := list_dedup) (LI := bucket_impl) wire_server sv.
Proof.
  assert (H : fst <$> send wire_link second_lost (times 99) 7 (flags "" "key.txt") wire_server =
    Some (Err (SendFailed Unreachable))) by (vm_compute; reflexivity).
  destruct (send wire_link second_lost (times 99) 7 (flags "" "key.txt") wire_server) as [[r sv]|] eqn:E; [|discriminate H].
  cbn in H. injection H as ->. exists sv. split; [reflexivity|].
  apply (@transfer_failure_clean wire_tx_env example_zk_env ledger_codec no_contents list_dedup wire_env bucket_impl
    text_env net_env client_env wire_link second_lost (times 99) 7 (flags "" "key.txt") wire_server
    (SendFailed Unreachable) sv E).
  discriminate.
Defined.

Lemma short_key_panics_witness :
  send wire_link all_answered (times 99) 7 (flags "0a0b" "") wire_server = None.
Proof.
  apply (@short_key_panics wire_tx_env example_zk_env ledger_codec no_contents list_dedup wire_env bucket_impl
    text_env net_env client_env wire_link all_answered (times 99) 7 (flags "0a0b" "") wire_server 7 "0a0b"
    (String (to_byte 10) (String (to_byte 11) ""))); vm_compute; reflexivity.
Defined.
End TransferExamples.
