(* ===== verification/Migration.v ===== *)
(** * The migration of wallets (mezon-migration/main.go, users.go, wallet.go, transfer.go)

    The tool reads users from a CSV file, makes a wallet and funds it from the faucet, and
    pays every user from it what the balance on the chain lacks.  Its calls to a node are
    the class [Chain]: the client of Transfer.v over a server is one instance.  The
    directory of wallets is the map of its files; time passes through [ch_sleep].  A panic
    is [None]; where the code logs an error and goes on, so does the model. *)

From stdpp Require Import base list gmap strings sorting pretty.
From Stdlib Require Import ZArith Lia Ascii.
From S2P Require Import Prelude GoLib Transaction Poh Schedule Consensus Block Store BlockStore Ledger.
From S2P Require Import Mempool Node Validator Limits Events Client Service Gateway Boot Transfer.

Open Scope string_scope.
Open Scope list_scope.
Open Scope Z_scope.

(** ** encoding/csv *)

(** [Reader.ReadAll] with the default options.  A carriage return before a line feed or at
    the end of the file is dropped. *)
Fixpoint drop_cr (s : string) : string :=
  match s with
  | EmptyString => EmptyString
  | String c s' =>
      if bool_decide (c = "013"%char) then
        match s' with
        | EmptyString => EmptyString
        | String d _ => if bool_decide (d = "010"%char) then drop_cr s' else String c (drop_cr s')
        end
      else String c (drop_cr s')
  end.

(** Where the reader is: before a record, before a field, in a field, in a quoted field, or
    after a quote in one. *)
Inductive csv_state := AtRecord | AtField | InPlain (acc : string) | InQuoted (acc : string) | AtQuote (acc : string).

Definition snoc (s : string) (c : ascii) : string := s +:+ String c "".

(** The records, with the fields read of the current one; [None] is a bare or an
    unfinished quote. *)
Fixpoint csv_scan (st : csv_state) (fields : list string) (s : string) : option (list (list string)) :=
  match s with
  | EmptyString =>
      match st with
      | AtRecord => Some []
      | AtField => Some [fields ++ [""]]
      | InPlain acc | AtQuote acc => Some [fields ++ [acc]]
      | InQuoted _ => None
      end
  | String c s' =>
      let newline := bool_decide (c = "010"%char) in
      let comma := bool_decide (c = ","%char) in
      let quote := bool_decide (c = "034"%char) in
      match st with
      | AtRecord | AtField =>
          if newline then
            match st with
            | AtRecord => csv_scan AtRecord [] s'
            | _ => cons (fields ++ [""]) <$> csv_scan AtRecord [] s'
            end
          else if comma then csv_scan AtField (fields ++ [""]) s'
          else if quote then csv_scan (InQuoted "") fields s'
          else csv_scan (InPlain (String c "")) fields s'
      | InPlain acc =>
          if newline then cons (fields ++ [acc]) <$> csv_scan AtRecord [] s'
          else if comma then csv_scan AtField (fields ++ [acc]) s'
          else if quote then None
          else csv_scan (InPlain (snoc acc c)) fields s'
      | InQuoted acc => if quote then csv_scan (AtQuote acc) fields s' else csv_scan (InQuoted (snoc acc c)) fields s'
      | AtQuote acc =>
          if newline then cons (fields ++ [acc]) <$> csv_scan AtRecord [] s'
          else if comma then csv_scan AtField (fields ++ [acc]) s'
          else if quote then csv_scan (InQuoted (snoc acc c)) fields s'
          else None
      end
  end.

(** All records have as many fields as the first one. *)
Definition csv_ReadAll (s : string) : option (list (list string)) :=
  records ← csv_scan AtRecord [] (drop_cr s);
  match records with
  | [] => Some []
  | r :: _ => if forallb (λ x, (length x =? length r)%nat) records then Some records else None
  end.

(** ** strconv.ParseInt(s, 10, 64) *)

Definition digit (c : ascii) : option Z :=
  let n := Z.of_nat (nat_of_ascii c) - 48 in if (0 <=? n) && (n <=? 9) then Some n else None.
Fixpoint digits (acc : Z) (s : string) : option Z :=
  match s with EmptyString => Some acc | String c s' => d ← digit c; digits (10 * acc + d) s' end.
Definition ParseInt64 (s : string) : option Z :=
  let '(neg, body) :=
    match s with String "-" s' => (true, s') | String "+" s' => (false, s') | _ => (false, s) end in
  if bool_decide (body = "") then None
  else
    n ← digits 0 body;
    let n := if neg : bool then - n else n in
    if (- 2 ^ 63 <=? n) && (n <? 2 ^ 63) then Some n else None.

(** ** users.go *)

(** The map of a user, with the address that [MapUsersWalletAddress] puts in. *)
Record User := mkUser { uID : Z; uName : string; uBalance : Z }.

Definition user_of_record (record : list string) : option User :=
  match record with
  | id :: username :: wallet :: _ =>
      id ← ParseInt64 id;
      wallet ← ParseInt64 wallet;
      if 0 <? wallet then Some (mkUser id username wallet) else None
  | _ => None
  end.

(** [file] is what the file holds, if it can be opened. *)
Definition GetUsers (file : option string) : option (list User) :=
  content ← file;
  records ← csv_ReadAll content;
  let rows :=
    match records with
    | (h :: _) :: rest => if bool_decide (h = "id") || bool_decide (h = "ID") then rest else records
    | _ => records
    end in
  Some (omap user_of_record rows).

(** ** The node, as the tool sees it *)

(** [None] is a panic of the call. *)
Class Chain (St : Type) := {
  ch_GetAccount : string → St → option (result CallError ClientAccount * St);
  ch_GetCurrentNonce : string → string → St → option (result CallError Z * St);
  ch_AddTx : SignedTx → St → option (result CallError AddTxResponse * St);
  (** The client's time in seconds, and two seconds of it. *)
  ch_Unix : St → Z;
  ch_sleep : St → St;
}.

(** The files of the directory [wallets], if there is one: addresses and keys in hex. *)
Definition Disk : Type := option (gmap string string).

(** What the environment gives to the making of a wallet: the random seed, and whether the
    directory and the file can be written. *)
Record ambience := mkAmbience { am_seed : option string; am_mkdir : bool; am_write : bool }.

Inductive MigrationError :=
| MBuild (e : ClientError) | MSign (e : ClientError) | MNotVerified | MSubmit (e : CallError) | MNoSeed | MMkdir | MWrite
| MNonce (e : CallError) | MAccount (e : CallError) | MNoDirectory | MNoWallet | MBadHex | MBadLength | MMismatch.

Section Migration.
Context `{TE : TxEnv, WE : WireEnv} `{CH : Chain St}.

(** ** wallet.go *)

Definition NativeDecimal : Z := 6.

(** The conversion to [uint64] and the products wrap around. *)
Definition ToBigNumber (s : Z) : Z := wrap 256 (wrap 64 s * 10 ^ NativeDecimal).

(** A key that does not decode is logged, and the address and the key are empty.  A key of
    less than 32 bytes panics. *)
Definition GetFaucetAccount (faucetPrivateKeyHex : string) : option (string * string) :=
  match hex_DecodeString faucetPrivateKeyHex with
  | None => Some ("", "")
  | Some der =>
      if string_len der <? 32 then None
      else
        let private := NewKeyFromSeed (string_drop (String.length der - 32) der) in
        Some (base58_Encode (public_key private), private)
  end.

(** ** transfer.go *)

(** The seed of a key of less than 32 bytes panics. *)
Definition TransferTokens (faucetAddress toAddress : string) (amount : Z) (faucetPrivateKey : string) (nonce : Z)
    (textData : string) (s : St) : option (result MigrationError unit * St) :=
  match BuildTransferTx TxTypeTransferByKey faucetAddress toAddress (Some amount) nonce (wrap 64 (ch_Unix s)) textData
          (Some ∅) "" "" with
  | Err e => Some (Err (MBuild e), s)
  | Ok unsigned =>
      if string_len faucetPrivateKey <? 32 then None
      else
        signedRaw ← SignTx unsigned "" (key_Seed faucetPrivateKey);
        match signedRaw with
        | Err e => Some (Err (MSign e), s)
        | Ok signedRaw =>
            ok ← client_Verify unsigned (stSig signedRaw);
            if negb ok then Some (Err MNotVerified, s)
            else
              '(res, s) ← ch_AddTx signedRaw s;
              Some (match res with Err e => Err (MSubmit e) | Ok _ => Ok tt end, s)
        end
  end.

(** ** wallet.go: the wallet *)

(** The account of the new wallet, asked for up to [tries] times. *)
Fixpoint retry_account (tries : nat) (addr : string) (s : St) : option (result CallError ClientAccount * St) :=
  match tries with
  | O => Some (Err Unreachable, s)
  | S tries' =>
      '(r, s) ← ch_GetAccount addr s;
      match r, tries' with
      | Ok acc, _ => Some (Ok acc, s)
      | Err e, O => Some (Err e, s)
      | Err _, S _ => retry_account tries' addr (ch_sleep s)
      end
  end.

Definition CreateAndFundSenderWallet (env : ambience) (faucetPrivateKeyHex : string) (totalAmount : Z) (d : Disk) (s : St)
    : option (result MigrationError unit * Disk * St) :=
  match am_seed env with
  | None => Some (Err MNoSeed, d, s)
  | Some seed =>
      let privateKey := NewKeyFromSeed seed in
      let walletAddress := base58_Encode (public_key privateKey) in
      if negb (am_mkdir env) then Some (Err MMkdir, d, s)
      else if negb (am_write env) then Some (Err MWrite, Some (default ∅ d), s)
      else
        let d := Some (<[walletAddress := hex_EncodeToString privateKey]> (default ∅ d)) in
        let transferAmount := ToBigNumber totalAmount in
        '(faucetAddress, faucetPrivateKey) ← GetFaucetAccount faucetPrivateKeyHex;
        '(nonce, s) ← ch_GetCurrentNonce faucetAddress "pending" s;
        match nonce with
        | Err e => Some (Err (MNonce e), d, s)
        | Ok nonce =>
            '(r, s) ← TransferTokens faucetAddress walletAddress transferAmount faucetPrivateKey (u64_add nonce 1)
                        "Funding migration sender wallet" s;
            match r with
            | Err e => Some (Err e, d, s)
            | Ok _ =>
                '(acc, s) ← retry_account 3 walletAddress (ch_sleep s);
                Some (match acc with Err e => Err (MAccount e) | Ok _ => Ok tt end, d, s)
            end
        end
  end.

(** The files of a directory are visited in the order of their names. *)
Definition name_le (a b : string * string) : Prop := String.leb a.1 b.1 = true.
#[local] Instance name_le_dec a b : Decision (name_le a b).
Proof. unfold name_le. apply _. Defined.
Definition first_file (m : gmap string string) : option (string * string) := head (merge_sort name_le (map_to_list m)).

Definition GetMigrationWalletFromFile (d : Disk) : result MigrationError (string * string) :=
  match d with
  | None => Err MNoDirectory
  | Some m =>
      match first_file m with
      | None => Err MNoWallet
      | Some (address, privateKeyHex) =>
          match hex_DecodeString privateKeyHex with
          | None => Err MBadHex
          | Some privateKey =>
              if negb (string_len privateKey =? 64) then Err MBadLength
              else if negb (bool_decide (address = base58_Encode (public_key privateKey))) then Err MMismatch
              else Ok (address, privateKey)
          end
      end
  end.

(** [client.GenerateAddress], and the address of a user. *)
Definition GenerateAddress (input : string) : string := base58_Encode (sha256_Sum256 input).
Definition user_address (u : User) : string := GenerateAddress (fmt_d (uID u)).

(** ** main.go *)

(** [int64] wraps around. *)
Definition int64_add (a b : Z) : Z := wrap 64 (a + b + 2 ^ 63) - 2 ^ 63.
Definition calculateTotalUserAmount (users : list User) : Z := foldl (λ total u, int64_add total (uBalance u)) 0 users.

(** One round of the loop: whether the user counts as successful.  A balance that is nil
    is dereferenced. *)
Definition migrate_user (migrationAddress migrationPrivateKey : string) (u : User) (s : St) : option (bool * St) :=
  let userAddress := user_address u in
  if bool_decide (userAddress = "") then Some (true, s)
  else
    '(account, s) ← ch_GetAccount userAddress s;
    currentBalance ← (match account with Err _ => Some 0 | Ok account => caBalance account end);
    let expectedBalanceBig := ToBigNumber (uBalance u) in
    if currentBalance <? expectedBalanceBig then
      let transferAmount := wrap 256 (expectedBalanceBig - currentBalance) in
      '(nonce, s) ← ch_GetCurrentNonce migrationAddress "pending" s;
      match nonce with
      | Err _ => Some (false, s)
      | Ok nonce =>
          '(r, s) ← TransferTokens migrationAddress userAddress transferAmount migrationPrivateKey (u64_add nonce 1)
                      ("Transfer tokens to user " +:+ fmt_d (uID u)) s;
          match r with
          | Err _ => Some (false, s)
          | Ok _ => Some (true, ch_sleep s)
          end
      end
    else Some (true, s).

Fixpoint migrate_users (migrationAddress migrationPrivateKey : string) (users : list User) (s : St) : option (nat * St) :=
  match users with
  | [] => Some (0%nat, s)
  | u :: users' =>
      '(ok, s) ← migrate_user migrationAddress migrationPrivateKey u s;
      '(n, s) ← migrate_users migrationAddress migrationPrivateKey users' s;
      Some ((if ok : bool then n + 1 else n)%nat, s)
  end.

(** The number of users processed successfully.  A wallet that cannot be loaded is logged,
    and its address and key are empty. *)
Definition runUserMigration (users : list User) (d : Disk) (s : St) : option (nat * St) :=
  let '(migrationAddress, migrationPrivateKey) :=
    match GetMigrationWalletFromFile d with Ok w => w | Err _ => ("", "") end in
  migrate_users migrationAddress migrationPrivateKey users s.

Definition mig_loadSenderPrivateKey (privateKey : string) (keyFile : option string) : option string :=
  if negb (bool_decide (privateKey = "")) then Some privateKey else keyFile.

(** The flags, with what the named files hold. *)
Record flags := mkFlags {
  createSenderWallet : bool; runMigration : bool; mmnEndpoint : string; usersDataFilePath : string;
  usersData : option string; privateKeyFlag : string; privateKeyFile : option string;
}.

(** [connects]: the client can be made. *)
Definition migration_main (fl : flags) (connects : bool) (env : ambience) (d : Disk) (s : St) : option (Disk * St) :=
  if bool_decide (mmnEndpoint fl = "") then Some (d, s)
  else if bool_decide (usersDataFilePath fl = "") then Some (d, s)
  else match GetUsers (usersData fl) with
  | None => Some (d, s)
  | Some users =>
      if negb connects then Some (d, s)
      else
        let run d s := if runMigration fl then '(_, s) ← runUserMigration users d s; Some (d, s) else Some (d, s) in
        if createSenderWallet fl then
          match mig_loadSenderPrivateKey (privateKeyFlag fl) (privateKeyFile fl) with
          | None => Some (d, s)
          | Some faucetPrivateKey =>
              '(_, d, s) ← CreateAndFundSenderWallet env faucetPrivateKey (calculateTotalUserAmount users) d s;
              run d s
          end
        else run d s
  end.
End Migration.

(** The client over a server of Service.v: [net] and [clock] are what becomes of each call
    and its time, [unix] the client's time, and [wait] what happens to the server in two
    seconds; the number of calls made is part of the state. *)
Definition server_chain `{TE : TxEnv, ZE : ZkEnv, SC : StoreCodec, CC : ContentCodec, DC : DedupCache, WE : WireEnv}
    `{LI : LimiterImpl, XE : TextEnv, NE : NetEnv, CE : ClientEnv} (lk : link) (net : nat → delivery)
    (clock unix : nat → Z) (wait : Server → Server) : Chain (Server * nat) := {|
  ch_GetAccount a s := '(r, sv) ← client_GetAccount lk (net s.2) (clock s.2) a s.1; Some (r, (sv, S s.2));
  ch_GetCurrentNonce a tag s := '(r, sv) ← client_GetCurrentNonce lk (net s.2) (clock s.2) a tag s.1; Some (r, (sv, S s.2));
  ch_AddTx tx s := '(r, sv) ← client_AddTx lk (net s.2) (clock s.2) tx s.1; Some (r, (sv, S s.2));
  ch_Unix s := unix s.2;
  ch_sleep s := (wait s.1, s.2);
|}.

(** ** The wallet file *)

Section Wallet.
Context `{TE : TxEnv, ZE : ZkEnv, WE : WireEnv, WO : !WireEnvOk TE WE, KS : !KeySeedOk WE} `{CH : Chain St}.

Definition address_of_seed (seed : string) : string := base58_Encode (public_key (NewKeyFromSeed seed)).

Lemma string_drop_length n s : String.length (string_drop n s) = (String.length s - n)%nat.
Proof.
  unfold string_drop. revert n. induction s as [|c s IH]; intros [|n]; [done..| |exact (IH n)].
  by rewrite Nat.sub_0_r, substring_all.
Qed.

Lemma private_key_len seed : string_len seed = 32 → string_len (NewKeyFromSeed seed) = 64.
Proof.
  intros Hs. pose proof (public_key_len seed Hs) as Hp. unfold public_key, string_len in *.
  rewrite string_drop_length in Hp. lia.
Qed.

Lemma first_file_singleton a k : first_file {[a := k]} = Some (a, k).
Proof. unfold first_file. by rewrite map_to_list_singleton. Qed.

(** A wallet that is alone in the directory is read back. *)
Lemma wallet_read_back seed : string_len seed = 32 →
  GetMigrationWalletFromFile (Some {[address_of_seed seed := hex_EncodeToString (NewKeyFromSeed seed)]}) =
  Ok (address_of_seed seed, NewKeyFromSeed seed).
Proof.
  intros Hs. unfold GetMigrationWalletFromFile. rewrite first_file_singleton, hex_roundtrip.
  rewrite (private_key_len seed Hs). cbn [Z.eqb Pos.eqb negb]. by rewrite bool_decide_true.
Qed.

(** ** A transfer *)

(** The signed transfer of the tool. *)
Definition tool_tx (seed to : string) (amount nonce unix : Z) (text extra : string) : CTx :=
  mkCTx TxTypeTransferByKey (address_of_seed seed) to (Some amount) unix text nonce extra "" "".
Definition tool_signed (tx : CTx) (seed : string) (bytes : string) : SignedTx :=
  mkSignedTx tx (base58_Encode (key_Sign (NewKeyFromSeed seed) bytes)).

Lemma tool_verifies seed to amount nonce unix text extra bytes : string_len seed = 32 →
  client_Serialize (tool_tx seed to amount nonce unix text extra) = Some bytes →
  client_Verify (tool_tx seed to amount nonce unix text extra) (base58_Encode (key_Sign (NewKeyFromSeed seed) bytes)) = Some true.
Proof.
  intros Hs Hb. unfold client_Verify. rewrite Hb. cbn [mbind option_bind tool_tx ctType ctSender].
  change (TxTypeTransferByKey =? TxTypeTransferByKey) with true. cbv iota.
  pose proof (public_key_len seed Hs) as Hp. pose proof (key_Sign_len (NewKeyFromSeed seed) bytes) as Hk.
  unfold address_of_seed. rewrite base58_roundtrip by (intros E; by rewrite E in Hp). rewrite Hp.
  rewrite base58_roundtrip by (intros E; by rewrite E in Hk). rewrite Hk. cbn. by rewrite key_Sign_ok.
Qed.

(** What [TransferTokens] submits, when the addresses are valid. *)
Lemma TransferTokens_submits seed to amount nonce text extra s : string_len seed = 32 →
  client_ValidateAddress to = true → 0 < amount → json_of_extra ∅ = Some extra →
  ∃ bytes, client_Serialize (tool_tx seed to amount nonce (wrap 64 (ch_Unix s)) text extra) = Some bytes ∧
  TransferTokens (address_of_seed seed) to amount (NewKeyFromSeed seed) nonce text s =
  '(res, s') ← ch_AddTx (tool_signed (tool_tx seed to amount nonce (wrap 64 (ch_Unix s)) text extra) seed bytes) s;
  Some (match res with Err e => Err (MSubmit e) | Ok _ => Ok tt end, s').
Proof.
  intros Hs Ht Ha He. eexists. split; [reflexivity|]. unfold TransferTokens, BuildTransferTx.
  unfold address_of_seed at 1. rewrite key_address, Ht by done. rewrite (proj2 (Z.eqb_neq amount 0)) by lia.
  cbn [negb andb SerializeTxExtraInfo]. rewrite He. rewrite (private_key_len seed Hs). cbn [Z.ltb Z.compare Pos.compare].
  change (64 <? 32) with false. cbv iota. unfold SignTx. rewrite key_Seed_ok, Hs by done. cbn [negb Z.eqb Pos.eqb].
  change (mkCTx _ _ _ _ _ _ _ _ _ _) with (tool_tx seed to amount nonce (wrap 64 (ch_Unix s)) text extra).
  destruct (client_Serialize (tool_tx seed to amount nonce (wrap 64 (ch_Unix s)) text extra)) as [bytes|] eqn:Eb; [|done].
  cbn [mbind option_bind]. change (ctType (tool_tx _ _ _ _ _ _ _) =? TxTypeTransferByKey) with true. cbv iota. cbn [stSig].
  rewrite (tool_verifies seed to amount nonce (wrap 64 (ch_Unix s)) text extra bytes Hs Eb). cbn [mbind option_bind negb].
  injection Eb as <-. reflexivity.
Qed.
End Wallet.

(** ** A chain that settles *)

(** The balances after a payment. *)
Definition paid (bal : string → Z) (from to : string) (amount : Z) : string → Z := λ a,
  if bool_decide (a = from) then bal a - amount else if bool_decide (a = to) then bal a + amount else bal a.

(** A node that answers, of a network in which a payment that is covered is applied within
    two seconds, for the balances [bal]. *)
Class Settling `{TE : TxEnv, WE : WireEnv} `{CH : Chain St} (bal : St → string → Z) : Prop := {
  st_range s a : in_width 256 (bal s a);
  st_account a s : ∃ acc s', ch_GetAccount a s = Some (Ok acc, s') ∧ caBalance acc = Some (bal s a) ∧ bal s' = bal s;
  st_nonce a s : ∃ nonce s', ch_GetCurrentNonce a "pending" s = Some (Ok nonce, s') ∧ bal s' = bal s;
  st_pays seed to amount nonce unix text extra bytes s :
    string_len seed = 32 → client_ValidateAddress to = true → address_of_seed seed ≠ to →
    0 < amount ≤ bal s (address_of_seed seed) → bal s to + amount < 2 ^ 256 →
    client_Serialize (tool_tx seed to amount nonce unix text extra) = Some bytes →
    ∃ resp s', ch_AddTx (tool_signed (tool_tx seed to amount nonce unix text extra) seed bytes) s = Some (Ok resp, s') ∧
      bal (ch_sleep s') = paid (bal s) (address_of_seed seed) to amount;
}.

Section Pays.
Context `{TE : TxEnv, WE : WireEnv, WO : !WireEnvOk TE WE, KS : !KeySeedOk WE} `{CH : Chain St}.
Context (bal : St → string → Z) `{SE : !Settling bal}.
(** Digests have 32 bytes, and the empty map has a JSON text. *)
Context (sha_len : ∀ x, string_len (sha256_Sum256 x) = 32) (extra : string) (extra_ok : json_of_extra ∅ = Some extra).

(** What a user lacks. *)
Definition expected (u : User) : Z := uBalance u * 10 ^ 6.
Definition lacks (b : string → Z) (u : User) : Z := Z.max 0 (expected u - b (user_address u)).

Definition payable (u : User) : Prop := 0 < uBalance u < 2 ^ 63.

Lemma ToBigNumber_expected u : payable u → ToBigNumber (uBalance u) = expected u.
Proof.
  unfold payable, ToBigNumber, expected, NativeDecimal. intros H.
  rewrite (wrap_small 64) by (unfold in_width; lia). apply wrap_small. unfold in_width. lia.
Qed.

Lemma user_address_valid u : client_ValidateAddress (user_address u) = true ∧ user_address u ≠ "".
Proof.
  pose proof (sha_len (fmt_d (uID u))) as Hl.
  assert (base58_Decode (user_address u) = Some (sha256_Sum256 (fmt_d (uID u)))) as Hd
    by (apply base58_roundtrip; intros E; by rewrite E in Hl).
  split; [unfold client_ValidateAddress; by rewrite Hd, Hl|]. intros E. rewrite E in Hd. by rewrite base58_Decode_empty in Hd.
Qed.

(** One covered payment of the tool. *)
Lemma pays_once seed to amount text s : string_len seed = 32 → client_ValidateAddress to = true →
  address_of_seed seed ≠ to → 0 < amount ≤ bal s (address_of_seed seed) → bal s to + amount < 2 ^ 256 →
  ∃ nonce s1 s2, ch_GetCurrentNonce (address_of_seed seed) "pending" s = Some (Ok nonce, s1) ∧
    TransferTokens (address_of_seed seed) to amount (NewKeyFromSeed seed) (u64_add nonce 1) text s1 = Some (Ok tt, s2) ∧
    bal (ch_sleep s2) = paid (bal s) (address_of_seed seed) to amount.
Proof.
  intros Hs Ht Hne Ha Hr. destruct (st_nonce (bal := bal) (address_of_seed seed) s) as (nonce & s1 & En & Eb).
  destruct (TransferTokens_submits seed to amount (u64_add nonce 1) text extra s1) as (bytes & Hser & E); [done..|lia|done|].
  destruct (st_pays (bal := bal) seed to amount (u64_add nonce 1) (wrap 64 (ch_Unix s1)) text extra bytes s1)
    as (resp & s2 & Es & Ep); [done..|by rewrite Eb|by rewrite Eb|done|].
  exists nonce, s1, s2. split; [done|]. rewrite E, Es. split; [done|]. by rewrite Ep, Eb.
Qed.

(** One user. *)
Lemma migrate_user_pays seed u s : string_len seed = 32 → payable u → user_address u ≠ address_of_seed seed →
  lacks (bal s) u ≤ bal s (address_of_seed seed) →
  ∃ s', migrate_user (address_of_seed seed) (NewKeyFromSeed seed) u s = Some (true, s') ∧
    ∀ a, bal s' a = if bool_decide (a = user_address u) then Z.max (bal s a) (expected u)
                    else if bool_decide (a = address_of_seed seed) then bal s a - lacks (bal s) u else bal s a.
Proof.
  intros Hs Hu Hne Hc. destruct (user_address_valid u) as [Hv Hn0]. unfold migrate_user. rewrite bool_decide_false by done.
  destruct (st_account (bal := bal) (user_address u) s) as (acc & s1 & -> & Hacc & Eb). cbn [mbind option_bind].
  rewrite Hacc. cbn [mbind option_bind]. rewrite ToBigNumber_expected by done. unfold lacks in *.
  pose proof (st_range (bal := bal) s (user_address u)) as Hr. unfold in_width in Hr.
  destruct (Z.ltb_spec (bal s (user_address u)) (expected u)) as [Hlt|Hge].
  - assert (wrap 256 (expected u - bal s (user_address u)) = expected u - bal s (user_address u)) as ->.
    { apply wrap_small. unfold in_width, expected, payable in *. lia. }
    destruct (pays_once seed (user_address u) (expected u - bal s (user_address u))
      ("Transfer tokens to user " +:+ fmt_d (uID u)) s1) as (nonce & s2 & s3 & -> & E & Ep);
      [done..|rewrite Eb; lia|rewrite Eb; unfold expected, payable in *; lia|].
    cbn [mbind option_bind]. rewrite E. cbn [mbind option_bind]. eexists. split; [done|]. intros a. rewrite Ep, Eb.
    unfold paid. repeat case_bool_decide; subst; try done; lia.
  - eexists. split; [done|]. intros a. rewrite Eb. repeat case_bool_decide; subst; lia.
Qed.

Definition total_lacking (b : string → Z) (users : list User) : Z := foldr (λ u acc, lacks b u + acc) 0 users.

Lemma total_lacking_ext b b' users : (∀ u, u ∈ users → b (user_address u) = b' (user_address u)) →
  total_lacking b users = total_lacking b' users.
Proof.
  induction users as [|u users IH]; intros H; simpl; [done|].
  rewrite IH by (intros v Hv; apply H; by right). unfold lacks. by rewrite (H u) by left.
Qed.

Lemma total_lacking_nonneg b users : 0 ≤ total_lacking b users.
Proof. induction users as [|u users IH]; simpl; [done|]. unfold lacks. lia. Qed.

Lemma migrate_users_pays seed users s :
  string_len seed = 32 → Forall payable users → NoDup (user_address <$> users) →
  address_of_seed seed ∉ user_address <$> users → total_lacking (bal s) users ≤ bal s (address_of_seed seed) →
  ∃ s', migrate_users (address_of_seed seed) (NewKeyFromSeed seed) users s = Some (length users, s') ∧
    (∀ u, u ∈ users → bal s' (user_address u) = Z.max (bal s (user_address u)) (expected u)) ∧
    bal s' (address_of_seed seed) = bal s (address_of_seed seed) - total_lacking (bal s) users ∧
    (∀ a, a ≠ address_of_seed seed → a ∉ user_address <$> users → bal s' a = bal s a).
Proof.
  intros Hs. revert s. induction users as [|u users IH]; intros s Hp Hnd Hw Hc.
  { exists s. split_and!; [done|by intros ? ?%elem_of_nil|simpl; lia|done]. }
  apply Forall_cons in Hp as [Hu Hp]. rewrite fmap_cons in Hnd, Hw. apply NoDup_cons in Hnd as [Hnu Hnd].
  apply not_elem_of_cons in Hw as [Hwu Hw]. simpl in Hc. pose proof (total_lacking_nonneg (bal s) users) as Hpos.
  destruct (migrate_user_pays seed u s) as (s1 & E1 & B1); [done..|lia|].
  assert (∀ v, v ∈ users → bal s1 (user_address v) = bal s (user_address v)) as Hsame.
  { intros v Hv. assert (user_address v ∈ user_address <$> users) by (apply list_elem_of_fmap; by exists v).
    rewrite B1, !bool_decide_false; [done|intros Ev; by rewrite Ev in *..]. }
  assert (bal s1 (address_of_seed seed) = bal s (address_of_seed seed) - lacks (bal s) u) as Bw.
  { by rewrite B1, bool_decide_false, bool_decide_true. }
  assert (total_lacking (bal s1) users = total_lacking (bal s) users) as Et by by apply total_lacking_ext.
  destruct (IH s1) as (s2 & E2 & U2 & W2 & O2); [done..|lia|].
  exists s2. cbn [migrate_users]. rewrite E1. cbn [mbind option_bind]. rewrite E2. cbn [mbind option_bind length].
  split_and!; [by rewrite Nat.add_1_r| |rewrite W2, Et; simpl; lia|].
  - intros v [->|Hv]%elem_of_cons; [|by rewrite U2, Hsame]. rewrite O2 by done. by rewrite B1, bool_decide_true.
  - intros a Ha [Hau Hain]%not_elem_of_cons. rewrite O2 by done. by rewrite B1, !bool_decide_false.
Qed.

(** *** From the faucet to the users *)

Definition database_total (users : list User) : Z := foldr (λ u acc, uBalance u + acc) 0 users.

Lemma database_total_nonneg users : Forall payable users → 0 ≤ database_total users.
Proof. induction 1 as [|u users Hu _ IH]; simpl; [done|]. unfold payable in Hu. lia. Qed.

Lemma calculateTotal_from t users : Forall payable users → 0 ≤ t → t + database_total users < 2 ^ 63 →
  foldl (λ total u, int64_add total (uBalance u)) t users = t + database_total users.
Proof.
  intros Hp. revert t. induction Hp as [|u users Hu Hp IH]; intros t Ht Hm; simpl in *; [lia|].
  pose proof (database_total_nonneg users Hp). unfold payable in Hu.
  assert (int64_add t (uBalance u) = t + uBalance u) as ->.
  { unfold int64_add. rewrite wrap_small by (unfold in_width; lia). lia. }
  rewrite IH by lia. lia.
Qed.

Lemma total_lacking_bound b users : Forall payable users → (∀ a, 0 ≤ b a) → total_lacking b users ≤ database_total users * 10 ^ 6.
Proof.
  intros Hp Hb. induction Hp as [|u users Hu _ IH]; simpl; [done|]. unfold lacks, expected, payable in *.
  pose proof (Hb (user_address u)). lia.
Qed.

(** The faucet's key is the last 32 bytes of a text in hex. *)
Definition faucet_text (keyHex fseed : string) : Prop :=
  string_len fseed = 32 ∧ ∃ pre, hex_DecodeString keyHex = Some (pre +:+ fseed).

Lemma GetFaucetAccount_key keyHex fseed : faucet_text keyHex fseed →
  GetFaucetAccount keyHex = Some (address_of_seed fseed, NewKeyFromSeed fseed).
Proof.
  intros [Hl [pre Hd]]. unfold GetFaucetAccount. rewrite Hd. unfold string_len in *. rewrite string_length_app.
  rewrite (proj2 (Z.ltb_ge _ _)) by lia.
  replace (String.length pre + String.length fseed - 32)%nat with (String.length pre) by lia. by rewrite string_drop_app.
Qed.

(** A wallet is made, funded and stored. *)
Lemma wallet_funded env keyHex fseed wseed total d s :
  faucet_text keyHex fseed → am_seed env = Some wseed → am_mkdir env = true → am_write env = true →
  string_len wseed = 32 → address_of_seed fseed ≠ address_of_seed wseed →
  0 < total < 2 ^ 63 → total * 10 ^ 6 ≤ bal s (address_of_seed fseed) → bal s (address_of_seed wseed) = 0 →
  ∃ s', CreateAndFundSenderWallet env keyHex total d s =
      Some (Ok tt, Some (<[address_of_seed wseed := hex_EncodeToString (NewKeyFromSeed wseed)]> (default ∅ d)), s') ∧
    bal s' = paid (bal s) (address_of_seed fseed) (address_of_seed wseed) (total * 10 ^ 6).
Proof.
  intros Hf Hseed Hmk Hwr Hw Hne Ht Hb H0. unfold CreateAndFundSenderWallet. rewrite Hseed, Hmk, Hwr. cbn [negb]. cbv zeta.
  rewrite (GetFaucetAccount_key keyHex fseed Hf). cbn [mbind option_bind]. fold (address_of_seed wseed).
  assert (ToBigNumber total = total * 10 ^ 6) as ->.
  { unfold ToBigNumber, NativeDecimal. rewrite (wrap_small 64) by (unfold in_width; lia). apply wrap_small. unfold in_width. lia. }
  destruct Hf as [Hfl _].
  destruct (pays_once fseed (address_of_seed wseed) (total * 10 ^ 6) "Funding migration sender wallet" s)
    as (nonce & s1 & s2 & -> & E & Ep); [done|by apply key_address|done|lia|lia|].
  cbn [mbind option_bind]. rewrite E. cbn [mbind option_bind retry_account].
  destruct (st_account (bal := bal) (address_of_seed wseed) (ch_sleep s2)) as (acc & s3 & -> & _ & Eb).
  cbn [mbind option_bind]. exists s3. split; [done|]. by rewrite Eb.
Qed.

End Pays.

(** ** Reading back a file of users *)

(** Characters that need no quotes. *)
Definition plain_char (c : ascii) : bool :=
  negb (bool_decide (c = ","%char) || bool_decide (c = "034"%char) || bool_decide (c = "010"%char) || bool_decide (c = "013"%char)).
Fixpoint plain (s : string) : bool :=
  match s with EmptyString => true | String c s' => plain_char c && plain s' end.

Lemma plain_char_not c : plain_char c = true →
  bool_decide (c = ","%char) = false ∧ bool_decide (c = "034"%char) = false ∧ bool_decide (c = "010"%char) = false ∧
  bool_decide (c = "013"%char) = false.
Proof. unfold plain_char. by repeat (case_bool_decide; simpl; [done|]). Qed.

(** A field ends at a comma or at the end of the line. *)
Lemma scan_plain acc fields s rest : plain s = true →
  csv_scan (InPlain acc) fields (s +:+ String "," rest) = csv_scan AtField (fields ++ [acc +:+ s]) rest ∧
  csv_scan (InPlain acc) fields (s +:+ String "010" rest) = cons (fields ++ [acc +:+ s]) <$> csv_scan AtRecord [] rest.
Proof.
  revert acc. induction s as [|c s IH]; intros acc Hp.
  { by rewrite append_nil_r. }
  simpl in Hp. apply andb_true_iff in Hp as [Hc Hp]. apply plain_char_not in Hc as (H1 & H2 & H3 & _).
  rewrite !app_cons_string. cbn [csv_scan]. rewrite H1, H2, H3. destruct (IH (snoc acc c) Hp) as [E1 E2].
  rewrite E1, E2. unfold snoc. by rewrite app_assoc_string, app_cons_string.
Qed.

Lemma scan_field st fields s rest : st = AtField ∨ st = AtRecord → plain s = true →
  csv_scan st fields (s +:+ String "," rest) = csv_scan AtField (fields ++ [s]) rest ∧
  (st = AtField → csv_scan st fields (s +:+ String "010" rest) = cons (fields ++ [s]) <$> csv_scan AtRecord [] rest).
Proof.
  intros Hst Hp. destruct s as [|c s]; [by destruct Hst as [->| ->]|]. simpl in Hp.
  apply andb_true_iff in Hp as [Hc Hp]. apply plain_char_not in Hc as (H1 & H2 & H3 & _).
  destruct (scan_plain (String c "") fields s rest Hp) as [E1 E2]. rewrite !app_cons_string.
  destruct Hst as [->| ->]; cbn [csv_scan]; rewrite H1, H2, H3; by rewrite E1, E2.
Qed.

(** *** Numbers *)

Lemma pretty_digit d : (d < 10)%N → digit (pretty_N_char d) = Some (Z.of_N d) ∧ plain_char (pretty_N_char d) = true ∧
  pretty_N_char d ≠ "-"%char ∧ pretty_N_char d ≠ "+"%char.
Proof.
  intros H. assert (d = 0 ∨ d = 1 ∨ d = 2 ∨ d = 3 ∨ d = 4 ∨ d = 5 ∨ d = 6 ∨ d = 7 ∨ d = 8 ∨ d = 9)%N as Hd by lia.
  destruct_or!; by subst.
Qed.

Lemma pretty_go_spec x s : digits 0 (pretty_N_go x s) = digits (Z.of_N x) s ∧
  plain (pretty_N_go x s) = plain s ∧
  ((0 < x)%N → ∃ d s', (d < 10)%N ∧ pretty_N_go x s = String (pretty_N_char d) s').
Proof.
  revert s. induction (N.lt_wf_0 x) as [x _ IH]. intros s.
  destruct (decide (x = 0)%N) as [->|Hx]; [by rewrite pretty_N_go_0|].
  rewrite pretty_N_go_step by lia.
  destruct (IH (x `div` 10)%N) with (s := String (pretty_N_char (x `mod` 10)) s) as (E1 & E2 & E3); [apply N.div_lt; lia|].
  assert (x `mod` 10 < 10)%N as Hd by (apply N.mod_lt; lia). destruct (pretty_digit _ Hd) as (D1 & D2 & _).
  split_and!.
  - rewrite E1. cbn [digits]. rewrite D1. cbn [mbind option_bind]. f_equal.
    rewrite (N.div_mod x 10) at 3 by done. lia.
  - rewrite E2. cbn [plain]. by rewrite D2.
  - intros _. destruct (decide (x `div` 10 = 0)%N) as [->|Hq]; [rewrite pretty_N_go_0; eauto|apply E3; by apply N.neq_0_lt_0].
Qed.

Lemma fmt_d_plain z : plain (fmt_d z) = true.
Proof.
  unfold fmt_d, pretty, pretty_Z. destruct z as [|p|p]; [done| |]; unfold pretty, pretty_positive, pretty, pretty_N;
    rewrite decide_False by done; destruct (pretty_go_spec (N.pos p) "") as (_ & E & _); [by rewrite E|].
  rewrite app_cons_string. cbn [plain]. change ("" +:+ pretty_N_go (N.pos p) "") with (pretty_N_go (N.pos p) "").
  by rewrite E.
Qed.

Lemma ParseInt64_fmt z : - 2 ^ 63 ≤ z < 2 ^ 63 → ParseInt64 (fmt_d z) = Some z.
Proof.
  intros Hz. unfold fmt_d, pretty, pretty_Z. destruct z as [|p|p]; [done| |];
    unfold pretty, pretty_positive, pretty, pretty_N; rewrite decide_False by done;
    destruct (pretty_go_spec (N.pos p) "") as (E & _ & H); destruct H as (d & s' & Hd & Es); [done| |done|].
  - assert (ParseInt64 (pretty_N_go (N.pos p) "") =
      (n ← digits 0 (pretty_N_go (N.pos p) ""); if (- 2 ^ 63 <=? n) && (n <? 2 ^ 63) then Some n else None)) as ->.
    { rewrite Es. destruct (pretty_digit d Hd) as (_ & _ & N1 & N2). unfold ParseInt64.
      destruct (pretty_N_char d) as [[] [] [] [] [] [] [] []]; done. }
    rewrite E. cbn [digits mbind option_bind]. rewrite (proj2 (Z.leb_le _ _)), (proj2 (Z.ltb_lt _ _)) by lia. done.
  - rewrite app_cons_string. change ("" +:+ pretty_N_go (N.pos p) "") with (pretty_N_go (N.pos p) "").
    unfold ParseInt64. rewrite bool_decide_false by (by rewrite Es). rewrite E. cbn [digits mbind option_bind].
    rewrite (proj2 (Z.leb_le _ _)), (proj2 (Z.ltb_lt _ _)) by lia. done.
Qed.

(** *** Files *)

Definition row_of (u : User) : string := fmt_d (uID u) +:+ String "," (uName u +:+ String "," (fmt_d (uBalance u) +:+ String "010" "")).
Definition csv_of (users : list User) : string := foldr (λ u acc, row_of u +:+ acc) "" users.
Definition fields_of (u : User) : list string := [fmt_d (uID u); uName u; fmt_d (uBalance u)].

(** A user the file can hold. *)
Definition storable (u : User) : Prop := - 2 ^ 63 ≤ uID u < 2 ^ 63 ∧ 0 < uBalance u < 2 ^ 63 ∧ plain (uName u) = true.

Lemma scan_row u rest : storable u →
  csv_scan AtRecord [] (row_of u +:+ rest) = cons (fields_of u) <$> csv_scan AtRecord [] rest.
Proof.
  intros (_ & _ & Hn). unfold row_of. rewrite app_assoc_string, app_cons_string, app_assoc_string, app_cons_string, app_assoc_string, app_cons_string.
  change ("" +:+ rest) with rest.
  rewrite (proj1 (scan_field AtRecord [] (fmt_d (uID u)) _ (or_intror eq_refl) (fmt_d_plain _))).
  rewrite (proj1 (scan_field AtField _ (uName u) _ (or_introl eq_refl) Hn)).
  by rewrite (proj2 (scan_field AtField _ (fmt_d (uBalance u)) _ (or_introl eq_refl) (fmt_d_plain _)) eq_refl).
Qed.

Lemma scan_rows users : Forall storable users → csv_scan AtRecord [] (csv_of users) = Some (fields_of <$> users).
Proof. induction 1 as [|u users Hu _ IH]; [done|]. cbn [csv_of foldr]. rewrite scan_row by done. fold (csv_of users). by rewrite IH. Qed.

Lemma drop_cr_plain s rest : plain s = true → drop_cr (s +:+ rest) = s +:+ drop_cr rest.
Proof.
  induction s as [|c s IH]; [done|]. simpl. intros [Hc Hp]%andb_true_iff. apply plain_char_not in Hc as (_ & _ & _ & H4).
  rewrite app_cons_string. cbn [drop_cr]. by rewrite H4, IH.
Qed.

Lemma drop_cr_row u rest : storable u → drop_cr (row_of u +:+ rest) = row_of u +:+ drop_cr rest.
Proof.
  intros (_ & _ & Hn). unfold row_of. rewrite !app_assoc_string, !app_cons_string, !app_assoc_string, !app_cons_string, !app_assoc_string, !app_cons_string.
  rewrite drop_cr_plain by apply fmt_d_plain. f_equal. change (drop_cr (String "," ?x)) with (String "," (drop_cr x)).
  rewrite drop_cr_plain by done. f_equal. f_equal. change (drop_cr (String "," ?x)) with (String "," (drop_cr x)).
  by rewrite drop_cr_plain by apply fmt_d_plain.
Qed.

Lemma drop_cr_rows users : Forall storable users → drop_cr (csv_of users) = csv_of users.
Proof. induction 1 as [|u users Hu _ IH]; [done|]. cbn [csv_of foldr]. rewrite drop_cr_row by done. fold (csv_of users). by rewrite IH. Qed.

Lemma user_read_back u : storable u → user_of_record (fields_of u) = Some u.
Proof.
  intros (Hi & Hb & _). unfold user_of_record, fields_of. rewrite !ParseInt64_fmt by lia. cbn [mbind option_bind].
  rewrite (proj2 (Z.ltb_lt _ _)) by lia. by destruct u.
Qed.

Lemma rows_read_back users : Forall storable users → omap user_of_record (fields_of <$> users) = users.
Proof.
  induction 1 as [|u users Hu _ IH]; [done|]. rewrite fmap_cons. cbn [omap list_omap]. rewrite user_read_back by done.
  f_equal. exact IH.
Qed.

Lemma rows_same_length users : forallb (λ x, (length x =? 3)%nat) (fields_of <$> users) = true.
Proof. by induction users. Qed.

(** A file of users is read back: one line per user with the identifier, a name
    without commas, quotes and line ends, and a positive balance, all within 64 bits, with
    the header or without; the users come in the order of the lines. *)
Theorem users_file_roundtrip (users : list User) : Forall storable users →
  GetUsers (Some (csv_of users)) = Some users ∧
  GetUsers (Some ("id,name,balance" +:+ String "010" (csv_of users))) = Some users.
Proof.
  intros Hs. unfold GetUsers, csv_ReadAll. cbn [mbind option_bind]. split.
  - rewrite drop_cr_rows, scan_rows by done. cbn [mbind option_bind]. destruct Hs as [|u users Hu Hs]; [done|].
    rewrite fmap_cons. pose proof (rows_same_length (u :: users)) as Hl. rewrite fmap_cons in Hl.
    change (length (fields_of u)) with 3%nat. rewrite Hl. cbn [mbind option_bind]. unfold fields_of at 1.
    assert (∀ s, ParseInt64 s = None → bool_decide (fmt_d (uID u) = s) = false) as Hne.
    { intros s Hn. apply bool_decide_false. intros <-. rewrite ParseInt64_fmt in Hn; [done|apply Hu]. }
    rewrite !Hne by done. cbn [orb]. f_equal. rewrite <- fmap_cons. apply rows_read_back. by constructor.
  - change (drop_cr ("id,name,balance" +:+ String "010" (csv_of users))) with
      ("id,name,balance" +:+ String "010" (drop_cr (csv_of users))).
    rewrite drop_cr_rows by done.
    change (csv_scan AtRecord [] _) with (cons ["id"; "name"; "balance"] <$> csv_scan AtRecord [] (csv_of users)).
    rewrite scan_rows by done. pose proof (rows_same_length users) as Hl. pose proof (rows_read_back users Hs) as Hr.
    set (rows := fields_of <$> users) in *. clearbody rows. cbn. rewrite Hl. cbn. f_equal. exact Hr.
Qed.

(** ** Examples *)

Module MigrationExamples.

(** Digests are the first 32 bytes. *)
Definition mig_env : TxEnv := {|
  uint256_String := @uint256_String wire_tx_env;
  base58_Decode := @base58_Decode wire_tx_env;
  base58_Encode := @base58_Encode wire_tx_env;
  ed25519_Verify := @ed25519_Verify wire_tx_env;
  sha256_Sum256 := fix_len 32;
  edwards25519_SetBytes := @edwards25519_SetBytes wire_tx_env;
  json_of_tx := @json_of_tx wire_tx_env;
  json_to_UserSig := @json_to_UserSig wire_tx_env;
|}.
#[local] Existing Instances mig_env wire_env.

#[local] Existing Instance TransferExamples.wire_key_seed.

#[local] Instance mig_env_ok : WireEnvOk mig_env wire_env.
Proof. destruct wire_env_ok. by split. Qed.

(** Balances within 256 bits, and a payment under way. *)
Record Ledger := mkLedger { held : string → Z; held_ok : ∀ a, in_width 256 (held a) }.
Record Toy := mkToy { ledger : Ledger; underway : option (string * string * Z) }.
Definition covered (b : string → Z) (from to : string) (amount : Z) : Prop :=
  from ≠ to ∧ 0 < amount ∧ amount ≤ b from ∧ b to + amount < 2 ^ 256.
#[local] Instance covered_dec b from to amount : Decision (covered b from to amount).
Proof. unfold covered. apply _. Defined.

Lemma paid_ok l from to amount : covered (held l) from to amount → ∀ a, in_width 256 (paid (held l) from to amount a).
Proof.
  intros (Hne & H1 & H2 & H3) a. pose proof (held_ok l a) as Ha. unfold paid, in_width in *. repeat case_bool_decide; subst; lia.
Qed.

Definition settle (t : Toy) : Toy :=
  match underway t with
  | None => t
  | Some (from, to, amount) =>
      match decide (covered (held (ledger t)) from to amount) with
      | left H => mkToy (mkLedger _ (paid_ok _ _ _ _ H)) None
      | right _ => mkToy (ledger t) None
      end
  end.

(** [down]: the accounts that cannot be read. *)
Definition toy_chain (down : string → bool) : Chain Toy := {|
  ch_GetAccount a t :=
    Some (if down a then Err Unreachable else Ok (mkClientAccount a (Some (held (ledger t) a)) 0), t);
  ch_GetCurrentNonce _ _ t := Some (Ok 4, t);
  ch_AddTx stx t :=
    if bool_decide (client_Verify (stTx stx) (stSig stx) = Some true) then
      a ← ctAmount (stTx stx);
      Some (Ok (mkAddTxResponse true "hash" None), mkToy (ledger t) (Some (ctSender (stTx stx), ctRecipient (stTx stx), a)))
    else Some (Err Unreachable, t);
  ch_Unix _ := 1000;
  ch_sleep := settle;
|}.

#[local] Instance toy_settles : Settling (CH := toy_chain (λ _, false)) (λ t, held (ledger t)).
Proof.
  split.
  - intros t. apply held_ok.
  - intros a t. by eexists _, t.
  - intros a t. by eexists 4, t.
  - intros seed to amount nonce unix text extra bytes t Hs Hto Hne Ha Hr Hb. cbn [ch_AddTx toy_chain stTx stSig tool_signed].
    rewrite bool_decide_true by by apply tool_verifies. cbn [ctAmount tool_tx mbind option_bind ctSender ctRecipient].
    eexists _, _. split; [done|]. cbn [ch_sleep toy_chain]. unfold settle. cbn [underway ledger].
    destruct (decide _) as [H|H]; [done|]. exfalso. apply H. split_and!; by (done || lia).
Qed.
(** Two users; alice has 2 of her 5 tokens. *)
Definition alice : User := mkUser 1 "alice" 5.
Definition bob : User := mkUser 2 "bob" 7.
Definition wseed : string := fix_len 32 "w".
Definition fseed : string := fix_len 32 "f".
Definition opening (a : string) : Z :=
  if bool_decide (a = address_of_seed fseed) then 100 * 10 ^ 6
  else if bool_decide (a = user_address alice) then 2 * 10 ^ 6 else 0.
Definition funded (a : string) : Z := if bool_decide (a = address_of_seed wseed) then 12 * 10 ^ 6 else opening a.
Lemma opening_ok a : in_width 256 (opening a).
Proof. unfold opening, in_width. repeat case_bool_decide; lia. Qed.
Lemma funded_ok a : in_width 256 (funded a).
Proof. unfold funded. case_bool_decide; [unfold in_width; lia|apply opening_ok]. Qed.
Definition toy_open : Toy := mkToy (mkLedger opening opening_ok) None.
Definition toy_funded : Toy := mkToy (mkLedger funded funded_ok) None.

Definition balances_of (t : Toy) : list Z :=
  held (ledger t) <$> [user_address alice; user_address bob; address_of_seed wseed; address_of_seed fseed].

Lemma both_payable : Forall payable [alice; bob].
Proof. repeat constructor; simpl; lia. Qed.
Lemma sha_len32 x : string_len (fix_len 32 x) = 32.
Proof. unfold string_len. by rewrite fix_len_length. Qed.


Definition users_csv : string := csv_of [alice; bob].
Lemma users_file_roundtrip_witness : GetUsers (Some users_csv) = Some [alice; bob].
Proof. apply (users_file_roundtrip [alice; bob]). repeat constructor; simpl; lia. Defined.

Definition all_flags : flags :=
  mkFlags true true "node" "users.csv" (Some users_csv) (hex_EncodeToString ("prefix" +:+ fseed)) None.
Definition good_env : ambience := mkAmbience (Some wseed) true true.


(** An account that cannot be read counts as empty: a user who has everything already is
    paid everything again. *)
Theorem unreadable_account_paid_again :
  let run down t := (λ p, balances_of p.2) <$>
    migrate_users (CH := toy_chain down) (address_of_seed wseed) (NewKeyFromSeed wseed) [alice] t in
  run (λ _, false) toy_funded = Some [5000000; 0; 9000000; 100000000] ∧
  run (λ _, true) toy_funded = Some [7000000; 0; 7000000; 100000000].
Proof. split; vm_compute; reflexivity. Qed.

(** A line end in the key file makes the key undecodable, and the wallet file is written
    before that is noticed; a key of less than 32 bytes panics. *)
Theorem faucet_key_line_end :
  let key := hex_EncodeToString fseed in
  GetFaucetAccount (key +:+ String "010" "") = Some ("", "") ∧
  (λ p, (p.1.1, bool_decide (is_Some p.1.2), balances_of p.2)) <$>
    CreateAndFundSenderWallet (CH := toy_chain (λ _, false)) good_env (key +:+ String "010" "") 12 None toy_open =
    Some (Err (MBuild FromInvalid), true, balances_of toy_open) ∧
  GetFaucetAccount "abcd" = None.
Proof. split_and!; vm_compute; reflexivity. Qed.

(** After a second wallet the migration takes the first one by name, here the old one. *)
Theorem second_wallet_ignored :
  let d := Some (<[address_of_seed wseed := hex_EncodeToString (NewKeyFromSeed wseed)]>
             {[address_of_seed fseed := hex_EncodeToString (NewKeyFromSeed fseed)]}) in
  GetMigrationWalletFromFile d = Ok (address_of_seed fseed, NewKeyFromSeed fseed).
Proof. vm_compute. reflexivity. Qed.

(** The total of the balances wraps around, and the wallet is funded with something else. *)
Theorem total_wraps :
  let big := mkUser 3 "carol" (2 ^ 62) in
  let users := [big; big; big; big; alice] in
  calculateTotalUserAmount users = 5 ∧ ToBigNumber (calculateTotalUserAmount users) = 5 * 10 ^ 6 ∧
  ToBigNumber (calculateTotalUserAmount [big; big]) = 2 ^ 63 * 10 ^ 6 ∧ calculateTotalUserAmount [big; big] = - 2 ^ 63.
Proof. split_and!; vm_compute; reflexivity. Qed.

(** One short line makes the whole file unreadable; it is not skipped. *)
Theorem short_line_fails :
  GetUsers (Some ("id,name,balance" +:+ String "010" ("1,alice,5" +:+ String "010" "2,bob"))) = None ∧
  GetUsers (Some ("1,alice" +:+ String "010" "2,bob")) = Some [].
Proof. split; vm_compute; reflexivity. Qed.
End MigrationExamples.
